(* ===== verification/_CoqProject ===== *)
-Q . S2P
Prelude.v
SshString.v
Buffer.v
Bignum.v
BufferPack.v
Base64.v
Match.v
Token.v
Session.v
PacketFilter.v
Misc.v
SshList.v
Crypto.v
Packet.v
SendFacts.v
PacketRecv.v
PacketEtm.v
Kex.v
Channel.v
ChannelSafe.v
ChannelFlow.v
ChannelLink.v
Kdf.v
SessionId.v
Poly1305.v
Chacha.v
Chachapoly.v
PacketAead.v
Libcrypto.v
NewKeys.v
Pki.v
UserAuth.v
AuthServer.v
AuthFacts.v
AuthSafe.v
Sftp.v
SftpClient.v
SftpServer.v
SftpFrame.v
SftpDispatch.v
SftpAttr.v
SftpSafe.v
SftpHandles.v
SftpRequests.v
SftpLink.v
Scp.v
ScpFacts.v
Handshake.v
HandshakeFacts.v
HandshakeBanner.v
