(* ===== verification/Prelude.v ===== *)
(** * Verification of the SSH engine of WindTerm

    WindTerm is a terminal emulator.  Its C code is the copy of libssh under
    [src/src/libssh] (the rest is C++ and Qt, and the vendored regular expression
    library Onigmo); this development models libssh, OpenSSL build, from its
    data structures up to the channels, the authentication and the transfer of files.  Paths below are relative to
    [src/src/libssh].

    ** Conventions

    A function of the code is a function of the same name.  [run A], an option, is
    the result of a computation: [None] is undefined behaviour or a crash (an
    access outside of a block, a null or dangling pointer, [abort]), so a
    theorem that a function returns [Some] says that none of these happens.
    Return codes are the integers of the code; C integers are in [Z] with their
    wrap-around ([u8], [u32], [s32]...), a block of memory is the list of its bytes,
    a null pointer is [None], and the session is passed explicitly.  Memory
    allocation is the class [Allocator], a function of the size of the request: any sizes
    may be refused, and two requests of one size are answered alike.  What the code takes
    from OpenSSL (digests, HMAC, ciphers, big numbers, key pairs, random numbers)
    are classes whose laws are the documented behaviour of these functions; the
    witnesses instantiate them.

    ** Files

    - This file: bytes, machine integers, memory, lists indexed by [Z].
    - [SshString] ([src/string.c]), [Buffer] ([src/buffer.c]), [Bignum]
      ([src/bignum.c]), [BufferPack] (the variadic pack and unpack of
      [src/buffer.c]), [Base64] ([src/base64.c]), [Match] ([src/match.c]), [Token]
      ([src/token.c]), [Misc] and [SshList] ([src/misc.c]): the data structures.
      A buffer refines a queue of bytes (but for [ssh_buffer_pass_bytes_end]) and a linked list of up to
      [INT_MAX] cells a sequence; unpacking any
      bytes is safe, inverts packing, and takes nothing but encodings.
    - [Session], [PacketFilter]: the protocol state of a session and the filter that
      says which packets it accepts.
    - [Crypto], [Packet], [PacketRecv]: cipher records and MACs, sending, receiving
      and dispatching packets ([src/packet.c], [src/packet_crypt.c]).  [PacketEtm] and
      [PacketAead]: what one end writes, the callback of the other end's socket dispatches,
      for encrypt-then-MAC and authenticated ciphers; with a MAC only authentic packets are dispatched.
    - [Poly1305], [Chacha], [Chachapoly] ([src/external/poly1305.c],
      [src/external/chacha.c], [src/chachapoly.c]): the bundled ciphers.
      Poly1305 is proved equal to RFC 8439's authenticator; of ChaCha20 the loop over the blocks is proved
      and the block function checked on the RFC's test vector; together they are an instance of the
      interface of [PacketAead].
      [Libcrypto]: the ciphers over OpenSSL and the table of ciphers.
    - [Kex], [Kdf], [SessionId], [NewKeys] ([src/kex.c], [src/kdf.c], [src/wrapper.c],
      [ssh_packet_set_newkeys]): a key exchange from the proposals to the switch of
      keys.  Both ends select the same methods, hash the same transcript,
      derive the keys of RFC 4253 and use them in mirrored directions.
    - [Pki] ([src/pki.c], [src/pki_crypto.c], [src/pki_ed25519_common.c]): blobs of
      public keys and signatures, signing and verifying.
    - [Channel] ([src/channels.c], and the waiting loops of [src/session.c]): the
      channels of a session in a heap, over the interface [PacketLayer].
      [ChannelSafe]: no message of the peer makes a handler use freed memory.
      [ChannelFlow], [ChannelLink]: the windows of two connected ends agree,
      the streams arrive complete and in order, and the two ends do not
      block each other; a peer with tiny packets and a second confirmation of an
      open channel show two errors of the code.
    - [UserAuth] ([src/auth.c], the service request of [src/client.c], the choice of
      algorithms of [src/pki.c]) and [AuthServer] ([src/messages.c],
      [src/server.c]): the two sides of the authentication, over the same
      interface.  [AuthFacts]: a client that signs is let in, the methods of a refusal,
      the prompts and the answers arrive.  [AuthSafe]: the flags of a session
      change only when the application accepted, and for a public key only after a
      verification bound to the session, the user and the key; a refused request for
      answers leaves a client waiting.
    - [Sftp] ([src/sftp.c]: packets, messages, attributes, the start of the
      protocol), [SftpClient] (its calls on files, directories and paths) and
      [SftpServer] ([src/sftpserver.c]), over the interface [SftpChannel] of a channel whose
      laws are [ChannelStream].  [SftpFrame]: packets survive any cutting of
      the stream and reading one ends.  [SftpDispatch]: every reply finds its request.
      [SftpAttr]: attributes arrive.  [SftpSafe], [SftpRequests]: neither side is hurt by
      the bytes of the other (but for the listings of an OpenSSH server and two calls in versions before 3).  [SftpHandles]: the handles of a server are a finite map.
      [SftpLink]: client and server together read and write a file.
    - [Scp] ([src/scp.c]) and [ScpFacts], over the same channel with two more calls:
      the states of a context, the lines from a source to a sink, and the reading of a file.
    - [Handshake] ([src/client.c], [src/server.c], [src/packet_cb.c],
      [src/curve25519.c]): the start of a connection, from the banners over the connection
      callbacks and the curve25519 exchange to NEWKEYS; a [conn] is a session with the
      fields these functions add.  [SendFacts]: what a send keeps of a session.  [HandshakeFacts]: no
      run of a client connects before the server's signature was verified.
      [HandshakeBanner]: a banner of a length that the receiver takes arrives however the stream is cut.

    ** Interfaces

    [BignumLib], [HmacLib], [RandomLib], [HashLib], [EvpLib], [KeyLib] and [X25519Lib] stand
    for OpenSSL.  [stream_cipher] and [aead_cipher] ([Crypto]) is what the packet layer needs of a
    cipher with an integrated MAC; chacha20-poly1305 implements it.  The packet
    layer takes [ssh_packet_set_newkeys] and [ssh_send_rekex] of the key exchange
    above it as arguments, and the handlers of the packets as a function of the
    session; [NewKeys] and [Kex] define them, and [Handshake] puts the parts together.  The channels see the packet layer
    through [PacketLayer]; [PacketLayerLaws] ([ChannelSafe]) says what they rely on,
    and the session of [Packet] satisfies it while packets are queued during a
    rekeying.

    ** Fuel

    A loop that is not structural takes fuel that its caller computes from the
    data (the requested length in [Kdf.derive_loop], the number of cells in
    [SshList], 66 doublings in [Buffer.smallest_loop], the length of the text in
    [Match]), and the theorems on it show that the fuel is enough: the result is
    never [None] for want of it.  A call that waits for the peer has as fuel the
    number of polls; the theorems on channels are about sessions that do not
    block, where one poll is enough.  The readers of SFTP have as fuel the
    [patience] of a stream: its bytes and its reads that give nothing.  The loop of the
    socket in [Handshake] takes at least a byte in every turn but the last.

    ** Not modelled

    Logging, error messages and [pcap]; sockets, polling and system calls; the
    key exchange methods other than curve25519, OpenSSL itself and the other back ends
    (gcrypt, mbedtls); compression; private key files; configuration files and
    known hosts; the C++ parts of the program and Onigmo.  The
    manifest lists every component with what is missing from it. *)

From Stdlib Require Export ZArith Lia List Bool.
From Stdlib Require Export Strings.Byte.
From stdpp Require Export base tactics sets list numbers strings.

#[global] Open Scope Z_scope.
#[export] Set Default Goal Selector "!".

(** ** Bytes *)

Abbreviation bytes := (list byte).

(** The value of an [unsigned char], and the conversion of an integer to it. *)
Definition b2z (b : byte) : Z := Z.of_N (Byte.to_N b).

Definition z2b (z : Z) : byte :=
  match Byte.of_N (Z.to_N (z mod 256)) with
  | Some b => b
  | None => Byte.x00
  end.

#[global] Instance byte_eq_dec : EqDecision byte := Byte.byte_eq_dec.

Lemma b2z_range (b : byte) : 0 <= b2z b < 256.
Proof. unfold b2z. pose proof (Byte.to_N_bounded b). lia. Qed.

Lemma b2z_z2b (z : Z) : b2z (z2b z) = z mod 256.
Proof.
  unfold z2b, b2z. pose proof (Z.mod_pos_bound z 256 eq_refl).
  destruct (Byte.of_N _) as [b|] eqn:E.
  - apply Byte.to_of_N in E. rewrite E. lia.
  - apply Byte.of_N_None_iff in E. lia.
Qed.

Lemma b2z_inj (a b : byte) : b2z a = b2z b -> a = b.
Proof.
  unfold b2z. intros H. apply N2Z.inj in H.
  pose proof (Byte.of_to_N a) as Ha. rewrite H, Byte.of_to_N in Ha. congruence.
Qed.

Lemma z2b_b2z (b : byte) : z2b (b2z b) = b.
Proof. apply b2z_inj. rewrite b2z_z2b. apply Z.mod_small, b2z_range. Qed.

Lemma z2b_mod (z : Z) : z2b (z mod 256) = z2b z.
Proof. unfold z2b. by rewrite Z.mod_mod. Qed.

#[global] Arguments b2z : simpl never.
#[global] Arguments z2b : simpl never.

(** A C string literal as the bytes before its terminating NUL. *)
Definition cstr (s : string) : bytes := String.list_byte_of_string s.

(** ** Machine integers: every conversion to a width wraps *)

Definition u8 (z : Z) : Z := z mod 2 ^ 8.
Definition u16 (z : Z) : Z := z mod 2 ^ 16.
Definition u32 (z : Z) : Z := z mod 2 ^ 32.
Definition u64 (z : Z) : Z := z mod 2 ^ 64.

Definition INT_MAX : Z := 2 ^ 31 - 1.

(** [int]: the two's complement reading of the low 32 bits. *)
Definition s32 (z : Z) : Z := (z + 2 ^ 31) mod 2 ^ 32 - 2 ^ 31.

#[global] Arguments u8 : simpl never.
#[global] Arguments u16 : simpl never.
#[global] Arguments u32 : simpl never.
#[global] Arguments u64 : simpl never.
#[global] Arguments s32 : simpl never.

Lemma u32_range z : 0 <= u32 z < 2 ^ 32.
Proof. by apply Z.mod_pos_bound. Qed.

Lemma u64_range z : 0 <= u64 z < 2 ^ 64.
Proof. by apply Z.mod_pos_bound. Qed.

Lemma u8_small z : 0 <= z < 2 ^ 8 -> u8 z = z.
Proof. apply Z.mod_small. Qed.

Lemma u16_small z : 0 <= z < 2 ^ 16 -> u16 z = z.
Proof. apply Z.mod_small. Qed.

Lemma u32_small z : 0 <= z < 2 ^ 32 -> u32 z = z.
Proof. apply Z.mod_small. Qed.

Lemma u64_small z : 0 <= z < 2 ^ 64 -> u64 z = z.
Proof. apply Z.mod_small. Qed.

Lemma s32_small z : - 2 ^ 31 <= z < 2 ^ 31 -> s32 z = z.
Proof. intros. unfold s32. rewrite Z.mod_small; lia. Qed.

(** Removes every wrap whose argument [lia] can bound. *)
Ltac unwrap :=
  repeat match goal with
    | |- context [u8 ?z] => rewrite (u8_small z) by lia
    | |- context [u16 ?z] => rewrite (u16_small z) by lia
    | |- context [u32 ?z] => rewrite (u32_small z) by lia
    | |- context [u64 ?z] => rewrite (u64_small z) by lia
    | |- context [s32 ?z] => rewrite (s32_small z) by lia
    | H : context [u32 ?z] |- _ => rewrite (u32_small z) in H by lia
    | H : context [u64 ?z] |- _ => rewrite (u64_small z) in H by lia
    end.

(** ** Lists indexed by [Z] *)

Definition zlen {A} (l : list A) : Z := Z.of_nat (length l).
Definition ztake {A} (n : Z) (l : list A) : list A := take (Z.to_nat n) l.
Definition zdrop {A} (n : Z) (l : list A) : list A := drop (Z.to_nat n) l.
Definition zrep {A} (n : Z) (x : A) : list A := replicate (Z.to_nat n) x.

Section ZLists.
Context {A : Type}.
Implicit Types l k : list A.

Lemma zlen_nonneg l : 0 <= zlen l.
Proof. unfold zlen. lia. Qed.

Lemma zlen_nil : zlen (@nil A) = 0.
Proof. done. Qed.

Lemma zlen_cons x l : zlen (x :: l) = 1 + zlen l.
Proof. unfold zlen. cbn [length]. lia. Qed.

Lemma zlen_app l k : zlen (l ++ k) = zlen l + zlen k.
Proof. unfold zlen. rewrite length_app. lia. Qed.

Lemma zlen_rep n (x : A) : zlen (zrep n x) = Z.max 0 n.
Proof. unfold zlen, zrep. rewrite length_replicate. lia. Qed.

Lemma zlen_take n l : zlen (ztake n l) = Z.max 0 (Z.min n (zlen l)).
Proof. unfold zlen, ztake. rewrite length_take. lia. Qed.

Lemma zlen_drop n l : zlen (zdrop n l) = Z.max 0 (zlen l - Z.max 0 n).
Proof. unfold zlen, zdrop. rewrite length_drop. lia. Qed.

Lemma ztake_drop n l : ztake n l ++ zdrop n l = l.
Proof. apply take_drop. Qed.

Lemma ztake_nil n : ztake n (@nil A) = [].
Proof. apply take_nil. Qed.

Lemma ztake_all n l : zlen l <= n -> ztake n l = l.
Proof. unfold zlen, ztake. intros. apply take_ge. lia. Qed.

Lemma zdrop_all n l : zlen l <= n -> zdrop n l = [].
Proof. unfold zlen, zdrop. intros. apply drop_ge. lia. Qed.

Lemma ztake_0 n l : n <= 0 -> ztake n l = [].
Proof. unfold ztake. intros. by replace (Z.to_nat n) with 0%nat by lia. Qed.

Lemma zdrop_0 n l : n <= 0 -> zdrop n l = l.
Proof. unfold zdrop. intros. by replace (Z.to_nat n) with 0%nat by lia. Qed.

Lemma ztake_app_le n l k : n <= zlen l -> ztake n (l ++ k) = ztake n l.
Proof. unfold zlen, ztake. intros. apply take_app_le. lia. Qed.

Lemma ztake_app_ge n l k :
  zlen l <= n -> ztake n (l ++ k) = l ++ ztake (n - zlen l) k.
Proof.
  unfold zlen, ztake. intros. rewrite take_app_ge by lia. do 2 f_equal. lia.
Qed.

Lemma zdrop_app_le n l k : n <= zlen l -> zdrop n (l ++ k) = zdrop n l ++ k.
Proof. unfold zlen, zdrop. intros. apply drop_app_le. lia. Qed.

Lemma zdrop_app_ge n l k :
  zlen l <= n -> zdrop n (l ++ k) = zdrop (n - zlen l) k.
Proof.
  unfold zlen, zdrop. intros. rewrite drop_app_ge by lia. f_equal. lia.
Qed.

Lemma zdrop_drop n m l : 0 <= n -> 0 <= m -> zdrop n (zdrop m l) = zdrop (m + n) l.
Proof. unfold zdrop. intros. rewrite drop_drop. f_equal. lia. Qed.

Lemma ztake_take n m l : ztake n (ztake m l) = ztake (Z.min n m) l.
Proof. unfold ztake. rewrite take_take. f_equal. lia. Qed.

Lemma ztake_take_le n m l : n <= m -> ztake n (ztake m l) = ztake n l.
Proof. intros. rewrite ztake_take. f_equal. lia. Qed.

Lemma zdrop_take n m l :
  0 <= n -> zdrop n (ztake m l) = ztake (m - n) (zdrop n l).
Proof.
  unfold zdrop, ztake. intros. rewrite skipn_firstn_comm. do 2 f_equal. lia.
Qed.
End ZLists.

#[global] Arguments zlen : simpl never.
#[global] Arguments ztake : simpl never.
#[global] Arguments zdrop : simpl never.
#[global] Arguments zrep : simpl never.

Create Rewrite HintDb zlist.
#[export] Hint Rewrite @zlen_nil @zlen_cons @zlen_app @zlen_rep @zlen_take @zlen_drop : zlist.

Ltac pose_zlen l :=
  lazymatch goal with
  | _ : 0 <= zlen l |- _ => fail
  | _ => pose proof (zlen_nonneg l)
  end.

(** Length arithmetic on [zlen]. *)
Ltac zlen_lia :=
  autorewrite with zlist in *;
  repeat match goal with
    | |- context [zlen ?l] => pose_zlen l
    | _ : context [zlen ?l] |- _ => pose_zlen l
    end; lia.

(** ** Undefined behaviour

    A computation of type [run A] is [None] when the C execution reads or
    writes outside an object, or calls [abort]. *)

Abbreviation run := option.

(** [memcpy (dst + off, src + soff, n)]. *)
Definition memcpy (dst : bytes) (off : Z) (src : bytes) (soff n : Z) : run bytes :=
  if (0 <=? n) && (0 <=? off) && (0 <=? soff) && (off + n <=? zlen dst) && (soff + n <=? zlen src)
  then Some (ztake off dst ++ ztake n (zdrop soff src) ++ zdrop (off + n) dst)
  else None.

(** [memmove (buf + off, buf + soff, n)] inside one object. *)
Definition memmove (buf : bytes) (off soff n : Z) : run bytes := memcpy buf off buf soff n.

(** [explicit_bzero (buf + off, n)]. *)
Definition bzero (buf : bytes) (off n : Z) : run bytes := memcpy buf off (zrep n Byte.x00) 0 n.

(** [strlen] of a pointer to the bytes [mem]: [None] when no NUL is in the object. *)
Fixpoint strlen (mem : bytes) : run Z :=
  match mem with
  | [] => None
  | c :: mem => if Byte.eqb c Byte.x00 then Some 0 else n ← strlen mem; Some (1 + n)
  end.

Section Memory.
Lemma strlen_range mem n : strlen mem = Some n -> 0 <= n < zlen mem.
Proof.
  revert n. induction mem as [|c mem IH]; intros n; cbn [strlen]; [done|].
  rewrite zlen_cons. pose proof (zlen_nonneg mem). destruct (Byte.eqb c Byte.x00).
  - intros [= <-]. lia.
  - destruct (strlen mem) as [k|]; cbn [mbind option_bind]; intros [= <-].
    specialize (IH k eq_refl). lia.
Qed.
Lemma memcpy_ok dst off src soff n :
  0 <= n -> 0 <= off -> 0 <= soff -> off + n <= zlen dst -> soff + n <= zlen src ->
  memcpy dst off src soff n
  = Some (ztake off dst ++ ztake n (zdrop soff src) ++ zdrop (off + n) dst).
Proof.
  intros. unfold memcpy. by rewrite !(proj2 (Z.leb_le _ _)) by done.
Qed.

Lemma memcpy_whole d off n :
  0 <= n -> 0 <= off -> off + n <= zlen d ->
  memcpy (zrep n Byte.x00) 0 d off n = Some (ztake n (zdrop off d)).
Proof.
  intros. rewrite memcpy_ok by zlen_lia. f_equal. rewrite (ztake_0 0) by lia.
  rewrite (zdrop_all (0 + n)) by zlen_lia. by rewrite app_nil_r.
Qed.

(** The whole of a block of the same size is replaced. *)
Lemma memcpy_over p d n : zlen p = n -> zlen d = n -> memcpy p 0 d 0 n = Some d.
Proof.
  intros Hp Hd. rewrite memcpy_ok by zlen_lia. f_equal.
  rewrite (ztake_0 0), (zdrop_0 0), (ztake_all n), (zdrop_all (0 + n)) by lia. by rewrite app_nil_r.
Qed.

Lemma memcpy_zlen dst off src soff n dst' :
  memcpy dst off src soff n = Some dst' -> zlen dst' = zlen dst.
Proof.
  unfold memcpy. rewrite <- !andb_assoc. intros H.
  destruct (_ && _) eqn:E in H; [|done]. rewrite !andb_true_iff, !Z.leb_le in E.
  simplify_eq. zlen_lia.
Qed.

Lemma bzero_ok buf off n :
  0 <= n -> 0 <= off -> off + n <= zlen buf ->
  bzero buf off n = Some (ztake off buf ++ zrep n Byte.x00 ++ zdrop (off + n) buf).
Proof.
  intros. unfold bzero. rewrite memcpy_ok by zlen_lia.
  by rewrite (zdrop_0 0), (ztake_all n) by zlen_lia.
Qed.
End Memory.

(** ** The allocator

    [malloc n] is the block of [n] bytes the C library returns, with whatever
    it holds, or [None] for [NULL].  It is a function of the size: requests of any
    sizes may fail, but two requests of the same size have the same answer, so a
    failure of the second of two such requests alone is outside of the model.  Every component that allocates is stated
    against this interface. *)

Class Allocator := {
  malloc : Z -> option bytes;
  malloc_zlen : forall n p, 0 <= n -> malloc n = Some p -> zlen p = n
}.

(** Memory does not run out. *)
Definition malloc_never_fails `{Allocator} : Prop := forall n, 0 <= n -> malloc n <> None.

(** [realloc (old, n)]: the common prefix is preserved. *)
Definition realloc `{Allocator} (old : bytes) (n : Z) : option bytes :=
  match malloc n with
  | None => None
  | Some p => Some (ztake n old ++ zdrop (zlen old) p)
  end.

Lemma realloc_zlen `{Allocator} old n p :
  0 <= n -> realloc old n = Some p -> zlen p = n.
Proof.
  unfold realloc. intros Hn H1. destruct (malloc n) as [q|] eqn:E; [|done].
  apply malloc_zlen in E; [|done]. simplify_eq. zlen_lia.
Qed.

(** Two allocators used to run the definitions: one that always succeeds with
    cleared blocks, and one that refuses every block above a limit. *)
Definition cleared_block (n : Z) : bytes := zrep n Byte.x00.

Lemma cleared_block_zlen n : 0 <= n -> zlen (cleared_block n) = n.
Proof. unfold cleared_block. zlen_lia. Qed.

Definition calloc_allocator : Allocator.
Proof.
  refine {| malloc n := Some (cleared_block n) |}.
  intros n p Hn [= <-]. by apply cleared_block_zlen.
Defined.

Definition limited_allocator (limit : Z) : Allocator.
Proof.
  refine {| malloc n := if n <=? limit then Some (cleared_block n) else None |}.
  intros n p Hn. case_match; intros [= <-]. by apply cleared_block_zlen.
Defined.

(** ** Byte order

    The host is little-endian: the memory image of a [w]-byte integer is
    [le_bytes w z], and [htonl] and its relatives reverse it. *)

Fixpoint le_bytes (n : nat) (z : Z) : bytes :=
  match n with
  | O => []
  | S n => z2b z :: le_bytes n (z / 256)
  end.

Fixpoint le_val (l : bytes) : Z :=
  match l with
  | [] => 0
  | b :: l => b2z b + 256 * le_val l
  end.

Definition be_bytes (n : nat) (z : Z) : bytes := rev (le_bytes n z).
Definition be_val (l : bytes) : Z := le_val (rev l).

Definition htons (z : Z) : Z := be_val (le_bytes 2 z).
Definition htonl (z : Z) : Z := be_val (le_bytes 4 z).
Definition htonll (z : Z) : Z := be_val (le_bytes 8 z).
Definition ntohs (z : Z) : Z := be_val (le_bytes 2 z).
Definition ntohl (z : Z) : Z := be_val (le_bytes 4 z).
Definition ntohll (z : Z) : Z := be_val (le_bytes 8 z).

Section ByteOrder.
Lemma length_le_bytes n z : length (le_bytes n z) = n.
Proof. revert z. induction n as [|n IH]; intros z; simpl; auto. Qed.

Lemma zlen_le_bytes n z : zlen (le_bytes n z) = Z.of_nat n.
Proof. unfold zlen. by rewrite length_le_bytes. Qed.

Lemma zlen_be_bytes n z : zlen (be_bytes n z) = Z.of_nat n.
Proof. unfold zlen, be_bytes. by rewrite length_rev, length_le_bytes. Qed.

Lemma le_val_cons b l : le_val (b :: l) = b2z b + 256 * le_val l.
Proof. done. Qed.

Lemma le_val_app a b : le_val (a ++ b) = le_val a + 256 ^ zlen a * le_val b.
Proof.
  unfold zlen. induction a as [|x a IH]; [cbn [app length Z.of_nat]; change (le_val []) with 0; lia|].
  cbn [app length]. rewrite !le_val_cons, IH, Nat2Z.inj_succ, Z.pow_succ_r by lia. lia.
Qed.

Lemma le_val_range l : 0 <= le_val l < 256 ^ zlen l.
Proof.
  induction l as [|b l IH]; [done|].
  rewrite zlen_cons, Z.pow_add_r by zlen_lia. simpl.
  pose proof (b2z_range b). lia.
Qed.

Lemma le_val_bytes n z : le_val (le_bytes n z) = z mod 256 ^ Z.of_nat n.
Proof.
  revert z. induction n as [|n IH]; intros z; simpl le_bytes; simpl le_val.
  - by rewrite Z.mod_1_r.
  - rewrite IH, b2z_z2b, Nat2Z.inj_succ, Z.pow_succ_r by lia.
    symmetry. apply Z.rem_mul_r; lia.
Qed.

Lemma le_bytes_val l : le_bytes (length l) (le_val l) = l.
Proof.
  induction l as [|b l IH]; [done|]. cbn [length le_bytes le_val].
  pose proof (b2z_range b). f_equal.
  - rewrite <- z2b_mod, Z.mul_comm, Z_mod_plus_full, Z.mod_small by lia. apply z2b_b2z.
  - rewrite Z.mul_comm, Z.div_add, Z.div_small by lia. apply IH.
Qed.

(** Only the low bits are stored. *)
Lemma le_bytes_wrap n z : le_bytes n (z mod 256 ^ Z.of_nat n) = le_bytes n z.
Proof.
  rewrite <- le_val_bytes. pose proof (le_bytes_val (le_bytes n z)) as Hb.
  by rewrite length_le_bytes in Hb.
Qed.

Lemma be_val_bytes n z : be_val (be_bytes n z) = z mod 256 ^ Z.of_nat n.
Proof. unfold be_val, be_bytes. rewrite rev_involutive. apply le_val_bytes. Qed.

Lemma le_bytes_be_val n l : length l = n -> le_bytes n (be_val l) = rev l.
Proof.
  intros <-. unfold be_val. rewrite <- length_rev. apply le_bytes_val.
Qed.

Lemma be_val_range l : 0 <= be_val l < 256 ^ zlen l.
Proof.
  unfold be_val. pose proof (le_val_range (rev l)) as H.
  unfold zlen in *. by rewrite length_rev in H.
Qed.

(** The memory image of a value in network order is its big-endian image. *)
Lemma le_bytes_htonl z : le_bytes 4 (htonl z) = be_bytes 4 z.
Proof. apply le_bytes_be_val, length_le_bytes. Qed.
Lemma le_bytes_htons z : le_bytes 2 (htons z) = be_bytes 2 z.
Proof. apply le_bytes_be_val, length_le_bytes. Qed.
Lemma le_bytes_htonll z : le_bytes 8 (htonll z) = be_bytes 8 z.
Proof. apply le_bytes_be_val, length_le_bytes. Qed.

Lemma ntohl_le_val l : length l = 4%nat -> ntohl (le_val l) = be_val l.
Proof. intros H. unfold ntohl. by rewrite <- H, le_bytes_val. Qed.
Lemma ntohs_le_val l : length l = 2%nat -> ntohs (le_val l) = be_val l.
Proof. intros H. unfold ntohs. by rewrite <- H, le_bytes_val. Qed.
Lemma ntohll_le_val l : length l = 8%nat -> ntohll (le_val l) = be_val l.
Proof. intros H. unfold ntohll. by rewrite <- H, le_bytes_val. Qed.

Lemma ntohl_htonl z : 0 <= z < 2 ^ 32 -> ntohl (htonl z) = z.
Proof.
  intros. unfold ntohl. rewrite le_bytes_htonl, be_val_bytes. by apply Z.mod_small.
Qed.
End ByteOrder.

#[export] Hint Rewrite zlen_le_bytes zlen_be_bytes : zlist.
#[global] Arguments le_bytes : simpl never.
#[global] Arguments le_val : simpl never.
#[global] Arguments htonl : simpl never.
#[global] Arguments ntohl : simpl never.

(** ** Bit fields *)

Section Bits.
Lemma lor_low y x k : 0 <= k -> 0 <= x < 2 ^ k -> Z.lor (Z.shiftl y k) x = y * 2 ^ k + x.
Proof.
  intros Hk Hx. pose proof (Z.add_lor_land (Z.shiftl y k) x) as Hsum.
  assert (Hz : Z.land (Z.shiftl y k) x = 0).
  { apply Z.bits_inj'. intros n Hn. rewrite Z.land_spec, Z.bits_0.
    destruct (decide (n < k)) as [Hlt|Hge].
    - by rewrite Z.shiftl_spec_low.
    - destruct (decide (x = 0)) as [->|Hne].
      + by rewrite Z.testbit_0_l, andb_false_r.
      + rewrite (Z.bits_above_log2 x), andb_false_r; [done|lia|].
        apply Z.log2_lt_pow2; [lia|]. eapply Z.lt_le_trans; [apply Hx|].
        apply Z.pow_le_mono_r; lia. }
  rewrite Hz, Z.shiftl_mul_pow2 in Hsum by done. rewrite Z.shiftl_mul_pow2 by done. lia.
Qed.

Lemma land_ones_mod n k : 0 <= k -> Z.land n (2 ^ k - 1) = n mod 2 ^ k.
Proof. intros. rewrite <- Z.land_ones by done. f_equal. rewrite Z.ones_equiv. lia. Qed.
End Bits.

(** ** Lookups in C arrays and strings *)

(** [mem[i]]: [None] outside the object. *)
Definition mem_at (mem : bytes) (i : Z) : run byte :=
  if i <? 0 then None else mem !! Z.to_nat i.

(** [strchr (s, c) - s] for the string [s]; the terminator is part of it. *)
Fixpoint strchr (s : bytes) (c : byte) : option Z :=
  match s with
  | [] => if Byte.eqb c Byte.x00 then Some 0 else None
  | x :: s => if Byte.eqb x c then Some 0 else n ← strchr s c; Some (1 + n)
  end.

(** A list that can be the text of a C string. *)
Definition is_cstr (s : bytes) : Prop := Byte.x00 ∉ s.

Lemma byte_eqb_eq a b : Byte.eqb a b = true <-> a = b.
Proof. split; [apply Byte.byte_dec_bl|apply Byte.byte_dec_lb]. Qed.

Lemma byte_eqb_refl a : Byte.eqb a a = true.
Proof. by apply byte_eqb_eq. Qed.

Lemma byte_eqb_neq a b : Byte.eqb a b = false <-> a <> b.
Proof. rewrite <- byte_eqb_eq. by destruct (Byte.eqb a b). Qed.

Lemma strlen_cstr s l : is_cstr s -> strlen (s ++ Byte.x00 :: l) = Some (zlen s).
Proof.
  unfold is_cstr. induction s as [|c s IH]; cbn [app strlen]; intros Hs; [done|].
  rewrite not_elem_of_cons in Hs. destruct Hs as [Hc Hs].
  rewrite (proj2 (byte_eqb_neq c _)), IH by done. cbn [mbind option_bind].
  by rewrite zlen_cons.
Qed.

(** ** libssh return codes *)

Definition SSH_OK : Z := 0.
Definition SSH_ERROR : Z := -1.
Definition SSH_AGAIN : Z := -2.
Definition SSH_EOF : Z := -127.
