(* ===== verification/SshString.v ===== *)
(** * SSH strings ([libssh/src/string.c])

    A [struct ssh_string_struct] is a packed 32-bit size in network order
    followed by its payload; [sizeof] of the struct is 5 because the payload is
    declared with one byte, so a string of [n] bytes owns [n + 1] payload bytes.
    The pointer arguments that the code tests against [NULL] are options. *)

From S2P Require Import Prelude.

Definition STRING_SIZE_MAX : Z := 0x10000000.

Record ssh_string := mk_string {
  str_size : Z;        (* the raw [size] field, in network order *)
  str_data : bytes     (* the payload bytes the allocation owns *)
}.

(** [sizeof (struct ssh_string_struct)] and the offset of [data]. *)
Definition string_header : Z := 5.
Definition string_data_off : Z := 4.

(** The memory image of the object, as [ssh_buffer_add_data] copies it. *)
Definition string_image (s : ssh_string) : bytes := le_bytes 4 (str_size s) ++ str_data s.

Section Strings.
Context `{Allocator}.

(** [ssh_string_new]: [NULL] above [STRING_SIZE_MAX] or when out of memory. *)
Definition ssh_string_new (size : Z) : option ssh_string :=
  if STRING_SIZE_MAX <? size then None else
  match malloc (string_header + size) with
  | None => None
  | Some block =>
      Some (mk_string (htonl size) (Byte.x00 :: zdrop (string_data_off + 1) block))
  end.

Definition ssh_string_len (s : option ssh_string) : Z :=
  match s with
  | None => 0
  | Some s =>
      let size := ntohl (str_size s) in
      if (0 <? size) && (size <=? STRING_SIZE_MAX) then size else 0
  end.

(** [ssh_string_fill (s, data, len)]: the return code and the new string. *)
Definition ssh_string_fill (s : option ssh_string) (data : option bytes) (len : Z)
    : run (Z * option ssh_string) :=
  match s, data with
  | Some st, Some d =>
      if (len =? 0) || (ssh_string_len s <? len) then Some (-1, s) else
      p ← memcpy (str_data st) 0 d 0 len;
      Some (0, Some (mk_string (str_size st) p))
  | _, _ => Some (-1, s)
  end.

(** [ssh_string_from_char (what)]; [what] is the text before the NUL. *)
Definition ssh_string_from_char (what : option bytes) : run (option ssh_string) :=
  match what with
  | None => Some None
  | Some w =>
      let len := zlen w in
      match ssh_string_new len with
      | None => Some None
      | Some ptr =>
          p ← memcpy (str_data ptr) 0 w 0 len;
          Some (Some (mk_string (str_size ptr) p))
      end
  end.

(** [ssh_string_get_char]: terminates the payload in place and returns it. *)
Definition ssh_string_get_char (s : option ssh_string) : run (option ssh_string) :=
  match s with
  | None => Some None
  | Some st =>
      p ← memcpy (str_data st) (ssh_string_len s) [Byte.x00] 0 1;
      Some (Some (mk_string (str_size st) p))
  end.

(** [ssh_string_to_char]: a fresh block with the payload and a NUL. *)
Definition ssh_string_to_char (s : option ssh_string) : run (option bytes) :=
  match s with
  | None => Some None
  | Some st =>
      let len := ssh_string_len s in
      if u64 (len + 1) <? len then Some None else
      match malloc (u64 (len + 1)) with
      | None => Some None
      | Some new =>
          p ← memcpy new 0 (str_data st) 0 len;
          p ← memcpy p len [Byte.x00] 0 1;
          Some (Some p)
      end
  end.

Definition ssh_string_copy (s : option ssh_string) : run (option ssh_string) :=
  match s with
  | None => Some None
  | Some st =>
      let len := ssh_string_len s in
      if len =? 0 then Some None else
      match ssh_string_new len with
      | None => Some None
      | Some new =>
          p ← memcpy (str_data new) 0 (str_data st) 0 len;
          Some (Some (mk_string (str_size new) p))
      end
  end.

(** [ssh_string_burn]: clears the payload and keeps the size. *)
Definition ssh_string_burn (s : option ssh_string) : run (option ssh_string) :=
  match s with
  | None => Some None
  | Some st =>
      if str_size st =? 0 then Some s else
      p ← bzero (str_data st) 0 (ssh_string_len s);
      Some (Some (mk_string (str_size st) p))
  end.

(** [ssh_string_data]: the payload pointer, [NULL] for [NULL]. *)
Definition ssh_string_data (s : option ssh_string) : option bytes :=
  match s with None => None | Some st => Some (str_data st) end.
End Strings.

#[global] Arguments ssh_string_burn : simpl never.

(** ** Well-formed strings and the text they denote *)

(** What every constructor of the file establishes. *)
Definition string_wf (s : ssh_string) : Prop :=
  exists n, 0 <= n <= STRING_SIZE_MAX /\ str_size s = htonl n /\ zlen (str_data s) = n + 1.

(** The text: the first [ssh_string_len] bytes of the payload. *)
Definition string_text (s : ssh_string) : bytes :=
  ztake (ssh_string_len (Some s)) (str_data s).

Lemma ssh_string_len_htonl n d :
  0 <= n <= STRING_SIZE_MAX -> ssh_string_len (Some (mk_string (htonl n) d)) = n.
Proof.
  unfold ssh_string_len, STRING_SIZE_MAX. cbn [str_size]. intros.
  rewrite ntohl_htonl by lia. destruct (0 <? n) eqn:?, (n <=? 0x10000000) eqn:?; simpl; lia.
Qed.

Lemma string_wf_len s :
  string_wf s ->
  0 <= ssh_string_len (Some s) <= STRING_SIZE_MAX
  /\ str_size s = htonl (ssh_string_len (Some s))
  /\ zlen (str_data s) = ssh_string_len (Some s) + 1.
Proof.
  destruct s as [sz d]. intros (n & Hn & Hsz & Hd). cbn [str_size str_data] in *. subst sz.
  by rewrite ssh_string_len_htonl.
Qed.

Lemma string_text_zlen s : string_wf s -> zlen (string_text s) = ssh_string_len (Some s).
Proof. intros Hs. apply string_wf_len in Hs. unfold string_text. zlen_lia. Qed.

Section StringFacts.
Context `{Allocator}.

Lemma ssh_string_new_wf n s :
  0 <= n -> ssh_string_new n = Some s ->
  string_wf s /\ ssh_string_len (Some s) = n.
Proof.
  unfold ssh_string_new. intros Hn Hs.
  destruct (STRING_SIZE_MAX <? n) eqn:Hmax; [done|].
  destruct (malloc _) as [block|] eqn:Hm; simplify_eq.
  apply malloc_zlen in Hm; [|unfold string_header; lia].
  rewrite ssh_string_len_htonl by lia. split; [|done].
  exists n. unfold string_header, string_data_off in *. cbn [str_size str_data].
  repeat split; [lia..|]. zlen_lia.
Qed.

(** Filling a string of the right length writes exactly the text. *)
Lemma fill_text s w p :
  string_wf s -> ssh_string_len (Some s) = zlen w ->
  memcpy (str_data s) 0 w 0 (zlen w) = Some p ->
  string_wf (mk_string (str_size s) p) /\ string_text (mk_string (str_size s) p) = w.
Proof.
  intros Hwf Hlen Hm. pose proof (string_wf_len s Hwf) as (Hr & Hsz & Hd).
  pose proof (memcpy_zlen _ _ _ _ _ _ Hm) as Hp.
  rewrite memcpy_ok in Hm by zlen_lia. simplify_eq.
  assert (Hwf' : string_wf (mk_string (str_size s)
    (ztake 0 (str_data s) ++ ztake (zlen w) (zdrop 0 w) ++ zdrop (0 + zlen w) (str_data s)))).
  { exists (zlen w). cbn [str_size str_data]. rewrite Hp, <- Hlen. repeat split; lia || done. }
  split; [done|]. unfold string_text. cbn [str_data].
  rewrite Hsz, ssh_string_len_htonl by lia.
  rewrite Hlen, (ztake_0 0), (zdrop_0 0 w), (ztake_all (zlen w) w) by lia. cbn [app].
  rewrite ztake_app_le by lia. by rewrite ztake_all.
Qed.

Lemma ssh_string_from_char_text w s :
  ssh_string_from_char (Some w) = Some (Some s) -> string_wf s /\ string_text s = w.
Proof.
  unfold ssh_string_from_char. intros Hs.
  destruct (ssh_string_new _) as [ptr|] eqn:Hn; [|done].
  apply ssh_string_new_wf in Hn; [|zlen_lia]. destruct Hn as [Hwf Hlen].
  destruct (memcpy _ _ _ _ _) as [p|] eqn:Hm; simplify_eq/=.
  by eapply fill_text.
Qed.

(** No string operation leaves the payload it owns. *)
Lemma ssh_string_from_char_runs w : ssh_string_from_char (Some w) <> None.
Proof.
  unfold ssh_string_from_char. destruct (ssh_string_new _) as [ptr|] eqn:Hn; [|done].
  apply ssh_string_new_wf in Hn; [|zlen_lia]. destruct Hn as [Hwf Hlen].
  apply string_wf_len in Hwf. rewrite memcpy_ok by zlen_lia. done.
Qed.

Lemma ssh_string_to_char_text s p :
  string_wf s -> ssh_string_to_char (Some s) = Some (Some p) ->
  p = string_text s ++ [Byte.x00].
Proof.
  intros Hwf. pose proof (string_wf_len s Hwf) as (Hr & Hsz & Hd).
  unfold STRING_SIZE_MAX in *. unfold ssh_string_to_char, string_text.
  set (n := ssh_string_len (Some s)) in *. unwrap.
  destruct (n + 1 <? n) eqn:?; [lia|].
  destruct (malloc (n + 1)) as [new|] eqn:Hm; [|done].
  apply malloc_zlen in Hm; [|lia]. rewrite memcpy_ok by zlen_lia. cbn [mbind option_bind].
  rewrite (ztake_0 0), (zdrop_0 0 (str_data s)) by lia. cbn [app].
  rewrite memcpy_ok by zlen_lia. intros [= <-].
  rewrite ztake_app_le, ztake_take by zlen_lia. rewrite Z.min_id. f_equal.
  rewrite (zdrop_all (n + 1)) by zlen_lia. done.
Qed.

Lemma ssh_string_burn_text s :
  string_wf s ->
  exists s', ssh_string_burn (Some s) = Some (Some s') /\ string_wf s'
    /\ string_text s' = zrep (ssh_string_len (Some s)) Byte.x00.
Proof.
  intros Hwf. pose proof (string_wf_len s Hwf) as (Hr & Hsz & Hd).
  unfold ssh_string_burn. set (n := ssh_string_len (Some s)) in *.
  destruct (str_size s =? 0) eqn:Hz.
  - exists s. apply Z.eqb_eq in Hz. repeat split; [done|].
    assert (n = 0) as Hn0.
    { subst n. unfold ssh_string_len. rewrite Hz. reflexivity. }
    unfold string_text. fold n. rewrite Hn0, ztake_0 by lia. done.
  - rewrite bzero_ok by lia. cbn [mbind option_bind]. eexists. split; [done|].
    rewrite Hsz. split.
    + exists n. cbn [str_size str_data]. repeat split; [lia..|]. zlen_lia.
    + unfold string_text. cbn [str_data]. rewrite ssh_string_len_htonl by lia.
      rewrite (ztake_0 0) by lia. cbn [app].
      rewrite ztake_app_le by zlen_lia. apply ztake_all. zlen_lia.
Qed.
End StringFacts.
