(* ===== verification/Buffer.v ===== *)
(** * SSH buffers ([libssh/src/buffer.c], everything but pack and unpack)

    The buffer is the record of [struct ssh_buffer_struct]; its [data] pointer
    is the list of bytes the allocation owns ([] is [NULL]).  [b_freed] is a
    ghost field: the contents of every block the buffer handed back to the
    allocator, at the moment it did.  Sizes are [size_t] or [uint32_t] with
    their wrap-around; an access outside the allocation makes an operation
    [None].  Return codes are the code's integers. *)

From S2P Require Import Prelude SshString.

Definition BUFFER_SIZE_MAX : Z := 0x10000000.

Record ssh_buffer := mk_buffer {
  b_secure : bool;
  b_used : Z;
  b_allocated : Z;
  b_pos : Z;
  b_data : bytes;
  b_freed : list bytes
}.

Definition set_used (b : ssh_buffer) (u : Z) : ssh_buffer :=
  mk_buffer (b_secure b) u (b_allocated b) (b_pos b) (b_data b) (b_freed b).
Definition set_pos (b : ssh_buffer) (p : Z) : ssh_buffer :=
  mk_buffer (b_secure b) (b_used b) (b_allocated b) p (b_data b) (b_freed b).
Definition set_data (b : ssh_buffer) (d : bytes) : ssh_buffer :=
  mk_buffer (b_secure b) (b_used b) (b_allocated b) (b_pos b) d (b_freed b).
Definition set_block (b : ssh_buffer) (d : bytes) (n : Z) (old : bytes) : ssh_buffer :=
  mk_buffer (b_secure b) (b_used b) n (b_pos b) d (b_freed b ++ [old]).

(** [buffer_verify]: [false] where the debug build aborts. *)
Definition buffer_verify (buf : ssh_buffer) : bool :=
  match b_data buf with
  | [] => true
  | _ => (b_used buf <=? b_allocated buf) && (b_pos buf <=? b_used buf)
         && (b_pos buf <=? b_allocated buf)
  end.

(** The buffer after [calloc]. *)
Definition zero_buffer : ssh_buffer := mk_buffer false 0 0 0 [] [].

Definition ssh_buffer_set_secure (buffer : ssh_buffer) : ssh_buffer :=
  mk_buffer true (b_used buffer) (b_allocated buffer) (b_pos buffer) (b_data buffer)
    (b_freed buffer).

(** The doubling loop of [realloc_buffer]: [Some None] is its [return -1], and
    [None] that the fuel ran out. *)
Fixpoint smallest_loop (fuel : nat) (smallest needed : Z) : option (option Z) :=
  match fuel with
  | O => None
  | S fuel =>
      if smallest <=? needed then
        if smallest =? 0 then Some None
        else smallest_loop fuel (u64 (Z.shiftl smallest 1)) needed
      else Some (Some smallest)
  end.

(** One more than the number of doublings that make a [size_t] wrap to zero. *)
Definition smallest_fuel : nat := 66.

Section Operations.
Context `{Allocator}.

Definition realloc_buffer (buffer : ssh_buffer) (needed : Z) : run (Z * ssh_buffer) :=
  smallest ← smallest_loop smallest_fuel 1 needed;
  match smallest with
  | None => Some (-1, buffer)
  | Some needed =>
      if BUFFER_SIZE_MAX <? needed then Some (-1, buffer)
      else if b_secure buffer then
        match malloc needed with
        | None => Some (-1, buffer)
        | Some new =>
            new ← memcpy new 0 (b_data buffer) 0 (b_used buffer);
            old ← bzero (b_data buffer) 0 (b_used buffer);
            Some (0, set_block buffer new needed old)
        end
      else
        match realloc (b_data buffer) needed with
        | None => Some (-1, buffer)
        | Some new => Some (0, set_block buffer new needed (b_data buffer))
        end
  end.

Definition buffer_shift (buffer : ssh_buffer) : run ssh_buffer :=
  let burn_pos := b_pos buffer in
  if b_pos buffer =? 0 then Some buffer else
  d ← memmove (b_data buffer) 0 (b_pos buffer) (u64 (b_used buffer - b_pos buffer));
  let buffer := set_data buffer d in
  let buffer := set_used buffer (u64 (b_used buffer - b_pos buffer)) in
  let buffer := set_pos buffer 0 in
  if b_secure buffer then
    d ← bzero (b_data buffer) (b_used buffer) burn_pos;
    Some (set_data buffer d)
  else Some buffer.

Definition ssh_buffer_allocate_size (buffer : ssh_buffer) (len : Z) : run (Z * ssh_buffer) :=
  if b_allocated buffer <? len then
    buffer ← (if 0 <? b_pos buffer then buffer_shift buffer else Some buffer);
    '(rc, buffer) ← realloc_buffer buffer len;
    if rc <? 0 then Some (-1, buffer) else Some (0, buffer)
  else Some (0, buffer).

Definition ssh_buffer_new : run (option ssh_buffer) :=
  '(rc, buf) ← ssh_buffer_allocate_size zero_buffer (64 - 1);
  if rc =? 0 then Some (Some buf) else Some None.

(** [ssh_buffer_free]: the blocks handed back over the life of the buffer. *)
Definition ssh_buffer_free (buffer : option ssh_buffer) : run (list bytes) :=
  match buffer with
  | None => Some []
  | Some b =>
      if b_secure b && (0 <? b_allocated b) then
        d ← bzero (b_data b) 0 (b_allocated b);
        Some (b_freed b ++ [d])
      else Some (b_freed b ++ [b_data b])
  end.

Definition ssh_buffer_reinit (buffer : option ssh_buffer) : run (Z * option ssh_buffer) :=
  match buffer with
  | None => Some (-1, None)
  | Some b =>
      b ← (if b_secure b && (0 <? b_allocated b)
           then d ← bzero (b_data b) 0 (b_allocated b); Some (set_data b d)
           else Some b);
      let b := set_pos (set_used b 0) 0 in
      if 65536 <? b_allocated b then
        '(rc, b) ← realloc_buffer b (65536 - 1);
        if rc =? 0 then Some (0, Some b) else Some (-1, Some b)
      else Some (0, Some b)
  end.

(** The growth step of [ssh_buffer_add_data] and [ssh_buffer_allocate]. *)
Definition make_room (buffer : ssh_buffer) (len : Z) : run (Z * ssh_buffer) :=
  if b_allocated buffer <? u64 (b_used buffer + len) then
    buffer ← (if 0 <? b_pos buffer then buffer_shift buffer else Some buffer);
    realloc_buffer buffer (u64 (b_used buffer + len))
  else Some (0, buffer).

(** The body of [ssh_buffer_add_data] once [buffer] is known not to be [NULL]. *)
Definition add_data (buffer : ssh_buffer) (data : option bytes) (len : Z)
    : run (Z * ssh_buffer) :=
  match data with
  | None => Some (-1, buffer)
  | Some data =>
      if u64 (b_used buffer + len) <? len then Some (-1, buffer) else
      '(rc, buffer) ← make_room buffer len;
      if rc <? 0 then Some (-1, buffer) else
      d ← memcpy (b_data buffer) (b_used buffer) data 0 len;
      Some (0, set_used (set_data buffer d) (u64 (b_used buffer + len)))
  end.

Definition ssh_buffer_add_data (buffer : option ssh_buffer) (data : option bytes) (len : Z)
    : run (Z * option ssh_buffer) :=
  match buffer with
  | None => Some (-1, None)
  | Some b => '(rc, b) ← add_data b data len; Some (rc, Some b)
  end.

(** [ssh_buffer_allocate]: the offset of the reserved space in [b_data]. *)
Definition ssh_buffer_allocate (buffer : ssh_buffer) (len : Z) : run (option Z * ssh_buffer) :=
  if u64 (b_used buffer + len) <? len then Some (None, buffer) else
  '(rc, buffer) ← make_room buffer len;
  if rc <? 0 then Some (None, buffer) else
  let ptr := b_used buffer in
  Some (Some ptr, set_used buffer (u64 (b_used buffer + len))).

Definition ssh_buffer_add_ssh_string (buffer : ssh_buffer) (string : option ssh_string)
    : run (Z * ssh_buffer) :=
  match string with
  | None => Some (-1, buffer)
  | Some s =>
      let len := u32 (ssh_string_len string) in
      '(rc, buffer) ← add_data buffer (Some (string_image s)) (u32 (len + 4));
      if rc <? 0 then Some (-1, buffer) else Some (0, buffer)
  end.

(** The integer adders copy the host representation of their argument. *)
Definition add_int (width : nat) (buffer : ssh_buffer) (data : Z) : run (Z * ssh_buffer) :=
  '(rc, buffer) ← add_data buffer (Some (le_bytes width data)) (Z.of_nat width);
  if rc <? 0 then Some (-1, buffer) else Some (0, buffer).

Definition ssh_buffer_add_u32 := add_int 4.
Definition ssh_buffer_add_u16 := add_int 2.
Definition ssh_buffer_add_u64 := add_int 8.
Definition ssh_buffer_add_u8 := add_int 1.

Definition ssh_buffer_prepend_data (buffer : ssh_buffer) (data : bytes) (len : Z)
    : run (Z * ssh_buffer) :=
  if len <=? b_pos buffer then
    d ← memcpy (b_data buffer) (b_pos buffer - len) data 0 len;
    Some (0, set_pos (set_data buffer d) (b_pos buffer - len))
  else
  let rest := u64 (b_used buffer - b_pos buffer) in
  if u64 (rest + len) <? len then Some (-1, buffer) else
  '(rc, buffer) ←
    (if b_allocated buffer <? u64 (rest + len)
     then realloc_buffer buffer (u64 (rest + len)) else Some (0, buffer));
  if rc <? 0 then Some (-1, buffer) else
  d ← memmove (b_data buffer) len (b_pos buffer) rest;
  d ← memcpy d 0 data 0 len;
  Some (0, set_pos (set_used (set_data buffer d)
                             (u64 (b_used buffer + u64 (len - b_pos buffer)))) 0).

(** [ssh_buffer_get]: what the returned pointer gives access to. *)
Definition ssh_buffer_get (buffer : ssh_buffer) : option bytes :=
  match b_data buffer with
  | [] => None
  | d => Some (zdrop (b_pos buffer) d)
  end.

Definition ssh_buffer_get_len (buffer : ssh_buffer) : Z :=
  u32 (u64 (b_used buffer - b_pos buffer)).

Definition ssh_buffer_add_buffer (buffer source : ssh_buffer) : run (Z * ssh_buffer) :=
  '(rc, buffer) ← add_data buffer (ssh_buffer_get source) (ssh_buffer_get_len source);
  if rc <? 0 then Some (-1, buffer) else Some (0, buffer).

Definition ssh_buffer_pass_bytes (buffer : ssh_buffer) (len : Z) : Z * ssh_buffer :=
  if (u64 (b_pos buffer + len) <? len) || (b_used buffer <? u64 (b_pos buffer + len))
  then (0, buffer) else
  let buffer := set_pos buffer (u64 (b_pos buffer + len)) in
  if b_pos buffer =? b_used buffer
  then (len, set_used (set_pos buffer 0) 0) else (len, buffer).

Definition ssh_buffer_pass_bytes_end (buffer : ssh_buffer) (len : Z) : Z * ssh_buffer :=
  if b_used buffer <? len then (0, buffer)
  else (len, set_used buffer (u64 (b_used buffer - len))).

Definition ssh_buffer_validate_length (buffer : ssh_buffer) (len : Z) : Z :=
  if (u64 (b_pos buffer + len) <? len) || (b_used buffer <? u64 (b_pos buffer + len))
  then SSH_ERROR else SSH_OK.

(** [ssh_buffer_get_data]: the count returned and what was written at the
    destination ([None]: nothing). *)
Definition ssh_buffer_get_data (buffer : ssh_buffer) (len : Z)
    : run (Z * option bytes * ssh_buffer) :=
  if negb (ssh_buffer_validate_length buffer len =? SSH_OK) then Some (0, None, buffer) else
  d ← memcpy (zrep len Byte.x00) 0 (b_data buffer) (b_pos buffer) len;
  Some (len, Some d, set_pos buffer (u64 (b_pos buffer + len))).

(** The integer readers: the host value of the bytes read. *)
Definition get_int (width : nat) (buffer : ssh_buffer) : run (Z * option Z * ssh_buffer) :=
  '(n, d, buffer) ← ssh_buffer_get_data buffer (Z.of_nat width);
  Some (n, option_map le_val d, buffer).

Definition ssh_buffer_get_u8 := get_int 1.
Definition ssh_buffer_get_u32 := get_int 4.
Definition ssh_buffer_get_u64 := get_int 8.

Definition ssh_buffer_get_ssh_string (buffer : ssh_buffer)
    : run (option ssh_string * ssh_buffer) :=
  '(rc, v, buffer) ← ssh_buffer_get_u32 buffer;
  match v with
  | None => Some (None, buffer)
  | Some stringlen =>
      let hostlen := ntohl stringlen in
      if negb (ssh_buffer_validate_length buffer hostlen =? SSH_OK)
      then Some (None, buffer) else
      match ssh_string_new hostlen with
      | None => Some (None, buffer)
      | Some str =>
          '(n, d, buffer) ← ssh_buffer_get_data buffer hostlen;
          if negb (n =? hostlen) then Some (None, buffer) else
          p ← memcpy (str_data str) 0 (default [] d) 0 hostlen;
          Some (Some (mk_string (str_size str) p), buffer)
      end
  end.
End Operations.

#[global] Arguments add_data : simpl never.
#[global] Arguments add_int : simpl never.
#[global] Arguments get_int : simpl never.
#[global] Arguments ssh_buffer_add_ssh_string : simpl never.
#[global] Arguments ssh_buffer_get_data : simpl never.
#[global] Arguments ssh_buffer_get_ssh_string : simpl never.
#[global] Arguments ssh_buffer_allocate_size : simpl never.
#[global] Arguments ssh_buffer_validate_length : simpl never.
#[global] Arguments ssh_buffer_prepend_data : simpl never.

(** ** Well-formed buffers and the byte queue they hold *)

Record buffer_wf (b : ssh_buffer) : Prop := {
  wf_pos : 0 <= b_pos b <= b_used b;
  wf_used : b_used b <= b_allocated b;
  wf_allocated : b_allocated b <= BUFFER_SIZE_MAX;
  wf_data : zlen (b_data b) = b_allocated b
}.

(** The unread bytes: what the peer of the buffer sees. *)
Definition contents (b : ssh_buffer) : bytes :=
  ztake (b_used b - b_pos b) (zdrop (b_pos b) (b_data b)).

Ltac buf_cbn :=
  cbn [b_pos b_used b_allocated b_data b_secure b_freed set_pos set_used set_data set_block] in *.

Ltac wf_cases Hwf :=
  let H1 := fresh in let H2 := fresh in let H3 := fresh in let H4 := fresh in
  destruct Hwf as [H1 H2 H3 H4]; unfold BUFFER_SIZE_MAX in H3;
  buf_cbn.

Ltac wf_intro := constructor; cbn; unfold BUFFER_SIZE_MAX; try lia.

Lemma buffer_wf_verify b : buffer_wf b -> buffer_verify b = true.
Proof.
  intros Hwf. unfold buffer_verify. wf_cases Hwf. destruct (b_data b); [done|].
  rewrite !andb_true_iff, !Z.leb_le. lia.
Qed.

Lemma contents_zlen b : buffer_wf b -> zlen (contents b) = b_used b - b_pos b.
Proof. intros Hwf. unfold contents. wf_cases Hwf. zlen_lia. Qed.

Lemma ssh_buffer_get_len_contents b :
  buffer_wf b -> ssh_buffer_get_len b = zlen (contents b).
Proof.
  intros Hwf. rewrite contents_zlen by done. unfold ssh_buffer_get_len. wf_cases Hwf.
  by unwrap.
Qed.

Lemma wf_data_split b :
  buffer_wf b ->
  b_data b = ztake (b_pos b) (b_data b) ++ contents b ++ zdrop (b_used b) (b_data b).
Proof.
  intros Hwf. unfold contents. wf_cases Hwf.
  replace (zdrop (b_used b) (b_data b))
    with (zdrop (b_used b - b_pos b) (zdrop (b_pos b) (b_data b)))
    by (rewrite zdrop_drop by lia; f_equal; lia).
  by rewrite ztake_drop, ztake_drop.
Qed.

Lemma wf_head_split b :
  buffer_wf b -> ztake (b_used b) (b_data b) = ztake (b_pos b) (b_data b) ++ contents b.
Proof.
  intros Hwf. unfold contents. wf_cases Hwf. rewrite <- zdrop_take by lia.
  replace (ztake (b_pos b) (b_data b)) with (ztake (b_pos b) (ztake (b_used b) (b_data b)))
    by (rewrite ztake_take; f_equal; lia).
  symmetry. apply ztake_drop.
Qed.

(** Whatever is rebuilt around the same middle has the same contents. *)
Lemma contents_intro sec u a p pre mid post fr :
  zlen pre = p -> u = p + zlen mid -> contents (mk_buffer sec u a p (pre ++ mid ++ post) fr) = mid.
Proof.
  intros <- ->. unfold contents. cbn [b_pos b_used b_data].
  rewrite zdrop_app_ge, zdrop_0 by lia.
  rewrite ztake_app_le by lia. apply ztake_all. lia.
Qed.

(** ** The doubling loop *)

Lemma smallest_loop_pow (k : nat) (fuel : nat) (needed : Z) :
  (k <= 63)%nat -> (64 - k < fuel)%nat -> 0 <= needed < 2 ^ 63 ->
  (k = 0%nat \/ 2 ^ (Z.of_nat k - 1) <= needed) ->
  exists j : nat, (k <= j <= 63)%nat
    /\ smallest_loop fuel (2 ^ Z.of_nat k) needed = Some (Some (2 ^ Z.of_nat j))
    /\ needed < 2 ^ Z.of_nat j /\ (j = 0%nat \/ 2 ^ (Z.of_nat j - 1) <= needed).
Proof.
  revert k. induction fuel as [|fuel IH]; intros k Hk Hf Hn Hlow; [lia|].
  cbn [smallest_loop].
  destruct (2 ^ Z.of_nat k <=? needed) eqn:Hle.
  - apply Z.leb_le in Hle.
    assert (Hk63 : (k < 63)%nat).
    { destruct (decide (k = 63%nat)) as [->|]; [|lia]. change (2 ^ Z.of_nat 63) with (2 ^ 63) in Hle. lia. }
    pose proof (Z.pow_pos_nonneg 2 (Z.of_nat k) ltac:(lia) ltac:(lia)) as Hpos.
    assert (Hlt : 2 ^ Z.of_nat (S k) <= 2 ^ 63).
    { apply Z.pow_le_mono_r; lia. }
    rewrite (proj2 (Z.eqb_neq _ _)) by lia.
    assert (Hs : u64 (Z.shiftl (2 ^ Z.of_nat k) 1) = 2 ^ Z.of_nat (S k)).
    { rewrite Z.shiftl_mul_pow2 by lia.
      replace (2 ^ Z.of_nat k * 2 ^ 1) with (2 ^ Z.of_nat (S k))
        by (rewrite Nat2Z.inj_succ, Z.pow_succ_r by lia; lia).
      apply u64_small. lia. }
    rewrite Hs. destruct (IH (S k)) as (j & Hj & ? & ? & ?); [lia|lia|done| |].
    { right. replace (Z.of_nat (S k) - 1) with (Z.of_nat k) by lia. done. }
    exists j. split; [lia|done].
  - apply Z.leb_gt in Hle. exists k. repeat split; [lia..|done|done].
Qed.

(** From one, the loop yields the smallest power of two above [needed]. *)
Lemma smallest_loop_spec needed :
  0 <= needed < 2 ^ 63 ->
  exists j : nat, smallest_loop smallest_fuel 1 needed = Some (Some (2 ^ Z.of_nat j))
    /\ needed < 2 ^ Z.of_nat j /\ (forall i : nat, needed < 2 ^ Z.of_nat i -> (j <= i)%nat).
Proof.
  intros Hn. destruct (smallest_loop_pow 0 smallest_fuel needed) as (j & _ & He & Hlt & Hlow);
    [unfold smallest_fuel; lia..|auto|].
  exists j. split_and!; [done|done|]. intros i Hi.
  destruct Hlow as [->|Hlow]; [lia|].
  destruct (decide (j <= i)%nat) as [|Hij]; [done|].
  assert (2 ^ Z.of_nat i <= 2 ^ (Z.of_nat j - 1)) by (apply Z.pow_le_mono_r; lia). lia.
Qed.

(** Above half of the address space the loop wraps to zero and gives up. *)
Lemma smallest_loop_wraps needed :
  2 ^ 63 <= needed < 2 ^ 64 -> smallest_loop smallest_fuel 1 needed = Some None.
Proof.
  intros [Hlo Hhi].
  assert (Hstep : forall (d k fuel : nat), (k + d = 63)%nat -> (d + 2 <= fuel)%nat ->
    smallest_loop fuel (2 ^ Z.of_nat k) needed = Some None).
  { induction d as [|d IH]; intros k fuel Hk Hf; (destruct fuel as [|fuel]; [lia|]);
      cbn [smallest_loop].
    - replace k with 63%nat by lia. change (2 ^ Z.of_nat 63) with (2 ^ 63).
      rewrite (proj2 (Z.leb_le _ _)) by lia.
      change (2 ^ 63 =? 0) with false. cbv iota.
      change (u64 (Z.shiftl (2 ^ 63) 1)) with 0.
      destruct fuel as [|fuel]; [lia|]. cbn [smallest_loop].
      rewrite (proj2 (Z.leb_le _ _)) by lia. done.
    - assert (2 ^ Z.of_nat (S k) <= 2 ^ 63) by (apply Z.pow_le_mono_r; lia).
      pose proof (Z.pow_pos_nonneg 2 (Z.of_nat k) ltac:(lia) ltac:(lia)) as Hpos.
      assert (Hd : 2 ^ Z.of_nat (S k) = 2 * 2 ^ Z.of_nat k)
        by (rewrite Nat2Z.inj_succ, Z.pow_succ_r by lia; lia).
      rewrite (proj2 (Z.leb_le _ _)), (proj2 (Z.eqb_neq _ _)) by lia.
      rewrite Z.shiftl_mul_pow2, Z.mul_comm by lia. change (2 ^ 1) with 2.
      rewrite <- Hd. unwrap. apply IH; lia. }
  apply (Hstep 63%nat 0%nat); unfold smallest_fuel; lia.
Qed.

Section BufferFacts.
Context `{Allocator}.

(** What a reallocation preserves. *)
Definition same_queue (b b' : ssh_buffer) : Prop :=
  b_secure b' = b_secure b /\ contents b' = contents b.

Lemma same_queue_refl b : same_queue b b.
Proof. done. Qed.

Lemma same_queue_trans b1 b2 b3 : same_queue b1 b2 -> same_queue b2 b3 -> same_queue b1 b3.
Proof. unfold same_queue. intros [] []. split; congruence. Qed.

(** The block a successful reallocation installs. *)
Lemma realloc_copies b new :
  buffer_wf b -> forall n, b_used b <= n ->
  (b_secure b = true /\ (exists m, malloc n = Some m /\ memcpy m 0 (b_data b) 0 (b_used b) = Some new)
   \/ realloc (b_data b) n = Some new) ->
  zlen new = n /\ ztake (b_used b) new = ztake (b_used b) (b_data b).
Proof.
  intros Hwf n Hn Hnew. wf_cases Hwf. destruct Hnew as [(_ & m & Hm & Hcp)|Hr].
  - apply malloc_zlen in Hm; [|lia]. rewrite memcpy_ok in Hcp by lia. simplify_eq.
    split; [zlen_lia|]. rewrite (ztake_0 0 m), (zdrop_0 0 (b_data b)) by lia. cbn [app].
    rewrite ztake_app_le, ztake_take by zlen_lia. by rewrite Z.min_id.
  - split; [by apply (realloc_zlen (b_data b)); [lia|]|].
    unfold realloc in Hr. destruct (malloc n); simplify_eq.
    rewrite ztake_app_le, ztake_take by zlen_lia. f_equal. lia.
Qed.

Lemma set_block_wf b new n old :
  buffer_wf b -> zlen new = n -> b_used b <= n <= BUFFER_SIZE_MAX ->
  ztake (b_used b) new = ztake (b_used b) (b_data b) ->
  buffer_wf (set_block b new n old) /\ same_queue b (set_block b new n old).
Proof.
  intros Hwf Hlen Hn Htake. split.
  - wf_cases Hwf. constructor; cbn; lia || done.
  - unfold same_queue, contents. wf_cases Hwf. split; [done|].
    rewrite <- !zdrop_take by lia. by rewrite Htake.
Qed.

Lemma realloc_buffer_spec b needed :
  buffer_wf b -> b_used b <= needed < 2 ^ 63 ->
  (exists b', realloc_buffer b needed = Some (0, b') /\ buffer_wf b' /\ same_queue b b'
     /\ needed < b_allocated b' /\ b_pos b' = b_pos b /\ b_used b' = b_used b
     /\ smallest_loop smallest_fuel 1 needed = Some (Some (b_allocated b')))
  \/ realloc_buffer b needed = Some (-1, b).
Proof.
  intros Hwf Hn. pose proof Hwf as Hwf0. destruct Hwf0 as [Hp Hu Ha Hd].
  destruct (smallest_loop_spec needed) as (j & Hj & Hlt & _); [lia|].
  unfold realloc_buffer. rewrite Hj. cbn [mbind option_bind].
  set (n := 2 ^ Z.of_nat j) in *.
  destruct (BUFFER_SIZE_MAX <? n) eqn:Hmax; [by right|]. apply Z.ltb_ge in Hmax.
  destruct (b_secure b) eqn:Hsec.
  - destruct (malloc n) as [m|] eqn:Hm; [|by right]. left.
    pose proof (malloc_zlen n m ltac:(lia) Hm) as Hml.
    destruct (memcpy m 0 (b_data b) 0 (b_used b)) as [new|] eqn:Hcp;
      [|rewrite memcpy_ok in Hcp by lia; done].
    rewrite bzero_ok by lia. cbn [mbind option_bind]. eexists. split; [done|].
    destruct (realloc_copies b new Hwf n) as [Hl Ht]; [lia|eauto|].
    destruct (set_block_wf b new n (ztake 0 (b_data b) ++ zrep (b_used b) Byte.x00
      ++ zdrop (0 + b_used b) (b_data b)) Hwf Hl) as [? ?]; [lia|done|]. done.
  - destruct (realloc (b_data b) n) as [new|] eqn:Hr; [|by right]. left.
    eexists. split; [done|].
    destruct (realloc_copies b new Hwf n) as [Hl Ht]; [lia|auto|].
    destruct (set_block_wf b new n (b_data b) Hwf Hl) as [? ?]; [lia|done|]. done.
Qed.

Lemma buffer_shift_spec b :
  buffer_wf b ->
  exists b', buffer_shift b = Some b' /\ buffer_wf b' /\ same_queue b b' /\ b_pos b' = 0
    /\ b_used b' = b_used b - b_pos b /\ b_allocated b' = b_allocated b.
Proof.
  intros Hwf. unfold buffer_shift. destruct (b_pos b =? 0) eqn:Hp.
  - apply Z.eqb_eq in Hp. exists b. rewrite Hp. split_and!; (done || lia).
  - pose proof (contents_zlen b Hwf) as Hc. pose proof Hwf as Hwf0. wf_cases Hwf.
    apply Z.eqb_neq in Hp. unwrap. unfold memmove. rewrite memcpy_ok by lia.
    cbn [mbind option_bind set_data set_used set_pos b_secure b_data b_used b_pos].
    fold (contents b). rewrite (ztake_0 0) by lia. cbn [app Z.add]. unwrap.
    set (tl := zdrop (b_used b - b_pos b) (b_data b)).
    assert (Htl : zlen tl = b_allocated b - (b_used b - b_pos b)) by (subst tl; zlen_lia).
    destruct (b_secure b) eqn:Hs.
    + rewrite bzero_ok by (autorewrite with zlist; lia). cbn [mbind option_bind].
      eexists. split; [done|].
      rewrite <- Hc, ztake_app_le, (ztake_all _ (contents b)) by lia.
      split_and!; [|split|..]; cbn; try done.
      * wf_intro. rewrite zdrop_app_ge by lia. zlen_lia.
      * apply (contents_intro _ _ _ _ [] (contents b)); cbn; zlen_lia.
    + eexists. split; [done|]. split_and!; [|split|..]; cbn; try done.
      * wf_intro. zlen_lia.
      * apply (contents_intro _ _ _ _ [] (contents b)); cbn; zlen_lia.
Qed.

Lemma maybe_shift_spec b :
  buffer_wf b ->
  exists b', (if 0 <? b_pos b then buffer_shift b else Some b) = Some b' /\ buffer_wf b'
    /\ same_queue b b' /\ b_used b' = b_used b - b_pos b /\ b_allocated b' = b_allocated b.
Proof.
  intros Hwf. destruct (0 <? b_pos b) eqn:Hp.
  - destruct (buffer_shift_spec b Hwf) as (b' & ? & ? & ? & ? & ? & ?). eauto 10.
  - exists b. destruct Hwf as [Hpos ? ? ?]. apply Z.ltb_ge in Hp.
    split_and!; [done|by constructor|done|lia|done].
Qed.

(** Making room keeps the queue; on success [len] more bytes fit. *)
Lemma make_room_spec b len :
  buffer_wf b -> 0 <= len < 2 ^ 32 ->
  exists rc b', make_room b len = Some (rc, b') /\ buffer_wf b' /\ same_queue b b'
    /\ (rc = 0 /\ b_used b' + len <= b_allocated b' \/ rc = -1).
Proof.
  intros Hwf Hlen. unfold make_room. pose proof Hwf as [Hp Hu Ha Hd].
  unfold BUFFER_SIZE_MAX in Ha. unwrap.
  destruct (b_allocated b <? b_used b + len) eqn:Hroom.
  - destruct (maybe_shift_spec b Hwf) as (b1 & -> & Hwf1 & Hq1 & Hu1 & Ha1).
    cbn [mbind option_bind]. pose proof Hwf1 as [Hp1 Hu1' Ha1' Hd1].
    rewrite (u64_small (b_used b1 + len)) by lia.
    destruct (realloc_buffer_spec b1 (b_used b1 + len) Hwf1)
      as [(b2 & -> & Hwf2 & Hq2 & Hal & _ & Hu2 & _)| ->]; [lia| |].
    + exists 0, b2. split_and!; [done|done|by eapply same_queue_trans|left; lia].
    + exists (-1), b1. auto.
  - apply Z.ltb_ge in Hroom. exists 0, b. split_and!; [done..|left; lia].
Qed.

(** Bytes copied behind the tail are appended to the queue. *)
Lemma append_tail b src len d :
  buffer_wf b -> 0 <= len -> b_used b + len <= b_allocated b ->
  memcpy (b_data b) (b_used b) src 0 len = Some d -> len <= zlen src ->
  buffer_wf (set_used (set_data b d) (b_used b + len))
  /\ contents (set_used (set_data b d) (b_used b + len)) = contents b ++ ztake len src.
Proof.
  intros Hwf Hlen Hroom Hcp Hsrc. pose proof (memcpy_zlen _ _ _ _ _ _ Hcp) as Hl.
  pose proof (contents_zlen b Hwf) as Hc. pose proof (wf_head_split b Hwf) as Hs.
  wf_cases Hwf. split; [wf_intro|].
  rewrite memcpy_ok in Hcp by lia. simplify_eq. rewrite (zdrop_0 0 src) by lia.
  rewrite Hs, <- !app_assoc, (app_assoc (contents b)). apply contents_intro; buf_cbn; zlen_lia.
Qed.

(** [ssh_buffer_add_data] never leaves the allocation; it appends the [len]
    bytes or fails with the queue unchanged. *)
Lemma add_data_spec b d len :
  buffer_wf b -> 0 <= len < 2 ^ 32 -> len <= zlen d ->
  exists rc b', add_data b (Some d) len = Some (rc, b') /\ buffer_wf b'
    /\ b_secure b' = b_secure b
    /\ (rc = 0 /\ contents b' = contents b ++ ztake len d
        \/ rc = -1 /\ contents b' = contents b).
Proof.
  intros Hwf Hlen Hd. unfold add_data. pose proof Hwf as [Hp Hu Ha _].
  unfold BUFFER_SIZE_MAX in Ha. rewrite (u64_small (b_used b + len)) by lia.
  destruct (b_used b + len <? len) eqn:?; [lia|].
  destruct (make_room_spec b len Hwf Hlen) as (rc & b1 & -> & Hwf1 & [Hs1 Hc1] & Hrc).
  cbn [mbind option_bind]. destruct Hrc as [[-> Hroom]| ->].
  - change (0 <? 0) with false. cbv iota. pose proof Hwf1 as [Hp1 Hu1 Ha1 Hd1].
    unfold BUFFER_SIZE_MAX in Ha1.
    destruct (memcpy (b_data b1) (b_used b1) d 0 len) as [p|] eqn:Hcp;
      [|rewrite memcpy_ok in Hcp by lia; done].
    cbn [mbind option_bind]. rewrite (u64_small (b_used b1 + len)) by lia.
    destruct (append_tail b1 d len p Hwf1) as [? Hc]; [lia..|done|done|].
    do 2 eexists. split_and!; [done|done|done|]. left. by rewrite Hc, Hc1.
  - do 2 eexists. split_and!; [done|done|done|by right].
Qed.

Lemma allocate_size_spec b len :
  buffer_wf b -> 0 <= len < 2 ^ 32 ->
  exists rc b', ssh_buffer_allocate_size b len = Some (rc, b') /\ buffer_wf b'
    /\ same_queue b b' /\ (rc = 0 /\ len <= b_allocated b' \/ rc = -1).
Proof.
  intros Hwf Hlen. unfold ssh_buffer_allocate_size. pose proof Hwf as [Hp Hu Ha _].
  destruct (b_allocated b <? len) eqn:Hroom.
  - destruct (maybe_shift_spec b Hwf) as (b1 & -> & Hwf1 & Hq1 & Hu1 & Ha1).
    cbn [mbind option_bind].
    destruct (realloc_buffer_spec b1 len Hwf1) as [(b2 & -> & Hwf2 & Hq2 & Hal & _)| ->];
      [lia| |]; cbn [mbind option_bind]; do 2 eexists; (split_and!; [done|done| |]).
    + by eapply same_queue_trans.
    + left. lia.
    + done.
    + by right.
  - apply Z.ltb_ge in Hroom. exists 0, b. split_and!; [done..|left; lia].
Qed.

Lemma zero_buffer_wf : buffer_wf zero_buffer.
Proof. by constructor. Qed.

Lemma ssh_buffer_new_spec :
  exists r, ssh_buffer_new = Some r
    /\ (forall b, r = Some b -> buffer_wf b /\ contents b = [] /\ b_secure b = false
          /\ 0 < b_allocated b).
Proof.
  unfold ssh_buffer_new.
  destruct (allocate_size_spec zero_buffer (64 - 1) zero_buffer_wf)
    as (rc & b & -> & Hwf & [Hs Hc] & [[-> Hl]| ->]); [lia| |]; cbn [mbind option_bind].
  - eexists. split; [done|]. intros ? [= <-]. split_and!; [done|done|done|lia].
  - eexists. by split.
Qed.

(** The check is right for every [size_t], wrapping ones included. *)
Lemma validate_length_spec b len :
  buffer_wf b -> 0 <= len < 2 ^ 64 ->
  ssh_buffer_validate_length b len = (if len <=? zlen (contents b) then SSH_OK else SSH_ERROR).
Proof.
  intros Hwf Hlen. rewrite contents_zlen by done. unfold ssh_buffer_validate_length.
  wf_cases Hwf. destruct (decide (b_pos b + len < 2 ^ 64)) as [Hlt|Hge].
  - unwrap. destruct (b_pos b + len <? len) eqn:?; [lia|]. cbn [orb].
    destruct (len <=? b_used b - b_pos b) eqn:?, (b_used b <? b_pos b + len) eqn:?; done || lia.
  - assert (Hw : u64 (b_pos b + len) = b_pos b + len - 2 ^ 64).
    { unfold u64. symmetry. apply Z.mod_unique with 1; lia. }
    rewrite Hw, (proj2 (Z.ltb_lt _ _)) by lia. cbn [orb].
    destruct (len <=? b_used b - b_pos b) eqn:?; [lia|done].
Qed.

(** Advancing over the first [len] unread bytes. *)
Lemma advance_spec b len :
  buffer_wf b -> 0 <= len <= zlen (contents b) ->
  buffer_wf (set_pos b (b_pos b + len))
  /\ contents (set_pos b (b_pos b + len)) = zdrop len (contents b).
Proof.
  intros Hwf Hlen. rewrite contents_zlen in Hlen by done. unfold contents.
  wf_cases Hwf. split; [wf_intro; lia|].
  rewrite zdrop_take, zdrop_drop by lia. f_equal; lia.
Qed.

Lemma read_unread b len :
  buffer_wf b -> 0 <= len <= zlen (contents b) ->
  ztake len (zdrop (b_pos b) (b_data b)) = ztake len (contents b).
Proof.
  intros Hwf Hlen. rewrite contents_zlen in Hlen by done. unfold contents.
  rewrite ztake_take. f_equal. lia.
Qed.

(** [ssh_buffer_get_data] takes the first [len] bytes off the queue, or
    nothing when there are fewer. *)
Lemma get_data_spec b len :
  buffer_wf b -> 0 <= len < 2 ^ 32 ->
  exists b', ssh_buffer_get_data b len =
      Some (if len <=? zlen (contents b) then (len, Some (ztake len (contents b)), b')
            else (0, None, b'))
    /\ buffer_wf b' /\ b_secure b' = b_secure b
    /\ contents b' = (if len <=? zlen (contents b) then zdrop len (contents b) else contents b).
Proof.
  intros Hwf Hlen. unfold ssh_buffer_get_data. rewrite validate_length_spec by (done || lia).
  destruct (len <=? zlen (contents b)) eqn:Hl; cbn [negb Z.eqb SSH_OK SSH_ERROR].
  - apply Z.leb_le in Hl. destruct (advance_spec b len Hwf) as [Hwf' Hc']; [lia|].
    rewrite <- read_unread by (done || lia). rewrite contents_zlen in Hl by done.
    exists (set_pos b (b_pos b + len)). split_and!; [|done..].
    wf_cases Hwf. rewrite memcpy_ok by zlen_lia. cbn [mbind option_bind].
    unwrap. rewrite (ztake_0 0), (zdrop_all (0 + len)), app_nil_r by zlen_lia. done.
  - exists b. done.
Qed.

Lemma get_int_spec w b :
  buffer_wf b -> (w <= 8)%nat ->
  exists b', get_int w b =
      Some (if Z.of_nat w <=? zlen (contents b)
            then (Z.of_nat w, Some (le_val (ztake (Z.of_nat w) (contents b))), b')
            else (0, None, b'))
    /\ buffer_wf b' /\ b_secure b' = b_secure b
    /\ contents b' = (if Z.of_nat w <=? zlen (contents b)
                      then zdrop (Z.of_nat w) (contents b) else contents b).
Proof.
  intros Hwf Hw. unfold get_int.
  destruct (get_data_spec b (Z.of_nat w) Hwf) as (b' & -> & ? & ? & ?); [lia|].
  exists b'. by destruct (_ <=? _).
Qed.

Lemma add_int_spec w b v :
  buffer_wf b -> (w <= 8)%nat ->
  exists rc b', add_int w b v = Some (rc, b') /\ buffer_wf b' /\ b_secure b' = b_secure b
    /\ (rc = 0 /\ contents b' = contents b ++ le_bytes w v
        \/ rc = -1 /\ contents b' = contents b).
Proof.
  intros Hwf Hw. unfold add_int.
  destruct (add_data_spec b (le_bytes w v) (Z.of_nat w) Hwf)
    as (rc & b' & -> & Hwf' & Hs & [[-> Hc]|[-> Hc]]); [lia|zlen_lia| |];
    cbn [mbind option_bind]; do 2 eexists; (split_and!; [done|done|done|]); [left|by right].
  split; [done|]. rewrite Hc, ztake_all by zlen_lia. done.
Qed.

Lemma pass_bytes_spec b len :
  buffer_wf b -> 0 <= len < 2 ^ 32 ->
  exists b', ssh_buffer_pass_bytes b len
      = (if len <=? zlen (contents b) then len else 0, b')
    /\ buffer_wf b' /\ b_secure b' = b_secure b
    /\ contents b' = (if len <=? zlen (contents b) then zdrop len (contents b) else contents b).
Proof.
  intros Hwf Hlen. unfold ssh_buffer_pass_bytes.
  pose proof (contents_zlen b Hwf) as Hc. pose proof Hwf as [Hp Hu Ha Hd].
  unfold BUFFER_SIZE_MAX in Ha. unwrap.
  destruct (b_pos b + len <? len) eqn:?; [lia|]. cbn [orb].
  destruct (b_used b <? b_pos b + len) eqn:Hover.
  - destruct (len <=? zlen (contents b)) eqn:Hl; [lia|]. by exists b.
  - destruct (len <=? zlen (contents b)) eqn:Hl; [|lia].
    destruct (advance_spec b len Hwf) as [Hwf' Hc']; [lia|].
    destruct (b_pos (set_pos b (b_pos b + len)) =? _) eqn:Hend; [|by eexists].
    apply Z.eqb_eq in Hend. eexists. split_and!; [done| |done|].
    + wf_cases Hwf. wf_intro; done.
    + rewrite <- Hc'. unfold contents. buf_cbn.
      rewrite !ztake_0 by lia. done.
Qed.

Lemma ssh_buffer_reinit_spec b :
  buffer_wf b ->
  exists rc b', ssh_buffer_reinit (Some b) = Some (rc, Some b') /\ buffer_wf b'
    /\ contents b' = [] /\ b_secure b' = b_secure b
    /\ (rc = 0 /\ b_allocated b' <= 65536 \/ rc = -1).
Proof.
  intros Hwf. unfold ssh_buffer_reinit.
  assert (Hz : exists d, (if b_secure b && (0 <? b_allocated b)
           then d ← bzero (b_data b) 0 (b_allocated b); Some (set_data b d)
           else Some b) = Some (set_data b d) /\ zlen d = b_allocated b).
  { wf_cases Hwf. destruct (_ && _).
    - rewrite bzero_ok by lia. cbn [mbind option_bind]. eexists. split; [done|]. zlen_lia.
    - exists (b_data b). split; [by destruct b|done]. }
  destruct Hz as (d & -> & Hd). cbn [mbind option_bind].
  set (b1 := set_pos (set_used (set_data b d) 0) 0).
  assert (Hwf1 : buffer_wf b1) by (wf_cases Hwf; wf_intro; done).
  assert (Hc1 : contents b1 = []) by (unfold contents; apply ztake_0; cbn; lia).
  change (b_allocated (set_used (set_data b d) 0)) with (b_allocated b).
  destruct (65536 <? b_allocated b1) eqn:Hbig.
  - (* the 65535 the code asks for becomes 64K exactly *)
    destruct (realloc_buffer_spec b1 (65536 - 1) Hwf1)
      as [(b2 & -> & Hwf2 & [Hs Hq] & _ & _ & _ & Hal)| ->]; [cbn; lia| |];
      cbn [mbind option_bind]; do 2 eexists; (split_and!; [done|done| |done|]).
    + congruence.
    + change (smallest_loop _ _ _) with (Some (Some 65536)) in Hal. injection Hal as Hal.
      left. split; [done|lia].
    + done.
    + by right.
  - apply Z.ltb_ge in Hbig. do 2 eexists. split_and!; [done..|]. left. split; [done|lia].
Qed.

(** The two branches of [ssh_buffer_prepend_data]. *)
Lemma prepend_in_head b d len p :
  buffer_wf b -> 0 <= len <= b_pos b -> len <= zlen d ->
  memcpy (b_data b) (b_pos b - len) d 0 len = Some p ->
  buffer_wf (set_pos (set_data b p) (b_pos b - len))
  /\ contents (set_pos (set_data b p) (b_pos b - len)) = ztake len d ++ contents b.
Proof.
  intros Hwf Hlen Hd Hcp. pose proof (memcpy_zlen _ _ _ _ _ _ Hcp) as Hl.
  pose proof (contents_zlen b Hwf) as Hc. pose proof (wf_data_split b Hwf) as Hs.
  wf_cases Hwf. split; [wf_intro|].
  rewrite memcpy_ok in Hcp by lia. simplify_eq. rewrite (zdrop_0 0 d) by lia.
  replace (b_pos b - len + len) with (b_pos b) by lia.
  assert (Ht : zdrop (b_pos b) (b_data b) = contents b ++ zdrop (b_used b) (b_data b)).
  { rewrite Hs at 1. rewrite zdrop_app_ge, zdrop_0 by zlen_lia. done. }
  rewrite Ht, (app_assoc (ztake len d)). apply contents_intro; buf_cbn; zlen_lia.
Qed.

Lemma prepend_moving b d len m p :
  buffer_wf b -> b_pos b < len -> b_used b - b_pos b + len <= b_allocated b -> len <= zlen d ->
  memmove (b_data b) len (b_pos b) (b_used b - b_pos b) = Some m ->
  memcpy m 0 d 0 len = Some p ->
  buffer_wf (set_pos (set_used (set_data b p) (b_used b + (len - b_pos b))) 0)
  /\ contents (set_pos (set_used (set_data b p) (b_used b + (len - b_pos b))) 0)
     = ztake len d ++ contents b.
Proof.
  intros Hwf Hlen Hroom Hd Hm Hcp.
  pose proof (memcpy_zlen _ _ _ _ _ _ Hm) as Hml. pose proof (memcpy_zlen _ _ _ _ _ _ Hcp) as Hl.
  pose proof (contents_zlen b Hwf) as Hc. wf_cases Hwf. split; [wf_intro|].
  rewrite memcpy_ok in Hcp by lia. unfold memmove in Hm. rewrite memcpy_ok in Hm by lia.
  fold (contents b) in Hm. simplify_eq.
  rewrite (ztake_0 0), (zdrop_0 0 d) by lia. cbn [app Z.add].
  rewrite zdrop_app_ge, zdrop_0 by zlen_lia. rewrite app_assoc.
  apply (contents_intro _ _ _ _ []); buf_cbn; zlen_lia.
Qed.

Lemma prepend_spec b d len :
  buffer_wf b -> 0 <= len < 2 ^ 32 -> len <= zlen d ->
  exists rc b', ssh_buffer_prepend_data b d len = Some (rc, b') /\ buffer_wf b'
    /\ b_secure b' = b_secure b
    /\ (rc = 0 /\ contents b' = ztake len d ++ contents b
        \/ rc = -1 /\ contents b' = contents b).
Proof.
  intros Hwf Hlen Hd. unfold ssh_buffer_prepend_data. pose proof Hwf as [Hp Hu Ha Hdat].
  unfold BUFFER_SIZE_MAX in Ha. destruct (len <=? b_pos b) eqn:Hhead.
  - apply Z.leb_le in Hhead. destruct (memcpy _ _ _ _ _) as [p|] eqn:Hcp;
      [|rewrite memcpy_ok in Hcp by lia; done].
    destruct (prepend_in_head b d len p) as [? ?]; [done|lia|done|done|].
    cbn [mbind option_bind]. do 2 eexists. split_and!; [done..|by left].
  - apply Z.leb_gt in Hhead. rewrite (u64_small (b_used b - b_pos b)) by lia.
    rewrite (u64_small (_ + len)) by lia.
    destruct (_ <? len) eqn:?; [lia|].
    assert (Hroom : (exists b1, (if b_allocated b <? b_used b - b_pos b + len
        then realloc_buffer b (b_used b - b_pos b + len) else Some (0, b)) = Some (0, b1)
        /\ buffer_wf b1 /\ same_queue b b1 /\ b_used b - b_pos b + len <= b_allocated b1
        /\ b_pos b1 = b_pos b /\ b_used b1 = b_used b)
      \/ (if b_allocated b <? b_used b - b_pos b + len
        then realloc_buffer b (b_used b - b_pos b + len) else Some (0, b)) = Some (-1, b)).
    { destruct (b_allocated b <? _) eqn:Hfull.
      - destruct (realloc_buffer_spec b (b_used b - b_pos b + len) Hwf)
          as [(b1 & -> & ? & ? & ? & ? & ? & _)| ->]; [lia|left|by right].
        exists b1. split_and!; (done || lia).
      - left. exists b. split_and!; (done || lia). }
    destruct Hroom as [(b1 & -> & Hwf1 & [Hs1 Hc1] & Hr & Hp1 & Hu1)| ->];
      cbn [mbind option_bind]; [|do 2 eexists; split_and!; [done..|by right]].
    change (0 <? 0) with false. cbv iota. pose proof Hwf1 as [? ? Ha1 ?].
    unfold BUFFER_SIZE_MAX in Ha1. rewrite <- Hp1, <- Hu1 in *.
    destruct (memmove _ _ _ _) as [m|] eqn:Hm;
      [|unfold memmove in Hm; rewrite memcpy_ok in Hm by lia; done].
    pose proof (memcpy_zlen _ _ _ _ _ _ Hm) as Hml. cbn [mbind option_bind].
    destruct (memcpy m _ _ _ _) as [p|] eqn:Hcp; [|rewrite memcpy_ok in Hcp by lia; done].
    cbn [mbind option_bind]. unwrap.
    destruct (prepend_moving b1 d len m p) as [? Hc]; [done|lia|lia|done|done|done|].
    do 2 eexists. split_and!; [done|done|done|]. left. by rewrite Hc, Hc1.
Qed.

Lemma add_ssh_string_spec b s :
  buffer_wf b -> string_wf s ->
  exists rc b', ssh_buffer_add_ssh_string b (Some s) = Some (rc, b') /\ buffer_wf b'
    /\ b_secure b' = b_secure b
    /\ (rc = 0 /\ contents b' = contents b ++ be_bytes 4 (zlen (string_text s)) ++ string_text s
        \/ rc = -1 /\ contents b' = contents b).
Proof.
  intros Hwf Hs. pose proof (string_wf_len s Hs) as (Hr & Hsz & Hd).
  pose proof (string_text_zlen s Hs) as Ht. unfold ssh_buffer_add_ssh_string, string_image.
  unfold STRING_SIZE_MAX in Hr. unfold string_text in *.
  set (n := ssh_string_len (Some s)) in *. unwrap.
  destruct (add_data_spec b (le_bytes 4 (str_size s) ++ str_data s) (n + 4) Hwf)
    as (rc & b' & -> & Hwf' & Hsec & [[-> Hc]|[-> Hc]]); [lia|zlen_lia| |];
    cbn [mbind option_bind]; do 2 eexists; (split_and!; [done|done|done|]); [left|by right].
  split; [done|]. rewrite Hc, ztake_app_ge, Hsz, le_bytes_htonl, Ht by zlen_lia.
  do 3 f_equal. zlen_lia.
Qed.

Lemma add_buffer_spec b src :
  buffer_wf b -> buffer_wf src -> 0 < b_allocated src ->
  exists rc b', ssh_buffer_add_buffer b src = Some (rc, b') /\ buffer_wf b'
    /\ b_secure b' = b_secure b
    /\ (rc = 0 /\ contents b' = contents b ++ contents src
        \/ rc = -1 /\ contents b' = contents b).
Proof.
  intros Hwf Hsrc Hal. unfold ssh_buffer_add_buffer.
  rewrite ssh_buffer_get_len_contents by done. pose proof (contents_zlen src Hsrc) as Hl.
  assert (Hg : ssh_buffer_get src = Some (zdrop (b_pos src) (b_data src))).
  { unfold ssh_buffer_get. wf_cases Hsrc. destruct (b_data src); [|done]. zlen_lia. }
  rewrite Hg. pose proof Hsrc as [Hp Hu Ha Hd]. unfold BUFFER_SIZE_MAX in Ha.
  destruct (add_data_spec b (zdrop (b_pos src) (b_data src)) (zlen (contents src)) Hwf)
    as (rc & b' & -> & Hwf' & Hs & [[-> Hc]|[-> Hc]]); [lia|zlen_lia| |];
    cbn [mbind option_bind]; do 2 eexists; (split_and!; [done|done|done|]); [left|by right].
  split; [done|]. rewrite Hc, read_unread by (done || lia). by rewrite (ztake_all _ (contents src)).
Qed.

(** Where [ssh_buffer_get_ssh_string] stops: the length field is consumed even
    when the body is refused. *)
Inductive string_read (q : bytes) : option bytes -> bytes -> Prop :=
  | read_short : zlen q < 4 -> string_read q None q
  | read_refused : 4 <= zlen q -> string_read q None (zdrop 4 q)
  | read_ok : 4 <= zlen q -> be_val (ztake 4 q) <= zlen (zdrop 4 q) ->
      string_read q (Some (ztake (be_val (ztake 4 q)) (zdrop 4 q)))
        (zdrop (be_val (ztake 4 q)) (zdrop 4 q)).

Lemma be_val_take4 q : 4 <= zlen q -> length (ztake 4 q) = 4%nat /\ 0 <= be_val (ztake 4 q) < 2 ^ 32.
Proof.
  intros Hq. assert (Hl : length (ztake 4 q) = 4%nat).
  { assert (zlen (ztake 4 q) = 4) by zlen_lia. unfold zlen in *. lia. }
  split; [done|]. pose proof (be_val_range (ztake 4 q)) as Hr. unfold zlen in Hr.
  by rewrite Hl in Hr.
Qed.

Lemma get_ssh_string_spec b :
  buffer_wf b ->
  exists o b', ssh_buffer_get_ssh_string b = Some (o, b') /\ buffer_wf b'
    /\ b_secure b' = b_secure b
    /\ string_read (contents b) (option_map string_text o) (contents b')
    /\ (forall s, o = Some s -> string_wf s).
Proof.
  intros Hwf. unfold ssh_buffer_get_ssh_string, ssh_buffer_get_u32.
  destruct (get_int_spec 4 b Hwf) as (b1 & -> & Hwf1 & Hs1 & Hc1); [lia|].
  change (Z.of_nat 4) with 4 in *. destruct (4 <=? zlen (contents b)) eqn:H4;
    cbn [mbind option_bind].
  2: { apply Z.leb_gt in H4. do 2 eexists. split_and!; [done..| |done].
       cbn [option_map]. rewrite Hc1. by constructor. }
  apply Z.leb_le in H4. destruct (be_val_take4 _ H4) as [Hl4 Hr]. rewrite ntohl_le_val by done.
  set (n := be_val (ztake 4 (contents b))) in *.
  assert (Hrefused : forall b2, buffer_wf b2 -> b_secure b2 = b_secure b ->
    contents b2 = zdrop 4 (contents b) ->
    exists o b', Some (None : option ssh_string, b2) = Some (o, b') /\ buffer_wf b'
      /\ b_secure b' = b_secure b /\ string_read (contents b) (option_map string_text o) (contents b')
      /\ (forall s, o = Some s -> string_wf s)).
  { intros b2 ? ? Hc. do 2 eexists. split_and!; [done..| |done]. rewrite Hc. by constructor. }
  rewrite validate_length_spec, Hc1 by (done || lia).
  destruct (n <=? zlen (zdrop 4 (contents b))) eqn:Hn; cbn [negb Z.eqb SSH_OK SSH_ERROR];
    [|by apply Hrefused].
  apply Z.leb_le in Hn. destruct (ssh_string_new n) as [str|] eqn:Hnew; [|by apply Hrefused].
  apply ssh_string_new_wf in Hnew as [Hswf Hslen]; [|lia].
  destruct (get_data_spec b1 n Hwf1) as (b2 & -> & Hwf2 & Hs2 & Hc2); [lia|].
  rewrite Hc1 in *. rewrite (proj2 (Z.leb_le _ _)) in * by done. cbn [mbind option_bind].
  rewrite Z.eqb_refl. cbn [negb default from_option id].
  set (w := ztake n (zdrop 4 (contents b))) in *.
  assert (Hw : zlen w = n) by (subst w; zlen_lia).
  destruct (memcpy (str_data str) 0 w 0 n) as [p|] eqn:Hcp.
  2: { apply string_wf_len in Hswf. rewrite memcpy_ok in Hcp by lia. done. }
  cbn [mbind option_bind]. rewrite <- Hw in Hcp.
  destruct (fill_text str w p) as [Hwf' Htxt]; [done|congruence|done|].
  do 2 eexists. split_and!; [done|done|congruence| |by intros ? [= <-]].
  cbn [option_map]. rewrite Htxt, Hc2. by apply read_ok.
Qed.

(** *** Success when memory does not run out *)

Definition malloc_succeeds : Prop := forall n, 0 <= n <= BUFFER_SIZE_MAX + 5 -> malloc n <> None.

Lemma realloc_buffer_ok b needed :
  malloc_succeeds -> buffer_wf b -> b_used b <= needed < BUFFER_SIZE_MAX ->
  realloc_buffer b needed <> Some (-1, b).
Proof.
  intros Hmem Hwf Hn. pose proof Hwf as [Hp Hu Ha Hd]. unfold BUFFER_SIZE_MAX in Hn.
  destruct (smallest_loop_spec needed) as (j & Hj & Hlt & Hmin); [lia|].
  assert (Hj28 : (j <= 28)%nat) by (apply Hmin; change (2 ^ Z.of_nat 28) with 268435456; lia).
  assert (Hle : 2 ^ Z.of_nat j <= 2 ^ 28) by (apply Z.pow_le_mono_r; lia).
  unfold realloc_buffer. rewrite Hj. cbn [mbind option_bind].
  set (n := 2 ^ Z.of_nat j) in *. unfold BUFFER_SIZE_MAX in *.
  rewrite (proj2 (Z.ltb_ge _ _)) by lia.
  destruct (malloc n) as [m|] eqn:Hm; [|by apply Hmem in Hm; [|unfold BUFFER_SIZE_MAX; lia]].
  unfold realloc. rewrite Hm. destruct (b_secure b); [|done].
  apply malloc_zlen in Hm; [|lia]. rewrite memcpy_ok by lia. cbn [mbind option_bind].
  rewrite bzero_ok by lia. done.
Qed.

Lemma make_room_ok b len :
  malloc_succeeds -> buffer_wf b -> 0 <= len -> b_used b + len < BUFFER_SIZE_MAX ->
  exists b', make_room b len = Some (0, b') /\ buffer_wf b' /\ same_queue b b'
    /\ b_used b' <= b_used b /\ b_used b' + len <= b_allocated b'.
Proof.
  intros Hmem Hwf Hlen Hmax. unfold make_room. pose proof Hwf as [Hp Hu Ha Hd].
  unfold BUFFER_SIZE_MAX in *. unwrap.
  destruct (b_allocated b <? b_used b + len) eqn:Hroom.
  - destruct (maybe_shift_spec b Hwf) as (b1 & -> & Hwf1 & Hq1 & Hu1 & Ha1).
    cbn [mbind option_bind]. pose proof Hwf1 as [Hp1 Hu1' Ha1' Hd1].
    rewrite (u64_small (b_used b1 + len)) by lia.
    destruct (realloc_buffer_spec b1 (b_used b1 + len) Hwf1)
      as [(b2 & -> & Hwf2 & Hq2 & Hal & _ & Hu2 & _)|Hf]; [lia| |].
    + exists b2. split_and!; [done|done|by eapply same_queue_trans|lia|lia].
    + exfalso. apply (realloc_buffer_ok b1 (b_used b1 + len)) in Hf; [done..|].
      unfold BUFFER_SIZE_MAX. lia.
  - apply Z.ltb_ge in Hroom. exists b. split_and!; (done || lia).
Qed.

Lemma add_data_ok b d len :
  malloc_succeeds -> buffer_wf b -> 0 <= len <= zlen d -> b_used b + len < BUFFER_SIZE_MAX ->
  exists b', add_data b (Some d) len = Some (0, b') /\ buffer_wf b'
    /\ b_used b' <= b_used b + len /\ contents b' = contents b ++ ztake len d.
Proof.
  intros Hmem Hwf Hlen Hmax. unfold add_data. pose proof Hwf as [Hp Hu Ha _].
  unfold BUFFER_SIZE_MAX in *. rewrite (u64_small (b_used b + len)) by lia.
  destruct (b_used b + len <? len) eqn:?; [lia|].
  destruct (make_room_ok b len Hmem Hwf) as (b1 & -> & Hwf1 & [Hs1 Hc1] & Hub & Hroom);
    [lia|unfold BUFFER_SIZE_MAX; lia|].
  cbn [mbind option_bind]. change (0 <? 0) with false. cbv iota.
  pose proof Hwf1 as [Hp1 Hu1 Ha1 Hd1].
  destruct (memcpy (b_data b1) (b_used b1) d 0 len) as [p|] eqn:Hcp;
    [|rewrite memcpy_ok in Hcp by lia; done].
  cbn [mbind option_bind]. rewrite (u64_small (b_used b1 + len)) by lia.
  destruct (append_tail b1 d len p Hwf1) as [? Hc]; [lia..|done|lia|].
  eexists. split_and!; [done|done|buf_cbn; lia|by rewrite Hc, Hc1].
Qed.

(** Space reserved by [ssh_buffer_allocate], then filled through the pointer. *)
Lemma allocate_ok b len :
  malloc_succeeds -> buffer_wf b -> 0 <= len -> b_used b + len < BUFFER_SIZE_MAX ->
  exists b' ptr, ssh_buffer_allocate b len = Some (Some ptr, b') /\ buffer_wf b'
    /\ b_used b' <= b_used b + len
    /\ forall d, zlen d = len -> exists m, memcpy (b_data b') ptr d 0 (zlen d) = Some m
         /\ buffer_wf (set_data b' m) /\ contents (set_data b' m) = contents b ++ d.
Proof.
  intros Hmem Hwf Hlen Hmax. unfold ssh_buffer_allocate. pose proof Hwf as [Hp Hu Ha _].
  unfold BUFFER_SIZE_MAX in Hmax, Ha. rewrite (u64_small (b_used b + len)) by lia.
  destruct (b_used b + len <? len) eqn:?; [lia|].
  destruct (make_room_ok b len Hmem Hwf) as (b1 & -> & Hwf1 & [Hs1 Hc1] & Hub & Hroom);
    [lia|unfold BUFFER_SIZE_MAX; lia|].
  cbn [mbind option_bind]. change (0 <? 0) with false. cbv iota.
  pose proof Hwf1 as [Hp1 Hu1 Ha1 Hd1]. unfold BUFFER_SIZE_MAX in Ha1.
  rewrite (u64_small (b_used b1 + len)) by lia. do 2 eexists. split_and!; [done| | |].
  - constructor; buf_cbn; unfold BUFFER_SIZE_MAX; (lia || done).
  - buf_cbn. lia.
  - intros d Hd. buf_cbn. rewrite Hd.
    destruct (memcpy (b_data b1) (b_used b1) d 0 len) as [m|] eqn:Hcp;
      [|rewrite memcpy_ok in Hcp by lia; done].
    exists m. split; [done|]. destruct (append_tail b1 d len m Hwf1) as [Hwf2 Hc2]; [lia..|done|lia|].
    destruct b1. buf_cbn. split; [exact Hwf2|].
    etransitivity; [exact Hc2|]. rewrite ztake_all by lia. by rewrite <- Hc1.
Qed.

Lemma prepend_ok b d len :
  malloc_succeeds -> buffer_wf b -> 0 <= len <= zlen d -> b_used b + len < BUFFER_SIZE_MAX ->
  exists b', ssh_buffer_prepend_data b d len = Some (0, b') /\ buffer_wf b'
    /\ b_used b' <= b_used b + len /\ contents b' = ztake len d ++ contents b.
Proof.
  intros Hmem Hwf Hlen Hmax. unfold BUFFER_SIZE_MAX in Hmax. pose proof Hwf as [Hp Hu Ha Hdat].
  destruct (prepend_spec b d len) as (rc & b' & He & Hwf' & _ & Hrc); [done|lia|lia|].
  unfold BUFFER_SIZE_MAX in Ha.
  assert (Hend : rc = 0 /\ b_used b' <= b_used b + len).
  { revert He. unfold ssh_buffer_prepend_data. destruct (len <=? b_pos b) eqn:Hhead.
    - destruct (memcpy _ _ _ _ _) as [p|]; [|done]. intros [= <- <-]. buf_cbn. lia.
    - apply Z.leb_gt in Hhead. rewrite (u64_small (b_used b - b_pos b)) by lia.
      rewrite (u64_small (_ + len)) by lia. destruct (_ <? len) eqn:?; [lia|].
      destruct (b_allocated b <? _) eqn:Hfull.
      + destruct (realloc_buffer_spec b (b_used b - b_pos b + len) Hwf)
          as [(b1 & -> & Hwf1 & _ & _ & Hp1 & Hu1 & _)|Hf]; [lia| |].
        2: { exfalso. apply (realloc_buffer_ok b (b_used b - b_pos b + len)) in Hf; [done..|].
             unfold BUFFER_SIZE_MAX. lia. }
        cbn [mbind option_bind]. change (0 <? 0) with false. cbv iota.
        destruct (memmove _ _ _ _) as [m|]; [|done]. cbn [mbind option_bind].
        destruct (memcpy m _ _ _ _) as [p|]; [|done]. intros [= <- <-]. buf_cbn. unwrap. lia.
      + cbn [mbind option_bind]. change (0 <? 0) with false. cbv iota.
        destruct (memmove _ _ _ _) as [m|]; [|done]. cbn [mbind option_bind].
        destruct (memcpy m _ _ _ _) as [p|]; [|done]. intros [= <- <-]. buf_cbn. unwrap. lia. }
  destruct Hend as [-> Hub]. exists b'. destruct Hrc as [[_ Hc]|[? _]]; [|done]. done.
Qed.

Lemma ssh_buffer_reinit_ok b :
  malloc_succeeds -> buffer_wf b ->
  exists b', ssh_buffer_reinit (Some b) = Some (0, Some b') /\ buffer_wf b'
    /\ contents b' = [] /\ b_used b' = 0.
Proof.
  intros Hmem Hwf.
  destruct (ssh_buffer_reinit_spec b Hwf) as (rc & b' & He & Hwf' & Hc & _ & _).
  assert (Hend : rc = 0 /\ b_used b' = 0).
  { revert He. unfold ssh_buffer_reinit. destruct (if _ : bool then _ else _) as [b1|] eqn:Hb1; [|done].
    cbn [mbind option_bind]. assert (Hwf1 : buffer_wf (set_pos (set_used b1 0) 0)).
    { assert (Hl : exists d, b1 = set_data b d /\ zlen d = b_allocated b).
      { wf_cases Hwf. destruct (_ && _).
        - rewrite bzero_ok in Hb1 by lia. cbn [mbind option_bind] in Hb1. simplify_eq.
          eexists. split; [done|]. zlen_lia.
        - simplify_eq. exists (b_data b1). split; [by destruct b1|done]. }
      destruct Hl as (d & -> & Hd). wf_cases Hwf. constructor; buf_cbn; (lia || done). }
    destruct (65536 <? _) eqn:Hbig.
    - destruct (realloc_buffer_spec _ (65536 - 1) Hwf1) as [(b2 & -> & _ & _ & _ & _ & Hu2 & _)|Hf];
        [buf_cbn; lia| |].
      + cbn [mbind option_bind]. change (0 =? 0) with true. intros [= <- <-]. done.
      + exfalso. apply realloc_buffer_ok in Hf; [done|done|done|]. unfold BUFFER_SIZE_MAX. buf_cbn. lia.
    - by intros [= <- <-]. }
  destruct Hend as [-> Hu]. by exists b'.
Qed.

Lemma ssh_buffer_new_ok :
  malloc_succeeds ->
  exists b, ssh_buffer_new = Some (Some b) /\ buffer_wf b /\ contents b = [] /\ b_used b = 0.
Proof.
  intros Hmem. unfold ssh_buffer_new, ssh_buffer_allocate_size.
  change (b_allocated zero_buffer <? 64 - 1) with true.
  change (0 <? b_pos zero_buffer) with false. cbv iota. cbn [mbind option_bind].
  destruct (realloc_buffer_spec zero_buffer (64 - 1) zero_buffer_wf)
    as [(b & -> & Hwf & [_ Hc] & _ & _ & Hu & _)|Hf]; [cbn; lia| |].
  - cbn [mbind option_bind]. change (0 <? 0) with false. exists b. split_and!; [done..|].
    by rewrite Hu.
  - exfalso. apply realloc_buffer_ok in Hf; [done|done|done|].
    unfold BUFFER_SIZE_MAX. cbn. lia.
Qed.
Lemma add_int_ok w b v :
  malloc_succeeds -> buffer_wf b -> (w <= 8)%nat -> b_used b + Z.of_nat w < BUFFER_SIZE_MAX ->
  exists b', add_int w b v = Some (0, b') /\ buffer_wf b'
    /\ b_used b' <= b_used b + Z.of_nat w /\ contents b' = contents b ++ le_bytes w v.
Proof.
  intros Hmem Hwf Hw Hmax. unfold add_int.
  destruct (add_data_ok b (le_bytes w v) (Z.of_nat w)) as (b' & -> & Hwf' & Hu & Hc);
    [done|done|zlen_lia|done|].
  exists b'. split_and!; [done|done|done|]. rewrite Hc, ztake_all by zlen_lia. done.
Qed.

Lemma add_ssh_string_ok b s :
  malloc_succeeds -> buffer_wf b -> string_wf s ->
  b_used b + 4 + zlen (string_text s) < BUFFER_SIZE_MAX ->
  exists b', ssh_buffer_add_ssh_string b (Some s) = Some (0, b') /\ buffer_wf b'
    /\ b_used b' <= b_used b + 4 + zlen (string_text s)
    /\ contents b' = contents b ++ be_bytes 4 (zlen (string_text s)) ++ string_text s.
Proof.
  intros Hmem Hwf Hs Hmax. pose proof (string_wf_len s Hs) as (Hr & Hsz & Hd).
  pose proof (string_text_zlen s Hs) as Ht. unfold ssh_buffer_add_ssh_string, string_image.
  unfold STRING_SIZE_MAX in Hr. unfold string_text in *.
  set (n := ssh_string_len (Some s)) in *. unwrap.
  destruct (add_data_ok b (le_bytes 4 (str_size s) ++ str_data s) (n + 4))
    as (b' & -> & Hwf' & Hu & Hc); [done|done|zlen_lia|lia|].
  exists b'. split_and!; [done|done|lia|].
  rewrite Hc, ztake_app_ge, Hsz, le_bytes_htonl, Ht by zlen_lia. f_equal. f_equal. f_equal.
  zlen_lia.
Qed.

Lemma allocate_size_ok b len :
  malloc_succeeds -> buffer_wf b -> 0 <= len < BUFFER_SIZE_MAX ->
  exists b', ssh_buffer_allocate_size b len = Some (0, b') /\ buffer_wf b'
    /\ b_used b' <= b_used b /\ contents b' = contents b.
Proof.
  intros Hmem Hwf Hlen. unfold ssh_buffer_allocate_size. pose proof Hwf as [Hp Hu Ha _].
  destruct (b_allocated b <? len) eqn:Hroom; [|exists b; split_and!; (done || lia)].
  apply Z.ltb_lt in Hroom.
  destruct (maybe_shift_spec b Hwf) as (b1 & -> & Hwf1 & [_ Hq1] & Hu1 & Ha1).
  cbn [mbind option_bind]. pose proof Hwf1 as [Hp1 Hu1' Ha1' _].
  destruct (realloc_buffer_spec b1 len Hwf1) as [(b2 & -> & Hwf2 & [_ Hq2] & _ & _ & Hu2 & _)|Hf];
    [unfold BUFFER_SIZE_MAX in *; lia| |].
  - cbn [mbind option_bind]. exists b2. split_and!; [done|done|lia|congruence].
  - exfalso. apply realloc_buffer_ok in Hf; [done|done|done|lia].
Qed.
End BufferFacts.



(** ** Refinement: a buffer is a queue of bytes

    [buffer_step] runs one call of the interface; [queue_step] is what the
    interface promises: the abstract state is the list of unread bytes, and a
    call that fails leaves it alone. *)

Inductive buf_op :=
  | OpAdd (d : bytes)
  | OpAddInt (width : nat) (v : Z)
  | OpAddString (s : ssh_string)
  | OpPrepend (d : bytes)
  | OpGet (len : Z)
  | OpGetString
  | OpPass (len : Z)
  | OpAllocateSize (len : Z)
  | OpReinit.

Inductive buf_reply :=
  | ReplyCode (rc : Z)
  | ReplyBytes (d : option bytes).

(** The sizes the C types of the arguments can hold. *)
Definition op_ok (op : buf_op) : Prop :=
  match op with
  | OpAdd d | OpPrepend d => zlen d < 2 ^ 32
  | OpAddInt width _ => (width <= 8)%nat
  | OpAddString s => string_wf s
  | OpGet len | OpPass len | OpAllocateSize len => 0 <= len < 2 ^ 32
  | OpGetString | OpReinit => True
  end.

Inductive queue_step : bytes -> buf_op -> buf_reply -> bytes -> Prop :=
  | q_add q d : queue_step q (OpAdd d) (ReplyCode 0) (q ++ d)
  | q_add_int q w v : queue_step q (OpAddInt w v) (ReplyCode 0) (q ++ le_bytes w v)
  | q_add_string q s :
      queue_step q (OpAddString s) (ReplyCode 0)
        (q ++ be_bytes 4 (zlen (string_text s)) ++ string_text s)
  | q_prepend q d : queue_step q (OpPrepend d) (ReplyCode 0) (d ++ q)
  | q_get q len : len <= zlen q ->
      queue_step q (OpGet len) (ReplyBytes (Some (ztake len q))) (zdrop len q)
  | q_get_short q len : zlen q < len -> queue_step q (OpGet len) (ReplyBytes None) q
  | q_get_string q o q' : string_read q o q' -> queue_step q OpGetString (ReplyBytes o) q'
  | q_pass q len : len <= zlen q -> queue_step q (OpPass len) (ReplyCode len) (zdrop len q)
  | q_pass_short q len : zlen q < len -> queue_step q (OpPass len) (ReplyCode 0) q
  | q_allocate q len : queue_step q (OpAllocateSize len) (ReplyCode 0) q
  | q_reinit q rc : rc = 0 \/ rc = -1 -> queue_step q OpReinit (ReplyCode rc) []
  | q_fail q op : op <> OpReinit -> queue_step q op (ReplyCode (-1)) q.

Inductive queue_trace : bytes -> list buf_op -> list buf_reply -> bytes -> Prop :=
  | qt_nil q : queue_trace q [] [] q
  | qt_cons q op r q1 ops rs q2 :
      queue_step q op r q1 -> queue_trace q1 ops rs q2 -> queue_trace q (op :: ops) (r :: rs) q2.

Section Refinement.
Context `{Allocator}.

Definition buffer_step (b : ssh_buffer) (op : buf_op) : run (buf_reply * ssh_buffer) :=
  match op with
  | OpAdd d => '(rc, b) ← add_data b (Some d) (zlen d); Some (ReplyCode rc, b)
  | OpAddInt w v => '(rc, b) ← add_int w b v; Some (ReplyCode rc, b)
  | OpAddString s => '(rc, b) ← ssh_buffer_add_ssh_string b (Some s); Some (ReplyCode rc, b)
  | OpPrepend d => '(rc, b) ← ssh_buffer_prepend_data b d (zlen d); Some (ReplyCode rc, b)
  | OpGet len => '(_, d, b) ← ssh_buffer_get_data b len; Some (ReplyBytes d, b)
  | OpGetString =>
      '(s, b) ← ssh_buffer_get_ssh_string b; Some (ReplyBytes (option_map string_text s), b)
  | OpPass len => let '(n, b) := ssh_buffer_pass_bytes b len in Some (ReplyCode n, b)
  | OpAllocateSize len => '(rc, b) ← ssh_buffer_allocate_size b len; Some (ReplyCode rc, b)
  | OpReinit =>
      '(rc, o) ← ssh_buffer_reinit (Some b);
      match o with Some b => Some (ReplyCode rc, b) | None => None end
  end.

Fixpoint buffer_run (b : ssh_buffer) (ops : list buf_op) : run (list buf_reply * ssh_buffer) :=
  match ops with
  | [] => Some ([], b)
  | op :: ops =>
      '(r, b) ← buffer_step b op;
      '(rs, b) ← buffer_run b ops;
      Some (r :: rs, b)
  end.

(** One call simulates one step of the queue and keeps the invariant. *)
Lemma buffer_step_simulates b op :
  buffer_wf b -> op_ok op ->
  exists r b', buffer_step b op = Some (r, b') /\ buffer_wf b'
    /\ b_secure b' = b_secure b /\ queue_step (contents b) op r (contents b').
Proof.
  intros Hwf Hop. destruct op as [d|w v|s|d|len| |len|len|]; cbn [op_ok buffer_step] in *.
  - destruct (add_data_spec b d (zlen d) Hwf) as (rc & b' & -> & ? & ? & Hrc); [zlen_lia|done|].
    rewrite ztake_all in Hrc by done. do 2 eexists. split_and!; [done..|].
    destruct Hrc as [[-> ->]|[-> ->]]; by constructor.
  - destruct (add_int_spec w b v Hwf Hop) as (rc & b' & -> & ? & ? & Hrc).
    do 2 eexists. split_and!; [done..|]. destruct Hrc as [[-> ->]|[-> ->]]; by constructor.
  - destruct (add_ssh_string_spec b s Hwf Hop) as (rc & b' & -> & ? & ? & Hrc).
    do 2 eexists. split_and!; [done..|]. destruct Hrc as [[-> ->]|[-> ->]]; by constructor.
  - destruct (prepend_spec b d (zlen d) Hwf) as (rc & b' & -> & ? & ? & Hrc); [zlen_lia|done|].
    rewrite ztake_all in Hrc by done. do 2 eexists. split_and!; [done..|].
    destruct Hrc as [[-> ->]|[-> ->]]; by constructor.
  - destruct (get_data_spec b len Hwf Hop) as (b' & -> & ? & ? & Hc).
    destruct (len <=? zlen (contents b)) eqn:Hl; do 2 eexists;
      (split_and!; [done..|]); rewrite Hc; constructor; lia.
  - destruct (get_ssh_string_spec b Hwf) as (o & b' & -> & ? & ? & Hr & _).
    do 2 eexists. split_and!; [done..|]. by constructor.
  - destruct (pass_bytes_spec b len Hwf Hop) as (b' & -> & ? & ? & Hc).
    destruct (len <=? zlen (contents b)) eqn:Hl; do 2 eexists;
      (split_and!; [done..|]); rewrite Hc; constructor; lia.
  - destruct (allocate_size_spec b len Hwf Hop) as (rc & b' & -> & ? & [? Hc] & Hrc).
    do 2 eexists. split_and!; [done..|]. rewrite Hc. destruct Hrc as [[-> _]| ->]; by constructor.
  - destruct (ssh_buffer_reinit_spec b Hwf) as (rc & b' & -> & ? & Hc & ? & Hrc).
    do 2 eexists. split_and!; [done..|]. rewrite Hc. constructor. tauto.
Qed.

(** *** Calls that are not refused

    With memory left and room for what is written, no call answers with an error. *)

(** The bytes a call needs behind those that are in use. *)
Definition volume (op : buf_op) : Z :=
  match op with
  | OpAdd d | OpPrepend d => zlen d
  | OpAddInt w _ => Z.of_nat w
  | OpAddString s => 4 + zlen (string_text s)
  | OpAllocateSize len => len
  | OpGet _ | OpGetString | OpPass _ | OpReinit => 0
  end.

Lemma volume_nonneg op : op_ok op -> 0 <= volume op.
Proof. destruct op; cbn; intros; zlen_lia. Qed.

(** Reading leaves [used] alone. *)
Lemma get_data_used b len n d b' : ssh_buffer_get_data b len = Some (n, d, b') -> b_used b' = b_used b.
Proof.
  unfold ssh_buffer_get_data. destruct (negb _); [by intros [= _ _ <-]|]. destruct (memcpy _ _ _ _ _); [|done]. by intros [= _ _ <-].
Qed.

Lemma get_string_used b o b' : ssh_buffer_get_ssh_string b = Some (o, b') -> b_used b' = b_used b.
Proof.
  unfold ssh_buffer_get_ssh_string, ssh_buffer_get_u32, get_int. intros Hx.
  apply bind_Some in Hx as ([[rc v] b1] & Hg & Hx). apply bind_Some in Hg as ([[n d] b2] & Hg & He). apply get_data_used in Hg.
  injection He as <- <- <-. rewrite <- Hg. destruct (option_map _ _); [|by injection Hx as <- <-]. cbn zeta in Hx.
  destruct (negb _); [by injection Hx as <- <-|]. destruct (ssh_string_new _); [|by injection Hx as <- <-].
  apply bind_Some in Hx as ([[n1 d1] b3] & Hg1 & Hx). apply get_data_used in Hg1. destruct (negb _); [by injection Hx as <- <-|].
  apply bind_Some in Hx as (p & _ & Hx). by injection Hx as <- <-.
Qed.

Lemma buffer_step_accepted b op r b' :
  malloc_succeeds -> buffer_wf b -> op_ok op -> b_used b + volume op < BUFFER_SIZE_MAX -> buffer_step b op = Some (r, b') ->
  r <> ReplyCode (-1) /\ b_used b' <= b_used b + volume op.
Proof.
  intros Hm Hwf Hop Hmax Hx. pose proof (volume_nonneg op Hop) as Hv. pose proof Hwf as [Hp Hu _ _].
  destruct op as [d|w v|s|d|len| |len|len|]; cbn [op_ok buffer_step volume] in *.
  - destruct (add_data_ok b d (zlen d)) as (b1 & He & _ & Hb & _); [done|done|zlen_lia|done|]. rewrite He in Hx. injection Hx as <- <-. by split.
  - destruct (add_int_ok w b v) as (b1 & He & _ & Hb & _); [done..|]. rewrite He in Hx. injection Hx as <- <-. by split.
  - destruct (add_ssh_string_ok b s) as (b1 & He & _ & Hb & _); [done|done|done|lia|]. rewrite He in Hx. injection Hx as <- <-. split; [done|lia].
  - destruct (prepend_ok b d (zlen d)) as (b1 & He & _ & Hb & _); [done|done|zlen_lia|done|]. rewrite He in Hx. injection Hx as <- <-. by split.
  - apply bind_Some in Hx as ([[n d] b1] & Hg & Hx). apply get_data_used in Hg. injection Hx as <- <-. split; [done|lia].
  - apply bind_Some in Hx as ([o b1] & Hg & Hx). apply get_string_used in Hg. injection Hx as <- <-. split; [done|lia].
  - unfold ssh_buffer_pass_bytes in Hx. destruct (_ || _); [injection Hx as <- <-; by split; [|lia]|]. cbn zeta in Hx.
    destruct (_ =? _); injection Hx as <- <-; (split; [intros [=]; lia|cbn; lia]).
  - destruct (allocate_size_ok b len) as (b1 & He & Hb); [done|done|lia|]. rewrite He in Hx. injection Hx as <- <-. split; [done|lia].
  - destruct (ssh_buffer_reinit_ok b) as (b1 & He & _ & _ & Hb); [done..|]. rewrite He in Hx. injection Hx as <- <-. split; [done|lia].
Qed.

(** (C37) Any sequence of these calls on a new buffer (appending data, integers and strings,
    prepending, reading data and strings, passing over bytes at the front, reserving room,
    starting again) behaves as the byte queue: no call leaves the allocation, the invariant that the debug build
    checks holds at the end, and the replies are those of the queue; a refused call changes nothing, and no
    call is refused while [malloc] succeeds and what is written fits a buffer.
    [ssh_buffer_pass_bytes_end] is none of the calls: with more bytes than are unread it breaks the invariant
    ([pass_bytes_end_breaks_invariant]). *)
Theorem buffer_refines_queue ops b :
  ssh_buffer_new = Some (Some b) -> Forall op_ok ops ->
  exists rs b', buffer_run b ops = Some (rs, b')
    /\ buffer_verify b' = true /\ queue_trace [] ops rs (contents b')
    /\ (malloc_succeeds -> foldr (fun op n => volume op + n) 0 ops < BUFFER_SIZE_MAX -> Forall (fun r => r <> ReplyCode (-1)) rs).
Proof.
  intros Hnew Hops. destruct ssh_buffer_new_spec as (r & Hr & Hb).
  assert (Hused : b_used b = 0).
  { revert Hnew. unfold ssh_buffer_new. destruct (ssh_buffer_allocate_size zero_buffer (64 - 1)) as [[rc b1]|] eqn:E; [|done].
    cbn [mbind option_bind]. destruct (rc =? 0) eqn:Erc; [|done]. intros [= <-]. revert E.
    unfold ssh_buffer_allocate_size. cbn [b_allocated zero_buffer b_pos]. change (0 <? 64 - 1) with true. change (0 <? 0) with false. cbv iota. cbn [mbind option_bind].
    destruct (realloc_buffer_spec zero_buffer (64 - 1) zero_buffer_wf) as [(b2 & -> & _ & _ & _ & _ & Hu & _)| ->]; [done| |]; cbn [mbind option_bind].
    - change (0 <? 0) with false. cbv iota. by intros [= _ <-].
    - change (-1 <? 0) with true. cbv iota. intros [= <- _]. done. }
  rewrite Hr in Hnew. injection Hnew as ->. destruct (Hb b eq_refl) as (Hwf & Hc & _).
  rewrite <- Hc. clear Hb Hr Hc.
  assert (Hgen : forall b, buffer_wf b -> exists rs b', buffer_run b ops = Some (rs, b')
    /\ buffer_verify b' = true /\ queue_trace (contents b) ops rs (contents b')
    /\ (malloc_succeeds -> b_used b + foldr (fun op n => volume op + n) 0 ops < BUFFER_SIZE_MAX -> Forall (fun r => r <> ReplyCode (-1)) rs)).
  2: { destruct (Hgen b Hwf) as (rs & b' & ? & ? & ? & Hacc). exists rs, b'. split_and!; [done..|]. intros Hm Hv. apply Hacc; [done|lia]. }
  clear b Hwf Hused. induction Hops as [|op ops Hop Hops IH]; intros b Hwf; cbn [buffer_run].
  - do 2 eexists. split_and!; [done|by apply buffer_wf_verify|constructor|constructor].
  - destruct (buffer_step_simulates b op Hwf Hop) as (r1 & b1 & Hstep & Hwf1 & _ & Hq).
    destruct (IH b1 Hwf1) as (rs & b2 & Hrun & Hv & Ht & Hacc). rewrite Hstep. cbn [mbind option_bind].
    rewrite Hrun. cbn [mbind option_bind]. do 2 eexists. split_and!; [done|done|by econstructor|].
    intros Hm Hmax. cbn [foldr] in Hmax.
    assert (Hrest : 0 <= foldr (fun op n => volume op + n) 0 ops).
    { clear -Hops. induction Hops as [|o l Ho _ IHl]; cbn; [done|]. pose proof (volume_nonneg o Ho). lia. }
    destruct (buffer_step_accepted b op r1 b1 Hm Hwf Hop) as [Hr1 Hu1]; [lia|done|]. constructor; [done|]. apply Hacc; [done|lia].
Qed.
End Refinement.

(** Witness: a run that grows the buffer past its 64 bytes, reads a string back
    and meets a short read. *)
Definition demo_string : ssh_string := mk_string (htonl 3) (cstr "abc" ++ [Byte.x00]).

Definition demo_ops : list buf_op :=
  [OpAdd (zrep 60 Byte.xff); OpGet 50; OpAddString demo_string; OpPrepend (cstr "xyz");
   OpPass 13; OpAddInt 4 7; OpGetString; OpGet 5; OpReinit].

Lemma buffer_refines_queue_witness :
  exists b, @ssh_buffer_new calloc_allocator = Some (Some b)
    /\ exists rs b', @buffer_run calloc_allocator b demo_ops = Some (rs, b')
      /\ buffer_verify b' = true /\ queue_trace [] demo_ops rs (contents b')
      /\ (@malloc_succeeds calloc_allocator -> foldr (fun op n => volume op + n) 0 demo_ops < BUFFER_SIZE_MAX ->
          Forall (fun r => r <> ReplyCode (-1)) rs).
Proof.
  eexists. split; [vm_compute; reflexivity|].
  apply (@buffer_refines_queue calloc_allocator); [vm_compute; reflexivity|].
  repeat (apply List.Forall_cons || apply List.Forall_nil); cbn [op_ok]; try lia; try done.
  exists 3. unfold STRING_SIZE_MAX. split; [lia|split; reflexivity].
Defined.

(** The size [realloc_buffer] settles on, for every [size_t] request: the loop
    terminates within its fuel, on the least power of two strictly above the
    request, or by wrapping to zero when there is none. *)
Theorem realloc_size_total needed :
  0 <= needed < 2 ^ 64 ->
  exists r, smallest_loop smallest_fuel 1 needed = Some r
    /\ (needed < 2 ^ 63 -> exists j : nat, r = Some (2 ^ Z.of_nat j)
          /\ needed < 2 ^ Z.of_nat j /\ (forall i : nat, needed < 2 ^ Z.of_nat i -> (j <= i)%nat))
    /\ (2 ^ 63 <= needed -> r = None).
Proof.
  intros Hn. destruct (decide (needed < 2 ^ 63)) as [Hlt|Hge].
  - destruct (smallest_loop_spec needed) as (j & Hj & ?); [lia|].
    eexists. split_and!; [done|eauto|intros; exfalso; lia].
  - rewrite smallest_loop_wraps by lia. eexists. split_and!; [done|intros; exfalso; lia|done].
Qed.

Lemma realloc_size_total_witness :
  exists r, smallest_loop smallest_fuel 1 64 = Some r
    /\ (64 < 2 ^ 63 -> exists j : nat, r = Some (2 ^ Z.of_nat j)
          /\ 64 < 2 ^ Z.of_nat j /\ (forall i : nat, 64 < 2 ^ Z.of_nat i -> (j <= i)%nat))
    /\ (2 ^ 63 <= 64 -> r = None).
Proof. apply (realloc_size_total 64). lia. Defined.

(** Freeing a secure buffer clears the whole of its last allocation. *)
Theorem secure_free_clears b :
  buffer_wf b -> b_secure b = true -> 0 < b_allocated b ->
  ssh_buffer_free (Some b) = Some (b_freed b ++ [zrep (b_allocated b) Byte.x00]).
Proof.
  intros Hwf Hs Hal. unfold ssh_buffer_free. rewrite Hs, (proj2 (Z.ltb_lt _ _)) by done.
  wf_cases Hwf. cbn [andb]. rewrite bzero_ok by lia. cbn [mbind option_bind].
  rewrite (ztake_0 0), (zdrop_all (0 + _)), app_nil_r by lia. done.
Qed.

Lemma secure_free_clears_witness :
  ssh_buffer_free
    (Some (mk_buffer true 3 4 1 (cstr "pass") []))
  = Some ([] ++ [zrep 4 Byte.x00]).
Proof.
  apply (secure_free_clears (mk_buffer true 3 4 1 (cstr "pass") []));
    [wf_intro; reflexivity|reflexivity|cbn; lia].
Defined.

(** A secure buffer whose consumed data was dropped by [ssh_buffer_pass_bytes]
    gives it back to the allocator in clear at the next reallocation: the copy
    only burns the bytes below [used], which is then zero. *)
Definition leak_ops : list buf_op :=
  [OpAdd (cstr "hunter2"); OpGet 7; OpPass 0; OpAdd (zrep 100 Byte.x00)].

Theorem secure_buffer_leaks :
  exists b rs b', @ssh_buffer_new calloc_allocator = Some (Some b)
    /\ @buffer_run calloc_allocator (ssh_buffer_set_secure b) leak_ops = Some (rs, b')
    /\ b_secure b' = true
    /\ exists block, block ∈ b_freed b' /\ ztake 7 block = cstr "hunter2".
Proof.
  do 3 eexists. split; [vm_compute; reflexivity|]. split; [vm_compute; reflexivity|].
  split; [reflexivity|]. eexists. split; [apply list_elem_of_In; right; left; reflexivity|].
  vm_compute. reflexivity.
Qed.

(** [ssh_buffer_pass_bytes_end] compares with [used] instead of the unread
    bytes, so it can move the end of the data in front of the position: the
    invariant is lost, the length underflows, and the next call that shifts
    the buffer leaves the allocation. *)
Theorem pass_bytes_end_breaks_invariant :
  exists b b' rs, @ssh_buffer_new calloc_allocator = Some (Some b)
    /\ @buffer_run calloc_allocator b [OpAdd (zrep 10 Byte.x41); OpGet 8] = Some (rs, b')
    /\ let '(n, b2) := ssh_buffer_pass_bytes_end b' 5 in
       n = 5 /\ buffer_verify b2 = false /\ ssh_buffer_get_len b2 = 2 ^ 32 - 3
       /\ @buffer_run calloc_allocator b2 [OpAdd (zrep 100 Byte.x00)] = None.
Proof.
  do 3 eexists. split; [vm_compute; reflexivity|]. split; [vm_compute; reflexivity|].
  vm_compute. repeat split; reflexivity.
Qed.

(** Used as the packet layer does, after comparing with the unread length, it
    drops the last [len] bytes of the queue. *)
Lemma pass_bytes_end_spec b len :
  buffer_wf b -> 0 <= len <= ssh_buffer_get_len b ->
  exists b', ssh_buffer_pass_bytes_end b len = (len, b') /\ buffer_wf b'
    /\ contents b' = ztake (zlen (contents b) - len) (contents b).
Proof.
  intros Hwf Hlen. rewrite ssh_buffer_get_len_contents, contents_zlen in * by done.
  unfold ssh_buffer_pass_bytes_end, contents in *. wf_cases Hwf. unwrap.
  destruct (b_used b <? len) eqn:?; [lia|]. eexists. split_and!; [done|by wf_intro|].
  buf_cbn. rewrite ztake_take. f_equal. lia.
Qed.

