(* ===== verification/Bignum.v ===== *)
(** * SSH multiple precision integers ([libssh/src/bignum.c])

    The big integers themselves belong to the crypto library: they are the
    class [BignumLib], whose laws are its documented behaviour.  The two
    conversions of [bignum.c] are written against it. *)

From S2P Require Import Prelude SshString.

Class BignumLib := {
  bignum : Type;
  (* the value, and the library calls of [libcrypto.h] *)
  bn_val : bignum -> Z;
  bignum_num_bytes : bignum -> Z;
  bignum_num_bits : bignum -> Z;
  bignum_is_bit_set : bignum -> Z -> bool;
  bignum_bn2bin : bignum -> bytes;
  bignum_bin2bn : bytes -> option bignum;
  (* documented behaviour *)
  bn_val_nonneg : forall n, 0 <= bn_val n;
  bn_num_bits_spec : forall n, bignum_num_bits n = (if bn_val n =? 0 then 0 else Z.log2 (bn_val n) + 1);
  bn_num_bytes_spec : forall n, bignum_num_bytes n = (bignum_num_bits n + 7) / 8;
  bn_is_bit_set_spec : forall n i, bignum_is_bit_set n i = Z.testbit (bn_val n) i;
  bn_bn2bin_spec : forall n, bignum_bn2bin n = be_bytes (Z.to_nat (bignum_num_bytes n)) (bn_val n);
  bn_bin2bn_spec : forall l n, bignum_bin2bn l = Some n -> bn_val n = be_val l
}.

Section Conversions.
Context `{Allocator} `{BignumLib}.

(** [ssh_make_bignum_string]: a leading zero byte keeps the sign bit clear. *)
Definition ssh_make_bignum_string (num : bignum) : run (option ssh_string) :=
  let len := bignum_num_bytes num in
  let bits := bignum_num_bits num in
  if len =? 0 then Some None else
  let pad := if (bits mod 8 =? 0) && bignum_is_bit_set num (bits - 1) then 1 else 0 in
  match ssh_string_new (len + pad) with
  | None => Some None
  | Some ptr =>
      p ← (if negb (pad =? 0) then memcpy (str_data ptr) 0 [Byte.x00] 0 1
           else Some (str_data ptr));
      p ← memcpy p pad (bignum_bn2bin num) 0 len;
      Some (Some (mk_string (str_size ptr) p))
  end.

Definition ssh_make_string_bn (string : ssh_string) : option bignum :=
  bignum_bin2bn (ztake (ssh_string_len (Some string)) (str_data string)).
End Conversions.

#[global] Arguments ssh_make_bignum_string : simpl never.
#[global] Arguments ssh_make_string_bn : simpl never.

Lemma be_val_app a b : be_val (a ++ b) = be_val a * 256 ^ zlen b + be_val b.
Proof.
  unfold be_val, zlen. rewrite rev_app_distr, <- (length_rev b).
  generalize (rev b) as r, (rev a) as t. intros r t. induction r as [|x r IH].
  - cbn [app length]. change (le_val []) with 0. rewrite Z.pow_0_r. lia.
  - cbn [app length]. change (le_val (x :: r ++ t)) with (b2z x + 256 * le_val (r ++ t)).
    change (le_val (x :: r)) with (b2z x + 256 * le_val r).
    rewrite IH, Nat2Z.inj_succ, Z.pow_succ_r by lia. lia.
Qed.

Section BignumFacts.
Context `{Allocator} `{BignumLib}.

Lemma bn_bytes_bound n :
  bn_val n <> 0 ->
  0 < bignum_num_bytes n /\ bn_val n < 256 ^ bignum_num_bytes n
  /\ 256 ^ (bignum_num_bytes n - 1) <= bn_val n.
Proof.
  intros Hn. pose proof (bn_val_nonneg n) as H0n.
  rewrite bn_num_bytes_spec, bn_num_bits_spec.
  rewrite (proj2 (Z.eqb_neq _ _)) by done.
  pose proof (Z.log2_nonneg (bn_val n)) as Hl. pose proof (Z.log2_spec (bn_val n) ltac:(lia)) as [Hlo Hhi].
  set (k := Z.log2 (bn_val n)) in *. rewrite <- Z.add_assoc. change (1 + 7) with 8.
  assert (Hk : (k + 8) / 8 = k / 8 + 1) by (rewrite <- (Z.div_add k 1 8) by lia; f_equal; lia).
  rewrite Hk. pose proof (Z.div_mod k 8 ltac:(lia)) as Hdm.
  pose proof (Z.mod_pos_bound k 8 ltac:(lia)). pose proof (Z.div_pos k 8 ltac:(lia) ltac:(lia)).
  change 256 with (2 ^ 8). rewrite <- !Z.pow_mul_r by lia. split_and!; [lia| |].
  - eapply Z.lt_le_trans; [exact Hhi|]. apply Z.pow_le_mono_r; lia.
  - etransitivity; [|exact Hlo]. apply Z.pow_le_mono_r; lia.
Qed.

Lemma bn2bin_val n : bn_val n <> 0 -> be_val (bignum_bn2bin n) = bn_val n.
Proof.
  intros Hn. destruct (bn_bytes_bound n Hn) as (Hpos & Hlt & _). pose proof (bn_val_nonneg n).
  rewrite bn_bn2bin_spec, be_val_bytes, Z2Nat.id by lia. apply Z.mod_small. lia.
Qed.

(** The text of the string is the magnitude, behind the pad when there is one. *)
Lemma make_bignum_string_text n s :
  ssh_make_bignum_string n = Some (Some s) ->
  string_wf s /\ bn_val n <> 0 /\
  string_text s = (if (bignum_num_bits n mod 8 =? 0) && bignum_is_bit_set n (bignum_num_bits n - 1)
                   then [Byte.x00] else []) ++ bignum_bn2bin n.
Proof.
  unfold ssh_make_bignum_string. intros Hs.
  destruct (bignum_num_bytes n =? 0) eqn:H0b; [done|]. apply Z.eqb_neq in H0b.
  assert (Hn : bn_val n <> 0).
  { intros Hz. apply H0b. rewrite bn_num_bytes_spec, bn_num_bits_spec, Hz. done. }
  destruct (bn_bytes_bound n Hn) as (Hpos & _). 
  assert (Hbl : zlen (bignum_bn2bin n) = bignum_num_bytes n)
    by (rewrite bn_bn2bin_spec; zlen_lia).
  set (pd := (bignum_num_bits n mod 8 =? 0) && bignum_is_bit_set n (bignum_num_bits n - 1)) in *.
  set (pre := if pd then [Byte.x00] else []).
  assert (Hpl : zlen pre = if pd then 1 else 0) by (subst pre; by destruct pd).
  destruct (ssh_string_new _) as [ptr|] eqn:Hnew; [|done].
  apply ssh_string_new_wf in Hnew as [Hwf Hlen]; [|destruct pd; lia].
  pose proof (string_wf_len ptr Hwf) as (Hr & Hsz & Hd).
  assert (Hp : exists p, (if negb ((if pd then 1 else 0) =? 0)
      then memcpy (str_data ptr) 0 [Byte.x00] 0 1 else Some (str_data ptr)) = Some p
      /\ zlen p = zlen (str_data ptr) /\ ztake (zlen pre) p = pre).
  { subst pre. destruct pd; cbn [Z.eqb negb].
    - rewrite memcpy_ok by zlen_lia. eexists. split; [done|]. split; [zlen_lia|]. done.
    - eexists. split_and!; [done|done|]. by rewrite ztake_0. }
  destruct Hp as (p & Hpe & Hpz & Hpt). rewrite Hpe in Hs. cbn [mbind option_bind] in Hs.
  rewrite <- Hpl in Hs, Hlen. rewrite memcpy_ok in Hs by zlen_lia.
  cbn [mbind option_bind] in Hs. injection Hs as <-.
  rewrite Hpt, (zdrop_0 0), (ztake_all (bignum_num_bytes n)) by zlen_lia.
  split_and!; [|done|].
  - exists (bignum_num_bytes n + zlen pre). cbn [str_size str_data].
    split_and!; [zlen_lia|zlen_lia|congruence|zlen_lia].
  - unfold string_text. cbn [str_data]. rewrite Hsz, ssh_string_len_htonl by lia.
    rewrite app_assoc, ztake_app_le by zlen_lia. apply ztake_all. zlen_lia.
Qed.

(** The conversion never leaves the string it builds. *)
Lemma make_bignum_string_runs n : ssh_make_bignum_string n <> None.
Proof.
  unfold ssh_make_bignum_string.
  destruct (bignum_num_bytes n =? 0) eqn:H0b; [done|]. apply Z.eqb_neq in H0b.
  assert (Hn : bn_val n <> 0).
  { intros Hz. apply H0b. rewrite bn_num_bytes_spec, bn_num_bits_spec, Hz. done. }
  destruct (bn_bytes_bound n Hn) as (Hpos & _).
  assert (Hbl : zlen (bignum_bn2bin n) = bignum_num_bytes n)
    by (rewrite bn_bn2bin_spec; zlen_lia).
  destruct (_ && _); cbn [Z.eqb negb];
    (destruct (ssh_string_new _) as [ptr|] eqn:Hnew; [|done]);
    (apply ssh_string_new_wf in Hnew as [Hwf Hlen]; [|lia]);
    apply string_wf_len in Hwf as (Hr & Hsz & Hd).
  - rewrite memcpy_ok by zlen_lia. cbn [mbind option_bind]. by rewrite memcpy_ok by zlen_lia.
  - cbn [mbind option_bind]. by rewrite memcpy_ok by zlen_lia.
Qed.

(** Encoding a positive integer and decoding it gives the integer back. *)
Lemma bignum_string_val n s m :
  ssh_make_bignum_string n = Some (Some s) -> ssh_make_string_bn s = Some m ->
  bn_val m = bn_val n.
Proof.
  intros Hs Hm. apply make_bignum_string_text in Hs as (Hwf & Hn & Ht).
  unfold ssh_make_string_bn in Hm. fold (string_text s) in Hm. rewrite Ht in Hm.
  apply bn_bin2bn_spec in Hm. rewrite Hm, be_val_app, bn2bin_val by done.
  destruct (_ && _); reflexivity.
Qed.
End BignumFacts.

Lemma be_bytes_head n z :
  0 <= z -> exists l, be_bytes (S n) z = z2b (z / 256 ^ Z.of_nat n) :: l.
Proof.
  intros Hz. unfold be_bytes. revert z Hz. induction n as [|n IH]; intros z Hz.
  - exists []. cbn. by rewrite Z.div_1_r.
  - change (le_bytes (S (S n)) z) with (z2b z :: le_bytes (S n) (z / 256)).
    cbn [rev]. destruct (IH (z / 256)) as [l Hl]; [by apply Z.div_pos|].
    rewrite Hl. exists (l ++ [z2b z]). cbn [app].
    rewrite Nat2Z.inj_succ, Z.pow_succ_r by lia. by rewrite Z.div_div by lia.
Qed.

(** The library instance used to run the conversions: binary naturals. *)
Definition N_num_bits (n : N) : Z := if Z.of_N n =? 0 then 0 else Z.log2 (Z.of_N n) + 1.
Definition N_num_bytes (n : N) : Z := (N_num_bits n + 7) / 8.

Definition N_bignum : BignumLib.
Proof.
  refine {| bignum := N; bn_val := Z.of_N; bignum_num_bits := N_num_bits;
            bignum_num_bytes := N_num_bytes;
            bignum_is_bit_set n i := Z.testbit (Z.of_N n) i;
            bignum_bn2bin n := be_bytes (Z.to_nat (N_num_bytes n)) (Z.of_N n);
            bignum_bin2bn l := Some (Z.to_N (be_val l)) |};
    [apply N2Z.is_nonneg|done|done|done|done|].
  intros l n [= <-]. apply Z2N.id, be_val_range.
Defined.

Section BignumProperty.
Context `{Allocator} `{BignumLib}.

(** An encoded integer is an RFC 4251 mpint: its text is not empty, its first
    byte has the sign bit clear, its big-endian value is the integer, and
    decoding it gives the integer back. *)
Theorem bignum_string_mpint n s :
  ssh_make_bignum_string n = Some (Some s) ->
  string_wf s
  /\ (exists x l, string_text s = x :: l /\ b2z x < 128)
  /\ be_val (string_text s) = bn_val n
  /\ (forall m, ssh_make_string_bn s = Some m -> bn_val m = bn_val n).
Proof.
  intros Hs. pose proof (bignum_string_val n s) as Hrt.
  apply make_bignum_string_text in Hs as Hs'. destruct Hs' as (Hwf & Hn & Ht).
  destruct (bn_bytes_bound n Hn) as (Hpos & Hlt & _). pose proof (bn_val_nonneg n) as H0n.
  assert (Hval : be_val (string_text s) = bn_val n).
  { rewrite Ht, be_val_app, bn2bin_val by done. by destruct (_ && _). }
  split_and!; [done| |done|auto].
  rewrite Ht. destruct (_ && _) eqn:Hpad; [eexists _, _; split; reflexivity|]. cbn [app].
  rewrite bn_bn2bin_spec. set (k := bignum_num_bytes n) in *.
  replace (Z.to_nat k) with (S (Z.to_nat (k - 1))) by lia.
  destruct (be_bytes_head (Z.to_nat (k - 1)) (bn_val n) H0n) as [l ->].
  do 2 eexists. split; [done|]. rewrite b2z_z2b, Z2Nat.id by lia.
  (* the top bit of the magnitude is set, so its length is not a whole byte *)
  rewrite bn_is_bit_set_spec, bn_num_bits_spec, (proj2 (Z.eqb_neq (bn_val n) 0)) in Hpad by done.
  rewrite Z.add_simpl_r, Z.bit_log2, andb_true_r in Hpad by lia. apply Z.eqb_neq in Hpad.
  assert (Hk : k = (Z.log2 (bn_val n) + 1 + 7) / 8).
  { subst k. by rewrite bn_num_bytes_spec, bn_num_bits_spec, (proj2 (Z.eqb_neq _ _)). }
  pose proof (Z.log2_spec (bn_val n) ltac:(lia)) as [_ Hhi]. pose proof (Z.log2_nonneg (bn_val n)).
  set (g := Z.log2 (bn_val n)) in *.
  assert (Hg : g + 1 <= 8 * (k - 1) + 7) by (Z.div_mod_to_equations; lia).
  apply Z.le_lt_trans with (bn_val n / 256 ^ (k - 1)); [apply Z.mod_le; [apply Z.div_pos|]; lia|].
  apply Z.div_lt_upper_bound; [lia|].
  eapply Z.lt_le_trans; [exact Hhi|]. change 256 with (2 ^ 8). change 128 with (2 ^ 7).
  rewrite <- Z.pow_mul_r, <- Z.pow_add_r by lia. apply Z.pow_le_mono_r; lia.
Qed.
End BignumProperty.

Lemma bignum_string_mpint_witness :
  exists s, @ssh_make_bignum_string calloc_allocator N_bignum 0x80ff%N = Some (Some s)
    /\ string_wf s
    /\ (exists x l, string_text s = x :: l /\ b2z x < 128)
    /\ be_val (string_text s) = Z.of_N 0x80ff
    /\ (forall m : N, @ssh_make_string_bn N_bignum s = Some m -> Z.of_N m = Z.of_N 0x80ff).
Proof.
  eexists. split; [vm_compute; reflexivity|].
  apply (@bignum_string_mpint calloc_allocator N_bignum 0x80ff%N). vm_compute. reflexivity.
Defined.
