(* ===== verification/BufferPack.v ===== *)
(** * Packing and unpacking ([ssh_buffer_pack], [ssh_buffer_unpack] of buffer.c)

    A variadic call is its format, the argument count the macro computes and
    the list of its arguments; [va_arg] takes the next one, and asking for
    another kind than was passed is undefined ([None]), as is [abort].  The
    pointers handed to [ssh_buffer_unpack] are result slots, in order. *)

From S2P Require Import Prelude SshString Buffer Bignum.

Definition SSH_BUFFER_PACK_END : Z := 0x4f65feb3.

(** The letters of a format. *)
Inductive letter := Lb | Lw | Ld | Lq | LS | Ls | LP | LB | Lt | Lbad.

Definition letter_of (c : byte) : letter :=
  let eqc (x : byte) := Byte.eqb c x in
  if eqc "b"%byte then Lb else if eqc "w"%byte then Lw else if eqc "d"%byte then Ld
  else if eqc "q"%byte then Lq else if eqc "S"%byte then LS else if eqc "s"%byte then Ls
  else if eqc "P"%byte then LP else if eqc "B"%byte then LB else if eqc "t"%byte then Lt
  else Lbad.

(** What leaves the [for] loop: an early [return], or the state after it. *)
Inductive loop_exit (A : Type) := Return (rc : Z) (s : A) | Break (rc : Z) (count : Z) (s : A).
Arguments Return {A}.
Arguments Break {A}.

Section Pack.
Context `{Allocator} `{BignumLib}.

(** The arguments of [ssh_buffer_pack]. *)
Inductive va :=
  | VInt (z : Z)                       (* unsigned int, uint32_t, uint64_t *)
  | VString (s : option ssh_string)
  | VCstr (t : bytes)                  (* the text before the NUL *)
  | VLen (n : Z)
  | VPtr (d : option bytes)
  | VBignum (n : bignum)
  | VEnd (canary : Z).

(** The sizing loop of [ssh_buffer_pack_allocate_va]. *)
Fixpoint pack_size (fmt : bytes) (argc count needed : Z) (ap : list va)
    : run (loop_exit (Z * list va)) :=
  match fmt with
  | [] => Some (Break SSH_OK count (needed, ap))
  | c :: fmt =>
      if argc <? count then Some (Return SSH_ERROR (needed, ap)) else
      match letter_of c, ap with
      | Lb, VInt _ :: ap => pack_size fmt argc (count + 1) (u64 (needed + 1)) ap
      | Lw, VInt _ :: ap => pack_size fmt argc (count + 1) (u64 (needed + 2)) ap
      | Ld, VInt _ :: ap => pack_size fmt argc (count + 1) (u64 (needed + 4)) ap
      | Lq, VInt _ :: ap => pack_size fmt argc (count + 1) (u64 (needed + 8)) ap
      | LS, VString s :: ap =>
          pack_size fmt argc (count + 1) (u64 (needed + (4 + ssh_string_len s))) ap
      | Ls, VCstr t :: ap => pack_size fmt argc (count + 1) (u64 (needed + (4 + zlen t))) ap
      | LP, VLen n :: VPtr _ :: ap => pack_size fmt argc (count + 2) (u64 (needed + n)) ap
      | LB, VBignum _ :: ap => pack_size fmt argc (count + 1) (u64 (needed + 64)) ap
      | Lt, VCstr t :: ap => pack_size fmt argc (count + 1) (u64 (needed + zlen t)) ap
      | Lbad, _ => Some (Break SSH_ERROR count (needed, ap))
      | _, _ => None
      end
  end.

(** The test of the canary that ends every argument list. *)
Definition check_canary (ap : list va) : run () :=
  match ap with
  | VEnd canary :: _ => if canary =? SSH_BUFFER_PACK_END then Some () else None
  | _ => None
  end.

Definition ssh_buffer_pack_allocate_va (buffer : ssh_buffer) (format : bytes) (argc : Z)
    (ap : list va) : run (Z * ssh_buffer) :=
  e ← pack_size format argc 0 0 ap;
  match e with
  | Return rc _ => Some (rc, buffer)
  | Break rc count (needed, ap) =>
      if negb (argc =? count) then Some (SSH_ERROR, buffer) else
      _ ← (if negb (rc =? SSH_ERROR) then check_canary ap else Some ());
      '(rc, buffer) ← ssh_buffer_allocate_size buffer (u32 needed);
      if negb (rc =? 0) then Some (SSH_ERROR, buffer) else Some (SSH_OK, buffer)
  end.

(** One [case] of the packing loop: the code it leaves in [rc]. *)
Definition pack_one (l : letter) (buffer : ssh_buffer) (ap : list va)
    : run (Z * Z * list va * ssh_buffer) :=
  match l, ap with
  | Lb, VInt z :: ap => '(rc, b) ← ssh_buffer_add_u8 buffer (u8 z); Some (rc, 1, ap, b)
  | Lw, VInt z :: ap => '(rc, b) ← ssh_buffer_add_u16 buffer (htons (u16 z)); Some (rc, 1, ap, b)
  | Ld, VInt z :: ap => '(rc, b) ← ssh_buffer_add_u32 buffer (htonl z); Some (rc, 1, ap, b)
  | Lq, VInt z :: ap => '(rc, b) ← ssh_buffer_add_u64 buffer (htonll z); Some (rc, 1, ap, b)
  | LS, VString s :: ap => '(rc, b) ← ssh_buffer_add_ssh_string buffer s; Some (rc, 1, ap, b)
  | Ls, VCstr t :: ap =>
      let len := zlen t in
      '(rc, b) ← ssh_buffer_add_u32 buffer (htonl len);
      '(rc, b) ← (if rc =? SSH_OK then add_data b (Some t) (u32 len) else Some (rc, b));
      Some (rc, 1, ap, b)
  | LP, VLen len :: VPtr d :: ap =>
      '(rc, b) ← add_data buffer d (u32 len); Some (rc, 2, ap, b)
  | LB, VBignum n :: ap =>
      o ← ssh_make_bignum_string n;
      match o with
      | None => Some (SSH_ERROR, 1, ap, buffer)
      | Some s => '(rc, b) ← ssh_buffer_add_ssh_string buffer (Some s); Some (rc, 1, ap, b)
      end
  | Lt, VCstr t :: ap => '(rc, b) ← add_data buffer (Some t) (u32 (zlen t)); Some (rc, 1, ap, b)
  | Lbad, _ => Some (SSH_ERROR, 1, ap, buffer)
  | _, _ => None
  end.

(** [count] moves by the arguments taken; a [break] skips the last increment. *)
Fixpoint pack_loop (fmt : bytes) (argc count rc : Z) (ap : list va) (buffer : ssh_buffer)
    : run (loop_exit (list va * ssh_buffer)) :=
  match fmt with
  | [] => Some (Break rc count (ap, buffer))
  | c :: fmt =>
      if argc <? count then Some (Return SSH_ERROR (ap, buffer)) else
      '(rc, n, ap, buffer) ← pack_one (letter_of c) buffer ap;
      if negb (rc =? SSH_OK) then Some (Break rc (count + (n - 1)) (ap, buffer))
      else pack_loop fmt argc (count + n) rc ap buffer
  end.

Definition ssh_buffer_pack_va (buffer : ssh_buffer) (format : bytes) (argc : Z) (ap : list va)
    : run (Z * ssh_buffer) :=
  if 256 <? argc then Some (SSH_ERROR, buffer) else
  e ← pack_loop format argc 0 SSH_ERROR ap buffer;
  match e with
  | Return rc (_, buffer) => Some (rc, buffer)
  | Break rc count (ap, buffer) =>
      if negb (argc =? count) then Some (SSH_ERROR, buffer) else
      _ ← (if negb (rc =? SSH_ERROR) then check_canary ap else Some ());
      Some (rc, buffer)
  end.

(** [_ssh_buffer_pack]: allocate once, then pack. *)
Definition _ssh_buffer_pack (buffer : ssh_buffer) (format : bytes) (argc : Z) (ap : list va)
    : run (Z * ssh_buffer) :=
  if 256 <? argc then Some (SSH_ERROR, buffer) else
  '(rc, buffer) ← ssh_buffer_pack_allocate_va buffer format argc ap;
  if negb (rc =? SSH_OK) then Some (rc, buffer)
  else ssh_buffer_pack_va buffer format argc ap.

(** The macro [ssh_buffer_pack]: the count and the canary are its own. *)
Definition ssh_buffer_pack (buffer : ssh_buffer) (format : bytes) (args : list va) :=
  _ssh_buffer_pack buffer format (zlen args) (args ++ [VEnd SSH_BUFFER_PACK_END]).
End Pack.

(** ** Unpacking *)

Section Unpack.
Context `{Allocator} `{BignumLib}.

(** The arguments of [ssh_buffer_unpack]: result pointers and lengths. *)
Inductive ua :=
  | UPtr
  | ULen (n : Z)
  | UEnd (canary : Z).

(** What a result pointer points to; [None] is an integer left alone, and
    [NULL] for the pointers. *)
Inductive slot :=
  | SlotInt (z : option Z)
  | SlotString (s : option ssh_string)
  | SlotCstr (t : option bytes)
  | SlotData (d : option bytes)
  | SlotBignum (n : option bignum).

Definition rc_of (ok : bool) : Z := if ok then SSH_OK else SSH_ERROR.

(** An integer [case]: read [width] bytes and convert them to host order. *)
Definition unpack_int (width : nat) (conv : Z -> Z) (buffer : ssh_buffer)
    : run (Z * option slot * ssh_buffer) :=
  '(rlen, v, buffer) ← get_int width buffer;
  let ok := rlen =? Z.of_nat width in
  Some (rc_of ok, Some (SlotInt (if ok then option_map conv v else v)), buffer).

Definition unpack_cstr (max_len : Z) (buffer : ssh_buffer) : run (Z * option slot * ssh_buffer) :=
  let fail (b : ssh_buffer) := Some (SSH_ERROR, Some (SlotCstr None), b) in
  '(rlen, u32len, buffer) ← ssh_buffer_get_u32 buffer;
  if negb (rlen =? 4) then fail buffer else
  let len := ntohl (default 0 u32len) in
  if u64 (max_len - 1) <? len then fail buffer else
  if negb (ssh_buffer_validate_length buffer len =? SSH_OK) then fail buffer else
  match malloc (len + 1) with
  | None => fail buffer
  | Some block =>
      '(rlen, d, buffer) ← ssh_buffer_get_data buffer len;
      if negb (rlen =? len) then fail buffer else
      p ← memcpy block 0 (default [] d) 0 len;
      p ← memcpy p len [Byte.x00] 0 1;
      Some (SSH_OK, Some (SlotCstr (Some p)), buffer)
  end.

Definition unpack_data (max_len len : Z) (buffer : ssh_buffer)
    : run (Z * option slot * ssh_buffer) :=
  match malloc len with
  | None => Some (SSH_ERROR, Some (SlotData None), buffer)
  | Some block =>
      '(rlen, d, buffer) ← ssh_buffer_get_data buffer len;
      if negb (rlen =? len) then Some (SSH_ERROR, Some (SlotData None), buffer) else
      p ← memcpy block 0 (default [] d) 0 len;
      Some (SSH_OK, Some (SlotData (Some p)), buffer)
  end.

(** One [case] of the unpacking loop: the code, the arguments counted, the
    slot, the remaining arguments and the buffer. *)
Definition unpack_one (l : letter) (max_len : Z) (ap : list ua) (buffer : ssh_buffer)
    : run (Z * Z * option slot * list ua * ssh_buffer) :=
  match l, ap with
  | Lb, UPtr :: ap => '(rc, o, b) ← unpack_int 1 (fun z => z) buffer; Some (rc, 1, o, ap, b)
  | Lw, UPtr :: ap => '(rc, o, b) ← unpack_int 2 ntohs buffer; Some (rc, 1, o, ap, b)
  | Ld, UPtr :: ap => '(rc, o, b) ← unpack_int 4 ntohl buffer; Some (rc, 1, o, ap, b)
  | Lq, UPtr :: ap => '(rc, o, b) ← unpack_int 8 ntohll buffer; Some (rc, 1, o, ap, b)
  | LB, UPtr :: ap =>
      '(tmp, b) ← ssh_buffer_get_ssh_string buffer;
      match tmp with
      | None => Some (SSH_ERROR, 1, Some (SlotBignum None), ap, b)
      | Some tmp =>
          let bn := ssh_make_string_bn tmp in
          _ ← ssh_string_burn (Some tmp);
          Some (rc_of (match bn with Some _ => true | None => false end), 1,
                Some (SlotBignum bn), ap, b)
      end
  | LS, UPtr :: ap =>
      '(o, b) ← ssh_buffer_get_ssh_string buffer;
      Some (rc_of (match o with Some _ => true | None => false end), 1,
            Some (SlotString o), ap, b)
  | Ls, UPtr :: ap => '(rc, o, b) ← unpack_cstr max_len buffer; Some (rc, 1, o, ap, b)
  | LP, ULen len :: ap =>
      if u64 (max_len - 1) <? len then Some (SSH_ERROR, 1, None, ap, buffer) else
      if negb (ssh_buffer_validate_length buffer len =? SSH_OK)
      then Some (SSH_ERROR, 1, None, ap, buffer) else
      match ap with
      | UPtr :: ap => '(rc, o, b) ← unpack_data max_len len buffer; Some (rc, 2, o, ap, b)
      | _ => None
      end
  | Lbad, _ => Some (SSH_ERROR, 1, None, ap, buffer)
  | _, _ => None
  end.

(** The loop keeps the slots that were filled ([done]) apart from the one
    that failed. *)
Fixpoint unpack_loop (fmt : bytes) (argc count rc max_len : Z) (ap : list ua)
    (done : list slot) (buffer : ssh_buffer)
    : run (loop_exit (list slot * option slot * list ua * ssh_buffer)) :=
  match fmt with
  | [] => Some (Break rc count (done, None, ap, buffer))
  | c :: fmt =>
      if argc <? count then Some (Return SSH_ERROR (done, None, ap, buffer)) else
      '(rc, n, o, ap, buffer) ← unpack_one (letter_of c) max_len ap buffer;
      if negb (rc =? SSH_OK) then Some (Break rc (count + (n - 1)) (done, o, ap, buffer))
      else unpack_loop fmt argc (count + n) rc max_len ap
             (done ++ match o with Some o => [o] | None => [] end) buffer
  end.

(** The rollback of one filled slot: what it holds afterwards and the block
    that was freed, as it was freed. *)
Definition erase_slot (secure : bool) (o : slot) : run (slot * list bytes) :=
  match o with
  | SlotInt z => Some (SlotInt (if secure then Some 0 else z), [])
  | SlotBignum _ => Some (SlotBignum None, [])
  | SlotString s =>
      s ← (if secure then ssh_string_burn s else Some s);
      Some (SlotString None, match s with Some s => [str_data s] | None => [] end)
  | SlotCstr (Some t) =>
      t ← (if secure then n ← strlen t; bzero t 0 n else Some t);
      Some (SlotCstr None, [t])
  | SlotCstr None => if secure then None else Some (SlotCstr None, [])
  | SlotData (Some d) =>
      d ← (if secure then bzero d 0 (zlen d) else Some d);
      Some (SlotData None, [d])
  | SlotData None => if secure then None else Some (SlotData None, [])
  end.

Fixpoint erase_slots (secure : bool) (os : list slot) : run (list slot * list bytes) :=
  match os with
  | [] => Some ([], [])
  | o :: os =>
      '(o, fr) ← erase_slot secure o;
      '(os, frs) ← erase_slots secure os;
      Some (o :: os, fr ++ frs)
  end.

Definition check_ucanary (ap : list ua) : run () :=
  match ap with
  | UEnd canary :: _ => if canary =? SSH_BUFFER_PACK_END then Some () else None
  | _ => None
  end.

(** [ssh_buffer_unpack_va]: the code, every slot that was reached, the blocks
    the rollback freed and the buffer. *)
Definition ssh_buffer_unpack_va (buffer : ssh_buffer) (format : bytes) (argc : Z) (ap : list ua)
    : run (Z * list slot * list bytes * ssh_buffer) :=
  let max_len := ssh_buffer_get_len buffer in
  if 256 <? argc then Some (SSH_ERROR, [], [], buffer) else
  e ← unpack_loop format argc 0 SSH_ERROR max_len ap [] buffer;
  let '(rc, (done, failed, ap, buffer)) :=
    match e with
    | Return rc st => (rc, st)
    | Break rc count st => (if negb (argc =? count) then SSH_ERROR else rc, st)
    end in
  _ ← (if negb (rc =? SSH_ERROR) then check_ucanary ap else Some ());
  let rest := match failed with Some o => [o] | None => [] end in
  if negb (rc =? SSH_OK) then
    '(done, fr) ← erase_slots (b_secure buffer) done;
    Some (rc, done ++ rest, fr, buffer)
  else Some (rc, done ++ rest, [], buffer).

Definition _ssh_buffer_unpack := ssh_buffer_unpack_va.

(** The macro [ssh_buffer_unpack]. *)
Definition ssh_buffer_unpack (buffer : ssh_buffer) (format : bytes) (args : list ua) :=
  _ssh_buffer_unpack buffer format (zlen args) (args ++ [UEnd SSH_BUFFER_PACK_END]).
End Unpack.

(** ** Well-typed calls: a list of fields and what they mean on the wire *)

Section Fields.
Context `{Allocator} `{BignumLib}.

Inductive field :=
  | FByte (z : Z) | FWord (z : Z) | FDword (z : Z) | FQword (z : Z)
  | FString (s : ssh_string) | FCstring (t : bytes) | FData (d : bytes) | FBignum (n : bignum).

Definition field_char (f : field) : byte :=
  match f with
  | FByte _ => "b" | FWord _ => "w" | FDword _ => "d" | FQword _ => "q"
  | FString _ => "S" | FCstring _ => "s" | FData _ => "P" | FBignum _ => "B"
  end%byte.

Definition field_args (f : field) : list va :=
  match f with
  | FByte z | FWord z | FDword z | FQword z => [VInt z]
  | FString s => [VString (Some s)]
  | FCstring t => [VCstr t]
  | FData d => [VLen (zlen d); VPtr (Some d)]
  | FBignum n => [VBignum n]
  end.

(** The bytes of an mpint. *)
Definition mpint (n : bignum) : bytes :=
  (if (bignum_num_bits n mod 8 =? 0) && bignum_is_bit_set n (bignum_num_bits n - 1)
   then [Byte.x00] else []) ++ bignum_bn2bin n.

Definition lv (t : bytes) : bytes := be_bytes 4 (zlen t) ++ t.

(** The RFC 4251 encoding of each data type. *)
Definition encode (f : field) : bytes :=
  match f with
  | FByte z => be_bytes 1 z
  | FWord z => be_bytes 2 z
  | FDword z => be_bytes 4 z
  | FQword z => be_bytes 8 z
  | FString s => lv (string_text s)
  | FCstring t => lv t
  | FData d => d
  | FBignum n => lv (mpint n)
  end.

Definition field_ok (f : field) : Prop :=
  match f with
  | FString s => string_wf s
  | FCstring t => zlen t < 2 ^ 32
  | FData d => zlen d < 2 ^ 32
  | _ => True
  end.

Definition field_arity (f : field) : Z := zlen (field_args f).
Definition fields_format (fs : list field) : bytes := map field_char fs.
Definition fields_args (fs : list field) : list va := concat (map field_args fs).
Definition fields_encode (fs : list field) : bytes := concat (map encode fs).

(** What a call that failed in the middle leaves behind: a part of the encoding. *)
Definition partly (b b' : ssh_buffer) (e : bytes) : Prop :=
  exists p, contents b' = contents b ++ p /\ p `prefix_of` e.

Lemma partly_nothing b b' e : contents b' = contents b -> partly b b' e.
Proof. intros Hc. exists []. split; [by rewrite app_nil_r|apply prefix_nil]. Qed.

Lemma partly_more b b1 b' e e1 : contents b1 = contents b ++ e1 -> partly b1 b' e -> partly b b' (e1 ++ e).
Proof.
  intros Hc (p & Hp & Hpre). exists (e1 ++ p). split; [by rewrite Hp, Hc, <- app_assoc|by apply prefix_app].
Qed.

Lemma partly_weaken b b' e e1 : partly b b' e -> partly b b' (e ++ e1).
Proof. intros (p & Hp & Hpre). exists p. split; [done|by apply prefix_app_r]. Qed.

Lemma pack_int b w v z rest :
  buffer_wf b -> (w <= 8)%nat -> le_bytes w v = be_bytes w z ->
  exists rc b', ('(rc, b) ← add_int w b v; Some (rc, 1, rest, b)) = Some (rc, 1, rest : list va, b')
    /\ buffer_wf b' /\ b_secure b' = b_secure b
    /\ (rc = 0 /\ contents b' = contents b ++ be_bytes w z \/ rc = -1 /\ partly b b' (be_bytes w z)).
Proof.
  intros Hwf Hw Hv. destruct (add_int_spec w b v Hwf Hw) as (rc & b' & -> & ? & ? & Hrc).
  cbn [mbind option_bind]. rewrite Hv in Hrc. do 2 eexists. split_and!; [done..|].
  destruct Hrc as [?|[? ?]]; [by left|right]. split; [done|by apply partly_nothing].
Qed.

Lemma pack_one_field f b rest :
  buffer_wf b -> field_ok f ->
  exists rc b', pack_one (letter_of (field_char f)) b (field_args f ++ rest)
      = Some (rc, field_arity f, rest, b')
    /\ buffer_wf b' /\ b_secure b' = b_secure b
    /\ (rc = 0 /\ contents b' = contents b ++ encode f \/ rc = -1 /\ partly b b' (encode f)).
Proof.
  intros Hwf Hok. destruct f as [z|z|z|z|s|t|d|n]; cbn [field_ok] in Hok;
    unfold field_arity; cbn [field_args app field_char encode].
  - apply pack_int; [done|lia|]. unfold be_bytes, le_bytes, u8. cbn [rev app]. f_equal. apply z2b_mod.
  - apply pack_int; [done|lia|]. rewrite le_bytes_htons. unfold be_bytes, u16.
    f_equal. apply (le_bytes_wrap 2).
  - apply pack_int; [done|lia|]. apply le_bytes_htonl.
  - apply pack_int; [done|lia|]. apply le_bytes_htonll.
  - cbn [pack_one letter_of]. destruct (add_ssh_string_spec b s Hwf Hok) as (rc & b' & He & ? & ? & Hrc).
    exists rc, b'. split_and!; [|done|done|naive_solver (eauto using partly_nothing)]. cbn. by rewrite He.
  - destruct (add_int_spec 4 b (htonl (zlen t)) Hwf) as (rc & b1 & He1 & Hwf1 & Hs1 & Hrc1); [lia|].
    rewrite le_bytes_htonl in Hrc1. unfold pack_one. cbn -[add_data add_int].
    unfold ssh_buffer_add_u32. rewrite He1. cbn [mbind option_bind].
    destruct Hrc1 as [[-> Hc1]|[-> Hc1]]; cbn [Z.eqb SSH_OK].
    + rewrite (u32_small (zlen t)) by (pose proof (zlen_nonneg t); lia).
      destruct (add_data_spec b1 t (zlen t) Hwf1) as (rc & b2 & -> & ? & ? & Hrc2); [zlen_lia|done|].
      rewrite Hc1, ztake_all, <- app_assoc in Hrc2 by done.
      cbn [mbind option_bind]. do 2 eexists. split_and!; [done|done|congruence|].
      destruct Hrc2 as [[-> ?]|[-> Hc2]]; [by left|right]. split; [done|].
      exists (be_bytes 4 (zlen t)). split; [done|]. by apply prefix_app_r.
    + do 2 eexists. split_and!; [done..|right]. split; [done|by apply partly_nothing].
  - unfold pack_one. cbn -[add_data]. rewrite (u32_small (zlen d)) by (pose proof (zlen_nonneg d); lia).
    destruct (add_data_spec b d (zlen d) Hwf) as (rc & b2 & -> & ? & ? & Hrc2); [zlen_lia|done|].
    rewrite ztake_all in Hrc2 by done. cbn [mbind option_bind].
    do 2 eexists. split_and!; [done..|]. naive_solver (eauto using partly_nothing).
  - unfold pack_one. cbn -[ssh_make_bignum_string ssh_buffer_add_ssh_string].
    destruct (ssh_make_bignum_string n) as [[s|]|] eqn:Hs; cbn [mbind option_bind].
    + apply make_bignum_string_text in Hs as (Hswf & _ & Ht).
      destruct (add_ssh_string_spec b s Hwf Hswf) as (rc & b' & -> & ? & ? & Hrc).
      rewrite Ht in Hrc. cbn [mbind option_bind]. do 2 eexists. split_and!; [done..|]. naive_solver (eauto using partly_nothing).
    + do 2 eexists. split_and!; [done..|right]. split; [done|by apply partly_nothing].
    + by apply make_bignum_string_runs in Hs.
Qed.

Lemma field_arity_pos f : 1 <= field_arity f <= 2.
Proof. unfold field_arity. destruct f; cbn; rewrite !zlen_cons; zlen_lia. Qed.

Lemma fields_args_cons f fs rest :
  fields_args (f :: fs) ++ rest = field_args f ++ (fields_args fs ++ rest).
Proof. unfold fields_args. cbn [map concat]. by rewrite <- app_assoc. Qed.

Lemma zlen_fields_args_cons f fs :
  zlen (fields_args (f :: fs)) = field_arity f + zlen (fields_args fs).
Proof. unfold fields_args, field_arity. cbn [map concat]. zlen_lia. Qed.

Lemma pack_loop_fields fs : forall b count rc rest,
  buffer_wf b -> Forall field_ok fs ->
  exists rc' c ap b',
    pack_loop (fields_format fs) (count + zlen (fields_args fs)) count rc
      (fields_args fs ++ rest) b = Some (Break rc' c (ap, b'))
    /\ buffer_wf b' /\ b_secure b' = b_secure b
    /\ (rc' = (match fs with [] => rc | _ => 0 end) /\ c = count + zlen (fields_args fs)
          /\ ap = rest /\ contents b' = contents b ++ fields_encode fs
        \/ rc' = -1 /\ c < count + zlen (fields_args fs) /\ partly b b' (fields_encode fs)).
Proof.
  induction fs as [|f fs IH]; intros b count rc rest Hwf Hok.
  - cbn. do 4 eexists. split_and!; [done..|]. left. unfold fields_encode, fields_args.
    cbn [map concat]. rewrite app_nil_r. split_and!; (done || zlen_lia).
  - inversion Hok as [|? ? Hf Hfs]; subst. rewrite fields_args_cons, zlen_fields_args_cons.
    pose proof (field_arity_pos f) as Har. pose proof (zlen_nonneg (fields_args fs)) as Hn.
    cbn [fields_format map pack_loop]. rewrite (proj2 (Z.ltb_ge _ _)) by lia.
    destruct (pack_one_field f b (fields_args fs ++ rest) Hwf Hf)
      as (rc1 & b1 & -> & Hwf1 & Hs1 & Hrc1). cbn [mbind option_bind].
    destruct Hrc1 as [[-> Hc1]|[-> Hp1]]; cbn [Z.eqb SSH_OK negb].
    + rewrite Z.add_assoc.
      destruct (IH b1 (count + field_arity f) 0 rest Hwf1 Hfs)
        as (rc2 & c & ap & b2 & He & Hwf2 & Hs2 & Hres).
      unfold fields_format in He. rewrite He. do 4 eexists.
      split_and!; [done|done|congruence|].
      destruct Hres as [(-> & -> & -> & Hc2)|(-> & Hlt & Hp2)]; [left|right].
      2: { split_and!; [done|done|]. by eapply partly_more. }
      split_and!; [by destruct fs|done|done|].
      rewrite Hc2, Hc1, <- app_assoc. unfold fields_encode. done.
    + do 4 eexists. split_and!; [done..|]. right. split_and!; [done|lia|by apply partly_weaken].
Qed.

Lemma pack_size_fields fs : forall count needed rest,
  0 <= needed < 2 ^ 64 ->
  exists needed',
    pack_size (fields_format fs) (count + zlen (fields_args fs)) count needed
      (fields_args fs ++ rest) = Some (Break SSH_OK (count + zlen (fields_args fs)) (needed', rest)).
Proof.
  induction fs as [|f fs IH]; intros count needed rest Hneed.
  - cbn. unfold fields_args. cbn. exists needed. do 3 f_equal. zlen_lia.
  - rewrite fields_args_cons, zlen_fields_args_cons.
    pose proof (field_arity_pos f) as Har. pose proof (zlen_nonneg (fields_args fs)) as Hn.
    unfold fields_format in *. cbn [map pack_size]. rewrite (proj2 (Z.ltb_ge _ _)) by lia.
    rewrite Z.add_assoc.
    destruct f; cbn [letter_of field_char field_args app field_arity];
      unfold field_arity; cbn [field_args]; rewrite ?zlen_cons, ?zlen_nil, ?Z.add_0_r;
      apply IH; apply u64_range.
Qed.

(** A well-typed call never misbehaves; it appends the encoding of all its
    fields or fails. *)
Lemma pack_fields_spec b fs :
  buffer_wf b -> Forall field_ok fs -> fs <> [] -> zlen (fields_args fs) <= 256 ->
  exists rc b', ssh_buffer_pack b (fields_format fs) (fields_args fs) = Some (rc, b')
    /\ buffer_wf b' /\ b_secure b' = b_secure b
    /\ (rc = SSH_OK /\ contents b' = contents b ++ fields_encode fs
        \/ rc = SSH_ERROR /\ partly b b' (fields_encode fs)).
Proof.
  intros Hwf Hok Hne Hn. unfold ssh_buffer_pack, _ssh_buffer_pack.
  rewrite (proj2 (Z.ltb_ge _ _)) by lia. unfold ssh_buffer_pack_allocate_va.
  destruct (pack_size_fields fs 0 0 [VEnd SSH_BUFFER_PACK_END]) as (needed & Hsz); [lia|].
  rewrite Z.add_0_l in Hsz. rewrite Hsz. cbn [mbind option_bind].
  rewrite Z.eqb_refl. cbn [negb SSH_OK SSH_ERROR Z.eqb check_canary].
  change (SSH_BUFFER_PACK_END =? SSH_BUFFER_PACK_END) with true. cbv iota. cbn [mbind option_bind].
  destruct (allocate_size_spec b (u32 needed) Hwf) as (rc0 & b0 & -> & Hwf0 & [Hs0 Hc0] & Hrc0);
    [apply u32_range|]. cbn [mbind option_bind].
  destruct Hrc0 as [[-> _]| ->]; cbn [negb Z.eqb]; [|do 2 eexists; split_and!; [done..|right; split; [done|by apply partly_nothing]]].
  unfold ssh_buffer_pack_va. rewrite (proj2 (Z.ltb_ge _ _)) by lia.
  destruct (pack_loop_fields fs b0 0 SSH_ERROR [VEnd SSH_BUFFER_PACK_END] Hwf0 Hok)
    as (rc & c & ap & b1 & He & Hwf1 & Hs1 & Hres).
  rewrite Z.add_0_l in *. cbn [mbind option_bind]. change (SSH_OK =? SSH_OK) with true. cbn [negb]. rewrite He. cbn [mbind option_bind].
  destruct Hres as [(-> & -> & -> & Hc1)|(-> & Hlt & q & Hq & Hpre)].
  - rewrite Z.eqb_refl. destruct fs as [|f fs]; [done|]. cbn [negb Z.eqb SSH_ERROR check_canary].
    change (SSH_BUFFER_PACK_END =? SSH_BUFFER_PACK_END) with true. cbn [mbind option_bind].
    do 2 eexists. split_and!; [done|done|congruence|]. left. by rewrite Hc1, Hc0.
  - rewrite (proj2 (Z.eqb_neq _ _)) by lia. cbn [negb].
    do 2 eexists. split_and!; [done|done|congruence|right]. split; [done|]. exists q. by rewrite Hq, Hc0.
Qed.

(** With memory for it, a well-typed call appends the encoding of its fields: the
    room the sizing loop asks for, and the calls one after the other. *)
Definition field_room (f : field) : Z :=
  match f with FBignum _ => 64 | _ => zlen (encode f) end.
Definition fields_room (fs : list field) : Z := foldr (fun f n => field_room f + n) 0 fs.

Definition field_ready (f : field) : Prop :=
  field_ok f /\ match f with FBignum n => bn_val n <> 0 | _ => True end.

Lemma zlen_lv t : zlen (lv t) = 4 + zlen t.
Proof. unfold lv. zlen_lia. Qed.

Lemma field_room_nonneg f : 0 <= field_room f.
Proof. destruct f; try apply zlen_nonneg. cbn. lia. Qed.

Lemma fields_room_cons f fs : fields_room (f :: fs) = field_room f + fields_room fs.
Proof. done. Qed.

Lemma fields_room_nonneg fs : 0 <= fields_room fs.
Proof. induction fs as [|f fs IH]; [done|]. rewrite fields_room_cons. pose proof (field_room_nonneg f). lia. Qed.

Lemma fields_encode_cons f fs : fields_encode (f :: fs) = encode f ++ fields_encode fs.
Proof. done. Qed.

Lemma pack_size_room fs : forall count needed rest,
  Forall field_ok fs -> 0 <= needed -> needed + fields_room fs < 2 ^ 64 ->
  pack_size (fields_format fs) (count + zlen (fields_args fs)) count needed (fields_args fs ++ rest)
  = Some (Break SSH_OK (count + zlen (fields_args fs)) (needed + fields_room fs, rest)).
Proof.
  induction fs as [|f fs IH]; intros count needed rest Hok Hneed Hmax.
  - cbn. unfold fields_args, fields_room. cbn. rewrite !Z.add_0_r. done.
  - inversion Hok as [|? ? Hf Hfs]; subst. rewrite fields_room_cons in *.
    rewrite fields_args_cons, zlen_fields_args_cons.
    pose proof (field_arity_pos f) as Har. pose proof (zlen_nonneg (fields_args fs)) as Hn.
    pose proof (field_room_nonneg f) as Hr. pose proof (fields_room_nonneg fs).
    unfold fields_format in *. cbn [map pack_size]. rewrite (proj2 (Z.ltb_ge _ _)) by lia.
    rewrite !Z.add_assoc.
    destruct f; cbn [letter_of field_char field_args app field_arity];
      unfold field_arity; cbn [field_args]; rewrite ?zlen_cons, ?zlen_nil, ?Z.add_0_r;
      cbn [field_room encode field_ok] in *;
      try (apply string_wf_len in Hf as Hl; rewrite zlen_lv, (string_text_zlen s Hf) in *);
      rewrite ?zlen_lv, ?zlen_be_bytes in *;
      match goal with |- context [letter_of ?c] => let v := eval vm_compute in (letter_of c) in
        change (letter_of c) with v end; cbv iota;
      (rewrite u64_small by lia); apply IH; (done || lia).
Qed.

Lemma bignum_string_made n :
  malloc_succeeds -> bn_val n <> 0 -> 4 + zlen (mpint n) < BUFFER_SIZE_MAX ->
  ssh_make_bignum_string n <> Some None.
Proof.
  intros Hmem Hn Hmax. destruct (bn_bytes_bound n Hn) as (Hpos & _).
  unfold ssh_make_bignum_string. rewrite (proj2 (Z.eqb_neq _ _)) by lia.
  assert (Hbl : zlen (bignum_bn2bin n) = bignum_num_bytes n) by (rewrite bn_bn2bin_spec; zlen_lia).
  unfold mpint in Hmax. rewrite zlen_app, Hbl in Hmax. unfold ssh_string_new.
  assert (Hl : zlen (if (bignum_num_bits n mod 8 =? 0) && bignum_is_bit_set n (bignum_num_bits n - 1)
                     then [Byte.x00] else [])
    = if (bignum_num_bits n mod 8 =? 0) && bignum_is_bit_set n (bignum_num_bits n - 1) then 1 else 0)
    by (by destruct (_ && _)).
  rewrite Hl in Hmax. clear Hl. revert Hmax. set (pd := if _ && _ then 1 else 0).
  assert (0 <= pd) by (subst pd; destruct (_ && _); lia). intros Hmax. unfold BUFFER_SIZE_MAX in *.
  rewrite (proj2 (Z.ltb_ge _ _)) by (unfold STRING_SIZE_MAX; lia).
  destruct (malloc _) as [blk|] eqn:Hm.
  - destruct (if negb _ then _ else _); [|done]. cbn [mbind option_bind]. by destruct (memcpy _ _ _ _ _).
  - exfalso. revert Hm. apply Hmem. unfold string_header, BUFFER_SIZE_MAX. lia.
Qed.

Lemma pack_one_ok f b rest :
  malloc_succeeds -> buffer_wf b -> field_ready f -> b_used b + zlen (encode f) < BUFFER_SIZE_MAX ->
  exists b', pack_one (letter_of (field_char f)) b (field_args f ++ rest)
      = Some (0, field_arity f, rest, b')
    /\ buffer_wf b' /\ b_used b' <= b_used b + zlen (encode f) /\ contents b' = contents b ++ encode f.
Proof.
  intros Hmem Hwf [Hok Hz] Hmax. pose proof Hwf as [Hp0 Hu0 _ _].
  assert (Hint : forall w v z, (w <= 8)%nat -> le_bytes w v = be_bytes w z ->
    b_used b + Z.of_nat w < BUFFER_SIZE_MAX -> exists b', add_int w b v = Some (0, b') /\ buffer_wf b'
      /\ b_used b' <= b_used b + Z.of_nat w /\ contents b' = contents b ++ be_bytes w z).
  { intros w v z Hw <- Hu. by apply add_int_ok. }
  unfold field_arity. destruct f as [z|z|z|z|s|t|d|n]; cbn [field_ok encode field_args app field_char] in *.
  1-4: rewrite zlen_be_bytes in Hmax; rewrite zlen_be_bytes.
  - destruct (Hint 1%nat (u8 z) z) as (b' & He & ?); [lia| |done|].
    { unfold be_bytes, le_bytes, u8. cbn [rev app]. f_equal. apply z2b_mod. }
    exists b'. split; [|done]. unfold pack_one. cbn -[add_int]. unfold ssh_buffer_add_u8. by rewrite He.
  - destruct (Hint 2%nat (htons (u16 z)) z) as (b' & He & ?); [lia| |done|].
    { rewrite le_bytes_htons. unfold be_bytes, u16. f_equal. apply (le_bytes_wrap 2). }
    exists b'. split; [|done]. unfold pack_one. cbn -[add_int htons]. unfold ssh_buffer_add_u16. by rewrite He.
  - destruct (Hint 4%nat (htonl z) z) as (b' & He & ?); [lia|apply le_bytes_htonl|done|].
    exists b'. split; [|done]. unfold pack_one. cbn -[add_int htonl]. unfold ssh_buffer_add_u32. by rewrite He.
  - destruct (Hint 8%nat (htonll z) z) as (b' & He & ?); [lia|apply le_bytes_htonll|done|].
    exists b'. split; [|done]. unfold pack_one. cbn -[add_int htonll]. unfold ssh_buffer_add_u64. by rewrite He.
  - rewrite zlen_lv in *. destruct (add_ssh_string_ok b s Hmem Hwf Hok) as (b' & He & Hb' & Hu & Hc); [lia|].
    exists b'. split_and!; [|done|lia|done]. unfold pack_one. cbn -[ssh_buffer_add_ssh_string]. by rewrite He.
  - rewrite zlen_lv in *. pose proof (zlen_nonneg t).
    destruct (add_int_ok 4 b (htonl (zlen t)) Hmem Hwf) as (b1 & He & Hb1 & Hu1 & Hc1); [lia|lia|].
    destruct (add_data_ok b1 t (zlen t) Hmem Hb1) as (b2 & He2 & Hb2 & Hu2 & Hc2); [lia|lia|].
    exists b2. split_and!; [|done|lia|].
    + unfold pack_one. cbn -[add_int add_data htonl]. unfold ssh_buffer_add_u32. rewrite He.
      cbn [mbind option_bind Z.eqb SSH_OK]. rewrite u32_small by lia. by rewrite He2.
    + rewrite Hc2, Hc1, le_bytes_htonl, ztake_all by lia. unfold lv. by rewrite <- app_assoc.
  - pose proof (zlen_nonneg d).
    destruct (add_data_ok b d (zlen d) Hmem Hwf) as (b2 & He2 & Hb2 & Hu2 & Hc2); [lia|lia|].
    exists b2. split_and!; [|done|lia|by rewrite Hc2, ztake_all by lia].
    unfold pack_one. cbn -[add_data]. rewrite u32_small by lia. by rewrite He2.
  - rewrite zlen_lv in *. destruct (ssh_make_bignum_string n) as [[s|]|] eqn:Hs.
    + apply make_bignum_string_text in Hs as Ht. destruct Ht as (Hswf & _ & Ht).
      change (string_text s = mpint n) in Ht. rewrite <- Ht in *.
      destruct (add_ssh_string_ok b s Hmem Hwf Hswf) as (b' & He & Hb' & Hu & Hc); [lia|].
      exists b'. split_and!; [|done|lia|done].
      unfold pack_one. cbn -[ssh_make_bignum_string ssh_buffer_add_ssh_string]. rewrite Hs.
      cbn [mbind option_bind]. by rewrite He.
    + exfalso. apply (bignum_string_made n); [done|done|lia|done].
    + by apply make_bignum_string_runs in Hs.
Qed.

Lemma pack_loop_ok fs : forall b count rc rest,
  malloc_succeeds -> buffer_wf b -> Forall field_ready fs ->
  b_used b + zlen (fields_encode fs) < BUFFER_SIZE_MAX ->
  exists b', pack_loop (fields_format fs) (count + zlen (fields_args fs)) count rc
      (fields_args fs ++ rest) b
      = Some (Break (match fs with [] => rc | _ => 0 end) (count + zlen (fields_args fs)) (rest, b'))
    /\ buffer_wf b' /\ b_used b' <= b_used b + zlen (fields_encode fs)
    /\ contents b' = contents b ++ fields_encode fs.
Proof.
  induction fs as [|f fs IH]; intros b count rc rest Hmem Hwf Hok Hmax.
  - cbn. exists b. unfold fields_encode, fields_args. cbn. rewrite app_nil_r, !Z.add_0_r.
    split_and!; (done || lia).
  - inversion Hok as [|? ? Hf Hfs]; subst. rewrite fields_args_cons, zlen_fields_args_cons.
    rewrite fields_encode_cons, zlen_app in *.
    pose proof (field_arity_pos f) as Har. pose proof (zlen_nonneg (fields_args fs)) as Hn.
    pose proof (zlen_nonneg (fields_encode fs)).
    cbn [fields_format map pack_loop]. rewrite (proj2 (Z.ltb_ge _ _)) by lia.
    destruct (pack_one_ok f b (fields_args fs ++ rest) Hmem Hwf Hf)
      as (b1 & -> & Hwf1 & Hu1 & Hc1); [lia|]. cbn [mbind option_bind Z.eqb SSH_OK negb].
    rewrite Z.add_assoc.
    destruct (IH b1 (count + field_arity f) 0 rest Hmem Hwf1 Hfs) as (b2 & He & Hwf2 & Hu2 & Hc2); [lia|].
    unfold fields_format in He. rewrite He. exists b2. split_and!; [by destruct fs|done|lia|].
    by rewrite Hc2, Hc1, <- app_assoc.
Qed.

Lemma pack_fields_ok b fs :
  malloc_succeeds -> buffer_wf b -> Forall field_ready fs -> fs <> [] ->
  zlen (fields_args fs) <= 256 -> fields_room fs < BUFFER_SIZE_MAX ->
  b_used b + zlen (fields_encode fs) < BUFFER_SIZE_MAX ->
  exists b', ssh_buffer_pack b (fields_format fs) (fields_args fs) = Some (SSH_OK, b')
    /\ buffer_wf b' /\ b_used b' <= b_used b + zlen (fields_encode fs)
    /\ contents b' = contents b ++ fields_encode fs.
Proof.
  intros Hmem Hwf Hok Hne Hn Hroom Hmax. pose proof (fields_room_nonneg fs) as Hr.
  unfold ssh_buffer_pack, _ssh_buffer_pack. unfold BUFFER_SIZE_MAX in *.
  rewrite (proj2 (Z.ltb_ge _ _)) by lia. unfold ssh_buffer_pack_allocate_va.
  rewrite (pack_size_room fs 0 0) by (lia || (eapply Forall_impl; [exact Hok|]; by intros f [? _])).
  cbn [mbind option_bind]. rewrite !Z.add_0_l.
  rewrite Z.eqb_refl. cbn [negb SSH_OK SSH_ERROR Z.eqb check_canary].
  change (SSH_BUFFER_PACK_END =? SSH_BUFFER_PACK_END) with true. cbv iota. cbn [mbind option_bind].
  rewrite (u32_small (fields_room fs)) by lia.
  destruct (allocate_size_ok b (fields_room fs) Hmem Hwf) as (b0 & -> & Hwf0 & Hu0 & Hc0);
    [unfold BUFFER_SIZE_MAX; lia|]. cbn [mbind option_bind negb Z.eqb].
  unfold ssh_buffer_pack_va. rewrite (proj2 (Z.ltb_ge _ _)) by lia. change (SSH_OK =? SSH_OK) with true.
  cbn [negb].
  destruct (pack_loop_ok fs b0 0 SSH_ERROR [VEnd SSH_BUFFER_PACK_END] Hmem Hwf0 Hok)
    as (b1 & He & Hwf1 & Hu1 & Hc1); [unfold BUFFER_SIZE_MAX; lia|].
  rewrite Z.add_0_l in He. rewrite He. cbn [mbind option_bind].
  rewrite Z.eqb_refl. destruct fs as [|f fs]; [done|]. cbn [negb Z.eqb SSH_ERROR check_canary].
  change (SSH_BUFFER_PACK_END =? SSH_BUFFER_PACK_END) with true. cbn [mbind option_bind].
  exists b1. split_and!; [done|done|lia|by rewrite Hc1, Hc0].
Qed.

Lemma mpint_val n : be_val (mpint n) = bn_val n.
Proof.
  unfold mpint. rewrite be_val_app.
  assert (Hb : be_val (bignum_bn2bin n) = bn_val n).
  { destruct (decide (bn_val n = 0)) as [Hz|]; [|by apply bn2bin_val].
    rewrite bn_bn2bin_spec, bn_num_bytes_spec, bn_num_bits_spec, Hz. done. }
  rewrite Hb. by destruct (_ && _).
Qed.

(** *** Reading the fields back *)

Definition field_uargs (f : field) : list ua :=
  match f with FData d => [ULen (zlen d); UPtr] | _ => [UPtr] end.

Definition fields_uargs (fs : list field) : list ua := concat (map field_uargs fs).

(** The slot holds the value the field was packed from. *)
Definition slot_holds (f : field) (o : slot) : Prop :=
  match f, o with
  | FByte z, SlotInt v => v = Some (z mod 2 ^ 8)
  | FWord z, SlotInt v => v = Some (z mod 2 ^ 16)
  | FDword z, SlotInt v => v = Some (z mod 2 ^ 32)
  | FQword z, SlotInt v => v = Some (z mod 2 ^ 64)
  | FString s, SlotString (Some s') => string_wf s' /\ string_text s' = string_text s
  | FCstring t, SlotCstr v => v = Some (t ++ [Byte.x00])
  | FData d, SlotData v => v = Some d
  | FBignum n, SlotBignum (Some m) => bn_val m = bn_val n
  | _, _ => False
  end.

Section Reading.
(** Memory and the crypto library do not fail. *)
Hypothesis malloc_total : forall n, 0 <= n <= BUFFER_SIZE_MAX + 5 -> malloc n <> None.
Hypothesis bin2bn_total : forall l, bignum_bin2bn l <> None.

Lemma contents_max b : buffer_wf b -> zlen (contents b) <= BUFFER_SIZE_MAX.
Proof. intros Hwf. rewrite contents_zlen by done. destruct Hwf. lia. Qed.

Lemma take_prefix (x y : bytes) n : n = zlen x -> ztake n (x ++ y) = x /\ zdrop n (x ++ y) = y.
Proof.
  intros ->. rewrite ztake_app_le, ztake_all by lia. split; [done|].
  rewrite zdrop_app_ge, zdrop_0 by lia. done.
Qed.

Lemma get_int_prefix w b x rest :
  buffer_wf b -> (w <= 8)%nat -> contents b = x ++ rest -> length x = w ->
  exists b', get_int w b = Some (Z.of_nat w, Some (le_val x), b') /\ buffer_wf b'
    /\ b_secure b' = b_secure b /\ contents b' = rest.
Proof.
  intros Hwf Hw Hc Hx. destruct (get_int_spec w b Hwf Hw) as (b' & -> & Hwf' & Hs & Hc').
  rewrite Hc in *. assert (Hwx : Z.of_nat w = zlen x) by (unfold zlen; lia).
  rewrite (proj2 (Z.leb_le _ _)) in * by zlen_lia.
  destruct (take_prefix x rest (Z.of_nat w) Hwx) as [Ht Hd]. rewrite Ht. rewrite Hd in Hc'.
  by exists b'.
Qed.

Lemma unpack_int_prefix w conv b z rest :
  buffer_wf b -> (w <= 8)%nat -> contents b = be_bytes w z ++ rest ->
  conv (le_val (be_bytes w z)) = z mod 256 ^ Z.of_nat w ->
  exists b', unpack_int w conv b = Some (SSH_OK, Some (SlotInt (Some (z mod 256 ^ Z.of_nat w))), b')
    /\ buffer_wf b' /\ b_secure b' = b_secure b /\ contents b' = rest.
Proof.
  intros Hwf Hw Hc Hconv. unfold unpack_int.
  destruct (get_int_prefix w b (be_bytes w z) rest Hwf Hw Hc) as (b' & -> & ? & ? & ?).
  { pose proof (zlen_be_bytes w z). unfold zlen in *. lia. }
  cbn [mbind option_bind]. rewrite Z.eqb_refl. cbn [rc_of option_map]. rewrite Hconv. eauto.
Qed.

Lemma get_ssh_string_lv b t rest :
  buffer_wf b -> contents b = lv t ++ rest ->
  exists s b', ssh_buffer_get_ssh_string b = Some (Some s, b') /\ buffer_wf b'
    /\ b_secure b' = b_secure b /\ contents b' = rest /\ string_wf s /\ string_text s = t.
Proof.
  intros Hwf Hc. pose proof (contents_max b Hwf) as Hmax. unfold lv in Hc.
  rewrite <- app_assoc in Hc. unfold ssh_buffer_get_ssh_string, ssh_buffer_get_u32.
  assert (Hl4 : length (be_bytes 4 (zlen t)) = 4%nat) by reflexivity.
  destruct (get_int_prefix 4 b _ _ Hwf ltac:(lia) Hc Hl4) as (b1 & -> & Hwf1 & Hs1 & Hc1).
  cbn [mbind option_bind]. unfold BUFFER_SIZE_MAX in *. rewrite Hc in Hmax.
  rewrite ntohl_le_val, be_val_bytes, Z.mod_small by (done || zlen_lia).
  rewrite validate_length_spec by (done || zlen_lia). rewrite Hc1.
  rewrite (proj2 (Z.leb_le _ _)) by zlen_lia. cbn [negb Z.eqb SSH_OK].
  destruct (ssh_string_new (zlen t)) as [str|] eqn:Hnew.
  2: { exfalso. unfold ssh_string_new, STRING_SIZE_MAX in Hnew.
       rewrite (proj2 (Z.ltb_ge _ _)) in Hnew by zlen_lia.
       destruct (malloc _) eqn:Hm in Hnew; [done|]. apply malloc_total in Hm; [done|].
       unfold string_header. zlen_lia. }
  apply ssh_string_new_wf in Hnew as [Hswf Hslen]; [|zlen_lia].
  destruct (get_data_spec b1 (zlen t) Hwf1) as (b2 & -> & Hwf2 & Hs2 & Hc2); [zlen_lia|].
  rewrite Hc1 in *. destruct (take_prefix t rest (zlen t) eq_refl) as [Ht Hd].
  rewrite (proj2 (Z.leb_le _ _)) in * by zlen_lia. rewrite Ht. rewrite Hd in Hc2.
  cbn [mbind option_bind]. rewrite Z.eqb_refl. cbn [negb default from_option id].
  destruct (memcpy (str_data str) 0 t 0 (zlen t)) as [p|] eqn:Hcp.
  2: { apply string_wf_len in Hswf. rewrite memcpy_ok in Hcp by zlen_lia. done. }
  cbn [mbind option_bind]. destruct (fill_text str t p) as [? ?]; [done..|].
  do 2 eexists. split_and!; [done|done|congruence|done|done|done].
Qed.

Lemma unpack_cstr_lv b t rest max_len :
  buffer_wf b -> contents b = lv t ++ rest -> zlen (contents b) <= max_len <= BUFFER_SIZE_MAX ->
  exists b', unpack_cstr max_len b = Some (SSH_OK, Some (SlotCstr (Some (t ++ [Byte.x00]))), b')
    /\ buffer_wf b' /\ b_secure b' = b_secure b /\ contents b' = rest.
Proof.
  intros Hwf Hc Hmax. unfold lv in Hc. rewrite <- app_assoc in Hc. unfold unpack_cstr.
  unfold ssh_buffer_get_u32. assert (Hl4 : length (be_bytes 4 (zlen t)) = 4%nat) by reflexivity.
  destruct (get_int_prefix 4 b _ _ Hwf ltac:(lia) Hc Hl4) as (b1 & -> & Hwf1 & Hs1 & Hc1).
  cbn [mbind option_bind default from_option id Z.of_nat]. unfold BUFFER_SIZE_MAX in *.
  rewrite Hc in Hmax. autorewrite with zlist in Hmax.
  pose proof (zlen_nonneg t). pose proof (zlen_nonneg rest). change (Z.of_nat 4) with 4 in *.
  rewrite ntohl_le_val, be_val_bytes, Z.mod_small by (done || lia).
  change (negb (4 =? 4)) with false. cbv iota. unwrap.
  rewrite (proj2 (Z.ltb_ge _ _)) by lia.
  rewrite validate_length_spec by (done || lia). rewrite Hc1.
  rewrite (proj2 (Z.leb_le _ _)) by zlen_lia. cbn [negb Z.eqb SSH_OK].
  destruct (malloc (zlen t + 1)) as [blk|] eqn:Hm.
  2: { apply malloc_total in Hm; [done|]. unfold BUFFER_SIZE_MAX. lia. }
  apply malloc_zlen in Hm; [|lia].
  destruct (get_data_spec b1 (zlen t) Hwf1) as (b2 & -> & Hwf2 & Hs2 & Hc2); [lia|].
  rewrite Hc1 in *. destruct (take_prefix t rest (zlen t) eq_refl) as [Ht Hd].
  rewrite (proj2 (Z.leb_le _ _)) in * by zlen_lia. rewrite Ht. rewrite Hd in Hc2.
  cbn [mbind option_bind]. rewrite Z.eqb_refl. cbn [negb default from_option id].
  rewrite memcpy_ok by lia. cbn [mbind option_bind]. rewrite memcpy_ok by zlen_lia.
  cbn [mbind option_bind]. exists b2. split_and!; [|done|congruence|done]. do 4 f_equal.
  rewrite (ztake_0 0), (zdrop_0 0 t), (ztake_all (zlen t) t) by lia. cbn [app].
  rewrite ztake_app_le, ztake_all by lia. do 2 f_equal.
  rewrite (zdrop_all (zlen t + 1)) by zlen_lia. done.
Qed.

Lemma unpack_data_prefix b d rest max_len :
  buffer_wf b -> contents b = d ++ rest ->
  exists b', unpack_data max_len (zlen d) b = Some (SSH_OK, Some (SlotData (Some d)), b')
    /\ buffer_wf b' /\ b_secure b' = b_secure b /\ contents b' = rest.
Proof.
  intros Hwf Hc. pose proof (contents_max b Hwf) as Hmax. unfold unpack_data, BUFFER_SIZE_MAX in *.
  rewrite Hc in Hmax. autorewrite with zlist in Hmax.
  pose proof (zlen_nonneg d). pose proof (zlen_nonneg rest).
  destruct (malloc (zlen d)) as [blk|] eqn:Hm.
  2: { apply malloc_total in Hm; [done|]. unfold BUFFER_SIZE_MAX. lia. }
  apply malloc_zlen in Hm; [|lia].
  destruct (get_data_spec b (zlen d) Hwf) as (b2 & -> & Hwf2 & Hs2 & Hc2); [lia|].
  rewrite Hc in *. destruct (take_prefix d rest (zlen d) eq_refl) as [Ht Hd].
  rewrite (proj2 (Z.leb_le _ _)) in * by zlen_lia. rewrite Ht. rewrite Hd in Hc2.
  cbn [mbind option_bind]. rewrite Z.eqb_refl. cbn [negb default from_option id].
  rewrite memcpy_ok by lia. cbn [mbind option_bind]. exists b2.
  split_and!; [|done..]. rewrite (ztake_0 0), (zdrop_0 0 d), (ztake_all (zlen d) d) by lia.
  by rewrite (zdrop_all (0 + zlen d)), app_nil_r by lia.
Qed.

(** Reading one field leaves exactly what follows it. *)
Lemma unpack_one_field f b rest ap max_len :
  buffer_wf b -> field_ok f -> contents b = encode f ++ rest ->
  zlen (contents b) <= max_len <= BUFFER_SIZE_MAX ->
  (forall d, f = FData d -> zlen d < max_len) ->
  exists o b', unpack_one (letter_of (field_char f)) max_len (field_uargs f ++ ap) b
      = Some (SSH_OK, field_arity f, Some o, ap, b')
    /\ buffer_wf b' /\ b_secure b' = b_secure b /\ contents b' = rest /\ slot_holds f o.
Proof.
  intros Hwf Hok Hc Hmax Hdata.
  destruct f as [z|z|z|z|s|t|d|n]; cbn [field_ok encode field_char field_uargs app] in *;
    unfold field_arity; cbn [field_args]; rewrite ?zlen_cons, ?zlen_nil.
  - destruct (unpack_int_prefix 1 (fun z => z) b z rest) as (b' & He & ? & ? & ?);
      [done|lia|done|apply (be_val_bytes 1)|].
    cbn. rewrite He. do 2 eexists. by split_and!.
  - destruct (unpack_int_prefix 2 ntohs b z rest) as (b' & He & ? & ? & ?);
      [done|lia|done|rewrite ntohs_le_val by done; apply be_val_bytes|].
    cbn. rewrite He. do 2 eexists. by split_and!.
  - destruct (unpack_int_prefix 4 ntohl b z rest) as (b' & He & ? & ? & ?);
      [done|lia|done|rewrite ntohl_le_val by done; apply be_val_bytes|].
    cbn. rewrite He. do 2 eexists. by split_and!.
  - destruct (unpack_int_prefix 8 ntohll b z rest) as (b' & He & ? & ? & ?);
      [done|lia|done|rewrite ntohll_le_val by done; apply be_val_bytes|].
    cbn. rewrite He. do 2 eexists. by split_and!.
  - destruct (get_ssh_string_lv b (string_text s) rest Hwf Hc) as (s' & b' & He & ? & ? & ? & ? & ?).
    cbn. rewrite He. do 2 eexists. by split_and!.
  - destruct (unpack_cstr_lv b t rest max_len Hwf Hc Hmax) as (b' & He & ? & ? & ?).
    cbn. rewrite He. do 2 eexists. by split_and!.
  - cbn -[u64]. specialize (Hdata d eq_refl). unfold BUFFER_SIZE_MAX in Hmax.
    pose proof (zlen_nonneg d). rewrite Hc in Hmax. autorewrite with zlist in Hmax.
    pose proof (zlen_nonneg rest). unwrap. rewrite (proj2 (Z.ltb_ge _ _)) by lia.
    rewrite validate_length_spec, Hc by (done || lia).
    rewrite (proj2 (Z.leb_le _ _)) by zlen_lia. cbn [negb Z.eqb SSH_OK].
    destruct (unpack_data_prefix b d rest max_len Hwf Hc) as (b' & He & ? & ? & ?).
    rewrite He. do 2 eexists. by split_and!.
  - destruct (get_ssh_string_lv b (mpint n) rest Hwf Hc) as (s & b' & He & ? & ? & ? & Hs & Ht).
    cbn. rewrite He. cbn [mbind option_bind].
    destruct (ssh_string_burn_text s Hs) as (s' & -> & _). cbn [mbind option_bind].
    destruct (ssh_make_string_bn s) as [m|] eqn:Hm.
    2: { unfold ssh_make_string_bn in Hm. by apply bin2bn_total in Hm. }
    do 2 eexists. split_and!; [done..|]. cbn [slot_holds].
    unfold ssh_make_string_bn in Hm. fold (string_text s) in Hm. rewrite Ht in Hm.
    rewrite (bn_bin2bn_spec _ _ Hm). apply mpint_val.
Qed.

Lemma unpack_loop_fields fs rest : forall b count rc done ap max_len,
  buffer_wf b -> Forall field_ok fs -> contents b = fields_encode fs ++ rest ->
  zlen (contents b) <= max_len <= BUFFER_SIZE_MAX ->
  Forall (fun f => forall d, f = FData d -> zlen d < max_len) fs ->
  exists os b',
    unpack_loop (fields_format fs) (count + zlen (fields_args fs)) count rc max_len
      (fields_uargs fs ++ ap) done b
    = Some (Break (match fs with [] => rc | _ => SSH_OK end) (count + zlen (fields_args fs))
                  (done ++ os, None, ap, b'))
    /\ buffer_wf b' /\ contents b' = rest /\ Forall2 slot_holds fs os.
Proof.
  induction fs as [|f fs IH]; intros b count rc dn ap max_len Hwf Hok Hc Hmax Hdata.
  - exists [], b. cbn. rewrite app_nil_r. split_and!; [|done|done|constructor].
    unfold fields_args. cbn. rewrite zlen_nil. do 2 f_equal. lia.
  - inversion Hok as [|? ? Hf Hfs]; subst. inversion Hdata as [|? ? Hd Hds]; subst.
    unfold fields_encode in Hc. cbn [map concat] in Hc. rewrite <- app_assoc in Hc. rewrite zlen_fields_args_cons.
    pose proof (field_arity_pos f) as Har. pose proof (zlen_nonneg (fields_args fs)) as Hn.
    unfold fields_format, fields_uargs. cbn [map unpack_loop concat].
    rewrite (proj2 (Z.ltb_ge _ _)) by lia. rewrite <- app_assoc.
    destruct (unpack_one_field f b (fields_encode fs ++ rest) (concat (map field_uargs fs) ++ ap) max_len
      Hwf Hf Hc Hmax Hd) as (o & b1 & -> & Hwf1 & Hs1 & Hc1 & Ho).
    cbn [mbind option_bind]. change (negb (SSH_OK =? SSH_OK)) with false. cbv iota.
    rewrite Z.add_assoc.
    destruct (IH b1 (count + field_arity f) SSH_OK (dn ++ [o]) ap max_len)
      as (os & b2 & He & Hwf2 & Hc2 & Hos); [done|done|done| |done|].
    { rewrite Hc in Hmax. rewrite Hc1. autorewrite with zlist in Hmax.
      pose proof (zlen_nonneg (encode f)). unfold fields_encode. rewrite zlen_app. lia. }
    unfold fields_format, fields_uargs in He. rewrite He.
    exists (o :: os), b2. rewrite <- app_assoc. split_and!; [by destruct fs|done|done|by constructor].
Qed.
End Reading.

Lemma zlen_uargs fs : zlen (fields_uargs fs) = zlen (fields_args fs).
Proof.
  unfold fields_uargs, fields_args. induction fs as [|f fs IH]; [done|].
  cbn [map concat]. autorewrite with zlist. rewrite IH. by destruct f.
Qed.

(** Unpacking a buffer that begins with the encoding of some fields. *)
Lemma unpack_prefix_ok b fs rest :
  (forall n, 0 <= n <= BUFFER_SIZE_MAX + 5 -> malloc n <> None) ->
  (forall l, bignum_bin2bn l <> None) ->
  buffer_wf b -> contents b = fields_encode fs ++ rest -> Forall field_ok fs -> fs <> [] ->
  zlen (fields_args fs) <= 256 ->
  Forall (fun f => forall d, f = FData d -> zlen d < zlen (contents b)) fs ->
  exists os b', ssh_buffer_unpack b (fields_format fs) (fields_uargs fs) = Some (SSH_OK, os, [], b')
    /\ Forall2 slot_holds fs os /\ buffer_wf b' /\ contents b' = rest.
Proof.
  intros Hmem Hbn Hwf Hc Hok Hne Hn Hdata.
  pose proof (contents_max b Hwf) as Hmax. pose proof (zlen_uargs fs) as Hua.
  unfold ssh_buffer_unpack, _ssh_buffer_unpack, ssh_buffer_unpack_va.
  rewrite Hua, (proj2 (Z.ltb_ge _ _)), ssh_buffer_get_len_contents by (done || lia).
  destruct (unpack_loop_fields Hmem Hbn fs rest b 0 SSH_ERROR [] [UEnd SSH_BUFFER_PACK_END]
    (zlen (contents b)) Hwf Hok Hc) as (os & b2 & Hl & Hwf2 & Hc2 & Hos); [done|done|].
  rewrite Z.add_0_l in Hl. rewrite Hl. cbn [mbind option_bind app].
  rewrite Z.eqb_refl. destruct fs as [|f fs]; [done|]. cbn [negb Z.eqb SSH_OK SSH_ERROR check_ucanary].
  change (SSH_BUFFER_PACK_END =? SSH_BUFFER_PACK_END) with true. cbn [mbind option_bind].
  exists os, b2. by rewrite app_nil_r.
Qed.

Lemma unpack_fields_ok b fs :
  (forall n, 0 <= n <= BUFFER_SIZE_MAX + 5 -> malloc n <> None) ->
  (forall l, bignum_bin2bn l <> None) ->
  buffer_wf b -> contents b = fields_encode fs -> Forall field_ok fs -> fs <> [] ->
  zlen (fields_args fs) <= 256 ->
  Forall (fun f => forall d, f = FData d -> zlen d < zlen (fields_encode fs)) fs ->
  exists os b', ssh_buffer_unpack b (fields_format fs) (fields_uargs fs) = Some (SSH_OK, os, [], b')
    /\ Forall2 slot_holds fs os /\ contents b' = [].
Proof.
  intros Hmem Hbn Hwf Hc Hok Hne Hn Hdata. rewrite <- Hc in Hdata.
  destruct (unpack_prefix_ok b fs []) as (os & b' & Hu & Hos & _ & Hc'); [done|done|done|by rewrite app_nil_r|done..|].
  by exists os, b'.
Qed.

(** (C38) Packing any list of values into an empty buffer and unpacking with the
    same format gives every value back, in order, and leaves the buffer
    empty.  Unpacking needs memory for its results; a raw data field must be
    shorter than the whole message ([unpack_whole_data_fails]). *)
Theorem pack_unpack_roundtrip b fs b1 :
  (forall n, 0 <= n <= BUFFER_SIZE_MAX + 5 -> malloc n <> None) ->
  (forall l, bignum_bin2bn l <> None) ->
  buffer_wf b -> contents b = [] -> Forall field_ok fs -> fs <> [] ->
  zlen (fields_args fs) <= 256 ->
  Forall (fun f => forall d, f = FData d -> zlen d < zlen (fields_encode fs)) fs ->
  ssh_buffer_pack b (fields_format fs) (fields_args fs) = Some (SSH_OK, b1) ->
  exists os b2, ssh_buffer_unpack b1 (fields_format fs) (fields_uargs fs) = Some (SSH_OK, os, [], b2)
    /\ Forall2 slot_holds fs os /\ contents b2 = [].
Proof.
  intros Hmem Hbn Hwf Hc Hok Hne Hn Hdata Hpack.
  destruct (pack_fields_spec b fs Hwf Hok Hne Hn) as (rc & b1' & He & Hwf1 & Hs1 & Hrc).
  rewrite He in Hpack. injection Hpack as -> ->. destruct Hrc as [[_ Hc1]|[? _]]; [|done].
  rewrite Hc in Hc1. by apply unpack_fields_ok.
Qed.
End Fields.

(** The encoding depends on the value only. *)
Lemma mpint_val_eq `{BignumLib} n m : bn_val n = bn_val m -> mpint n = mpint m.
Proof.
  intros He. unfold mpint.
  by rewrite !bn_bn2bin_spec, !bn_is_bit_set_spec, !bn_num_bytes_spec, !bn_num_bits_spec, He.
Qed.

Definition demo_fields : list (@field N_bignum) :=
  [FByte 5; FCstring (cstr "ssh-rsa"); @FBignum N_bignum 0x80ff%N; FData (cstr "xy");
   FString demo_string; FQword (2 ^ 63); FWord 70000; FDword 9].

Definition demo_buffer : ssh_buffer := mk_buffer false 0 4 0 (zrep 4 Byte.x00) [].

Lemma pack_unpack_roundtrip_witness :
  exists b1, @ssh_buffer_pack calloc_allocator N_bignum demo_buffer
      (fields_format demo_fields) (fields_args demo_fields) = Some (SSH_OK, b1)
    /\ exists os b2, @ssh_buffer_unpack calloc_allocator N_bignum b1
          (fields_format demo_fields) (fields_uargs demo_fields) = Some (SSH_OK, os, [], b2)
      /\ Forall2 slot_holds demo_fields os /\ contents b2 = [].
Proof.
  eexists. split; [vm_compute; reflexivity|].
  apply (@pack_unpack_roundtrip calloc_allocator N_bignum demo_buffer demo_fields);
    [done|done|wf_intro; reflexivity|reflexivity| |done|vm_compute; discriminate| |vm_compute; reflexivity].
  - repeat (apply List.Forall_cons || apply List.Forall_nil); cbn [field_ok]; try done.
    exists 3. unfold STRING_SIZE_MAX. split; [lia|split; reflexivity].
  - repeat (apply List.Forall_cons || apply List.Forall_nil); intros d [= <-]; reflexivity.
Defined.

(** ** Unpacking untrusted data *)

Section Untrusted.
Context `{Allocator} `{BignumLib}.

(** What a caller asks for: a letter, and the length for a raw field. *)
Inductive want := WLetter (c : byte) | WData (len : Z).

Definition want_ok (w : want) : Prop :=
  match w with
  | WLetter c => letter_of c ≠ LP /\ letter_of c ≠ Lt
  | WData len => 0 <= len < 2 ^ 64
  end.
Definition want_char (w : want) : byte :=
  match w with WLetter c => c | WData _ => "P"%byte end.
Definition want_args (w : want) : list ua :=
  match w with WLetter _ => [UPtr] | WData len => [ULen len; UPtr] end.

(** Slots that the rollback can process. *)
Definition slot_ok (o : slot) : Prop :=
  match o with
  | SlotInt _ | SlotBignum _ => True
  | SlotString (Some s) => string_wf s
  | SlotCstr (Some t) => strlen t <> None
  | SlotData (Some _) => True
  | _ => False
  end.

(** After a failure no result pointer is left dangling. *)
Definition slot_cleared (o : slot) : Prop :=
  match o with
  | SlotInt _ => True
  | SlotString s => s = None
  | SlotCstr t => t = None
  | SlotData d => d = None
  | SlotBignum n => n = None
  end.

Lemma strlen_app_nul t l : strlen (t ++ Byte.x00 :: l) <> None.
Proof.
  induction t as [|c t IH]; cbn [app strlen]; [done|].
  destruct (Byte.eqb c Byte.x00); [done|]. by destruct (strlen _).
Qed.

(** The outcome every [case] of the loop guarantees. *)
Definition one_good (ap : list ua) (k : Z) (r : run (Z * Z * option slot * list ua * ssh_buffer)) : Prop :=
  exists rc n o ap' b', r = Some (rc, n, o, ap', b') /\ buffer_wf b'
    /\ (rc = SSH_OK /\ n = k /\ ap' = ap /\ (exists s, o = Some s /\ slot_ok s)
        \/ rc = SSH_ERROR /\ n <= k /\ (forall s, o = Some s -> slot_cleared s)).

Lemma one_good_int w conv b ap :
  buffer_wf b -> (0 < w <= 8)%nat ->
  one_good ap 1 ('(rc, o, b) ← unpack_int w conv b; Some (rc, 1, o, ap, b)).
Proof.
  intros Hwf Hw. unfold unpack_int.
  destruct (get_int_spec w b Hwf) as (b' & -> & Hwf' & _); [lia|].
  unfold one_good. destruct (_ <=? _); cbn [mbind option_bind].
  - rewrite Z.eqb_refl. do 5 eexists. split_and!; [done..|]. left. split_and!; [done..|]. by eexists.
  - rewrite (proj2 (Z.eqb_neq _ _)) by lia. cbn [rc_of]. do 5 eexists. split_and!; [done..|]. right.
    split_and!; [done|lia|]. by intros s [= <-].
Qed.

Lemma one_good_cstr max_len b ap :
  buffer_wf b -> one_good ap 1 ('(rc, o, b) ← unpack_cstr max_len b; Some (rc, 1, o, ap, b)).
Proof.
  intros Hwf. unfold unpack_cstr, ssh_buffer_get_u32.
  assert (Hfail : forall b', buffer_wf b' ->
    one_good ap 1 ('(rc, o, b) ← Some (SSH_ERROR, Some (SlotCstr None), b'); Some (rc, 1, o, ap, b))).
  { intros b' Hb'. cbn [mbind option_bind]. do 5 eexists. split_and!; [done..|]. right.
    split_and!; [done|lia|]. by intros s [= <-]. }
  destruct (get_int_spec 4 b Hwf) as (b1 & -> & Hwf1 & _ & Hc1); [lia|].
  destruct (_ <=? _) eqn:H4; cbn [mbind option_bind default from_option id].
  2: { change (negb (0 =? 4)) with true. cbv iota. by apply Hfail. }
  change (negb (Z.of_nat 4 =? 4)) with false. cbv iota. apply Z.leb_le in H4.
  destruct (be_val_take4 _ H4) as [Hl4 Hr]. change (Z.of_nat 4) with 4 in *. rewrite ntohl_le_val by done.
  set (n := be_val (ztake 4 (contents b))) in *.
  destruct (_ <? n); [by apply Hfail|].
  rewrite validate_length_spec by (done || lia).
  destruct (n <=? zlen (contents b1)) eqn:Hn; cbn [negb Z.eqb SSH_OK SSH_ERROR]; [|by apply Hfail].
  destruct (malloc (n + 1)) as [blk|] eqn:Hm; [|by apply Hfail].
  apply malloc_zlen in Hm; [|lia].
  destruct (get_data_spec b1 n Hwf1) as (b2 & -> & Hwf2 & _); [lia|]. rewrite Hn.
  apply Z.leb_le in Hn. cbn [mbind option_bind]. rewrite Z.eqb_refl.
  cbn [negb default from_option id]. rewrite memcpy_ok by zlen_lia. cbn [mbind option_bind].
  rewrite memcpy_ok by zlen_lia. cbn [mbind option_bind]. do 5 eexists. split_and!; [done..|].
  left. split_and!; [done..|]. eexists. split; [done|]. cbn [slot_ok].
  rewrite (ztake_all 1) by done. change (zdrop 0 [Byte.x00]) with [Byte.x00]. apply strlen_app_nul.
Qed.

Lemma one_good_data max_len len b ap :
  buffer_wf b -> 0 <= len <= zlen (contents b) ->
  one_good ap 2 ('(rc, o, b) ← unpack_data max_len len b; Some (rc, 2, o, ap, b)).
Proof.
  intros Hwf Hlen. unfold unpack_data. pose proof (contents_zlen b Hwf). pose proof Hwf as [? ? Ha ?].
  unfold BUFFER_SIZE_MAX in Ha. destruct (malloc len) as [blk|] eqn:Hm.
  - apply malloc_zlen in Hm; [|lia].
    destruct (get_data_spec b len Hwf) as (b2 & -> & Hwf2 & _); [lia|].
    rewrite (proj2 (Z.leb_le _ _)) by lia. cbn [mbind option_bind]. rewrite Z.eqb_refl.
    cbn [negb default from_option id]. rewrite memcpy_ok by zlen_lia. cbn [mbind option_bind].
    do 5 eexists. split_and!; [done..|]. left. split_and!; [done..|]. by eexists.
  - cbn [mbind option_bind]. do 5 eexists. split_and!; [done..|]. right.
    split_and!; [done|lia|]. by intros s [= <-].
Qed.

Lemma unpack_one_good w b ap max_len :
  buffer_wf b -> want_ok w ->
  one_good ap (zlen (want_args w)) (unpack_one (letter_of (want_char w)) max_len (want_args w ++ ap) b).
Proof.
  intros Hwf Hok. assert (Hbad : forall b' o ap' n k, buffer_wf b' -> n <= k ->
    (forall s, o = Some s -> slot_cleared s) -> one_good ap k (Some (SSH_ERROR, n, o, ap', b'))).
  { intros. do 5 eexists. split_and!; [done..|]. by right. }
  destruct w as [c|len]; cbn [want_ok want_char want_args app] in *.
  - destruct Hok as [HP Ht]. change (zlen [UPtr]) with 1.
    destruct (letter_of c); try done; cbn [unpack_one].
    + apply one_good_int; [done|lia].
    + apply one_good_int; [done|lia].
    + apply one_good_int; [done|lia].
    + apply one_good_int; [done|lia].
    + destruct (get_ssh_string_spec b Hwf) as (o & b' & -> & Hwf' & _ & _ & Ho).
      cbn [mbind option_bind]. destruct o as [s|].
      * do 5 eexists. split_and!; [done..|]. left. split_and!; [done..|]. eexists. split; [done|]. by apply Ho.
      * apply Hbad; [done|lia|]. by intros s [= <-].
    + by apply one_good_cstr.
    + destruct (get_ssh_string_spec b Hwf) as (o & b' & -> & Hwf' & _ & _ & Ho).
      cbn [mbind option_bind]. destruct o as [s|].
      * destruct (ssh_string_burn_text s (Ho s eq_refl)) as (s' & -> & _). cbn [mbind option_bind].
        destruct (ssh_make_string_bn s) as [m|]; cbn [rc_of].
        -- do 5 eexists. split_and!; [done..|]. left. split_and!; [done..|]. by eexists.
        -- apply Hbad; [done|lia|]. by intros ? [= <-].
      * apply Hbad; [done|lia|]. by intros s [= <-].
    + apply Hbad; [done|lia|done].
  - change (zlen [ULen len; UPtr]) with 2. cbn [letter_of]. cbn -[u64].
    destruct (_ <? len); [apply Hbad; [done|lia|done]|].
    rewrite validate_length_spec by done.
    destruct (len <=? zlen (contents b)) eqn:Hl; cbn [negb Z.eqb SSH_OK SSH_ERROR];
      [|apply Hbad; [done|lia|done]].
    apply one_good_data; [done|lia].
Qed.

Definition wants_format (ws : list want) : bytes := map want_char ws.
Definition wants_args (ws : list want) : list ua := concat (map want_args ws).

Lemma unpack_loop_good ws : forall b count rc dn rest max_len,
  buffer_wf b -> Forall want_ok ws -> Forall slot_ok dn ->
  exists rc' c dn' o ap' b',
    unpack_loop (wants_format ws) (count + zlen (wants_args ws)) count rc max_len
      (wants_args ws ++ rest) dn b = Some (Break rc' c (dn', o, ap', b'))
    /\ buffer_wf b' /\ Forall slot_ok dn'
    /\ (rc' = (match ws with [] => rc | _ => SSH_OK end) /\ c = count + zlen (wants_args ws)
          /\ ap' = rest /\ o = None
        \/ rc' = SSH_ERROR /\ c < count + zlen (wants_args ws)
          /\ (forall s, o = Some s -> slot_cleared s)).
Proof.
  induction ws as [|w ws IH]; intros b count rc dn rest max_len Hwf Hok Hdn.
  - do 6 eexists. split_and!; [reflexivity|done|done|]. left. unfold wants_args. cbn.
    split_and!; (done || zlen_lia).
  - inversion Hok as [|? ? Hw Hws]; subst.
    assert (Hz : zlen (wants_args (w :: ws)) = zlen (want_args w) + zlen (wants_args ws)).
    { unfold wants_args. cbn [map concat]. zlen_lia. }
    assert (Hw1 : 1 <= zlen (want_args w)) by (destruct w; cbn; rewrite !zlen_cons; zlen_lia).
    pose proof (zlen_nonneg (wants_args ws)). rewrite Hz, Z.add_assoc.
    unfold wants_format, wants_args. cbn [map concat unpack_loop]. rewrite <- app_assoc.
    rewrite (proj2 (Z.ltb_ge _ _)) by (fold (wants_args ws); lia).
    destruct (unpack_one_good w b (concat (map want_args ws) ++ rest) max_len Hwf Hw)
      as (rc1 & n & o & ap1 & b1 & -> & Hwf1 & Hres). cbn [mbind option_bind].
    destruct Hres as [(-> & -> & -> & s & -> & Hs)|(-> & Hn & Ho)].
    + change (negb (SSH_OK =? SSH_OK)) with false. cbv iota.
      destruct (IH b1 (count + zlen (want_args w)) SSH_OK (dn ++ [s]) rest max_len)
        as (rc2 & c & dn2 & o2 & ap2 & b2 & He & Hwf2 & Hdn2 & Hres); [done|done| |].
      { apply Forall_app. by split; [|constructor]. }
      unfold wants_format, wants_args in He. rewrite He. do 6 eexists.
      split_and!; [done..|]. destruct Hres as [(-> & -> & -> & ->)|?]; [left|by right].
      split_and!; [by destruct ws|done..].
    + change (negb (SSH_ERROR =? SSH_OK)) with true. cbv iota. do 6 eexists.
      split_and!; [done..|]. right. fold (wants_args ws). split_and!; [done|lia|done].
Qed.

Lemma erase_slots_good sec dn :
  Forall slot_ok dn ->
  exists dn' fr, erase_slots sec dn = Some (dn', fr) /\ Forall slot_cleared dn'.
Proof.
  induction 1 as [|o dn Ho _ (dn' & fr & IH & Hc)]; [by do 2 eexists|].
  assert (He : exists o' fr', erase_slot sec o = Some (o', fr') /\ slot_cleared o').
  { destruct o as [z|[s|]|[t|]|[d|]|n]; cbn [slot_ok erase_slot] in *; try done.
    - by do 2 eexists.
    - destruct sec; [|by do 2 eexists].
      destruct (ssh_string_burn_text s Ho) as (s' & -> & _). by do 2 eexists.
    - destruct sec; [|by do 2 eexists]. destruct (strlen t) as [n|] eqn:Hn; [|done].
      apply strlen_range in Hn. cbn [mbind option_bind]. rewrite bzero_ok by lia. by do 2 eexists.
    - destruct sec; [|by do 2 eexists]. rewrite bzero_ok by zlen_lia. by do 2 eexists.
    - by do 2 eexists. }
  destruct He as (o' & fr' & He & Ho'). cbn [erase_slots]. rewrite He. cbn [mbind option_bind].
  rewrite IH. cbn [mbind option_bind]. do 2 eexists. split; [done|]. by constructor.
Qed.

Lemma unpack_untrusted_spec b ws :
  buffer_wf b -> Forall want_ok ws -> zlen (wants_args ws) <= 256 ->
  exists rc os fr b', ssh_buffer_unpack b (wants_format ws) (wants_args ws) = Some (rc, os, fr, b')
    /\ buffer_wf b' /\ (rc = SSH_OK /\ Forall slot_ok os \/ rc = SSH_ERROR /\ Forall slot_cleared os).
Proof.
  intros Hwf Hok Hn. unfold ssh_buffer_unpack, _ssh_buffer_unpack, ssh_buffer_unpack_va.
  rewrite (proj2 (Z.ltb_ge _ _)) by done.
  destruct (unpack_loop_good ws b 0 SSH_ERROR [] [UEnd SSH_BUFFER_PACK_END] (ssh_buffer_get_len b)
    Hwf Hok (List.Forall_nil _)) as (rc & c & dn & o & ap & b1 & He & Hwf1 & Hdn & Hres).
  rewrite Z.add_0_l in *. rewrite He. cbn [mbind option_bind].
  assert (Hfail : forall o', (forall s, o' = Some s -> slot_cleared s) ->
    exists rc0 os fr b', ('(done, fr) ← erase_slots (b_secure b1) dn;
      Some (SSH_ERROR, done ++ match o' with Some o => [o] | None => [] end, fr, b1)) = Some (rc0, os, fr, b')
    /\ buffer_wf b' /\ (rc0 = SSH_OK /\ Forall slot_ok os \/ rc0 = SSH_ERROR /\ Forall slot_cleared os)).
  { intros o' Ho'. destruct (erase_slots_good (b_secure b1) dn Hdn) as (dn' & fr & -> & Hc).
    cbn [mbind option_bind]. do 4 eexists. split_and!; [done|done|]. right. split; [done|].
    apply Forall_app. split; [done|]. destruct o' as [s|]; [|constructor].
    constructor; [by apply Ho'|constructor]. }
  destruct Hres as [(-> & -> & -> & ->)|(-> & Hlt & Ho)].
  - rewrite Z.eqb_refl. cbn [negb]. destruct ws as [|w ws].
    + change (negb (SSH_ERROR =? SSH_ERROR)) with false. cbv iota. cbn [mbind option_bind].
      change (negb (SSH_ERROR =? SSH_OK)) with true. cbv iota. by apply (Hfail None).
    + change (negb (SSH_OK =? SSH_ERROR)) with true. cbv iota. cbn [check_ucanary].
      change (SSH_BUFFER_PACK_END =? SSH_BUFFER_PACK_END) with true. cbn [mbind option_bind].
      change (negb (SSH_OK =? SSH_OK)) with false. cbv iota.
      do 4 eexists. split_and!; [done|done|left]. rewrite app_nil_r. by split.
  - destruct (negb (_ =? c)); (change (negb (SSH_ERROR =? SSH_ERROR)) with false; cbv iota;
      cbn [mbind option_bind]; change (negb (SSH_ERROR =? SSH_OK)) with true; cbv iota; by apply (Hfail o)).
Qed.

(** The slots of a call that succeeds, one for each letter. *)
Definition slot_kind (l : letter) (o : slot) : Prop :=
  match l, o with
  | (Lb | Lw | Ld | Lq), SlotInt _ | LS, SlotString (Some _) | Ls, SlotCstr (Some _)
  | LP, SlotData (Some _) | LB, SlotBignum (Some _) => True
  | _, _ => False
  end.

Lemma unpack_int_slot w conv b rc o b' :
  unpack_int w conv b = Some (rc, o, b') -> exists z, o = Some (SlotInt z).
Proof.
  unfold unpack_int. destruct (get_int w b) as [[[n v] b1]|]; [|done]. cbn [mbind option_bind].
  intros [= _ <- _]. by eexists.
Qed.

Lemma unpack_cstr_slot m b o b' :
  unpack_cstr m b = Some (SSH_OK, o, b') -> exists t, o = Some (SlotCstr (Some t)).
Proof.
  unfold unpack_cstr. intros Hu. repeat (case_match || (apply bind_Some in Hu as (? & _ & Hu))); simplify_eq; eauto.
Qed.

Lemma unpack_data_slot m n b o b' :
  unpack_data m n b = Some (SSH_OK, o, b') -> exists d, o = Some (SlotData (Some d)).
Proof.
  unfold unpack_data. intros Hu. repeat (case_match || (apply bind_Some in Hu as (? & _ & Hu))); simplify_eq; eauto.
Qed.

Lemma unpack_one_kind l m ap b n o ap' b' :
  unpack_one l m ap b = Some (SSH_OK, n, o, ap', b') -> exists s, o = Some s /\ slot_kind l s.
Proof.
  intros Hu. destruct l; cbn [unpack_one] in Hu; repeat (case_match; try done); subst;
    apply bind_Some in Hu as ([[x y] z] & Hx & Hu) || apply bind_Some in Hu as ([x y] & Hx & Hu) || idtac;
    repeat (case_match; try done); simplify_eq.
  1-4: apply unpack_int_slot in Hx as [? ->]; by eexists.
  - by eexists.
  - apply unpack_cstr_slot in Hx as [? ->]. by eexists.
  - apply unpack_data_slot in Hx as [? ->]. by eexists.
  - apply bind_Some in Hu as (? & _ & Hu). simplify_eq. by eexists.
  - by apply bind_Some in Hu as (? & _ & Hu).
Qed.

Lemma unpack_loop_kinds fmt : forall argc count rc m ap dn b e,
  unpack_loop fmt argc count rc m ap dn b = Some e ->
  match e with
  | Return rc' _ => rc' = SSH_ERROR
  | Break rc' _ (dn', o, _, _) => rc' = SSH_OK ->
      o = None /\ exists new, dn' = dn ++ new /\ Forall2 slot_kind (map letter_of fmt) new
  end.
Proof.
  induction fmt as [|c fmt IH]; intros argc count rc m ap dn b e; cbn [unpack_loop map].
  - intros [= <-] _. split; [done|]. exists []. by rewrite app_nil_r.
  - destruct (argc <? count); [by intros [= <-]|].
    intros Hu. apply bind_Some in Hu as ([[[[rc1 n] o1] ap1] b1] & Hone & Hu).
    destruct (Z.eqb_spec rc1 SSH_OK) as [->|Hrc]; cbn [negb] in Hu; [|by injection Hu as <-].
    apply unpack_one_kind in Hone as (s & -> & Hs). apply IH in Hu.
    destruct e as [|rc' c' [[[dn' o'] ap'] b']]; [done|]. intros Hok. destruct (Hu Hok) as (? & new & -> & Hnew).
    split; [done|]. exists (s :: new). split; [by rewrite <-app_assoc|by constructor].
Qed.

(** A call that succeeds frees nothing. *)
Lemma unpack_keeps b fmt args os fr b' : ssh_buffer_unpack b fmt args = Some (SSH_OK, os, fr, b') -> fr = [].
Proof.
  unfold ssh_buffer_unpack, _ssh_buffer_unpack, ssh_buffer_unpack_va. intros Hu.
  destruct (256 <? zlen args); [done|]. apply bind_Some in Hu as (e & _ & Hu).
  destruct (match e with Return rc st => _ | Break rc c st => _ end) as [rc [[[dn o] ap] b1]].
  apply bind_Some in Hu as (_ & _ & Hu). destruct (Z.eqb_spec rc SSH_OK); cbn [negb] in Hu; [by injection Hu|].
  destruct (erase_slots _ _) as [[? ?]|]; [|done]. by injection Hu.
Qed.

Lemma unpack_kinds b fmt args os fr b' :
  ssh_buffer_unpack b fmt args = Some (SSH_OK, os, fr, b') -> Forall2 slot_kind (map letter_of fmt) os.
Proof.
  unfold ssh_buffer_unpack, _ssh_buffer_unpack, ssh_buffer_unpack_va. destruct (256 <? zlen args); [done|].
  destruct (unpack_loop _ _ _ _ _ _ _ _) as [e|] eqn:Hl; [|done]. cbn [mbind option_bind].
  apply unpack_loop_kinds in Hl.
  destruct e as [rc [[[dn o] ap] b1]|rc c [[[dn o] ap] b1]]; intros Hu.
  - subst rc. change (negb (SSH_ERROR =? SSH_ERROR)) with false in Hu.
    change (negb (SSH_ERROR =? SSH_OK)) with true in Hu. cbn in Hu. by destruct (erase_slots _ _) as [[? ?]|].
  - destruct (negb (zlen args =? c)).
    + change (negb (SSH_ERROR =? SSH_ERROR)) with false in Hu.
      change (negb (SSH_ERROR =? SSH_OK)) with true in Hu. cbn in Hu. by destruct (erase_slots _ _) as [[? ?]|].
    + apply bind_Some in Hu as (? & _ & Hu). destruct (Z.eqb_spec rc SSH_OK) as [->|]; cbn [negb] in Hu.
      * injection Hu as <- _ _. destruct (Hl eq_refl) as (-> & new & -> & Hnew). by rewrite app_nil_r.
      * apply bind_Some in Hu as ([? ?] & _ & Hu). simplify_eq.
Qed.

(** What was read was there: a call that succeeds, on any contents, took the encoding
    of the values it returns off the front. *)
Lemma be_bytes_val l : be_bytes (length l) (be_val l) = l.
Proof. unfold be_bytes. by rewrite le_bytes_be_val, rev_involutive. Qed.

Lemma sound_int w conv b o b' :
  buffer_wf b -> (0 < w <= 8)%nat -> (forall l, length l = w -> conv (le_val l) = be_val l) ->
  unpack_int w conv b = Some (SSH_OK, o, b') ->
  exists z, 0 <= z < 256 ^ Z.of_nat w /\ o = Some (SlotInt (Some z)) /\ buffer_wf b'
    /\ contents b = be_bytes w z ++ contents b'.
Proof.
  intros Hwf Hw Hconv. unfold unpack_int. destruct (get_int_spec w b Hwf) as (b1 & -> & Hwf1 & _ & Hc1); [lia|].
  destruct (Z.leb_spec (Z.of_nat w) (zlen (contents b))) as [Hle|]; cbn [mbind option_bind].
  2: { rewrite (proj2 (Z.eqb_neq _ _)) by lia. done. }
  rewrite Z.eqb_refl. cbn [option_map]. set (l := ztake (Z.of_nat w) (contents b)) in *.
  assert (Hl : length l = w) by (pose proof (zlen_take (Z.of_nat w) (contents b)); unfold zlen, l in *; lia).
  rewrite Hconv by done. intros [= <- <-]. exists (be_val l). pose proof (be_val_range l) as Hr. unfold zlen in Hr.
  rewrite Hl in Hr. split_and!; [lia|lia|done|done|]. assert (Hb : be_bytes w (be_val l) = l) by (rewrite <- Hl at 1; apply be_bytes_val).
  rewrite Hb, Hc1. symmetry. apply ztake_drop.
Qed.

Lemma be_val_four q : 4 <= zlen q -> be_bytes 4 (be_val (ztake 4 q)) = ztake 4 q.
Proof. intros Hq. destruct (be_val_take4 q Hq) as [Hl _]. rewrite <- Hl at 1. apply be_bytes_val. Qed.

Lemma sound_string b x b' : buffer_wf b -> ssh_buffer_get_ssh_string b = Some (Some x, b') ->
  string_wf x /\ buffer_wf b' /\ contents b = lv (string_text x) ++ contents b'.
Proof.
  intros Hwf Hx. destruct (get_ssh_string_spec b Hwf) as (o & b1 & E & Hwf1 & _ & Hr & Hs). rewrite E in Hx.
  injection Hx as -> ->. split; [by apply Hs|]. split; [done|]. cbn [option_map] in Hr.
  inversion Hr as [| |H4 Hle Ht Hc]. unfold lv.
  destruct (be_val_take4 _ H4) as [_ Hn]. rewrite zlen_take, Z.min_l, Z.max_r, be_val_four by lia.
  rewrite <- app_assoc, ztake_drop. symmetry. apply ztake_drop.
Qed.

Lemma sound_cstr m b o b' : buffer_wf b -> unpack_cstr m b = Some (SSH_OK, o, b') ->
  exists t, o = Some (SlotCstr (Some (t ++ [Byte.x00]))) /\ zlen t < 2 ^ 32 /\ buffer_wf b'
    /\ contents b = lv t ++ contents b'.
Proof.
  intros Hwf. unfold unpack_cstr, ssh_buffer_get_u32.
  destruct (get_int_spec 4 b Hwf) as (b1 & -> & Hwf1 & _ & Hc1); [lia|].
  destruct (Z.leb_spec (Z.of_nat 4) (zlen (contents b))) as [H4|]; cbn [mbind option_bind default from_option id]; [|done].
  change (negb (Z.of_nat 4 =? 4)) with false. cbv iota. change (Z.of_nat 4) with 4 in *.
  destruct (be_val_take4 _ H4) as [Hl4 Hr]. rewrite ntohl_le_val by done.
  set (n := be_val (ztake 4 (contents b))) in *. destruct (_ <? n); [done|].
  rewrite validate_length_spec by (done || lia).
  destruct (Z.leb_spec n (zlen (contents b1))) as [Hn|]; cbn [negb Z.eqb SSH_OK SSH_ERROR]; [|done].
  destruct (malloc (n + 1)) as [blk|] eqn:Hm; [|done]. apply malloc_zlen in Hm; [|lia].
  destruct (get_data_spec b1 n Hwf1) as (b2 & -> & Hwf2 & _ & Hc2); [lia|]. rewrite (proj2 (Z.leb_le _ _)) in * by done.
  cbn [mbind option_bind]. rewrite Z.eqb_refl. cbn [negb default from_option id].
  assert (Hz : zlen (ztake n (contents b1)) = n) by zlen_lia.
  set (t := ztake n (contents b1)) in *. rewrite <- Hz, memcpy_ok by zlen_lia. cbn [mbind option_bind].
  rewrite memcpy_ok by zlen_lia. cbn [mbind option_bind]. intros [= <- <-]. exists t. split_and!; [|lia|done|].
  - do 3 f_equal. rewrite (zdrop_0 0 t), (ztake_all (zlen t) t), ztake_app_le, ztake_all by lia.
    rewrite (zdrop_all (zlen t + 1)) by zlen_lia. done.
  - unfold lv. rewrite Hz. unfold n. rewrite be_val_four by done. rewrite <- app_assoc, Hc2. unfold t.
    rewrite ztake_drop, Hc1. symmetry. apply ztake_drop.
Qed.

(** The letters whose values determine their encoding. *)
Definition exact_letter (l : letter) : bool := match l with Lb | Lw | Ld | Lq | LS | Ls => true | _ => false end.

Lemma sound_one c m ap b n o ap' b' :
  buffer_wf b -> exact_letter (letter_of c) = true -> unpack_one (letter_of c) m (UPtr :: ap) b = Some (SSH_OK, n, o, ap', b') ->
  exists f v, field_char f = c /\ field_ok f /\ o = Some v /\ slot_holds f v /\ n = 1 /\ ap' = ap /\ buffer_wf b'
    /\ contents b = encode f ++ contents b'.
Proof.
  intros Hwf Hl Hu.
  assert (Hc : c = match letter_of c with Lb => "b" | Lw => "w" | Ld => "d" | Lq => "q" | LS => "S" | _ => "s" end%byte).
  { unfold letter_of in *. repeat (case_match; [match goal with E : Byte.eqb _ _ = true |- _ => by apply byte_eqb_eq in E end|]).
    done. }
  destruct (letter_of c); try done; cbn [unpack_one] in Hu; subst c.
  1-4: apply bind_Some in Hu as ([[rc o1] b1] & Hx & [= -> <- <- <- <-]);
    apply sound_int in Hx as (z & Hz & -> & Hwf1 & Hc1); [|done|lia|].
  1: exists (FByte z).
  3: exists (FWord z).
  5: exists (FDword z).
  7: exists (FQword z).
  1,3,5,7: eexists; split_and!; try done; cbn [slot_holds]; by rewrite Z.mod_small.
  - by intros [|x [|y l]].
  - apply ntohs_le_val.
  - apply ntohl_le_val.
  - apply ntohll_le_val.
  - apply bind_Some in Hu as ([[x|] b1] & Hx & Hu); [|done]. injection Hu as <- <- <- <-.
    apply sound_string in Hx as (Hs & Hwf1 & Hc1); [|done]. exists (FString x). eexists. by split_and!.
  - apply bind_Some in Hu as ([[rc o1] b1] & Hx & [= -> <- <- <- <-]).
    apply sound_cstr in Hx as (t & -> & Hz & Hwf1 & Hc1); [|done]. exists (FCstring t). eexists. by split_and!.
Qed.

Lemma sound_loop fmt : forall argc count rc m ap dn b e,
  buffer_wf b -> forallb (fun c => exact_letter (letter_of c)) fmt = true ->
  unpack_loop fmt argc count rc m (map (fun _ => UPtr) fmt ++ ap) dn b = Some e ->
  match e with
  | Return rc' _ => rc' = SSH_ERROR
  | Break rc' _ (dn', o, _, b') => rc' = SSH_OK -> o = None /\ exists fs os, fields_format fs = fmt /\ Forall field_ok fs
      /\ dn' = dn ++ os /\ Forall2 slot_holds fs os /\ buffer_wf b' /\ contents b = fields_encode fs ++ contents b'
  end.
Proof.
  induction fmt as [|c fmt IH]; intros argc count rc m ap dn b e Hwf Hl; cbn [unpack_loop map app].
  - intros [= <-] _. split; [done|]. exists [], []. rewrite app_nil_r. by split_and!.
  - destruct (argc <? count); [by intros [= <-]|]. cbn [forallb] in Hl. apply andb_true_iff in Hl as [Hc Hl].
    intros Hu. apply bind_Some in Hu as ([[[[rc1 n] o1] ap1] b1] & Hone & Hu).
    destruct (Z.eqb_spec rc1 SSH_OK) as [->|Hrc]; cbn [negb] in Hu; [|by injection Hu as <-].
    apply sound_one in Hone as (f & v & Hf & Hok & -> & Hv & -> & -> & Hwf1 & Hc1); [|done|done].
    apply IH in Hu; [|done|done]. destruct e as [|rc' c' [[[dn' o'] ap'] b']]; [done|]. intros Hrc.
    destruct (Hu Hrc) as (-> & fs & os & <- & Hoks & -> & Hos & Hwf2 & Hc2). split; [done|]. exists (f :: fs), (v :: os).
    split_and!; [cbn [fields_format map]; by rewrite Hf|by constructor|by rewrite <-app_assoc|by constructor|done|].
    by rewrite Hc1, Hc2, fields_encode_cons, app_assoc.
Qed.

Lemma unpack_sound b fmt os fr b' :
  buffer_wf b -> forallb (fun c => exact_letter (letter_of c)) fmt = true ->
  ssh_buffer_unpack b fmt (map (fun _ => UPtr) fmt) = Some (SSH_OK, os, fr, b') ->
  exists fs, fields_format fs = fmt /\ Forall field_ok fs /\ Forall2 slot_holds fs os /\ buffer_wf b'
    /\ contents b = fields_encode fs ++ contents b'.
Proof.
  intros Hwf Hl. unfold ssh_buffer_unpack, _ssh_buffer_unpack, ssh_buffer_unpack_va. destruct (256 <? _); [done|].
  destruct (unpack_loop _ _ _ _ _ _ _ _) as [e|] eqn:E; [|done]. cbn [mbind option_bind].
  apply sound_loop in E; [|done|done].
  assert (Hfail : forall rc (dn : list slot) o ap bx, rc <> SSH_OK ->
    (_ ← (if negb (rc =? SSH_ERROR) then check_ucanary ap else Some ());
     if negb (rc =? SSH_OK) then '(dn, fr) ← erase_slots (b_secure bx) dn; Some (rc, dn ++ o, fr, bx)
     else Some (rc, dn ++ o, [], bx)) <> Some (SSH_OK, os, fr, b')).
  { intros rc dn o ap bx Hrc. destruct (if negb (rc =? SSH_ERROR) then _ else _); [|done]. cbn [mbind option_bind].
    rewrite (proj2 (Z.eqb_neq _ _)) by done. cbn [negb]. destruct (erase_slots _ _) as [[? ?]|]; [|done]. by intros [= ? _ _ _]. }
  destruct e as [rc [[[dn o] ap] b1]|rc c [[[dn o] ap] b1]]; intros Hu.
  - subst rc. by apply Hfail in Hu.
  - destruct (negb (_ =? c)); [by apply Hfail in Hu|]. destruct (Z.eq_dec rc SSH_OK) as [->|]; [|by apply Hfail in Hu].
    destruct (E eq_refl) as (-> & fs & os' & Hf & Hok & -> & Hos & Hwf' & Hc). cbn [app] in Hu.
    change (negb (SSH_OK =? SSH_ERROR)) with true in Hu. change (negb (SSH_OK =? SSH_OK)) with false in Hu. cbv iota in Hu.
    destruct (check_ucanary ap); [|done]. cbn [mbind option_bind] in Hu. rewrite app_nil_r in Hu. injection Hu as <- <- <-.
    by exists fs.
Qed.

(** Reading is exact: when a message is accepted, whatever the peer sent, the values that
    were returned, packed again with the same format, are the bytes that were taken
    off the front; nothing is skipped, and nothing else would have been read as them. *)
Theorem accepted_messages_are_encodings b fmt os fr b' :
  buffer_wf b -> forallb (fun c => exact_letter (letter_of c)) fmt = true ->
  ssh_buffer_unpack b fmt (map (fun _ => UPtr) fmt) = Some (SSH_OK, os, fr, b') ->
  exists fs, fields_format fs = fmt /\ Forall2 slot_holds fs os /\ contents b = fields_encode fs ++ contents b'.
Proof. intros Hwf Hl Hu. destruct (unpack_sound b fmt os fr b' Hwf Hl Hu) as (fs & ? & _ & ? & _ & ?). by exists fs. Qed.

(** (C39) Unpacking is safe on any contents: whatever the peer sent and whatever
    mix of known letters the caller asks for, with at most 256 arguments, the call returns, without reading outside of
    the bytes held and without tripping the canary, and keeps the buffer invariant.  With
    [SSH_OK] there is a value of the right kind for every letter, each string
    with its length inside its block and each text with its terminator, and the rollback
    freed nothing; the only other code is [SSH_ERROR], and then every result pointer is
    [NULL]. *)
Theorem unpack_untrusted_safe b ws :
  buffer_wf b -> Forall want_ok ws -> zlen (wants_args ws) <= 256 ->
  exists rc os fr b', ssh_buffer_unpack b (wants_format ws) (wants_args ws) = Some (rc, os, fr, b')
    /\ buffer_wf b'
    /\ (rc = SSH_OK /\ Forall2 slot_kind (map letter_of (wants_format ws)) os /\ Forall slot_ok os /\ fr = []
        \/ rc = SSH_ERROR /\ Forall slot_cleared os).
Proof.
  intros Hwf Hok Hn. destruct (unpack_untrusted_spec b ws Hwf Hok Hn) as (rc & os & fr & b' & He & Hwf' & Hr).
  do 4 eexists. split_and!; [done|done|]. destruct Hr as [[-> Hs]|?]; [left|by right].
  split_and!; [done|by eapply unpack_kinds|done|by eapply unpack_keeps].
Qed.
End Untrusted.

(** Witness: a truncated message is refused and the string already read is freed;
    the string alone is accepted. *)
Definition truncated : ssh_buffer :=
  mk_buffer true 9 16 0 (be_bytes 4 2 ++ cstr "id" ++ zrep 10 Byte.x00) [].

Lemma unpack_untrusted_safe_witness :
  (exists rc os fr b', @ssh_buffer_unpack calloc_allocator N_bignum truncated
      (wants_format [WLetter "s"%byte; WLetter "d"%byte])
      (wants_args [WLetter "s"%byte; WLetter "d"%byte]) = Some (rc, os, fr, b')
    /\ rc = SSH_ERROR /\ os <> [] /\ Forall slot_cleared os)
  /\ exists os fr b', @ssh_buffer_unpack calloc_allocator N_bignum truncated
      (wants_format [WLetter "s"%byte]) (wants_args [WLetter "s"%byte]) = Some (SSH_OK, os, fr, b')
    /\ Forall2 slot_kind [Ls] os.
Proof.
  split.
  - destruct (@unpack_untrusted_safe calloc_allocator N_bignum truncated [WLetter "s"%byte; WLetter "d"%byte])
      as (rc & os & fr & b' & E & _ & [(-> & _)|[Hr Hc]]); [wf_intro; reflexivity|repeat constructor; discriminate
      |vm_compute; discriminate|vm_compute in E; discriminate E|].
    exists rc, os, fr, b'. split_and!; [exact E|exact Hr| |exact Hc]. intros ->. vm_compute in E. discriminate E.
  - destruct (@unpack_untrusted_safe calloc_allocator N_bignum truncated [WLetter "s"%byte])
      as (rc & os & fr & b' & E & _ & [(-> & Hk & _)|[-> _]]); [wf_intro; reflexivity|repeat constructor; discriminate
      |vm_compute; discriminate| |vm_compute in E; discriminate E].
    exists os, fr, b'. split; [exact E|exact Hk].
Defined.

(** Witness: a message of two strings and what follows it. *)
Definition two_strings : ssh_buffer :=
  mk_buffer false 16 16 0 (be_bytes 4 2 ++ cstr "id" ++ be_bytes 4 1 ++ cstr "x" ++ cstr "more" ++ [Byte.x00]) [].

Lemma accepted_messages_are_encodings_witness :
  exists os fr b' fs, @ssh_buffer_unpack calloc_allocator N_bignum two_strings (cstr "ss") [UPtr; UPtr] = Some (SSH_OK, os, fr, b')
    /\ fields_format fs = cstr "ss" /\ Forall2 (@slot_holds N_bignum) fs os
    /\ contents two_strings = fields_encode fs ++ contents b'.
Proof.
  do 3 eexists. edestruct (@accepted_messages_are_encodings calloc_allocator N_bignum two_strings (cstr "ss")) as (fs & He);
    [wf_intro; reflexivity|reflexivity|vm_compute; reflexivity|]. exists fs. split; [vm_compute; reflexivity|exact He].
Defined.

(** A raw field that is the whole message is refused: the guard against an
    oversized length compares with [max_len - 1]. *)
Theorem unpack_whole_data_fails `{Allocator} `{BignumLib} b d :
  buffer_wf b -> contents b = d -> d <> [] ->
  ssh_buffer_unpack b (cstr "P") [ULen (zlen d); UPtr] = Some (SSH_ERROR, [], [], b).
Proof.
  intros Hwf Hc Hd. unfold ssh_buffer_unpack, _ssh_buffer_unpack, ssh_buffer_unpack_va.
  rewrite ssh_buffer_get_len_contents, Hc by done. pose proof (contents_max b Hwf) as Hmax.
  rewrite Hc in Hmax. unfold BUFFER_SIZE_MAX in Hmax.
  assert (0 < zlen d) by (destruct d; [done|rewrite zlen_cons; zlen_lia]).
  change (zlen [ULen (zlen d); UPtr]) with 2. change (256 <? 2) with false. cbv iota.
  change (cstr "P") with ["P"%byte]. cbn [unpack_loop app]. change (2 <? 0) with false. cbv iota.
  change (letter_of "P"%byte) with LP. cbn [unpack_one]. unwrap.
  rewrite (proj2 (Z.ltb_lt _ _)) by lia. reflexivity.
Qed.

Lemma unpack_whole_data_fails_witness :
  @ssh_buffer_unpack calloc_allocator N_bignum (mk_buffer false 4 4 1 (cstr "data") [])
    (cstr "P") [ULen (zlen (cstr "ata")); UPtr]
  = Some (SSH_ERROR, [], [], mk_buffer false 4 4 1 (cstr "data") []).
Proof.
  apply (@unpack_whole_data_fails calloc_allocator N_bignum (mk_buffer false 4 4 1 (cstr "data") []) (cstr "ata"));
    [wf_intro; reflexivity|reflexivity|discriminate].
Defined.
