(* ===== verification/Base64.v ===== *)
(** * Base 64 ([libssh/src/base64.c])

    Strings that the code walks with a pointer are the bytes from the pointer
    to the end of the object, the terminating NUL included. *)

From S2P Require Import Prelude SshString Buffer.

Definition alphabet : bytes :=
  cstr "ABCDEFGHIJKLMNOPQRSTUVWXYZabcdefghijklmnopqrstuvwxyz0123456789+/".

Section Definitions.
Context `{Allocator}.

(** [BLOCK (letter, n)]: or the index of [source[n]] into the block; the
    inner [None] is [return -1]. *)
Definition block_step (source : bytes) (n sh : Z) (block : Z) : run (option Z) :=
  c ← mem_at source n;
  match strchr alphabet c with
  | None => Some None
  | Some i => Some (Some (Z.lor block (Z.shiftl (Z.land i 63) sh)))
  end.

Definition to_block4 (source : bytes) (num : Z) : run (option Z) :=
  if num <? 1 then Some (Some 0) else
  r ← block_step source 0 18 0;
  match r with None => Some None | Some block =>
  r ← block_step source 1 12 block;
  match r with None => Some None | Some block =>
  if num <? 2 then Some (Some block) else
  r ← block_step source 2 6 block;
  match r with None => Some None | Some block =>
  if num <? 3 then Some (Some block) else
  block_step source 3 0 block
  end end end.

(** [GET_A], [GET_B] and [GET_C]. *)
Definition get_abc (n : Z) : bytes :=
  [z2b (Z.shiftr (Z.land n 0xff0000) 16); z2b (Z.shiftr (Z.land n 0xff00) 8); z2b (Z.land n 0xff)].

Definition _base64_to_bin (source : bytes) (num : Z) : run (option bytes) :=
  r ← to_block4 source num;
  match r with None => Some None | Some block => Some (Some (get_abc block)) end.

(** [get_equals]: how many ['='] the string has, and the string with each of
    them replaced by a NUL. *)
Fixpoint get_equals (string : bytes) : Z * bytes :=
  match string with
  | [] => (0, [])
  | c :: string =>
      let '(num, string) := get_equals string in
      if Byte.eqb c "="%byte then (num + 1, Byte.x00 :: string) else (num, c :: string)
  end.

(** The [while (len > 4)] loop; the inner [None] is [goto error]. *)
Fixpoint decode_loop (fuel : nat) (len : Z) (ptr : bytes) (buffer : ssh_buffer)
    : run (option (Z * bytes * ssh_buffer)) :=
  if negb (4 <? len) then Some (Some (len, ptr, buffer)) else
  match fuel with
  | O => None
  | S fuel =>
      r ← _base64_to_bin ptr 3;
      match r with
      | None => Some None
      | Some block =>
          '(rc, buffer) ← add_data buffer (Some block) 3;
          if rc <? 0 then Some None else decode_loop fuel (len - 4) (zdrop 4 ptr) buffer
      end
  end.

(** One of the three final [case]s: [equals] must be [want]. *)
Definition decode_last (ptr : bytes) (equals want n : Z) (buffer : ssh_buffer)
    : run (option ssh_buffer) :=
  if negb (equals =? want) then Some None else
  r ← _base64_to_bin ptr n;
  match r with
  | None => Some None
  | Some block =>
      '(rc, buffer) ← add_data buffer (Some block) n;
      if rc <? 0 then Some None else Some (Some buffer)
  end.

(** [base64_to_bin (source)]: [NULL] is the inner [None]. *)
Definition base64_to_bin (source : bytes) : run (option ssh_buffer) :=
  match malloc (zlen source + 1) with
  | None => Some None
  | Some _ =>
      let '(equals, base64) := get_equals source in
      let ptr := base64 ++ [Byte.x00] in
      if 2 <? equals then Some None else
      ob ← ssh_buffer_new;
      match ob with
      | None => Some None
      | Some buffer =>
          let buffer := ssh_buffer_set_secure buffer in
          len ← strlen ptr;
          r ← decode_loop (length source) len ptr buffer;
          match r with
          | None => Some None
          | Some (len, ptr, buffer) =>
              if len =? 4 then decode_last ptr equals 0 3 buffer
              else if len =? 2 then decode_last ptr equals 2 1 buffer
              else if len =? 3 then decode_last ptr equals 1 2 buffer
              else Some None
          end
      end
  end.

(** [alphabet[i]]. *)
Definition letter (i : Z) : run byte := mem_at alphabet i.

(** [_bin_to_base64]: the four characters written at [dest]. *)
Definition _bin_to_base64 (source : bytes) (len : Z) : run bytes :=
  let bits n := Z.shiftl 1 n - 1 in
  if len =? 1 then
    s0 ← mem_at source 0;
    d0 ← letter (Z.shiftr (b2z s0) 2);
    d1 ← letter (Z.shiftl (Z.land (b2z s0) (bits 2)) 4);
    Some [d0; d1; "="%byte; "="%byte]
  else if len =? 2 then
    s0 ← mem_at source 0;
    s1 ← mem_at source 1;
    d0 ← letter (Z.shiftr (b2z s0) 2);
    d1 ← letter (Z.lor (Z.shiftr (b2z s1) 4) (Z.shiftl (Z.land (b2z s0) (bits 2)) 4));
    d2 ← letter (Z.shiftl (Z.land (b2z s1) (bits 4)) 2);
    Some [d0; d1; d2; "="%byte]
  else if len =? 3 then
    s0 ← mem_at source 0;
    s1 ← mem_at source 1;
    s2 ← mem_at source 2;
    d0 ← letter (Z.shiftr (b2z s0) 2);
    d1 ← letter (Z.lor (Z.shiftr (b2z s1) 4) (Z.shiftl (Z.land (b2z s0) (bits 2)) 4));
    d2 ← letter (Z.lor (Z.shiftr (b2z s2) 6) (Z.shiftl (Z.land (b2z s1) (bits 4)) 2));
    d3 ← letter (Z.land (b2z s2) (bits 6));
    Some [d0; d1; d2; d3]
  else Some [].

(** The loop of [bin_to_base64]: [off] is [ptr - base64]. *)
Fixpoint encode_loop (fuel : nat) (base64 : bytes) (off : Z) (source : bytes) (len : Z)
    : run (bytes * Z) :=
  if negb (0 <? len) then Some (base64, off) else
  match fuel with
  | O => None
  | S fuel =>
      d ← _bin_to_base64 source (if 3 <? len then 3 else len);
      base64 ← memcpy base64 off d 0 (zlen d);
      let off := off + 4 in
      if len <? 3 then Some (base64, off)
      else encode_loop fuel base64 off (zdrop 3 source) (len - 3)
  end.

(** [bin_to_base64 (source, len)]: the block that is returned. *)
Definition bin_to_base64 (source : bytes) (len : Z) : run (option bytes) :=
  let flen := u64 (len + (3 - len mod 3)) in
  let flen := u64 (u64 (4 * flen) / 3 + 1) in
  match malloc flen with
  | None => Some None
  | Some base64 =>
      '(base64, off) ← encode_loop (Z.to_nat len) base64 0 source len;
      base64 ← memcpy base64 off [Byte.x00] 0 1;
      Some (Some base64)
  end.
End Definitions.

(** ** The reference encoding *)

Definition sextet (i : Z) : byte := default Byte.x00 (alphabet !! Z.to_nat i).

Definition s0 (a : byte) : Z := b2z a / 4.
Definition s1 (a b : byte) : Z := (b2z a mod 4) * 16 + b2z b / 16.
Definition s2 (b c : byte) : Z := (b2z b mod 16) * 4 + b2z c / 64.
Definition s3 (c : byte) : Z := b2z c mod 64.

(** The text, with [p] as the padding character. *)
Fixpoint b64 (p : byte) (d : bytes) : bytes :=
  match d with
  | [] => []
  | [a] => [sextet (s0 a); sextet (s1 a Byte.x00); p; p]
  | [a; b] => [sextet (s0 a); sextet (s1 a b); sextet (s2 b Byte.x00); p]
  | a :: b :: c :: d => sextet (s0 a) :: sextet (s1 a b) :: sextet (s2 b c) :: sextet (s3 c) :: b64 p d
  end.

Definition b64_text : bytes -> bytes := b64 "="%byte.

(** How many padding characters end the text. *)
Fixpoint padding (d : bytes) : Z :=
  match d with
  | [] => 0
  | [_] => 2
  | [_; _] => 1
  | _ :: _ :: _ :: d => padding d
  end.

(** Induction by groups of three bytes. *)
Lemma group_ind (P : bytes -> Prop) :
  P [] -> (forall a, P [a]) -> (forall a b, P [a; b]) ->
  (forall a b c d, P d -> P (a :: b :: c :: d)) -> forall d, P d.
Proof.
  intros H0 H1 H2 H3. fix IH 1. intros [|a [|b [|c d]]]; [done|apply H1|apply H2|].
  apply H3, IH.
Qed.

(** Every sextet value has its own letter, which is neither the pad nor NUL. *)
Definition sextet_check (n : nat) : bool :=
  let i := Z.of_nat n in
  match letter i, strchr alphabet (sextet i) with
  | Some c, Some j => Byte.eqb c (sextet i) && (j =? i) && negb (Byte.eqb (sextet i) "="%byte)
                     && negb (Byte.eqb (sextet i) Byte.x00)
  | _, _ => false
  end.

Lemma sextet_checks : forallb sextet_check (seq 0 64) = true.
Proof. vm_compute. reflexivity. Qed.

Lemma sextet_spec i :
  0 <= i < 64 ->
  letter i = Some (sextet i) /\ strchr alphabet (sextet i) = Some i
  /\ sextet i <> "="%byte /\ sextet i <> Byte.x00.
Proof.
  intros Hi. pose proof sextet_checks as Hc. rewrite forallb_forall in Hc.
  specialize (Hc (Z.to_nat i)). rewrite in_seq in Hc. specialize (Hc ltac:(lia)).
  unfold sextet_check in Hc. rewrite Z2Nat.id in Hc by lia.
  destruct (letter i) as [c|]; [|done]. destruct (strchr _ _) as [j|]; [|done].
  rewrite !andb_true_iff, !negb_true_iff, byte_eqb_eq, Z.eqb_eq, !byte_eqb_neq in Hc.
  destruct Hc as [[[-> ->] ?] ?]. done.
Qed.

Lemma s0_range a : 0 <= s0 a < 64.
Proof. unfold s0. pose proof (b2z_range a). Z.div_mod_to_equations. lia. Qed.
Lemma s1_range a b : 0 <= s1 a b < 64.
Proof. unfold s1. pose proof (b2z_range a). pose proof (b2z_range b). Z.div_mod_to_equations. lia. Qed.
Lemma s2_range b c : 0 <= s2 b c < 64.
Proof. unfold s2. pose proof (b2z_range b). pose proof (b2z_range c). Z.div_mod_to_equations. lia. Qed.
Lemma s3_range c : 0 <= s3 c < 64.
Proof. unfold s3. pose proof (b2z_range c). Z.div_mod_to_equations. lia. Qed.

(** The shifts and masks of [_bin_to_base64] compute the sextets. *)
Lemma sextet_bits a b c :
  Z.shiftr (b2z a) 2 = s0 a
  /\ Z.lor (Z.shiftr (b2z b) 4) (Z.shiftl (Z.land (b2z a) 3) 4) = s1 a b
  /\ Z.lor (Z.shiftr (b2z c) 6) (Z.shiftl (Z.land (b2z b) 15) 2) = s2 b c
  /\ Z.land (b2z c) 63 = s3 c
  /\ Z.shiftl (Z.land (b2z a) 3) 4 = s1 a Byte.x00
  /\ Z.shiftl (Z.land (b2z b) 15) 2 = s2 b Byte.x00.
Proof.
  pose proof (b2z_range a). pose proof (b2z_range b). pose proof (b2z_range c).
  unfold s0, s1, s2, s3. change (b2z Byte.x00) with 0.
  change 3 with (2 ^ 2 - 1). change 15 with (2 ^ 4 - 1). change 63 with (2 ^ 6 - 1).
  rewrite !land_ones_mod, !Z.shiftr_div_pow2 by lia.
  rewrite (Z.lor_comm (_ / _)), (Z.lor_comm (b2z c / _)).
  rewrite !lor_low, !Z.shiftl_mul_pow2 by (Z.div_mod_to_equations; lia).
  split_and!; Z.div_mod_to_equations; lia.
Qed.

(** Reduces the array reads and masks of [_bin_to_base64]. *)
Ltac base64_reduce :=
  unfold _bin_to_base64; cbv beta zeta;
  change (Z.shiftl 1 2 - 1) with 3; change (Z.shiftl 1 4 - 1) with 15;
  change (Z.shiftl 1 6 - 1) with 63;
  repeat match goal with
    | |- context [mem_at (?x :: ?l) 0] => change (mem_at (x :: l) 0) with (Some x)
    | |- context [mem_at (?x :: ?y :: ?l) 1] => change (mem_at (x :: y :: l) 1) with (Some y)
    | |- context [mem_at (?x :: ?y :: ?z :: ?l) 2] =>
        change (mem_at (x :: y :: z :: l) 2) with (Some z)
    | |- context [Z.eqb ?m ?n] =>
        let v := eval cbv in (Z.eqb m n) in change (Z.eqb m n) with v
    end; cbv iota; cbn [mbind option_bind].

Lemma encode_group a b c d :
  _bin_to_base64 (a :: b :: c :: d) 3
  = Some [sextet (s0 a); sextet (s1 a b); sextet (s2 b c); sextet (s3 c)].
Proof.
  destruct (sextet_bits a b c) as (H0 & H1 & H2 & H3 & _).
  base64_reduce. rewrite H0, H1, H2, H3.
  rewrite (proj1 (sextet_spec _ (s0_range a))), (proj1 (sextet_spec _ (s1_range a b))),
    (proj1 (sextet_spec _ (s2_range b c))), (proj1 (sextet_spec _ (s3_range c))). done.
Qed.

Lemma encode_one a d : _bin_to_base64 (a :: d) 1 = Some (b64_text [a]).
Proof.
  destruct (sextet_bits a a a) as (H0 & _ & _ & _ & H1 & _).
  base64_reduce. rewrite H0, H1.
  by rewrite (proj1 (sextet_spec _ (s0_range a))), (proj1 (sextet_spec _ (s1_range a _))).
Qed.

Lemma encode_two a b d : _bin_to_base64 (a :: b :: d) 2 = Some (b64_text [a; b]).
Proof.
  destruct (sextet_bits a b a) as (H0 & H1 & _ & _ & _ & H2).
  base64_reduce. rewrite H0, H1, H2.
  by rewrite (proj1 (sextet_spec _ (s0_range a))), (proj1 (sextet_spec _ (s1_range a b))),
    (proj1 (sextet_spec _ (s2_range b _))).
Qed.

(** ** Encoding *)

Lemma zlen_b64 p d : zlen (b64 p d) = 4 * ((zlen d + 2) / 3).
Proof.
  induction d as [|a|a b|a b c d IH] using group_ind; [done..|].
  cbn [b64]. rewrite !zlen_cons, IH.
  replace (1 + (1 + (1 + zlen d)) + 2) with (zlen d + 2 + 1 * 3) by lia.
  rewrite Z.div_add by lia. lia.
Qed.

(** Two writes in a row are one. *)
Lemma memcpy_twice (mem : bytes) off (x y : bytes) k :
  zlen x = k -> 0 <= off -> off + k + zlen y <= zlen mem ->
  ztake (off + k) (ztake off mem ++ x ++ zdrop (off + k) mem) ++ y
    ++ zdrop (off + k + zlen y) (ztake off mem ++ x ++ zdrop (off + k) mem)
  = ztake off mem ++ (x ++ y) ++ zdrop (off + (k + zlen y)) mem.
Proof.
  intros <- Ho Hb. pose proof (zlen_nonneg x). pose proof (zlen_nonneg y).
  rewrite !(app_assoc (ztake off mem) x). rewrite ztake_app_le, ztake_all by zlen_lia.
  rewrite zdrop_app_ge by zlen_lia. rewrite <- !app_assoc. do 3 f_equal.
  rewrite zdrop_drop by zlen_lia. f_equal. zlen_lia.
Qed.

Lemma encode_loop_spec d : forall fuel mem off,
  (length d <= fuel)%nat -> 0 <= off -> off + zlen (b64_text d) <= zlen mem ->
  encode_loop fuel mem off d (zlen d)
  = Some (ztake off mem ++ b64_text d ++ zdrop (off + zlen (b64_text d)) mem, off + zlen (b64_text d)).
Proof.
  unfold b64_text. induction d as [|a|a b|a b c d IH] using group_ind; intros fuel mem off Hf Ho Hm.
  - destruct fuel; cbn [encode_loop b64 app]; change (negb (0 <? zlen [])) with true; cbv iota;
      rewrite zlen_nil, Z.add_0_r, ztake_drop; done.
  - destruct fuel as [|fuel]; [cbn in Hf; lia|]. cbn [encode_loop].
    change (negb (0 <? zlen [a])) with false. change (3 <? zlen [a]) with false. cbv iota.
    change (zlen [a]) with 1. rewrite encode_one. cbn [mbind option_bind]. unfold b64_text in *.
    rewrite memcpy_ok by (zlen_lia || (pose proof (zlen_b64 "=" [a]); zlen_lia)).
    by rewrite (zdrop_0 0), (ztake_all _ (b64 _ _)) by lia.
  - destruct fuel as [|fuel]; [cbn in Hf; lia|]. cbn [encode_loop].
    change (negb (0 <? zlen [a; b])) with false. change (3 <? zlen [a; b]) with false. cbv iota.
    change (zlen [a; b]) with 2. rewrite encode_two. cbn [mbind option_bind]. unfold b64_text in *.
    rewrite memcpy_ok by (zlen_lia || (pose proof (zlen_b64 "=" [a; b]); zlen_lia)).
    by rewrite (zdrop_0 0), (ztake_all _ (b64 _ _)) by lia.
  - destruct fuel as [|fuel]; [cbn in Hf; lia|]. cbn [encode_loop].
    pose proof (zlen_nonneg d) as Hd. rewrite !zlen_cons.
    rewrite (proj2 (Z.ltb_lt 0 _)) by lia. cbn [negb].
    replace (if 3 <? 1 + (1 + (1 + zlen d)) then 3 else 1 + (1 + (1 + zlen d))) with 3
      by (destruct (3 <? _) eqn:?; lia).
    rewrite encode_group. cbn [mbind option_bind b64] in *.
    set (g := [sextet (s0 a); sextet (s1 a b); sextet (s2 b c); sextet (s3 c)]).
    assert (Hg : forall l, sextet (s0 a) :: sextet (s1 a b) :: sextet (s2 b c) :: sextet (s3 c) :: l
      = g ++ l) by done. rewrite !Hg in *. clear Hg.
    assert (Hgl : zlen g = 4) by done. rewrite zlen_app in Hm.
    pose proof (zlen_nonneg (b64 "=" d)). rewrite memcpy_ok by lia. cbn [mbind option_bind].
    rewrite (proj2 (Z.ltb_ge _ _)) by lia. rewrite (zdrop_0 0 g), (ztake_all _ g) by lia.
    replace (1 + (1 + (1 + zlen d)) - 3) with (zlen d) by lia.
    change (zdrop 3 (a :: b :: c :: d)) with d. rewrite IH; [|cbn in Hf; lia|lia|zlen_lia].
    rewrite memcpy_twice by lia. rewrite zlen_app, Hgl. do 2 f_equal. lia.
Qed.

(** [bin_to_base64] writes the padded text and its NUL inside the block. *)
Lemma bin_to_base64_spec `{Allocator} d :
  zlen d < 2 ^ 60 ->
  (exists junk, bin_to_base64 d (zlen d) = Some (Some (b64_text d ++ Byte.x00 :: junk)))
  \/ bin_to_base64 d (zlen d) = Some None.
Proof.
  intros Hd. pose proof (zlen_nonneg d) as Hd0. unfold bin_to_base64.
  pose proof (Z.mod_pos_bound (zlen d) 3 ltac:(lia)) as Hmod.
  set (n := zlen d) in *. cbv zeta. unwrap.
  assert (Hf : 4 * (n + (3 - n mod 3)) / 3 + 1 = 4 * (n / 3 + 1) + 1).
  { pose proof (Z.div_mod n 3 ltac:(lia)).
    replace (4 * (n + (3 - n mod 3))) with (4 * (n / 3 + 1) * 3) by lia.
    by rewrite Z.div_mul. }
  rewrite (u64_small (_ / 3 + 1)) by (rewrite Hf; Z.div_mod_to_equations; lia). rewrite Hf.
  destruct (malloc _) as [blk|] eqn:Hm; [left|by right].
  apply malloc_zlen in Hm; [|Z.div_mod_to_equations; lia].
  pose proof (zlen_b64 "=" d) as Hb. fold (b64_text d) in Hb.
  assert (Hfit : zlen (b64_text d) + 1 <= zlen blk) by (rewrite Hb; fold n; Z.div_mod_to_equations; lia).
  unfold n. rewrite encode_loop_spec by (lia || (unfold zlen; lia)).
  pose proof (zlen_nonneg (b64_text d)). cbn [mbind option_bind Z.add].
  rewrite (ztake_0 0), app_nil_l by lia. rewrite memcpy_ok by zlen_lia. cbn [mbind option_bind].
  rewrite ztake_app_le, ztake_all by lia. eexists. done.
Qed.

(** ** Decoding *)

Lemma get_equals_b64 d : get_equals (b64_text d) = (padding d, b64 Byte.x00 d).
Proof.
  unfold b64_text.
  assert (Hne : forall i, 0 <= i < 64 -> Byte.eqb (sextet i) "="%byte = false).
  { intros i Hi. apply byte_eqb_neq. by apply sextet_spec. }
  induction d as [|a|a b|a b c d IH] using group_ind; cbn [b64 get_equals padding].
  - done.
  - rewrite !Hne by auto using s0_range, s1_range. done.
  - rewrite !Hne by auto using s0_range, s1_range, s2_range. done.
  - by rewrite IH, !Hne by auto using s0_range, s1_range, s2_range, s3_range.
Qed.

Lemma padding_range d : 0 <= padding d <= 2.
Proof. induction d as [|a|a b|a b c d IH] using group_ind; cbn [padding]; lia. Qed.

Lemma strlen_b64 d :
  strlen (b64 Byte.x00 d ++ [Byte.x00]) = Some (zlen (b64 Byte.x00 d) - padding d).
Proof.
  assert (Hne : forall i, 0 <= i < 64 -> Byte.eqb (sextet i) Byte.x00 = false).
  { intros i Hi. apply byte_eqb_neq. by apply sextet_spec. }
  induction d as [|a|a b|a b c d IH] using group_ind; cbn [b64 app strlen padding].
  - done.
  - rewrite !Hne by auto using s0_range, s1_range. done.
  - rewrite !Hne by auto using s0_range, s1_range, s2_range. done.
  - rewrite IH, !Hne by auto using s0_range, s1_range, s2_range, s3_range.
    cbn [mbind option_bind]. rewrite !zlen_cons. f_equal. lia.
Qed.

Lemma block_step_ok source n sh block i q :
  mem_at source n = Some (sextet i) -> 0 <= i < 64 -> 0 <= sh -> block = q * 2 ^ (sh + 6) ->
  block_step source n sh block = Some (Some (block + i * 2 ^ sh)).
Proof.
  intros Hm Hi Hsh Hb. unfold block_step. rewrite Hm. cbn [mbind option_bind].
  destruct (sextet_spec i Hi) as (_ & -> & _). do 2 f_equal.
  change 63 with (2 ^ 6 - 1). rewrite land_ones_mod, Z.mod_small by lia.
  pose proof (Z.pow_pos_nonneg 2 sh ltac:(lia) ltac:(lia)).
  assert (Hlt : 0 <= Z.shiftl i sh < 2 ^ (sh + 6))
    by (rewrite Z.shiftl_mul_pow2, Z.pow_add_r by lia; nia).
  rewrite Hb, <- (Z.shiftl_mul_pow2 q) by lia. rewrite lor_low by (done || lia).
  by rewrite !Z.shiftl_mul_pow2 by lia.
Qed.

Lemma get_abc_value v : get_abc v = [z2b (v / 65536); z2b (v / 256); z2b v].
Proof.
  assert (Hm : forall k, 0 <= k -> z2b (Z.shiftr (Z.land v (Z.shiftl 255 k)) k) = z2b (v / 2 ^ k)).
  { intros k Hk. rewrite Z.shiftr_land, Z.shiftr_shiftl_l, Z.sub_diag, Z.shiftl_0_r by lia.
    change 255 with (2 ^ 8 - 1). rewrite land_ones_mod, Z.shiftr_div_pow2 by lia. apply z2b_mod. }
  unfold get_abc. change 0xff0000 with (Z.shiftl 255 16). change 0xff00 with (Z.shiftl 255 8).
  rewrite !Hm by lia. change 0xff with (2 ^ 8 - 1). rewrite land_ones_mod by lia.
  change (2 ^ 8) with 256. rewrite z2b_mod. done.
Qed.

Lemma group_value a b c :
  s0 a * 2 ^ 18 + s1 a b * 2 ^ 12 + s2 b c * 2 ^ 6 + s3 c = b2z a * 65536 + b2z b * 256 + b2z c.
Proof.
  pose proof (b2z_range a). pose proof (b2z_range b). pose proof (b2z_range c).
  unfold s0, s1, s2, s3. Z.div_mod_to_equations. lia.
Qed.

Lemma abc_bytes a b c v :
  v = b2z a * 65536 + b2z b * 256 + b2z c -> get_abc v = [a; b; c].
Proof.
  intros ->. rewrite get_abc_value.
  pose proof (b2z_range a). pose proof (b2z_range b). pose proof (b2z_range c).
  assert (Hb : forall x y, y mod 256 = b2z x -> z2b y = x).
  { intros x y Hy. by rewrite <- z2b_mod, Hy, z2b_b2z. }
  rewrite (Hb a), (Hb b), (Hb c); [done|..]; Z.div_mod_to_equations; lia.
Qed.

Lemma decode_group a b c rest :
  _base64_to_bin (sextet (s0 a) :: sextet (s1 a b) :: sextet (s2 b c) :: sextet (s3 c) :: rest) 3
  = Some (Some [a; b; c]).
Proof.
  unfold _base64_to_bin, to_block4. change (3 <? 1) with false. change (3 <? 2) with false.
  change (3 <? 3) with false. cbv iota.
  rewrite (block_step_ok _ 0 18 0 (s0 a) 0) by (done || auto using s0_range || lia).
  cbn [mbind option_bind].
  rewrite (block_step_ok _ 1 12 _ (s1 a b) (s0 a)) by (done || auto using s1_range || lia).
  cbn [mbind option_bind].
  rewrite (block_step_ok _ 2 6 _ (s2 b c) (s0 a * 64 + s1 a b)) by (done || auto using s2_range || lia).
  cbn [mbind option_bind].
  rewrite (block_step_ok _ 3 0 _ (s3 c) ((s0 a * 64 + s1 a b) * 64 + s2 b c))
    by (done || auto using s3_range || lia).
  cbn [mbind option_bind]. do 2 f_equal. apply abc_bytes. rewrite <- group_value. lia.
Qed.

Lemma decode_one a rest :
  exists x y, _base64_to_bin (sextet (s0 a) :: sextet (s1 a Byte.x00) :: rest) 1 = Some (Some [a; x; y]).
Proof.
  unfold _base64_to_bin, to_block4. change (1 <? 1) with false. change (1 <? 2) with true. cbv iota.
  rewrite (block_step_ok _ 0 18 0 (s0 a) 0) by (done || auto using s0_range || lia).
  cbn [mbind option_bind].
  rewrite (block_step_ok _ 1 12 _ (s1 a Byte.x00) (s0 a)) by (done || auto using s1_range || lia).
  cbn [mbind option_bind]. exists Byte.x00, Byte.x00. do 2 f_equal. apply abc_bytes.
  rewrite <- group_value. change (s2 Byte.x00 Byte.x00) with 0. change (s3 Byte.x00) with 0. lia.
Qed.

Lemma decode_two a b rest :
  exists y, _base64_to_bin (sextet (s0 a) :: sextet (s1 a b) :: sextet (s2 b Byte.x00) :: rest) 2
    = Some (Some [a; b; y]).
Proof.
  unfold _base64_to_bin, to_block4. change (2 <? 1) with false. change (2 <? 2) with false.
  change (2 <? 3) with true. cbv iota.
  rewrite (block_step_ok _ 0 18 0 (s0 a) 0) by (done || auto using s0_range || lia).
  cbn [mbind option_bind].
  rewrite (block_step_ok _ 1 12 _ (s1 a b) (s0 a)) by (done || auto using s1_range || lia).
  cbn [mbind option_bind].
  rewrite (block_step_ok _ 2 6 _ (s2 b Byte.x00) (s0 a * 64 + s1 a b))
    by (done || auto using s2_range || lia).
  cbn [mbind option_bind]. exists Byte.x00. do 2 f_equal. apply abc_bytes.
  rewrite <- group_value. change (s3 Byte.x00) with 0. lia.
Qed.

Section RoundTrip.
Context `{Allocator}.

(** The loop and the last case together append the decoded bytes. *)
Definition decode_rest (fuel : nat) (len : Z) (ptr : bytes) (equals : Z) (buffer : ssh_buffer)
    : run (option ssh_buffer) :=
  r ← decode_loop fuel len ptr buffer;
  match r with
  | None => Some None
  | Some (len, ptr, buffer) =>
      if len =? 4 then decode_last ptr equals 0 3 buffer
      else if len =? 2 then decode_last ptr equals 2 1 buffer
      else if len =? 3 then decode_last ptr equals 1 2 buffer
      else Some None
  end.

Lemma decode_last_ok ptr equals n x b :
  malloc_succeeds -> buffer_wf b -> _base64_to_bin ptr n = Some (Some x) -> 0 <= n <= zlen x ->
  b_used b + n < BUFFER_SIZE_MAX ->
  exists b', decode_last ptr equals equals n b = Some (Some b')
    /\ contents b' = contents b ++ ztake n x.
Proof.
  intros Hmem Hwf Hd Hn Hmax. unfold decode_last. rewrite Z.eqb_refl, Hd. cbn [negb mbind option_bind].
  destruct (add_data_ok b x n Hmem Hwf Hn Hmax) as (b' & -> & _ & _ & Hc).
  cbn [mbind option_bind]. by exists b'.
Qed.

Lemma decode_rest_stop fuel len ptr equals b :
  len <= 4 ->
  decode_rest fuel len ptr equals b
  = (if len =? 4 then decode_last ptr equals 0 3 b
     else if len =? 2 then decode_last ptr equals 2 1 b
     else if len =? 3 then decode_last ptr equals 1 2 b
     else Some None).
Proof.
  intros Hlen. unfold decode_rest.
  assert (Hl : decode_loop fuel len ptr b = Some (Some (len, ptr, b))).
  { destruct fuel; cbn [decode_loop]; by rewrite (proj2 (Z.ltb_ge _ _)) by lia. }
  by rewrite Hl.
Qed.

Lemma decode_rest_step fuel len ptr equals b x :
  4 < len -> _base64_to_bin ptr 3 = Some (Some x) ->
  decode_rest (S fuel) len ptr equals b
  = ('(rc, b') ← add_data b (Some x) 3;
     if rc <? 0 then Some None else decode_rest fuel (len - 4) (zdrop 4 ptr) equals b').
Proof.
  intros Hlen Hx. unfold decode_rest at 1. cbn [decode_loop].
  rewrite (proj2 (Z.ltb_lt 4 _)) by lia. cbn [negb]. rewrite Hx. cbn [mbind option_bind].
  destruct (add_data _ _ _) as [[rc b']|]; cbn [mbind option_bind]; [|done].
  destruct (rc <? 0); [done|]. cbn [mbind option_bind]. done.
Qed.

Lemma decode_rest_ok d : forall fuel b,
  malloc_succeeds -> buffer_wf b -> d <> [] -> b_used b + zlen d < BUFFER_SIZE_MAX ->
  (length (b64 Byte.x00 d) <= 4 * fuel + 4)%nat ->
  exists b', decode_rest fuel (zlen (b64 Byte.x00 d) - padding d) (b64 Byte.x00 d ++ [Byte.x00])
      (padding d) b = Some (Some b')
    /\ contents b' = contents b ++ d.
Proof.
  induction d as [|a|a b|a b c d IH] using group_ind; intros fuel bf Hmem Hwf Hne Hmax Hf; [done|..].
  - destruct (decode_one a [Byte.x00; Byte.x00; Byte.x00]) as (x & y & Hd).
    destruct (decode_last_ok _ 2 1 _ bf Hmem Hwf Hd) as (b' & He & Hc); [done|exact Hmax|].
    exists b'. change (zlen (b64 Byte.x00 [a]) - padding [a]) with 2. rewrite decode_rest_stop by lia.
    split; [exact He|exact Hc].
  - destruct (decode_two a b [Byte.x00; Byte.x00]) as (y & Hd).
    destruct (decode_last_ok _ 1 2 _ bf Hmem Hwf Hd) as (b' & He & Hc); [done|exact Hmax|].
    exists b'. change (zlen (b64 Byte.x00 [a; b]) - padding [a; b]) with 3.
    rewrite decode_rest_stop by lia. split; [exact He|exact Hc].
  - cbn [b64 padding app]. rewrite !zlen_cons in *. pose proof (zlen_nonneg d).
    destruct (decide (d = [])) as [->|Hd].
    + pose proof (decode_group a b c [Byte.x00]) as Hg.
      destruct (decode_last_ok _ 0 3 _ bf Hmem Hwf Hg) as (b' & He & Hc); [done|done|].
      exists b'. cbn [b64 padding app]. rewrite zlen_nil, decode_rest_stop by lia.
      split; [exact He|exact Hc].
    + assert (H4 : 4 <= zlen (b64 Byte.x00 d)).
      { rewrite zlen_b64. destruct d as [|x d]; [done|]. rewrite zlen_cons.
        pose proof (zlen_nonneg d). Z.div_mod_to_equations. lia. }
      pose proof (padding_range d). cbn [b64 length] in Hf.
      destruct fuel as [|fuel]; [unfold zlen in H4; lia|].
      rewrite (decode_rest_step _ _ _ _ _ [a; b; c]) by (lia || apply decode_group).
      destruct (add_data_ok bf [a; b; c] 3 Hmem Hwf) as (b1 & -> & Hwf1 & Hu1 & Hc1); [done|lia|].
      cbn [mbind option_bind]. change (0 <? 0) with false. cbv iota.
      match goal with |- context [zdrop 4 (?w :: ?x :: ?y :: ?z :: ?l)] =>
        change (zdrop 4 (w :: x :: y :: z :: l)) with l end.
      replace (1 + (1 + (1 + (1 + zlen (b64 Byte.x00 d)))) - padding d - 4)
        with (zlen (b64 Byte.x00 d) - padding d) by lia.
      destruct (IH fuel b1 Hmem Hwf1 Hd) as (b' & He & Hc); [lia|lia|].
      exists b'. split; [exact He|]. by rewrite Hc, Hc1, <- app_assoc.
Qed.

Lemma bin_to_base64_ok d :
  malloc_succeeds -> zlen d < 2 ^ 27 ->
  exists junk, bin_to_base64 d (zlen d) = Some (Some (b64_text d ++ Byte.x00 :: junk)).
Proof.
  intros Hmem Hd. pose proof (zlen_nonneg d).
  destruct (bin_to_base64_spec d) as [He|He]; [lia|done|]. exfalso.
  unfold bin_to_base64 in He. unwrap. cbv zeta in He.
  rewrite (u64_small (zlen d + _)) in He by (Z.div_mod_to_equations; lia).
  rewrite (u64_small (4 * _)) in He by (Z.div_mod_to_equations; lia).
  rewrite u64_small in He by (Z.div_mod_to_equations; lia).
  destruct (malloc _) eqn:Hm.
  - destruct (encode_loop _ _ _ _ _) as [[? ?]|]; [|done]. cbn [mbind option_bind] in He.
    by destruct (memcpy _ _ _ _ _).
  - apply Hmem in Hm; [done|]. unfold BUFFER_SIZE_MAX. Z.div_mod_to_equations. lia.
Qed.

(** Encoding any non-empty data that a buffer can hold and decoding the text
    gives the data back. *)
Theorem base64_roundtrip d :
  malloc_succeeds -> d <> [] -> zlen d < 2 ^ 27 ->
  exists text junk b, bin_to_base64 d (zlen d) = Some (Some (text ++ Byte.x00 :: junk))
    /\ base64_to_bin text = Some (Some b) /\ contents b = d.
Proof.
  intros Hmem Hne Hmax. pose proof (zlen_nonneg d).
  destruct (bin_to_base64_ok d Hmem) as [junk He]; [lia|].
  exists (b64_text d), junk.
  assert (Hb : exists b, base64_to_bin (b64_text d) = Some (Some b) /\ contents b = d); [|destruct Hb as (b & ? & ?); eauto].
  pose proof (zlen_b64 "="%byte d) as Hl. fold (b64_text d) in Hl. unfold base64_to_bin.
  destruct (malloc (zlen (b64_text d) + 1)) eqn:Hm.
  2: { apply Hmem in Hm; [done|]. unfold BUFFER_SIZE_MAX. rewrite Hl. Z.div_mod_to_equations. lia. }
  rewrite get_equals_b64. pose proof (padding_range d). rewrite (proj2 (Z.ltb_ge _ _)) by lia.
  destruct (ssh_buffer_new_ok Hmem) as (b0 & -> & Hwf0 & Hc0 & Hu0). cbn [mbind option_bind].
  rewrite strlen_b64. cbn [mbind option_bind].
  destruct (decode_rest_ok d (length (b64_text d)) (ssh_buffer_set_secure b0) Hmem) as (b & Hr & Hc).
  - wf_cases Hwf0. by constructor.
  - done.
  - cbn. unfold BUFFER_SIZE_MAX. lia.
  - pose proof (zlen_b64 Byte.x00 d). unfold zlen in *. lia.
  - exists b. split; [exact Hr|]. rewrite Hc.
    change (contents (ssh_buffer_set_secure b0)) with (contents b0). by rewrite Hc0.
Qed.
End RoundTrip.

Lemma base64_roundtrip_witness :
  exists text junk b, @bin_to_base64 calloc_allocator (cstr "WindTerm") (zlen (cstr "WindTerm"))
      = Some (Some (text ++ Byte.x00 :: junk))
    /\ @base64_to_bin calloc_allocator text = Some (Some b) /\ contents b = cstr "WindTerm".
Proof.
  apply (@base64_roundtrip calloc_allocator (cstr "WindTerm")); [intros ? ?|..]; discriminate || reflexivity.
Defined.

(** Only the text in front of the first pad is looked at: what follows a pad
    is accepted whatever it is, although the documentation promises [NULL] for
    an incorrect character. *)
Theorem base64_accepts_trailing_garbage :
  exists b, @base64_to_bin calloc_allocator (cstr "QUI=!?#") = Some (Some b)
    /\ contents b = cstr "AB".
Proof. eexists. split; vm_compute; reflexivity. Qed.
