(* ===== verification/Match.v ===== *)
(** * Wildcard patterns ([libssh/src/match.c])

    A pointer into a C string is the text from it to the terminator. *)

From S2P Require Import Prelude.

Definition MAX_MATCH_RECURSION : nat := 32.

Definition star : byte := "*"%byte.
Definition quest : byte := "?"%byte.

(** [while ( *pattern == '*' ) pattern++]: whether any was skipped, and the rest. *)
Fixpoint skip_stars (pattern : bytes) : bool * bytes :=
  match pattern with
  | c :: pattern' =>
      if Byte.eqb c star then (true, snd (skip_stars pattern')) else (false, pattern)
  | [] => (false, pattern)
  end.

(** [match_pattern (s, pattern, limit)].  The C function recurses only after
    an asterisk, with a smaller [limit]; the outer loop walks both strings. *)
Fixpoint match_pattern (limit : nat) (s pattern : bytes) {struct limit} : bool :=
  match limit with
  | O => false
  | S limit =>
      (fix walk (s pattern : bytes) {struct pattern} : bool :=
         match pattern with
         | [] => match s with [] => true | _ => false end
         | p :: pattern' =>
             if Byte.eqb p star then
               match snd (skip_stars pattern') with
               | [] => true
               | q :: pattern'' =>
                   if negb (Byte.eqb q quest) then
                     (* look for the next literal *)
                     (fix find (s : bytes) : bool :=
                        match s with
                        | [] => false
                        | c :: s' =>
                            if Byte.eqb c q && match_pattern limit s' pattern'' then true
                            else find s'
                        end) s
                   else
                     (* try every position *)
                     (fix try (s : bytes) : bool :=
                        match s with
                        | [] => false
                        | _ :: s' =>
                            if match_pattern limit s (q :: pattern'') then true else try s'
                        end) s
               end
             else
               match s with
               | [] => false
               | c :: s' =>
                   if negb (Byte.eqb p quest) && negb (Byte.eqb p c) then false
                   else walk s' pattern'
               end
         end) s pattern
  end.

(** ** The list of patterns *)

Definition isupper (c : byte) : bool := (65 <=? b2z c) && (b2z c <=? 90).
Definition tolower (c : byte) : byte := if isupper c then z2b (b2z c + 32) else c.

Definition SUB_SIZE : Z := 1024.

(** Copies a subpattern into [sub] up to a comma, the end or the size of
    [sub]: what was copied and what is left. *)
Fixpoint copy_sub (dolower : bool) (room : Z) (pattern : bytes) : bytes * bytes :=
  match pattern with
  | [] => ([], [])
  | c :: pattern' =>
      if negb (0 <? room) || Byte.eqb c ","%byte then ([], pattern)
      else
        let '(sub, rest) := copy_sub dolower (room - 1) pattern' in
        ((if dolower && isupper c then tolower c else c) :: sub, rest)
  end.

(** The [for (i = 0; i < len;)] loop of [match_pattern_list] from [pattern + i]. *)
Fixpoint match_list_loop (fuel : nat) (string pattern : bytes) (dolower : bool) (got_positive : Z)
    : option Z :=
  match pattern with
  | [] => Some got_positive
  | c :: pattern' =>
      match fuel with
      | O => None
      | S fuel =>
          let '(negated, pattern) :=
            if Byte.eqb c "!"%byte then (true, pattern') else (false, pattern) in
          let '(sub, rest) := copy_sub dolower (SUB_SIZE - 1) pattern in
          if SUB_SIZE - 1 <=? zlen sub then Some 0 else
          let rest := match rest with
                      | c :: rest' => if Byte.eqb c ","%byte then rest' else rest
                      | [] => rest
                      end in
          if match_pattern MAX_MATCH_RECURSION string sub then
            if negated then Some (-1) else match_list_loop fuel string rest dolower 1
          else match_list_loop fuel string rest dolower got_positive
      end
  end.

(** [match_pattern_list (string, pattern, len, dolower)]; the fuel never runs
    out ([match_pattern_list_total]). *)
Definition match_pattern_list (string pattern : bytes) (len : Z) (dolower : bool) : option Z :=
  match_list_loop (length pattern) string (ztake len pattern) dolower 0.

Definition match_hostname (host pattern : bytes) (len : Z) : option Z :=
  match_pattern_list host pattern len true.

(** ** What the wildcards mean *)

Inductive glob : bytes -> bytes -> Prop :=
  | glob_end : glob [] []
  | glob_star_none p s : glob p s -> glob (star :: p) s
  | glob_star_more p c s : glob (star :: p) s -> glob (star :: p) (c :: s)
  | glob_quest p c s : glob p s -> glob (quest :: p) (c :: s)
  | glob_char p c s : c <> star -> c <> quest -> glob p s -> glob (c :: p) (c :: s).

(** How many runs of asterisks a pattern has. *)
Fixpoint star_runs (prev : bool) (p : bytes) : nat :=
  match p with
  | [] => 0
  | c :: p =>
      if Byte.eqb c star then (if prev then 0 else 1) + star_runs true p else star_runs false p
  end.

Lemma glob_star_iff p s :
  glob (star :: p) s <-> exists s1 s2, s = s1 ++ s2 /\ glob p s2.
Proof.
  split.
  - intros H. remember (star :: p) as sp eqn:Hsp. induction H; simplify_eq.
    + by exists [], s.
    + destruct (IHglob eq_refl) as (s1 & s2 & -> & ?). by exists (c :: s1), s2.
  - intros (s1 & s2 & -> & H). induction s1 as [|c s1 IH]; cbn [app]; by constructor.
Qed.

Lemma glob_skip_stars p s : glob (star :: p) s <-> glob (star :: snd (skip_stars p)) s.
Proof.
  revert s. induction p as [|c p IH]; intros s; cbn [skip_stars snd]; [done|].
  destruct (Byte.eqb c star) eqn:Hc; [|done]. apply byte_eqb_eq in Hc as ->. cbn [snd].
  rewrite <- IH. rewrite !glob_star_iff. split.
  - intros (s1 & s2 & -> & H). apply glob_star_iff in H as (s3 & s4 & -> & H).
    exists (s1 ++ s3), s4. by rewrite app_assoc.
  - intros (s1 & s2 & -> & H). exists s1, s2. split; [done|]. by constructor.
Qed.

Lemma skip_stars_head p q p' : snd (skip_stars p) = q :: p' -> q <> star.
Proof.
  induction p as [|c p IH]; cbn [skip_stars snd]; [done|].
  destruct (Byte.eqb c star) eqn:Hc; cbn [snd]; [done|]. intros [= -> ->].
  by apply byte_eqb_neq in Hc.
Qed.

Lemma star_runs_skip p : star_runs true p = star_runs false (snd (skip_stars p)).
Proof.
  induction p as [|c p IH]; cbn [skip_stars snd star_runs]; [done|].
  destruct (Byte.eqb c star) eqn:Hc; cbn [snd]; [done|]. cbn [star_runs]. by rewrite Hc.
Qed.

Lemma glob_cons_inv q p s :
  q <> star -> glob (q :: p) s -> exists c s', s = c :: s' /\ glob p s' /\ (q = quest \/ c = q).
Proof. intros Hq H. inversion H; subst; try done; do 2 eexists; auto. Qed.

(** ** The two search loops *)

Section Search.
Context (f : bytes -> bool).

Definition find_literal (q : byte) : bytes -> bool :=
  fix find (s : bytes) : bool :=
    match s with
    | [] => false
    | c :: s' => if Byte.eqb c q && f s' then true else find s'
    end.

Definition try_each : bytes -> bool :=
  fix try (s : bytes) : bool :=
    match s with
    | [] => false
    | _ :: s' => if f s then true else try s'
    end.

Lemma find_literal_spec q s :
  find_literal q s = true <-> exists s1 s2, s = s1 ++ q :: s2 /\ f s2 = true.
Proof.
  induction s as [|c s IH]; cbn [find_literal].
  - split; [done|]. intros (s1 & s2 & Hs & _). by destruct s1.
  - destruct (Byte.eqb c q && f s) eqn:Hc.
    + apply andb_true_iff in Hc as [Hc Hf]. apply byte_eqb_eq in Hc as ->.
      split; [|done]. intros _. by exists [], s.
    + fold (find_literal q). rewrite IH. split.
      * intros (s1 & s2 & -> & Hf). by exists (c :: s1), s2.
      * intros (s1 & s2 & Hs & Hf). destruct s1 as [|x s1]; simplify_eq/=; [|eauto].
        by rewrite byte_eqb_refl, Hf in Hc.
Qed.

Lemma try_each_spec s :
  try_each s = true <-> exists s1 s2, s = s1 ++ s2 /\ s2 <> [] /\ f s2 = true.
Proof.
  induction s as [|c s IH]; cbn [try_each].
  - split; [done|]. intros (s1 & s2 & Hs & Hne & _). by destruct s1, s2.
  - destruct (f (c :: s)) eqn:Hf.
    + split; [|done]. intros _. by exists [], (c :: s).
    + fold try_each. rewrite IH. split.
      * intros (s1 & s2 & -> & Hne & Ht). by exists (c :: s1), s2.
      * intros (s1 & s2 & Hs & Hne & Ht). destruct s1 as [|x s1]; simplify_eq/=; [congruence|eauto].
Qed.
End Search.

(** [match_pattern] one level down: the walk to the first asterisk. *)
Fixpoint walk (limit : nat) (s pattern : bytes) {struct pattern} : bool :=
  match pattern with
  | [] => match s with [] => true | _ => false end
  | p :: pattern' =>
      if Byte.eqb p star then
        match snd (skip_stars pattern') with
        | [] => true
        | q :: pattern'' =>
            if negb (Byte.eqb q quest)
            then find_literal (fun s' => match_pattern limit s' pattern'') q s
            else try_each (fun s' => match_pattern limit s' (q :: pattern'')) s
        end
      else
        match s with
        | [] => false
        | c :: s' =>
            if negb (Byte.eqb p quest) && negb (Byte.eqb p c) then false else walk limit s' pattern'
        end
  end.

Lemma match_pattern_walk limit s pattern : match_pattern (S limit) s pattern = walk limit s pattern.
Proof.
  revert s. induction pattern as [|p pattern IH]; intros s; [done|].
  cbn [walk]. destruct s as [|c s]; [done|]. by rewrite <- (IH s).
Qed.

Lemma match_pattern_sound limit : forall s p, match_pattern limit s p = true -> glob p s.
Proof.
  induction limit as [|limit IH]; intros s p; [done|]. rewrite match_pattern_walk. revert s.
  induction p as [|x p IHp]; intros s; cbn [walk].
  - destruct s; [constructor|done].
  - destruct (Byte.eqb x star) eqn:Hx.
    + apply byte_eqb_eq in Hx as ->. intros H. apply glob_skip_stars.
      destruct (snd (skip_stars p)) as [|q p'] eqn:Hsk.
      { apply glob_star_iff. exists s, []. rewrite app_nil_r. split; [done|constructor]. }
      apply skip_stars_head in Hsk. apply glob_star_iff. destruct (Byte.eqb q quest) eqn:Hq; cbn [negb] in H.
      * apply try_each_spec in H as (s1 & s2 & -> & _ & Hm). eauto.
      * apply find_literal_spec in H as (s1 & s2 & -> & Hm). apply byte_eqb_neq in Hq.
        exists s1, (q :: s2). split; [done|]. apply glob_char; auto.
    + destruct s as [|c s]; [done|]. apply byte_eqb_neq in Hx.
      destruct (Byte.eqb x quest) eqn:Hq; cbn [negb andb].
      * apply byte_eqb_eq in Hq as ->. intros H. apply glob_quest. auto.
      * apply byte_eqb_neq in Hq. destruct (Byte.eqb x c) eqn:Hc; cbn [negb]; [|done].
        apply byte_eqb_eq in Hc as ->. intros H. apply glob_char; auto.
Qed.

Lemma match_pattern_complete limit :
  forall s p, (star_runs false p < limit)%nat -> glob p s -> match_pattern limit s p = true.
Proof.
  induction limit as [|limit IH]; intros s p Hr; [lia|]. rewrite match_pattern_walk.
  revert s Hr. induction p as [|x p IHp]; intros s Hr Hg; cbn [walk].
  - by inversion Hg.
  - cbn [star_runs] in Hr. destruct (Byte.eqb x star) eqn:Hx.
    + apply byte_eqb_eq in Hx as ->. rewrite star_runs_skip in Hr.
      apply glob_skip_stars in Hg. destruct (snd (skip_stars p)) as [|q p'] eqn:Hsk; [done|].
      apply skip_stars_head in Hsk. apply glob_star_iff in Hg as (s1 & s2 & -> & Hg).
      pose proof Hg as Hg'. apply glob_cons_inv in Hg' as (c & s2' & -> & Hp & Hor); [|done].
      cbn [star_runs] in Hr. rewrite (proj2 (byte_eqb_neq q _)) in Hr by done.
      destruct (Byte.eqb q quest) eqn:Hq; cbn [negb].
      * apply try_each_spec. exists s1, (c :: s2'). split_and!; [done|done|].
        apply IH; [|done]. cbn [star_runs]. rewrite (proj2 (byte_eqb_neq q _)) by done. lia.
      * apply byte_eqb_neq in Hq. destruct Hor as [|<-]; [done|].
        apply find_literal_spec. exists s1, s2'. split; [done|]. apply IH; [lia|done].
    + apply byte_eqb_neq in Hx. apply glob_cons_inv in Hg as (c & s' & -> & Hg & Hor); [|done].
      destruct Hor as [-> | ->].
      * change (Byte.eqb quest quest) with true. cbn [negb andb]. auto.
      * rewrite byte_eqb_refl, andb_false_r. auto.
Qed.

(** ** Lists of patterns *)

(** An entry of a pattern list, and its text. *)
Definition entry_text (e : bool * bytes) : bytes :=
  let '(negated, sub) := e in (if negated then ["!"%byte] else []) ++ sub.

Fixpoint join_entries (es : list (bool * bytes)) : bytes :=
  match es with
  | [] => []
  | [e] => entry_text e
  | e :: es => entry_text e ++ ","%byte :: join_entries es
  end.

Definition entry_ok (e : bool * bytes) : Prop :=
  let '(negated, sub) := e in
  sub <> [] /\ (","%byte ∉ sub) /\ zlen sub < SUB_SIZE - 1 /\ (negated = false -> hd_error sub <> Some "!"%byte).

(** A negated entry that matches decides; otherwise one positive match is
    enough.  The order of the entries is irrelevant. *)
Definition list_verdict (matches : bytes -> bool) (es : list (bool * bytes)) : Z :=
  if existsb (fun e => fst e && matches (snd e)) es then -1
  else if existsb (fun e => negb (fst e) && matches (snd e)) es then 1
  else 0.

Definition lower_text (dolower : bool) (sub : bytes) : bytes :=
  map (fun c => if dolower && isupper c then tolower c else c) sub.

Lemma copy_sub_spec dolower sub : forall room rest,
  ","%byte ∉ sub -> zlen sub <= room -> (rest = [] \/ hd_error rest = Some ","%byte) ->
  copy_sub dolower room (sub ++ rest) = (lower_text dolower sub, rest).
Proof.
  induction sub as [|c sub IH]; intros room rest Hc Hr Hrest; cbn [app copy_sub lower_text map].
  - destruct Hrest as [->|Hh]; [done|]. destruct rest as [|x rest]; [done|].
    injection Hh as ->. cbn [copy_sub]. by rewrite orb_true_r.
  - rewrite not_elem_of_cons in Hc. destruct Hc as [Hne Hc]. rewrite zlen_cons in Hr.
    pose proof (zlen_nonneg sub). rewrite (proj2 (Z.ltb_lt _ _)) by lia.
    rewrite (proj2 (byte_eqb_neq c _)) by done. cbn [negb orb].
    rewrite IH by (done || lia). done.
Qed.

Lemma copy_sub_shrinks dolower room p :
  (length (snd (copy_sub dolower room p)) <= length p)%nat.
Proof.
  revert room. induction p as [|c p IH]; intros room; cbn [copy_sub snd length]; [lia|].
  destruct (_ || _); cbn [snd length]; [lia|]. specialize (IH (room - 1)).
  destruct (copy_sub _ _ p). cbn [snd] in *. lia.
Qed.

Lemma copy_sub_progress dolower room c p :
  0 < room -> c <> ","%byte -> (length (snd (copy_sub dolower room (c :: p))) <= length p)%nat.
Proof.
  intros Hr Hc. cbn [copy_sub]. rewrite (proj2 (Z.ltb_lt _ _)), (proj2 (byte_eqb_neq c _)) by done.
  cbn [negb orb]. pose proof (copy_sub_shrinks dolower (room - 1) p). by destruct (copy_sub _ _ p).
Qed.

(** The rest of the list after an entry is shorter than the list. *)
Definition skip_comma (rest : bytes) : bytes :=
  match rest with
  | c :: rest' => if Byte.eqb c ","%byte then rest' else rest
  | [] => rest
  end.

Lemma skip_comma_shrinks rest : (length (skip_comma rest) <= length rest)%nat.
Proof. destruct rest as [|c rest]; cbn; [lia|]. destruct (Byte.eqb c ","%byte); cbn; lia. Qed.

Lemma entry_progress dolower c p :
  let pattern := if Byte.eqb c "!"%byte then p else c :: p in
  (length (skip_comma (snd (copy_sub dolower (SUB_SIZE - 1) pattern))) <= length p)%nat.
Proof.
  cbv zeta. destruct (Byte.eqb c "!"%byte).
  - etransitivity; [apply skip_comma_shrinks|]. apply copy_sub_shrinks.
  - destruct (decide (c = ","%byte)) as [->|Hc]; [reflexivity|].
    etransitivity; [apply skip_comma_shrinks|]. by apply copy_sub_progress.
Qed.

(** The loop always finishes within its fuel. *)
Lemma match_list_loop_total string dolower fuel : forall pattern got,
  (length pattern <= fuel)%nat ->
  exists r, match_list_loop fuel string pattern dolower got = Some r.
Proof.
  induction fuel as [|fuel IH]; intros pattern got Hf.
  - destruct pattern; [by eexists|cbn in Hf; lia].
  - destruct pattern as [|c p]; [by eexists|]. cbn [match_list_loop].
    pose proof (entry_progress dolower c p) as Hp. cbv zeta in Hp. cbn [length] in Hf.
    revert Hp. destruct (Byte.eqb c "!"%byte);
      (destruct (copy_sub dolower (SUB_SIZE - 1) _) as [sub rest]; cbn [snd]; intros Hp;
       destruct (_ <=? zlen sub); [by eexists|]; fold (skip_comma rest);
       destruct (match_pattern _ _ _); try (by eexists); apply IH; lia).
Qed.

Lemma match_list_loop_entry fuel string e rest dolower got :
  entry_ok e -> (rest = [] \/ hd_error rest = Some ","%byte) ->
  match_list_loop (S fuel) string (entry_text e ++ rest) dolower got
  = (if match_pattern MAX_MATCH_RECURSION string (lower_text dolower (snd e)) then
       if fst e then Some (-1) else match_list_loop fuel string (skip_comma rest) dolower 1
     else match_list_loop fuel string (skip_comma rest) dolower got).
Proof.
  destruct e as [neg sub]. intros (Hne & Hc & Hlen & Hhd) Hrest. cbn [fst snd entry_text].
  assert (Hl : zlen (lower_text dolower sub) = zlen sub)
    by (unfold zlen, lower_text; by rewrite length_map).
  pose proof (copy_sub_spec dolower sub (SUB_SIZE - 1) rest Hc ltac:(lia) Hrest) as Hcp.
  destruct neg; cbn [app match_list_loop].
  - change (Byte.eqb "!"%byte "!"%byte) with true. cbv iota. rewrite Hcp.
    rewrite (proj2 (Z.leb_gt _ _)) by lia. done.
  - destruct sub as [|c sub]; [done|]. cbn [app match_list_loop] in *.
    rewrite (proj2 (byte_eqb_neq c _)) by (intros ->; by apply Hhd).
    rewrite Hcp, (proj2 (Z.leb_gt _ _)) by lia. done.
Qed.

Lemma match_list_loop_spec string dolower es : forall fuel got,
  (length es <= fuel)%nat -> Forall entry_ok es -> got = 0 \/ got = 1 ->
  match_list_loop fuel string (join_entries es) dolower got
  = Some (let v := list_verdict (fun sub => match_pattern MAX_MATCH_RECURSION string
                                              (lower_text dolower sub)) es in
          if v =? 0 then got else v).
Proof.
  set (m := fun sub => match_pattern MAX_MATCH_RECURSION string (lower_text dolower sub)).
  induction es as [|e es IH]; intros fuel got Hf Hok Hgot; [by destruct fuel|].
  inversion Hok as [|? ? He Hes]; subst. destruct fuel as [|fuel]; [cbn in Hf; lia|]. cbn [length] in Hf.
  assert (Hj : exists rest, join_entries (e :: es) = entry_text e ++ rest
    /\ (rest = [] \/ hd_error rest = Some ","%byte) /\ skip_comma rest = join_entries es).
  { destruct es as [|e2 es]; [exists []|exists (","%byte :: join_entries (e2 :: es))].
    - cbn [join_entries]. rewrite app_nil_r. auto.
    - split_and!; [done|by right|done]. }
  destruct Hj as (rest & -> & Hr & Hskip).
  rewrite match_list_loop_entry, Hskip by done. fold (m (snd e)).
  unfold list_verdict. cbn [existsb]. fold (list_verdict m es).
  assert (Hv : forall g, g = 0 \/ g = 1 -> match_list_loop fuel string (join_entries es) dolower g
    = Some (if list_verdict m es =? 0 then g else list_verdict m es)) by (intros; apply IH; auto; lia).
  destruct e as [neg sub]. cbn [fst snd]. unfold list_verdict in *.
  destruct (m sub), neg; cbn [andb negb orb]; [done| | |];
    rewrite Hv by auto; destruct (existsb _ es); try done; by destruct (existsb _ es).
Qed.

(** ** The properties *)

(** A match that is reported is one of the wildcard language, and every match
    is reported for patterns with fewer runs of asterisks than the recursion
    limit. *)
Theorem match_pattern_glob s p :
  (match_pattern MAX_MATCH_RECURSION s p = true -> glob p s)
  /\ ((star_runs false p < MAX_MATCH_RECURSION)%nat -> glob p s ->
      match_pattern MAX_MATCH_RECURSION s p = true).
Proof. split; [apply match_pattern_sound|apply match_pattern_complete]. Qed.

(** A list of patterns is refused when a negated entry matches, accepted when
    none does and a plain one matches, whatever the order of the entries;
    with [dolower] the entries (not the string) are lowered first. *)
Theorem match_pattern_list_verdict string es dolower :
  Forall entry_ok es ->
  match_pattern_list string (join_entries es) (zlen (join_entries es)) dolower
  = Some (list_verdict (fun sub => match_pattern MAX_MATCH_RECURSION string
                                     (lower_text dolower sub)) es).
Proof.
  intros Hok. unfold match_pattern_list. rewrite ztake_all by lia.
  rewrite match_list_loop_spec; [|clear -Hok|done|by left].
  - cbv zeta. destruct (_ =? 0) eqn:Hz; [|done]. apply Z.eqb_eq in Hz. by rewrite Hz.
  - induction Hok as [|[neg sub] es (Hne & _) Hes IH]; [done|].
    destruct es as [|e2 es]; [destruct neg, sub; done || (cbn; lia)|].
    change (join_entries ((neg, sub) :: e2 :: es))
      with (entry_text (neg, sub) ++ ","%byte :: join_entries (e2 :: es)).
    rewrite length_app. cbn [length] in *. lia.
Qed.

(** Any pattern list, well formed or not, is processed to the end. *)
Theorem match_pattern_list_total string pattern len dolower :
  exists r, match_pattern_list string pattern len dolower = Some r.
Proof.
  apply match_list_loop_total. unfold ztake. rewrite length_take. lia.
Qed.

Definition demo_entries : list (bool * bytes) :=
  [(false, cstr "*.Example.com"); (true, cstr "bad?.example.com")].

Lemma match_pattern_list_verdict_witness :
  match_pattern_list (cstr "bad1.example.com") (join_entries demo_entries)
    (zlen (join_entries demo_entries)) true
  = Some (list_verdict (fun sub => match_pattern MAX_MATCH_RECURSION (cstr "bad1.example.com")
                                     (lower_text true sub)) demo_entries)
  /\ list_verdict (fun sub => match_pattern MAX_MATCH_RECURSION (cstr "bad1.example.com")
                                (lower_text true sub)) demo_entries = -1.
Proof.
  split; [|vm_compute; reflexivity].
  apply (match_pattern_list_verdict (cstr "bad1.example.com") demo_entries true).
  repeat (apply List.Forall_cons || apply List.Forall_nil);
    (split; [discriminate|split; [apply (bool_decide_unpack _); vm_compute; exact I
      |split; [reflexivity|discriminate]]]).
Defined.

Lemma match_pattern_glob_witness :
  match_pattern MAX_MATCH_RECURSION (cstr "host.lan") (cstr "h*.l?n") = true
  /\ glob (cstr "h*.l?n") (cstr "host.lan").
Proof.
  split; [vm_compute; reflexivity|].
  apply (match_pattern_glob (cstr "host.lan") (cstr "h*.l?n")). vm_compute. reflexivity.
Defined.
