(* ===== verification/Token.v ===== *)
(** * Comma separated lists ([libssh/src/token.c])

    Strings are the text before the terminator.  The token array of
    [ssh_tokens_st] is the list of the texts its pointers designate, up to the
    [NULL] that ends it. *)

From S2P Require Import Prelude.

Definition comma : byte := ","%byte.

(** How many times [sep] occurs: the counting loop of [ssh_tokenize]. *)
Fixpoint count_seps (sep : byte) (c : bytes) : nat :=
  match c with
  | [] => 0
  | x :: c => (if Byte.eqb x sep then 1 else 0) + count_seps sep c
  end.

(** The splitting loop, from the pointer [c] with [n] iterations left: the
    token that starts at [c] and the following ones. *)
Fixpoint split_loop (n : nat) (sep : byte) (c : bytes) : list bytes :=
  match n with
  | O => [c]
  | S n =>
      match strchr c sep with
      | None => [c]
      | Some k =>
          ztake k c ::
          match zdrop (k + 1) c with
          | [] => []
          | next => split_loop n sep next
          end
      end
  end.

Section Definitions.
Context `{Allocator}.

Definition alloc_fails (n : Z) : bool := match malloc n with Some _ => false | None => true end.

(** [sizeof (struct ssh_tokens_st)] and of a pointer. *)
Definition sizeof_tokens : Z := 16.
Definition sizeof_ptr : Z := 8.

Definition ssh_tokenize (chain : option bytes) (separator : byte) : option (list bytes) :=
  match chain with
  | None => None
  | Some chain =>
      if alloc_fails sizeof_tokens then None else
      if alloc_fails (zlen chain + 1) then None else
      let num_tokens := Z.of_nat (1 + count_seps separator chain) in
      if alloc_fails ((num_tokens + 1) * sizeof_ptr) then None else
      Some (split_loop (count_seps separator chain) separator chain)
  end.

(** [strdup]. *)
Definition strdup (s : bytes) : option bytes :=
  if alloc_fails (zlen s + 1) then None else Some s.

(** The inner loop over the available tokens: the first that equals [t]. *)
Definition find_token (a_tok : list bytes) (t : bytes) : option bytes :=
  List.find (fun a => bool_decide (a = t)) a_tok.

(** The outer loop over the preferred tokens. *)
Fixpoint match_loop (a_tok p_tok : list bytes) : option bytes :=
  match p_tok with
  | [] => None
  | t :: p_tok =>
      match find_token a_tok t with
      | Some a => strdup a
      | None => match_loop a_tok p_tok
      end
  end.

Definition ssh_find_matching (available_list preferred_list : option bytes) : option bytes :=
  match available_list, preferred_list with
  | Some _, Some _ =>
      match ssh_tokenize available_list comma with
      | None => None
      | Some a_tok =>
          match ssh_tokenize preferred_list comma with
          | None => None
          | Some p_tok => match_loop a_tok p_tok
          end
      end
  | _, _ => None
  end.

(** One match of [ssh_find_all_matching]: the writes at [ret + pos]. *)
Definition write_match (ret : bytes) (pos : Z) (tok : bytes) : run (bytes * Z) :=
  '(ret, pos) ←
    (if negb (pos =? 0) then ret ← memcpy ret pos [comma] 0 1; Some (ret, pos + 1)
     else Some (ret, pos));
  ret ← memcpy ret pos tok 0 (zlen tok);
  let pos := pos + zlen tok in
  ret ← memcpy ret pos [Byte.x00] 0 1;
  Some (ret, pos).

Fixpoint all_inner (a_tok : list bytes) (t : bytes) (ret : bytes) (pos : Z) : run (bytes * Z) :=
  match a_tok with
  | [] => Some (ret, pos)
  | a :: a_tok =>
      '(ret, pos) ← (if bool_decide (a = t) then write_match ret pos a else Some (ret, pos));
      all_inner a_tok t ret pos
  end.

Fixpoint all_outer (a_tok p_tok : list bytes) (ret : bytes) (pos : Z) : run (bytes * Z) :=
  match p_tok with
  | [] => Some (ret, pos)
  | t :: p_tok =>
      '(ret, pos) ← all_inner a_tok t ret pos;
      all_outer a_tok p_tok ret pos
  end.

(** [ssh_find_all_matching]: the block returned; [None] inside is [NULL]. *)
Definition ssh_find_all_matching (available_list preferred_list : option bytes)
    : run (option bytes) :=
  match available_list, preferred_list with
  | Some available, Some preferred =>
      let max := Z.max (zlen available) (zlen preferred) in
      if alloc_fails (max + 1) then Some None else
      let ret := zrep (max + 1) Byte.x00 in
      match ssh_tokenize available_list comma with
      | None => Some None
      | Some a_tok =>
          match ssh_tokenize preferred_list comma with
          | None => Some None
          | Some p_tok =>
              '(ret, pos) ← all_outer a_tok p_tok ret 0;
              c ← mem_at ret 0;
              if Byte.eqb c Byte.x00 then Some None else Some (Some ret)
          end
      end
  | _, _ => Some None
  end.

(** [strncat (ret, s, n)] on texts. *)
Definition strncat (ret s : bytes) (n : Z) : bytes := ret ++ ztake n s.

(** The marking loop of [ssh_remove_duplicates]: [before] are the tokens
    [0 .. i - 1]. *)
Fixpoint should_copy (before toks : list bytes) : list bool :=
  match toks with
  | [] => []
  | t :: toks =>
      (if existsb (fun b => bool_decide (t = b)) before then false else 0 <? zlen t)
      :: should_copy (before ++ [t]) toks
  end.

(** The copying loop. *)
Fixpoint copy_loop (max_len : Z) (toks : list bytes) (marks : list bool) (ret : bytes)
    (need_comma : bool) : bytes * bool :=
  match toks, marks with
  | t :: toks, m :: marks =>
      if m then
        let ret := if need_comma then strncat ret [comma] (max_len - zlen ret - 1) else ret in
        let ret := strncat ret t (max_len - zlen ret - 1) in
        copy_loop max_len toks marks ret true
      else copy_loop max_len toks marks ret need_comma
  | _, _ => (ret, need_comma)
  end.

Definition ssh_remove_duplicates (list : option bytes) : option bytes :=
  match list with
  | None => None
  | Some l =>
      let max_len := zlen l in
      if max_len =? 0 then None else
      let max_len := max_len + 1 in
      match ssh_tokenize list comma with
      | None => None
      | Some toks =>
          if alloc_fails max_len then None else
          let marks := should_copy [] toks in
          if alloc_fails max_len then None else
          let '(ret, need_comma) := copy_loop max_len toks marks [] false in
          if need_comma then Some ret else None
      end
  end.

Definition ssh_append_without_duplicates (list appended_list : option bytes) : option bytes :=
  let concat_len := match list with Some l => zlen l | None => 0 end in
  let concat_len := concat_len + match appended_list with Some l => zlen l | None => 0 end in
  if concat_len =? 0 then None else
  let concat_len := concat_len + 2 in
  if alloc_fails concat_len then None else
  let concat := match list with
                | Some l => strncat l [comma] (concat_len - zlen l - 1)
                | None => []
                end in
  let concat := match appended_list with
                | Some l => strncat concat l (concat_len - zlen concat - 1)
                | None => concat
                end in
  ssh_remove_duplicates (Some concat).
End Definitions.

(** ** Splitting *)

(** The reference splitter, and what the array keeps of it: a last empty token
    is dropped (the loop stops at the end of the chain). *)
Fixpoint split_on (sep : byte) (s : bytes) : list bytes :=
  match s with
  | [] => [[]]
  | c :: s =>
      if Byte.eqb c sep then [] :: split_on sep s
      else match split_on sep s with
           | [] => [[c]]
           | t :: ts => (c :: t) :: ts
           end
  end.

Fixpoint drop_last_empty (ts : list bytes) : list bytes :=
  match ts with
  | [] => []
  | [x] => [x]
  | x :: ([[]]) => [x]
  | x :: ts => x :: drop_last_empty ts
  end.

Definition tokens_of (s : bytes) : list bytes := drop_last_empty (split_on comma s).

Fixpoint join (sep : byte) (ts : list bytes) : bytes :=
  match ts with
  | [] => []
  | [t] => t
  | t :: ts => t ++ sep :: join sep ts
  end.

Lemma split_on_cons sep s : exists t ts, split_on sep s = t :: ts.
Proof.
  induction s as [|c s (t & ts & IH)]; cbn [split_on]; [by do 2 eexists|].
  destruct (Byte.eqb c sep); [by do 2 eexists|]. rewrite IH. by do 2 eexists.
Qed.

Lemma strchr_none sep s : sep <> Byte.x00 -> strchr s sep = None -> split_on sep s = [s].
Proof.
  intros Hsep. induction s as [|c s IH]; cbn [strchr split_on]; [done|].
  destruct (Byte.eqb c sep); [done|]. destruct (strchr s sep); [done|]. intros _. by rewrite IH.
Qed.

Lemma strchr_some sep s k :
  sep <> Byte.x00 -> strchr s sep = Some k ->
  0 <= k < zlen s /\ split_on sep s = ztake k s :: split_on sep (zdrop (k + 1) s)
  /\ count_seps sep s = S (count_seps sep (zdrop (k + 1) s))
  /\ s = ztake k s ++ sep :: zdrop (k + 1) s.
Proof.
  intros Hsep. revert k. induction s as [|c s IH]; intros k; cbn [strchr split_on count_seps].
  - by rewrite (proj2 (byte_eqb_neq sep _)).
  - rewrite zlen_cons. pose proof (zlen_nonneg s). destruct (Byte.eqb c sep) eqn:Hc.
    + intros [= <-]. apply byte_eqb_eq in Hc as ->. split_and!; (lia || done).
    + destruct (strchr s sep) as [j|]; cbn [mbind option_bind]; intros [= <-].
      destruct (IH j eq_refl) as (Hj & Hs & Hn & Heq).
      assert (Ht : ztake (1 + j) (c :: s) = c :: ztake j s).
      { unfold ztake. by replace (Z.to_nat (1 + j)) with (S (Z.to_nat j)) by lia. }
      assert (Hd : zdrop (1 + j + 1) (c :: s) = zdrop (j + 1) s).
      { unfold zdrop. by replace (Z.to_nat (1 + j + 1)) with (S (Z.to_nat (j + 1))) by lia. }
      rewrite Ht, Hd, Hs. split_and!; [lia|lia|done|done|]. cbn [app]. by rewrite <- Heq.
Qed.

(** The two loops of [ssh_tokenize] split like the reference. *)
Lemma split_loop_spec sep n : forall c,
  sep <> Byte.x00 -> count_seps sep c = n -> split_loop n sep c = drop_last_empty (split_on sep c).
Proof.
  induction n as [|n IH]; intros c Hsep Hn; cbn [split_loop].
  - destruct (strchr c sep) as [k|] eqn:Hc.
    + destruct (strchr_some sep c k Hsep Hc) as (_ & _ & Hcnt & _). lia.
    + by rewrite (strchr_none sep c).
  - destruct (strchr c sep) as [k|] eqn:Hc; [|by rewrite (strchr_none sep c)].
    destruct (strchr_some sep c k Hsep Hc) as (_ & Hs & Hcnt & _). rewrite Hs.
    destruct (zdrop (k + 1) c) as [|x r] eqn:Hr; [done|]. rewrite IH by (done || lia).
    destruct (split_on_cons sep (x :: r)) as (t & ts & Ht). rewrite Ht.
    destruct t as [|y t], ts as [|t2 ts]; try done.
    cbn [split_on] in Ht. destruct (Byte.eqb x sep).
    + destruct (split_on_cons sep r) as (? & ? & Hx). rewrite Hx in Ht. done.
    + destruct (split_on_cons sep r) as (? & ? & Hx). rewrite Hx in Ht. done.
Qed.

Lemma join_split sep s : join sep (split_on sep s) = s.
Proof.
  induction s as [|c s IH]; cbn [split_on]; [done|].
  destruct (split_on_cons sep s) as (t & ts & Ht). rewrite Ht in *.
  destruct (Byte.eqb c sep) eqn:Hc.
  - apply byte_eqb_eq in Hc as ->. change (join sep ([] :: t :: ts)) with (sep :: join sep (t :: ts)).
    by rewrite IH.
  - destruct ts as [|t2 ts]; cbn [join app] in *; by rewrite <- IH.
Qed.

Lemma join_cons sep t ts : ts <> [] -> join sep (t :: ts) = t ++ sep :: join sep ts.
Proof. by destruct ts. Qed.

Lemma drop_last_empty_cons x y ts :
  (y = [] /\ ts = [] /\ drop_last_empty (x :: y :: ts) = [x])
  \/ drop_last_empty (x :: y :: ts) = x :: drop_last_empty (y :: ts).
Proof. destruct y as [|c y], ts as [|z ts]; auto. Qed.

Lemma drop_last_empty_ne y ts : drop_last_empty (y :: ts) <> [].
Proof. by destruct y, ts as [|[|??] [|??]]. Qed.

Lemma zlen_join_drop sep ts : zlen (join sep (drop_last_empty ts)) <= zlen (join sep ts).
Proof.
  induction ts as [|x ts IH]; [done|]. destruct ts as [|y ts]; [done|].
  destruct (drop_last_empty_cons x y ts) as [(-> & -> & ->)| ->]; [cbn; zlen_lia|].
  rewrite !join_cons by (done || apply drop_last_empty_ne). zlen_lia.
Qed.

Section Tokens.
Context `{Allocator}.

Lemma ssh_tokenize_spec chain toks :
  ssh_tokenize (Some chain) comma = Some toks -> toks = tokens_of chain.
Proof.
  unfold ssh_tokenize. intros Ht. repeat case_match; simplify_eq. by apply split_loop_spec.
Qed.

Lemma alloc_ok n : malloc_never_fails -> 0 <= n -> alloc_fails n = false.
Proof. intros Hm Hn. unfold alloc_fails. destruct (malloc n) eqn:E; [done|]. by apply Hm in E. Qed.
End Tokens.

(** ** Preferences *)

(** The first preferred token that is available. *)
Definition first_match (a p : bytes) : option bytes :=
  List.find (fun t => bool_decide (t ∈ tokens_of a)) (tokens_of p).

Lemma find_token_spec a_tok t :
  find_token a_tok t = if bool_decide (t ∈ a_tok) then Some t else None.
Proof.
  unfold find_token. induction a_tok as [|a l IH]; cbn [List.find]; [done|].
  destruct (decide (a = t)) as [->|Hne].
  - by rewrite !bool_decide_true by (done || apply elem_of_cons; by left).
  - rewrite bool_decide_false by done. rewrite IH.
    rewrite (bool_decide_ext (t ∈ l) (t ∈ a :: l)); [done|]. rewrite elem_of_cons. naive_solver.
Qed.

(** ** Removing duplicates *)

(** The first occurrences of the non-empty tokens, in order. *)
Fixpoint dedup (seen toks : list bytes) : list bytes :=
  match toks with
  | [] => []
  | t :: toks =>
      if bool_decide (t ∈ seen) || bool_decide (t = []) then dedup (seen ++ [t]) toks
      else t :: dedup (seen ++ [t]) toks
  end.

Lemma elem_of_dedup toks : forall seen t,
  t ∈ dedup seen toks <-> t ∈ toks /\ t <> [] /\ t ∉ seen.
Proof.
  induction toks as [|x toks IH]; intros seen t; cbn [dedup].
  { rewrite elem_of_nil. tauto. }
  destruct (bool_decide (x ∈ seen)) eqn:Hs; cbn [orb].
  - apply bool_decide_eq_true in Hs. rewrite IH, elem_of_app, list_elem_of_singleton, elem_of_cons.
    destruct (decide (t = x)) as [->|]; tauto.
  - apply bool_decide_eq_false in Hs. destruct (bool_decide (x = [])) eqn:He.
    + apply bool_decide_eq_true in He as ->.
      rewrite IH, elem_of_app, list_elem_of_singleton, elem_of_cons. tauto.
    + apply bool_decide_eq_false in He.
      rewrite !elem_of_cons, IH, elem_of_app, list_elem_of_singleton.
      destruct (decide (t = x)) as [->|]; tauto.
Qed.

Lemma dedup_nodup toks : forall seen, NoDup (dedup seen toks).
Proof.
  induction toks as [|x toks IH]; intros seen; cbn [dedup]; [constructor|].
  destruct (_ || _); [apply IH|]. constructor; [|apply IH].
  rewrite elem_of_dedup, elem_of_app, list_elem_of_singleton. tauto.
Qed.

Lemma dedup_sublist toks : forall seen, dedup seen toks `sublist_of` toks.
Proof.
  induction toks as [|x toks IH]; intros seen; cbn [dedup]; [done|].
  destruct (_ || _); by constructor.
Qed.

(** The tokens the marks select. *)
Fixpoint kept (toks : list bytes) (marks : list bool) : list bytes :=
  match toks, marks with
  | t :: toks, m :: marks => (if m then [t] else []) ++ kept toks marks
  | _, _ => []
  end.

Lemma kept_should_copy toks : forall seen, kept toks (should_copy seen toks) = dedup seen toks.
Proof.
  induction toks as [|t toks IH]; intros seen; cbn [should_copy kept dedup]; [done|]. rewrite IH.
  assert (Hex : existsb (fun b => bool_decide (t = b)) seen = bool_decide (t ∈ seen)).
  { induction seen as [|x seen IHs]; cbn [existsb]; [done|]. rewrite IHs.
    destruct (decide (t = x)) as [->|Hne].
    - rewrite (bool_decide_true (x = x)) by done. cbn [orb]. symmetry.
      apply bool_decide_eq_true, elem_of_cons. by left.
    - rewrite (bool_decide_false (t = x)) by done. cbn [orb]. apply bool_decide_ext.
      rewrite elem_of_cons. split; [by right|by intros [?|?]]. }
  rewrite Hex. destruct (bool_decide (t ∈ seen)); cbn [orb]; [done|].
  destruct t as [|c t]; [done|]. by rewrite bool_decide_false.
Qed.

(** Appending tokens with their commas. *)
Fixpoint glue (need_comma : bool) (ts : list bytes) : bytes :=
  match ts with
  | [] => []
  | t :: ts => (if need_comma then [comma] else []) ++ t ++ glue true ts
  end.

Lemma glue_join ts : glue false ts = join comma ts.
Proof.
  destruct ts as [|t ts]; [done|]. cbn [glue app]. revert t.
  induction ts as [|t2 ts IH]; intros t; cbn [glue join app]; [apply app_nil_r|].
  f_equal. f_equal. apply IH.
Qed.

Lemma strncat_fits ret s n : zlen s <= n -> strncat ret s n = ret ++ s.
Proof. intros. unfold strncat. by rewrite ztake_all. Qed.

(** Within the block, no [strncat] truncates. *)
Lemma copy_loop_spec max_len toks : forall marks ret nc,
  zlen ret + zlen (glue nc (kept toks marks)) <= max_len - 1 ->
  copy_loop max_len toks marks ret nc
  = (ret ++ glue nc (kept toks marks), nc || negb (bool_decide (kept toks marks = []))).
Proof.
  induction toks as [|t toks IH]; intros marks ret nc Hfit.
  - cbn. by rewrite app_nil_r, orb_false_r.
  - destruct marks as [|m marks]; [cbn; by rewrite app_nil_r, orb_false_r|].
    cbn [copy_loop kept] in *. destruct m; cbn [app glue] in *; [|by apply IH].
    autorewrite with zlist in Hfit. pose proof (zlen_nonneg t).
    pose proof (zlen_nonneg (glue true (kept toks marks))).
    assert (Hc : (if nc then strncat ret [comma] (max_len - zlen ret - 1) else ret)
      = ret ++ (if nc then [comma] else [])).
    { destruct nc; [|by rewrite app_nil_r]. apply strncat_fits.
      change (zlen [comma]) with 1 in *. lia. }
    rewrite Hc. rewrite (strncat_fits _ t) by zlen_lia. rewrite IH by zlen_lia.
    rewrite <- !app_assoc. f_equal. rewrite (bool_decide_false (t :: _ = [])) by done. by rewrite orb_true_r.
Qed.

Lemma sublist_glue_zlen l1 l2 : l1 `sublist_of` l2 -> forall nc, zlen (glue nc l1) <= zlen (glue nc l2).
Proof.
  assert (Hb : forall l, zlen (glue false l) <= zlen (glue true l)).
  { intros [|t l]; cbn [glue]; [lia|]. zlen_lia. }
  induction 1 as [|x l1 l2 _ IH|x l1 l2 _ IH]; intros nc; cbn [glue]; [lia| |].
  - specialize (IH true). zlen_lia.
  - specialize (IH true). pose proof (Hb l1). destruct nc; zlen_lia.
Qed.

Lemma zlen_tokens_of l : zlen (join comma (tokens_of l)) <= zlen l.
Proof.
  unfold tokens_of. pose proof (zlen_join_drop comma (split_on comma l)) as H.
  by rewrite join_split in H.
Qed.

(** Splitting the result of a join gives the tokens back. *)
Lemma split_on_app sep t s : sep ∉ t -> split_on sep (t ++ sep :: s) = t :: split_on sep s.
Proof.
  induction t as [|c t IH]; intros Ht; cbn [app split_on].
  - by rewrite byte_eqb_refl.
  - rewrite not_elem_of_cons in Ht. destruct Ht as [Hc Ht].
    rewrite (proj2 (byte_eqb_neq c sep)) by done. by rewrite IH.
Qed.

Lemma split_on_single sep t : sep ∉ t -> split_on sep t = [t].
Proof.
  induction t as [|c t IH]; intros Ht; cbn [split_on]; [done|].
  rewrite not_elem_of_cons in Ht. destruct Ht as [Hc Ht].
  rewrite (proj2 (byte_eqb_neq c sep)) by done. by rewrite IH.
Qed.

Lemma split_join sep ts : ts <> [] -> Forall (fun t => sep ∉ t) ts -> split_on sep (join sep ts) = ts.
Proof.
  intros Hne H. induction H as [|t ts Ht Hts IH]; [done|]. destruct ts as [|t2 ts].
  - by apply split_on_single.
  - rewrite join_cons, split_on_app by done. by rewrite IH.
Qed.

Lemma drop_last_empty_id ts : Forall (fun t => t <> []) ts -> drop_last_empty ts = ts.
Proof.
  induction 1 as [|t ts Ht Hts IH]; [done|]. destruct ts as [|t2 ts]; [done|].
  destruct (drop_last_empty_cons t t2 ts) as [(-> & _)| ->]; [by inversion Hts|]. by rewrite IH.
Qed.

Lemma tokens_of_join ts :
  ts <> [] -> Forall (fun t => t <> [] /\ comma ∉ t) ts -> tokens_of (join comma ts) = ts.
Proof.
  intros Hne H. unfold tokens_of. rewrite split_join; [|done|].
  - apply drop_last_empty_id. eapply Forall_impl; [exact H|]. naive_solver.
  - eapply Forall_impl; [exact H|]. naive_solver.
Qed.

Lemma split_on_no_sep sep s : Forall (fun t => sep ∉ t) (split_on sep s).
Proof.
  assert (Hnil : sep ∉ []) by apply not_elem_of_nil.
  induction s as [|c s IH]; cbn [split_on]; [by repeat constructor|].
  destruct (Byte.eqb c sep) eqn:Hc; [by constructor|].
  apply byte_eqb_neq in Hc. destruct (split_on_cons sep s) as (t & ts & Ht). rewrite Ht in *.
  inversion IH; subst. constructor; [|done]. by rewrite not_elem_of_cons.
Qed.

Lemma drop_last_empty_sublist ts : drop_last_empty ts `sublist_of` ts.
Proof.
  induction ts as [|x ts IH]; [done|]. destruct ts as [|y ts]; [done|].
  destruct (drop_last_empty_cons x y ts) as [(-> & -> & ->)| ->].
  - by repeat constructor.
  - by constructor.
Qed.

Lemma tokens_no_comma l t : t ∈ tokens_of l -> comma ∉ t.
Proof.
  intros Ht. pose proof (split_on_no_sep comma l) as H. rewrite Forall_forall in H. apply H.
  eapply elem_of_sublist; [exact Ht|]. apply drop_last_empty_sublist.
Qed.

Lemma tokens_of_nil_l : tokens_of [] = [[]].
Proof. done. Qed.

Lemma dedup_spec_tokens l :
  Forall (fun t => t <> [] /\ comma ∉ t) (dedup [] (tokens_of l)).
Proof.
  apply Forall_forall. intros t Ht. apply elem_of_dedup in Ht as (Hin & Hne & _).
  split; [done|]. by eapply tokens_no_comma.
Qed.

(** A list without duplicates or empty tokens is left alone. *)
Lemma dedup_id toks : forall seen,
  NoDup toks -> Forall (fun t => t <> [] /\ t ∉ seen) toks -> dedup seen toks = toks.
Proof.
  induction toks as [|t toks IH]; intros seen Hnd Hall; cbn [dedup]; [done|].
  inversion Hnd; subst. inversion Hall as [|?? [Hne Hs] Hr]; subst.
  rewrite !bool_decide_false by done. cbn [orb]. f_equal. apply IH; [done|].
  rewrite Forall_forall in Hr |- *. intros x Hx. destruct (Hr x Hx) as [? ?].
  split; [done|]. rewrite elem_of_app, list_elem_of_singleton.
  intros [?| ->]; done.
Qed.

(** ** All the matches *)

(** The text [ssh_find_all_matching] builds, a match at a time. *)
Definition emit (acc t : bytes) : bytes := (if bool_decide (acc = []) then [] else acc ++ [comma]) ++ t.

(** A block that holds the text [s] and then zeros. *)
Definition padded (s : bytes) (max : Z) : bytes := s ++ zrep (max + 1 - zlen s) Byte.x00.

Lemma zrep_split n m : 0 <= m <= n -> zrep n Byte.x00 = zrep m Byte.x00 ++ zrep (n - m) Byte.x00.
Proof.
  intros. unfold zrep. rewrite <- replicate_add. f_equal. lia.
Qed.

Lemma memcpy_padded s t n max : n = zlen t -> zlen s + n <= max + 1 ->
  memcpy (padded s max) (zlen s) t 0 n = Some (s ++ t ++ zrep (max + 1 - zlen s - n) Byte.x00).
Proof.
  intros -> Hfit. unfold padded. pose proof (zlen_nonneg s). pose proof (zlen_nonneg t).
  rewrite memcpy_ok by zlen_lia. f_equal.
  rewrite ztake_app_le, ztake_all by zlen_lia. f_equal.
  rewrite zdrop_0, ztake_all by zlen_lia. f_equal.
  rewrite (zrep_split (max + 1 - zlen s) (zlen t)), app_assoc by lia.
  rewrite zdrop_app_ge, zdrop_0 by zlen_lia. done.
Qed.

Lemma memcpy_padded_app s t n max : n = zlen t -> zlen s + n <= max + 1 ->
  memcpy (padded s max) (zlen s) t 0 n = Some (padded (s ++ t) max).
Proof.
  intros -> Hfit. rewrite memcpy_padded by done. unfold padded. rewrite <- app_assoc.
  do 4 f_equal. zlen_lia.
Qed.

Lemma memcpy_padded_nul s max : zlen s <= max ->
  memcpy (padded s max) (zlen s) [Byte.x00] 0 1 = Some (padded s max).
Proof.
  intros Hfit. rewrite memcpy_padded by (done || lia). unfold padded. do 2 f_equal.
  rewrite (zrep_split (max + 1 - zlen s) 1) by lia. done.
Qed.

Lemma write_match_ok s t max : zlen (emit s t) <= max ->
  write_match (padded s max) (zlen s) t = Some (padded (emit s t) max, zlen (emit s t)).
Proof.
  unfold emit. pose proof (zlen_nonneg s) as Hs. pose proof (zlen_nonneg t) as Ht.
  intros Hfit. unfold write_match.
  assert (Hw : forall s', zlen s' + zlen t <= max ->
    (ret ← memcpy (padded s' max) (zlen s') t 0 (zlen t);
     let pos := zlen s' + zlen t in
     ret ← memcpy ret pos [Byte.x00] 0 1; Some (ret, pos))
    = Some (padded (s' ++ t) max, zlen (s' ++ t))).
  { intros s' Hs'. rewrite memcpy_padded_app by (done || lia). cbn [mbind option_bind].
    replace (zlen s' + zlen t) with (zlen (s' ++ t)) by zlen_lia.
    by rewrite memcpy_padded_nul by zlen_lia. }
  destruct (decide (s = [])) as [->|Hne].
  - rewrite bool_decide_true in * by done. cbn [app] in *. apply (Hw []). exact Hfit.
  - rewrite bool_decide_false in * by done.
    assert (Hpos : (zlen s =? 0) = false).
    { destruct s; [done|]. rewrite zlen_cons. pose proof (zlen_nonneg s). lia. }
    assert (H1 : zlen [comma] = 1) by done. autorewrite with zlist in Hfit.
    rewrite Hpos. cbn [negb]. rewrite memcpy_padded_app by (done || lia). cbn [mbind option_bind].
    replace (zlen s + 1) with (zlen (s ++ [comma])) by (autorewrite with zlist; lia).
    apply (Hw (s ++ [comma])). autorewrite with zlist in *. lia.
Qed.

Lemma all_inner_skip a_tok t ret pos : t ∉ a_tok -> all_inner a_tok t ret pos = Some (ret, pos).
Proof.
  induction a_tok as [|a l IH]; intros Hn; cbn [all_inner]; [done|].
  rewrite not_elem_of_cons in Hn. destruct Hn as [Ha Hl].
  rewrite bool_decide_false by congruence. by apply IH.
Qed.

Lemma all_inner_spec a_tok t s max :
  NoDup a_tok -> (t ∈ a_tok -> zlen (emit s t) <= max) ->
  all_inner a_tok t (padded s max) (zlen s)
  = let s' := if bool_decide (t ∈ a_tok) then emit s t else s in Some (padded s' max, zlen s').
Proof.
  induction a_tok as [|a l IH]; intros Hnd Hfit; [done|]. inversion Hnd; subst.
  cbn [all_inner]. destruct (decide (a = t)) as [->|Hne].
  - rewrite !(bool_decide_true _) by (done || apply elem_of_cons; by left).
    rewrite write_match_ok by (apply Hfit, elem_of_cons; by left). cbn [mbind option_bind].
    by apply all_inner_skip.
  - rewrite bool_decide_false by done. cbn [mbind option_bind]. rewrite IH.
    + rewrite (bool_decide_ext (t ∈ l) (t ∈ a :: l)); [done|]. rewrite elem_of_cons. naive_solver.
    + done.
    + intros Hin. apply Hfit, elem_of_cons. by right.
Qed.

Lemma zlen_emit s t : zlen s <= zlen (emit s t).
Proof.
  unfold emit. pose proof (zlen_nonneg t). destruct (decide (s = [])) as [->|Hne].
  - rewrite bool_decide_true by done. zlen_lia.
  - rewrite bool_decide_false by done. zlen_lia.
Qed.

Lemma zlen_emits ts : forall s, zlen s <= zlen (fold_left emit ts s).
Proof.
  induction ts as [|t ts IH]; intros s; cbn [fold_left]; [lia|].
  pose proof (zlen_emit s t). pose proof (IH (emit s t)). lia.
Qed.

Lemma zlen_emits_glue ts : forall s,
  zlen (fold_left emit ts s) <= zlen s + zlen (glue (negb (bool_decide (s = []))) ts).
Proof.
  assert (Hb : forall b l, zlen (glue b l) <= zlen (glue true l)).
  { intros b [|t l]; cbn [glue]; [lia|]. destruct b; zlen_lia. }
  induction ts as [|t ts IH]; intros s; cbn [fold_left glue]; [zlen_lia|].
  pose proof (IH (emit s t)) as IHe. pose proof (Hb (negb (bool_decide (emit s t = []))) ts) as Hbe.
  assert (He : zlen (emit s t)
    = zlen s + zlen (if negb (bool_decide (s = [])) then [comma] else []) + zlen t).
  { unfold emit. destruct (decide (s = [])) as [->|Hne].
    - rewrite bool_decide_true by done. cbn [negb]. zlen_lia.
    - rewrite bool_decide_false by done. cbn [negb]. zlen_lia. }
  autorewrite with zlist in *. lia.
Qed.

(** The tokens of [p] that are in [a], in order. *)
Definition matches (a p : list bytes) : list bytes := List.filter (fun t => bool_decide (t ∈ a)) p.

Lemma matches_sublist a p : matches a p `sublist_of` p.
Proof.
  induction p as [|t p IH]; cbn [matches List.filter]; [done|].
  destruct (bool_decide _); by constructor.
Qed.

Lemma all_outer_spec a_tok p_tok max : NoDup a_tok -> forall s,
  zlen (fold_left emit (matches a_tok p_tok) s) <= max ->
  all_outer a_tok p_tok (padded s max) (zlen s)
  = let s' := fold_left emit (matches a_tok p_tok) s in Some (padded s' max, zlen s').
Proof.
  intros Hnd. induction p_tok as [|t p IH]; intros s Hfit; [done|].
  cbn [all_outer matches List.filter] in *. rewrite all_inner_spec; [|done|].
  - cbn [mbind option_bind]. destruct (bool_decide (t ∈ a_tok)); cbn [fold_left] in *; by apply IH.
  - intros Hin. rewrite bool_decide_true in Hfit by done. cbn [fold_left] in Hfit.
    pose proof (zlen_emits (matches a_tok p) (emit s t)) as He. unfold matches in *. lia.
Qed.

Lemma split_on_incl sep s t x : t ∈ split_on sep s -> x ∈ t -> x ∈ s.
Proof.
  revert t. induction s as [|c s IH]; intros t; cbn [split_on].
  - rewrite list_elem_of_singleton. by intros ->.
  - rewrite (elem_of_cons s). destruct (Byte.eqb c sep).
    + rewrite elem_of_cons. intros [-> | Ht] Hx; [by apply not_elem_of_nil in Hx|].
      right. by eapply IH.
    + destruct (split_on_cons sep s) as (t0 & ts & He). rewrite He in *.
      rewrite elem_of_cons. intros [-> | Ht] Hx.
      * apply elem_of_cons in Hx as [->|Hx]; [by left|]. right. apply (IH t0); [|done].
        apply elem_of_cons. by left.
      * right. apply (IH t); [|done]. apply elem_of_cons. by right.
Qed.

Lemma emits_cstr ts : forall s,
  is_cstr s -> Forall is_cstr ts -> is_cstr (fold_left emit ts s).
Proof.
  induction ts as [|t ts IH]; intros s Hs Hts; cbn [fold_left]; [done|].
  inversion Hts; subst. apply IH; [|done]. unfold emit, is_cstr.
  destruct (bool_decide (s = [])); rewrite ?elem_of_app, ?list_elem_of_singleton; [|].
  - intros [?%not_elem_of_nil|?]; done.
  - intros [[?|?]|?]; done.
Qed.

Lemma tokens_cstr p a : is_cstr p -> Forall is_cstr (matches a (tokens_of p)).
Proof.
  intros Hp. apply Forall_forall. intros t Ht Hx. apply Hp.
  assert (Hin : t ∈ split_on comma p).
  { eapply elem_of_sublist; [|apply drop_last_empty_sublist].
    eapply elem_of_sublist; [exact Ht|apply matches_sublist]. }
  by eapply split_on_incl.
Qed.

Section Theorems.
Context `{Allocator}.

(** The code's own terms, with all its allocations granted. *)
Lemma ssh_tokenize_ok chain : malloc_never_fails ->
  ssh_tokenize (Some chain) comma = Some (tokens_of chain).
Proof.
  intros Hm. unfold ssh_tokenize, sizeof_tokens, sizeof_ptr. pose proof (zlen_nonneg chain).
  rewrite !alloc_ok by (done || lia). by rewrite split_loop_spec.
Qed.

(** [ssh_remove_duplicates] returns the first occurrences, comma separated,
    and [NULL] when there is none. *)
Lemma ssh_remove_duplicates_spec l ret :
  ssh_remove_duplicates (Some l) = Some ret ->
  dedup [] (tokens_of l) <> [] /\ ret = join comma (dedup [] (tokens_of l)).
Proof.
  unfold ssh_remove_duplicates. destruct (zlen l =? 0); [done|].
  destruct (ssh_tokenize (Some l) comma) as [toks|] eqn:Ht; [|done].
  apply ssh_tokenize_spec in Ht as ->. destruct (alloc_fails _); [done|].
  rewrite copy_loop_spec.
  - rewrite kept_should_copy, glue_join. cbn [orb app].
    destruct (decide (dedup [] (tokens_of l) = [])) as [He|He].
    + by rewrite bool_decide_true.
    + rewrite bool_decide_false by done. by intros [= <-].
  - rewrite kept_should_copy. pose proof (sublist_glue_zlen _ _ (dedup_sublist (tokens_of l) []) false).
    pose proof (zlen_tokens_of l) as Hl. rewrite <- glue_join in Hl. zlen_lia.
Qed.

Lemma ssh_remove_duplicates_ok l : malloc_never_fails -> dedup [] (tokens_of l) <> [] ->
  ssh_remove_duplicates (Some l) = Some (join comma (dedup [] (tokens_of l))).
Proof.
  intros Hm Hne. destruct (ssh_remove_duplicates (Some l)) as [ret|] eqn:E.
  { by apply ssh_remove_duplicates_spec in E as [_ ->]. }
  exfalso. revert E. unfold ssh_remove_duplicates. pose proof (zlen_nonneg l).
  destruct (Z.eqb_spec (zlen l) 0) as [Hz|Hz].
  { exfalso. apply Hne. destruct l; [done|]. rewrite zlen_cons in Hz. pose proof (zlen_nonneg l). lia. }
  rewrite ssh_tokenize_ok, alloc_ok by (done || lia). rewrite copy_loop_spec.
  - rewrite kept_should_copy. by rewrite (bool_decide_false (dedup _ _ = [])).
  - rewrite kept_should_copy. pose proof (sublist_glue_zlen _ _ (dedup_sublist (tokens_of l) []) false).
    pose proof (zlen_tokens_of l) as Hl. rewrite <- glue_join in Hl. zlen_lia.
Qed.

Lemma ssh_append_concat a b :
  ssh_append_without_duplicates (Some a) (Some b)
  = if (zlen a + zlen b =? 0) then None
    else if alloc_fails (zlen a + zlen b + 2) then None
    else ssh_remove_duplicates (Some (a ++ comma :: b)).
Proof.
  unfold ssh_append_without_duplicates.
  destruct (zlen a + zlen b =? 0); [done|]. destruct (alloc_fails _); [done|].
  rewrite (strncat_fits a) by (change (zlen [comma]) with 1; zlen_lia).
  rewrite strncat_fits by (autorewrite with zlist; change (zlen [comma]) with 1; zlen_lia).
  by rewrite <- app_assoc.
Qed.
End Theorems.

(** ** The properties *)

Section Properties.
Context `{Allocator}.

Lemma first_match_spec a p :
  match first_match a p with
  | Some t => exists before after, tokens_of p = before ++ t :: after
      /\ t ∈ tokens_of a /\ Forall (fun u => u ∉ tokens_of a) before
  | None => Forall (fun u => u ∉ tokens_of a) (tokens_of p)
  end.
Proof.
  unfold first_match. induction (tokens_of p) as [|t ts IH]; cbn [List.find]; [constructor|].
  destruct (decide (t ∈ tokens_of a)) as [Hin|Hin].
  - rewrite bool_decide_true by done. by exists [], ts.
  - rewrite bool_decide_false by done. destruct (List.find _ ts) as [u|].
    + destruct IH as (before & after & -> & Hu & Hb). exists (t :: before), after.
      split_and!; [done|done|]. by constructor.
    + by constructor.
Qed.

Lemma ssh_find_matching_first a p :
  malloc_never_fails -> ssh_find_matching (Some a) (Some p) = first_match a p.
Proof.
  intros Hm. unfold ssh_find_matching, first_match. rewrite !ssh_tokenize_ok by done.
  induction (tokens_of p) as [|t ts IH]; cbn [match_loop List.find]; [done|].
  rewrite find_token_spec. destruct (decide (t ∈ tokens_of a)) as [Hin|Hin].
  - rewrite bool_decide_true by done. unfold strdup. pose proof (zlen_nonneg t).
    by rewrite alloc_ok by (done || lia).
  - by rewrite bool_decide_false.
Qed.

(** [ssh_find_matching] returns the first token of the preferred list that
    the available list has, and [NULL] exactly when no preferred token is
    available. *)
Theorem find_matching_first_preferred a p :
  malloc_never_fails ->
  match ssh_find_matching (Some a) (Some p) with
  | Some t => exists before after, tokens_of p = before ++ t :: after
      /\ t ∈ tokens_of a /\ Forall (fun u => u ∉ tokens_of a) before
  | None => Forall (fun u => u ∉ tokens_of a) (tokens_of p)
  end.
Proof. intros Hm. rewrite ssh_find_matching_first by done. apply first_match_spec. Qed.

(** [ssh_remove_duplicates] keeps exactly the non-empty tokens of its list,
    once each, in the order of their first occurrences, in a text that is not
    longer (the bounded copies never truncate); applied to its own result it
    changes nothing. *)
Theorem remove_duplicates_correct l r :
  malloc_never_fails ->
  ssh_remove_duplicates (Some l) = Some r ->
  NoDup (tokens_of r) /\ tokens_of r `sublist_of` tokens_of l
  /\ (forall t, t ∈ tokens_of r <-> t ∈ tokens_of l /\ t <> [])
  /\ zlen r <= zlen l /\ ssh_remove_duplicates (Some r) = Some r.
Proof.
  intros Hm Hr. apply ssh_remove_duplicates_spec in Hr as [Hne ->].
  pose proof (dedup_spec_tokens l) as Hall. pose proof (tokens_of_join _ Hne Hall) as Ht.
  pose proof (dedup_nodup (tokens_of l) []) as Hnd.
  rewrite Ht. split_and!; [done|apply dedup_sublist| | |].
  - intros t. rewrite elem_of_dedup. pose proof (not_elem_of_nil t). tauto.
  - pose proof (sublist_glue_zlen _ _ (dedup_sublist (tokens_of l) []) false) as Hs.
    rewrite !glue_join in Hs. pose proof (zlen_tokens_of l). lia.
  - assert (Hid : dedup [] (dedup [] (tokens_of l)) = dedup [] (tokens_of l)).
    { apply dedup_id; [done|]. eapply Forall_impl; [exact Hall|]. cbn. intros t [? _].
      split; [done|apply not_elem_of_nil]. }
    rewrite ssh_remove_duplicates_ok by (rewrite ?Ht, ?Hid; done). by rewrite Ht, Hid.
Qed.
End Properties.

Lemma find_matching_first_preferred_witness :
  let a := cstr "diffie-hellman-group1-sha1,curve25519-sha256" in
  let p := cstr "ecdh-sha2-nistp256,curve25519-sha256" in
  match @ssh_find_matching calloc_allocator (Some a) (Some p) with
  | Some t => exists before after, tokens_of p = before ++ t :: after
      /\ t ∈ tokens_of a /\ Forall (fun u => u ∉ tokens_of a) before
  | None => Forall (fun u => u ∉ tokens_of a) (tokens_of p)
  end.
Proof. intros a p. apply (@find_matching_first_preferred calloc_allocator a p). intros ? ?. discriminate. Defined.

Lemma remove_duplicates_correct_witness :
  let r := cstr "b,a,c" in
  NoDup (tokens_of r) /\ tokens_of r `sublist_of` tokens_of (cstr "b,a,,b,c,a")
  /\ (forall t, t ∈ tokens_of r <-> t ∈ tokens_of (cstr "b,a,,b,c,a") /\ t <> [])
  /\ zlen r <= zlen (cstr "b,a,,b,c,a") /\ @ssh_remove_duplicates calloc_allocator (Some r) = Some r.
Proof.
  intros r. apply (@remove_duplicates_correct calloc_allocator (cstr "b,a,,b,c,a") r).
  - intros ? ?. discriminate.
  - by vm_compute.
Defined.

Section MoreProperties.
Context `{Allocator}.

(** When the available list has no duplicate, [ssh_find_all_matching] stays
    within its block of [max + 1] bytes and leaves in it the preferred tokens
    that are available, in the order of preference, comma separated and
    terminated; it returns [NULL] when that text is empty. *)
Theorem find_all_matching_safe a p :
  malloc_never_fails -> NoDup (tokens_of a) -> is_cstr p ->
  let text := fold_left emit (matches (tokens_of a) (tokens_of p)) [] in
  let max := Z.max (zlen a) (zlen p) in
  zlen text <= zlen p
  /\ ssh_find_all_matching (Some a) (Some p)
     = Some (if bool_decide (text = []) then None else Some (padded text max)).
Proof.
  intros Hm Hnd Hp text max. pose proof (zlen_nonneg a). pose proof (zlen_nonneg p).
  assert (Hlen : zlen text <= zlen p).
  { pose proof (zlen_emits_glue (matches (tokens_of a) (tokens_of p)) []) as Hg1.
    pose proof (sublist_glue_zlen _ _ (matches_sublist (tokens_of a) (tokens_of p)) false) as Hg2.
    rewrite (glue_join (tokens_of p)) in Hg2. pose proof (zlen_tokens_of p).
    rewrite bool_decide_true in Hg1 by done. cbn [negb] in Hg1. change (@zlen byte []) with 0 in Hg1.
    unfold text. lia. }
  split; [done|]. unfold ssh_find_all_matching. fold max. rewrite alloc_ok by (done || lia).
  rewrite !ssh_tokenize_ok by done.
  assert (Hz : zrep (max + 1) Byte.x00 = padded [] max).
  { unfold padded. cbn [app]. by rewrite zlen_nil, Z.sub_0_r. }
  rewrite Hz. pose proof (all_outer_spec (tokens_of a) (tokens_of p) max Hnd []) as Ho.
  rewrite zlen_nil in Ho. rewrite Ho by (fold text; lia). cbv zeta. fold text.
  cbn [mbind option_bind]. destruct (decide (text = [])) as [He|Hne].
  - rewrite bool_decide_true by done. rewrite He. unfold padded. cbn [app].
    change (@zlen byte []) with 0. rewrite (zrep_split _ 1) by lia. done.
  - rewrite bool_decide_false by done. unfold padded.
    assert (Hc : is_cstr text).
    { apply emits_cstr; [apply not_elem_of_nil|by apply tokens_cstr]. }
    destruct text as [|c t]; [done|]. unfold mem_at. cbn [Z.ltb Z.compare].
    change ((c :: t) ++ zrep (max + 1 - zlen (c :: t)) Byte.x00) with
      (c :: t ++ zrep (max + 1 - zlen (c :: t)) Byte.x00).
    change (Z.to_nat 0) with 0%nat. rewrite lookup_cons. cbn [mbind option_bind].
    unfold is_cstr in Hc. rewrite not_elem_of_cons in Hc. destruct Hc as [Hc _].
    by rewrite (proj2 (byte_eqb_neq c _)) by done.
Qed.
End MoreProperties.

Lemma find_all_matching_safe_witness :
  let a := cstr "ssh-rsa,ssh-ed25519,ssh-dss" in
  let p := cstr "ssh-ed25519,x509,ssh-rsa" in
  let text := cstr "ssh-ed25519,ssh-rsa" in
  zlen text <= zlen p
  /\ @ssh_find_all_matching calloc_allocator (Some a) (Some p) = Some (Some (padded text 27)).
Proof.
  apply (@find_all_matching_safe calloc_allocator
           (cstr "ssh-rsa,ssh-ed25519,ssh-dss") (cstr "ssh-ed25519,x509,ssh-rsa")).
  - intros ? ?. discriminate.
  - apply (bool_decide_unpack _). vm_compute. exact I.
  - apply (bool_decide_unpack _). vm_compute. exact I.
Defined.

(** When both lists repeat a token, the quadratic number of matches runs past
    the block, which is sized for the longer list: a heap overflow. *)
Theorem find_all_matching_overflow :
  @ssh_find_all_matching calloc_allocator (Some (cstr "a,a,a")) (Some (cstr "a,a,a")) = None.
Proof. vm_compute. reflexivity. Qed.

Lemma split_on_append sep a b : split_on sep (a ++ sep :: b) = split_on sep a ++ split_on sep b.
Proof.
  induction a as [|c a IH]; cbn [app split_on]; [by rewrite byte_eqb_refl|]. rewrite IH.
  destruct (Byte.eqb c sep); [done|]. destruct (split_on_cons sep a) as (t & ts & ->). done.
Qed.

Lemma dedup_drop_last ts : forall seen, dedup seen (drop_last_empty ts) = dedup seen ts.
Proof.
  induction ts as [|x ts IH]; intros seen; [done|]. destruct ts as [|y ts]; [done|].
  destruct (drop_last_empty_cons x y ts) as [(-> & -> & ->)| ->].
  - cbn [dedup]. rewrite (bool_decide_true ([] = [])), orb_true_r by done. done.
  - cbn [dedup] in *. by rewrite !IH.
Qed.

Lemma dedup_app ts1 ts2 : forall seen,
  dedup seen (ts1 ++ ts2) = dedup seen ts1 ++ dedup (seen ++ ts1) ts2.
Proof.
  induction ts1 as [|t ts1 IH]; intros seen; cbn [app dedup]; [by rewrite app_nil_r|].
  rewrite !IH. rewrite <- !app_assoc. cbn [app]. by destruct (_ || _).
Qed.

(** Splitting both lists and splitting their concatenation select the same. *)
Lemma dedup_append a b :
  dedup [] (tokens_of (a ++ comma :: b))
  = dedup [] (tokens_of a) ++ dedup (split_on comma a) (tokens_of b).
Proof. unfold tokens_of. by rewrite !dedup_drop_last, split_on_append, dedup_app. Qed.

Lemma elem_of_tokens s t : t <> [] -> t ∈ tokens_of s <-> t ∈ split_on comma s.
Proof.
  intros Hne. pose proof (elem_of_dedup (tokens_of s) [] t) as H1.
  pose proof (elem_of_dedup (split_on comma s) [] t) as H2.
  unfold tokens_of in *. rewrite dedup_drop_last in H1. pose proof (not_elem_of_nil t). tauto.
Qed.

Lemma elem_of_tokens_append a b t : t <> [] ->
  t ∈ tokens_of (a ++ comma :: b) <-> t ∈ tokens_of a \/ t ∈ tokens_of b.
Proof. intros Hne. by rewrite !elem_of_tokens, split_on_append, elem_of_app by done. Qed.

Section Append.
Context `{Allocator}.

(** [ssh_append_without_duplicates] keeps the distinct non-empty tokens of the
    first list first, in their order, then those that only the second has. *)
Theorem append_without_duplicates_correct a b r :
  malloc_never_fails ->
  ssh_append_without_duplicates (Some a) (Some b) = Some r ->
  (exists rest, tokens_of r = dedup [] (tokens_of a) ++ rest
     /\ rest `sublist_of` tokens_of b)
  /\ NoDup (tokens_of r)
  /\ (forall t, t ∈ tokens_of r <-> (t ∈ tokens_of a \/ t ∈ tokens_of b) /\ t <> []).
Proof.
  intros Hm. rewrite ssh_append_concat. destruct (_ =? 0); [done|]. destruct (alloc_fails _); [done|].
  intros [Hne ->]%ssh_remove_duplicates_spec.
  rewrite tokens_of_join by (done || apply dedup_spec_tokens).
  split_and!.
  - rewrite dedup_append. eexists. split; [done|]. apply dedup_sublist.
  - apply dedup_nodup.
  - intros t. rewrite elem_of_dedup. pose proof (not_elem_of_nil t).
    pose proof (elem_of_tokens_append a b t). tauto.
Qed.
End Append.

Lemma append_without_duplicates_correct_witness :
  let r := cstr "b,a,c" in
  (exists rest, tokens_of r = dedup [] (tokens_of (cstr "b,a")) ++ rest
     /\ rest `sublist_of` tokens_of (cstr "a,c,b"))
  /\ NoDup (tokens_of r)
  /\ (forall t, t ∈ tokens_of r
        <-> (t ∈ tokens_of (cstr "b,a") \/ t ∈ tokens_of (cstr "a,c,b")) /\ t <> []).
Proof.
  intros r.
  apply (@append_without_duplicates_correct calloc_allocator (cstr "b,a") (cstr "a,c,b") r).
  - intros ? ?. discriminate.
  - by vm_compute.
Defined.
