(* ===== verification/Session.v ===== *)
(** * The protocol state of a session ([libssh/include/libssh/session.h])

    The enumerations of the state machine and the part of
    [struct ssh_session_struct] that the packet filter, the packet handlers and
    the connection callbacks read and write, with the numbers of
    [libssh/include/libssh/ssh2.h]. *)

From S2P Require Import Prelude.

(** ** Enumerations *)

Inductive ssh_session_state_e :=
  | SSH_SESSION_STATE_NONE
  | SSH_SESSION_STATE_CONNECTING
  | SSH_SESSION_STATE_SOCKET_CONNECTED
  | SSH_SESSION_STATE_BANNER_RECEIVED
  | SSH_SESSION_STATE_INITIAL_KEX
  | SSH_SESSION_STATE_KEXINIT_RECEIVED
  | SSH_SESSION_STATE_DH
  | SSH_SESSION_STATE_AUTHENTICATING
  | SSH_SESSION_STATE_AUTHENTICATED
  | SSH_SESSION_STATE_ERROR
  | SSH_SESSION_STATE_DISCONNECTED.

#[export] Instance ssh_session_state_eq : EqDecision ssh_session_state_e.
Proof. solve_decision. Defined.

Inductive ssh_dh_state_e :=
  | DH_STATE_INIT
  | DH_STATE_GROUP_SENT
  | DH_STATE_REQUEST_SENT
  | DH_STATE_INIT_SENT
  | DH_STATE_NEWKEYS_SENT
  | DH_STATE_FINISHED.

#[export] Instance ssh_dh_state_eq : EqDecision ssh_dh_state_e.
Proof. solve_decision. Defined.

Inductive ssh_channel_request_state_e :=
  | SSH_CHANNEL_REQ_STATE_NONE
  | SSH_CHANNEL_REQ_STATE_PENDING
  | SSH_CHANNEL_REQ_STATE_ACCEPTED
  | SSH_CHANNEL_REQ_STATE_DENIED
  | SSH_CHANNEL_REQ_STATE_ERROR.

#[export] Instance ssh_channel_request_state_eq : EqDecision ssh_channel_request_state_e.
Proof. solve_decision. Defined.

Inductive ssh_auth_service_state_e :=
  | SSH_AUTH_SERVICE_NONE
  | SSH_AUTH_SERVICE_SENT
  | SSH_AUTH_SERVICE_ACCEPTED
  | SSH_AUTH_SERVICE_DENIED.

#[export] Instance ssh_auth_service_state_eq : EqDecision ssh_auth_service_state_e.
Proof. solve_decision. Defined.

Inductive ssh_auth_state_e :=
  | SSH_AUTH_STATE_NONE
  | SSH_AUTH_STATE_PARTIAL
  | SSH_AUTH_STATE_SUCCESS
  | SSH_AUTH_STATE_FAILED
  | SSH_AUTH_STATE_ERROR
  | SSH_AUTH_STATE_INFO
  | SSH_AUTH_STATE_PK_OK
  | SSH_AUTH_STATE_KBDINT_SENT
  | SSH_AUTH_STATE_GSSAPI_REQUEST_SENT
  | SSH_AUTH_STATE_GSSAPI_TOKEN
  | SSH_AUTH_STATE_GSSAPI_MIC_SENT
  | SSH_AUTH_STATE_PUBKEY_OFFER_SENT
  | SSH_AUTH_STATE_PUBKEY_AUTH_SENT
  | SSH_AUTH_STATE_PASSWORD_AUTH_SENT
  | SSH_AUTH_STATE_AUTH_NONE_SENT.

#[export] Instance ssh_auth_state_eq : EqDecision ssh_auth_state_e.
Proof. solve_decision. Defined.

Definition SSH_SESSION_FLAG_BLOCKING : Z := 1.
Definition SSH_SESSION_FLAG_AUTHENTICATED : Z := 2.

(** ** Message numbers *)

Definition SSH2_MSG_DISCONNECT : Z := 1.
Definition SSH2_MSG_IGNORE : Z := 2.
Definition SSH2_MSG_UNIMPLEMENTED : Z := 3.
Definition SSH2_MSG_DEBUG : Z := 4.
Definition SSH2_MSG_SERVICE_REQUEST : Z := 5.
Definition SSH2_MSG_SERVICE_ACCEPT : Z := 6.
Definition SSH2_MSG_EXT_INFO : Z := 7.
Definition SSH2_MSG_KEXINIT : Z := 20.
Definition SSH2_MSG_NEWKEYS : Z := 21.
Definition SSH2_MSG_KEXDH_INIT : Z := 30.
Definition SSH2_MSG_KEXDH_REPLY : Z := 31.
Definition SSH2_MSG_KEX_DH_GEX_INIT : Z := 32.
Definition SSH2_MSG_KEX_DH_GEX_REPLY : Z := 33.
Definition SSH2_MSG_KEX_DH_GEX_REQUEST : Z := 34.
Definition SSH2_MSG_USERAUTH_REQUEST : Z := 50.
Definition SSH2_MSG_USERAUTH_FAILURE : Z := 51.
Definition SSH2_MSG_USERAUTH_SUCCESS : Z := 52.
Definition SSH2_MSG_USERAUTH_BANNER : Z := 53.
Definition SSH2_MSG_USERAUTH_PK_OK : Z := 60.
Definition SSH2_MSG_USERAUTH_INFO_RESPONSE : Z := 61.
Definition SSH2_MSG_USERAUTH_GSSAPI_EXCHANGE_COMPLETE : Z := 63.
Definition SSH2_MSG_USERAUTH_GSSAPI_ERROR : Z := 64.
Definition SSH2_MSG_USERAUTH_GSSAPI_ERRTOK : Z := 65.
Definition SSH2_MSG_USERAUTH_GSSAPI_MIC : Z := 66.
Definition SSH2_MSG_GLOBAL_REQUEST : Z := 80.
Definition SSH2_MSG_REQUEST_SUCCESS : Z := 81.
Definition SSH2_MSG_REQUEST_FAILURE : Z := 82.
Definition SSH2_MSG_CHANNEL_OPEN : Z := 90.
Definition SSH2_MSG_CHANNEL_OPEN_CONFIRMATION : Z := 91.
Definition SSH2_MSG_CHANNEL_OPEN_FAILURE : Z := 92.
Definition SSH2_MSG_CHANNEL_WINDOW_ADJUST : Z := 93.
Definition SSH2_MSG_CHANNEL_DATA : Z := 94.
Definition SSH2_MSG_CHANNEL_EXTENDED_DATA : Z := 95.
Definition SSH2_MSG_CHANNEL_EOF : Z := 96.
Definition SSH2_MSG_CHANNEL_CLOSE : Z := 97.
Definition SSH2_MSG_CHANNEL_REQUEST : Z := 98.
Definition SSH2_MSG_CHANNEL_SUCCESS : Z := 99.
Definition SSH2_MSG_CHANNEL_FAILURE : Z := 100.

(** ** The session *)

(** The two roles are separate flags in the code; the constructors
    [ssh_new] and [ssh_bind_accept] set one of them. *)
Record proto := mkProto {
  client : bool;
  server : bool;
  flags : Z;
  session_state : ssh_session_state_e;
  dh_handshake_state : ssh_dh_state_e;
  global_req_state : ssh_channel_request_state_e;
  service_state : ssh_auth_service_state_e;   (** [auth.service_state] *)
  auth_state : ssh_auth_state_e;              (** [auth.state] *)
}.

Definition set_session_state (v : ssh_session_state_e) (s : proto) : proto :=
  mkProto (client s) (server s) (flags s) v (dh_handshake_state s) (global_req_state s)
    (service_state s) (auth_state s).
Definition set_dh_state (v : ssh_dh_state_e) (s : proto) : proto :=
  mkProto (client s) (server s) (flags s) (session_state s) v (global_req_state s)
    (service_state s) (auth_state s).
Definition set_global_req_state (v : ssh_channel_request_state_e) (s : proto) : proto :=
  mkProto (client s) (server s) (flags s) (session_state s) (dh_handshake_state s) v
    (service_state s) (auth_state s).
Definition set_service_state (v : ssh_auth_service_state_e) (s : proto) : proto :=
  mkProto (client s) (server s) (flags s) (session_state s) (dh_handshake_state s)
    (global_req_state s) v (auth_state s).
Definition set_auth_state (v : ssh_auth_state_e) (s : proto) : proto :=
  mkProto (client s) (server s) (flags s) (session_state s) (dh_handshake_state s)
    (global_req_state s) (service_state s) v.
Definition set_flags (v : Z) (s : proto) : proto :=
  mkProto (client s) (server s) v (session_state s) (dh_handshake_state s)
    (global_req_state s) (service_state s) (auth_state s).

(** [session->flags & SSH_SESSION_FLAG_AUTHENTICATED]. *)
Definition flag_authenticated (s : proto) : bool :=
  negb (Z.land (flags s) SSH_SESSION_FLAG_AUTHENTICATED =? 0).

(** A session that [ssh_new] made, or [ssh_bind_accept]: exactly one role. *)
Definition one_role (s : proto) : Prop := client s = negb (server s).
