(* ===== verification/PacketFilter.v ===== *)
(** * The filter of incoming packets ([libssh/src/packet.c])

    [ssh_packet_incoming_filter] decides, from the type of a packet and the
    state of the session, whether its handler may run.  Its [switch] is split in
    groups of cases; each takes the result of the cases that follow. *)

From S2P Require Import Prelude Session.

Inductive ssh_packet_filter_result_e :=
  | SSH_PACKET_UNKNOWN
  | SSH_PACKET_ALLOWED
  | SSH_PACKET_DENIED.

#[export] Instance ssh_packet_filter_result_eq : EqDecision ssh_packet_filter_result_e.
Proof. solve_decision. Defined.

Declare Scope filter_scope.
Delimit Scope filter_scope with filter.
(** [if (c) { rc = SSH_PACKET_DENIED; break; }] *)
#[local] Notation "'deny_if' c ; k" := (if (c : bool) then SSH_PACKET_DENIED else k)
  (at level 100, c at level 99, right associativity) : filter_scope.
(** [case n: k; break;] and the rest of the [switch] on [t]. *)
#[local] Notation "'case' t 'of' n : k 'next' r" := (if Z.eqb t n then k else r)
  (at level 10, t at level 9, n at level 9, k at level 100, r at level 200) : filter_scope.
Local Open Scope filter_scope.

#[local] Notation "x =s y" := (bool_decide (x = y)) (at level 70) : filter_scope.
#[local] Notation "x <>s y" := (negb (bool_decide (x = y))) (at level 70) : filter_scope.

Section Filter.
Variable session : proto.
(** [session->in_packet.type] *)
Variable type : Z.

Let st := session_state session.
Let dh := dh_handshake_state session.
Let auth := auth_state session.

(** [SSH2_MSG_DISCONNECT] to [SSH2_MSG_EXT_INFO]. *)
Definition filter_transport (rest : ssh_packet_filter_result_e) : ssh_packet_filter_result_e :=
  case type of SSH2_MSG_DISCONNECT : SSH_PACKET_ALLOWED next
  case type of SSH2_MSG_IGNORE : SSH_PACKET_ALLOWED next
  case type of SSH2_MSG_UNIMPLEMENTED : SSH_PACKET_ALLOWED next
  case type of SSH2_MSG_DEBUG : SSH_PACKET_ALLOWED next
  case type of SSH2_MSG_SERVICE_REQUEST :
    (deny_if client session;
     deny_if (st <>s SSH_SESSION_STATE_AUTHENTICATING)
             && (st <>s SSH_SESSION_STATE_AUTHENTICATED);
     deny_if dh <>s DH_STATE_FINISHED;
     SSH_PACKET_ALLOWED) next
  case type of SSH2_MSG_SERVICE_ACCEPT :
    (deny_if (st <>s SSH_SESSION_STATE_AUTHENTICATING)
             && (st <>s SSH_SESSION_STATE_AUTHENTICATED);
     deny_if dh <>s DH_STATE_FINISHED;
     deny_if service_state session <>s SSH_AUTH_SERVICE_SENT;
     SSH_PACKET_ALLOWED) next
  case type of SSH2_MSG_EXT_INFO :
    (deny_if (st <>s SSH_SESSION_STATE_AUTHENTICATING)
             && (st <>s SSH_SESSION_STATE_AUTHENTICATED);
     deny_if dh <>s DH_STATE_FINISHED;
     SSH_PACKET_ALLOWED) next
  rest.

(** [SSH2_MSG_KEXINIT] to [SSH2_MSG_KEX_DH_GEX_REQUEST]. *)
Definition filter_kex (rest : ssh_packet_filter_result_e) : ssh_packet_filter_result_e :=
  case type of SSH2_MSG_KEXINIT :
    (deny_if (st <>s SSH_SESSION_STATE_AUTHENTICATED)
             && (st <>s SSH_SESSION_STATE_INITIAL_KEX);
     deny_if (dh <>s DH_STATE_INIT) && (dh <>s DH_STATE_INIT_SENT) && (dh <>s DH_STATE_FINISHED);
     SSH_PACKET_ALLOWED) next
  case type of SSH2_MSG_NEWKEYS :
    (deny_if st <>s SSH_SESSION_STATE_DH;
     deny_if dh <>s DH_STATE_NEWKEYS_SENT;
     SSH_PACKET_ALLOWED) next
  case type of SSH2_MSG_KEXDH_INIT :
    (deny_if st <>s SSH_SESSION_STATE_DH;
     deny_if dh <>s DH_STATE_INIT;
     SSH_PACKET_ALLOWED) next
  case type of SSH2_MSG_KEXDH_REPLY :
    (deny_if st <>s SSH_SESSION_STATE_DH;
     deny_if (dh <>s DH_STATE_INIT_SENT) && (dh <>s DH_STATE_REQUEST_SENT);
     SSH_PACKET_ALLOWED) next
  case type of SSH2_MSG_KEX_DH_GEX_INIT : SSH_PACKET_ALLOWED next
  case type of SSH2_MSG_KEX_DH_GEX_REPLY : SSH_PACKET_ALLOWED next
  case type of SSH2_MSG_KEX_DH_GEX_REQUEST : SSH_PACKET_ALLOWED next
  rest.

(** [SSH2_MSG_USERAUTH_REQUEST] to [SSH2_MSG_USERAUTH_BANNER]. *)
Definition filter_userauth (rest : ssh_packet_filter_result_e) : ssh_packet_filter_result_e :=
  case type of SSH2_MSG_USERAUTH_REQUEST :
    (deny_if client session;
     deny_if dh <>s DH_STATE_FINISHED;
     deny_if st <>s SSH_SESSION_STATE_AUTHENTICATING;
     SSH_PACKET_ALLOWED) next
  case type of SSH2_MSG_USERAUTH_FAILURE :
    (deny_if server session;
     deny_if dh <>s DH_STATE_FINISHED;
     deny_if st <>s SSH_SESSION_STATE_AUTHENTICATING;
     SSH_PACKET_ALLOWED) next
  case type of SSH2_MSG_USERAUTH_SUCCESS :
    (deny_if server session;
     deny_if dh <>s DH_STATE_FINISHED;
     deny_if st <>s SSH_SESSION_STATE_AUTHENTICATING;
     deny_if (auth <>s SSH_AUTH_STATE_KBDINT_SENT)
             && (auth <>s SSH_AUTH_STATE_PUBKEY_AUTH_SENT)
             && (auth <>s SSH_AUTH_STATE_PASSWORD_AUTH_SENT)
             && (auth <>s SSH_AUTH_STATE_GSSAPI_MIC_SENT)
             && (auth <>s SSH_AUTH_STATE_AUTH_NONE_SENT);
     SSH_PACKET_ALLOWED) next
  case type of SSH2_MSG_USERAUTH_BANNER :
    (deny_if st <>s SSH_SESSION_STATE_AUTHENTICATING;
     SSH_PACKET_ALLOWED) next
  rest.

(** [SSH2_MSG_USERAUTH_PK_OK] to [SSH2_MSG_USERAUTH_GSSAPI_MIC]. *)
Definition filter_userauth_method (rest : ssh_packet_filter_result_e)
    : ssh_packet_filter_result_e :=
  case type of SSH2_MSG_USERAUTH_PK_OK :
    (deny_if st <>s SSH_SESSION_STATE_AUTHENTICATING;
     deny_if (auth <>s SSH_AUTH_STATE_KBDINT_SENT)
             && (auth <>s SSH_AUTH_STATE_PUBKEY_OFFER_SENT)
             && (auth <>s SSH_AUTH_STATE_GSSAPI_REQUEST_SENT);
     SSH_PACKET_ALLOWED) next
  case type of SSH2_MSG_USERAUTH_INFO_RESPONSE :
    (deny_if st <>s SSH_SESSION_STATE_AUTHENTICATING;
     deny_if (auth <>s SSH_AUTH_STATE_INFO) && (auth <>s SSH_AUTH_STATE_GSSAPI_TOKEN);
     SSH_PACKET_ALLOWED) next
  case type of SSH2_MSG_USERAUTH_GSSAPI_EXCHANGE_COMPLETE : SSH_PACKET_ALLOWED next
  case type of SSH2_MSG_USERAUTH_GSSAPI_ERROR : SSH_PACKET_ALLOWED next
  case type of SSH2_MSG_USERAUTH_GSSAPI_ERRTOK : SSH_PACKET_ALLOWED next
  case type of SSH2_MSG_USERAUTH_GSSAPI_MIC :
    (deny_if client session;
     deny_if dh <>s DH_STATE_FINISHED;
     deny_if st <>s SSH_SESSION_STATE_AUTHENTICATING;
     SSH_PACKET_ALLOWED) next
  rest.

(** [SSH2_MSG_GLOBAL_REQUEST] to [SSH2_MSG_CHANNEL_OPEN_FAILURE]. *)
Definition filter_global (rest : ssh_packet_filter_result_e) : ssh_packet_filter_result_e :=
  case type of SSH2_MSG_GLOBAL_REQUEST :
    (deny_if st <>s SSH_SESSION_STATE_AUTHENTICATED; SSH_PACKET_ALLOWED) next
  case type of SSH2_MSG_REQUEST_SUCCESS :
    (deny_if st <>s SSH_SESSION_STATE_AUTHENTICATED;
     deny_if global_req_state session <>s SSH_CHANNEL_REQ_STATE_PENDING;
     SSH_PACKET_ALLOWED) next
  case type of SSH2_MSG_REQUEST_FAILURE :
    (deny_if st <>s SSH_SESSION_STATE_AUTHENTICATED;
     deny_if global_req_state session <>s SSH_CHANNEL_REQ_STATE_PENDING;
     SSH_PACKET_ALLOWED) next
  case type of SSH2_MSG_CHANNEL_OPEN :
    (deny_if st <>s SSH_SESSION_STATE_AUTHENTICATED; SSH_PACKET_ALLOWED) next
  case type of SSH2_MSG_CHANNEL_OPEN_CONFIRMATION :
    (deny_if st <>s SSH_SESSION_STATE_AUTHENTICATED; SSH_PACKET_ALLOWED) next
  case type of SSH2_MSG_CHANNEL_OPEN_FAILURE :
    (deny_if st <>s SSH_SESSION_STATE_AUTHENTICATED; SSH_PACKET_ALLOWED) next
  rest.

(** [SSH2_MSG_CHANNEL_WINDOW_ADJUST] to [SSH2_MSG_CHANNEL_FAILURE]. *)
Definition filter_channel (rest : ssh_packet_filter_result_e) : ssh_packet_filter_result_e :=
  case type of SSH2_MSG_CHANNEL_WINDOW_ADJUST :
    (deny_if st <>s SSH_SESSION_STATE_AUTHENTICATED; SSH_PACKET_ALLOWED) next
  case type of SSH2_MSG_CHANNEL_DATA :
    (deny_if st <>s SSH_SESSION_STATE_AUTHENTICATED; SSH_PACKET_ALLOWED) next
  case type of SSH2_MSG_CHANNEL_EXTENDED_DATA :
    (deny_if st <>s SSH_SESSION_STATE_AUTHENTICATED; SSH_PACKET_ALLOWED) next
  case type of SSH2_MSG_CHANNEL_EOF :
    (deny_if st <>s SSH_SESSION_STATE_AUTHENTICATED; SSH_PACKET_ALLOWED) next
  case type of SSH2_MSG_CHANNEL_CLOSE :
    (deny_if st <>s SSH_SESSION_STATE_AUTHENTICATED; SSH_PACKET_ALLOWED) next
  case type of SSH2_MSG_CHANNEL_REQUEST :
    (deny_if st <>s SSH_SESSION_STATE_AUTHENTICATED; SSH_PACKET_ALLOWED) next
  case type of SSH2_MSG_CHANNEL_SUCCESS :
    (deny_if st <>s SSH_SESSION_STATE_AUTHENTICATED; SSH_PACKET_ALLOWED) next
  case type of SSH2_MSG_CHANNEL_FAILURE :
    (deny_if st <>s SSH_SESSION_STATE_AUTHENTICATED; SSH_PACKET_ALLOWED) next
  rest.

Definition ssh_packet_incoming_filter : ssh_packet_filter_result_e :=
  filter_transport (filter_kex (filter_userauth (filter_userauth_method
    (filter_global (filter_channel SSH_PACKET_UNKNOWN))))).
End Filter.

(** ** Case analysis *)

(** Runs through the cases of the [switch] on [t]. *)
Ltac filter_unfold := unfold ssh_packet_incoming_filter, filter_transport, filter_kex,
  filter_userauth, filter_userauth_method, filter_global, filter_channel in *.
Ltac filter_cases :=
  filter_unfold;
  repeat match goal with
    | |- context [Z.eqb ?t ?n] =>
        destruct (Z.eqb_spec t n) as [->|_]; cbv iota beta
    end.
Ltac guards :=
  repeat match goal with
    | |- context [bool_decide ?P] =>
        destruct (bool_decide_reflect P); cbn [negb andb]
    | |- context [if ?b then _ else _] => destruct b eqn:?; cbn [negb andb]
    end.

(** Membership in a closed list. *)
Ltac in_list := apply (bool_decide_unpack _); vm_compute; exact I.

(** The types without a guard. *)
Definition unfiltered : list Z := [1; 2; 3; 4; 32; 33; 34; 63; 64; 65].

(** The types the [switch] names. *)
Definition known_types : list Z :=
  [1; 2; 3; 4; 5; 6; 7; 20; 21; 30; 31; 32; 33; 34; 50; 51; 52; 53; 60; 61; 63; 64; 65; 66;
   80; 81; 82; 90; 91; 92; 93; 94; 95; 96; 97; 98; 99; 100].

(** ** Properties *)

(** A peer that is not authenticated cannot reach the handlers of the
    connection protocol, user authentication messages are handled only while
    the session authenticates, key exchange messages only in the states of a key
    exchange, and the service messages only after one: what is allowed in each
    phase of a session. *)
Theorem filter_allowed_phase s t :
  ssh_packet_incoming_filter s t = SSH_PACKET_ALLOWED ->
  t ∈ unfiltered
  \/ (5 <= t <= 7 /\ dh_handshake_state s = DH_STATE_FINISHED
      /\ (session_state s = SSH_SESSION_STATE_AUTHENTICATING
          \/ session_state s = SSH_SESSION_STATE_AUTHENTICATED))
  \/ (t = SSH2_MSG_KEXINIT /\ dh_handshake_state s <> DH_STATE_NEWKEYS_SENT
      /\ (session_state s = SSH_SESSION_STATE_INITIAL_KEX
          \/ session_state s = SSH_SESSION_STATE_AUTHENTICATED))
  \/ (t ∈ [SSH2_MSG_NEWKEYS; SSH2_MSG_KEXDH_INIT; SSH2_MSG_KEXDH_REPLY]
      /\ session_state s = SSH_SESSION_STATE_DH /\ dh_handshake_state s <> DH_STATE_FINISHED)
  \/ (50 <= t <= 66 /\ session_state s = SSH_SESSION_STATE_AUTHENTICATING)
  \/ (80 <= t <= 100 /\ session_state s = SSH_SESSION_STATE_AUTHENTICATED).
Proof.
  filter_cases; guards; intros [=];
    try (left; in_list); right.
  all: try (left; split_and!; [by vm_compute|by vm_compute|done|auto]; fail); right.
  all: try (left; split_and!; [done|congruence|auto]; fail); right.
  all: try (left; split_and!; [in_list|done|congruence]; fail); right.
  all: try (left; split; [by vm_compute|done]; fail); right.
  all: split; [by vm_compute|done].
Qed.

Lemma filter_allowed_phase_witness :
  let s := mkProto true false 0 SSH_SESSION_STATE_AUTHENTICATED DH_STATE_FINISHED
             SSH_CHANNEL_REQ_STATE_NONE SSH_AUTH_SERVICE_ACCEPTED SSH_AUTH_STATE_SUCCESS in
  SSH2_MSG_CHANNEL_DATA ∈ unfiltered
  \/ (5 <= SSH2_MSG_CHANNEL_DATA <= 7 /\ dh_handshake_state s = DH_STATE_FINISHED
      /\ (session_state s = SSH_SESSION_STATE_AUTHENTICATING
          \/ session_state s = SSH_SESSION_STATE_AUTHENTICATED))
  \/ (SSH2_MSG_CHANNEL_DATA = SSH2_MSG_KEXINIT /\ dh_handshake_state s <> DH_STATE_NEWKEYS_SENT
      /\ (session_state s = SSH_SESSION_STATE_INITIAL_KEX
          \/ session_state s = SSH_SESSION_STATE_AUTHENTICATED))
  \/ (SSH2_MSG_CHANNEL_DATA ∈ [SSH2_MSG_NEWKEYS; SSH2_MSG_KEXDH_INIT; SSH2_MSG_KEXDH_REPLY]
      /\ session_state s = SSH_SESSION_STATE_DH /\ dh_handshake_state s <> DH_STATE_FINISHED)
  \/ (50 <= SSH2_MSG_CHANNEL_DATA <= 66 /\ session_state s = SSH_SESSION_STATE_AUTHENTICATING)
  \/ (80 <= SSH2_MSG_CHANNEL_DATA <= 100 /\ session_state s = SSH_SESSION_STATE_AUTHENTICATED).
Proof. intros s. apply (filter_allowed_phase s SSH2_MSG_CHANNEL_DATA). vm_compute. reflexivity. Defined.

(** (C33) The answers to a user authentication: a session in the role of server
    never lets one in (a client cannot authenticate itself by sending
    [SSH2_MSG_USERAUTH_SUCCESS]), and a client lets a success in exactly when it
    is authenticating, the key exchange is over and its authentication is in one of the five
    states in which it waits for the answer to a request. *)
Theorem filter_userauth_success s :
  ssh_packet_incoming_filter s SSH2_MSG_USERAUTH_SUCCESS = SSH_PACKET_ALLOWED
  <-> server s = false /\ dh_handshake_state s = DH_STATE_FINISHED
      /\ session_state s = SSH_SESSION_STATE_AUTHENTICATING
      /\ auth_state s ∈ [SSH_AUTH_STATE_KBDINT_SENT; SSH_AUTH_STATE_PUBKEY_AUTH_SENT;
           SSH_AUTH_STATE_PASSWORD_AUTH_SENT; SSH_AUTH_STATE_GSSAPI_MIC_SENT;
           SSH_AUTH_STATE_AUTH_NONE_SENT].
Proof.
  destruct s as [? srv ? st dh ? ? auth]. cbn [server dh_handshake_state session_state auth_state].
  unfold ssh_packet_incoming_filter; cbn -[bool_decide].
  rewrite !elem_of_cons, elem_of_nil.
  destruct srv; [naive_solver|]. destruct dh, st; cbn; try naive_solver.
  destruct auth; cbn; naive_solver.
Qed.

(** Each role refuses the messages that only it sends. *)
Theorem filter_roles s :
  (client s = true ->
     Forall (fun t => ssh_packet_incoming_filter s t = SSH_PACKET_DENIED)
       [SSH2_MSG_SERVICE_REQUEST; SSH2_MSG_USERAUTH_REQUEST; SSH2_MSG_USERAUTH_GSSAPI_MIC])
  /\ (server s = true ->
     Forall (fun t => ssh_packet_incoming_filter s t = SSH_PACKET_DENIED)
       [SSH2_MSG_USERAUTH_FAILURE; SSH2_MSG_USERAUTH_SUCCESS])
  /\ (forall t, ssh_packet_incoming_filter s t = SSH_PACKET_UNKNOWN <-> t ∉ known_types).
Proof.
  split_and!.
  - intros Hc. repeat constructor; filter_unfold; cbn; by rewrite Hc.
  - intros Hs. repeat constructor; filter_unfold; cbn; by rewrite Hs.
  - intros t. split.
    + intros Hu Hin. revert Hu. unfold known_types in Hin.
      repeat (apply elem_of_cons in Hin as [-> | Hin]; [filter_unfold; cbn; guards; intros [=]|]).
      by apply elem_of_nil in Hin.
    + intros Hn. filter_cases; try reflexivity; exfalso; apply Hn; in_list.
Qed.

(** The comments of the filter require more than its code does: a failure is
    let in with no request pending ([auth.state] is not looked at), a client lets
    in a key exchange request that only a server handles, and the states the
    comments name for a group exchange request are not read. *)
Theorem filter_weaker_than_its_comments :
  let idle := mkProto true false 0 SSH_SESSION_STATE_AUTHENTICATING DH_STATE_FINISHED
                SSH_CHANNEL_REQ_STATE_NONE SSH_AUTH_SERVICE_NONE SSH_AUTH_STATE_NONE in
  let in_dh := mkProto true false 0 SSH_SESSION_STATE_DH DH_STATE_INIT
                SSH_CHANNEL_REQ_STATE_NONE SSH_AUTH_SERVICE_NONE SSH_AUTH_STATE_NONE in
  ssh_packet_incoming_filter idle SSH2_MSG_USERAUTH_FAILURE = SSH_PACKET_ALLOWED
  /\ ssh_packet_incoming_filter in_dh SSH2_MSG_KEXDH_INIT = SSH_PACKET_ALLOWED
  /\ forall s, ssh_packet_incoming_filter s SSH2_MSG_KEX_DH_GEX_REQUEST = SSH_PACKET_ALLOWED.
Proof. split_and!; [reflexivity|reflexivity|by intros []]. Qed.
