(* ===== verification/Misc.v ===== *)
(** * String and time helpers ([libssh/src/misc.c])

    C strings are their text before the terminator; a character read at the
    end of the text is the terminator.  A function that fills a buffer of the
    caller writes through [put], which has no result outside of the buffer. *)

From S2P Require Import Prelude Token.

(** The character [s[i]] of a C string, the terminator included. *)
Definition char_at (s : bytes) (i : Z) : run byte :=
  if i <? 0 then None else (s ++ [Byte.x00]) !! Z.to_nat i.

(** [*dst++ = c], [dst] being [zlen out] bytes into a buffer of [cap] bytes. *)
Definition put (cap : Z) (out : bytes) (c : byte) : run bytes :=
  if zlen out <? cap then Some (out ++ [c]) else None.

(** ** Comparisons *)

(** [strncmp (a, b, n) == 0]. *)
Definition strncmp0 (a b : bytes) (n : Z) : bool := bool_decide (ztake n a = ztake n b).

(** The [do]/[while] of [ssh_match_group]: one turn per comma, so the length of
    the text bounds them. *)
Fixpoint match_group_loop (fuel : nat) (z object : bytes) : run Z :=
  match fuel with
  | O => None
  | S fuel =>
      match strchr z ","%byte with
      | None => Some (if bool_decide (z = object) then 1 else 0)
      | Some n =>
          if strncmp0 z object n then Some 1
          else match_group_loop fuel (zdrop (n + 1) z) object
      end
  end.

Definition ssh_match_group (group object : bytes) : run Z :=
  match_group_loop (S (length group)) group object.

(** ** Time *)

Record ssh_timestamp := mk_timestamp { seconds : Z; useconds : Z }.

Definition ssh_timestamp_difference (old new : ssh_timestamp) : Z :=
  let s := seconds new - seconds old in
  let us := useconds new - useconds old in
  let '(s, us) := if us <? 0 then (s - 1, us + 1000000) else (s, us) in
  s32 (s * 1000 + Z.quot us 1000).

Definition ssh_make_milliseconds (sec usec : Z) : Z :=
  let res := if negb (usec =? 0) then Z.quot usec 1000 else 0 in
  let res := s32 (res + sec * 1000) in
  if res =? 0 then 10 * 1000 else res.

(** [now] is what [ssh_timestamp_init] reads from the clock. *)
Definition ssh_timeout_elapsed (ts now : ssh_timestamp) (timeout : Z) : bool :=
  if timeout =? -2 then false else
  if timeout =? -1 then false else
  if timeout =? 0 then true else
  timeout <=? ssh_timestamp_difference ts now.

Definition ssh_timeout_update (ts now : ssh_timestamp) (timeout : Z) : Z :=
  if timeout <=? 0 then timeout else
  let ms := ssh_timestamp_difference ts now in
  let ms := if ms <? 0 then 0 else ms in
  let ret := timeout - ms in
  if 0 <=? ret then ret else 0.

(** ** Counters *)

(** [uint64_inc]: from the last byte of the counter, while it wraps to zero. *)
Fixpoint inc_loop (rev_counter : bytes) : bytes :=
  match rev_counter with
  | [] => []
  | c :: rest =>
      let c := z2b (u8 (b2z c + 1)) in
      if negb (b2z c =? 0) then c :: rest else c :: inc_loop rest
  end.

Definition uint64_inc (counter : bytes) : bytes := rev (inc_loop (rev counter)).

(** ** Hexadecimal dump *)

Definition hex_digits : bytes := cstr "0123456789abcdef".
Definition UINT_MAX : Z := 2 ^ 32 - 1.

Section Alloc.
Context `{Allocator}.

Definition hex_digit (n : Z) : byte := nth (Z.to_nat n) hex_digits Byte.x00.

(** The three stores of one turn of the loop, at [hexa + i * 3]. *)
Fixpoint hexa_loop (what : bytes) (i : Z) (hexa : bytes) : run bytes :=
  match what with
  | [] => Some hexa
  | w :: what =>
      hexa ← memcpy hexa (i * 3) [hex_digit (Z.land (Z.shiftr (b2z w) 4) 0xF)] 0 1;
      hexa ← memcpy hexa (i * 3 + 1) [hex_digit (Z.land (b2z w) 0xF)] 0 1;
      hexa ← memcpy hexa (i * 3 + 2) [":"%byte] 0 1;
      hexa_loop what (i + 1) hexa
  end.

Definition ssh_get_hexa (what : bytes) (len : Z) : run (option bytes) :=
  let hlen := u64 (len * 3) in
  if Z.quot (UINT_MAX - 1) 3 <? len then Some None else
  match malloc (hlen + 1) with
  | None => Some None
  | Some hexa =>
      hexa ← hexa_loop (ztake len what) 0 hexa;
      hexa ← memcpy hexa (hlen - 1) [Byte.x00] 0 1;
      Some (Some hexa)
  end.

(** ** Paths *)

Definition dup (s : bytes) : option bytes :=
  match malloc (zlen s + 1) with Some _ => Some s | None => None end.

(** [while (len > 0 && path[len - 1] == '/') --len;] and its negation. *)
Fixpoint drop_slashes (rpath : bytes) : bytes :=
  match rpath with
  | c :: r => if Byte.eqb c "/"%byte then drop_slashes r else rpath
  | [] => []
  end.
Fixpoint drop_name (rpath : bytes) : bytes :=
  match rpath with
  | c :: r => if Byte.eqb c "/"%byte then rpath else drop_name r
  | [] => []
  end.

(** The loops move [len] down from the end: the prefix [path[0 .. len - 1]] is
    kept reversed. *)
Definition ssh_dirname (path : option bytes) : option bytes :=
  match path with
  | None | Some [] => dup (cstr ".")
  | Some path =>
      let r := drop_slashes (rev path) in
      match r with
      | [] => dup (cstr "/")
      | _ =>
          let r := drop_name r in
          if zlen r =? 0 then dup (cstr ".")
          else if zlen r =? 1 then dup (cstr "/")
          else
            let r := drop_slashes r in
            match malloc (zlen r + 1) with
            | None => None
            | Some _ => Some (rev r)
            end
      end
  end.

Definition ssh_basename (path : option bytes) : option bytes :=
  match path with
  | None | Some [] => dup (cstr ".")
  | Some path =>
      let r := drop_slashes (rev path) in
      match r with
      | [] => dup (cstr "/")
      | _ =>
          let len := zlen (drop_name r) in
          if 0 <? len then
            let s := zdrop len path in
            let s := rev (drop_slashes (rev s)) in
            match malloc (zlen s + 1) with
            | None => None
            | Some _ => Some s
            end
          else dup path
      end
  end.
End Alloc.

(** ** Quoting *)

Inductive ssh_quote_state_e := NO_QUOTE | SINGLE_QUOTE | DOUBLE_QUOTE.

Definition squote : byte := "'"%byte.
Definition dquote : byte := Byte.x22.
Definition bang : byte := "!"%byte.
Definition backslash : byte := "\"%byte.

(** A run of [*dst++ = c]. *)
Fixpoint puts (cap : Z) (out s : bytes) : run bytes :=
  match s with
  | [] => Some out
  | c :: s => out ← put cap out c; puts cap out s
  end.

(** The characters written before a source character, and the next state:
    the [switch] of the loop of [ssh_quote_file_name]. *)
Definition quote_open (state : ssh_quote_state_e) (c : byte) : bytes * ssh_quote_state_e :=
  if Byte.eqb c squote then
    (match state with
     | NO_QUOTE => [dquote]
     | SINGLE_QUOTE => [squote; dquote]
     | DOUBLE_QUOTE => []
     end, DOUBLE_QUOTE)
  else if Byte.eqb c bang then
    (match state with
     | NO_QUOTE => [backslash]
     | SINGLE_QUOTE => [squote; backslash]
     | DOUBLE_QUOTE => [dquote; backslash]
     end, NO_QUOTE)
  else
    (match state with
     | NO_QUOTE => [squote]
     | SINGLE_QUOTE => []
     | DOUBLE_QUOTE => [dquote; squote]
     end, SINGLE_QUOTE).

Fixpoint quote_loop (cap : Z) (src : bytes) (state : ssh_quote_state_e) (dst : bytes)
    : run (bytes * ssh_quote_state_e) :=
  match src with
  | [] => Some (dst, state)
  | c :: src =>
      let '(open, state) := quote_open state c in
      dst ← puts cap dst open;
      dst ← put cap dst c;
      quote_loop cap src state dst
  end.

(** The code returned and the text left in the buffer of [buf_len] bytes. *)
Definition ssh_quote_file_name (file_name : option bytes) (buf : bool) (buf_len : Z)
    : run (Z * option bytes) :=
  match file_name with
  | None => Some (SSH_ERROR, None)
  | Some file_name =>
      if negb buf || (buf_len =? 0) then Some (SSH_ERROR, None) else
      if 32 * 1024 <? zlen file_name then Some (SSH_ERROR, None) else
      let required_buf_len := 3 * zlen file_name + 1 in
      if buf_len <? required_buf_len then Some (SSH_ERROR, None) else
      '(dst, state) ← quote_loop buf_len file_name NO_QUOTE [];
      dst ← match state with
            | NO_QUOTE => Some dst
            | SINGLE_QUOTE => put buf_len dst squote
            | DOUBLE_QUOTE => put buf_len dst dquote
            end;
      _ ← put buf_len dst Byte.x00;
      Some (s32 (zlen dst), Some dst)
  end.

Definition newline : byte := Byte.x0a.

Fixpoint newline_loop (cap : Z) (s out : bytes) : run bytes :=
  match s with
  | [] => Some out
  | c :: s =>
      out ← (if Byte.eqb c newline then puts cap out [backslash; "n"%byte] else put cap out c);
      newline_loop cap s out
  end.

Definition ssh_newline_vis (string : option bytes) (buf : bool) (buf_len : Z)
    : run (Z * option bytes) :=
  match string with
  | None => Some (SSH_ERROR, None)
  | Some s =>
      if negb buf || (buf_len =? 0) then Some (SSH_ERROR, None) else
      if buf_len <? 2 * zlen s + 1 then Some (SSH_ERROR, None) else
      out ← newline_loop buf_len s [];
      _ ← put buf_len out Byte.x00;
      Some (s32 (zlen out), Some out)
  end.

(** ** Banners *)

(** [strtoul (s, &tmp, 10)] for a text without sign: the value and the length
    of the digits ([0]: no conversion); the leading white space that the function
    skips is part of the length. *)
Definition is_digit (c : byte) : bool := (48 <=? b2z c) && (b2z c <=? 57).
Definition is_space (c : byte) : bool := (b2z c =? 32) || ((9 <=? b2z c) && (b2z c <=? 13)).

Fixpoint digits (s : bytes) (acc n : Z) : Z * Z :=
  match s with
  | c :: s => if is_digit c then digits s (acc * 10 + (b2z c - 48)) (n + 1) else (acc, n)
  | [] => (acc, n)
  end.
Fixpoint skip_space (s : bytes) : bytes :=
  match s with
  | c :: s' => if is_space c then skip_space s' else s
  | [] => []
  end.

Definition ULONG_MAX : Z := 2 ^ 64 - 1.

(** The value (saturated), whether digits were found, and whether [errno] is
    set to [ERANGE]; a sign gives the negation modulo [2 ^ 64]. *)
Definition strtoul (s : bytes) : Z * bool * bool :=
  let s := skip_space s in
  let '(neg, s) := match s with
                   | c :: s' => if Byte.eqb c "-"%byte then (true, s')
                                else if Byte.eqb c "+"%byte then (false, s') else (false, s)
                   | [] => (false, s)
                   end in
  let '(v, n) := digits s 0 0 in
  if n =? 0 then (0, false, false)
  else if ULONG_MAX <? v then (ULONG_MAX, true, true)
  else ((if neg then u64 (- v) else v), true, false).

(** [strstr (s, "OpenSSH")]: the text from the first occurrence. *)
Fixpoint strstr (s pat : bytes) : option bytes :=
  if strncmp0 s pat (zlen pat) then Some s
  else match s with
       | [] => None
       | _ :: s => strstr s pat
       end.

(** [snprintf (buffer, size, ...)]: the text that fits in front of the terminator. *)
Definition snprintf (size : Z) (text : bytes) : bytes := ztake (size - 1) text.

(** The string at the start of a buffer. *)
Fixpoint until_nul (s : bytes) : bytes :=
  match s with [] => [] | c :: s => if Byte.eqb c Byte.x00 then [] else c :: until_nul s end.

Definition SSH_VERSION_INT (a b c : Z) : Z := Z.lor (Z.lor (Z.shiftl a 16) (Z.shiftl b 8)) c.

Definition ERANGE : Z := 34.

(** The best-effort version number of [ssh_analyze_banner]: the value given to
    [session->openssh] ([None]: not assigned), from the [errno] it starts with. *)
Definition analyze_openssh (errno : Z) (banner : bytes) : option Z :=
  match strstr banner (cstr "OpenSSH") with
  | None => None
  | Some openssh =>
      if 9 <? zlen openssh then
        let '(major, conv, erange) := strtoul (zdrop 8 openssh) in
        let errno := if (erange : bool) then ERANGE else errno in
        if negb conv || ((errno =? ERANGE) && (major =? ULONG_MAX))
           || (negb (errno =? 0) && (major =? 0))
           || ((major <? 1) || (100 <? major)) then None else
        let '(minor, conv, erange) := strtoul (zdrop 10 openssh) in
        let errno := if (erange : bool) then ERANGE else errno in
        if negb conv || ((errno =? ERANGE) && (major =? ULONG_MAX))
           || (negb (errno =? 0) && (major =? 0))
           || (100 <? minor) then None else
        Some (SSH_VERSION_INT major minor 0)
      else None
  end.

(** [ssh_analyze_banner]: the code returned and the value given to
    [session->openssh]. *)
Definition ssh_analyze_banner (errno : Z) (banner : option bytes) : Z * option Z :=
  match banner with
  | None => (-1, None)
  | Some banner =>
      if (zlen banner <? 6) || negb (strncmp0 banner (cstr "SSH-") 4) then (-1, None) else
      match banner !! 4%nat with
      | Some c =>
          if Byte.eqb c "2"%byte then (0, analyze_openssh errno banner)
          else if Byte.eqb c "1"%byte && (6 <? zlen banner)
                  && bool_decide (banner !! 6%nat = Some "9"%byte)
          then (0, analyze_openssh errno banner)
          else (-1, None)
      | None => (-1, None)
      end
  end.

(** ** How a shell reads a quoted word *)

(** The characters that a POSIX shell reads as one word from a text of quoted
    pieces: no character outside of the quotes but an escaped one, none of the
    characters that keep a meaning between double quotes, and no history
    expansion between quotes. *)
Definition dollar : byte := "$"%byte.
Definition backtick : byte := "`"%byte.

Fixpoint sh_word (state : ssh_quote_state_e) (s : bytes) : option bytes :=
  match s with
  | [] => match state with NO_QUOTE => Some [] | _ => None end
  | c :: s =>
      match state with
      | NO_QUOTE =>
          if Byte.eqb c squote then sh_word SINGLE_QUOTE s
          else if Byte.eqb c dquote then sh_word DOUBLE_QUOTE s
          else if Byte.eqb c backslash then
            match s with
            | x :: s => if Byte.eqb x newline then None else w ← sh_word NO_QUOTE s; Some (x :: w)
            | [] => None
            end
          else None
      | SINGLE_QUOTE =>
          if Byte.eqb c squote then sh_word NO_QUOTE s
          else if Byte.eqb c bang then None
          else w ← sh_word SINGLE_QUOTE s; Some (c :: w)
      | DOUBLE_QUOTE =>
          if Byte.eqb c dquote then sh_word NO_QUOTE s
          else if Byte.eqb c bang || Byte.eqb c dollar || Byte.eqb c backtick || Byte.eqb c backslash
          then None
          else w ← sh_word DOUBLE_QUOTE s; Some (c :: w)
      end
  end.

(** The text the loop writes, and the closing quote. *)
Fixpoint quote_text (state : ssh_quote_state_e) (src : bytes) : bytes * ssh_quote_state_e :=
  match src with
  | [] => ([], state)
  | c :: src =>
      let '(o, state) := quote_open state c in
      let '(t, state) := quote_text state src in (o ++ c :: t, state)
  end.
Definition closing (state : ssh_quote_state_e) : bytes :=
  match state with NO_QUOTE => [] | SINGLE_QUOTE => [squote] | DOUBLE_QUOTE => [dquote] end.

Lemma put_ok cap out c : zlen out < cap -> put cap out c = Some (out ++ [c]).
Proof. intros. unfold put. by rewrite (proj2 (Z.ltb_lt _ _)). Qed.

Lemma puts_ok cap s : forall out, zlen out + zlen s <= cap -> puts cap out s = Some (out ++ s).
Proof.
  induction s as [|c s IH]; intros out Hfit; cbn [puts]; [by rewrite app_nil_r|].
  rewrite zlen_cons in Hfit. pose proof (zlen_nonneg s).
  rewrite put_ok by lia. cbn [mbind option_bind]. rewrite IH by zlen_lia. by rewrite <- app_assoc.
Qed.

(** At most three characters for each, counting the closing quote. *)
Lemma quote_text_zlen src : forall state,
  zlen (fst (quote_text state src)) + zlen (closing (snd (quote_text state src)))
  <= 3 * zlen src + zlen (closing state).
Proof.
  induction src as [|c src IH]; intros state; cbn [quote_text]; [cbn [fst snd]; zlen_lia|].
  destruct (quote_open state c) as [o st'] eqn:Ho. specialize (IH st').
  destruct (quote_text st' src) as [t st'']. cbn [fst snd] in *.
  assert (Hc : zlen o + 1 + zlen (closing st') <= 3 + zlen (closing state)).
  { revert Ho. unfold quote_open. destruct (Byte.eqb c squote), (Byte.eqb c bang), state;
      intros [= <- <-]; vm_compute; discriminate. }
  autorewrite with zlist. lia.
Qed.

Lemma quote_loop_text cap src : forall state dst,
  zlen dst + zlen (fst (quote_text state src)) <= cap ->
  quote_loop cap src state dst
  = Some (dst ++ fst (quote_text state src), snd (quote_text state src)).
Proof.
  induction src as [|c src IH]; intros state dst Hfit; cbn [quote_loop quote_text] in *.
  - by rewrite app_nil_r.
  - destruct (quote_open state c) as [o st']. specialize (IH st').
    destruct (quote_text st' src) as [t st'']. cbn [fst snd] in *.
    autorewrite with zlist in Hfit. pose proof (zlen_nonneg t). pose proof (zlen_nonneg o).
    rewrite puts_ok by lia. cbn [mbind option_bind].
    rewrite put_ok by zlen_lia. cbn [mbind option_bind]. rewrite IH by zlen_lia.
    by rewrite <- !app_assoc.
Qed.

Lemma sh_word_quote_text src : forall state,
  sh_word state (fst (quote_text state src) ++ closing (snd (quote_text state src))) = Some src.
Proof.
  induction src as [|c src IH]; intros state; cbn [quote_text].
  - by destruct state.
  - destruct (quote_open state c) as [o st'] eqn:Ho. specialize (IH st').
    destruct (quote_text st' src) as [t st'']. cbn [fst snd] in *. rewrite <- app_assoc. cbn [app].
    revert Ho. unfold quote_open.
    destruct (Byte.eqb c squote) eqn:Hs; [|destruct (Byte.eqb c bang) eqn:Hb].
    + apply byte_eqb_eq in Hs as ->. destruct state; intros [= <- <-]; cbn; by rewrite IH.
    + apply byte_eqb_eq in Hb as ->. destruct state; intros [= <- <-]; cbn; by rewrite IH.
    + destruct state; intros [= <- <-]; cbn; rewrite ?Hs, ?Hb, IH; done.
Qed.

(** [ssh_quote_file_name] never writes outside of a buffer of
    [3 * strlen (file_name) + 1] bytes, returns the length of the text it leaves
    there, and a POSIX shell reads that text as the one word [file_name], whatever
    characters it has: no shell injection through a file name. *)
Theorem quote_file_name_one_word f buf_len :
  zlen f <= 32 * 1024 -> 3 * zlen f + 1 <= buf_len ->
  exists out, ssh_quote_file_name (Some f) true buf_len = Some (zlen out, Some out)
    /\ zlen out <= 3 * zlen f /\ sh_word NO_QUOTE out = Some f.
Proof.
  intros Hf Hbuf. pose proof (zlen_nonneg f). pose proof (quote_text_zlen f NO_QUOTE) as Hlen.
  pose proof (sh_word_quote_text f NO_QUOTE) as Hw. change (zlen (closing NO_QUOTE)) with 0 in Hlen.
  exists (fst (quote_text NO_QUOTE f) ++ closing (snd (quote_text NO_QUOTE f))).
  split_and!; [|zlen_lia|done]. unfold ssh_quote_file_name. cbn [negb orb].
  destruct (Z.eqb_spec buf_len 0) as [|_]; [lia|].
  destruct (Z.ltb_spec (32 * 1024) (zlen f)) as [|_]; [lia|].
  destruct (Z.ltb_spec buf_len (3 * zlen f + 1)) as [|_]; [lia|].
  pose proof (zlen_nonneg (closing (snd (quote_text NO_QUOTE f)))).
  rewrite quote_loop_text by (rewrite zlen_nil; lia). cbn [mbind option_bind app].
  destruct (quote_text NO_QUOTE f) as [t st]. cbn [fst snd] in *.
  assert (Hclose : match st with
      | NO_QUOTE => Some t
      | SINGLE_QUOTE => put buf_len t squote
      | DOUBLE_QUOTE => put buf_len t dquote
      end = Some (t ++ closing st)).
  { destruct st; cbn [closing] in *; [by rewrite app_nil_r|..];
      change (zlen [squote]) with 1 in *; change (zlen [dquote]) with 1 in *;
      apply put_ok; lia. }
  rewrite Hclose. cbn [mbind option_bind]. rewrite put_ok by zlen_lia. cbn [mbind option_bind].
  pose proof (zlen_nonneg t). autorewrite with zlist in *. by unwrap.
Qed.

Lemma quote_file_name_one_word_witness :
  exists out, ssh_quote_file_name (Some (cstr "it's; rm -rf $HOME!")) true 100
    = Some (zlen out, Some out)
    /\ zlen out <= 3 * zlen (cstr "it's; rm -rf $HOME!")
    /\ sh_word NO_QUOTE out = Some (cstr "it's; rm -rf $HOME!").
Proof.
  apply (quote_file_name_one_word (cstr "it's; rm -rf $HOME!") 100); vm_compute; discriminate.
Defined.

(** ** Matching in a list of names *)

Definition prefix_of (a b : bytes) : bool := bool_decide (ztake (zlen a) b = a).

(** What the loop tests: the last name for equality, the others as prefixes. *)
Fixpoint group_matches (toks : list bytes) (object : bytes) : bool :=
  match toks with
  | [] => false
  | [t] => bool_decide (t = object)
  | t :: toks => prefix_of t object || group_matches toks object
  end.

Lemma group_matches_cons t u ts o :
  group_matches (t :: u :: ts) o = prefix_of t o || group_matches (u :: ts) o.
Proof. done. Qed.

Lemma ssh_match_group_spec group object :
  ssh_match_group group object
  = Some (if group_matches (split_on comma group) object then 1 else 0).
Proof.
  unfold ssh_match_group. assert (Hle : (length group < S (length group))%nat) by lia.
  revert Hle. generalize (S (length group)) as fuel. intros fuel. revert group.
  induction fuel as [|fuel IH]; intros z Hle; [lia|]. cbn [match_group_loop].
  destruct (strchr z ","%byte) as [n|] eqn:Hc.
  - destruct (strchr_some comma z n) as (Hn & Hs & _ & Heq); [done|done|].
    rewrite Hs. destruct (split_on_cons comma (zdrop (n + 1) z)) as (u & ts & Hu).
    rewrite Hu, group_matches_cons, <- Hu.
    assert (Hp : strncmp0 z object n = prefix_of (ztake n z) object).
    { unfold strncmp0, prefix_of. rewrite zlen_take.
      replace (Z.max 0 (Z.min n (zlen z))) with n by lia. apply bool_decide_ext. split; intros Hx; by symmetry. }
    rewrite Hp. destruct (prefix_of _ _); [done|]. cbn [orb]. apply IH.
    unfold zdrop, zlen in *. rewrite length_drop. lia.
  - rewrite (strchr_none comma z) by done. cbn [group_matches].
    by destruct (bool_decide (z = object)).
Qed.

(** [ssh_match_group] ends on every list; it accepts a name equal to the last of
    the list, and every name that starts with one of the others. *)
Theorem match_group_accepts group object :
  ssh_match_group group object
  = Some (if group_matches (split_on comma group) object then 1 else 0).
Proof. apply ssh_match_group_spec. Qed.

(** So an algorithm name that no list has is accepted when it extends one of
    them, and an empty name in a list accepts every name. *)
Theorem match_group_prefix_accepted :
  ssh_match_group (cstr "ssh-rsa,ssh-ed25519") (cstr "ssh-rsa-unknown") = Some 1
  /\ ssh_match_group (cstr ",ssh-ed25519") (cstr "ssh-dss") = Some 1
  /\ ssh_match_group (cstr "ssh-ed25519,ssh-rsa") (cstr "ssh-rsa-unknown") = Some 0.
Proof. by vm_compute. Qed.

(** ** Other properties *)

Lemma inc_loop_zlen l : length (inc_loop l) = length l.
Proof. induction l as [|c l IH]; cbn [inc_loop]; [done|]. destruct (negb _); cbn; lia. Qed.

Lemma le_val_inc l : le_val (inc_loop l) = (le_val l + 1) mod 256 ^ zlen l.
Proof.
  induction l as [|c l IH]; [done|]. cbn [inc_loop]. rewrite zlen_cons.
  pose proof (b2z_range c) as Hc. pose proof (le_val_range l) as Hl. pose proof (zlen_nonneg l).
  rewrite Z.pow_add_r by lia. unfold u8. change (256 ^ 1) with 256.
  change (2 ^ 8) with 256. rewrite le_val_cons.
  destruct (decide (b2z c = 255)) as [H255|Hne].
  - rewrite H255. change (b2z (z2b ((255 + 1) mod 256)) =? 0) with true. cbn [negb].
    rewrite le_val_cons, IH. change (b2z (z2b ((255 + 1) mod 256))) with 0.
    replace (255 + 256 * le_val l + 1) with (256 * (le_val l + 1)) by lia.
    rewrite Z.mul_mod_distr_l by lia. lia.
  - rewrite (Z.mod_small (b2z c + 1)), b2z_z2b, (Z.mod_small (b2z c + 1)) by lia.
    destruct (Z.eqb_spec (b2z c + 1) 0); [lia|].
    cbn [negb]. rewrite le_val_cons, b2z_z2b, (Z.mod_small (b2z c + 1)) by lia. rewrite Z.mod_small; lia.
Qed.

(** [uint64_inc] adds one to a counter in network byte order, modulo its size. *)
Theorem uint64_inc_adds_one c :
  be_val (uint64_inc c) = (be_val c + 1) mod 256 ^ zlen c
  /\ length (uint64_inc c) = length c.
Proof.
  unfold uint64_inc, be_val. rewrite rev_involutive, le_val_inc, length_rev, inc_loop_zlen, length_rev.
  unfold zlen. by rewrite length_rev.
Qed.

(** Against its comment, [ssh_basename] keeps the trailing slashes of a path that
    has no other. *)
Theorem basename_keeps_trailing_slash :
  @ssh_basename calloc_allocator (Some (cstr "windterm/")) = Some (cstr "windterm/")
  /\ @ssh_basename calloc_allocator (Some (cstr "/opt/windterm/")) = Some (cstr "windterm").
Proof. by vm_compute. Qed.

(** [ssh_get_hexa] of no byte stores its terminator before the block. *)
Theorem get_hexa_empty_underflow : @ssh_get_hexa calloc_allocator [] 0 = None.
Proof. by vm_compute. Qed.

(** The version of an OpenSSH peer is recognised when its major number has one
    digit only. *)
Theorem openssh_10_unrecognised :
  ssh_analyze_banner 0 (Some (cstr "SSH-2.0-OpenSSH_8.4")) = (0, Some (SSH_VERSION_INT 8 4 0))
  /\ ssh_analyze_banner 0 (Some (cstr "SSH-2.0-OpenSSH_10.0")) = (0, None).
Proof. by vm_compute. Qed.
