(* ===== verification/SshList.v ===== *)
(** * Linked lists ([struct ssh_list] of [libssh/src/misc.c])

    The singly linked list with a tail pointer that holds the channels of a
    session, the message queue and the callbacks.  The iterators live in a heap of
    cells; reading or freeing a cell that is not allocated has no result.  The
    operations refine those of a sequence, whatever cells the rest of the program
    owns. *)

From stdpp Require Import gmap.
From S2P Require Import Prelude.

Section Lists.
Context `{Allocator} {A : Type} `{EqDecision A}.

Record ssh_iterator := mk_iterator { it_next : option positive; it_data : A }.
Record ssh_list := mk_list { root : option positive; end_ : option positive }.
Abbreviation cells := (gmap positive ssh_iterator).

Definition sizeof_list : Z := 16.
Definition sizeof_iterator : Z := 16.

(** ** The code: a null [struct ssh_list *] is [None] *)

Definition ssh_list_new : option ssh_list :=
  match malloc sizeof_list with Some _ => Some (mk_list None None) | None => None end.

Definition ssh_list_get_iterator (list : option ssh_list) : option positive :=
  match list with Some l => root l | None => None end.

(** A walk from [ptr]; [n] bounds the number of steps. *)
Fixpoint find_from (n : nat) (h : cells) (ptr : option positive) (value : A)
    : run (option positive) :=
  match ptr, n with
  | None, _ => Some None
  | Some _, O => None
  | Some p, S n =>
      it ← h !! p;
      if decide (it_data it = value) then Some (Some p) else find_from n h (it_next it) value
  end.

Definition ssh_list_find (h : cells) (list : option ssh_list) (value : A) : run (option positive) :=
  find_from (size h) h (ssh_list_get_iterator list) value.

(** The count is an [int], whose overflow is undefined. *)
Fixpoint count_from (n : nat) (h : cells) (ptr : option positive) (count : Z) : run Z :=
  match ptr, n with
  | None, _ => Some count
  | Some _, O => None
  | Some p, S n =>
      if (count =? INT_MAX)%Z then None else it ← h !! p; count_from n h (it_next it) (count + 1)
  end.

Definition ssh_list_count (h : cells) (list : option ssh_list) : run Z :=
  count_from (size h) h (ssh_list_get_iterator list) 0.

Definition ssh_iterator_new (h : cells) (data : A) : option (positive * cells) :=
  match malloc sizeof_iterator with
  | None => None
  | Some _ => let p := fresh (dom h) in Some (p, <[p := mk_iterator None data]> h)
  end.

Definition set_next (h : cells) (p : positive) (next : option positive) : run cells :=
  it ← h !! p; Some (<[p := mk_iterator next (it_data it)]> h).

Definition ssh_list_append (h : cells) (list : option ssh_list) (data : A)
    : run (Z * option ssh_list * cells) :=
  match list with
  | None => Some (SSH_ERROR, None, h)
  | Some l =>
      match ssh_iterator_new h data with
      | None => Some (SSH_ERROR, Some l, h)
      | Some (iterator, h) =>
          match end_ l with
          | None => Some (SSH_OK, Some (mk_list (Some iterator) (Some iterator)), h)
          | Some e =>
              h ← set_next h e (Some iterator);
              Some (SSH_OK, Some (mk_list (root l) (Some iterator)), h)
          end
      end
  end.

Definition ssh_list_prepend (h : cells) (list : option ssh_list) (data : A)
    : run (Z * option ssh_list * cells) :=
  match list with
  | None => Some (SSH_ERROR, None, h)
  | Some l =>
      match ssh_iterator_new h data with
      | None => Some (SSH_ERROR, Some l, h)
      | Some (it, h) =>
          match end_ l with
          | None => Some (SSH_OK, Some (mk_list (Some it) (Some it)), h)
          | Some _ =>
              h ← set_next h it (root l);
              Some (SSH_OK, Some (mk_list (Some it) (end_ l)), h)
          end
      end
  end.

(** The search of [ssh_list_remove]: [prev] and [ptr] at the end of the loop. *)
Fixpoint remove_search (n : nat) (h : cells) (prev ptr : option positive) (iterator : positive)
    : run (option positive * option positive) :=
  match ptr, n with
  | None, _ => Some (prev, None)
  | Some _, O => None
  | Some p, S n =>
      if decide (p = iterator) then Some (prev, Some p) else
      it ← h !! p; remove_search n h (Some p) (it_next it) iterator
  end.

Definition ssh_list_remove (h : cells) (list : option ssh_list) (iterator : positive)
    : run (option ssh_list * cells) :=
  match list with
  | None => Some (None, h)
  | Some l =>
      '(prev, ptr) ← remove_search (size h) h None (root l) iterator;
      match ptr with
      | None => Some (Some l, h)
      | Some ptr =>
          it ← h !! ptr;
          h ← match prev with Some prev => set_next h prev (it_next it) | None => Some h end;
          let root := if decide (root l = Some iterator) then it_next it else root l in
          let end_ := if decide (end_ l = Some iterator) then prev else end_ l in
          Some (Some (mk_list root end_), delete iterator h)
      end
  end.

Definition ssh_list_pop_head (h : cells) (list : option ssh_list)
    : run (option A * option ssh_list * cells) :=
  match list with
  | None => Some (None, None, h)
  | Some l =>
      match root l with
      | None => Some (None, Some l, h)
      | Some iterator =>
          it ← h !! iterator;
          let end_ := if decide (end_ l = Some iterator) then None else end_ l in
          Some (Some (it_data it), Some (mk_list (it_next it) end_), delete iterator h)
      end
  end.

Fixpoint free_from (n : nat) (h : cells) (ptr : option positive) : run cells :=
  match ptr, n with
  | None, _ => Some h
  | Some _, O => None
  | Some p, S n => it ← h !! p; free_from n (delete p h) (it_next it)
  end.

Definition ssh_list_free (h : cells) (list : option ssh_list) : run cells :=
  match list with None => Some h | Some l => free_from (size h) h (root l) end.

(** ** What a list represents *)

(** The cells from [p] on, with their addresses. *)
Fixpoint chain (h : cells) (p : option positive) (nodes : list (positive * A)) : Prop :=
  match nodes with
  | [] => p = None
  | (a, d) :: rest => p = Some a /\ exists next, h !! a = Some (mk_iterator next d) /\ chain h next rest
  end.

Record represents (h : cells) (l : ssh_list) (nodes : list (positive * A)) : Prop := {
  rep_chain : chain h (root l) nodes;
  rep_nodup : NoDup nodes.*1;
  rep_end : end_ l = last nodes.*1
}.

(** The cells of the rest of the program. *)
Definition other_cells (h : cells) (own : list positive) (p : positive) : option ssh_iterator :=
  if decide (p ∈ own) then None else h !! p.

End Lists.
Arguments ssh_iterator : clear implicits.

Section Facts.
Context `{Allocator} {A : Type} `{EqDecision A}.
#[local] Abbreviation cells := (gmap positive (ssh_iterator A)).
#[local] Abbreviation nodes := (list (positive * A)).
Implicit Types (h : cells) (ns : nodes) (l : ssh_list).

Lemma chain_agree h h' p ns :
  chain h p ns -> (forall a, a ∈ ns.*1 -> h' !! a = h !! a) -> chain h' p ns.
Proof.
  revert p; induction ns as [|[a d] ns IH]; intros p; cbn [chain]; [done|].
  intros [-> (n & Ha & Hc)] Heq. split; [done|]. exists n. split.
  - rewrite Heq; [done|set_solver].
  - apply IH; [done|]. intros b Hb. apply Heq. set_solver.
Qed.

Lemma chain_dom h p ns a : chain h p ns -> a ∈ ns.*1 -> is_Some (h !! a).
Proof.
  revert p; induction ns as [|[b d] ns IH]; intros p; cbn; [set_solver|].
  intros [-> (n & Hb & Hc)] [->|Ha]%elem_of_cons; [by eexists|eauto].
Qed.

(** The cells of a list are distinct, so there is fuel for a walk over it. *)
Lemma chain_fuel h p ns : chain h p ns -> NoDup ns.*1 -> (length ns <= size h)%nat.
Proof.
  intros Hc Hn. rewrite <-(length_fmap fst ns), <-size_dom.
  rewrite <-(size_list_to_set (C:=gset positive)) by done. apply subseteq_size.
  intros a Ha%elem_of_list_to_set.
  apply elem_of_dom. by eapply chain_dom.
Qed.

Lemma fresh_not_in h ns p : chain h p ns -> fresh (dom h) ∉ ns.*1.
Proof.
  intros Hc Hin. destruct (chain_dom _ _ _ _ Hc Hin) as [x Hx].
  apply (is_fresh (dom h)). apply elem_of_dom. by rewrite Hx.
Qed.

Lemma fresh_none h : h !! fresh (dom h) = None.
Proof. apply not_elem_of_dom, is_fresh. Qed.

(** The first cell that holds a value. *)
Fixpoint first_with (ns : nodes) (v : A) : option positive :=
  match ns with
  | [] => None
  | (a, d) :: ns => if decide (d = v) then Some a else first_with ns v
  end.

Lemma find_from_spec h ns : forall n p v,
  chain h p ns -> (length ns <= n)%nat -> find_from n h p v = Some (first_with ns v).
Proof.
  induction ns as [|[a d] ns IH]; intros n p v; cbn [chain length first_with].
  - intros -> _. by destruct n.
  - intros [-> (nx & Ha & Hc)] Hn. destruct n; [lia|]. cbn. rewrite Ha. cbn.
    case_decide; [done|]. apply IH; [done|lia].
Qed.

Lemma count_from_spec h ns : forall n p c,
  chain h p ns -> (length ns <= n)%nat -> (c + zlen ns <= INT_MAX)%Z -> count_from n h p c = Some (c + zlen ns)%Z.
Proof.
  induction ns as [|[a d] ns IH]; intros n p c; cbn [chain length].
  - intros -> _ _. destruct n; cbn; do 2 f_equal; zlen_lia.
  - intros [-> (nx & Ha & Hc)] Hn Hmax. destruct n; [lia|]. rewrite zlen_cons in Hmax |- *. pose proof (zlen_nonneg ns).
    cbn [count_from]. rewrite (proj2 (Z.eqb_neq c INT_MAX)) by lia. rewrite Ha. cbn [mbind option_bind it_next].
    rewrite (IH n nx (c + 1)%Z) by (done || lia). f_equal. lia.
Qed.

Lemma ssh_list_find_spec h l ns v :
  represents h l ns -> ssh_list_find h (Some l) v = Some (first_with ns v).
Proof. intros [Hc Hn _]. eapply find_from_spec, chain_fuel; eauto. Qed.

Lemma ssh_list_count_spec h l ns :
  represents h l ns -> (zlen ns <= INT_MAX)%Z -> ssh_list_count h (Some l) = Some (zlen ns).
Proof. intros [Hc Hn _] Hmax. by apply (count_from_spec h ns _ _ 0); [|eapply chain_fuel|]. Qed.

(** The last cell of a chain is the one whose [next] is written by an append. *)
Lemma chain_snoc h p ns a d q : chain h p ns -> NoDup ns.*1 -> a ∉ ns.*1 ->
  h !! a = Some (mk_iterator None d) -> last ns.*1 = Some q ->
  exists x, h !! q = Some (mk_iterator None x)
    /\ chain (<[q := mk_iterator (Some a) x]> h) p (ns ++ [(a, d)]).
Proof.
  revert p; induction ns as [|[b e] ns IH]; intros p; [done|].
  cbn [chain fmap list_fmap fst]. intros [-> (n & Hb & Hc)] Hnd Ha Had Hl.
  apply NoDup_cons in Hnd as [Hbn Hnd]. destruct ns as [|c ns].
  - cbn in *. injection Hl as <-. subst n. exists e. split; [done|]. split; [done|].
    exists (Some a). split; [by simpl_map|]. split; [done|]. exists None.
    rewrite lookup_insert_ne by set_solver. done.
  - destruct (IH n Hc Hnd) as (x & Hx & Hch); [set_solver|done|by destruct c|].
    exists x. split; [done|]. cbn [app chain]. split; [done|]. exists n. split; [|done].
    rewrite lookup_insert_ne; [done|]. intros ->.
    destruct c as [c1 c2]. cbn in Hl.
    apply Hbn. by apply last_Some_elem_of.
Qed.
End Facts.

Section Operations.
Context `{Allocator} {A : Type} `{EqDecision A}.
#[local] Abbreviation cells := (gmap positive (ssh_iterator A)).
#[local] Abbreviation nodes := (list (positive * A)).
Implicit Types (h : cells) (ns : nodes) (l : ssh_list).

(** What an operation on the list of [ns] does: the list has become the one of
    [ns'], no other cell has changed, and no cell is left over. *)
Definition becomes h ns h' l' ns' : Prop :=
  represents h' l' ns' /\ forall p, other_cells h' ns'.*1 p = other_cells h ns.*1 p.

Lemma iterator_new_spec h d :
  ssh_iterator_new h d = None /\ malloc sizeof_iterator = None
  \/ ssh_iterator_new h d = Some (fresh (dom h), <[fresh (dom h) := mk_iterator None d]> h)
     /\ malloc sizeof_iterator <> None.
Proof. unfold ssh_iterator_new. destruct (malloc _); [by right|by left]. Qed.

Lemma set_next_spec h p n d next :
  h !! p = Some (mk_iterator n d) -> set_next h p next = Some (<[p := mk_iterator next d]> h).
Proof. intros Hp. unfold set_next. by rewrite Hp. Qed.

(** Other cells are kept when they are owned before exactly if they are after,
    or were free, or are. *)
Lemma others_intro h own h' own' :
  (forall p, p ∈ own -> p ∉ own' -> h' !! p = None) ->
  (forall p, p ∈ own' -> p ∉ own -> h !! p = None) ->
  (forall p, p ∉ own -> p ∉ own' -> h' !! p = h !! p) ->
  forall p, other_cells h' own' p = other_cells h own p.
Proof.
  intros H1 H2 H3 p. unfold other_cells. do 2 case_decide; auto. symmetry. auto.
Qed.

Lemma fresh_others h own own' x :
  (forall p, p ∈ own' <-> p = fresh (dom h) \/ p ∈ own) ->
  forall p, other_cells (<[fresh (dom h) := x]> h) own' p = other_cells h own p.
Proof.
  intros Hin. apply others_intro.
  - intros p ? Hp. destruct Hp. apply Hin. by right.
  - intros p [->|?]%Hin ?; [apply fresh_none|done].
  - intros p _ Hp. apply lookup_insert_ne. intros <-. apply Hp, Hin. by left.
Qed.

Lemma append_spec h l ns d :
  represents h l ns -> malloc sizeof_iterator <> None ->
  exists l' h', ssh_list_append h (Some l) d = Some (SSH_OK, Some l', h')
    /\ becomes h ns h' l' (ns ++ [(fresh (dom h), d)]).
Proof.
  intros [Hc Hn He] Hm. unfold ssh_list_append.
  destruct (iterator_new_spec h d) as [[_ ?]|[-> _]]; [done|].
  pose proof (fresh_not_in _ _ _ Hc) as Hf. set (a := fresh (dom h)) in *.
  assert (Hnew : chain (<[a := mk_iterator None d]> h) (root l) ns).
  { eapply chain_agree; [done|]. intros b Hb. rewrite lookup_insert_ne by set_solver. done. }
  rewrite He. destruct (last ns.*1) as [q|] eqn:Hl.
  - destruct (chain_snoc _ _ _ a d q Hnew Hn Hf) as (x & Hx & Hch); [by simpl_map|done|].
    rewrite (set_next_spec _ _ _ _ _ Hx). cbn. do 2 eexists. split; [done|]. split; [split; cbn|].
    + done.
    + rewrite fmap_app. apply NoDup_app. split_and!; [done|set_solver|]. apply NoDup_singleton.
    + by rewrite fmap_app, last_app.
    + apply last_Some_elem_of in Hl. rewrite fmap_app. apply others_intro.
      * set_solver.
      * intros p [?|Hp]%elem_of_app Hp'; [done|]. apply list_elem_of_singleton in Hp as ->. apply fresh_none.
      * intros p Hp [_ Ha]%not_elem_of_app. rewrite !lookup_insert_ne; [done| |]; set_solver.
  - apply last_None in Hl. destruct ns; [|done]. do 2 eexists. split; [done|]. split; [split; cbn|].
    + split; [done|]. exists None. split; [by simpl_map|done].
    + apply NoDup_singleton.
    + done.
    + apply fresh_others. set_solver.
Qed.

Lemma prepend_spec' h l ns d :
  represents h l ns -> malloc sizeof_iterator <> None ->
  exists l' h', ssh_list_prepend h (Some l) d = Some (SSH_OK, Some l', h')
    /\ becomes h ns h' l' ((fresh (dom h), d) :: ns).
Proof.
  intros [Hc Hn He] Hm. unfold ssh_list_prepend.
  destruct (iterator_new_spec h d) as [[_ ?]|[-> _]]; [done|].
  pose proof (fresh_not_in _ _ _ Hc) as Hf. set (a := fresh (dom h)) in *.
  rewrite He. destruct (last ns.*1) as [q|] eqn:Hl.
  - rewrite (set_next_spec _ _ None d) by by simpl_map. cbn. do 2 eexists. split; [done|].
    rewrite insert_insert, decide_True by done. split; [split; cbn|].
    + split; [done|]. exists (root l). split; [by simpl_map|]. eapply chain_agree; [done|].
      intros b Hb. rewrite lookup_insert_ne by set_solver. done.
    + by apply NoDup_cons.
    + destruct ns; [done|]. cbn in *. by rewrite Hl.
    + apply fresh_others. set_solver.
  - apply last_None in Hl. destruct ns; [|done]. do 2 eexists. split; [done|]. split; [split; cbn|].
    + split; [done|]. exists None. split; [by simpl_map|done].
    + apply NoDup_singleton.
    + done.
    + apply fresh_others. set_solver.
Qed.

Lemma append_fails h l d :
  malloc sizeof_iterator = None -> ssh_list_append h (Some l) d = Some (SSH_ERROR, Some l, h).
Proof. intros Hm. unfold ssh_list_append, ssh_iterator_new. by rewrite Hm. Qed.

Lemma prepend_fails h l d :
  malloc sizeof_iterator = None -> ssh_list_prepend h (Some l) d = Some (SSH_ERROR, Some l, h).
Proof. intros Hm. unfold ssh_list_prepend, ssh_iterator_new. by rewrite Hm. Qed.

Lemma pop_head_spec h l a d ns :
  represents h l ((a, d) :: ns) ->
  exists l' h', ssh_list_pop_head h (Some l) = Some (Some d, Some l', h')
    /\ becomes h ((a, d) :: ns) h' l' ns /\ h' !! a = None.
Proof.
  intros [Hc Hn He]. cbn in Hc. destruct Hc as [Hr (n & Ha & Hc)]. unfold ssh_list_pop_head.
  rewrite Hr, Ha. cbn [mbind option_bind it_data it_next]. do 2 eexists. split; [done|].
  cbn in Hn. apply NoDup_cons in Hn as [Han Hn]. split; [split; [split; cbn|]|by simpl_map].
  - eapply chain_agree; [done|]. intros b Hb. apply lookup_delete_ne. set_solver.
  - done.
  - rewrite He. destruct ns as [|[b e] ns]; cbn; [by rewrite decide_True|].
    rewrite decide_False; [done|]. intros Heq.
    assert (Hin : a ∈ (b :: ns.*1)) by by apply last_Some_elem_of. done.
  - apply others_intro; cbn; [|set_solver|].
    + intros p [->|?]%elem_of_cons ?; [by simpl_map|done].
    + intros p Hp _. apply lookup_delete_ne. set_solver.
Qed.

Lemma pop_head_empty h l : represents h l [] -> ssh_list_pop_head h (Some l) = Some (None, Some l, h).
Proof. intros [Hc _ _]. cbn in Hc. unfold ssh_list_pop_head. by rewrite Hc. Qed.
End Operations.

Section Removal.
Context `{Allocator} {A : Type} `{EqDecision A}.
#[local] Abbreviation cells := (gmap positive (ssh_iterator A)).
#[local] Abbreviation nodes := (list (positive * A)).
Implicit Types (h : cells) (ns : nodes) (l : ssh_list).

Lemma remove_search_spec h a d post : forall pre n p prev,
  chain h p (pre ++ (a, d) :: post) -> NoDup (pre ++ (a, d) :: post).*1 ->
  (length (pre ++ (a, d) :: post) <= n)%nat ->
  remove_search n h prev p a
  = Some (match last pre.*1 with Some q => Some q | None => prev end, Some a).
Proof.
  induction pre as [|[b e] pre IH]; intros n p prev; cbn [app chain length].
  - intros [-> (nx & Ha & Hc)] _ Hn. destruct n; [lia|]. cbn. by rewrite decide_True.
  - intros [-> (nx & Hb & Hc)] Hnd Hn. destruct n; [lia|]. cbn [remove_search].
    cbn [fmap list_fmap fst] in Hnd. apply NoDup_cons in Hnd as [Hbn Hnd].
    rewrite decide_False; [|intros ->; apply Hbn; rewrite fmap_app; set_solver]. rewrite Hb. cbn.
    rewrite (IH n nx (Some b) Hc Hnd) by lia. rewrite ?fmap_cons, ?last_cons. by destruct (last pre.*1).
Qed.

Lemma remove_search_none h a : forall ns n p prev,
  chain h p ns -> a ∉ ns.*1 -> (length ns <= n)%nat ->
  exists q, remove_search n h prev p a = Some (q, None).
Proof.
  induction ns as [|[b e] ns IH]; intros n p prev; cbn [chain length].
  - intros -> _ _. exists prev. by destruct n.
  - intros [-> (nx & Hb & Hc)] Ha Hn. destruct n; [lia|]. cbn [remove_search].
    rewrite decide_False by set_solver. rewrite Hb. cbn. apply IH; [done|set_solver|lia].
Qed.

(** Unlinking the cell after [q]. *)
Lemma chain_unlink h a d post q x : forall pre p,
  chain h p (pre ++ (q, x) :: (a, d) :: post) -> NoDup (pre ++ (q, x) :: (a, d) :: post).*1 ->
  exists next, h !! a = Some (mk_iterator next d) /\ h !! q = Some (mk_iterator (Some a) x)
    /\ chain (delete a (<[q := mk_iterator next x]> h)) p (pre ++ (q, x) :: post).
Proof.
  induction pre as [|[b e] pre IH]; intros p; cbn [app chain].
  - intros [-> (? & Hq & -> & nx & Ha & Hc)] Hnd. exists nx. split_and!; [done..|].
    cbn in Hnd. rewrite !NoDup_cons in Hnd. destruct Hnd as (Hqn & Han & Hnd).
    exists nx. split; [rewrite lookup_delete_ne by set_solver; by simpl_map|].
    eapply chain_agree; [done|]. intros c Hc'.
    rewrite lookup_delete_ne, lookup_insert_ne by set_solver. done.
  - intros [-> (nx & Hb & Hc)] Hnd. cbn [fmap list_fmap fst] in Hnd.
    apply NoDup_cons in Hnd as [Hbn Hnd].
    destruct (IH nx Hc Hnd) as (nx' & Ha & Hq & Hch). exists nx'. split_and!; [done..|].
    exists nx. split; [|done].
    rewrite lookup_delete_ne, lookup_insert_ne; [done| |]; intros <-; apply Hbn; rewrite fmap_app; set_solver.
Qed.

Lemma remove_spec h l pre a d post :
  represents h l (pre ++ (a, d) :: post) ->
  exists l' h', ssh_list_remove h (Some l) a = Some (Some l', h')
    /\ becomes h (pre ++ (a, d) :: post) h' l' (pre ++ post).
Proof.
  intros [Hc Hn He]. unfold ssh_list_remove.
  rewrite (remove_search_spec _ _ _ _ _ _ _ None Hc Hn (chain_fuel _ _ _ Hc Hn)).
  assert (Hsub : NoDup (pre ++ post).*1).
  { rewrite fmap_app in Hn |- *. apply NoDup_app in Hn as (Hn1 & Hn2 & Hn3). cbn in Hn2, Hn3.
    apply NoDup_cons in Hn3 as [_ Hn3]. apply NoDup_app. split_and!; [done| |done].
    intros p Hp. specialize (Hn2 p Hp). by apply not_elem_of_cons in Hn2 as [_ ?]. }
  assert (Hkeep : forall h' : cells, (forall p, p <> a -> p ∉ pre.*1 -> h' !! p = h !! p) -> h' !! a = None ->
    forall p, other_cells h' (pre ++ post).*1 p = other_cells h (pre ++ (a, d) :: post).*1 p).
  { intros h' Hh Ha. apply others_intro.
    - rewrite !fmap_app. intros p [?|[->|?]%elem_of_cons]%elem_of_app Hp'; [|done|]; set_solver.
    - rewrite !fmap_app. intros p [?|?]%elem_of_app []%not_elem_of_app; set_solver.
    - rewrite !fmap_app. intros p []%not_elem_of_app _. apply Hh; set_solver. }
  destruct pre as [|[q x] pre _] using rev_ind; cbn [app fmap list_fmap fst last].
  - cbn in Hc. destruct Hc as [Hr (n & Ha & Hc)]. cbn [mbind option_bind]. rewrite Ha. cbn.
    rewrite decide_True by done. do 2 eexists. split; [done|]. cbn in Hn, He.
    apply NoDup_cons in Hn as [Han Hn]. split; [split; cbn|].
    + eapply chain_agree; [done|]. intros b Hb. apply lookup_delete_ne. set_solver.
    + done.
    + rewrite He. destruct post as [|[b e] post]; cbn; [by rewrite decide_True|].
      rewrite decide_False; [done|]. intros Heq.
      assert (Hin : a ∈ (b :: post.*1)) by by apply last_Some_elem_of. done.
    + apply Hkeep; [intros; by apply lookup_delete_ne|by simpl_map].
  - rewrite <-app_assoc in Hc, Hn. cbn in Hc, Hn. rewrite fmap_app, last_app.
    destruct (chain_unlink _ _ _ _ _ _ _ _ Hc Hn) as (n & Ha & Hq & Hch).
    cbn. rewrite Ha. cbn. rewrite (set_next_spec _ _ _ _ _ Hq). cbn.
    assert (Hroot : root l <> Some a).
    { destruct pre as [|[b e] pre]; cbn in Hc, Hn; destruct Hc as [-> _]; intros [= ->];
        apply NoDup_cons in Hn as [Hn _]; apply Hn; rewrite ?fmap_app; set_solver. }
    rewrite decide_False by done. do 2 eexists. split; [done|].
    split; [split; cbn|].
    + by rewrite <-app_assoc.
    + done.
    + rewrite He, !fmap_app, !last_app. cbn. destruct post as [|[b e] post]; cbn.
      * by rewrite decide_True.
      * rewrite decide_False; [done|]. intros Heq.
        assert (Hin : a ∈ (b :: post.*1)).
        { apply last_Some_elem_of. rewrite last_cons in Heq |- *. by destruct (last post.*1). }
        rewrite fmap_app in Hn. apply NoDup_app in Hn as (_ & _ & Hn). cbn in Hn.
        rewrite !NoDup_cons in Hn. by destruct Hn as (_ & Hn & _).
    + apply Hkeep; [|by simpl_map]. intros p Hpa Hp. rewrite fmap_app in Hp.
      rewrite lookup_delete_ne, lookup_insert_ne by set_solver. done.
Qed.

Lemma remove_absent h l ns a :
  represents h l ns -> a ∉ ns.*1 -> ssh_list_remove h (Some l) a = Some (Some l, h).
Proof.
  intros [Hc Hn He] Ha. unfold ssh_list_remove.
  destruct (remove_search_none h a ns (size h) (root l) None) as [q ->];
    [done|done|by eapply chain_fuel|done].
Qed.

Lemma free_from_spec : forall ns n h p, chain h p ns -> NoDup ns.*1 -> (length ns <= n)%nat ->
  exists h', free_from n h p = Some h' /\ forall q, h' !! q = other_cells h ns.*1 q.
Proof.
  induction ns as [|[b e] ns IH]; intros n h p; cbn [chain length].
  - intros -> _ _. exists h. split; [by destruct n|]. intros q. unfold other_cells.
    rewrite decide_False; [done|set_solver].
  - intros [-> (nx & Hb & Hc)] Hnd Hn. destruct n; [lia|]. cbn [free_from]. rewrite Hb.
    cbn [mbind option_bind it_next]. cbn in Hnd. apply NoDup_cons in Hnd as [Hbn Hnd].
    destruct (IH n (delete b h) nx) as (h' & -> & Hh).
    + eapply chain_agree; [done|]. intros a Ha. apply lookup_delete_ne. set_solver.
    + done.
    + lia.
    + exists h'. split; [done|]. intros q. rewrite Hh. unfold other_cells. cbn [fmap list_fmap fst].
      destruct (decide (q = b)) as [->|Hqb].
      * rewrite decide_False by done. rewrite decide_True by set_solver. by simpl_map.
      * rewrite lookup_delete_ne by done. repeat case_decide; set_solver.
Qed.

(** Freeing a list frees its cells and no other. *)
Lemma list_free_spec h l ns : represents h l ns ->
  exists h', ssh_list_free h (Some l) = Some h' /\ forall q, h' !! q = other_cells h ns.*1 q.
Proof. intros [Hc Hn _]. eapply free_from_spec, chain_fuel; eauto. Qed.
End Removal.

(** ** Refinement of sequences *)

Section Refinement.
Context `{Allocator} {A : Type} `{EqDecision A}.
#[local] Abbreviation cells := (gmap positive (ssh_iterator A)).
#[local] Abbreviation nodes := (list (positive * A)).
Implicit Types (h : cells) (ns : nodes) (l : ssh_list) (xs : list A).

Inductive list_op := Append (d : A) | Prepend (d : A) | PopHead | Find (d : A) | Remove (d : A) | Count.
Inductive list_reply := Code (rc : Z) | Popped (d : option A) | Found (b : bool) | Counted (n : Z).

(** The functions above as the code calls them: an element is removed after
    it has been found. *)
Definition list_step h l (op : list_op) : run (list_reply * option ssh_list * cells) :=
  match op with
  | Append d => '(rc, l, h) ← ssh_list_append h (Some l) d; Some (Code rc, l, h)
  | Prepend d => '(rc, l, h) ← ssh_list_prepend h (Some l) d; Some (Code rc, l, h)
  | PopHead => '(d, l, h) ← ssh_list_pop_head h (Some l); Some (Popped d, l, h)
  | Find d => it ← ssh_list_find h (Some l) d; Some (Found (bool_decide (it <> None)), Some l, h)
  | Remove d =>
      it ← ssh_list_find h (Some l) d;
      match it with
      | None => Some (Found false, Some l, h)
      | Some it => '(l, h) ← ssh_list_remove h (Some l) it; Some (Found true, l, h)
      end
  | Count => n ← ssh_list_count h (Some l); Some (Counted n, Some l, h)
  end.

Fixpoint list_run h l (ops : list list_op) : run (list list_reply * ssh_list * cells) :=
  match ops with
  | [] => Some ([], l, h)
  | op :: ops =>
      '(r, l, h) ← list_step h l op; l ← l;
      '(rs, l, h) ← list_run h l ops; Some (r :: rs, l, h)
  end.

(** The specification: a sequence of elements. *)
Fixpoint remove_first (v : A) xs : list A :=
  match xs with
  | [] => []
  | x :: xs => if decide (x = v) then xs else x :: remove_first v xs
  end.

Definition memory_left : bool := match malloc sizeof_iterator with Some _ => true | None => false end.

Definition seq_step xs (op : list_op) : list_reply * list A :=
  match op with
  | Append d => if memory_left then (Code SSH_OK, xs ++ [d]) else (Code SSH_ERROR, xs)
  | Prepend d => if memory_left then (Code SSH_OK, d :: xs) else (Code SSH_ERROR, xs)
  | PopHead => (Popped (head xs), tail xs)
  | Find d => (Found (bool_decide (d ∈ xs)), xs)
  | Remove d => (Found (bool_decide (d ∈ xs)), remove_first d xs)
  | Count => (Counted (zlen xs), xs)
  end.

Fixpoint seq_run xs (ops : list list_op) : list list_reply * list A :=
  match ops with
  | [] => ([], xs)
  | op :: ops => let '(r, xs) := seq_step xs op in let '(rs, xs) := seq_run xs ops in (r :: rs, xs)
  end.

Lemma first_with_spec ns v :
  match first_with ns v with
  | Some a => exists pre post, ns = pre ++ (a, v) :: post /\ v ∉ pre.*2
  | None => v ∉ ns.*2
  end.
Proof.
  induction ns as [|[a d] ns IH]; cbn [first_with]; [set_solver|].
  case_decide as Hd.
  - subst. exists [], ns. split; [done|set_solver].
  - destruct (first_with ns v) as [b|].
    + destruct IH as (pre & post & -> & Hv). exists ((a, d) :: pre), post. split; [done|set_solver].
    + set_solver.
Qed.

Lemma remove_first_mid v xs ys : v ∉ xs -> remove_first v (xs ++ v :: ys) = xs ++ ys.
Proof.
  induction xs as [|x xs IH]; cbn; intros Hv; [by rewrite decide_True|].
  rewrite decide_False by set_solver. f_equal. apply IH. set_solver.
Qed.

Lemma remove_first_absent v xs : v ∉ xs -> remove_first v xs = xs.
Proof.
  induction xs as [|x xs IH]; cbn; intros Hv; [done|].
  rewrite decide_False by set_solver. f_equal. apply IH. set_solver.
Qed.

Lemma becomes_refl h l ns : represents h l ns -> becomes h ns h l ns.
Proof. by split. Qed.

(** One operation. *)
Lemma list_step_refines h l ns op : represents h l ns -> (zlen ns <= INT_MAX)%Z ->
  exists r l' h' ns', list_step h l op = Some (r, Some l', h')
    /\ seq_step ns.*2 op = (r, ns'.*2) /\ becomes h ns h' l' ns'.
Proof.
  intros Hrep Hmax. assert (Hsame := becomes_refl _ _ _ Hrep).
  assert (Hmem : (memory_left = true /\ malloc sizeof_iterator <> None)
    \/ (memory_left = false /\ malloc sizeof_iterator = None)).
  { unfold memory_left. destruct (malloc _); [by left|by right]. }
  destruct op as [d|d| |d|d| ]; cbn [list_step seq_step].
  - destruct Hmem as [[-> Hm]|[-> Hm]].
    + destruct (append_spec h l ns d Hrep Hm) as (l' & h' & -> & Hb). cbn.
      do 4 eexists. split_and!; [done| |done]. by rewrite fmap_app.
    + rewrite append_fails by done. cbn. by exists (Code SSH_ERROR), l, h, ns.
  - destruct Hmem as [[-> Hm]|[-> Hm]].
    + destruct (prepend_spec' h l ns d Hrep Hm) as (l' & h' & -> & Hb). cbn.
      by exists (Code SSH_OK), l', h', ((fresh (dom h), d) :: ns).
    + rewrite prepend_fails by done. cbn. by exists (Code SSH_ERROR), l, h, ns.
  - destruct ns as [|[a d] ns].
    + rewrite (pop_head_empty _ _ Hrep). cbn. by exists (Popped None), l, h, [].
    + destruct (pop_head_spec h l a d ns Hrep) as (l' & h' & -> & Hb & _). cbn. by exists (Popped (Some d)), l', h', ns.
  - rewrite (ssh_list_find_spec _ _ _ _ Hrep). cbn. do 4 eexists. split_and!; [done| |done].
    do 2 f_equal. pose proof (first_with_spec ns d) as Hf. apply bool_decide_ext.
    destruct (first_with ns d) as [a|]; [|naive_solver].
    destruct Hf as (pre & post & -> & _). rewrite fmap_app. set_solver.
  - rewrite (ssh_list_find_spec _ _ _ _ Hrep). cbn [mbind option_bind]. pose proof (first_with_spec ns d) as Hf.
    destruct (first_with ns d) as [a|].
    + destruct Hf as (pre & post & -> & Hv).
      destruct (remove_spec h l pre a d post Hrep) as (l' & h' & -> & Hb). cbn.
      do 4 eexists. split_and!; [done| |done]. rewrite !fmap_app. cbn.
      rewrite bool_decide_true, remove_first_mid by set_solver. done.
    + do 4 eexists. split_and!; [done| |done].
      by rewrite bool_decide_false, remove_first_absent by done.
  - rewrite (ssh_list_count_spec _ _ _ Hrep Hmax). cbn. do 4 eexists. split_and!; [done| |done].
    unfold zlen. by rewrite length_fmap.
Qed.

(** An operation adds at most one element. *)
Lemma seq_step_length xs op : (zlen (seq_step xs op).2 <= 1 + zlen xs)%Z.
Proof.
  assert (Hr : forall v ys, (zlen (remove_first v ys) <= zlen ys)%Z).
  { intros v ys. induction ys as [|y ys IH]; cbn [remove_first]; [done|]. case_decide; rewrite !zlen_cons; lia. }
  destruct op as [d|d| |d|d| ]; cbn [seq_step]; try destruct memory_left; cbn [snd]; rewrite ?zlen_app, ?zlen_cons, ?zlen_nil; try lia.
  all: try (by destruct xs; cbn [tail]; rewrite ?zlen_cons, ?zlen_nil; lia).
  all: pose proof (Hr d xs); lia.
Qed.

(** (C16) Every sequence of operations on a list, in any heap, answers as the same
    sequence of operations on the sequence of its elements, as long as the list
    cannot grow beyond what the [int] of [ssh_list_count] holds; it never reads a cell
    that is not allocated, leaves the cells of the rest of the program as they
    were, and frees every cell it takes out of the list. *)
Theorem list_refines_sequence ops h l ns : represents h l ns -> (zlen ns + zlen ops <= INT_MAX)%Z ->
  exists rs l' h' ns', list_run h l ops = Some (rs, l', h')
    /\ seq_run ns.*2 ops = (rs, ns'.*2) /\ becomes h ns h' l' ns'.
Proof.
  revert h l ns; induction ops as [|op ops IH]; intros h l ns Hrep Hmax; cbn [list_run seq_run].
  - do 4 eexists. split_and!; [done..|]. by apply becomes_refl.
  - rewrite zlen_cons in Hmax. pose proof (zlen_nonneg ops).
    destruct (list_step_refines h l ns op Hrep ltac:(lia)) as (r & l1 & h1 & ns1 & -> & Hs & Hb1).
    assert (Hz : forall ms : nodes, zlen ms.*2 = zlen ms) by (intros ms; unfold zlen; by rewrite length_fmap).
    pose proof (seq_step_length ns.*2 op) as Hl. rewrite Hs in Hl |- *. cbn [snd] in Hl. rewrite !Hz in Hl. cbn.
    destruct (IH h1 l1 ns1 (proj1 Hb1) ltac:(lia)) as (rs & l2 & h2 & ns2 & -> & -> & Hb2). cbn.
    do 4 eexists. split_and!; [done..|]. destruct Hb1 as [_ Ho1], Hb2 as [Hr Ho2].
    split; [done|]. intros p. by rewrite Ho2.
Qed.
End Refinement.

(** A list of three channels, one of which leaves. *)
Lemma list_refines_sequence_witness :
  exists rs l' h' ns',
    @list_run calloc_allocator Z _ ∅ (mk_list None None)
      [Append 1; Append 2; Prepend 0; Remove 2; Count; PopHead] = Some (rs, l', h')
    /\ @seq_run calloc_allocator Z _ [] [Append 1; Append 2; Prepend 0; Remove 2; Count; PopHead] = (rs, ns'.*2)
    /\ becomes ∅ [] h' l' ns'.
Proof.
  apply (@list_refines_sequence calloc_allocator Z _
    [Append 1; Append 2; Prepend 0; Remove 2; Count; PopHead] ∅ (mk_list None None) []).
  - by split; [|apply NoDup_nil|].
  - discriminate.
Defined.
