(* ===== verification/Crypto.v ===== *)
(** * Ciphers and message authentication
    ([libssh/include/libssh/crypto.h], [libssh/src/wrapper.c],
    [libssh/src/libcrypto.c])

    The structures the packet layer uses to protect a direction of the
    connection.  The cryptographic primitives themselves belong to OpenSSL: a
    cipher is a block of function pointers over an abstract key state, and the
    HMAC of a text is a parameter. *)

From S2P Require Import Prelude.

(** ** Message authentication codes *)

Inductive ssh_hmac_e :=
  | SSH_HMAC_SHA1
  | SSH_HMAC_SHA1_96
  | SSH_HMAC_SHA256
  | SSH_HMAC_SHA512
  | SSH_HMAC_MD5
  | SSH_HMAC_MD5_96
  | SSH_HMAC_AEAD_POLY1305
  | SSH_HMAC_AEAD_GCM.

#[export] Instance ssh_hmac_eq : EqDecision ssh_hmac_e.
Proof. solve_decision. Defined.

(** [hmac_digest_len]: a value of the enumeration has always a case. *)
Definition hmac_digest_len (type : ssh_hmac_e) : Z :=
  match type with
  | SSH_HMAC_SHA1 => 20
  | SSH_HMAC_SHA1_96 => 12
  | SSH_HMAC_SHA256 => 32
  | SSH_HMAC_SHA512 => 64
  | SSH_HMAC_MD5 => 16
  | SSH_HMAC_MD5_96 => 12
  | SSH_HMAC_AEAD_POLY1305 => 16
  | SSH_HMAC_AEAD_GCM => 16
  end.

Definition hmac_key_len (type : ssh_hmac_e) : Z :=
  match type with
  | SSH_HMAC_SHA1 | SSH_HMAC_SHA1_96 => 20
  | SSH_HMAC_SHA256 => 32
  | SSH_HMAC_SHA512 => 64
  | SSH_HMAC_MD5 | SSH_HMAC_MD5_96 => 16
  | SSH_HMAC_AEAD_POLY1305 => 16
  | SSH_HMAC_AEAD_GCM => 16
  end.

Definition DIGEST_MAX_LEN : Z := 64.

Definition ssh_hmac_tab : list (bytes * ssh_hmac_e * bool) :=
  [ (cstr "hmac-sha1", SSH_HMAC_SHA1, false);
    (cstr "hmac-sha1-96", SSH_HMAC_SHA1_96, false);
    (cstr "hmac-sha2-256", SSH_HMAC_SHA256, false);
    (cstr "hmac-sha2-512", SSH_HMAC_SHA512, false);
    (cstr "hmac-md5", SSH_HMAC_MD5, false);
    (cstr "hmac-md5-96", SSH_HMAC_MD5_96, false);
    (cstr "aead-poly1305", SSH_HMAC_AEAD_POLY1305, false);
    (cstr "aead-gcm", SSH_HMAC_AEAD_GCM, false);
    (cstr "hmac-sha1-etm@openssh.com", SSH_HMAC_SHA1, true);
    (cstr "hmac-sha1-96-etm@openssh.com", SSH_HMAC_SHA1_96, true);
    (cstr "hmac-sha2-256-etm@openssh.com", SSH_HMAC_SHA256, true);
    (cstr "hmac-sha2-512-etm@openssh.com", SSH_HMAC_SHA512, true);
    (cstr "hmac-md5-etm@openssh.com", SSH_HMAC_MD5, true);
    (cstr "hmac-md5-96-etm@openssh.com", SSH_HMAC_MD5_96, true) ].

Definition ssh_hmac_type_to_string (hmac_type : ssh_hmac_e) (etm : bool) : option bytes :=
  match List.find (fun '(_, t, e) => negb (negb (bool_decide (t = hmac_type)) || negb (Bool.eqb e etm)))
          ssh_hmac_tab with
  | Some (name, _, _) => Some name
  | None => None
  end.

(** The digests of OpenSSL that [hmac_init] selects. *)
Inductive evp_md := EVP_sha1 | EVP_sha256 | EVP_sha512 | EVP_md5.

Definition evp_md_size (md : evp_md) : Z :=
  match md with EVP_sha1 => 20 | EVP_sha256 => 32 | EVP_sha512 => 64 | EVP_md5 => 16 end.

(** OpenSSL's HMAC: the digest of a text under a key, and whether
    [HMAC_CTX_new] finds memory. *)
Class HmacLib := {
  HMAC_CTX_new : bool;
  HMAC : evp_md -> bytes -> bytes -> bytes;
  HMAC_size md key data : zlen (HMAC md key data) = evp_md_size md
}.

(** A context holds what [HMAC_Init_ex] and [HMAC_Update] were given. *)
Record hmac_ctx := mk_hmac_ctx { hc_md : evp_md; hc_key : bytes; hc_data : bytes }.

Section Hmac.
Context `{HmacLib}.

Definition hmac_init (key : bytes) (len : Z) (type : ssh_hmac_e) : option hmac_ctx :=
  if negb HMAC_CTX_new then None else
  match type with
  | SSH_HMAC_SHA1 | SSH_HMAC_SHA1_96 => Some (mk_hmac_ctx EVP_sha1 (ztake len key) [])
  | SSH_HMAC_SHA256 => Some (mk_hmac_ctx EVP_sha256 (ztake len key) [])
  | SSH_HMAC_SHA512 => Some (mk_hmac_ctx EVP_sha512 (ztake len key) [])
  | SSH_HMAC_MD5 | SSH_HMAC_MD5_96 => Some (mk_hmac_ctx EVP_md5 (ztake len key) [])
  | _ => None
  end.

Definition hmac_update (ctx : hmac_ctx) (data : bytes) : hmac_ctx :=
  mk_hmac_ctx (hc_md ctx) (hc_key ctx) (hc_data ctx ++ data).

(** The digest written to [hashmacbuf] and the length given back, cut for the
    truncated types. *)
Definition hmac_final (ctx : hmac_ctx) (type : ssh_hmac_e) : bytes * Z :=
  let d := HMAC (hc_md ctx) (hc_key ctx) (hc_data ctx) in
  (d, match type with
      | SSH_HMAC_SHA1_96 | SSH_HMAC_MD5_96 => hmac_digest_len type
      | _ => zlen d
      end).
End Hmac.

(** [secure_memcmp] of [packet_crypt.c]: the or of the differences. *)
Fixpoint secure_memcmp_loop (p1 p2 : bytes) (n : nat) (rc : Z) {struct n} : run Z :=
  match n, p1, p2 with
  | O, _, _ => Some rc
  | S n, c1 :: p1, c2 :: p2 => secure_memcmp_loop p1 p2 n (Z.lor rc (Z.lxor (b2z c1) (b2z c2)))
  | _, _, _ => None
  end.
Definition secure_memcmp (s1 s2 : bytes) (n : Z) : run bool :=
  rc ← secure_memcmp_loop s1 s2 (Z.to_nat n) 0; Some (negb (rc =? 0)).

(** ** Ciphers *)

Inductive ssh_cipher_e :=
  | SSH_NO_CIPHER
  | SSH_3DES_CBC
  | SSH_AES128_CBC
  | SSH_AES192_CBC
  | SSH_AES256_CBC
  | SSH_AES128_CTR
  | SSH_AES192_CTR
  | SSH_AES256_CTR
  | SSH_AEAD_AES128_GCM
  | SSH_AEAD_AES256_GCM
  | SSH_AEAD_CHACHA20_POLY1305.

#[export] Instance ssh_cipher_eq : EqDecision ssh_cipher_e.
Proof. solve_decision. Defined.

(** The constant part of [struct ssh_cipher_struct]: sizes and functions, over
    the key state [K] the structure holds. *)
Record cipher_ops {K : Type} := mk_cipher_ops {
  ciphertype : ssh_cipher_e;
  keysize : Z;
  blocksize : Z;
  lenfield_blocksize : Z;
  (** [set_encrypt_key (cipher, key, IV)], on the blocks the pointers point to *)
  set_encrypt_key : K -> bytes -> bytes -> run (Z * K);
  set_decrypt_key : K -> bytes -> bytes -> run (Z * K);
  (** [encrypt (cipher, in, out, len)]: what [out] gets *)
  encrypt : K -> bytes -> run (bytes * K);
  decrypt : K -> bytes -> run (bytes * K);
  (** [aead_encrypt (cipher, in, out, len, tag, seq)]: [out] and [tag] *)
  aead_encrypt : option (K -> bytes -> Z -> run (bytes * bytes * K));
  (** [aead_decrypt_length (cipher, in, out, len, seq)]: [out], unless it fails *)
  aead_decrypt_length : option (K -> bytes -> Z -> Z -> run (option bytes * K));
  (** [aead_decrypt (cipher, complete_packet, out, encrypted_size, seq)] *)
  aead_decrypt : option (K -> bytes -> Z -> Z -> run (option bytes * K))
}.
Arguments cipher_ops : clear implicits.
Arguments mk_cipher_ops {K}.

Record ssh_cipher {K : Type} := mk_cipher {
  c_ops : cipher_ops K;
  c_key : K;
  packets : Z;
  blocks : Z;
  max_blocks : Z
}.
Arguments ssh_cipher : clear implicits.
Arguments mk_cipher {K}.

Definition set_key {K} (k : K) (c : ssh_cipher K) : ssh_cipher K :=
  mk_cipher (c_ops c) k (packets c) (blocks c) (max_blocks c).

(** [cipher->packets++; cipher->blocks += payloadsize / cipher->blocksize;] *)
Definition count_packet {K} (payloadsize : Z) (c : ssh_cipher K) : ssh_cipher K :=
  mk_cipher (c_ops c) (c_key c) (u32 (packets c + 1))
    (u64 (blocks c + payloadsize / blocksize (c_ops c))) (max_blocks c).

(** ** The crypto contexts of a session *)

Definition SSH_DIRECTION_IN : Z := 1.
Definition SSH_DIRECTION_OUT : Z := 2.
Definition SSH_DIRECTION_BOTH : Z := 3.

(** The fields of [struct ssh_crypto_struct] that the packet layer uses. *)
Record ssh_crypto {K : Type} := mk_crypto {
  used : Z;
  in_cipher : option (ssh_cipher K);
  out_cipher : option (ssh_cipher K);
  in_hmac : ssh_hmac_e;
  out_hmac : ssh_hmac_e;
  in_hmac_etm : bool;
  out_hmac_etm : bool;
  decryptMAC : bytes;
  encryptMAC : bytes;
  hmacbuf : bytes;
  digest_len : Z;
  session_id : option bytes
}.
Arguments ssh_crypto : clear implicits.
Arguments mk_crypto {K}.

Definition set_crypto_used {K} (v : Z) (c : ssh_crypto K) : ssh_crypto K :=
  mk_crypto v (in_cipher c) (out_cipher c) (in_hmac c) (out_hmac c) (in_hmac_etm c) (out_hmac_etm c)
    (decryptMAC c) (encryptMAC c) (hmacbuf c) (digest_len c) (session_id c).
Definition set_in_cipher {K} (v : option (ssh_cipher K)) (c : ssh_crypto K) : ssh_crypto K :=
  mk_crypto (used c) v (out_cipher c) (in_hmac c) (out_hmac c) (in_hmac_etm c) (out_hmac_etm c)
    (decryptMAC c) (encryptMAC c) (hmacbuf c) (digest_len c) (session_id c).
Definition set_out_cipher {K} (v : option (ssh_cipher K)) (c : ssh_crypto K) : ssh_crypto K :=
  mk_crypto (used c) (in_cipher c) v (in_hmac c) (out_hmac c) (in_hmac_etm c) (out_hmac_etm c)
    (decryptMAC c) (encryptMAC c) (hmacbuf c) (digest_len c) (session_id c).
Definition set_hmacbuf {K} (v : bytes) (c : ssh_crypto K) : ssh_crypto K :=
  mk_crypto (used c) (in_cipher c) (out_cipher c) (in_hmac c) (out_hmac c) (in_hmac_etm c)
    (out_hmac_etm c) (decryptMAC c) (encryptMAC c) v (digest_len c) (session_id c).

(** ** What a cipher promises to the packet layer *)

(** The block sizes of the ciphers of the code (and 8 before any cipher). *)
Definition block_size_ok (bs : Z) : Prop := bs = 8 \/ bs = 16.

(** What [encrypt] and [decrypt] write, and the key state they leave. *)
Section Outputs.
Context {K : Type}.
Implicit Type ops : cipher_ops K.
Definition enc_out ops (k : K) (m : bytes) : bytes := match encrypt ops k m with Some (e, _) => e | None => [] end.
Definition enc_key ops (k : K) (m : bytes) : K := match encrypt ops k m with Some (_, k') => k' | None => k end.
Definition dec_key ops (k : K) (m : bytes) : K := match decrypt ops k m with Some (_, k') => k' | None => k end.
End Outputs.

(** What the packet layer relies on of a cipher that OpenSSL implements: the key
    states [ke] and [kd] of the two ends stay in step. *)
Class stream_cipher {K} (ops : cipher_ops K) (sync : K -> K -> Prop) : Prop := {
  sc_block : block_size_ok (blocksize ops);
  sc_lenfield : lenfield_blocksize ops = 0;
  sc_no_aead : aead_encrypt ops = None /\ aead_decrypt ops = None;
  sc_encrypt ke kd m :
    sync ke kd -> zlen m mod blocksize ops = 0 ->
    encrypt ops ke m = Some (enc_out ops ke m, enc_key ops ke m) /\ zlen (enc_out ops ke m) = zlen m;
  sc_decrypt ke kd m :
    sync ke kd -> zlen m mod blocksize ops = 0 ->
    decrypt ops kd (enc_out ops ke m) = Some (m, dec_key ops kd (enc_out ops ke m))
    /\ sync (enc_key ops ke m) (dec_key ops kd (enc_out ops ke m))
}.

(** The same for a cipher with an integrated MAC, on packets of at least a length
    field: what is sealed opens to what was sealed, whatever follows the tag. *)
Class aead_cipher {K} (ops : cipher_ops K) (sync : K -> K -> Prop) : Prop := {
  ac_block : block_size_ok (blocksize ops);
  ac_lenfield : lenfield_blocksize ops = 4;
  ac_functions : exists enc dlen dec,
    aead_encrypt ops = Some enc /\ aead_decrypt_length ops = Some dlen /\ aead_decrypt ops = Some dec
    /\ forall ke kd m seq, sync ke kd -> 4 <= zlen m < 2 ^ 32 -> 0 <= seq < 2 ^ 32 ->
      exists e tag ke', enc ke m seq = Some (e, tag, ke') /\ zlen e = zlen m /\ zlen tag = 16
        /\ forall more, exists kd1 kd2,
             dlen kd (e ++ tag ++ more) 4 seq = Some (Some (ztake 4 m), kd1)
             /\ dec kd1 (e ++ tag ++ more) (zlen m - 4) seq = Some (Some (zdrop 4 m), kd2)
             /\ sync ke' kd2
}.

(** ** Lemmas *)

(** The loop reads both texts to the end and answers whether they are equal. *)
Lemma secure_memcmp_spec s1 s2 n :
  0 <= n -> n <= zlen s1 -> n <= zlen s2 ->
  secure_memcmp s1 s2 n = Some (negb (bool_decide (ztake n s1 = ztake n s2))).
Proof.
  intros Hn H1 H2. unfold secure_memcmp.
  assert (Hloop : forall m p1 p2 rc, (m <= length p1)%nat -> (m <= length p2)%nat -> 0 <= rc ->
    exists r, secure_memcmp_loop p1 p2 m rc = Some r /\ 0 <= r
      /\ (r = 0 <-> rc = 0 /\ take m p1 = take m p2)).
  { induction m as [|m IH]; intros p1 p2 rc Hl1 Hl2 Hrc; cbn [secure_memcmp_loop].
    - exists rc. split_and!; [done|done|]. cbn. tauto.
    - destruct p1 as [|c1 p1]; [cbn in Hl1; lia|]. destruct p2 as [|c2 p2]; [cbn in Hl2; lia|].
      cbn [length] in *.
      assert (Hx : 0 <= Z.lxor (b2z c1) (b2z c2)).
      { apply Z.lxor_nonneg. pose proof (b2z_range c1). pose proof (b2z_range c2). lia. }
      destruct (IH p1 p2 (Z.lor rc (Z.lxor (b2z c1) (b2z c2)))) as (r & -> & Hr & Heq);
        [lia|lia|by apply Z.lor_nonneg|].
      exists r. split_and!; [done|done|]. rewrite Heq, Z.lor_eq_0_iff, Z.lxor_eq_0_iff.
      cbn [take]. split.
      + intros [[? Hc] ?]. apply b2z_inj in Hc. split; [done|]. congruence.
      + intros [? [= -> ?]]. done. }
  unfold ztake, zlen in *. destruct (Hloop (Z.to_nat n) s1 s2 0) as (r & -> & Hr & Heq); [lia..|].
  cbn [mbind option_bind]. f_equal. f_equal. destruct (decide (take (Z.to_nat n) s1 = take (Z.to_nat n) s2)).
  - rewrite bool_decide_true by done. apply Z.eqb_eq. tauto.
  - rewrite bool_decide_false by done. apply Z.eqb_neq. tauto.
Qed.

Lemma hmac_final_len `{HmacLib} key klen type data ctx :
  hmac_init key klen type = Some ctx ->
  snd (hmac_final (hmac_update ctx data) type) = hmac_digest_len type
  /\ hmac_digest_len type <= zlen (fst (hmac_final (hmac_update ctx data) type)) <= DIGEST_MAX_LEN.
Proof.
  unfold hmac_init, hmac_final, DIGEST_MAX_LEN. destruct (negb HMAC_CTX_new); [done|].
  destruct type; intros [= <-]; cbn [fst snd hmac_update hc_md hc_key hc_data];
    rewrite ?HMAC_size; cbn; lia.
Qed.
