(* ===== verification/Packet.v ===== *)
(** * Outgoing packets ([libssh/src/packet.c], [libssh/src/packet_crypt.c])

    The session of the packet layer, the choice of the crypto context, the
    rekeying limits, the framing and protection of an outgoing packet and the
    queue that delays packets during a rekeying.  The model is that of a build
    without [WITH_ZLIB] and [WITH_PCAP]; the socket is open and not yet writable,
    so that [ssh_socket_write] leaves the bytes in its output buffer. *)

From S2P Require Import Prelude Buffer Session Misc Crypto.

Inductive ssh_packet_state_e :=
  | PACKET_STATE_INIT
  | PACKET_STATE_SIZEREAD
  | PACKET_STATE_PROCESSING.

Record packet_struct := mk_packet { p_valid : Z; p_len : Z; p_type : Z }.

Record ssh_counter := mk_counter {
  in_bytes : Z; out_bytes : Z; in_packets : Z; out_packets : Z
}.

(** The random numbers of OpenSSL, drawn from a state. *)
Class RandomLib := {
  prng : Type;
  ssh_get_random : prng -> Z -> option bytes * prng;
  ssh_get_random_zlen r n p r' : 0 <= n -> ssh_get_random r n = (Some p, r') -> zlen p = n
}.

(** The fields of [struct ssh_session_struct] the packet layer uses. *)
Record session {K R X : Type} := mk_session {
  proto_of : proto;
  in_buffer : option ssh_buffer;
  out_buffer : option ssh_buffer;
  out_queue : list ssh_buffer;
  packet_state : ssh_packet_state_e;
  in_packet : packet_struct;
  send_seq : Z;
  recv_seq : Z;
  current_crypto : option (ssh_crypto K);
  next_crypto : option (ssh_crypto K);
  raw_counter : option ssh_counter;
  rekey_data : Z;                   (** [opts.rekey_data] *)
  rekey_time : Z;                   (** [opts.rekey_time] *)
  last_rekey_time : ssh_timestamp;
  now : ssh_timestamp;              (** what the clock shows *)
  socket_out : ssh_buffer;          (** [socket->out_buffer] *)
  rng : R;
  upper : X                         (** the fields of the layers above *)
}.
Arguments session : clear implicits.
Arguments mk_session {K R X}.

Section Setters.
Context {K R X : Type}.
Implicit Type s : session K R X.

Definition set_proto (v : proto) s : session K R X :=
  mk_session v (in_buffer s) (out_buffer s) (out_queue s) (packet_state s) (in_packet s)
    (send_seq s) (recv_seq s) (current_crypto s) (next_crypto s) (raw_counter s) (rekey_data s)
    (rekey_time s) (last_rekey_time s) (now s) (socket_out s) (rng s) (upper s).
Definition set_in_buffer (v : option ssh_buffer) s : session K R X :=
  mk_session (proto_of s) v (out_buffer s) (out_queue s) (packet_state s) (in_packet s)
    (send_seq s) (recv_seq s) (current_crypto s) (next_crypto s) (raw_counter s) (rekey_data s)
    (rekey_time s) (last_rekey_time s) (now s) (socket_out s) (rng s) (upper s).
Definition set_out_buffer (v : option ssh_buffer) s : session K R X :=
  mk_session (proto_of s) (in_buffer s) v (out_queue s) (packet_state s) (in_packet s)
    (send_seq s) (recv_seq s) (current_crypto s) (next_crypto s) (raw_counter s) (rekey_data s)
    (rekey_time s) (last_rekey_time s) (now s) (socket_out s) (rng s) (upper s).
Definition set_out_queue (v : list ssh_buffer) s : session K R X :=
  mk_session (proto_of s) (in_buffer s) (out_buffer s) v (packet_state s) (in_packet s)
    (send_seq s) (recv_seq s) (current_crypto s) (next_crypto s) (raw_counter s) (rekey_data s)
    (rekey_time s) (last_rekey_time s) (now s) (socket_out s) (rng s) (upper s).
Definition set_packet_state (v : ssh_packet_state_e) s : session K R X :=
  mk_session (proto_of s) (in_buffer s) (out_buffer s) (out_queue s) v (in_packet s)
    (send_seq s) (recv_seq s) (current_crypto s) (next_crypto s) (raw_counter s) (rekey_data s)
    (rekey_time s) (last_rekey_time s) (now s) (socket_out s) (rng s) (upper s).
Definition set_in_packet (v : packet_struct) s : session K R X :=
  mk_session (proto_of s) (in_buffer s) (out_buffer s) (out_queue s) (packet_state s) v
    (send_seq s) (recv_seq s) (current_crypto s) (next_crypto s) (raw_counter s) (rekey_data s)
    (rekey_time s) (last_rekey_time s) (now s) (socket_out s) (rng s) (upper s).
Definition set_seqs (snd rcv : Z) s : session K R X :=
  mk_session (proto_of s) (in_buffer s) (out_buffer s) (out_queue s) (packet_state s) (in_packet s)
    snd rcv (current_crypto s) (next_crypto s) (raw_counter s) (rekey_data s)
    (rekey_time s) (last_rekey_time s) (now s) (socket_out s) (rng s) (upper s).
Definition set_cryptos (cur nxt : option (ssh_crypto K)) s : session K R X :=
  mk_session (proto_of s) (in_buffer s) (out_buffer s) (out_queue s) (packet_state s) (in_packet s)
    (send_seq s) (recv_seq s) cur nxt (raw_counter s) (rekey_data s)
    (rekey_time s) (last_rekey_time s) (now s) (socket_out s) (rng s) (upper s).
Definition set_raw_counter (v : option ssh_counter) s : session K R X :=
  mk_session (proto_of s) (in_buffer s) (out_buffer s) (out_queue s) (packet_state s) (in_packet s)
    (send_seq s) (recv_seq s) (current_crypto s) (next_crypto s) v (rekey_data s)
    (rekey_time s) (last_rekey_time s) (now s) (socket_out s) (rng s) (upper s).
Definition set_last_rekey_time (v : ssh_timestamp) s : session K R X :=
  mk_session (proto_of s) (in_buffer s) (out_buffer s) (out_queue s) (packet_state s) (in_packet s)
    (send_seq s) (recv_seq s) (current_crypto s) (next_crypto s) (raw_counter s) (rekey_data s)
    (rekey_time s) v (now s) (socket_out s) (rng s) (upper s).
Definition set_socket_out (v : ssh_buffer) s : session K R X :=
  mk_session (proto_of s) (in_buffer s) (out_buffer s) (out_queue s) (packet_state s) (in_packet s)
    (send_seq s) (recv_seq s) (current_crypto s) (next_crypto s) (raw_counter s) (rekey_data s)
    (rekey_time s) (last_rekey_time s) (now s) v (rng s) (upper s).
Definition set_rng (v : R) s : session K R X :=
  mk_session (proto_of s) (in_buffer s) (out_buffer s) (out_queue s) (packet_state s) (in_packet s)
    (send_seq s) (recv_seq s) (current_crypto s) (next_crypto s) (raw_counter s) (rekey_data s)
    (rekey_time s) (last_rekey_time s) (now s) (socket_out s) v (upper s).
Definition set_upper (v : X) s : session K R X :=
  mk_session (proto_of s) (in_buffer s) (out_buffer s) (out_queue s) (packet_state s) (in_packet s)
    (send_seq s) (recv_seq s) (current_crypto s) (next_crypto s) (raw_counter s) (rekey_data s)
    (rekey_time s) (last_rekey_time s) (now s) (socket_out s) (rng s) v.
End Setters.

(** ** The crypto context in use *)

(** A pointer to one of the two contexts of the session. *)
Inductive crypto_slot := Current | Next.

Section Crypto.
Context {K R X : Type}.
Implicit Type s : session K R X.

Definition get_slot s (i : crypto_slot) : option (ssh_crypto K) :=
  match i with Current => current_crypto s | Next => next_crypto s end.
Definition set_slot (i : crypto_slot) (c : ssh_crypto K) s : session K R X :=
  match i with
  | Current => set_cryptos (Some c) (next_crypto s) s
  | Next => set_cryptos (current_crypto s) (Some c) s
  end.

Definition used_for (c : option (ssh_crypto K)) (direction : Z) : bool :=
  match c with Some c => negb (Z.land (used c) direction =? 0) | None => false end.
Definition some {A} (x : option A) : bool := match x with Some _ => true | None => false end.

Definition ssh_packet_get_current_crypto s (direction : Z) : option (crypto_slot * ssh_crypto K) :=
  let crypto :=
    if used_for (current_crypto s) direction then c ← current_crypto s; Some (Current, c)
    else if used_for (next_crypto s) direction then c ← next_crypto s; Some (Next, c)
    else None in
  match crypto with
  | None => None
  | Some (i, c) =>
      if direction =? SSH_DIRECTION_IN then if some (in_cipher c) then crypto else None
      else if direction =? SSH_DIRECTION_OUT then if some (out_cipher c) then crypto else None
      else if direction =? SSH_DIRECTION_BOTH then
        if some (in_cipher c) && some (out_cipher c) then crypto else None
      else None
  end.

(** ** Rekeying limits *)

Definition MAX_PACKETS : Z := 2 ^ 31.

Definition ssh_packet_need_rekey s (payloadsize : Z) : bool :=
  if Z.land (flags (proto_of s)) SSH_SESSION_FLAG_AUTHENTICATED =? 0 then false else
  if negb (bool_decide (dh_handshake_state (proto_of s) = DH_STATE_FINISHED)) then false else
  match ssh_packet_get_current_crypto s SSH_DIRECTION_BOTH with
  | Some (_, crypto) =>
      match out_cipher crypto, in_cipher crypto with
      | Some oc, Some ic =>
          if (packets oc =? 0) && (packets ic =? 0) then false else
          if negb (rekey_time s =? 0)
             && ssh_timeout_elapsed (last_rekey_time s) (now s) (s32 (rekey_time s)) then true else
          if (MAX_PACKETS <? packets oc) || (MAX_PACKETS <? packets ic) then true else
          let next_blocks := payloadsize / blocksize (c_ops oc) in
          (negb (max_blocks oc =? 0) && (max_blocks oc <? u64 (blocks oc + next_blocks)))
          || (negb (max_blocks ic =? 0) && (max_blocks ic <? u64 (blocks ic + next_blocks)))
      | _, _ => false
      end
  | None => false
  end.

(** [(uint64_t)1 << n]: undefined from 64. *)
Definition ssh_init_rekey_state (opts_rekey_data : Z) (c : ssh_cipher K) : run (ssh_cipher K) :=
  let bs := blocksize (c_ops c) in
  max ← (if 16 <=? bs then if bs * 2 <? 64 then Some (u64 (Z.shiftl 1 (bs * 2))) else None
         else Some (Z.shiftl 1 30 / bs));
  let max := if negb (opts_rekey_data =? 0) then Z.min max (opts_rekey_data / bs) else max in
  Some (mk_cipher (c_ops c) (c_key c) 0 0 max).

(** ** Which packets may be sent during a rekeying *)

Definition ssh_packet_is_kex (type : Z) : bool :=
  (SSH2_MSG_DISCONNECT <=? type) && (type <=? SSH2_MSG_KEX_DH_GEX_REQUEST)
  && negb (type =? SSH2_MSG_SERVICE_REQUEST) && negb (type =? SSH2_MSG_SERVICE_ACCEPT)
  && negb (type =? SSH2_MSG_IGNORE) && negb (type =? SSH2_MSG_EXT_INFO).

Definition ssh_packet_in_rekey s : bool :=
  negb (Z.land (flags (proto_of s)) SSH_SESSION_FLAG_AUTHENTICATED =? 0)
  && negb (bool_decide (dh_handshake_state (proto_of s) = DH_STATE_FINISHED)).
End Crypto.

(** ** Framing *)

(** [padding_size] of [packet_send2]: [unsigned] arithmetic, then a [uint8_t]. *)
Definition packet_padding (blocksize lenfield_blocksize etm_packet_offset currentlen : Z) : Z :=
  let padding := u8 (blocksize
    - u32 (u32 (blocksize - lenfield_blocksize - etm_packet_offset) + currentlen + 5) mod blocksize) in
  if padding <? 4 then u8 (padding + blocksize) else padding.

Definition packet_finallen (etm_packet_offset currentlen padding_size : Z) : Z :=
  u32 (currentlen - etm_packet_offset + padding_size + 1).

Section Send.
Context `{Allocator} `{HmacLib} `{RandomLib} {K X : Type}.
Notation session := (session K prng X).
Implicit Type s : session.

Definition etm_offset (etm : bool) : Z := if etm then 4 else 0.

(** The protection of the [len] bytes at [data]: the MAC to append ([None]: a
    null pointer), the bytes left at [data] and the session. *)
Definition ssh_packet_encrypt s (data : bytes) (len : Z) : run (option bytes * bytes * session) :=
  if len =? 0 then None else
  match ssh_packet_get_current_crypto s SSH_DIRECTION_OUT with
  | None => Some (None, data, s)
  | Some (slot, crypto) =>
      cipher ← out_cipher crypto;
      let ops := c_ops cipher in
      let etm := out_hmac_etm crypto in
      let type := out_hmac crypto in
      let off := etm_offset etm in
      if negb (u32 (len - lenfield_blocksize ops - off) mod blocksize ops =? 0)
      then Some (None, data, s) else
      if negb (some (malloc len)) then Some (None, data, s) else
      let seq := be_bytes 4 (send_seq s) in
      match aead_encrypt ops with
      | Some aead =>
          '(out, tag, k) ← aead (c_key cipher) (ztake len data) (send_seq s);
          data ← memcpy data 0 out 0 len;
          buf ← memcpy (hmacbuf crypto) 0 tag 0 (zlen tag);
          let crypto := set_hmacbuf buf (set_out_cipher (Some (set_key k cipher)) crypto) in
          Some (Some buf, data, set_slot slot crypto s)
      | None =>
          match hmac_init (encryptMAC crypto) (hmac_key_len type) type with
          | None => Some (None, data, s)
          | Some ctx =>
              let mac (text : bytes) := hmac_final (hmac_update (hmac_update ctx seq) text) type in
              let clear := ztake len data in
              '(out, k) ← encrypt ops (c_key cipher) (zdrop off clear);
              data ← memcpy data off out 0 (len - off);
              data ← (if etm then memcpy data 0 (be_bytes 4 (u32 (len - off))) 0 4 else Some data);
              let digest := fst (mac (if etm then ztake len data else clear)) in
              buf ← memcpy (hmacbuf crypto) 0 digest 0 (zlen digest);
              let crypto := set_hmacbuf buf (set_out_cipher (Some (set_key k cipher)) crypto) in
              Some (Some buf, data, set_slot slot crypto s)
          end
      end
  end.

(** [ssh_socket_write] on an open socket that is not ready for writing: the
    flush only asks the poll for it. *)
Definition ssh_socket_write s (data : option bytes) (len : Z) : run (Z * session) :=
  if 0 <? len then
    '(rc, b) ← add_data (socket_out s) data len;
    if rc <? 0 then Some (SSH_ERROR, set_socket_out b s) else Some (SSH_OK, set_socket_out b s)
  else Some (SSH_OK, s).

(** [ssh_packet_set_newkeys] belongs to the key exchange. *)
Variable ssh_packet_set_newkeys : session -> Z -> run (Z * session).

(** After the write: the sequence number, the counters of the rekeying limits
    and of the session, and the switch of keys. *)
Definition packet_sent s (type payloadsize : Z) : run (Z * session) :=
  let s := set_seqs (u32 (send_seq s + 1)) (recv_seq s) s in
  let s := match ssh_packet_get_current_crypto s SSH_DIRECTION_OUT with
           | Some (slot, c) =>
               set_slot slot (set_out_cipher (option_map (count_packet payloadsize) (out_cipher c)) c) s
           | None => s
           end in
  let s := match raw_counter s with
           | Some n => set_raw_counter (Some (mk_counter (in_bytes n) (u64 (out_bytes n + payloadsize))
                                                (in_packets n) (u64 (out_packets n + 1)))) s
           | None => s
           end in
  '(rc, b) ← ssh_buffer_reinit (out_buffer s);
  let s := set_out_buffer b s in
  if rc <? 0 then Some (SSH_ERROR, s) else
  if type =? SSH2_MSG_NEWKEYS then ssh_packet_set_newkeys s SSH_DIRECTION_OUT else Some (rc, s).

(** The padding, and random bytes in it when the packet will be encrypted:
    [padding_data] has room for 32 bytes. *)
Definition make_padding s (encrypted : bool) (padding_size : Z) : run (option bytes * session) :=
  let padding_data := zrep 32 Byte.x00 in
  if encrypted then
    let '(p, r) := ssh_get_random (rng s) padding_size in
    let s := set_rng r s in
    match p with
    | None => Some (None, s)
    | Some p => d ← memcpy padding_data 0 p 0 padding_size; Some (Some d, s)
    end
  else Some (Some padding_data, s).

(** What [ssh_packet_encrypt] does to the buffer it is given, and the MAC. *)
Definition encrypt_buffer s (b : ssh_buffer) : run (option bytes * ssh_buffer * session) :=
  data ← ssh_buffer_get b;
  '(hmac, data, s) ← ssh_packet_encrypt s (ztake (ssh_buffer_get_len b) data) (ssh_buffer_get_len b);
  d ← memcpy (b_data b) (b_pos b) data 0 (ssh_buffer_get_len b);
  Some (hmac, set_data b d, s).

(** The end of [packet_send2]: the MAC is appended, the buffer is written. *)
Definition packet_finish s (b : ssh_buffer) (hmac : option bytes) (hmac_type : ssh_hmac_e)
    (type payloadsize : Z) : run (Z * session) :=
  '(rc, b) ← (if some hmac then add_data b hmac (hmac_digest_len hmac_type) else Some (0, b));
  let s := set_out_buffer (Some b) s in
  if rc <? 0 then Some (rc, s) else
  '(rc, s) ← ssh_socket_write s (ssh_buffer_get b) (ssh_buffer_get_len b);
  if rc =? SSH_ERROR then Some (rc, s) else
  packet_sent s type payloadsize.

(** [blocksize], [lenfield_blocksize], [hmac_type] and [etm]. *)
Definition send_params s : run (Z * Z * ssh_hmac_e * bool) :=
  match ssh_packet_get_current_crypto s SSH_DIRECTION_OUT with
  | Some (_, c) => oc ← out_cipher c;
      Some (blocksize (c_ops oc), lenfield_blocksize (c_ops oc), out_hmac c, out_hmac_etm c)
  | None => c ← next_crypto s; Some (8, 0, out_hmac c, false)
  end.

Definition packet_send2 s : run (Z * session) :=
  b ← out_buffer s;
  let currentlen := ssh_buffer_get_len b in
  let crypto := ssh_packet_get_current_crypto s SSH_DIRECTION_OUT in
  '(blocksize, lenfield_blocksize, hmac_type, etm) ← send_params s;
  payload ← ssh_buffer_get b;
  type ← mem_at payload 0;
  let off := etm_offset etm in
  let lenfield_blocksize := if (etm : bool) then 0 else lenfield_blocksize in
  let padding_size := packet_padding blocksize lenfield_blocksize off currentlen in
  '(padding_data, s) ← make_padding s (some crypto) padding_size;
  match padding_data with
  | None => Some (SSH_ERROR, s)
  | Some padding_data =>
      let finallen := packet_finallen off currentlen padding_size in
      let header := be_bytes 4 finallen ++ [z2b padding_size] in
      '(rc, b) ← ssh_buffer_prepend_data b header 5;
      if rc <? 0 then Some (rc, set_out_buffer (Some b) s) else
      '(rc, b) ← add_data b (Some padding_data) padding_size;
      if rc <? 0 then Some (rc, set_out_buffer (Some b) s) else
      '(hmac, b, s) ← encrypt_buffer s b;
      packet_finish s b hmac hmac_type (b2z type) currentlen
  end.

(** [ssh_send_rekex] belongs to the key exchange. *)
Variable ssh_send_rekex : session -> run (Z * session).

(** The packets delayed by a key exchange, once it is over: one turn for each
    packet of the queue. *)
Fixpoint flush_queue (fuel : nat) s : run (Z * session) :=
  match fuel, out_queue s with
  | _, [] => Some (SSH_OK, s)
  | O, _ => None
  | S fuel, next_buffer :: rest =>
      if ssh_packet_need_rekey s (ssh_buffer_get_len next_buffer) then ssh_send_rekex s else
      let s := set_out_queue rest (set_out_buffer (Some next_buffer) s) in
      '(rc, s) ← packet_send2 s;
      if negb (rc =? SSH_OK) then Some (rc, s) else flush_queue fuel s
  end.

Definition ssh_packet_send s : run (Z * session) :=
  b ← out_buffer s;
  let payloadsize := ssh_buffer_get_len b in
  if payloadsize <? 1 then Some (SSH_ERROR, s) else
  payload ← ssh_buffer_get b;
  type ← mem_at payload 0;
  let type := b2z type in
  let need_rekey := ssh_packet_need_rekey s payloadsize in
  let in_rekey := ssh_packet_in_rekey s in
  if need_rekey || (in_rekey && negb (ssh_packet_is_kex type)) then
    if negb (some (malloc 16)) then Some (SSH_ERROR, s) else
    let s := set_out_queue (out_queue s ++ [b]) s in
    nb ← ssh_buffer_new;
    let s := set_out_buffer nb s in
    match nb with
    | None => Some (SSH_ERROR, s)
    | Some _ => if need_rekey then ssh_send_rekex s else Some (SSH_OK, s)
    end
  else
    '(rc, s) ← packet_send2 s;
    if (rc =? SSH_OK) && (type =? SSH2_MSG_NEWKEYS)
    then flush_queue (length (out_queue s)) s else Some (rc, s).
End Send.

(** ** Padding *)

Lemma padding_mod bs m : block_size_ok bs -> 0 <= m ->
  (m + (bs - m mod bs)) mod bs = 0 /\ 1 <= bs - m mod bs <= bs.
Proof.
  intros Hbs Hm. assert (0 < bs) by (destruct Hbs; lia). pose proof (Z.mod_pos_bound m bs) as Hr.
  split; [|lia]. rewrite (Z.div_mod m bs) at 1 by lia.
  replace (bs * (m / bs) + m mod bs + (bs - m mod bs)) with ((m / bs + 1) * bs) by lia.
  apply Z.mod_mul. lia.
Qed.

Lemma packet_padding_spec bs lenfield off len :
  block_size_ok bs -> 0 <= lenfield -> 0 <= off -> lenfield + off <= bs -> 0 <= len < 2 ^ 31 ->
  let padding := packet_padding bs lenfield off len in
  4 <= padding <= bs + 3 /\ padding <= 32
  /\ (4 + 1 + len + padding - lenfield - off) mod bs = 0.
Proof.
  intros Hbs Hl Ho Hlo Hlen. cbv zeta. unfold packet_padding.
  assert (Hb : 8 <= bs <= 16) by (destruct Hbs; lia). unwrap.
  set (m := bs - lenfield - off + len + 5).
  destruct (padding_mod bs m Hbs) as [Hmod Hrange]; [lia|].
  rewrite (u8_small (bs - m mod bs)) by lia.
  assert (Hfin : forall p k, p = bs - m mod bs + k * bs ->
    (4 + 1 + len + p - lenfield - off) mod bs = 0).
  { intros p k ->.
    replace (4 + 1 + len + (bs - m mod bs + k * bs) - lenfield - off)
      with (m + (bs - m mod bs) + (k - 1) * bs) by lia.
    by rewrite Z.mod_add by lia. }
  destruct (Z.ltb_spec (bs - m mod bs) 4).
  - unwrap. split_and!; [lia|lia|lia|]. apply (Hfin _ 1). lia.
  - split_and!; [lia|lia|lia|]. apply (Hfin _ 0). lia.
Qed.

(** (C40) The padding of a packet satisfies RFC 4253, section 6, whatever the payload:
    at least four bytes, what is encrypted is a multiple of the block size, and it
    fits the 32 bytes of [padding_data]; neither the eight bits of [padding_size] nor
    the 32 bits of the unsigned subtraction lose anything. *)
Theorem packet_padding_ok bs lenfield off len :
  block_size_ok bs -> 0 <= lenfield -> 0 <= off -> lenfield + off <= bs -> 0 <= len < 2 ^ 31 ->
  let padding := packet_padding bs lenfield off len in
  4 <= padding <= bs + 3 /\ padding <= 32
  /\ (4 + 1 + len + padding - lenfield - off) mod bs = 0.
Proof. apply packet_padding_spec. Qed.

Lemma packet_padding_ok_witness :
  let padding := packet_padding 16 0 4 21 in
  4 <= padding <= 16 + 3 /\ padding <= 32 /\ (4 + 1 + 21 + padding - 0 - 4) mod 16 = 0.
Proof. apply (packet_padding_ok 16 0 4 21); unfold block_size_ok; lia. Defined.

(** ** What a packet is on the wire *)

(** The clear packet: length, padding length, payload and padding. *)
Definition frame (off : Z) (payload padding : bytes) : bytes :=
  be_bytes 4 (packet_finallen off (zlen payload) (zlen padding)) ++ [z2b (zlen padding)]
  ++ payload ++ padding.

Lemma zlen_frame off payload padding : zlen (frame off payload padding) = 5 + zlen payload + zlen padding.
Proof. unfold frame. autorewrite with zlist. change (zlen [_]) with 1. lia. Qed.

Lemma get_buffer_some b : buffer_wf b -> 0 < zlen (contents b) ->
  ssh_buffer_get b = Some (zdrop (b_pos b) (b_data b))
  /\ ssh_buffer_get_len b = zlen (contents b)
  /\ ztake (zlen (contents b)) (zdrop (b_pos b) (b_data b)) = contents b.
Proof.
  intros Hwf Hpos. pose proof (contents_zlen b Hwf) as Hc. split_and!.
  - unfold ssh_buffer_get. destruct (b_data b) eqn:Hd; [|done].
    unfold contents in Hpos. rewrite Hd in Hpos. unfold zdrop, ztake in Hpos.
    by rewrite drop_nil, take_nil in Hpos.
  - by apply ssh_buffer_get_len_contents.
  - rewrite Hc. done.
Qed.

(** [payload[0]]. *)
Lemma first_byte b t rest :
  buffer_wf b -> contents b = t :: rest -> mem_at (zdrop (b_pos b) (b_data b)) 0 = Some t.
Proof.
  intros Hwf Hc. destruct (get_buffer_some b Hwf) as (_ & _ & Htk); [rewrite Hc; zlen_lia|].
  rewrite Hc in Htk. unfold mem_at. destruct (zdrop _ _) as [|x l]; [by rewrite ztake_nil in Htk|].
  unfold ztake in Htk. change (Z.to_nat 0) with 0%nat.
  destruct (Z.to_nat _); [done|]. cbn [take] in Htk. cbn. congruence.
Qed.

(** The context chosen, before the check of its ciphers. *)
Definition select_crypto {K R X} (s : session K R X) (d : Z) : option (crypto_slot * ssh_crypto K) :=
  if used_for (current_crypto s) d then c ← current_crypto s; Some (Current, c)
  else if used_for (next_crypto s) d then c ← next_crypto s; Some (Next, c)
  else None.
Definition has_ciphers {K} (c : ssh_crypto K) (d : Z) : bool :=
  if d =? SSH_DIRECTION_IN then some (in_cipher c)
  else if d =? SSH_DIRECTION_OUT then some (out_cipher c)
  else if d =? SSH_DIRECTION_BOTH then some (in_cipher c) && some (out_cipher c)
  else false.

Lemma get_crypto_select {K R X} (s : session K R X) d slot c :
  ssh_packet_get_current_crypto s d = Some (slot, c)
  <-> select_crypto s d = Some (slot, c) /\ has_ciphers c d = true.
Proof.
  unfold ssh_packet_get_current_crypto. fold (select_crypto s d).
  destruct (select_crypto s d) as [[i x]|]; [|split; [done|by intros [? ?]]].
  unfold has_ciphers. split.
  - intros Hif. assert (Heq : (i, x) = (slot, c)) by (repeat case_match; congruence).
    simplify_eq. split; [done|]. by repeat case_match.
  - intros [Heq Hb]. simplify_eq. repeat case_match; congruence.
Qed.

(** Replacing the context in use by one for the same directions. *)
Lemma get_crypto_set_slot {K R X} (s : session K R X) d slot c c' :
  ssh_packet_get_current_crypto s d = Some (slot, c) ->
  used c' = used c -> some (in_cipher c') = some (in_cipher c) ->
  some (out_cipher c') = some (out_cipher c) ->
  ssh_packet_get_current_crypto (set_slot slot c' s) d = Some (slot, c').
Proof.
  rewrite !get_crypto_select. intros [Hs Hc] Hu Hi Ho. split.
  - unfold select_crypto, used_for in *.
    destruct (current_crypto s) as [cur|] eqn:Hcur, (next_crypto s) as [nxt|] eqn:Hnxt;
      cbn [mbind option_bind] in Hs;
      repeat match type of Hs with
        | context [if ?b then _ else _] => destruct b eqn:?
        end; simplify_eq;
      cbn [set_slot set_cryptos current_crypto next_crypto mbind option_bind];
      rewrite ?Hu, ?Hcur, ?Hnxt;
      repeat match goal with H : negb _ = _ |- _ => rewrite H; clear H end; done.
  - unfold has_ciphers in *. by rewrite Hi, Ho.
Qed.

Section SendFacts.
Context `{Allocator} `{HmacLib} `{RandomLib} {K X : Type}.
Variable ssh_packet_set_newkeys : session K prng X -> Z -> run (Z * session K prng X).
Implicit Type s : session K prng X.

#[local] Abbreviation packet_sent := (packet_sent ssh_packet_set_newkeys).
#[local] Abbreviation packet_finish := (packet_finish ssh_packet_set_newkeys).
#[local] Abbreviation packet_send2 := (packet_send2 ssh_packet_set_newkeys).

(** Two sessions that differ at most in their counters, their keys and the
    buffers of a packet that is being sent. *)
Record same_session s s' : Prop := {
  same_proto : proto_of s' = proto_of s;
  same_queue_of : out_queue s' = out_queue s;
  same_in : in_buffer s' = in_buffer s;
  same_recv : recv_seq s' = recv_seq s;
  same_state : packet_state s' = packet_state s
}.

(** The context in use counts the packet. *)
Definition crypto_counted s s' (n : Z) : Prop := forall slot c,
  ssh_packet_get_current_crypto s SSH_DIRECTION_OUT = Some (slot, c) ->
  ssh_packet_get_current_crypto s' SSH_DIRECTION_OUT
  = Some (slot, set_out_cipher (option_map (count_packet n) (out_cipher c)) c).

Lemma packet_sent_ok s b type n :
  malloc_succeeds -> out_buffer s = Some b -> buffer_wf b -> type <> SSH2_MSG_NEWKEYS ->
  exists s' b', packet_sent s type n = Some (SSH_OK, s') /\ same_session s s'
    /\ socket_out s' = socket_out s /\ send_seq s' = u32 (send_seq s + 1)
    /\ out_buffer s' = Some b' /\ buffer_wf b' /\ contents b' = []
    /\ crypto_counted s s' n.
Proof.
  intros Hmem Hb Hwf Ht. unfold Packet.packet_sent.
  destruct (ssh_buffer_reinit_ok b Hmem Hwf) as (b' & Hr & Hwf' & Hc & _).
  rewrite (proj2 (Z.eqb_neq type _)) by done.
  change (ssh_packet_get_current_crypto (set_seqs (u32 (send_seq s + 1)) (recv_seq s) s)
    SSH_DIRECTION_OUT) with (ssh_packet_get_current_crypto s SSH_DIRECTION_OUT).
  destruct (ssh_packet_get_current_crypto s SSH_DIRECTION_OUT) as [[slot c]|] eqn:Hg.
  - set (c' := set_out_cipher _ c).
    assert (Hg' : ssh_packet_get_current_crypto
        (set_slot slot c' (set_seqs (u32 (send_seq s + 1)) (recv_seq s) s)) SSH_DIRECTION_OUT
        = Some (slot, c')).
    { apply (get_crypto_set_slot _ _ slot c); [exact Hg|done|done|]. cbn. by destruct (out_cipher c). }
    destruct slot; cbn [set_slot] in *; destruct (raw_counter _);
      cbn -[ssh_buffer_reinit ssh_packet_get_current_crypto]; rewrite Hb, Hr;
      cbn -[ssh_packet_get_current_crypto];
      (do 2 eexists; split_and!; [done|by constructor|done..|];
       intros slot2 c2 Hc2; rewrite Hg in Hc2; simplify_eq; exact Hg').
  - destruct (raw_counter _); cbn -[ssh_buffer_reinit]; rewrite Hb, Hr; cbn -[ssh_packet_get_current_crypto];
      (do 2 eexists; split_and!; [done|by constructor|done..|intros ?? Hc2; congruence]).
Qed.

(** The buffer is appended to the output of the socket, with the MAC. *)
Lemma packet_finish_ok s b hmac hmac_type type n :
  malloc_succeeds -> buffer_wf b -> buffer_wf (socket_out s) -> type <> SSH2_MSG_NEWKEYS ->
  0 < zlen (contents b) ->
  (forall tag, hmac = Some tag -> hmac_digest_len hmac_type <= zlen tag) ->
  b_used b + 64 < BUFFER_SIZE_MAX ->
  b_used (socket_out s) + zlen (contents b) + 64 < BUFFER_SIZE_MAX ->
  let mac := match hmac with Some t => ztake (hmac_digest_len hmac_type) t | None => [] end in
  exists s', packet_finish s b hmac hmac_type type n = Some (SSH_OK, s') /\ same_session s s'
    /\ contents (socket_out s') = contents (socket_out s) ++ contents b ++ mac
    /\ buffer_wf (socket_out s') /\ send_seq s' = u32 (send_seq s + 1)
    /\ (exists b', out_buffer s' = Some b' /\ buffer_wf b' /\ contents b' = [])
    /\ crypto_counted s s' n.
Proof.
  intros Hmem Hwf Hsk Ht Hpos Htag Hroom Hsroom mac. unfold Packet.packet_finish.
  assert (Hl : 0 <= hmac_digest_len hmac_type <= 64) by (destruct hmac_type; cbn; lia).
  assert (Hadd : exists b1, (if some hmac then add_data b hmac (hmac_digest_len hmac_type)
      else Some (0, b)) = Some (0, b1) /\ buffer_wf b1 /\ contents b1 = contents b ++ mac).
  { destruct hmac as [tag|]; cbn [some].
    - specialize (Htag tag eq_refl). destruct (add_data_ok b tag (hmac_digest_len hmac_type))
        as (b1 & -> & ? & _ & Hc); [done|done|lia|lia|]. by exists b1.
    - exists b. split_and!; [done|done|]. unfold mac. by rewrite app_nil_r. }
  destruct Hadd as (b1 & -> & Hwf1 & Hc1). cbn [mbind option_bind].
  change (0 <? 0) with false. cbv iota.
  assert (Hml : zlen mac <= 64).
  { unfold mac. destruct hmac; [zlen_lia|]. rewrite zlen_nil. lia. }
  assert (Hlen1 : zlen (contents b1) = zlen (contents b) + zlen mac) by (rewrite Hc1; zlen_lia).
  pose proof (zlen_nonneg mac). destruct (get_buffer_some b1 Hwf1) as (-> & -> & Htk); [lia|].
  unfold ssh_socket_write. rewrite (proj2 (Z.ltb_lt 0 _)) by lia. cbn [socket_out set_out_buffer].
  destruct (add_data_ok (socket_out s) (zdrop (b_pos b1) (b_data b1)) (zlen (contents b1)))
    as (k & -> & Hkwf & _ & Hkc); [done|done| |lia|].
  { rewrite <- Htk at 1 2. rewrite Htk at 1. rewrite <- Htk at 1.
    pose proof (zlen_take (zlen (contents b1)) (zdrop (b_pos b1) (b_data b1))) as Hz.
    rewrite Htk in Hz. rewrite Htk. pose proof (zlen_nonneg (contents b1)). lia. }
  cbn [mbind option_bind]. change (0 <? 0) with false. cbv iota.
  change (SSH_OK =? SSH_ERROR) with false. cbn [mbind option_bind]. cbv iota.
  edestruct packet_sent_ok as (s' & b' & -> & Hs & Hso & Hseq & Hb' & Hwf' & Hcb' & Hcnt);
    [done|reflexivity|exact Hwf1|exact Ht|].
  exists s'. cbn in Hso. split_and!; [done| | | | |by exists b'|exact Hcnt].
  - destruct Hs. by constructor.
  - by rewrite Hso, Hkc, Htk, Hc1.
  - by rewrite Hso.
  - exact Hseq.
Qed.

(** Up to the protection, the buffer of the session becomes a frame. *)
Lemma packet_send2_frame s s1 b t rest bs lf hm etm d :
  malloc_succeeds -> out_buffer s = Some b -> buffer_wf b -> contents b = t :: rest ->
  zlen (t :: rest) < 2 ^ 31 -> b_used b + 64 < BUFFER_SIZE_MAX ->
  send_params s = Some (bs, lf, hm, etm) -> block_size_ok bs -> 0 <= lf <= 4 ->
  let off := etm_offset etm in
  let n := zlen (t :: rest) in
  let p := packet_padding bs (if etm then 0 else lf) off n in
  make_padding s (some (ssh_packet_get_current_crypto s SSH_DIRECTION_OUT)) p = Some (Some d, s1) ->
  zlen d = 32 ->
  exists b2, buffer_wf b2 /\ contents b2 = frame off (t :: rest) (ztake p d)
    /\ b_used b2 <= b_used b + 40 /\ 4 <= p <= 32
    /\ packet_send2 s = '(hmac, b3, s2) ← encrypt_buffer s1 b2; packet_finish s2 b3 hmac hm (b2z t) n.
Proof.
  intros Hmem Hb Hwf Hc Hn Hroom Hsp Hbs Hlf off n p Hpad Hd. unfold Packet.packet_send2.
  destruct (get_buffer_some b Hwf) as (Hg & Hgl & Htk); [rewrite Hc; zlen_lia|].
  rewrite Hb. cbn [mbind option_bind]. rewrite Hsp. cbn [mbind option_bind].
  rewrite Hg, Hgl, Hc. cbn [mbind option_bind]. fold n off p.
  rewrite (first_byte b t rest) by done. cbn [mbind option_bind]. unfold n in Hpad. fold n in Hpad. fold p in Hpad.
  rewrite Hpad. cbn [mbind option_bind].
  assert (Hp : 4 <= p <= 32).
  { assert (Hn0 : 0 <= n) by (unfold n; apply zlen_nonneg).
    destruct (packet_padding_spec bs (if etm then 0 else lf) off n) as (? & ? & _);
      [done|destruct etm; lia|unfold off, etm_offset; destruct etm; lia| |fold n in Hn; lia|lia].
    unfold off, etm_offset. destruct Hbs, etm; lia. }
  destruct (prepend_ok b (be_bytes 4 (packet_finallen off n p) ++ [z2b p]) 5)
    as (b1 & -> & Hwf1 & Hu1 & Hc1); [done|done| |lia|].
  { autorewrite with zlist. change (zlen [z2b p]) with 1. lia. }
  cbn [mbind option_bind]. change (0 <? 0) with false. cbv iota.
  destruct (add_data_ok b1 d p) as (b2 & -> & Hwf2 & Hu2 & Hc2); [done|done|lia|lia|].
  cbn [mbind option_bind]. change (0 <? 0) with false. cbv iota.
  exists b2. split_and!; [done| |lia|lia|lia|done].
  rewrite Hc2, Hc1, Hc. unfold frame. fold n.
  assert (Hzp : zlen (ztake p d) = p) by zlen_lia. rewrite Hzp.
  rewrite ztake_all.
  - by rewrite <- !app_assoc.
  - autorewrite with zlist. change (zlen [z2b p]) with 1. lia.
Qed.

Lemma contents_overwrite b d p :
  buffer_wf b -> zlen d = zlen (contents b) ->
  memcpy (b_data b) (b_pos b) d 0 (zlen d) = Some p ->
  buffer_wf (set_data b p) /\ contents (set_data b p) = d.
Proof.
  intros Hwf Hd Hcp. pose proof (contents_zlen b Hwf) as Hc. pose proof (memcpy_zlen _ _ _ _ _ _ Hcp).
  pose proof Hwf as [Hp Hu Ha Hdat]. split; [constructor; buf_cbn; (lia || done)|].
  rewrite memcpy_ok in Hcp by lia. simplify_eq. unfold contents. buf_cbn.
  rewrite (zdrop_0 0), (ztake_all (zlen d)) by lia.
  rewrite zdrop_app_ge by zlen_lia. rewrite zdrop_0 by zlen_lia.
  rewrite ztake_app_le by lia. apply ztake_all. lia.
Qed.

Lemma encrypt_buffer_spec s b hmac d s2 :
  buffer_wf b -> 0 < zlen (contents b) ->
  ssh_packet_encrypt s (contents b) (zlen (contents b)) = Some (hmac, d, s2) ->
  zlen d = zlen (contents b) ->
  exists b3, encrypt_buffer s b = Some (hmac, b3, s2) /\ buffer_wf b3 /\ contents b3 = d
    /\ b_used b3 = b_used b.
Proof.
  intros Hwf Hpos He Hd. unfold encrypt_buffer.
  destruct (get_buffer_some b Hwf Hpos) as (-> & -> & Htk). cbn [mbind option_bind].
  rewrite Htk, He. cbn [mbind option_bind]. rewrite <- Hd.
  pose proof (contents_zlen b Hwf) as Hc. pose proof Hwf as [Hp Hu Ha Hdat].
  destruct (memcpy (b_data b) (b_pos b) d 0 (zlen d)) as [p|] eqn:Hcp;
    [|rewrite memcpy_ok in Hcp by lia; done].
  destruct (contents_overwrite b d p Hwf Hd Hcp). cbn [mbind option_bind]. by exists (set_data b p).
Qed.

Lemma make_padding_zeros s p : make_padding s false p = Some (Some (zrep 32 Byte.x00), s).
Proof. done. Qed.

Lemma make_padding_random s p rnd r :
  0 <= p <= 32 -> ssh_get_random (rng s) p = (Some rnd, r) ->
  exists d, make_padding s true p = Some (Some d, set_rng r s) /\ zlen d = 32 /\ ztake p d = rnd.
Proof.
  intros Hp Hr. unfold make_padding. rewrite Hr. apply ssh_get_random_zlen in Hr; [|lia].
  rewrite memcpy_ok by zlen_lia. cbn [mbind option_bind]. eexists. split_and!; [done|zlen_lia|].
  rewrite (ztake_0 0), (zdrop_0 0), (ztake_all p rnd) by lia. cbn [app].
  rewrite ztake_app_le by lia. apply ztake_all. lia.
Qed.

(** What the sender needs: room in its buffers and a payload that fits. *)
Record sendable s (b : ssh_buffer) (t : byte) (rest : bytes) : Prop := {
  snd_buffer : out_buffer s = Some b;
  snd_wf : buffer_wf b;
  snd_contents : contents b = t :: rest;
  snd_type : b2z t <> SSH2_MSG_NEWKEYS;
  snd_room : b_used b + 200 < BUFFER_SIZE_MAX;
  snd_socket : buffer_wf (socket_out s);
  snd_sroom : b_used (socket_out s) + b_used b + 200 < BUFFER_SIZE_MAX
}.

Lemma sendable_len s b t rest : sendable s b t rest -> zlen (t :: rest) <= b_used b.
Proof.
  intros [? Hwf Hc ? ? ? ?]. rewrite <- Hc, contents_zlen by done. pose proof (wf_pos _ Hwf). lia.
Qed.

(** A packet whose protection does not change it: its frame is written, and the
    MAC if there is one. *)
Lemma packet_send2_as_is s s1 b t rest bs lf hm etm d :
  malloc_succeeds -> sendable s b t rest ->
  send_params s = Some (bs, lf, hm, etm) -> block_size_ok bs -> 0 <= lf <= 4 ->
  let off := etm_offset etm in
  let p := packet_padding bs (if etm then 0 else lf) off (zlen (t :: rest)) in
  make_padding s (some (ssh_packet_get_current_crypto s SSH_DIRECTION_OUT)) p = Some (Some d, s1) ->
  zlen d = 32 -> same_session s s1 -> socket_out s1 = socket_out s -> send_seq s1 = send_seq s ->
  (forall text, 0 < zlen text -> ssh_packet_encrypt s1 text (zlen text) = Some (None, text, s1)) ->
  exists s', packet_send2 s = Some (SSH_OK, s') /\ same_session s s'
    /\ contents (socket_out s') = contents (socket_out s) ++ frame off (t :: rest) (ztake p d)
    /\ buffer_wf (socket_out s') /\ send_seq s' = u32 (send_seq s + 1)
    /\ (exists b', out_buffer s' = Some b' /\ buffer_wf b' /\ contents b' = []).
Proof.
  intros Hmem Hsend Hsp Hbs Hlf off p Hpad Hd Hss Hso Hseq Henc.
  pose proof (sendable_len _ _ _ _ Hsend) as Hlen. destruct Hsend as [Hb Hwf Hc Ht Hr Hk Hkr].
  unfold BUFFER_SIZE_MAX in *.
  destruct (packet_send2_frame s s1 b t rest bs lf hm etm d) as (b2 & Hwf2 & Hc2 & Hu2 & Hp & ->);
    [done|done|done|done|lia|unfold BUFFER_SIZE_MAX; lia|done..|]. fold off p in Hc2, Hp.
  assert (Hl2 : zlen (contents b2) = 5 + zlen (t :: rest) + p).
  { rewrite Hc2, zlen_frame. zlen_lia. }
  pose proof (zlen_nonneg (t :: rest)).
  destruct (encrypt_buffer_spec s1 b2 None (contents b2) s1) as (b3 & -> & Hwf3 & Hc3 & Hu3);
    [done|lia|apply Henc; lia|done|]. cbn [mbind option_bind].
  destruct (packet_finish_ok s1 b3 None hm (b2z t) (zlen (t :: rest)))
    as (s' & -> & Hs & Hw & Hkwf & Hsq & Hob & _);
    [done|done|by rewrite Hso|done|rewrite Hc3; lia|done|unfold BUFFER_SIZE_MAX; lia| |].
  { rewrite Hso, Hc3, Hl2. unfold BUFFER_SIZE_MAX. lia. }
  exists s'. rewrite app_nil_r, Hc3, Hc2, Hso in Hw. rewrite Hseq in Hsq.
  split_and!; [done| |done..]. destruct Hss, Hs. constructor; congruence.
Qed.

(** Before the first key exchange ends, packets are sent as clear frames padded
    with zeros. *)
Lemma packet_send2_clear s b t rest c :
  malloc_succeeds -> sendable s b t rest ->
  ssh_packet_get_current_crypto s SSH_DIRECTION_OUT = None -> next_crypto s = Some c ->
  let p := packet_padding 8 0 0 (zlen (t :: rest)) in
  exists s', packet_send2 s = Some (SSH_OK, s') /\ same_session s s'
    /\ contents (socket_out s')
       = contents (socket_out s) ++ frame 0 (t :: rest) (ztake p (zrep 32 Byte.x00))
    /\ buffer_wf (socket_out s') /\ send_seq s' = u32 (send_seq s + 1)
    /\ (exists b', out_buffer s' = Some b' /\ buffer_wf b' /\ contents b' = []).
Proof.
  intros Hmem Hs Hcr Hn p.
  apply (packet_send2_as_is s s b t rest 8 0 (out_hmac c) false (zrep 32 Byte.x00)); try done.
  - unfold send_params. by rewrite Hcr, Hn.
  - by left.
  - by rewrite Hcr.
  - intros text Hpos. unfold ssh_packet_encrypt. rewrite Hcr.
    destruct (Z.eqb_spec (zlen text) 0); [lia|done].
Qed.

(** When the context of the HMAC cannot be allocated, [ssh_packet_encrypt]
    answers the null pointer that also means "no encryption": the packet is
    written in clear over a connection whose keys are in use, and the caller is
    told that it was sent. *)
Theorem encryption_failure_sends_cleartext s slot c oc b t rest rnd g :
  HMAC_CTX_new = false -> malloc_succeeds -> sendable s b t rest ->
  ssh_packet_get_current_crypto s SSH_DIRECTION_OUT = Some (slot, c) ->
  out_cipher c = Some oc -> aead_encrypt (c_ops oc) = None ->
  block_size_ok (blocksize (c_ops oc)) -> lenfield_blocksize (c_ops oc) = 0 ->
  let off := etm_offset (out_hmac_etm c) in
  ssh_get_random (rng s) (packet_padding (blocksize (c_ops oc)) 0 off (zlen (t :: rest)))
    = (Some rnd, g) ->
  exists s', packet_send2 s = Some (SSH_OK, s')
    /\ contents (socket_out s') = contents (socket_out s) ++ frame off (t :: rest) rnd.
Proof.
  intros Hnew Hmem Hsend Hc Ho Hae Hbs Hlf off Hrnd.
  pose proof (sendable_len _ _ _ _ Hsend) as Hlen. pose proof (snd_room _ _ _ _ Hsend) as Hroom.
  unfold BUFFER_SIZE_MAX in Hroom. pose proof (zlen_nonneg (t :: rest)).
  set (p := packet_padding _ 0 off _) in Hrnd.
  destruct (packet_padding_spec (blocksize (c_ops oc)) 0 off (zlen (t :: rest))) as (Hp1 & Hp2 & _);
    [done|lia|unfold off, etm_offset; destruct (out_hmac_etm c); lia| |lia|].
  { unfold off, etm_offset. destruct Hbs, (out_hmac_etm c); lia. }
  fold p in Hp1, Hp2. destruct (make_padding_random s p rnd g) as (d & Hpad & Hd & Htd); [lia|done|].
  destruct (packet_send2_as_is s (set_rng g s) b t rest (blocksize (c_ops oc)) 0 (out_hmac c)
    (out_hmac_etm c) d) as (s' & Hs & _ & Hw & _);
    [done|done| |done|lia| |done|by constructor|done|done| |].
  - unfold send_params. rewrite Hc. cbn [mbind option_bind]. rewrite Ho. cbn [mbind option_bind].
    by rewrite Hlf.
  - rewrite Hc. cbn [some]. replace (if out_hmac_etm c then 0 else 0) with 0 by (by destruct (out_hmac_etm c)).
    exact Hpad.
  - intros text Hpos. unfold ssh_packet_encrypt. destruct (Z.eqb_spec (zlen text) 0); [lia|].
    change (ssh_packet_get_current_crypto (set_rng g s) SSH_DIRECTION_OUT)
      with (ssh_packet_get_current_crypto s SSH_DIRECTION_OUT). rewrite Hc.
    cbn [mbind option_bind]. rewrite Ho. cbn [mbind option_bind].
    destruct (negb (_ =? 0)); [done|]. destruct (negb (some _)); [done|]. rewrite Hae.
    unfold hmac_init. by rewrite Hnew.
  - exists s'. split; [done|]. rewrite Hw. do 2 f_equal. rewrite <- Htd. f_equal.
    unfold p. by destruct (out_hmac_etm c).
Qed.
End SendFacts.

(** ** Queueing during a rekeying *)

Section Queue.
Context `{Allocator} `{HmacLib} `{RandomLib} {K X : Type}.
Variable ssh_packet_set_newkeys : session K prng X -> Z -> run (Z * session K prng X).
Variable ssh_send_rekex : session K prng X -> run (Z * session K prng X).
Implicit Type s : session K prng X.

#[local] Abbreviation send := (ssh_packet_send ssh_packet_set_newkeys ssh_send_rekex).

Lemma rekey_queues s b t rest :
  malloc_succeeds -> out_buffer s = Some b -> buffer_wf b -> contents b = t :: rest ->
  ssh_packet_in_rekey s = true -> ssh_packet_is_kex (b2z t) = false ->
  exists nb, send s = Some (SSH_OK, set_out_buffer (Some nb) (set_out_queue (out_queue s ++ [b]) s))
    /\ buffer_wf nb /\ contents nb = [].
Proof.
  intros Hmem Hb Hwf Hc Hre Hk. unfold ssh_packet_send. rewrite Hb. cbn [mbind option_bind].
  destruct (get_buffer_some b Hwf) as (Hg & Hgl & Htk); [rewrite Hc; zlen_lia|].
  rewrite Hgl, Hg, Hc. destruct (Z.ltb_spec (zlen (t :: rest)) 1) as [Hbad|_]; [zlen_lia|].
  cbn [mbind option_bind].
  rewrite (first_byte b t rest) by done. cbn [mbind option_bind]. rewrite Hre, Hk.
  assert (Hneed : ssh_packet_need_rekey s (zlen (t :: rest)) = false).
  { unfold ssh_packet_in_rekey in Hre. apply andb_true_iff in Hre as [_ Hre].
    unfold ssh_packet_need_rekey. destruct (Z.land _ _ =? 0); [done|]. by rewrite Hre. }
  rewrite Hneed. cbn [orb andb negb].
  destruct (malloc 16) eqn:Hm; [|by apply Hmem in Hm; [|unfold BUFFER_SIZE_MAX; lia]].
  cbn [some negb]. destruct (ssh_buffer_new_ok Hmem) as (nb & -> & Hnwf & Hnc & _).
  cbn [mbind option_bind]. by exists nb.
Qed.

(** While the keys of an authenticated session are exchanged again, only the
    messages of the key exchange are written: any other packet is put at the end
    of the queue, nothing reaches the socket and an empty buffer is ready for the
    next packet. *)
Theorem rekey_delays_packets s b t rest :
  malloc_succeeds -> out_buffer s = Some b -> buffer_wf b -> contents b = t :: rest ->
  ssh_packet_in_rekey s = true -> ssh_packet_is_kex (b2z t) = false ->
  exists s' b', send s = Some (SSH_OK, s') /\ out_queue s' = out_queue s ++ [b]
    /\ socket_out s' = socket_out s /\ send_seq s' = send_seq s
    /\ out_buffer s' = Some b' /\ contents b' = [].
Proof.
  intros Hmem Hb Hwf Hc Hre Hk.
  destruct (rekey_queues s b t rest Hmem Hb Hwf Hc Hre Hk) as (nb & -> & _ & Hnc).
  do 2 eexists. by split_and!.
Qed.
End Queue.

(** ** A concrete connection

    The libraries instantiated by simple functions, for the examples. *)
Module Demo.
#[export] Instance random : RandomLib.
Proof.
  refine {| prng := unit; ssh_get_random _ n := (Some (zrep n Byte.x00), tt) |}.
  intros r n p r' Hn [= <- _]. zlen_lia.
Defined.

(** A checksum in place of a digest. *)
Definition checksum (key data : bytes) : byte :=
  z2b (fold_left (fun a c => 3 * a + b2z c) (key ++ data) 7 mod 251).
Definition hmac (works : bool) : HmacLib.
Proof.
  refine {| HMAC_CTX_new := works;
            HMAC md key data := zrep (evp_md_size md) (checksum key data) |}.
  intros [] key data; reflexivity.
Defined.

(** A cipher that masks each byte; its state counts them. *)
Definition mask (m : bytes) : bytes := map (fun c => z2b (Z.lxor (b2z c) 0x5a)) m.
Definition xor_ops : cipher_ops Z :=
  mk_cipher_ops SSH_AES128_CTR 128 16 0 (fun k _ _ => Some (0, k)) (fun k _ _ => Some (0, k)) (fun k m => Some (mask m, k + zlen m))
    (fun k m => Some (mask m, k + zlen m))
    None None None.

Definition xor_crypto : ssh_crypto Z :=
  mk_crypto SSH_DIRECTION_BOTH (Some (mk_cipher xor_ops 0 0 0 0)) (Some (mk_cipher xor_ops 0 0 0 0))
    SSH_HMAC_SHA256 SSH_HMAC_SHA256 true true (zrep 32 Byte.x01) (zrep 32 Byte.x01)
    (zrep 64 Byte.x00) 32 None.
Definition no_crypto : ssh_crypto Z :=
  mk_crypto 0 None None SSH_HMAC_SHA1 SSH_HMAC_SHA1 false false [] [] [] 0 None.

Definition buffer_of (d : bytes) : ssh_buffer := mk_buffer false (zlen d) (zlen d) 0 d [].

Definition start (p : proto) (payload : bytes) (cur nxt : option (ssh_crypto Z))
    : session Z (@prng random) () :=
  mk_session p None (Some (buffer_of payload)) [] PACKET_STATE_INIT (mk_packet 0 0 0) 3 3 cur nxt None
    0 0 (mk_timestamp 0 0) (mk_timestamp 0 0) zero_buffer tt ().

Definition authenticated : proto :=
  mkProto true false SSH_SESSION_FLAG_AUTHENTICATED SSH_SESSION_STATE_AUTHENTICATED DH_STATE_INIT
    SSH_CHANNEL_REQ_STATE_NONE SSH_AUTH_SERVICE_ACCEPTED SSH_AUTH_STATE_SUCCESS.

Lemma calloc_succeeds : @malloc_succeeds calloc_allocator.
Proof. intros n Hn. discriminate. Qed.

Definition ignore_packet : bytes := z2b SSH2_MSG_IGNORE :: cstr "WindTerm".

Lemma buffer_of_wf d : zlen d <= BUFFER_SIZE_MAX -> buffer_wf (buffer_of d) /\ contents (buffer_of d) = d.
Proof.
  intros Hd. pose proof (zlen_nonneg d). split.
  - constructor; cbn; lia.
  - unfold contents. cbn. rewrite zdrop_0 by lia. apply ztake_all. lia.
Qed.

Lemma start_sendable p cur nxt : sendable (start p ignore_packet cur nxt) (buffer_of ignore_packet)
  (z2b SSH2_MSG_IGNORE) (cstr "WindTerm").
Proof.
  constructor; try done; try (by apply buffer_of_wf); try apply zero_buffer_wf.
Qed.
End Demo.

Lemma encryption_failure_sends_cleartext_witness :
  exists s', @packet_send2 calloc_allocator (Demo.hmac false) Demo.random Z () (fun s _ => Some (0, s))
      (Demo.start Demo.authenticated Demo.ignore_packet (Some Demo.xor_crypto) None) = Some (SSH_OK, s')
    /\ contents (socket_out s') = [] ++ frame 4 Demo.ignore_packet (zrep 6 Byte.x00).
Proof.
  apply (@encryption_failure_sends_cleartext calloc_allocator (Demo.hmac false) Demo.random Z ()
    (fun s _ => Some (0, s)) (Demo.start Demo.authenticated Demo.ignore_packet (Some Demo.xor_crypto) None)
    Current Demo.xor_crypto (mk_cipher Demo.xor_ops 0 0 0 0) (Demo.buffer_of Demo.ignore_packet)
    (z2b SSH2_MSG_IGNORE) (cstr "WindTerm") (zrep 6 Byte.x00) tt);
    [reflexivity|exact Demo.calloc_succeeds|apply Demo.start_sendable|reflexivity..| | |].
  - right. reflexivity.
  - reflexivity.
  - vm_compute. reflexivity.
Defined.

Lemma rekey_delays_packets_witness :
  exists s' b', @ssh_packet_send calloc_allocator (Demo.hmac true) Demo.random Z ()
      (fun s _ => Some (0, s)) (fun s => Some (0, s))
      (Demo.start Demo.authenticated Demo.ignore_packet (Some Demo.xor_crypto) None) = Some (SSH_OK, s')
    /\ out_queue s' = [] ++ [Demo.buffer_of Demo.ignore_packet]
    /\ socket_out s' = zero_buffer /\ send_seq s' = 3
    /\ out_buffer s' = Some b' /\ contents b' = [].
Proof.
  apply (@rekey_delays_packets calloc_allocator (Demo.hmac true) Demo.random Z () (fun s _ => Some (0, s))
    (fun s => Some (0, s)) (Demo.start Demo.authenticated Demo.ignore_packet (Some Demo.xor_crypto) None)
    (Demo.buffer_of Demo.ignore_packet) (z2b SSH2_MSG_IGNORE) (cstr "WindTerm"));
    [exact Demo.calloc_succeeds|reflexivity|apply Demo.buffer_of_wf; vm_compute; discriminate
    |apply Demo.buffer_of_wf; vm_compute; discriminate|reflexivity|reflexivity].
Defined.
