(* ===== verification/SendFacts.v ===== *)
(** * What sending a packet does to the protocol state

    A send changes the states of a session only as the switch of keys and the start of a rekeying do,
    for any relation of states that these two respect. *)

From stdpp Require Import gmap.
From S2P Require Import Prelude SshString Buffer Session Crypto Packet.

(** Walks through binds and cases down to the returns. *)
Ltac walk H := repeat (case_match || (apply bind_Some in H as (? & ? & H)) || (progress simplify_eq)).

(** The sessions a step can return are related to the one it starts from. *)
Definition within {K R X A} (Rel : relation proto) (s : session K R X) (x : run (A * session K R X)) : Prop :=
  forall a s', x = Some (a, s') -> Rel (proto_of s) (proto_of s').

Section Within.
Context {K R X : Type} (Rel : relation proto) `{!PreOrder Rel}.
Implicit Type s : session K R X.

Lemma within_return {A} s (a : A) s' : Rel (proto_of s) (proto_of s') -> within Rel s (Some (a, s')).
Proof. by intros Hp ? ? [= _ <-]. Qed.

Lemma within_same {A} s s1 (x : run (A * session K R X)) : proto_of s1 = proto_of s -> within Rel s1 x -> within Rel s x.
Proof. intros Hp Hx a s' Hs. rewrite <- Hp. by apply (Hx a). Qed.

Lemma within_after {A} s s1 (x : run (A * session K R X)) : Rel (proto_of s) (proto_of s1) -> within Rel s1 x -> within Rel s x.
Proof. intros Hp Hx a s' Hs. etrans; [exact Hp|]. by apply (Hx a). Qed.

Lemma within_bind {A B} s (x : run (A * session K R X)) (k : A * session K R X -> run (B * session K R X)) :
  within Rel s x -> (forall a s1, x = Some (a, s1) -> within Rel s1 (k (a, s1))) -> within Rel s (y ← x; k y).
Proof. intros Hx Hk b s' Hs. apply bind_Some in Hs as ([a s1] & Ha & Hs). etrans; [by eapply Hx|]. by eapply Hk. Qed.
End Within.

Section Sending.
Context `{Allocator} `{HmacLib} `{RandomLib} {K X : Type}.
#[local] Abbreviation session := (session K prng X).
Implicit Type s : session.
Context (Rel : relation proto) `{!PreOrder Rel}.
Variable set_newkeys : session -> Z -> run (Z * session).
Variable send_rekex : session -> run (Z * session).
Hypothesis newkeys_within : forall s d, within Rel s (set_newkeys s d).
Hypothesis rekex_within : forall s, within Rel s (send_rekex s).

Lemma set_slot_proto i c s : proto_of (set_slot i c s) = proto_of s.
Proof. by destruct i. Qed.

Lemma encrypt_proto s data len h d s' : ssh_packet_encrypt s data len = Some (h, d, s') -> proto_of s' = proto_of s.
Proof. unfold ssh_packet_encrypt. intros Hx. walk Hx; rewrite ?set_slot_proto; done. Qed.

Lemma sent_within s type n : within Rel s (packet_sent set_newkeys s type n).
Proof.
  unfold packet_sent. set (s1 := match ssh_packet_get_current_crypto _ _ with Some _ => _ | None => _ end).
  assert (Ha : proto_of s1 = proto_of s) by (unfold s1; case_match; [case_match; by rewrite set_slot_proto|done]). clearbody s1.
  set (s2 := match raw_counter s1 with Some _ => _ | None => _ end).
  assert (Hb : proto_of s2 = proto_of s) by (unfold s2; by destruct (raw_counter s1)). clearbody s2.
  intros a s' Hx. rewrite <- Hb. apply bind_Some in Hx as ([rc b] & _ & Hx). destruct (rc <? 0); [by injection Hx as <- <-|].
  destruct (type =? _); [|by injection Hx as <- <-]. by apply newkeys_within in Hx.
Qed.

Lemma send2_within s : within Rel s (packet_send2 set_newkeys s).
Proof.
  intros a s' Hx. unfold packet_send2 in *. apply bind_Some in Hx as (b & _ & Hx).
  apply bind_Some in Hx as ([[[bs lf] ht] etm] & _ & Hx). apply bind_Some in Hx as (payload & _ & Hx).
  apply bind_Some in Hx as (type & _ & Hx). apply bind_Some in Hx as ([pd s1] & Hpad & Hx).
  assert (Ha : proto_of s1 = proto_of s) by (unfold make_padding in Hpad; walk Hpad; done).
  rewrite <- Ha. destruct pd as [pd|]; [|by injection Hx as <- <-].
  apply bind_Some in Hx as ([rc b1] & _ & Hx). destruct (rc <? 0); [by injection Hx as <- <-|].
  apply bind_Some in Hx as ([rc' b2] & _ & Hx). destruct (rc' <? 0); [by injection Hx as <- <-|].
  apply bind_Some in Hx as ([[hmac b3] s2] & He & Hx). unfold encrypt_buffer in He.
  apply bind_Some in He as (data & _ & He). apply bind_Some in He as ([[h d] s3] & Hen & He).
  apply bind_Some in He as (d' & _ & He). injection He as <- <- <-. apply encrypt_proto in Hen. rewrite <- Hen.
  unfold packet_finish in Hx. apply bind_Some in Hx as ([rc2 b4] & _ & Hx). destruct (rc2 <? 0); [by injection Hx as <- <-|].
  apply bind_Some in Hx as ([rc3 s4] & Hw & Hx).
  assert (Hd : proto_of s4 = proto_of s3) by (unfold ssh_socket_write in Hw; walk Hw; done). rewrite <- Hd.
  destruct (rc3 =? SSH_ERROR); [by injection Hx as <- <-|]. by apply sent_within in Hx.
Qed.

Lemma flush_within n : forall s, within Rel s (flush_queue set_newkeys send_rekex n s).
Proof.
  induction n as [|n IH]; intros s a s' Hx; cbn [flush_queue] in Hx.
  - destruct (out_queue s); [by injection Hx as <- <-|done].
  - destruct (out_queue s) as [|b rest]; [by injection Hx as <- <-|].
    destruct (ssh_packet_need_rekey _ _); [by apply rekex_within in Hx|].
    apply bind_Some in Hx as ([rc s1] & Ha & Hx). apply send2_within in Ha. etrans; [exact Ha|].
    destruct (negb _); [by injection Hx as <- <-|]. by apply IH in Hx.
Qed.

(** A send stays within what the switch of keys and the start of a rekeying stay in. *)
Lemma send_within s : within Rel s (Packet.ssh_packet_send set_newkeys send_rekex s).
Proof.
  intros a s' Hx. unfold Packet.ssh_packet_send in *. apply bind_Some in Hx as (b & _ & Hx).
  destruct (_ <? 1); [by injection Hx as <- <-|]. apply bind_Some in Hx as (payload & _ & Hx).
  apply bind_Some in Hx as (type & _ & Hx). cbv zeta in Hx. destruct (_ || _).
  - destruct (negb _); [by injection Hx as <- <-|]. apply bind_Some in Hx as (nb & _ & Hx).
    destruct nb; [|by injection Hx as <- <-]. destruct (ssh_packet_need_rekey _ _); [|by injection Hx as <- <-].
    by apply rekex_within in Hx.
  - apply bind_Some in Hx as ([rc s1] & Ha & Hx). apply send2_within in Ha. etrans; [exact Ha|].
    destruct (_ && _); [by apply flush_within in Hx|by injection Hx as <- <-].
Qed.
End Sending.
