(* ===== verification/PacketRecv.v ===== *)
(** * Incoming packets ([libssh/src/packet.c], [libssh/src/packet_crypt.c])

    The reading of a packet from the bytes the socket received: the length
    field, the rest of the packet, the verification of its MAC, its padding, the
    filter, the dispatch to the handlers and the packets that follow it in the
    same data. *)

From S2P Require Import Prelude Buffer Bignum BufferPack Session PacketFilter Misc Crypto Packet.

Definition MAX_PACKET_LEN : Z := 262144.
Definition SSH_PACKET_USED : Z := 1.
Definition SSH_PACKET_NOT_USED : Z := 2.

Section Recv.
Context `{Allocator} `{BignumLib} `{HmacLib} `{RandomLib} {K X : Type}.
Notation session := (session K prng X).
Implicit Type s : session.

Variable ssh_packet_set_newkeys : session -> Z -> run (Z * session).
Variable ssh_send_rekex : session -> run (Z * session).

(** A handler is given the type of the packet; the packet is [in_buffer]. *)
Definition handler : Type := session -> Z -> run (Z * session).
Record ssh_packet_callbacks := mk_callbacks {
  cb_start : Z;
  cb_n_callbacks : Z;
  cb_callbacks : list (option handler)
}.
(** [session->packet_callbacks], its entries in order ([None]: a null entry). *)
Variable packet_callbacks : session -> option (list (option ssh_packet_callbacks)).

(** ** Decryption *)

(** What it writes at [destination], unless it fails. *)
Definition ssh_packet_decrypt s (source : bytes) (start encrypted_size : Z)
    : run (option bytes * session) :=
  if encrypted_size <=? 0 then Some (None, s) else
  match ssh_packet_get_current_crypto s SSH_DIRECTION_IN with
  | None => Some (None, s)
  | Some (slot, crypto) =>
      cipher ← in_cipher crypto;
      let ops := c_ops cipher in
      if negb (encrypted_size mod blocksize ops =? 0) then Some (None, s) else
      match aead_decrypt ops with
      | Some aead =>
          '(out, k) ← aead (c_key cipher) source encrypted_size (recv_seq s);
          Some (out, set_slot slot (set_in_cipher (Some (set_key k cipher)) crypto) s)
      | None =>
          text ← memcpy (zrep encrypted_size Byte.x00) 0 source start encrypted_size;
          '(out, k) ← decrypt ops (c_key cipher) text;
          Some (Some out, set_slot slot (set_in_cipher (Some (set_key k cipher)) crypto) s)
      end
  end.

(** The length field, and what is left at [destination] ([None]: nothing). *)
Definition ssh_packet_decrypt_len s (source : bytes) : run (Z * option bytes * session) :=
  '(d, s) ←
    match ssh_packet_get_current_crypto s SSH_DIRECTION_IN with
    | Some (slot, crypto) =>
        cipher ← in_cipher crypto;
        let ops := c_ops cipher in
        match aead_decrypt_length ops with
        | Some aead =>
            '(out, k) ← aead (c_key cipher) source (lenfield_blocksize ops) (recv_seq s);
            Some (out, set_slot slot (set_in_cipher (Some (set_key k cipher)) crypto) s)
        | None => ssh_packet_decrypt s source 0 (blocksize ops)
        end
    | None => d ← memcpy (zrep 8 Byte.x00) 0 source 0 8; Some (Some d, s)
    end;
  match d with
  | None => Some (0, None, s)
  | Some d =>
      decrypted ← memcpy (zrep 4 Byte.x00) 0 d 0 4;
      Some (ntohl (le_val decrypted), Some d, s)
  end.

Definition ssh_packet_hmac_verify s (data : bytes) (len : Z) (mac : bytes) (type : ssh_hmac_e)
    : run Z :=
  if bool_decide (type = SSH_HMAC_AEAD_POLY1305) || bool_decide (type = SSH_HMAC_AEAD_GCM)
  then Some SSH_OK else
  match ssh_packet_get_current_crypto s SSH_DIRECTION_IN with
  | None => Some SSH_ERROR
  | Some (_, crypto) =>
      match hmac_init (decryptMAC crypto) (hmac_key_len type) type with
      | None => Some (-1)
      | Some ctx =>
          text ← memcpy (zrep len Byte.x00) 0 data 0 len;
          let '(buf, hmaclen) :=
            hmac_final (hmac_update (hmac_update ctx (be_bytes 4 (recv_seq s))) text) type in
          differ ← secure_memcmp mac buf hmaclen;
          Some (if (differ : bool) then -1 else 0)
      end
  end.

(** ** Replies and dispatch *)

Definition ssh_packet_send_unimplemented s (seqnum : Z) : run (Z * session) :=
  b ← out_buffer s;
  '(rc, b) ← ssh_buffer_pack b (cstr "bd") [VInt SSH2_MSG_UNIMPLEMENTED; VInt seqnum];
  let s := set_out_buffer (Some b) s in
  if negb (rc =? SSH_OK) then Some (SSH_ERROR, s)
  else ssh_packet_send ssh_packet_set_newkeys ssh_send_rekex s.

Definition ssh_packet_parse_type s : run (Z * session) :=
  let s := set_in_packet (mk_packet 0 0 0) s in
  match in_buffer s with
  | None => Some (SSH_ERROR, s)
  | Some b =>
      '(n, v, b) ← ssh_buffer_get_u8 b;
      let s := set_in_buffer (Some b) s in
      match v with
      | Some t => Some (SSH_OK, set_in_packet (mk_packet 1 0 t) s)
      | None => Some (SSH_ERROR, s)
      end
  end.

(** The loop over the registered tables. *)
Fixpoint process_loop (cbs : list (option ssh_packet_callbacks)) s (type rc : Z)
    : run (Z * session) :=
  match cbs with
  | [] => Some (rc, s)
  | cb :: rest =>
      match cb with
      | None => process_loop rest s type rc
      | Some cb =>
          if type <? cb_start cb then process_loop rest s type rc else
          if cb_start cb + cb_n_callbacks cb <=? type then process_loop rest s type rc else
          entry ← cb_callbacks cb !! Z.to_nat (type - cb_start cb);
          match entry with
          | None => process_loop rest s type rc
          | Some f =>
              '(rc, s) ← f s type;
              if rc =? SSH_PACKET_USED then Some (rc, s) else process_loop rest s type rc
          end
      end
  end.

Definition ssh_packet_process s (type : Z) : run session :=
  match packet_callbacks s with
  | None => Some s
  | Some cbs =>
      '(rc, s) ← process_loop cbs s type SSH_PACKET_NOT_USED;
      if rc =? SSH_PACKET_NOT_USED then
        '(_, s) ← ssh_packet_send_unimplemented s (u32 (recv_seq s - 1)); Some s
      else Some s
  end.

(** ** Reading a packet *)

(** How a part of the reading ends: with the error label, waiting for more data
    ([return 0]), or going on. *)
Inductive recv_result (A : Type) :=
  | RError (processed : Z) (s : session)
  | RWait (s : session)
  | RGo (a : A) (s : session).
Arguments RError {A}.
Arguments RWait {A}.
Arguments RGo {A}.

Definition fatal s : session :=
  set_proto (set_session_state SSH_SESSION_STATE_ERROR (proto_of s)) s.

(** [current_macsize], [blocksize] and [lenfield_blocksize] as the function
    adjusts them, [etm] and [etm_packet_offset]. *)
Record recv_params := mk_params {
  rp_macsize : Z; rp_blocksize : Z; rp_lenfield : Z; rp_etm : bool
}.
Definition rp_offset (p : recv_params) : Z := etm_offset (rp_etm p).

Definition get_params s : run recv_params :=
  '(mac, bs, lf, etm) ←
    match ssh_packet_get_current_crypto s SSH_DIRECTION_IN with
    | Some (_, c) =>
        ic ← in_cipher c;
        Some (hmac_digest_len (in_hmac c), blocksize (c_ops ic), lenfield_blocksize (c_ops ic),
              in_hmac_etm c)
    | None => Some (0, 8, 8, false)
    end;
  let lf := if (etm : bool) then 0 else if lf =? 0 then bs else lf in
  Some (mk_params mac bs lf etm).

(** [in_buffer] with [d] written at the pointer [ptr] in it. *)
Definition write_in s (ptr : Z) (d : bytes) : run session :=
  b ← in_buffer s;
  m ← memcpy (b_data b) ptr d 0 (zlen d);
  Some (set_in_buffer (Some (set_data b m)) s).

(** The buffer for a new packet, empty. *)
Definition fresh_in_buffer s : run (option session) :=
  match in_buffer s with
  | Some b =>
      '(rc, b) ← ssh_buffer_reinit (Some b);
      Some (if rc <? 0 then None else Some (set_in_buffer b s))
  | None =>
      b ← ssh_buffer_new;
      match b with Some b => Some (Some (set_in_buffer (Some b) s)) | None => Some None end
  end.

(** [PACKET_STATE_INIT]: the length of the packet. *)
Definition recv_init (p : recv_params) s (data : bytes) : run (recv_result ()) :=
  if zlen data <? u32 (rp_lenfield p + rp_offset p) then Some (RWait s) else
  let s := set_in_packet (mk_packet 0 0 0) s in
  fresh ← fresh_in_buffer s;
  match fresh with
  | None => Some (RError 0 s)
  | Some s =>
      r ← (if negb (rp_etm p) then
             b ← in_buffer s;
             '(ptr, b) ← ssh_buffer_allocate b (rp_lenfield p);
             let s := set_in_buffer (Some b) s in
             match ptr with
             | None => Some (inl s)
             | Some ptr =>
                 '(packet_len, d, s) ← ssh_packet_decrypt_len s data;
                 s ← match d with Some d => write_in s ptr d | None => Some s end;
                 Some (inr (packet_len, s32 (u32 (packet_len - rp_lenfield p) + 4), s))
             end
           else
             d ← memcpy (zrep 4 Byte.x00) 0 data 0 4;
             let packet_len := be_val d in
             Some (inr (packet_len, s32 (packet_len - rp_offset p), s)));
      match r with
      | inl s => Some (RError 0 s)
      | inr (packet_len, to_be_read, s) =>
          let processed := rp_lenfield p + rp_offset p in
          if MAX_PACKET_LEN <? packet_len then Some (RError processed s) else
          if to_be_read <? 0 then Some (RError processed s) else
          Some (RGo () (set_packet_state PACKET_STATE_SIZEREAD
                          (set_in_packet (mk_packet 0 packet_len 0) s)))
      end
  end.

(** [PACKET_STATE_SIZEREAD], the protected case: the MAC before the decryption
    for EtM, after it otherwise.  [processed] does not count the MAC yet; the
    left result is the error label. *)
Definition recv_decrypt (p : recv_params) s (crypto : ssh_crypto K) (data : bytes)
    (ptr packet_remaining processed : Z) : run (session + session) :=
  let skip := rp_lenfield p + rp_offset p in
  let mac := zdrop (skip + packet_remaining) data in
  rc ← (if rp_etm p then ssh_packet_hmac_verify s data processed mac (in_hmac crypto)
        else Some 0);
  if rc <? 0 then Some (inl s) else
  r ← (if 0 <? packet_remaining then
         '(d, s) ← ssh_packet_decrypt s data skip (processed - skip);
         match d with
         | None => Some (inl s)
         | Some d => s ← write_in s ptr d; Some (inr s)
         end
       else Some (inr s));
  match r with
  | inl s => Some (inl s)
  | inr s =>
      b ← in_buffer s;
      rc ← (if negb (rp_etm p) then
              text ← ssh_buffer_get b;
              ssh_packet_hmac_verify s text (ssh_buffer_get_len b) mac (in_hmac crypto)
            else Some 0);
      if rc <? 0 then Some (inl s) else Some (inr s)
  end.

(** The padding is cut and the payload counted. *)
Definition recv_payload (p : recv_params) s (processed : Z) : run (recv_result Z) :=
  b ← in_buffer s;
  let b := if negb (rp_etm p) then snd (ssh_buffer_pass_bytes b 4) else b in
  '(n, padding, b) ← ssh_buffer_get_u8 b;
  let s := set_in_buffer (Some b) s in
  match padding with
  | None => Some (RError processed s)
  | Some padding =>
      if ssh_buffer_get_len b <? padding then Some (RError processed s) else
      let b := snd (ssh_buffer_pass_bytes_end b padding) in
      let s := set_in_buffer (Some b) s in
      let payloadsize := ssh_buffer_get_len b in
      let s := set_seqs (send_seq s) (u32 (recv_seq s + 1)) s in
      let s := match ssh_packet_get_current_crypto s SSH_DIRECTION_IN with
               | Some (slot, c) =>
                   set_slot slot (set_in_cipher (option_map (count_packet payloadsize) (in_cipher c)) c) s
               | None => s
               end in
      let s := match raw_counter s with
               | Some n => set_raw_counter (Some (mk_counter (u64 (in_bytes n + payloadsize))
                   (out_bytes n) (u64 (in_packets n + 1)) (out_packets n))) s
               | None => s
               end in
      Some (RGo processed s)
  end.

(** [PACKET_STATE_SIZEREAD]: the rest of the packet, up to its payload; the
    result is what has been processed. *)
Definition recv_body (p : recv_params) s (data : bytes) : run (recv_result Z) :=
  let packet_len := p_len (in_packet s) in
  let skip := rp_lenfield p + rp_offset p in
  let to_be_read := s32 (packet_len + 4 + rp_macsize p) in
  if negb (to_be_read =? 0) && (zlen data <? u32 to_be_read) then Some (RWait s) else
  let second_block := negb (to_be_read =? 0) in
  let processed := if second_block then u64 (to_be_read - rp_macsize p) else skip in
  let packet_remaining := u64 (packet_len - u64 (rp_lenfield p - 4 + rp_offset p)) in
  b ← in_buffer s;
  '(ptr, b) ← ssh_buffer_allocate b packet_remaining;
  let s := set_in_buffer (Some b) s in
  match ptr with
  | None => Some (RError processed s)
  | Some ptr =>
      if second_block then
        match ssh_packet_get_current_crypto s SSH_DIRECTION_IN with
        | Some (_, crypto) =>
            r ← recv_decrypt p s crypto data ptr packet_remaining processed;
            match r with
            | inl s => Some (RError processed s)
            | inr s => recv_payload p s (processed + rp_macsize p)
            end
        | None =>
            d ← memcpy (zrep packet_remaining Byte.x00) 0 data skip packet_remaining;
            s ← write_in s ptr d;
            recv_payload p s processed
        end
      else recv_payload p s processed
  end.

(** The handlers run on the packet that the filter allows. *)
Definition recv_dispatch s (processed : Z) : run (recv_result ()) :=
  let s := set_packet_state PACKET_STATE_PROCESSING s in
  '(_, s) ← ssh_packet_parse_type s;
  let type := p_type (in_packet s) in
  match ssh_packet_incoming_filter (proto_of s) type with
  | SSH_PACKET_ALLOWED => s ← ssh_packet_process s type; Some (RGo () s)
  | SSH_PACKET_DENIED => Some (RError processed s)
  | SSH_PACKET_UNKNOWN =>
      '(_, s) ← ssh_packet_send_unimplemented s (u32 (recv_seq s - 1)); Some (RGo () s)
  end.

Definition recv_error (processed : Z) s : run (Z * session) := Some (s32 processed, fatal s).

(** The end of the function: an incoming packet may trigger a rekeying. *)
Definition recv_rekey (processed : Z) s : run (Z * session) :=
  if ssh_packet_need_rekey s 0 then
    '(rc, s) ← ssh_send_rekex s;
    if negb (rc =? SSH_OK) then Some (rc, s) else Some (s32 processed, s)
  else Some (s32 processed, s).

(** A packet, then those that follow it in the same data: each turn consumes
    at least the first block of a packet. *)
Fixpoint socket_callback (fuel : nat) (data : bytes) s : run (Z * session) :=
  match fuel with
  | O => None
  | S fuel =>
      p ← get_params s;
      if bool_decide (session_state (proto_of s) = SSH_SESSION_STATE_ERROR)
      then recv_error 0 s else
      let body s :=
        r ← recv_body p s data;
        match r with
        | RError n s => recv_error n s
        | RWait s => Some (0, s)
        | RGo processed s =>
            r ← recv_dispatch s processed;
            match r with
            | RError n s => recv_error n s
            | RWait s => Some (0, s)
            | RGo _ s =>
                let s := set_packet_state PACKET_STATE_INIT s in
                '(processed, s) ←
                  (if processed <? zlen data then
                     '(rc, s) ← socket_callback fuel (zdrop processed data) s;
                     Some (u64 (processed + rc), s)
                   else Some (processed, s));
                recv_rekey processed s
            end
        end in
      match packet_state s with
      | PACKET_STATE_INIT =>
          r ← recv_init p s data;
          match r with
          | RError n s => recv_error n s
          | RWait s => Some (0, s)
          | RGo _ s => body s
          end
      | PACKET_STATE_SIZEREAD => body s
      | PACKET_STATE_PROCESSING => Some (0, s)
      end
  end.

Definition ssh_packet_socket_callback (data : option bytes) s : run (Z * session) :=
  match data with
  | None => recv_error 0 s
  | Some data => socket_callback (S (length data)) data s
  end.
End Recv.

Arguments RError {_ _ _ _}.
Arguments RWait {_ _ _ _}.
Arguments RGo {_ _ _ _}.

Section RecvFacts.
Context `{Allocator} `{BignumLib} `{HmacLib} `{RandomLib} {K X : Type}.
Implicit Type s : session K prng X.

(** What the reading of a packet leaves alone. *)
Record same_rest s s' : Prop := {
  rest_proto : proto_of s' = proto_of s;
  rest_queue : out_queue s' = out_queue s;
  rest_out : out_buffer s' = out_buffer s;
  rest_send : send_seq s' = send_seq s;
  rest_socket : socket_out s' = socket_out s
}.

Lemma same_rest_trans s1 s2 s3 : same_rest s1 s2 -> same_rest s2 s3 -> same_rest s1 s3.
Proof. intros [] []. constructor; congruence. Qed.

(** The context of the incoming direction counts the packet. *)
Definition crypto_counted_in s s' (n : Z) : Prop := forall slot c,
  ssh_packet_get_current_crypto s SSH_DIRECTION_IN = Some (slot, c) ->
  ssh_packet_get_current_crypto s' SSH_DIRECTION_IN
  = Some (slot, set_in_cipher (option_map (count_packet n) (in_cipher c)) c).

(** Once the clear packet is in the buffer, the payload remains. *)
Lemma recv_payload_ok p s b processed len payload padding :
  in_buffer s = Some b -> buffer_wf b -> zlen len = 4 ->
  contents b = (if rp_etm p then [] else len) ++ [z2b (zlen padding)] ++ payload ++ padding ->
  0 < zlen payload -> zlen padding < 256 ->
  exists s' b', recv_payload p s processed = Some (RGo processed s')
    /\ in_buffer s' = Some b' /\ buffer_wf b' /\ contents b' = payload
    /\ recv_seq s' = u32 (recv_seq s + 1) /\ same_rest s s'
    /\ crypto_counted_in s s' (zlen payload).
Proof.
  intros Hb Hwf Hlen Hc Hpay Hpad. unfold recv_payload. rewrite Hb. cbn [mbind option_bind].
  pose proof (zlen_nonneg padding) as Hp0.
  assert (Hskip : exists b1, (if negb (rp_etm p) then snd (ssh_buffer_pass_bytes b 4) else b) = b1
    /\ buffer_wf b1 /\ contents b1 = [z2b (zlen padding)] ++ payload ++ padding).
  { destruct (rp_etm p); cbn [negb]; [by exists b|].
    destruct (pass_bytes_spec b 4) as (b1 & -> & Hwf1 & _ & Hc1); [done|lia|]. exists b1.
    split_and!; [done|done|]. rewrite Hc1, Hc.
    rewrite (proj2 (Z.leb_le _ _)) by zlen_lia. rewrite zdrop_app_ge, Hlen, zdrop_0 by lia. done. }
  destruct Hskip as (b1 & -> & Hwf1 & Hc1). unfold ssh_buffer_get_u8.
  destruct (get_int_spec 1 b1 Hwf1) as (b2 & -> & Hwf2 & _ & Hc2); [lia|].
  rewrite Hc1 in Hc2 |- *. change (Z.of_nat 1) with 1 in *.
  assert (Hone : 1 <=? zlen ([z2b (zlen padding)] ++ payload ++ padding) = true).
  { apply Z.leb_le. cbn [app]. zlen_lia. }
  rewrite Hone in Hc2 |- *. cbn [mbind option_bind].
  change (ztake 1 ([z2b (zlen padding)] ++ payload ++ padding)) with [z2b (zlen padding)].
  change (zdrop 1 ([z2b (zlen padding)] ++ payload ++ padding)) with (payload ++ padding) in Hc2.
  assert (Hv : le_val [z2b (zlen padding)] = zlen padding).
  { rewrite le_val_cons, b2z_z2b. change (le_val []) with 0. rewrite Z.mod_small; lia. }
  rewrite Hv, ssh_buffer_get_len_contents by done. rewrite Hc2.
  destruct (Z.ltb_spec (zlen (payload ++ padding)) (zlen padding)) as [Hbad|_]; [zlen_lia|].
  destruct (pass_bytes_end_spec b2 (zlen padding)) as (b3 & -> & Hwf3 & Hc3); [done| |].
  { rewrite ssh_buffer_get_len_contents, Hc2 by done. zlen_lia. }
  cbn [snd]. assert (Hfin : contents b3 = payload).
  { rewrite Hc3, Hc2, ztake_app_le by zlen_lia. apply ztake_all. zlen_lia. }
  rewrite ssh_buffer_get_len_contents, Hfin by done.
  set (sb := set_seqs _ _ _).
  assert (Hsb : forall d, ssh_packet_get_current_crypto sb d = ssh_packet_get_current_crypto s d) by done.
  rewrite Hsb. destruct (ssh_packet_get_current_crypto s SSH_DIRECTION_IN) as [[slot c]|] eqn:Hg.
  - set (c' := set_in_cipher _ c).
    assert (Hg' : ssh_packet_get_current_crypto (set_slot slot c' sb) SSH_DIRECTION_IN = Some (slot, c')).
    { apply (get_crypto_set_slot _ _ slot c); [by rewrite Hsb|done| |done]. cbn. by destruct (in_cipher c). }
    destruct slot; cbn [set_slot] in *; destruct (raw_counter _);
      (do 2 eexists; split_and!; [done|done|done|done|done|by constructor|];
       intros slot2 c2 Hc2'; simplify_eq; exact Hg').
  - destruct (raw_counter _);
      (do 2 eexists; split_and!; [done|done|done|done|done|by constructor|];
       intros slot2 c2 Hc2'; congruence).
Qed.

(** ** Clear packets *)

Definition clear_params : recv_params := mk_params 0 8 8 false.

Definition in_buffer_wf s : Prop :=
  match in_buffer s with Some b => buffer_wf b | None => True end.

Lemma fresh_in_buffer_ok s :
  malloc_succeeds -> in_buffer_wf s ->
  exists b, fresh_in_buffer s = Some (Some (set_in_buffer (Some b) s))
    /\ buffer_wf b /\ contents b = [] /\ b_used b = 0.
Proof.
  intros Hmem Hwf. unfold fresh_in_buffer, in_buffer_wf in *. destruct (in_buffer s) as [b|].
  - destruct (ssh_buffer_reinit_ok b Hmem Hwf) as (b' & -> & ? & ? & ?). by exists b'.
  - destruct (ssh_buffer_new_ok Hmem) as (b & -> & ? & ? & ?). by exists b.
Qed.

(** A region of [in_buffer] is reserved and written. *)
Lemma in_buffer_append s b len d :
  malloc_succeeds -> in_buffer s = Some b -> buffer_wf b -> zlen d = len ->
  b_used b + len < BUFFER_SIZE_MAX ->
  exists b' ptr b2, ssh_buffer_allocate b len = Some (Some ptr, b') /\ buffer_wf b2
    /\ b_used b' <= b_used b + len /\ buffer_wf b'
    /\ write_in (set_in_buffer (Some b') s) ptr d = Some (set_in_buffer (Some b2) s)
    /\ contents b2 = contents b ++ d /\ b_used b2 = b_used b'.
Proof.
  intros Hmem Hb Hwf Hd Hmax. pose proof (zlen_nonneg d).
  destruct (allocate_ok b len) as (b' & ptr & -> & Hwf' & Hu & Hw); [done|done|lia|lia|].
  destruct (Hw d Hd) as (m & Hm & Hwf2 & Hc2). exists b', ptr, (set_data b' m).
  unfold write_in. cbn [in_buffer set_in_buffer mbind option_bind]. rewrite Hm.
  by split_and!.
Qed.

Lemma frame_prefix off payload padding more :
  0 <= zlen payload + zlen padding + 1 - off < 2 ^ 32 ->
  be_val (ztake 4 (frame off payload padding ++ more)) = zlen payload + zlen padding + 1 - off.
Proof.
  intros Hr. unfold frame. rewrite <- app_assoc, ztake_app_le by zlen_lia.
  rewrite ztake_all by zlen_lia. rewrite be_val_bytes. unfold packet_finallen.
  rewrite u32_small by lia. rewrite Z.mod_small; lia.
Qed.

Lemma get_params_clear s :
  ssh_packet_get_current_crypto s SSH_DIRECTION_IN = None -> get_params s = Some clear_params.
Proof. intros Hc. unfold get_params. by rewrite Hc. Qed.

Lemma decrypt_len_clear s d :
  ssh_packet_get_current_crypto s SSH_DIRECTION_IN = None -> 8 <= zlen d ->
  ssh_packet_decrypt_len s d = Some (be_val (ztake 4 d), Some (ztake 8 d), s).
Proof.
  intros Hc Hd. unfold ssh_packet_decrypt_len. rewrite Hc, memcpy_whole by lia.
  cbn [mbind option_bind]. rewrite memcpy_whole by zlen_lia. cbn [mbind option_bind].
  rewrite !(zdrop_0 0), ztake_take by lia. change (Z.min 4 8) with 4.
  rewrite ntohl_le_val; [done|]. unfold ztake. rewrite length_take. unfold zlen in Hd. lia.
Qed.

(** The two states of the reader rebuild the payload of a clear frame, and
    leave alone what follows it. *)
Lemma recv_clear_frame s payload padding more :
  malloc_succeeds -> in_buffer_wf s ->
  ssh_packet_get_current_crypto s SSH_DIRECTION_IN = None ->
  0 < zlen payload -> 4 <= zlen padding < 256 -> zlen payload + zlen padding + 1 <= MAX_PACKET_LEN ->
  let data := frame 0 payload padding ++ more in
  exists s1 s2 b, recv_init clear_params s data = Some (RGo () s1)
    /\ recv_body clear_params s1 data = Some (RGo (zlen (frame 0 payload padding)) s2)
    /\ in_buffer s2 = Some b /\ buffer_wf b /\ contents b = payload
    /\ recv_seq s2 = u32 (recv_seq s + 1) /\ same_rest s s2.
Proof.
  intros Hmem Hwf Hcr Hpay Hpad Hmax data. unfold MAX_PACKET_LEN in Hmax.
  set (n := zlen payload + zlen padding + 1) in *.
  assert (Hdata : zlen data = 4 + n + zlen more).
  { unfold data. rewrite zlen_app, zlen_frame. lia. }
  pose proof (zlen_nonneg more).
  assert (Hval : be_val (ztake 4 data) = n).
  { unfold data. rewrite frame_prefix; lia. }
  destruct (fresh_in_buffer_ok (set_in_packet (mk_packet 0 0 0) s) Hmem Hwf)
    as (b0 & Hfresh & Hwf0 & Hc0 & Hu0).
  destruct (in_buffer_append (set_in_buffer (Some b0) (set_in_packet (mk_packet 0 0 0) s)) b0 8
    (ztake 8 data)) as (b1 & ptr & b2 & Hal & Hwf2 & Hu1 & Hwf1 & Hwr & Hc2 & Hu2);
    [done|done|done|zlen_lia|unfold BUFFER_SIZE_MAX; lia|].
  rewrite Hc0 in Hc2. cbn [app] in Hc2.
  set (s1 := set_packet_state PACKET_STATE_SIZEREAD (set_in_packet (mk_packet 0 n 0)
    (set_in_buffer (Some b2) (set_in_buffer (Some b0) (set_in_packet (mk_packet 0 0 0) s))))).
  assert (Hinit : recv_init clear_params s data = Some (RGo () s1)).
  { unfold recv_init, clear_params, rp_offset. cbn [rp_lenfield rp_etm etm_offset negb].
    change (u32 (8 + 0)) with 8. rewrite (proj2 (Z.ltb_ge _ _)) by lia.
    rewrite Hfresh. cbn [mbind option_bind in_buffer set_in_buffer]. rewrite Hal.
    cbn [mbind option_bind]. rewrite decrypt_len_clear by (done || lia).
    cbn [mbind option_bind]. rewrite Hval. rewrite Hwr. cbn [mbind option_bind].
    unfold MAX_PACKET_LEN. rewrite (proj2 (Z.ltb_ge _ n)) by lia.
    assert (Hs : s32 (u32 (n - 8) + 4) = n - 4).
    { unfold s32, u32. Z.div_mod_to_equations. lia. }
    rewrite Hs, (proj2 (Z.ltb_ge _ 0)) by lia. done. }
  set (rest := ztake (n - 4) (zdrop 8 data)).
  destruct (in_buffer_append s1 b2 (n - 4) rest)
    as (b3 & ptr2 & b4 & Hal2 & Hwf4 & _ & _ & Hwr2 & Hc4 & _);
    [done|done|done|unfold rest; zlen_lia|unfold BUFFER_SIZE_MAX; lia|].
  assert (Hwhole : contents b4 = frame 0 payload padding).
  { rewrite Hc4, Hc2. unfold rest. replace (n - 4) with (4 + n - 8) by lia.
    rewrite <- zdrop_take by lia. rewrite <- (ztake_take_le 8 (4 + n)) by lia.
    rewrite ztake_drop. unfold data. rewrite ztake_app_le by (rewrite zlen_frame; lia).
    apply ztake_all. rewrite zlen_frame. lia. }
  destruct (recv_payload_ok clear_params (set_in_buffer (Some b4) s1) b4 (4 + n)
    (be_bytes 4 (packet_finallen 0 (zlen payload) (zlen padding))) payload padding)
    as (s2 & b5 & Hp & Hb5 & Hwf5 & Hc5 & Hseq & Hrest & _);
    [done|done|zlen_lia|by rewrite Hwhole|done|lia|].
  exists s1, s2, b5. split_and!; [done| |done|done|done|done|by destruct Hrest].
  unfold recv_body, clear_params, rp_offset. cbn [rp_lenfield rp_etm rp_macsize etm_offset].
  change (p_len (in_packet s1)) with n. change (in_buffer s1) with (Some b2).
  cbn [mbind option_bind]. unwrap. change (8 - 4 + 0) with 4. unwrap.
  destruct (Z.eqb_spec (n + 4 + 0) 0); [lia|]. cbn [negb andb].
  rewrite (proj2 (Z.ltb_ge _ _)) by lia. rewrite Hal2. cbn [mbind option_bind].
  change (ssh_packet_get_current_crypto (set_in_buffer (Some b3) s1) SSH_DIRECTION_IN)
    with (ssh_packet_get_current_crypto s SSH_DIRECTION_IN). rewrite Hcr.
  change (8 + 0) with 8. rewrite memcpy_whole by lia. cbn [mbind option_bind]. fold rest.
  rewrite Hwr2. cbn [mbind option_bind]. replace (n + 4 + 0 - 0) with (4 + n) by lia.
  fold clear_params. rewrite Hp. rewrite zlen_frame. do 2 f_equal. lia.
Qed.

Variable ssh_packet_set_newkeys : session K prng X -> Z -> run (Z * session K prng X).
Variable ssh_send_rekex : session K prng X -> run (Z * session K prng X).
Variable packet_callbacks : session K prng X -> option (list (option (@ssh_packet_callbacks _ K X))).

#[local] Abbreviation process :=
  (ssh_packet_process ssh_packet_set_newkeys ssh_send_rekex packet_callbacks).
#[local] Abbreviation unimplemented :=
  (ssh_packet_send_unimplemented ssh_packet_set_newkeys ssh_send_rekex).
#[local] Abbreviation dispatch :=
  (recv_dispatch ssh_packet_set_newkeys ssh_send_rekex packet_callbacks).
#[local] Abbreviation callback :=
  (ssh_packet_socket_callback ssh_packet_set_newkeys ssh_send_rekex packet_callbacks).
#[local] Abbreviation rekey := (recv_rekey ssh_send_rekex).

(** The type is taken off the payload, then the filter decides. *)
Lemma recv_dispatch_ok s b t rest n :
  in_buffer s = Some b -> buffer_wf b -> contents b = t :: rest ->
  exists r b', in_buffer r = Some b' /\ buffer_wf b' /\ contents b' = rest
    /\ p_type (in_packet r) = b2z t /\ recv_seq r = recv_seq s /\ same_rest s r
    /\ (forall d, ssh_packet_get_current_crypto r d = ssh_packet_get_current_crypto s d)
    /\ dispatch s n
       = match ssh_packet_incoming_filter (proto_of s) (b2z t) with
         | SSH_PACKET_ALLOWED => r' ← process r (b2z t); Some (RGo () r')
         | SSH_PACKET_DENIED => Some (RError n r)
         | SSH_PACKET_UNKNOWN =>
             '(_, r') ← unimplemented r (u32 (recv_seq r - 1)); Some (RGo () r')
         end.
Proof.
  intros Hb Hwf Hc. unfold recv_dispatch, ssh_packet_parse_type. cbn [in_buffer set_in_packet set_packet_state].
  rewrite Hb. unfold ssh_buffer_get_u8. destruct (get_int_spec 1 b Hwf) as (b' & -> & Hwf' & _ & Hc'); [lia|].
  change (Z.of_nat 1) with 1 in *. rewrite Hc in Hc' |- *.
  assert (Hone : 1 <=? zlen (t :: rest) = true) by (apply Z.leb_le; zlen_lia).
  rewrite Hone in Hc' |- *. cbn [mbind option_bind]. change (ztake 1 (t :: rest)) with [t].
  change (zdrop 1 (t :: rest)) with rest in Hc'.
  assert (Hv : le_val [t] = b2z t) by (rewrite le_val_cons; change (le_val []) with 0; lia).
  rewrite Hv. cbn [in_packet set_in_packet p_type proto_of set_in_buffer set_packet_state].
  exists (set_in_packet (mk_packet 1 0 (b2z t)) (set_in_buffer (Some b')
    (set_in_packet (mk_packet 0 0 0) (set_packet_state PACKET_STATE_PROCESSING s)))), b'.
  split_and!; first [done | by constructor].
Qed.

(** What the callback does after the handlers of a packet of [n] bytes: the packets in
    [more], and a rekeying that is due. *)
Definition next_packets (fuel : nat) (n : Z) (more : bytes) s : run (Z * session K prng X) :=
  '(processed, s) ←
    (if 0 <? zlen more then
       '(rc, s) ← socket_callback ssh_packet_set_newkeys ssh_send_rekex packet_callbacks fuel more s;
       Some (u64 (n + rc), s)
     else Some (n, s));
  rekey processed s.

(** A packet at the start of the data that the two states of the reader take: its
    handlers run on its payload, once, and then the callback goes on behind it. *)
Lemma callback_packet p r r1 r2 b t rest wire more :
  get_params r = Some p -> session_state (proto_of r) <> SSH_SESSION_STATE_ERROR -> packet_state r = PACKET_STATE_INIT ->
  recv_init p r (wire ++ more) = Some (RGo () r1) -> recv_body p r1 (wire ++ more) = Some (RGo (zlen wire) r2) ->
  in_buffer r2 = Some b -> buffer_wf b -> contents b = t :: rest -> same_rest r r2 ->
  ssh_packet_incoming_filter (proto_of r) (b2z t) = SSH_PACKET_ALLOWED ->
  exists r' b', in_buffer r' = Some b' /\ contents b' = rest /\ p_type (in_packet r') = b2z t
    /\ recv_seq r' = recv_seq r2 /\ same_rest r r'
    /\ (forall d, ssh_packet_get_current_crypto r' d = ssh_packet_get_current_crypto r2 d)
    /\ callback (Some (wire ++ more)) r
       = (r'' ← process r' (b2z t);
          next_packets (length (wire ++ more)) (zlen wire) more (set_packet_state PACKET_STATE_INIT r'')).
Proof.
  intros Hp Hal Hst Hi Hb Hib Hwf Hc Hrest Hfil.
  destruct (recv_dispatch_ok r2 b t rest (zlen wire) Hib Hwf Hc) as (r' & b' & Hb' & _ & Hc' & Hty & Hsq & Hr' & Hcr & Hd).
  rewrite (rest_proto _ _ Hrest), Hfil in Hd. exists r', b'. split_and!; [done..|by eapply same_rest_trans|done|].
  unfold ssh_packet_socket_callback. cbn [socket_callback]. rewrite Hp. cbn [mbind option_bind].
  rewrite bool_decide_false by done. rewrite Hst, Hi. cbn [mbind option_bind]. rewrite Hb. cbn [mbind option_bind]. rewrite Hd.
  destruct (ssh_packet_process _ _ _ r' (b2z t)) as [r''|]; [|done]. cbn [mbind option_bind]. unfold next_packets.
  pose proof (zlen_nonneg more). rewrite zlen_app, zdrop_app_ge, Z.sub_diag, zdrop_0 by lia.
  destruct (Z.ltb_spec (zlen wire) (zlen wire + zlen more)), (Z.ltb_spec 0 (zlen more)); first [done|lia].
Qed.
End RecvFacts.

Section Roundtrip.
Context `{Allocator} `{BignumLib} `{HmacLib} `{RandomLib} {K X : Type}.
Variable ssh_packet_set_newkeys : session K prng X -> Z -> run (Z * session K prng X).
Variable ssh_send_rekex : session K prng X -> run (Z * session K prng X).
Variable packet_callbacks : session K prng X -> option (list (option (@ssh_packet_callbacks _ K X))).
Implicit Type s r : session K prng X.

(** A receiver between two packets, before any incoming cipher. *)
Record clear_receiver r : Prop := {
  cr_wf : in_buffer_wf r;
  cr_crypto : ssh_packet_get_current_crypto r SSH_DIRECTION_IN = None;
  cr_state : packet_state r = PACKET_STATE_INIT;
  cr_alive : session_state (proto_of r) <> SSH_SESSION_STATE_ERROR
}.

(** Before the first key exchange ends, a packet that [packet_send2] writes is
    read back by [ssh_packet_socket_callback] of the peer: the handlers run (if
    the filter allows them) with the type of the packet and the rest of its
    payload in [in_buffer], and the data is consumed to the last byte. *)
Theorem clear_packet_roundtrip s b t rest c r :
  malloc_succeeds -> sendable s b t rest ->
  ssh_packet_get_current_crypto s SSH_DIRECTION_OUT = None -> next_crypto s = Some c ->
  contents (socket_out s) = [] -> zlen (t :: rest) <= MAX_PACKET_LEN - 16 ->
  clear_receiver r ->
  ssh_packet_incoming_filter (proto_of r) (b2z t) = SSH_PACKET_ALLOWED ->
  exists s' wire r' b', packet_send2 ssh_packet_set_newkeys s = Some (SSH_OK, s')
    /\ contents (socket_out s') = wire /\ send_seq s' = u32 (send_seq s + 1)
    /\ in_buffer r' = Some b' /\ contents b' = rest /\ p_type (in_packet r') = b2z t
    /\ recv_seq r' = u32 (recv_seq r + 1) /\ same_rest r r'
    /\ ssh_packet_socket_callback ssh_packet_set_newkeys ssh_send_rekex packet_callbacks (Some wire) r
       = (r'' ← ssh_packet_process ssh_packet_set_newkeys ssh_send_rekex packet_callbacks r' (b2z t);
          recv_rekey ssh_send_rekex (zlen wire) (set_packet_state PACKET_STATE_INIT r'')).
Proof.
  intros Hmem Hs Hcr Hn Hsk Hmax [Hwf Hrcr Hst Hal] Hfil.
  destruct (packet_send2_clear ssh_packet_set_newkeys s b t rest c Hmem Hs Hcr Hn)
    as (s' & Hsend & _ & Hw & _ & Hseq & _).
  set (p := packet_padding 8 0 0 (zlen (t :: rest))) in *.
  set (padding := ztake p (zrep 32 Byte.x00)) in *.
  pose proof (zlen_nonneg rest) as Hrest. unfold MAX_PACKET_LEN in Hmax. rewrite zlen_cons in Hmax.
  destruct (packet_padding_spec 8 0 0 (zlen (t :: rest))) as (Hp1 & Hp2 & _);
    [by left|lia|lia|lia|zlen_lia|]. fold p in Hp1, Hp2.
  assert (Hpl : zlen padding = p) by (unfold padding; zlen_lia).
  destruct (recv_clear_frame r (t :: rest) padding [] Hmem Hwf Hrcr)
    as (r1 & r2 & b2 & Hinit & Hbody & Hb2 & Hwf2 & Hc2 & Hseq2 & Hrest2);
    [zlen_lia|lia|unfold MAX_PACKET_LEN; rewrite zlen_cons; lia|].
  rewrite app_nil_r in Hinit, Hbody. set (wire := frame 0 (t :: rest) padding) in *.
  destruct (callback_packet ssh_packet_set_newkeys ssh_send_rekex packet_callbacks clear_params r r1 r2 b2 t rest wire [])
    as (r' & b' & Hb' & Hc' & Hty & Hsq' & Hr' & _ & Hd);
    [by apply get_params_clear|done|done|by rewrite app_nil_r|by rewrite app_nil_r|done|done|done|done|done|].
  exists s', wire, r', b'. rewrite app_nil_r in Hd.
  split_and!; [done|by rewrite Hw, Hsk|done|done|done|done|congruence|done|exact Hd].
Qed.
End Roundtrip.

Lemma clear_packet_roundtrip_witness :
  let s := Demo.start Demo.authenticated Demo.ignore_packet None (Some Demo.no_crypto) in
  exists s' wire r' b', @packet_send2 calloc_allocator (Demo.hmac true) Demo.random Z ()
      (fun s _ => Some (0, s)) s = Some (SSH_OK, s')
    /\ contents (socket_out s') = wire /\ send_seq s' = u32 (send_seq s + 1)
    /\ in_buffer r' = Some b' /\ contents b' = cstr "WindTerm" /\ p_type (in_packet r') = 2
    /\ recv_seq r' = u32 (recv_seq s + 1) /\ same_rest s r'
    /\ @ssh_packet_socket_callback calloc_allocator N_bignum (Demo.hmac true) Demo.random Z ()
         (fun s _ => Some (0, s)) (fun s => Some (0, s)) (fun _ => None) (Some wire) s
       = (r'' ← @ssh_packet_process calloc_allocator N_bignum (Demo.hmac true) Demo.random Z ()
                  (fun s _ => Some (0, s)) (fun s => Some (0, s)) (fun _ => None) r' 2;
          @recv_rekey Demo.random Z () (fun s => Some (0, s)) (zlen wire)
            (set_packet_state PACKET_STATE_INIT r'')).
Proof.
  intros s. apply (@clear_packet_roundtrip calloc_allocator N_bignum (Demo.hmac true) Demo.random Z ()
    (fun s _ => Some (0, s)) (fun s => Some (0, s)) (fun _ => None) s (Demo.buffer_of Demo.ignore_packet)
    (z2b SSH2_MSG_IGNORE) (cstr "WindTerm") Demo.no_crypto s);
    [exact Demo.calloc_succeeds|apply Demo.start_sendable|reflexivity|reflexivity
    |reflexivity|vm_compute; discriminate| |reflexivity].
  constructor; [exact I|reflexivity|reflexivity|discriminate].
Defined.
