(* ===== verification/PacketEtm.v ===== *)
(** * Encrypt-then-MAC packets

    What a connection protected by a cipher and an [-etm@openssh.com] MAC
    guarantees: the peer with the matching keys reads back every packet, and a
    packet that it accepts carries a valid MAC over its sequence number and its
    ciphertext, verified before anything is decrypted. *)

From S2P Require Import Prelude Buffer Bignum BufferPack Session PacketFilter Misc.
From S2P Require Import Crypto Packet PacketRecv.

Definition not_aead (type : ssh_hmac_e) : Prop :=
  type <> SSH_HMAC_AEAD_POLY1305 /\ type <> SSH_HMAC_AEAD_GCM.

Section Mac.
Context `{HmacLib}.

(** The MAC of a text under the key of a direction, with its sequence number. *)
Definition hmac_md (type : ssh_hmac_e) : evp_md :=
  match type with
  | SSH_HMAC_SHA1 | SSH_HMAC_SHA1_96 => EVP_sha1
  | SSH_HMAC_SHA256 => EVP_sha256
  | SSH_HMAC_SHA512 => EVP_sha512
  | _ => EVP_md5
  end.
Definition packet_mac (type : ssh_hmac_e) (key : bytes) (seq : Z) (text : bytes) : bytes :=
  HMAC (hmac_md type) (ztake (hmac_key_len type) key) (be_bytes 4 seq ++ text).

Lemma hmac_packet type key seq text :
  HMAC_CTX_new = true -> not_aead type ->
  exists ctx, hmac_init key (hmac_key_len type) type = Some ctx
    /\ hmac_final (hmac_update (hmac_update ctx (be_bytes 4 seq)) text) type
       = (packet_mac type key seq text, hmac_digest_len type).
Proof.
  intros Hnew [H1 H2]. unfold hmac_init, hmac_final, packet_mac. rewrite Hnew. cbn [negb].
  destruct type; try done; (eexists; split; [done|]);
    cbn [hmac_update hc_md hc_key hc_data hmac_md app]; by rewrite ?HMAC_size.
Qed.

Lemma packet_mac_len type key seq text :
  not_aead type -> hmac_digest_len type <= zlen (packet_mac type key seq text) <= DIGEST_MAX_LEN.
Proof.
  intros [H1 H2]. unfold packet_mac, DIGEST_MAX_LEN. rewrite HMAC_size.
  destruct type; try done; cbn; lia.
Qed.
End Mac.

Section Etm.
Context `{Allocator} `{BignumLib} `{HmacLib} `{RandomLib} {K X : Type}.
Implicit Type s r : session K prng X.

(** ** The receiver *)

(** The incoming direction uses the context [c], with EtM. *)
Record etm_receiver s (slot : crypto_slot) (c : ssh_crypto K) (ic : ssh_cipher K) : Prop := {
  er_crypto : ssh_packet_get_current_crypto s SSH_DIRECTION_IN = Some (slot, c);
  er_cipher : in_cipher c = Some ic;
  er_etm : in_hmac_etm c = true;
  er_mac : not_aead (in_hmac c)
}.

Definition etm_params (c : ssh_crypto K) (ic : ssh_cipher K) : recv_params :=
  mk_params (hmac_digest_len (in_hmac c)) (blocksize (c_ops ic)) 0 true.

Lemma get_params_etm s slot c ic :
  etm_receiver s slot c ic -> get_params s = Some (etm_params c ic).
Proof.
  intros [Hc Hi He _]. unfold get_params. rewrite Hc. cbn [mbind option_bind]. rewrite Hi.
  cbn [mbind option_bind]. by rewrite He.
Qed.

Lemma get_crypto_in_buffer s v : forall d,
  ssh_packet_get_current_crypto (set_in_buffer v s) d = ssh_packet_get_current_crypto s d.
Proof. done. Qed.

(** [ssh_packet_hmac_verify] accepts exactly the MAC of the text. *)
Lemma hmac_verify_etm s slot c ic data len mac :
  HMAC_CTX_new = true -> etm_receiver s slot c ic -> 0 <= len <= zlen data ->
  hmac_digest_len (in_hmac c) <= zlen mac ->
  ssh_packet_hmac_verify s data len mac (in_hmac c)
  = Some (if bool_decide (ztake (hmac_digest_len (in_hmac c)) mac
            = ztake (hmac_digest_len (in_hmac c))
                (packet_mac (in_hmac c) (decryptMAC c) (recv_seq s) (ztake len data)))
          then 0 else -1).
Proof.
  intros Hnew [Hc Hi He Hm] Hlen Hmac. unfold ssh_packet_hmac_verify.
  pose proof Hm as [Hm1 Hm2]. rewrite !bool_decide_false by done. cbn [orb]. rewrite Hc.
  destruct (hmac_packet (in_hmac c) (decryptMAC c) (recv_seq s) (ztake len data) Hnew Hm)
    as (ctx & -> & Hf).
  rewrite memcpy_whole by lia. cbn [mbind option_bind]. rewrite zdrop_0 by lia. rewrite Hf.
  pose proof (packet_mac_len (in_hmac c) (decryptMAC c) (recv_seq s) (ztake len data) Hm).
  assert (0 <= hmac_digest_len (in_hmac c)) by (destruct (in_hmac c); cbn; lia).
  rewrite secure_memcmp_spec by lia. cbn [mbind option_bind].
  by destruct (bool_decide _).
Qed.

Definition mac_valid (c : ssh_crypto K) (seq packet_len : Z) (data : bytes) : Prop :=
  ztake (hmac_digest_len (in_hmac c)) (zdrop (packet_len + 4) data)
  = ztake (hmac_digest_len (in_hmac c))
      (packet_mac (in_hmac c) (decryptMAC c) seq (ztake (packet_len + 4) data)).

(** (C32) A packet gets past the reader only if the bytes that follow its ciphertext
    are the MAC of its sequence number and ciphertext: nothing is decrypted, and
    no handler runs, before the MAC is verified. *)
Theorem etm_accepts_only_valid_mac s slot c ic data n s' :
  HMAC_CTX_new = true -> etm_receiver s slot c ic ->
  0 <= p_len (in_packet s) <= MAX_PACKET_LEN ->
  recv_body (etm_params c ic) s data = Some (RGo n s') ->
  mac_valid c (recv_seq s) (p_len (in_packet s)) data.
Proof.
  intros Hnew Hr Hlen. pose proof Hr as [Hc Hi He Hm]. unfold MAX_PACKET_LEN in Hlen.
  set (len := p_len (in_packet s)) in *. unfold recv_body. fold len.
  cbn [rp_macsize rp_lenfield rp_etm rp_offset etm_params etm_offset].
  unfold rp_offset. cbn [rp_etm etm_params etm_offset]. change (u64 (0 - 4 + 4)) with 0.
  assert (Hd : 0 < hmac_digest_len (in_hmac c) <= 64) by (destruct (in_hmac c); cbn; lia).
  rewrite (s32_small (len + 4 + _)) by lia. rewrite Z.sub_0_r. unwrap.
  destruct (Z.eqb_spec (len + 4 + hmac_digest_len (in_hmac c)) 0); [lia|]. cbn [negb andb].
  destruct (Z.ltb_spec (zlen data) (len + 4 + hmac_digest_len (in_hmac c))) as [|Hdata]; [done|].
  destruct (in_buffer s) as [b|]; [|done]. cbn [mbind option_bind].
  destruct (ssh_buffer_allocate b len) as [[[ptr|] b1]|]; [|done|done]. cbn [mbind option_bind].
  rewrite get_crypto_in_buffer, Hc. unfold recv_decrypt.
  cbn [rp_macsize rp_lenfield rp_etm etm_params]. unfold rp_offset. cbn [rp_etm etm_params etm_offset]. cbv zeta.
  rewrite (hmac_verify_etm (set_in_buffer (Some b1) s) slot c ic); [|done|by destruct Hr|lia|zlen_lia].
  cbn [mbind option_bind]. unfold mac_valid.
  replace (len + 4 + hmac_digest_len (in_hmac c) - hmac_digest_len (in_hmac c)) with (len + 4) by lia.
  replace (0 + 4 + len) with (len + 4) by lia. cbn [recv_seq set_in_buffer].
  destruct (bool_decide _) eqn:Hv; [|done]. intros _. by apply bool_decide_eq_true in Hv.
Qed.

(** ** The sender *)

Record etm_sender s (slot : crypto_slot) (c : ssh_crypto K) (oc : ssh_cipher K) : Prop := {
  es_crypto : ssh_packet_get_current_crypto s SSH_DIRECTION_OUT = Some (slot, c);
  es_cipher : out_cipher c = Some oc;
  es_etm : out_hmac_etm c = true;
  es_mac : not_aead (out_hmac c);
  es_hmacbuf : zlen (hmacbuf c) = DIGEST_MAX_LEN
}.

(** The protected packet: the length, the ciphertext and the MAC. *)
Definition etm_text (oc : ssh_cipher K) (text : bytes) : bytes :=
  be_bytes 4 (zlen text - 4) ++ enc_out (c_ops oc) (c_key oc) (zdrop 4 text).
Definition etm_mac (c : ssh_crypto K) (seq : Z) (body : bytes) : bytes :=
  ztake (hmac_digest_len (out_hmac c)) (packet_mac (out_hmac c) (encryptMAC c) seq body).

(** The cipher of the sender after the packet. *)
Definition after_encrypt (oc : ssh_cipher K) (text : bytes) : ssh_cipher K :=
  set_key (enc_key (c_ops oc) (c_key oc) (zdrop 4 text)) oc.

Lemma encrypt_etm s slot c oc sync kd text :
  HMAC_CTX_new = true -> malloc_succeeds -> etm_sender s slot c oc -> stream_cipher (c_ops oc) sync ->
  sync (c_key oc) kd ->
  4 <= zlen text < BUFFER_SIZE_MAX -> (zlen text - 4) mod blocksize (c_ops oc) = 0 ->
  exists buf, zlen buf = DIGEST_MAX_LEN
    /\ ztake (hmac_digest_len (out_hmac c)) buf = etm_mac c (send_seq s) (etm_text oc text)
    /\ ssh_packet_encrypt s text (zlen text)
       = Some (Some buf, etm_text oc text,
               set_slot slot (set_hmacbuf buf (set_out_cipher (Some (after_encrypt oc text)) c)) s).
Proof.
  intros Hnew Hmem [Hc Ho He Hm Hbuf] [Hbs Hlf [Hae _] Hclen _] Hsync Hlen Hmod.
  unfold BUFFER_SIZE_MAX, DIGEST_MAX_LEN in *.
  pose proof (packet_mac_len (out_hmac c) (encryptMAC c) (send_seq s) (etm_text oc text) Hm) as Hml.
  unfold DIGEST_MAX_LEN in Hml. unfold etm_mac.
  set (mac := packet_mac (out_hmac c) (encryptMAC c) (send_seq s) (etm_text oc text)) in *.
  assert (Hd : 0 <= hmac_digest_len (out_hmac c)) by (destruct (out_hmac c); cbn; lia).
  exists (mac ++ zdrop (zlen mac) (hmacbuf c)). split_and!.
  - zlen_lia.
  - rewrite ztake_app_le by lia. done.
  - unfold ssh_packet_encrypt. destruct (Z.eqb_spec (zlen text) 0); [lia|]. rewrite Hc.
    cbn [mbind option_bind]. rewrite Ho. cbn [mbind option_bind]. rewrite He, Hlf. cbn [etm_offset].
    assert (Hb : 0 < blocksize (c_ops oc)) by (destruct Hbs; lia).
    rewrite (u32_small (zlen text - 0 - 4)) by lia. replace (zlen text - 0 - 4) with (zlen text - 4) by lia.
    rewrite Hmod. change (0 =? 0) with true. cbn [negb].
    destruct (malloc (zlen text)) eqn:Hmal;
      [|by apply Hmem in Hmal; [|unfold BUFFER_SIZE_MAX; lia]]. cbn [some negb].
    rewrite Hae. pose proof (hmac_packet (out_hmac c) (encryptMAC c) (send_seq s)
      (etm_text oc text) Hnew Hm) as (ctx & Hctx & Hfin). rewrite Hctx.
    rewrite (ztake_all (zlen text)) by lia.
    destruct (Hclen (c_key oc) kd (zdrop 4 text)) as [Henc Hel]; [done| |].
    { replace (zlen (zdrop 4 text)) with (zlen text - 4) by (rewrite zlen_drop; lia). done. }
    unfold etm_text, after_encrypt in *. rewrite Henc. cbn [mbind option_bind].
    set (e := enc_out (c_ops oc) (c_key oc) (zdrop 4 text)) in *. clear Henc.
    assert (Hez : zlen e = zlen text - 4) by (rewrite Hel, zlen_drop; lia).
    rewrite memcpy_ok by zlen_lia. cbn [mbind option_bind].
    rewrite (zdrop_0 0), (ztake_all (zlen text - 4) e) by lia.
    rewrite (zdrop_all (4 + (zlen text - 4))) by lia. rewrite app_nil_r.
    rewrite memcpy_ok by zlen_lia. cbn [mbind option_bind].
    rewrite (ztake_0 0), (zdrop_0 0), (ztake_all 4 (be_bytes 4 _)) by zlen_lia. cbn [app].
    rewrite zdrop_app_ge by zlen_lia. rewrite (zdrop_0 (0 + 4 - _)) by zlen_lia.
    rewrite (u32_small (zlen text - 4)) by lia.
    rewrite (ztake_all (zlen text)) by zlen_lia. rewrite Hfin. cbn [fst]. fold mac.
    rewrite memcpy_ok by lia. cbn [mbind option_bind].
    rewrite (ztake_0 0), (zdrop_0 0), (ztake_all (zlen mac) mac) by lia. done.
Qed.

Variable ssh_packet_set_newkeys : session K prng X -> Z -> run (Z * session K prng X).

Definition etm_padding (oc : ssh_cipher K) (payload : bytes) : Z :=
  packet_padding (blocksize (c_ops oc)) 0 4 (zlen payload).

Definition etm_wire (c : ssh_crypto K) (oc : ssh_cipher K) (seq : Z) (payload rnd : bytes) : bytes :=
  etm_text oc (frame 4 payload rnd) ++ etm_mac c seq (etm_text oc (frame 4 payload rnd)).

Lemma send_etm s slot c oc sync kd b t rest rnd g :
  HMAC_CTX_new = true -> malloc_succeeds -> etm_sender s slot c oc ->
  stream_cipher (c_ops oc) sync -> sync (c_key oc) kd -> sendable s b t rest ->
  ssh_get_random (rng s) (etm_padding oc (t :: rest)) = (Some rnd, g) ->
  exists s' c', packet_send2 ssh_packet_set_newkeys s = Some (SSH_OK, s')
    /\ contents (socket_out s') = contents (socket_out s) ++ etm_wire c oc (send_seq s) (t :: rest) rnd
    /\ send_seq s' = u32 (send_seq s + 1)
    /\ etm_sender s' slot c'
         (count_packet (zlen (t :: rest)) (after_encrypt oc (frame 4 (t :: rest) rnd)))
    /\ encryptMAC c' = encryptMAC c /\ out_hmac c' = out_hmac c.
Proof.
  intros Hnew Hmem Hes Hsc Hsync Hsend Hrnd. pose proof Hes as [Hc Ho He Hm Hbuf].
  pose proof Hsc as [Hbs Hlf _ Hclen _].
  pose proof (sendable_len _ _ _ _ Hsend) as Hlen. destruct Hsend as [Hb Hwf Hcon Ht Hr Hk Hkr].
  unfold BUFFER_SIZE_MAX in *. set (n := zlen (t :: rest)) in *.
  assert (Hn0 : 0 < n) by (unfold n; rewrite zlen_cons; pose proof (zlen_nonneg rest); lia).
  unfold etm_padding in Hrnd. fold n in Hrnd. set (p := packet_padding _ 0 4 n) in *.
  destruct (packet_padding_spec (blocksize (c_ops oc)) 0 4 n) as (Hp1 & Hp2 & Hpm);
    [done|lia|lia|destruct Hbs; lia|lia|]. fold p in Hp1, Hp2, Hpm.
  destruct (make_padding_random s p rnd g) as (d & Hpad & Hd & Htd); [lia|done|].
  pose proof (ssh_get_random_zlen _ _ _ _ (ltac:(lia) : 0 <= p) Hrnd) as Hrl.
  assert (Hsp : send_params s = Some (blocksize (c_ops oc), 0, out_hmac c, true)).
  { unfold send_params. rewrite Hc. cbn [mbind option_bind]. rewrite Ho. cbn [mbind option_bind].
    by rewrite He, Hlf. }
  destruct (packet_send2_frame ssh_packet_set_newkeys s (set_rng g s) b t rest
    (blocksize (c_ops oc)) 0 (out_hmac c) true d) as (b2 & Hwf2 & Hc2 & Hu2 & _ & Hsend2);
    [done|done|done|done|fold n; lia|unfold BUFFER_SIZE_MAX; lia|done|done|lia|by rewrite Hc|done|].
  cbn [etm_offset] in Hc2, Hsend2, Hu2. fold n p in Hc2, Hsend2, Hu2. rewrite Htd in Hc2.
  set (f := frame 4 (t :: rest) rnd) in *.
  assert (Hf : zlen f = 5 + n + p) by (unfold f; rewrite zlen_frame; lia).
  assert (Hfm : (zlen f - 4) mod blocksize (c_ops oc) = 0).
  { rewrite Hf. replace (5 + n + p - 4) with (4 + 1 + n + p - 0 - 4) by lia. done. }
  destruct (encrypt_etm (set_rng g s) slot c oc sync kd f) as (buf & Hbl & Hbt & Henc);
    [done|done|by destruct Hes|done|done|unfold BUFFER_SIZE_MAX; lia|done|].
  assert (Htl : zlen (etm_text oc f) = zlen f).
  { unfold etm_text. destruct (Hclen (c_key oc) kd (zdrop 4 f)) as [_ Hel]; [done| |].
    { replace (zlen (zdrop 4 f)) with (zlen f - 4) by (rewrite zlen_drop; lia). done. }
    rewrite zlen_app, Hel, zlen_drop, zlen_be_bytes. lia. }
  set (s2 := set_slot slot _ (set_rng g s)) in Henc.
  destruct (encrypt_buffer_spec (set_rng g s) b2 (Some buf) (etm_text oc f) s2)
    as (b3 & Heb & Hwf3 & Hc3 & Hu3); [done|rewrite Hc2; lia|by rewrite Hc2|by rewrite Hc2|].
  rewrite Heb in Hsend2. cbn [mbind option_bind] in Hsend2.
  assert (Hso : socket_out s2 = socket_out s /\ send_seq s2 = send_seq s)
    by (unfold s2; by destruct slot). destruct Hso as [Hso Hsq2].
  assert (Hdl : hmac_digest_len (out_hmac c) <= 64) by (destruct (out_hmac c); cbn; lia).
  unfold DIGEST_MAX_LEN in *.
  destruct (packet_finish_ok ssh_packet_set_newkeys s2 b3 (Some buf) (out_hmac c) (b2z t) n)
    as (s' & Hfin & _ & Hw & _ & Hsq & _ & Hcnt);
    [done|done|by rewrite Hso|done|rewrite Hc3; lia| |unfold BUFFER_SIZE_MAX; lia| |].
  { intros tag [= <-]. lia. }
  { rewrite Hso, Hc3, Htl. unfold BUFFER_SIZE_MAX. lia. }
  rewrite Hbt, Hso, Hc3 in Hw.
  unfold crypto_counted in Hcnt.
  set (c1 := set_hmacbuf buf (set_out_cipher (Some (after_encrypt oc f)) c)) in *.
  assert (Hg2 : ssh_packet_get_current_crypto s2 SSH_DIRECTION_OUT = Some (slot, c1)).
  { apply (get_crypto_set_slot _ _ slot c); [exact Hc|done|done|]. cbn. by rewrite Ho. }
  specialize (Hcnt _ _ Hg2). eexists s', _. split_and!.
  - rewrite Hsend2. exact Hfin.
  - rewrite Hw. done.
  - by rewrite Hsq, Hsq2.
  - constructor; [exact Hcnt|done|done|done|done].
  - done.
  - done.
Qed.

(** ** Reading what was sent *)

(** The receiver holds the keys of the sender, and its cipher is in step. *)
Record peers (sync : K -> K -> Prop) (cs : ssh_crypto K) (oc : ssh_cipher K)
    (cr : ssh_crypto K) (ic : ssh_cipher K) : Prop := {
  pe_ops : c_ops ic = c_ops oc;
  pe_sync : sync (c_key oc) (c_key ic);
  pe_key : decryptMAC cr = encryptMAC cs;
  pe_mac : in_hmac cr = out_hmac cs
}.

Lemma recv_etm r slot cr ic cs oc sync payload rnd more :
  HMAC_CTX_new = true -> malloc_succeeds -> in_buffer_wf r -> etm_receiver r slot cr ic ->
  peers sync cs oc cr ic -> stream_cipher (c_ops oc) sync ->
  0 < zlen payload -> 4 <= zlen rnd < 256 -> zlen payload + zlen rnd + 1 <= MAX_PACKET_LEN ->
  (zlen payload + zlen rnd + 1) mod blocksize (c_ops oc) = 0 ->
  let wire := etm_wire cs oc (recv_seq r) payload rnd in
  exists r1 r2 b cr', recv_init (etm_params cr ic) r (wire ++ more) = Some (RGo () r1)
    /\ recv_body (etm_params cr ic) r1 (wire ++ more) = Some (RGo (zlen wire) r2)
    /\ in_buffer r2 = Some b /\ buffer_wf b /\ contents b = payload
    /\ recv_seq r2 = u32 (recv_seq r + 1) /\ same_rest r r2
    /\ (exists ic', etm_receiver r2 slot cr' ic' /\ c_ops ic' = c_ops oc
         /\ sync (enc_key (c_ops oc) (c_key oc) (zdrop 4 (frame 4 payload rnd))) (c_key ic')
         /\ decryptMAC cr' = decryptMAC cr /\ in_hmac cr' = in_hmac cr).
Proof.
  intros Hnew Hmem Hwf Hr [Hops Hsync Hkey Hmac] Hsc Hpay Hrnd Hmax Hmod wire.
  pose proof Hr as [Hc Hi He Hm]. pose proof Hsc as [Hbs Hlf [_ Had] Hclen Hdec].
  set (f := frame 4 payload rnd). set (n := zlen payload + zlen rnd + 1) in *.
  unfold MAX_PACKET_LEN in Hmax.
  assert (Hf : zlen f = 4 + n) by (unfold f; rewrite zlen_frame; lia).
  set (e := enc_out (c_ops oc) (c_key oc) (zdrop 4 f)).
  assert (Hfd : zlen (zdrop 4 f) = n) by (rewrite zlen_drop; lia).
  destruct (Hclen (c_key oc) (c_key ic) (zdrop 4 f)) as [_ Hez]; [done|by rewrite Hfd|]. fold e in Hez.
  rewrite Hfd in Hez.
  set (mac := etm_mac cs (recv_seq r) (etm_text oc f)).
  assert (Htext : etm_text oc f = be_bytes 4 n ++ e).
  { unfold etm_text. fold e. do 2 f_equal. lia. }
  assert (Hdl : 0 < hmac_digest_len (in_hmac cr) <= 64) by (destruct (in_hmac cr); cbn; lia).
  set (dl := hmac_digest_len (in_hmac cr)) in *.
  assert (Hmz : zlen mac = dl).
  { unfold mac, etm_mac. rewrite <- Hmac. fold dl. rewrite zlen_take.
    pose proof (packet_mac_len (in_hmac cr) (encryptMAC cs) (recv_seq r) (etm_text oc f) Hm). fold dl in H3. lia. }
  assert (Hwire : wire ++ more = be_bytes 4 n ++ e ++ mac ++ more).
  { unfold wire, etm_wire. fold f. fold mac. rewrite Htext. by rewrite <- !app_assoc. }
  assert (Hwl : zlen wire = 4 + n + dl).
  { unfold wire, etm_wire. fold f. fold mac. rewrite Htext. zlen_lia. }
  rewrite Hwire. set (data := be_bytes 4 n ++ e ++ mac ++ more). pose proof (zlen_nonneg more).
  assert (Hdata : zlen data = 4 + n + dl + zlen more) by (unfold data; zlen_lia).
  destruct (fresh_in_buffer_ok (set_in_packet (mk_packet 0 0 0) r) Hmem Hwf)
    as (b0 & Hfresh & Hwf0 & Hc0 & Hu0).
  set (r1 := set_packet_state PACKET_STATE_SIZEREAD (set_in_packet (mk_packet 0 n 0)
    (set_in_buffer (Some b0) (set_in_packet (mk_packet 0 0 0) r)))).
  assert (Hinit : recv_init (etm_params cr ic) r data = Some (RGo () r1)).
  { unfold recv_init, rp_offset. cbn [rp_lenfield rp_etm etm_params etm_offset negb].
    change (u32 (0 + 4)) with 4. rewrite (proj2 (Z.ltb_ge _ _)) by lia.
    rewrite Hfresh. cbn [mbind option_bind]. rewrite memcpy_whole by lia.
    cbn [mbind option_bind]. rewrite zdrop_0 by lia. unfold data.
    rewrite ztake_app_le, ztake_all by zlen_lia. rewrite be_val_bytes.
    rewrite (Z.mod_small n) by lia. unfold MAX_PACKET_LEN.
    rewrite (proj2 (Z.ltb_ge _ n)) by lia. unwrap. by rewrite (proj2 (Z.ltb_ge _ 0)) by lia. }
  destruct (in_buffer_append r1 b0 n (zdrop 4 f)) as (b3 & ptr & b4 & Hal & Hwf4 & _ & _ & Hwr & Hc4 & _);
    [done|done|done|zlen_lia|unfold BUFFER_SIZE_MAX; lia|].
  rewrite Hc0 in Hc4. cbn [app] in Hc4.
  destruct (Hdec (c_key oc) (c_key ic) (zdrop 4 f)) as [Hpl Hsync']; [done|by rewrite Hfd|].
  fold e in Hpl, Hsync'.
  set (k' := dec_key (c_ops oc) (c_key ic) e) in *.
  set (c1 := set_in_cipher (Some (set_key k' ic)) cr).
  set (rb := set_in_buffer (Some b3) r1).
  assert (Hrecv : etm_receiver rb slot cr ic) by (by destruct Hr).
  assert (Hver : ssh_packet_hmac_verify rb data (4 + n) (zdrop (4 + n) data) (in_hmac cr) = Some 0).
  { rewrite (hmac_verify_etm rb slot cr ic); [|done|done|lia|zlen_lia].
    rewrite bool_decide_true; [done|]. fold dl. change (recv_seq rb) with (recv_seq r).
    assert (Hd1 : ztake (4 + n) data = etm_text oc f).
    { unfold data. rewrite Htext, app_assoc, ztake_app_le by zlen_lia. apply ztake_all. zlen_lia. }
    assert (Hd2 : zdrop (4 + n) data = mac ++ more).
    { unfold data. rewrite app_assoc, zdrop_app_ge by zlen_lia. apply zdrop_0. zlen_lia. }
    rewrite Hd1, Hd2, ztake_app_le by lia. rewrite ztake_all by lia.
    unfold mac, etm_mac. by rewrite Hkey, <- Hmac. }
  assert (Hdecr : ssh_packet_decrypt rb data 4 n = Some (Some (zdrop 4 f), set_slot slot c1 rb)).
  { unfold ssh_packet_decrypt. rewrite (proj2 (Z.leb_gt _ _)) by lia.
    change (ssh_packet_get_current_crypto rb SSH_DIRECTION_IN)
      with (ssh_packet_get_current_crypto r SSH_DIRECTION_IN). rewrite Hc.
    cbn [mbind option_bind]. rewrite Hi. cbn [mbind option_bind]. rewrite Hops, Hmod, Had.
    change (0 =? 0) with true. cbn [negb]. rewrite memcpy_whole by lia. cbn [mbind option_bind].
    assert (Hd3 : ztake n (zdrop 4 data) = e).
    { unfold data. rewrite zdrop_app_ge, zdrop_0 by zlen_lia. rewrite ztake_app_le by zlen_lia.
      apply ztake_all. lia. }
    rewrite Hd3, Hpl. done. }
  assert (Hwr2 : write_in (set_slot slot c1 rb) ptr (zdrop 4 f)
    = Some (set_in_buffer (Some b4) (set_slot slot c1 r1))).
  { revert Hwr. unfold write_in, rb. destruct slot; cbn [set_slot in_buffer set_in_buffer set_cryptos mbind option_bind];
      destruct (memcpy _ _ _ _ _); cbn [mbind option_bind]; intros [= Hx]; by rewrite Hx. }
  destruct (recv_payload_ok (etm_params cr ic) (set_in_buffer (Some b4) (set_slot slot c1 r1)) b4
    (4 + n + dl) (be_bytes 4 0) payload rnd)
    as (r2 & b5 & Hp & Hb5 & Hwf5 & Hc5 & Hseq & Hrest & Hcnt);
    [done|done|zlen_lia|by rewrite Hc4|done|lia|].
  assert (Hg2 : ssh_packet_get_current_crypto (set_in_buffer (Some b4) (set_slot slot c1 r1))
    SSH_DIRECTION_IN = Some (slot, c1)).
  { rewrite get_crypto_in_buffer. apply (get_crypto_set_slot r1 _ slot cr); [exact Hc|done| |done].
    cbn. by rewrite Hi. }
  specialize (Hcnt _ _ Hg2).
  exists r1, r2, b5. eexists. split_and!.
  - exact Hinit.
  - unfold recv_body, rp_offset. cbn [rp_lenfield rp_etm rp_macsize etm_params etm_offset].
    fold dl. change (p_len (in_packet r1)) with n. change (in_buffer r1) with (Some b0).
    cbn [mbind option_bind]. rewrite (s32_small (n + 4 + dl)) by lia. change (u64 (0 - 4 + 4)) with 0.
    rewrite Z.sub_0_r. unwrap. destruct (Z.eqb_spec (n + 4 + dl) 0); [lia|]. cbn [negb andb].
    rewrite (proj2 (Z.ltb_ge _ _)) by lia. rewrite Hal. cbn [mbind option_bind]. fold rb.
    change (ssh_packet_get_current_crypto rb SSH_DIRECTION_IN)
      with (ssh_packet_get_current_crypto r SSH_DIRECTION_IN). rewrite Hc.
    unfold recv_decrypt, rp_offset. cbn [rp_lenfield rp_etm rp_macsize etm_params etm_offset negb].
    change (0 + 4) with 4. replace (n + 4 + dl - dl) with (4 + n) by lia. rewrite Hver.
    cbn [mbind option_bind]. change (0 <? 0) with false. cbv iota.
    rewrite (proj2 (Z.ltb_lt 0 n)) by lia. replace (4 + n - 4) with n by lia. rewrite Hdecr.
    cbn [mbind option_bind]. rewrite Hwr2. cbn [mbind option_bind in_buffer set_in_buffer].
    change (0 <? 0) with false. cbv iota. cbn [mbind option_bind]. rewrite Hp. rewrite Hwl. done.
  - done.
  - done.
  - done.
  - rewrite Hseq. by destruct slot.
  - eapply same_rest_trans; [|exact Hrest]. destruct slot; by constructor.
  - eexists. split_and!; [constructor; [exact Hcnt|reflexivity|exact He|exact Hm]| | |done|done].
    + done.
    + done.
Qed.

Context `{BignumLib}.
Variable ssh_send_rekex : session K prng X -> run (Z * session K prng X).
Variable packet_callbacks : session K prng X -> option (list (option (@ssh_packet_callbacks _ K X))).

(** (C31) Every packet of a connection protected by EtM is delivered to the peer that has
    the matching keys: the callback of its socket runs the handlers of the packet's type once,
    on the rest of its payload (when the filter allows the type), and then goes on with exactly the bytes behind
    the packet; before the handlers both ends are ready for the next packet: sequence
    numbers and cipher states still agree. *)
Theorem etm_roundtrip s slot c oc sync b t rest rnd g r slotr cr ic more :
  HMAC_CTX_new = true -> malloc_succeeds ->
  etm_sender s slot c oc -> stream_cipher (c_ops oc) sync -> sendable s b t rest ->
  zlen (t :: rest) <= MAX_PACKET_LEN - 40 -> contents (socket_out s) = [] ->
  ssh_get_random (rng s) (etm_padding oc (t :: rest)) = (Some rnd, g) ->
  in_buffer_wf r -> etm_receiver r slotr cr ic -> peers sync c oc cr ic -> recv_seq r = send_seq s ->
  session_state (proto_of r) <> SSH_SESSION_STATE_ERROR -> packet_state r = PACKET_STATE_INIT ->
  ssh_packet_incoming_filter (proto_of r) (b2z t) = SSH_PACKET_ALLOWED ->
  exists s' c' oc' wire r' b' cr' ic',
    packet_send2 ssh_packet_set_newkeys s = Some (SSH_OK, s')
    /\ contents (socket_out s') = wire
    /\ in_buffer r' = Some b' /\ contents b' = rest /\ p_type (in_packet r') = b2z t /\ same_rest r r'
    /\ etm_sender s' slot c' oc' /\ etm_receiver r' slotr cr' ic'
    /\ peers sync c' oc' cr' ic' /\ recv_seq r' = send_seq s'
    /\ ssh_packet_socket_callback ssh_packet_set_newkeys ssh_send_rekex packet_callbacks (Some (wire ++ more)) r
       = (r'' ← ssh_packet_process ssh_packet_set_newkeys ssh_send_rekex packet_callbacks r' (b2z t);
          next_packets ssh_packet_set_newkeys ssh_send_rekex packet_callbacks (length (wire ++ more)) (zlen wire) more
            (set_packet_state PACKET_STATE_INIT r'')).
Proof.
  intros Hnew Hmem Hes Hsc Hsend Hmax Hsk Hrnd Hwf Hr Hpeer Hseq Hal Hst Hfil.
  destruct (send_etm s slot c oc sync (c_key ic) b t rest rnd g)
    as (s' & c' & Hs & Hw & Hsq & Hes' & Hk' & Hm'); [done..|by destruct Hpeer|done|done|].
  set (f := frame 4 (t :: rest) rnd) in *. unfold MAX_PACKET_LEN in Hmax.
  assert (Hn : 0 < zlen (t :: rest)) by (rewrite zlen_cons; pose proof (zlen_nonneg rest); lia).
  pose proof Hsc as [Hbs _ _ _ _].
  destruct (packet_padding_spec (blocksize (c_ops oc)) 0 4 (zlen (t :: rest))) as (Hp1 & Hp2 & Hpm);
    [done|lia|lia|destruct Hbs; lia|lia|]. unfold etm_padding in Hrnd.
  apply ssh_get_random_zlen in Hrnd as Hrl; [|lia]. rewrite <- Hrl in *.
  destruct (recv_etm r slotr cr ic c oc sync (t :: rest) rnd more)
    as (r1 & r2 & b' & cr' & Hi & Hb & Hib & Hbw & Hc & Hrs & Hrest & ic' & Hr' & Hops & Hsync & Hkey & Hmac);
    [done..|lia|unfold MAX_PACKET_LEN; lia| |].
  { replace (zlen (t :: rest) + zlen rnd + 1) with (4 + 1 + zlen (t :: rest) + zlen rnd - 0 - 4) by lia.
    done. }
  rewrite Hseq in Hi, Hb, Hrs. rewrite Hsk in Hw. cbn [app] in Hw.
  destruct (callback_packet ssh_packet_set_newkeys ssh_send_rekex packet_callbacks (etm_params cr ic) r r1 r2 b' t rest
    (etm_wire c oc (send_seq s) (t :: rest) rnd) more) as (r' & b2 & Hib' & Hc' & Hty & Hsq' & Hrest' & Hcr & Hcall);
    [by eapply get_params_etm|done..|].
  eexists s', c', _, _, r', b2, cr', ic'. destruct Hr' as [Hr1 Hr2 Hr3 Hr4].
  split_and!; [done|exact Hw|done|done|done|done|exact Hes'|constructor; [by rewrite Hcr|done..]| |congruence|exact Hcall].
  destruct Hpeer. constructor; [done|exact Hsync|congruence|congruence].
Qed.
End Etm.

(** ** Examples *)

Lemma xor_stream : stream_cipher Demo.xor_ops eq.
Proof.
  constructor; [by right|done|done| |].
  - intros ke kd m _ _. split; [done|]. cbn. unfold Demo.mask, zlen. by rewrite length_map.
  - intros ke kd m <- _. unfold dec_key, enc_key, enc_out. cbn [encrypt decrypt Demo.xor_ops].
    unfold Demo.mask, zlen. rewrite !length_map, map_map. split; [|done]. do 2 f_equal.
    rewrite <- (map_id m) at 2. apply map_ext. intros c. by destruct c.
Qed.

Definition demo_cipher : ssh_cipher Z := mk_cipher Demo.xor_ops 0 0 0 0.
Definition demo_end : session Z (@prng Demo.random) () :=
  Demo.start Demo.authenticated Demo.ignore_packet (Some Demo.xor_crypto) None.

Lemma demo_sender : @etm_sender Demo.random Z () demo_end Current Demo.xor_crypto demo_cipher.
Proof. constructor; try reflexivity. split; discriminate. Qed.

Lemma demo_receiver : @etm_receiver Demo.random Z () demo_end Current Demo.xor_crypto demo_cipher.
Proof. constructor; try reflexivity. split; discriminate. Qed.

Lemma etm_roundtrip_witness :
  let more := cstr "next" in
  let newkeys := fun (s : session Z (@prng Demo.random) ()) (_ : Z) => Some (0, s) in
  let rekex := fun s : session Z (@prng Demo.random) () => Some (0, s) in
  exists s' c' oc' wire r' b' cr' ic',
    @packet_send2 calloc_allocator (Demo.hmac true) Demo.random Z () newkeys demo_end = Some (SSH_OK, s')
    /\ contents (socket_out s') = wire
    /\ in_buffer r' = Some b' /\ contents b' = cstr "WindTerm" /\ p_type (in_packet r') = 2 /\ same_rest demo_end r'
    /\ @etm_sender Demo.random Z () s' Current c' oc' /\ @etm_receiver Demo.random Z () r' Current cr' ic'
    /\ peers eq c' oc' cr' ic' /\ recv_seq r' = send_seq s'
    /\ @ssh_packet_socket_callback calloc_allocator N_bignum (Demo.hmac true) Demo.random Z () newkeys rekex (fun _ => None)
         (Some (wire ++ more)) demo_end
       = (r'' ← @ssh_packet_process calloc_allocator N_bignum (Demo.hmac true) Demo.random Z () newkeys rekex (fun _ => None) r' 2;
          @next_packets calloc_allocator N_bignum (Demo.hmac true) Demo.random Z () newkeys rekex (fun _ => None)
            (length (wire ++ more)) (zlen wire) more (set_packet_state PACKET_STATE_INIT r'')).
Proof.
  intros more newkeys rekex.
  apply (@etm_roundtrip calloc_allocator (Demo.hmac true) Demo.random Z () newkeys N_bignum rekex (fun _ => None)
    demo_end Current Demo.xor_crypto demo_cipher eq
    (Demo.buffer_of Demo.ignore_packet) (z2b SSH2_MSG_IGNORE) (cstr "WindTerm") (zrep 6 Byte.x00) tt
    demo_end Current Demo.xor_crypto demo_cipher more);
    [reflexivity|exact Demo.calloc_succeeds|exact demo_sender|exact xor_stream|apply Demo.start_sendable
    |vm_compute; discriminate|reflexivity|vm_compute; reflexivity|exact I|exact demo_receiver| |reflexivity
    |discriminate|reflexivity|reflexivity].
  constructor; reflexivity.
Defined.

(** A packet of the example connection, cut after its length field was read. *)
Definition demo_wire : bytes :=
  match @packet_send2 calloc_allocator (Demo.hmac true) Demo.random Z () (fun s _ => Some (0, s)) demo_end with
  | Some (_, s) => contents (socket_out s)
  | None => []
  end.
Definition demo_reading : session Z (@prng Demo.random) () :=
  match @recv_init calloc_allocator Demo.random Z () (etm_params Demo.xor_crypto demo_cipher) demo_end demo_wire with
  | Some (RGo _ s) => s
  | _ => demo_end
  end.
Definition demo_read : session Z (@prng Demo.random) () :=
  match @recv_body calloc_allocator (Demo.hmac true) Demo.random Z ()
          (etm_params Demo.xor_crypto demo_cipher) demo_reading demo_wire with
  | Some (RGo _ s) => s
  | _ => demo_end
  end.

Lemma etm_accepts_only_valid_mac_witness :
  @mac_valid (Demo.hmac true) Z Demo.xor_crypto 3 16 demo_wire.
Proof.
  apply (@etm_accepts_only_valid_mac calloc_allocator (Demo.hmac true) Demo.random Z () demo_reading Current
    Demo.xor_crypto demo_cipher demo_wire 52 demo_read);
    [reflexivity| |vm_compute; split; discriminate|vm_compute; reflexivity].
  constructor; try (vm_compute; reflexivity). split; discriminate.
Defined.
