(* ===== verification/Kex.v ===== *)
(** * Algorithm negotiation ([libssh/src/kex.c], [libssh/src/server.c])

    The KEXINIT message of both directions, the lists each end offers, the
    selection of the methods and the start of a rekeying.  The tables are those
    of a build with OpenSSL (AES, AES-GCM, elliptic curves, curve25519, DSA,
    group exchange), without Blowfish and zlib. *)

From S2P Require Import Prelude SshString Buffer Bignum BufferPack Token Session.
From S2P Require Import Misc Crypto Packet PacketRecv.

(** ** The state of a key exchange *)

Inductive ssh_key_exchange_e :=
  | SSH_KEX_DH_GROUP1_SHA1
  | SSH_KEX_DH_GROUP14_SHA1
  | SSH_KEX_DH_GEX_SHA1
  | SSH_KEX_DH_GEX_SHA256
  | SSH_KEX_ECDH_SHA2_NISTP256
  | SSH_KEX_ECDH_SHA2_NISTP384
  | SSH_KEX_ECDH_SHA2_NISTP521
  | SSH_KEX_CURVE25519_SHA256_LIBSSH_ORG
  | SSH_KEX_CURVE25519_SHA256
  | SSH_KEX_DH_GROUP16_SHA512
  | SSH_KEX_DH_GROUP18_SHA512
  | SSH_KEX_DH_GROUP14_SHA256.

#[export] Instance ssh_key_exchange_eq : EqDecision ssh_key_exchange_e.
Proof. solve_decision. Defined.

Inductive ssh_kdf_digest := SSH_KDF_SHA1 | SSH_KDF_SHA256 | SSH_KDF_SHA384 | SSH_KDF_SHA512.

(** The indices of [enum ssh_kex_types_e]. *)
Definition SSH_KEX : nat := 0.
Definition SSH_HOSTKEYS : nat := 1.
Definition SSH_CRYPT_C_S : nat := 2.
Definition SSH_CRYPT_S_C : nat := 3.
Definition SSH_MAC_C_S : nat := 4.
Definition SSH_MAC_S_C : nat := 5.
Definition SSH_COMP_C_S : nat := 6.
Definition SSH_COMP_S_C : nat := 7.
Definition SSH_LANG_C_S : nat := 8.
Definition SSH_LANG_S_C : nat := 9.
Definition SSH_KEX_METHODS : nat := 10.

Definition SSH_EXT_NEGOTIATION : Z := 1.
Definition SSH_EXT_SIG_RSA_SHA256 : Z := 2.
Definition SSH_EXT_SIG_RSA_SHA512 : Z := 4.

(** The proposal of one end. *)
Record ssh_kex_struct := mk_kex { cookie : bytes; methods : list (option bytes) }.
Definition no_methods : list (option bytes) := replicate SSH_KEX_METHODS None.
Definition zero_kex : ssh_kex_struct := mk_kex (zrep 16 Byte.x00) no_methods.

(** What the exchange method leaves in [session->next_crypto]: the key pairs, the
    shared secret, the blob of the server's public key and its signature. *)
Record exchange `{BignumLib} := mk_exchange {
  shared_secret : option bignum;
  dh_client_key : option bignum;
  dh_server_key : option bignum;
  dh_modulus : option bignum;
  dh_generator : option bignum;
  dh_pmin : Z;
  dh_pn : Z;
  dh_pmax : Z;
  ecdh_client_pubkey : option ssh_string;
  ecdh_server_pubkey : option ssh_string;
  curve25519_client_pubkey : bytes;
  curve25519_server_pubkey : bytes;
  server_pubkey_blob : option ssh_string;
  dh_server_signature : option ssh_string
}.

Definition no_exchange `{BignumLib} : exchange :=
  mk_exchange _ None None None None None 0 0 0 None None (zrep 32 Byte.x00) (zrep 32 Byte.x00) None None.

(** What the derivation of the keys leaves there. *)
Record session_keys := mk_keys {
  digest_type : option ssh_kdf_digest;
  secret_hash : option bytes;
  encryptIV : bytes;
  decryptIV : bytes;
  encryptkey : bytes;
  decryptkey : bytes
}.
Definition no_keys : session_keys := mk_keys None None [] [] [] [].

(** What the choice of the algorithms leaves besides the ciphers and the MACs:
    the compression flags, the kind of host key a server signs with and its
    digest, and the exchange whose handlers are registered ([None]: none). *)
Inductive ssh_keytypes_e :=
  | SSH_KEYTYPE_UNKNOWN
  | SSH_KEYTYPE_DSS
  | SSH_KEYTYPE_RSA
  | SSH_KEYTYPE_RSA1
  | SSH_KEYTYPE_ECDSA
  | SSH_KEYTYPE_ED25519
  | SSH_KEYTYPE_DSS_CERT01
  | SSH_KEYTYPE_RSA_CERT01
  | SSH_KEYTYPE_ECDSA_P256
  | SSH_KEYTYPE_ECDSA_P384
  | SSH_KEYTYPE_ECDSA_P521
  | SSH_KEYTYPE_ECDSA_P256_CERT01
  | SSH_KEYTYPE_ECDSA_P384_CERT01
  | SSH_KEYTYPE_ECDSA_P521_CERT01
  | SSH_KEYTYPE_ED25519_CERT01.

Inductive ssh_digest_e :=
  | SSH_DIGEST_AUTO
  | SSH_DIGEST_SHA1
  | SSH_DIGEST_SHA256
  | SSH_DIGEST_SHA384
  | SSH_DIGEST_SHA512.

Inductive kex_family := KEX_DH | KEX_DHGEX | KEX_ECDH | KEX_CURVE25519.

#[export] Instance ssh_keytypes_eq : EqDecision ssh_keytypes_e.
Proof. solve_decision. Defined.
#[export] Instance ssh_digest_eq : EqDecision ssh_digest_e.
Proof. solve_decision. Defined.
#[export] Instance kex_family_eq : EqDecision kex_family.
Proof. solve_decision. Defined.

Record algorithms := mk_algorithms {
  do_compress_out : bool;
  do_compress_in : bool;
  delayed_compress_out : bool;
  delayed_compress_in : bool;
  hostkey : ssh_keytypes_e;
  hostkey_digest : ssh_digest_e;
  kex_callbacks : option kex_family
}.
Definition no_algorithms : algorithms :=
  mk_algorithms false false false false SSH_KEYTYPE_UNKNOWN SSH_DIGEST_AUTO None.

(** The fields of [struct ssh_session_struct] the key exchange adds to those of
    the packet layer.  [client_kex] and the fields after it belong to
    [session->next_crypto]. *)
Record handshake `{BignumLib} := mk_handshake {
  clientbanner : option bytes;
  serverbanner : option bytes;
  in_hashbuf : option ssh_buffer;
  out_hashbuf : option ssh_buffer;
  extensions : Z;
  first_kex_follows_guess_wrong : bool;
  wanted_methods : list (option bytes);  (** [opts.wanted_methods] *)
  (** the names of the types of [srv.ed25519_key], [srv.ecdsa_key], [srv.dsa_key]
      and [srv.rsa_key] *)
  srv_keys : option bytes * option bytes * option bytes * option bytes;
  client_kex : ssh_kex_struct;
  server_kex : ssh_kex_struct;
  kex_methods : list (option bytes);
  kex_type : option ssh_key_exchange_e;
  exch : exchange;
  keys : session_keys;
  algos : algorithms
}.

Section Fields.
Context `{BignumLib}.
Implicit Type h : handshake.

Definition set_hashbufs (i o : option ssh_buffer) h : handshake :=
  mk_handshake _ (clientbanner h) (serverbanner h) i o (extensions h)
    (first_kex_follows_guess_wrong h) (wanted_methods h) (srv_keys h) (client_kex h) (server_kex h)
    (kex_methods h) (kex_type h) (exch h) (keys h) (algos h).
Definition set_extensions (v : Z) h : handshake :=
  mk_handshake _ (clientbanner h) (serverbanner h) (in_hashbuf h) (out_hashbuf h) v
    (first_kex_follows_guess_wrong h) (wanted_methods h) (srv_keys h) (client_kex h) (server_kex h)
    (kex_methods h) (kex_type h) (exch h) (keys h) (algos h).
Definition set_guess_wrong (v : bool) h : handshake :=
  mk_handshake _ (clientbanner h) (serverbanner h) (in_hashbuf h) (out_hashbuf h) (extensions h)
    v (wanted_methods h) (srv_keys h) (client_kex h) (server_kex h)
    (kex_methods h) (kex_type h) (exch h) (keys h) (algos h).
Definition set_wanted (v : list (option bytes)) h : handshake :=
  mk_handshake _ (clientbanner h) (serverbanner h) (in_hashbuf h) (out_hashbuf h) (extensions h)
    (first_kex_follows_guess_wrong h) v (srv_keys h) (client_kex h) (server_kex h)
    (kex_methods h) (kex_type h) (exch h) (keys h) (algos h).
Definition set_client_kex (v : ssh_kex_struct) h : handshake :=
  mk_handshake _ (clientbanner h) (serverbanner h) (in_hashbuf h) (out_hashbuf h) (extensions h)
    (first_kex_follows_guess_wrong h) (wanted_methods h) (srv_keys h) v (server_kex h)
    (kex_methods h) (kex_type h) (exch h) (keys h) (algos h).
Definition set_server_kex (v : ssh_kex_struct) h : handshake :=
  mk_handshake _ (clientbanner h) (serverbanner h) (in_hashbuf h) (out_hashbuf h) (extensions h)
    (first_kex_follows_guess_wrong h) (wanted_methods h) (srv_keys h) (client_kex h) v
    (kex_methods h) (kex_type h) (exch h) (keys h) (algos h).
Definition set_selection (ms : list (option bytes)) (t : option ssh_key_exchange_e) h : handshake :=
  mk_handshake _ (clientbanner h) (serverbanner h) (in_hashbuf h) (out_hashbuf h) (extensions h)
    (first_kex_follows_guess_wrong h) (wanted_methods h) (srv_keys h) (client_kex h) (server_kex h)
    ms t (exch h) (keys h) (algos h).
Definition set_exch (v : exchange) h : handshake :=
  mk_handshake _ (clientbanner h) (serverbanner h) (in_hashbuf h) (out_hashbuf h) (extensions h)
    (first_kex_follows_guess_wrong h) (wanted_methods h) (srv_keys h) (client_kex h) (server_kex h)
    (kex_methods h) (kex_type h) v (keys h) (algos h).
Definition set_keys (v : session_keys) h : handshake :=
  mk_handshake _ (clientbanner h) (serverbanner h) (in_hashbuf h) (out_hashbuf h) (extensions h)
    (first_kex_follows_guess_wrong h) (wanted_methods h) (srv_keys h) (client_kex h) (server_kex h)
    (kex_methods h) (kex_type h) (exch h) v (algos h).
Definition set_algos (v : algorithms) h : handshake :=
  mk_handshake _ (clientbanner h) (serverbanner h) (in_hashbuf h) (out_hashbuf h) (extensions h)
    (first_kex_follows_guess_wrong h) (wanted_methods h) (srv_keys h) (client_kex h) (server_kex h)
    (kex_methods h) (kex_type h) (exch h) (keys h) v.

(** The compression flags belong to [next_crypto], the other algorithms to the
    session. *)
Definition reset_compression (a : algorithms) : algorithms :=
  mk_algorithms false false false false (hostkey a) (hostkey_digest a) (kex_callbacks a).

(** [crypto_new]: the fields that belong to a fresh [next_crypto]. *)
Definition fresh_next h : handshake :=
  set_client_kex zero_kex (set_server_kex zero_kex (set_selection no_methods None
    (set_exch no_exchange (set_keys no_keys (set_algos (reset_compression (algos h)) h))))).
End Fields.

(** ** The tables *)

Definition KEX_EXTENSION_CLIENT : bytes := cstr "ext-info-c".

Definition AES : string :=
  "aes256-gcm@openssh.com,aes128-gcm@openssh.com,aes256-ctr,aes192-ctr,aes128-ctr,aes256-cbc,aes192-cbc,aes128-cbc,".
Definition MACS : string :=
  "hmac-sha2-256-etm@openssh.com,hmac-sha2-512-etm@openssh.com,hmac-sha1-etm@openssh.com,hmac-sha1-96-etm@openssh.com,hmac-sha2-256,hmac-sha2-512,hmac-sha1,hmac-sha1-96".
Definition EC_HOSTKEYS : string := "ecdsa-sha2-nistp521,ecdsa-sha2-nistp384,ecdsa-sha2-nistp256,".
Definition HOSTKEYS : string :=
  "ssh-ed25519," +:+ EC_HOSTKEYS +:+ "rsa-sha2-512,rsa-sha2-256,ssh-rsa,ssh-dss".
Definition EC_PUBLIC_KEY_ALGORITHMS : string :=
  "ecdsa-sha2-nistp521-cert-v01@openssh.com,ecdsa-sha2-nistp384-cert-v01@openssh.com,ecdsa-sha2-nistp256-cert-v01@openssh.com,".
Definition PUBLIC_KEY_ALGORITHMS : string :=
  "ssh-ed25519-cert-v01@openssh.com," +:+ EC_PUBLIC_KEY_ALGORITHMS
  +:+ "rsa-sha2-512-cert-v01@openssh.com,rsa-sha2-256-cert-v01@openssh.com,ssh-rsa-cert-v01@openssh.com,ssh-dss-cert-v01@openssh.com,"
  +:+ HOSTKEYS.
Definition KEY_EXCHANGE : string :=
  "curve25519-sha256,curve25519-sha256@libssh.org,ecdh-sha2-nistp256,ecdh-sha2-nistp384,ecdh-sha2-nistp521,diffie-hellman-group18-sha512,diffie-hellman-group16-sha512,diffie-hellman-group-exchange-sha256,diffie-hellman-group14-sha256,diffie-hellman-group14-sha1,diffie-hellman-group1-sha1".
Definition KEY_EXCHANGE_SUPPORTED : string := "diffie-hellman-group-exchange-sha1," +:+ KEY_EXCHANGE.
Definition FIPS_ALLOWED_CIPHERS : string :=
  "aes256-gcm@openssh.com,aes256-ctr,aes256-cbc,aes128-gcm@openssh.com,aes128-ctr,aes128-cbc".
Definition FIPS_ALLOWED_PUBLIC_KEY_ALGORITHMS : string :=
  EC_PUBLIC_KEY_ALGORITHMS +:+ "rsa-sha2-512-cert-v01@openssh.com,rsa-sha2-256-cert-v01@openssh.com,"
  +:+ EC_HOSTKEYS +:+ "rsa-sha2-512,rsa-sha2-256".
Definition FIPS_ALLOWED_KEX : string :=
  "ecdh-sha2-nistp256,ecdh-sha2-nistp384,ecdh-sha2-nistp521,diffie-hellman-group-exchange-sha256,diffie-hellman-group14-sha256,diffie-hellman-group16-sha512,diffie-hellman-group18-sha512".
Definition FIPS_ALLOWED_MACS : string :=
  "hmac-sha2-256-etm@openssh.com,hmac-sha1-etm@openssh.com,hmac-sha2-512-etm@openssh.com,hmac-sha2-256,hmac-sha1,hmac-sha2-512".

Definition fips_methods : list bytes := map cstr
  [FIPS_ALLOWED_KEX; FIPS_ALLOWED_PUBLIC_KEY_ALGORITHMS; FIPS_ALLOWED_CIPHERS; FIPS_ALLOWED_CIPHERS;
   FIPS_ALLOWED_MACS; FIPS_ALLOWED_MACS; "none"; "none"; ""; ""]%string.
Definition default_methods : list bytes := map cstr
  [KEY_EXCHANGE; PUBLIC_KEY_ALGORITHMS; AES +:+ "3des-cbc"; AES +:+ "3des-cbc"; MACS; MACS;
   "none"; "none"; ""; ""]%string.
Definition supported_methods : list bytes := map cstr
  [KEY_EXCHANGE_SUPPORTED; PUBLIC_KEY_ALGORITHMS; "chacha20-poly1305@openssh.com," +:+ AES +:+ "3des-cbc";
   "chacha20-poly1305@openssh.com," +:+ AES +:+ "3des-cbc"; MACS; MACS; "none"; "none"; ""; ""]%string.

(** The text of the C string in a block. *)
Definition text_of (block : bytes) : run bytes := n ← strlen block; Some (ztake n block).

Section Lists.
Context `{Allocator} `{BignumLib}.

(** [ssh_fips_mode ()]; what [ssh_known_hosts_get_algorithms_names] finds in the
    files of known hosts. *)
Variable fips_mode : bool.
Variable known_hosts_algorithms : option bytes.

(** [ssh_find_all_matching], its result as a text. *)
Definition find_all (available preferred : bytes) : run (option bytes) :=
  r ← ssh_find_all_matching (Some available) (Some preferred);
  match r with None => Some None | Some block => t ← text_of block; Some (Some t) end.

Definition ssh_keep_known_algos (algo : nat) (list : bytes) : run (option bytes) :=
  if (SSH_LANG_S_C <? algo)%nat then Some None else
  supported ← supported_methods !! algo; find_all supported list.

Definition ssh_keep_fips_algos (algo : nat) (list : bytes) : run (option bytes) :=
  if (SSH_LANG_S_C <? algo)%nat then Some None else
  allowed ← fips_methods !! algo; find_all allowed list.

(** The list wanted for a method: the option, or the table. *)
Definition wanted_list (h : handshake) (i : nat) : run bytes :=
  w ← wanted_methods h !! i;
  match w with
  | Some w => Some w
  | None => if fips_mode then fips_methods !! i else default_methods !! i
  end.

Definition ssh_client_select_hostkeys (h : handshake) : run (option bytes) :=
  wanted ← wanted_list h SSH_HOSTKEYS;
  wanted_without_certs ← find_all (cstr HOSTKEYS) wanted;
  match wanted_without_certs with
  | None => Some None
  | Some wanted_without_certs =>
      match known_hosts_algorithms with
      | None => Some (Some wanted_without_certs)
      | Some known =>
          known_hosts_ordered ← find_all known wanted_without_certs;
          match known_hosts_ordered with
          | None => Some (Some wanted_without_certs)
          | Some ordered =>
              match ssh_append_without_duplicates (Some ordered) (Some wanted_without_certs) with
              | None => Some None
              | Some new_hostkeys =>
                  if fips_mode then ssh_keep_fips_algos SSH_HOSTKEYS new_hostkeys
                  else Some (Some new_hostkeys)
              end
          end
      end
  end.

(** The loop of [ssh_set_client_kex] over the indices [idx]: the methods set so
    far, and whether all are. *)
Fixpoint client_methods (h : handshake) (idx : list nat) (ms : list (option bytes))
    : run (bool * list (option bytes)) :=
  match idx with
  | [] => Some (true, ms)
  | i :: idx =>
      m ← (if (i =? SSH_HOSTKEYS)%nat then ssh_client_select_hostkeys h
           else w ← wanted_list h i; Some (strdup w));
      let ms := <[i := m]> ms in
      match m with
      | None => Some (false, ms)
      | Some _ => client_methods h idx ms
      end
  end.

(** [ssh_options_set_algo]. *)
Definition ssh_options_set_algo (h : handshake) (algo : nat) (list : bytes) : run (Z * handshake) :=
  p ← (if fips_mode then ssh_keep_fips_algos algo list else ssh_keep_known_algos algo list);
  match p with
  | None => Some (-1, h)
  | Some p => Some (0, set_wanted (<[algo := Some p]> (wanted_methods h)) h)
  end.

(** [snprintf] at the end of the 128 bytes of [hostkeys]. *)
Definition append_hostkey (hostkeys name : bytes) : bytes :=
  hostkeys ++ ztake (128 - zlen hostkeys - 1) name.

Definition server_hostkeys (h : handshake) : bytes :=
  let '(ed25519, ecdsa, dsa, rsa) := srv_keys h in
  let k := match ed25519 with Some n => append_hostkey [] n | None => [] end in
  let k := match ecdsa with Some n => append_hostkey k (comma :: n) | None => k end in
  let k := match dsa with Some n => append_hostkey k (comma :: n) | None => k end in
  match rsa with
  | Some n => append_hostkey (append_hostkey k (cstr ",rsa-sha2-512,rsa-sha2-256")) (comma :: n)
  | None => k
  end.

(** The loop of [server_set_kex]: a failure frees what is set. *)
Fixpoint server_methods (h : handshake) (idx : list nat) (ms : list (option bytes))
    : run (bool * list (option bytes)) :=
  match idx with
  | [] => Some (true, ms)
  | i :: idx =>
      w ← wanted_list h i;
      match strdup w with
      | None => Some (false, no_methods)
      | Some w => server_methods h idx (<[i := Some w]> ms)
      end
  end.

(** ** Selecting the methods *)

(** Whether the first names of two lists differ. *)
Definition cmp_first_kex_algo (client_str server_str : bytes) : bool :=
  let client_kex_len := default (zlen client_str) (strchr client_str ","%byte) in
  let server_kex_len := default (zlen server_str) (strchr server_str ","%byte) in
  if negb (client_kex_len =? server_kex_len) then true
  else negb (strncmp0 client_str server_str client_kex_len).

(** [",ext-info-c"] and what follows it is dropped. *)
Definition drop_ext_info (kex : bytes) : bytes :=
  match strstr kex (comma :: KEX_EXTENSION_CLIENT) with
  | Some ext_start => ztake (zlen kex - zlen ext_start) kex
  | None => kex
  end.

Definition kex_names : list (string * ssh_key_exchange_e) :=
  [("diffie-hellman-group1-sha1", SSH_KEX_DH_GROUP1_SHA1);
   ("diffie-hellman-group14-sha1", SSH_KEX_DH_GROUP14_SHA1);
   ("diffie-hellman-group14-sha256", SSH_KEX_DH_GROUP14_SHA256);
   ("diffie-hellman-group16-sha512", SSH_KEX_DH_GROUP16_SHA512);
   ("diffie-hellman-group18-sha512", SSH_KEX_DH_GROUP18_SHA512);
   ("diffie-hellman-group-exchange-sha1", SSH_KEX_DH_GEX_SHA1);
   ("diffie-hellman-group-exchange-sha256", SSH_KEX_DH_GEX_SHA256);
   ("ecdh-sha2-nistp256", SSH_KEX_ECDH_SHA2_NISTP256);
   ("ecdh-sha2-nistp384", SSH_KEX_ECDH_SHA2_NISTP384);
   ("ecdh-sha2-nistp521", SSH_KEX_ECDH_SHA2_NISTP521);
   ("curve25519-sha256@libssh.org", SSH_KEX_CURVE25519_SHA256_LIBSSH_ORG);
   ("curve25519-sha256", SSH_KEX_CURVE25519_SHA256)]%string.

(** The chain of [strcmp]: [None] leaves [kex_type] as it is. *)
Definition kex_type_of (name : bytes) : option ssh_key_exchange_e :=
  option_map snd (List.find (fun e => bool_decide (cstr (fst e) = name)) kex_names).

(** The loop over the methods, from [i] on. *)
Fixpoint select_loop (idx : list nat) (server client : list (option bytes)) (ms : list (option bytes))
    : run (bool * list (option bytes)) :=
  match idx with
  | [] => Some (true, ms)
  | i :: idx =>
      s ← server !! i;
      c ← client !! i;
      let m := ssh_find_matching s c in
      if negb (some m) && (i <? SSH_LANG_C_S)%nat then Some (false, <[i := m]> ms) else
      let m := if (SSH_LANG_C_S <=? i)%nat && negb (some m) then strdup [] else m in
      select_loop idx server client (<[i := m]> ms)
  end.

Definition ssh_kex_select_methods (h : handshake) : run (Z * handshake) :=
  kex ← mjoin (methods (client_kex h) !! SSH_KEX);
  let client := mk_kex (cookie (client_kex h))
                  (<[SSH_KEX := Some (drop_ext_info kex)]> (methods (client_kex h))) in
  let h := set_client_kex client h in
  '(ok, ms) ← select_loop (seq 0 SSH_KEX_METHODS) (methods (server_kex h)) (methods client)
                (kex_methods h);
  if negb (ok : bool) then Some (SSH_ERROR, set_selection ms (kex_type h) h) else
  name ← mjoin (ms !! SSH_KEX);
  let type := match kex_type_of name with Some t => Some t | None => kex_type h end in
  Some (SSH_OK, set_selection ms type h).
End Lists.

(** ** The KEXINIT message *)

Section Messages.
Context `{Allocator} `{BignumLib} `{HmacLib} `{RandomLib} {K : Type}.
Notation session := (session K prng handshake).
Implicit Type s : session.

Variable fips_mode : bool.
Variable known_hosts_algorithms : option bytes.

Definition is_server s : bool := server (proto_of s).
Definition is_client s : bool := client (proto_of s).

(** An assignment to fields of the key exchange; those of [next_crypto] are only
    reached when the session has one. *)
Definition upd (f : handshake -> handshake) s : session := set_upper (f (upper s)) s.
Definition upd_next (f : handshake -> handshake) s : run session :=
  _ ← next_crypto s; Some (upd f s).

Definition ssh_set_client_kex s : run (Z * session) :=
  _ ← next_crypto s;
  let client := client_kex (upper s) in
  let '(r, rng') := ssh_get_random (rng s) 16 in
  let s := set_rng rng' s in
  match r with
  | None => Some (SSH_ERROR, s)
  | Some c =>
      '(ok, ms) ← client_methods fips_mode known_hosts_algorithms (upper s) (seq 0 SSH_KEX_METHODS)
                    no_methods;
      let s := upd (set_client_kex (mk_kex c ms)) s in
      if negb (ok : bool) then Some (SSH_ERROR, s) else
      if flag_authenticated (proto_of s) then Some (SSH_OK, s) else
      kex ← mjoin (ms !! SSH_KEX);
      let kex_len := zlen kex + zlen KEX_EXTENSION_CLIENT + 2 in
      if u64 kex_len <? zlen kex then Some (SSH_ERROR, s) else
      (* on failure the block is freed and the entry dangles *)
      match realloc (kex ++ [Byte.x00]) kex_len with
      | None => Some (SSH_ERROR, s)
      | Some _ =>
          let ms := <[SSH_KEX := Some (kex ++ comma :: KEX_EXTENSION_CLIENT)]> ms in
          Some (SSH_OK, upd (set_client_kex (mk_kex c ms)) s)
      end
  end.

Definition server_set_kex s : run (Z * session) :=
  s ← upd_next (set_server_kex zero_kex) s;
  let '(r, rng') := ssh_get_random (rng s) 16 in
  let s := set_rng rng' s in
  match r with
  | None => Some (-1, s)
  | Some c =>
      let s := upd (set_server_kex (mk_kex c no_methods)) s in
      let hostkeys := server_hostkeys (upper s) in
      if zlen hostkeys =? 0 then Some (-1, s) else
      allowed ← wanted_list fips_mode (upper s) SSH_HOSTKEYS;
      kept ← find_all (match hostkeys with
                       | c :: rest => if Byte.eqb c comma then rest else hostkeys
                       | [] => hostkeys
                       end) allowed;
      match kept with
      | None => Some (-1, s)
      | Some kept =>
          '(rc, h) ← ssh_options_set_algo fips_mode (upper s) SSH_HOSTKEYS kept;
          let s := set_upper h s in
          if rc <? 0 then Some (-1, s) else
          '(ok, ms) ← server_methods fips_mode (upper s) (seq 0 SSH_KEX_METHODS) no_methods;
          Some (if (ok : bool) then 0 else -1, upd (set_server_kex (mk_kex c ms)) s)
      end
  end.

(** A new hash buffer that starts with the message number and the cookie; on
    failure it is reinitialised. *)
Definition hashbuf_with_cookie (room : Z) (c : bytes) : run (Z * option ssh_buffer) :=
  nb ← ssh_buffer_new;
  match nb with
  | None => Some (-1, None)
  | Some b =>
      let fail b := ('(_, b) ← ssh_buffer_reinit (Some b); Some (-1, b)) in
      '(rc, b) ← ssh_buffer_allocate_size b room;
      if rc <? 0 then fail b else
      '(rc, b) ← ssh_buffer_add_u8 b 20;
      if rc <? 0 then fail b else
      '(rc, b) ← add_data b (Some c) 16;
      if rc <? 0 then fail b else Some (0, Some b)
  end.

Definition ssh_hashbufout_add_cookie s : run (Z * session) :=
  _ ← next_crypto s;
  let c := cookie (if is_server s then server_kex (upper s) else client_kex (upper s)) in
  '(rc, b) ← hashbuf_with_cookie 17 c;
  Some (rc, upd (set_hashbufs (in_hashbuf (upper s)) b) s).

Definition ssh_hashbufin_add_cookie s (c : bytes) : run (Z * session) :=
  '(rc, b) ← hashbuf_with_cookie 37 c;
  Some (rc, upd (set_hashbufs b (out_hashbuf (upper s))) s).

(** The loop of [ssh_send_kex] over the methods: the hash buffer and the packet,
    and whether it ended. *)
Fixpoint send_methods (ms : list (option bytes)) (hash out : ssh_buffer)
    : run (bool * ssh_buffer * ssh_buffer) :=
  match ms with
  | [] => Some (true, hash, out)
  | m :: ms =>
      str ← ssh_string_from_char m;
      match str with
      | None => Some (false, hash, out)
      | Some _ =>
          '(rc, hash) ← ssh_buffer_add_ssh_string hash str;
          if rc <? 0 then Some (false, hash, out) else
          '(rc, out) ← ssh_buffer_add_ssh_string out str;
          if rc <? 0 then Some (false, hash, out) else
          send_methods ms hash out
      end
  end.

(** The two buffers of the session, when a function works on both. *)
Definition set_out_buffers (hash out : ssh_buffer) s : session :=
  set_out_buffer (Some out) (upd (set_hashbufs (in_hashbuf (upper s)) (Some hash)) s).

Variable packet_send : session -> run (Z * session).

(** The [error] label of [ssh_send_kex]. *)
Definition send_kex_error s : run (Z * session) :=
  '(_, o) ← ssh_buffer_reinit (out_buffer s);
  '(_, h) ← ssh_buffer_reinit (out_hashbuf (upper s));
  Some (-1, set_out_buffer o (upd (set_hashbufs (in_hashbuf (upper s)) h) s)).

Definition ssh_send_kex s (server_kex_p : bool) : run (Z * session) :=
  _ ← next_crypto s;
  let kex := if server_kex_p then server_kex (upper s) else client_kex (upper s) in
  out ← out_buffer s;
  '(rc, out) ← ssh_buffer_pack out (cstr "bP")
                 [VInt SSH2_MSG_KEXINIT; VLen 16; VPtr (Some (cookie kex))];
  let s := set_out_buffer (Some out) s in
  if negb (rc =? SSH_OK) then send_kex_error s else
  '(rc, s) ← ssh_hashbufout_add_cookie s;
  if rc <? 0 then send_kex_error s else
  hash ← out_hashbuf (upper s);
  '(ok, hash, out) ← send_methods (methods kex) hash out;
  let s := set_out_buffers hash out s in
  if negb (ok : bool) then send_kex_error s else
  '(rc, out) ← ssh_buffer_pack out (cstr "bd") [VInt 0; VInt 0];
  let s := set_out_buffer (Some out) s in
  if negb (rc =? SSH_OK) then send_kex_error s else
  '(rc, s) ← packet_send s;
  Some (if rc =? SSH_ERROR then -1 else 0, s).

(** The start of a rekeying. *)
Definition ssh_send_rekex_with s : run (Z * session) :=
  if negb (bool_decide (dh_handshake_state (proto_of s) = DH_STATE_FINISHED))
  then Some (SSH_ERROR, s) else
  if negb (some (current_crypto s)) then Some (SSH_ERROR, s) else
  '(stop, rc, s) ←
    (if is_client s then
       '(rc, s) ← ssh_set_client_kex s; Some (negb (rc =? SSH_OK), rc, s)
     else
       '(rc, s) ← server_set_kex s; Some (rc =? SSH_ERROR, rc, s));
  if (stop : bool) then Some (rc, s) else
  let s := set_proto (set_dh_state DH_STATE_INIT (proto_of s)) s in
  '(rc, s) ← ssh_send_kex s (is_server s);
  if rc <? 0 then Some (rc, s) else
  Some (SSH_OK, set_proto (set_dh_state DH_STATE_INIT_SENT (proto_of s)) s).

(** ** Receiving KEXINIT *)

(** The loop over the lists of the packet: what is left of the packet, the hash
    buffer, the texts read, and whether all were. *)
Fixpoint read_methods (n : nat) (packet hash : ssh_buffer) (strings : list bytes)
    : run (bool * ssh_buffer * ssh_buffer * list bytes) :=
  match n with
  | O => Some (true, packet, hash, strings)
  | S n =>
      '(str, packet) ← ssh_buffer_get_ssh_string packet;
      match str with
      | None => Some (false, packet, hash, strings)
      | Some _ =>
          '(rc, hash) ← ssh_buffer_add_ssh_string hash str;
          if rc <? 0 then Some (false, packet, hash, strings) else
          block ← ssh_string_to_char str;
          match block with
          | None => Some (false, packet, hash, strings)
          | Some block =>
              t ← text_of block;
              read_methods n packet hash (strings ++ [t])
          end
      end
  end.

(** One of the two signature types of RSA: enabled when the client offers it and
    the options allow it. *)
Definition enable_rsa (h : handshake) (name : bytes) (flag : Z) : run handshake :=
  hostkeys ← mjoin (methods (client_kex h) !! SSH_HOSTKEYS);
  ok ← ssh_match_group hostkeys name;
  if ok =? 0 then Some h else
  wanted ← wanted_methods h !! SSH_HOSTKEYS;
  match wanted with
  | None => Some h
  | Some _ =>
      match ssh_find_matching wanted (Some name) with
      | Some _ => Some (set_extensions (Z.lor (extensions h) flag) h)
      | None => Some h
      end
  end.

(** The extensions of a client that supports their negotiation; [false]: the error
    label. *)
Definition negotiate_extensions (h : handshake) : run (bool * handshake) :=
  kex ← mjoin (methods (client_kex h) !! SSH_KEX);
  ok ← ssh_match_group kex KEX_EXTENSION_CLIENT;
  if ok =? 0 then Some (true, h) else
  let h := set_extensions (Z.lor (extensions h) SSH_EXT_NEGOTIATION) h in
  h ← enable_rsa h (cstr "rsa-sha2-512") SSH_EXT_SIG_RSA_SHA512;
  h ← enable_rsa h (cstr "rsa-sha2-256") SSH_EXT_SIG_RSA_SHA256;
  let both := Z.lor SSH_EXT_SIG_RSA_SHA256 SSH_EXT_SIG_RSA_SHA512 in
  if Z.land (extensions h) both =? both then
    let cleared := Z.land (extensions h) (Z.lnot both) in
    match ssh_find_matching (Some (cstr "rsa-sha2-512,rsa-sha2-256"))
            (mjoin (methods (client_kex h) !! SSH_HOSTKEYS)) with
    | None => Some (false, set_extensions cleared h)
    | Some e =>
        if bool_decide (e = cstr "rsa-sha2-512")
        then Some (true, set_extensions (Z.lor cleared SSH_EXT_SIG_RSA_SHA512) h)
        else if bool_decide (e = cstr "rsa-sha2-256")
        then Some (true, set_extensions (Z.lor cleared SSH_EXT_SIG_RSA_SHA256) h)
        else Some (false, set_extensions cleared h)
    end
  else Some (true, h).

(** Whether the client guessed the methods wrong. *)
Definition guess_is_wrong (h : handshake) : run bool :=
  ck ← mjoin (methods (client_kex h) !! SSH_KEX);
  sk ← mjoin (methods (server_kex h) !! SSH_KEX);
  if cmp_first_kex_algo ck sk then Some true else
  ch ← mjoin (methods (client_kex h) !! SSH_HOSTKEYS);
  sh ← mjoin (methods (server_kex h) !! SSH_HOSTKEYS);
  Some (cmp_first_kex_algo ch sh).

(** The part of [ssh_packet_kexinit] that a server runs after the lists;
    [false]: the error label. *)
Definition kexinit_server s : run (bool * session) :=
  packet ← in_buffer s;
  '(n, v, packet) ← ssh_buffer_get_u8 packet;
  let s := set_in_buffer (Some packet) s in
  match v with
  | None => Some (false, s)
  | Some first_kex_packet_follows =>
      hash ← in_hashbuf (upper s);
      '(rc, hash) ← ssh_buffer_add_u8 hash first_kex_packet_follows;
      let s := upd (set_hashbufs (Some hash) (out_hashbuf (upper s))) s in
      if rc <? 0 then Some (false, s) else
      '(rc, hash) ← ssh_buffer_add_u32 hash 0;
      let s := upd (set_hashbufs (Some hash) (out_hashbuf (upper s))) s in
      if rc <? 0 then Some (false, s) else
      '(ok, h) ← negotiate_extensions (upper s);
      let s := set_upper h s in
      if negb (ok : bool) then Some (false, s) else
      if first_kex_packet_follows =? 0 then Some (true, s) else
      wrong ← guess_is_wrong h;
      Some (true, upd (set_guess_wrong wrong) s)
  end.

(** The proposal of the peer: a server keeps it in [client_kex], a client in
    [server_kex]. *)
Definition peer_kex s : ssh_kex_struct :=
  if is_server s then client_kex (upper s) else server_kex (upper s).
Definition set_peer_kex (v : ssh_kex_struct) s : session :=
  upd (if is_server s then set_client_kex v else set_server_kex v) s.

(** [session->ssh_connection_callback] *)
Variable connection_callback : session -> run session.

Definition kexinit_error s : run (Z * session) :=
  let s := set_peer_kex (mk_kex (cookie (peer_kex s)) no_methods) s in
  Some (SSH_PACKET_USED, set_proto (set_session_state SSH_SESSION_STATE_ERROR (proto_of s)) s).

Definition ssh_packet_kexinit s (type : Z) : run (Z * session) :=
  _ ← next_crypto s;
  if negb (bool_decide (session_state (proto_of s) = SSH_SESSION_STATE_AUTHENTICATED))
     && negb (bool_decide (session_state (proto_of s) = SSH_SESSION_STATE_INITIAL_KEX))
  then kexinit_error s else
  packet ← in_buffer s;
  '(len, c, packet) ← ssh_buffer_get_data packet 16;
  let s := set_in_buffer (Some packet) s in
  match c with
  | None => kexinit_error s
  | Some c =>
      let s := set_peer_kex (mk_kex c (methods (peer_kex s))) s in
      '(ok, s) ← ssh_hashbufin_add_cookie s c;
      if ok <? 0 then kexinit_error s else
      hash ← in_hashbuf (upper s);
      '(ok, packet, hash, strings) ← read_methods SSH_KEX_METHODS packet hash [];
      let s := set_in_buffer (Some packet)
                 (upd (set_hashbufs (Some hash) (out_hashbuf (upper s))) s) in
      if negb (ok : bool) then kexinit_error s else
      let s := set_peer_kex (mk_kex c (map Some strings)) s in
      '(ok, s) ← (if is_server s then kexinit_server s else Some (true, s));
      if negb (ok : bool) then kexinit_error s else
      let s := set_proto (set_dh_state DH_STATE_INIT
                 (set_session_state SSH_SESSION_STATE_KEXINIT_RECEIVED (proto_of s))) s in
      s ← connection_callback s;
      Some (SSH_PACKET_USED, s)
  end.
End Messages.

(** ** The bytes of a proposal *)

(** The lists as name-lists of the wire, and what the exchange hash covers of a
    KEXINIT message before its last two fields. *)
Definition kex_lists (ls : list bytes) : bytes := concat (map lv ls).
Definition kexinit_text (c : bytes) (ls : list bytes) : bytes :=
  z2b SSH2_MSG_KEXINIT :: c ++ kex_lists ls.

(** [first_kex_packet_follows] and the reserved field of a message without a
    guess. *)
Definition no_guess : bytes := zrep 5 Byte.x00.

Lemma kex_lists_cons l ls : kex_lists (l :: ls) = lv l ++ kex_lists ls.
Proof. done. Qed.

Section KexFacts.
Context `{Allocator} `{BignumLib}.

Lemma ssh_string_from_char_ok w :
  malloc_succeeds -> zlen w <= BUFFER_SIZE_MAX ->
  exists s, ssh_string_from_char (Some w) = Some (Some s) /\ string_wf s /\ string_text s = w.
Proof.
  intros Hmem Hw. pose proof (zlen_nonneg w). pose proof (ssh_string_from_char_runs w) as Hr.
  destruct (ssh_string_from_char (Some w)) as [[s|]|] eqn:Hs; [|exfalso|done].
  { exists s. split; [done|]. by apply ssh_string_from_char_text. }
  revert Hs. unfold ssh_string_from_char, ssh_string_new, string_header. unfold BUFFER_SIZE_MAX in Hw.
  rewrite (proj2 (Z.ltb_ge _ _)) by (unfold STRING_SIZE_MAX; lia).
  destruct (malloc (5 + zlen w)) eqn:Hm.
  - cbv zeta. by destruct (memcpy _ _ _ _ _).
  - apply Hmem in Hm; [done|]. unfold BUFFER_SIZE_MAX. lia.
Qed.

Lemma ssh_string_to_char_ok s :
  malloc_succeeds -> string_wf s ->
  ssh_string_to_char (Some s) = Some (Some (string_text s ++ [Byte.x00])).
Proof.
  intros Hmem Hwf. pose proof (string_wf_len s Hwf) as (Hr & Hsz & Hd).
  destruct (ssh_string_to_char (Some s)) as [[p|]|] eqn:E.
  - by rewrite (ssh_string_to_char_text s p Hwf E).
  - exfalso. revert E. unfold ssh_string_to_char. unfold STRING_SIZE_MAX in *. unwrap.
    set (n := ssh_string_len (Some s)) in *. destruct (n + 1 <? n) eqn:?; [lia|].
    destruct (malloc (n + 1)) as [new|] eqn:Hm.
    + destruct (memcpy _ _ _ _ _); [|done]. cbn [mbind option_bind]. by destruct (memcpy _ _ _ _ _).
    + apply Hmem in Hm; [done|]. unfold BUFFER_SIZE_MAX. lia.
  - exfalso. revert E. unfold ssh_string_to_char. unfold STRING_SIZE_MAX in *. unwrap.
    set (n := ssh_string_len (Some s)) in *. destruct (n + 1 <? n) eqn:?; [lia|].
    destruct (malloc (n + 1)) as [new|] eqn:Hm; [|done]. apply malloc_zlen in Hm; [|lia].
    rewrite memcpy_ok by lia. cbn [mbind option_bind]. rewrite memcpy_ok by zlen_lia. done.
Qed.

(** The lists are appended to both buffers. *)
Lemma send_methods_ok ls hash out :
  malloc_succeeds -> buffer_wf hash -> buffer_wf out ->
  b_used hash + zlen (kex_lists ls) < BUFFER_SIZE_MAX ->
  b_used out + zlen (kex_lists ls) < BUFFER_SIZE_MAX ->
  exists hash' out', send_methods (map Some ls) hash out = Some (true, hash', out')
    /\ buffer_wf hash' /\ contents hash' = contents hash ++ kex_lists ls
    /\ buffer_wf out' /\ contents out' = contents out ++ kex_lists ls
    /\ b_used out' <= b_used out + zlen (kex_lists ls).
Proof.
  intros Hmem. revert hash out. induction ls as [|l ls IH]; intros hash out Hh Ho Hhu Hou.
  { exists hash, out. rewrite !app_nil_r. change (zlen (kex_lists [])) with 0. split_and!; (done || lia). }
  rewrite kex_lists_cons in *. rewrite zlen_app, zlen_lv in *.
  pose proof (zlen_nonneg l). pose proof (zlen_nonneg (kex_lists ls)).
  destruct Hh as [? ? ? ?] eqn:E1, Ho as [? ? ? ?] eqn:E2. clear E1 E2.
  cbn [map send_methods].
  destruct (ssh_string_from_char_ok l) as (s & -> & Hs & Ht); [done|lia|]. cbn [mbind option_bind].
  destruct (add_ssh_string_ok hash s) as (h1 & -> & Hh1 & Hu1 & Hc1); [done|by constructor|done|rewrite Ht; lia|].
  cbn [mbind option_bind]. change (0 <? 0) with false. cbv iota.
  destruct (add_ssh_string_ok out s) as (o1 & -> & Ho1 & Hv1 & Hd1); [done|by constructor|done|rewrite Ht; lia|].
  cbn [mbind option_bind]. change (0 <? 0) with false. cbv iota. rewrite Ht in *.
  destruct (IH h1 o1) as (h2 & o2 & -> & ? & Hc2 & ? & Hd2 & ?); [done|done|lia|lia|].
  exists h2, o2. split_and!; [done|done| |done| |lia].
  - rewrite Hc2, Hc1. unfold lv. by rewrite <- !app_assoc.
  - rewrite Hd2, Hd1. unfold lv. by rewrite <- !app_assoc.
Qed.

(** A hash buffer starts with the message number and the cookie. *)
Lemma hashbuf_with_cookie_ok room c :
  malloc_succeeds -> 0 <= room < 100 -> zlen c = 16 ->
  exists b, hashbuf_with_cookie room c = Some (0, Some b) /\ buffer_wf b
    /\ contents b = z2b SSH2_MSG_KEXINIT :: c /\ b_used b <= 17.
Proof.
  intros Hmem Hroom Hc. unfold hashbuf_with_cookie, BUFFER_SIZE_MAX in *.
  destruct (ssh_buffer_new_ok Hmem) as (b & -> & Hb & Hcb & Hub). cbn [mbind option_bind].
  destruct (allocate_size_ok b room) as (b1 & -> & Hb1 & Hu1 & Hc1); [done|done|unfold BUFFER_SIZE_MAX; lia|].
  cbn [mbind option_bind]. change (0 <? 0) with false. cbv iota. unfold ssh_buffer_add_u8.
  destruct (add_int_ok 1 b1 20) as (b2 & -> & Hb2 & Hu2 & Hc2); [done|done|lia|unfold BUFFER_SIZE_MAX; lia|].
  cbn [mbind option_bind]. change (0 <? 0) with false. cbv iota.
  destruct (add_data_ok b2 c 16) as (b3 & -> & Hb3 & Hu3 & Hc3); [done|done|lia|unfold BUFFER_SIZE_MAX; lia|].
  cbn [mbind option_bind]. change (0 <? 0) with false. cbv iota. exists b3.
  split_and!; [done|done| |lia]. rewrite Hc3, Hc2, Hc1, Hcb, ztake_all by lia. done.
Qed.

(** The lists of a packet are read back, and copied to the hash buffer. *)
Lemma read_methods_ok ls packet hash strings rest :
  malloc_succeeds -> buffer_wf packet -> buffer_wf hash ->
  Forall is_cstr ls -> contents packet = kex_lists ls ++ rest ->
  b_used hash + zlen (kex_lists ls) < BUFFER_SIZE_MAX ->
  exists packet' hash', read_methods (length ls) packet hash strings
      = Some (true, packet', hash', strings ++ ls)
    /\ buffer_wf packet' /\ contents packet' = rest
    /\ buffer_wf hash' /\ contents hash' = contents hash ++ kex_lists ls
    /\ b_used hash' <= b_used hash + zlen (kex_lists ls).
Proof.
  intros Hmem. revert packet hash strings. induction ls as [|l ls IH]; intros p h st Hp Hh Hls Hc Hu.
  { exists p, h. rewrite !app_nil_r. change (zlen (kex_lists [])) with 0. split_and!; (done || lia). }
  rewrite kex_lists_cons in *. rewrite zlen_app, zlen_lv in *.
  apply Forall_cons in Hls as [Hl Hls]. rewrite <- app_assoc in Hc.
  pose proof (zlen_nonneg l). pose proof (zlen_nonneg (kex_lists ls)).
  cbn [length read_methods].
  destruct (get_ssh_string_lv Hmem p l _ Hp Hc) as (s & p1 & -> & Hp1 & _ & Hc1 & Hs & Ht).
  cbn [mbind option_bind].
  assert (Hh0 := Hh). destruct Hh0 as [? ? ? _].
  destruct (add_ssh_string_ok h s) as (h1 & -> & Hh1 & Hu1 & Hd1); [done|done|done|rewrite Ht; lia|].
  cbn [mbind option_bind]. change (0 <? 0) with false. cbv iota.
  rewrite (ssh_string_to_char_ok s), Ht by done. cbn [mbind option_bind]. unfold text_of. rewrite strlen_cstr by done.
  cbn [mbind option_bind]. rewrite ztake_app_le, ztake_all by lia. rewrite Ht in *.
  destruct (IH p1 h1 (st ++ [l])) as (p2 & h2 & -> & ? & ? & ? & Hd2 & ?); [done..|lia|].
  exists p2, h2. rewrite <- app_assoc. split_and!; [done|done|done|done| |lia].
  rewrite Hd2, Hd1. unfold lv. by rewrite <- !app_assoc.
Qed.

(** The two calls of [ssh_buffer_pack]. *)
Lemma pack_cookie_ok b c :
  malloc_succeeds -> buffer_wf b -> zlen c = 16 -> b_used b + 17 < BUFFER_SIZE_MAX ->
  exists b', ssh_buffer_pack b (cstr "bP") [VInt SSH2_MSG_KEXINIT; VLen 16; VPtr (Some c)]
      = Some (SSH_OK, b')
    /\ buffer_wf b' /\ b_used b' <= b_used b + 17
    /\ contents b' = contents b ++ z2b SSH2_MSG_KEXINIT :: c.
Proof.
  intros Hmem Hb Hc Hu. rewrite <- Hc.
  destruct (pack_fields_ok b [FByte SSH2_MSG_KEXINIT; FData c]) as (b' & He & Hb' & Hu' & Hc');
    [done|done| |done|done| | |].
  - repeat constructor. cbn. lia.
  - cbn. rewrite Hc. done.
  - change (fields_encode _) with (z2b SSH2_MSG_KEXINIT :: c ++ []). rewrite app_nil_r, zlen_cons, Hc. lia.
  - exists b'. change (fields_encode _) with (z2b SSH2_MSG_KEXINIT :: c ++ []) in Hu', Hc'. rewrite app_nil_r in Hu', Hc'.
    rewrite zlen_cons, Hc in Hu'.
    split_and!; [done|done|lia|done].
Qed.
End KexFacts.

Section MessageFacts.
Context `{Allocator} `{BignumLib} `{HmacLib} `{RandomLib} {K : Type}.
Notation session := (session K prng handshake).
Implicit Type s r : session.

Lemma pack_trailer_ok b :
  malloc_succeeds -> buffer_wf b -> b_used b + 5 < BUFFER_SIZE_MAX ->
  exists b', ssh_buffer_pack b (cstr "bd") [VInt 0; VInt 0] = Some (SSH_OK, b')
    /\ buffer_wf b' /\ b_used b' <= b_used b + 5 /\ contents b' = contents b ++ no_guess.
Proof.
  intros Hmem Hb Hu.
  destruct (pack_fields_ok b [FByte 0; FDword 0]) as (b' & He & Hb' & Hu' & Hc');
    [done|done|by repeat constructor|done|done|done|exact Hu|].
  change (zlen (fields_encode _)) with 5 in Hu'. exists b'. split_and!; [done|done|lia|done].
Qed.

(** The proposal an end sends. *)
Definition own_kex s : ssh_kex_struct :=
  if is_server s then server_kex (upper s) else client_kex (upper s).

(** A proposal that can be sent. *)
Definition proposal (k : ssh_kex_struct) (c : bytes) (ls : list bytes) : Prop :=
  k = mk_kex c (map Some ls) /\ zlen c = 16 /\ length ls = SSH_KEX_METHODS /\ Forall is_cstr ls
  /\ zlen (kex_lists ls) < 2 ^ 27.

(** [ssh_send_kex] gives the packet layer the whole message, and its text
    without the last two fields to the exchange hash. *)
Lemma send_kex_ok (packet_send : session -> run (Z * session)) s b c ls :
  malloc_succeeds -> some (next_crypto s) = true -> proposal (own_kex s) c ls ->
  out_buffer s = Some b -> buffer_wf b -> contents b = [] -> b_used b < 2 ^ 20 ->
  exists hash out s1, ssh_send_kex packet_send s (is_server s)
      = ('(rc, s) ← packet_send s1; Some (if rc =? SSH_ERROR then -1 else 0, s))
    /\ s1 = set_out_buffers hash out s
    /\ buffer_wf out /\ contents out = kexinit_text c ls ++ no_guess /\ b_used out < 2 ^ 28
    /\ buffer_wf hash /\ contents hash = kexinit_text c ls.
Proof.
  intros Hmem Hnext (Hk & Hc & Hlen & Hcs & Hsz) Hob Hb Hcb Hu. unfold ssh_send_kex.
  destruct (next_crypto s) as [nc|] eqn:Hn; [|done]. cbn [mbind option_bind].
  fold (own_kex s). rewrite Hob, Hk. cbn [mbind option_bind cookie methods].
  pose proof (zlen_nonneg (kex_lists ls)).
  destruct (pack_cookie_ok b c) as (b1 & -> & Hb1 & Hu1 & Hc1); [done|done|done|unfold BUFFER_SIZE_MAX; lia|].
  cbn [mbind option_bind]. change (negb (SSH_OK =? SSH_OK)) with false. cbv iota.
  unfold ssh_hashbufout_add_cookie. cbn [next_crypto set_out_buffer]. rewrite Hn. cbn [mbind option_bind].
  change (is_server (set_out_buffer (Some b1) s)) with (is_server s).
  change (upper (set_out_buffer (Some b1) s)) with (upper s).
  assert (Hck : cookie (if is_server s then server_kex (upper s) else client_kex (upper s)) = c).
  { fold (own_kex s). by rewrite Hk. }
  rewrite Hck. destruct (hashbuf_with_cookie_ok 17 c) as (h1 & -> & Hh1 & Hch1 & Huh1); [done|lia|done|].
  cbn [mbind option_bind]. change (0 <? 0) with false. cbv iota.
  cbn [upd set_upper upper set_hashbufs out_hashbuf mbind option_bind].
  destruct (send_methods_ok ls h1 b1) as (h2 & b2 & -> & Hh2 & Hch2 & Hb2 & Hcb2 & Hu2);
    [done|done|done|unfold BUFFER_SIZE_MAX; lia|unfold BUFFER_SIZE_MAX; lia|].
  cbn [mbind option_bind negb].
  destruct (pack_trailer_ok b2) as (b3 & -> & Hb3 & Hu3 & Hc3); [done|done|unfold BUFFER_SIZE_MAX; lia|].
  cbn [mbind option_bind]. change (negb (SSH_OK =? SSH_OK)) with false. cbv iota.
  exists h2, b3. eexists. split; [reflexivity|]. split_and!; [reflexivity|done| |lia|done|].
  - rewrite Hc3, Hcb2, Hc1, Hcb. unfold kexinit_text. cbn [app]. by rewrite <- !app_assoc.
  - rewrite Hch2, Hch1. done.
Qed.

(** *** What a server does after the lists *)

Lemma enable_rsa_ok h name flag hostkeys :
  mjoin (methods (client_kex h) !! SSH_HOSTKEYS) = Some hostkeys ->
  (SSH_HOSTKEYS < length (wanted_methods h))%nat ->
  exists e, enable_rsa h name flag = Some (set_extensions e h).
Proof.
  intros Hk Hw. unfold enable_rsa. rewrite Hk. cbn [mbind option_bind].
  rewrite ssh_match_group_spec. cbn [mbind option_bind].
  assert (Hid : exists e, Some h = Some (set_extensions e h)) by (exists (extensions h); by destruct h).
  destruct (_ =? 0); [done|].
  destruct (wanted_methods h !! SSH_HOSTKEYS) as [w|] eqn:Hwe.
  - cbn [mbind option_bind]. destruct w; [|done].
    destruct (ssh_find_matching _ _); [by eexists|done].
  - apply lookup_ge_None in Hwe. lia.
Qed.

Lemma negotiate_extensions_ok h kex hostkeys :
  mjoin (methods (client_kex h) !! SSH_KEX) = Some kex ->
  mjoin (methods (client_kex h) !! SSH_HOSTKEYS) = Some hostkeys ->
  (SSH_HOSTKEYS < length (wanted_methods h))%nat ->
  exists ok e, negotiate_extensions h = Some (ok, set_extensions e h).
Proof.
  intros Hkex Hhk Hw. unfold negotiate_extensions. rewrite Hkex. cbn [mbind option_bind].
  rewrite ssh_match_group_spec. cbn [mbind option_bind].
  destruct (_ =? 0); [exists true, (extensions h); by destruct h|].
  match goal with |- context [enable_rsa ?x _ _] => set (h1 := x) end.
  destruct (enable_rsa_ok h1 (cstr "rsa-sha2-512") SSH_EXT_SIG_RSA_SHA512 hostkeys) as [e1 ->]; [done|done|].
  cbn [mbind option_bind].
  destruct (enable_rsa_ok (set_extensions e1 h1) (cstr "rsa-sha2-256") SSH_EXT_SIG_RSA_SHA256 hostkeys)
    as [e2 ->]; [done|done|]. cbn [mbind option_bind].
  destruct (_ =? _); [|by do 2 eexists].
  destruct (ssh_find_matching _ _); [|by do 2 eexists].
  repeat (case_bool_decide; [by do 2 eexists|]). by do 2 eexists.
Qed.

Lemma kexinit_server_ok s packet hash kex hostkeys b0 rest :
  malloc_succeeds -> in_buffer s = Some packet -> buffer_wf packet -> contents packet = b0 :: rest ->
  in_hashbuf (upper s) = Some hash -> buffer_wf hash -> b_used hash + 5 < BUFFER_SIZE_MAX ->
  mjoin (methods (client_kex (upper s)) !! SSH_KEX) = Some kex ->
  mjoin (methods (client_kex (upper s)) !! SSH_HOSTKEYS) = Some hostkeys ->
  (SSH_HOSTKEYS < length (wanted_methods (upper s)))%nat -> b2z b0 = 0 ->
  exists ok packet' hash' e, kexinit_server s = Some (ok, set_in_buffer (Some packet')
      (upd (fun h => set_extensions e (set_hashbufs (Some hash') (out_hashbuf h) h)) s))
    /\ buffer_wf hash' /\ contents hash' = contents hash ++ no_guess.
Proof.
  intros Hmem Hib Hp Hcp Hih Hh Hu Hkex Hhk Hw Hb0. unfold kexinit_server, ssh_buffer_get_u8.
  rewrite Hib. cbn [mbind option_bind].
  destruct (get_int_prefix 1 packet [b0] rest) as (p1 & -> & Hp1 & _ & Hcp1); [done|lia|done|done|].
  cbn [mbind option_bind in_hashbuf upper set_in_buffer]. rewrite Hih. cbn [mbind option_bind].
  assert (Hv : le_val [b0] = 0) by (rewrite le_val_cons; change (le_val []) with 0; lia).
  rewrite Hv. unfold ssh_buffer_add_u8, ssh_buffer_add_u32.
  destruct (add_int_ok 1 hash 0) as (h1 & -> & Hh1 & Hu1 & Hc1); [done|done|lia|lia|].
  cbn [mbind option_bind]. change (0 <? 0) with false. cbv iota.
  destruct (add_int_ok 4 h1 0) as (h2 & -> & Hh2 & Hu2 & Hc2); [done|done|lia|lia|].
  cbn [mbind option_bind]. change (0 <? 0) with false. cbv iota.
  match goal with |- context [negotiate_extensions ?x] => set (hs := x) end.
  destruct (negotiate_extensions_ok hs kex hostkeys Hkex Hhk Hw) as (ok & e & ->).
  cbn [mbind option_bind].
  assert (Hh2c : contents h2 = contents hash ++ no_guess).
  { rewrite Hc2, Hc1, <- app_assoc. done. }
  destruct ok; cbn [negb]; [change (0 =? 0) with true; cbv iota|];
    eexists _, p1, h2, e; (split; [reflexivity|done]).
Qed.

(** The state in which a KEXINIT is expected. *)
Definition expects_kexinit s : Prop :=
  session_state (proto_of s) = SSH_SESSION_STATE_AUTHENTICATED
  \/ session_state (proto_of s) = SSH_SESSION_STATE_INITIAL_KEX.

(** A handler that ends the session. *)
Definition ends_in_error s : Prop := session_state (proto_of s) = SSH_SESSION_STATE_ERROR.
#[export] Instance ends_in_error_dec s : Decision (ends_in_error s) := _.

(** What the hash of this end covers of the KEXINIT it received: a server has also
    added the last two fields. *)
Definition received_text r (c : bytes) (ls : list bytes) : bytes :=
  kexinit_text c ls ++ (if is_server r then no_guess else []).

Lemma peer_set_peer k r : peer_kex (set_peer_kex k r) = k.
Proof. unfold peer_kex, set_peer_kex. cbn. change (is_server (upd _ r)) with (is_server r).
  by destruct (is_server r). Qed.

Lemma wanted_set_peer k r : wanted_methods (upper (set_peer_kex k r)) = wanted_methods (upper r).
Proof. unfold set_peer_kex. by destruct (is_server r). Qed.

Lemma packet_kexinit_ok connection_callback r packet c ls :
  malloc_succeeds -> some (next_crypto r) = true -> expects_kexinit r ->
  in_buffer r = Some packet -> buffer_wf packet ->
  contents packet = c ++ kex_lists ls ++ no_guess ->
  zlen c = 16 -> length ls = SSH_KEX_METHODS -> Forall is_cstr ls -> zlen (kex_lists ls) < 2 ^ 27 ->
  length (wanted_methods (upper r)) = SSH_KEX_METHODS ->
  exists r1, ssh_packet_kexinit connection_callback r SSH2_MSG_KEXINIT
      = (if bool_decide (ends_in_error r1) then Some (SSH_PACKET_USED, r1)
         else r2 ← connection_callback r1; Some (SSH_PACKET_USED, r2))
    /\ (ends_in_error r1 -> is_server r = true)
    /\ (~ ends_in_error r1 -> peer_kex r1 = mk_kex c (map Some ls)
        /\ exists hash, in_hashbuf (upper r1) = Some hash
             /\ contents hash = received_text r c ls).
Proof.
  intros Hmem Hnext Hst Hib Hp Hcp Hc Hlen Hcs Hsz Hw. unfold ssh_packet_kexinit.
  pose proof (zlen_nonneg (kex_lists ls)).
  destruct (next_crypto r) as [nc|] eqn:Hn; [|done]. cbn [mbind option_bind].
  assert (Hguard : negb (bool_decide (session_state (proto_of r) = SSH_SESSION_STATE_AUTHENTICATED))
     && negb (bool_decide (session_state (proto_of r) = SSH_SESSION_STATE_INITIAL_KEX)) = false).
  { destruct Hst as [-> | ->]; done. }
  rewrite Hguard, Hib. cbn [mbind option_bind].
  destruct (get_data_spec packet 16 Hp) as (p1 & -> & Hp1 & _ & Hcp1); [lia|].
  destruct (take_prefix c (kex_lists ls ++ no_guess) 16) as [Ht Hd]; [done|].
  rewrite Hcp in *. rewrite (proj2 (Z.leb_le _ _)) in * by zlen_lia.
  rewrite Ht. rewrite Hd in Hcp1. cbn [mbind option_bind].
  unfold ssh_hashbufin_add_cookie.
  destruct (hashbuf_with_cookie_ok 37 c) as (h1 & -> & Hh1 & Hch1 & Huh1); [done|lia|done|].
  cbn [mbind option_bind]. change (0 <? 0) with false. cbv iota.
  cbn [upd set_upper upper set_hashbufs in_hashbuf mbind option_bind].
  rewrite <- Hlen.
  destruct (read_methods_ok ls p1 h1 [] no_guess) as (p2 & h2 & -> & Hp2 & Hcp2 & Hh2 & Hch2 & Hu2);
    [done|done|done|done|done|unfold BUFFER_SIZE_MAX; lia|].
  cbn [mbind option_bind negb app].
  match goal with |- context [set_peer_kex (mk_kex c (map Some ls)) ?x] => set (r1 := x) end.
  change (is_server (set_peer_kex (mk_kex c (map Some ls)) r1)) with (is_server r).
  assert (Hpeer := peer_set_peer (mk_kex c (map Some ls)) r1).
  set (r2 := set_peer_kex (mk_kex c (map Some ls)) r1) in *.
  assert (Hh : in_hashbuf (upper r2) = Some h2).
  { subst r2. unfold set_peer_kex. by destruct (is_server r1). }
  assert (Htext : contents h2 = kexinit_text c ls) by (rewrite Hch2, Hch1; done).
  unfold received_text. destruct (is_server r) eqn:Hsrv.
  - assert (Hck : client_kex (upper r2) = mk_kex c (map Some ls)).
    { unfold peer_kex in Hpeer. change (is_server r2) with (is_server r) in Hpeer.
      by rewrite Hsrv in Hpeer. }
    destruct (nth_lookup_or_length ls SSH_KEX []) as [Hl0|]; [|unfold SSH_KEX_METHODS, SSH_KEX in *; lia].
    destruct (nth_lookup_or_length ls SSH_HOSTKEYS []) as [Hl1|]; [|unfold SSH_KEX_METHODS, SSH_HOSTKEYS in *; lia].
    assert (Hkex : mjoin (methods (client_kex (upper r2)) !! SSH_KEX) = Some (nth SSH_KEX ls [])).
    { rewrite Hck. cbn [methods]. by rewrite list_lookup_fmap, Hl0. }
    assert (Hhk : mjoin (methods (client_kex (upper r2)) !! SSH_HOSTKEYS) = Some (nth SSH_HOSTKEYS ls [])).
    { rewrite Hck. cbn [methods]. by rewrite list_lookup_fmap, Hl1. }
    assert (Hib2 : in_buffer r2 = Some p2) by reflexivity.
    assert (Hw2 : wanted_methods (upper r2) = wanted_methods (upper r)).
    { etransitivity; [apply wanted_set_peer|]. etransitivity; [|apply (wanted_set_peer
        (mk_kex c (methods (peer_kex (set_in_buffer (Some p1) r)))) (set_in_buffer (Some p1) r))].
      reflexivity. }
    destruct (kexinit_server_ok r2 p2 h2 _ _ Byte.x00 (zrep 4 Byte.x00) Hmem Hib2 Hp2 Hcp2 Hh Hh2
      ltac:(unfold BUFFER_SIZE_MAX; lia) Hkex Hhk
      ltac:(rewrite Hw2, Hw; unfold SSH_KEX_METHODS, SSH_HOSTKEYS; lia) eq_refl)
      as (ok & p3 & h3 & e & -> & Hh3 & Hc3).
    cbn [mbind option_bind]. destruct ok; cbn [negb].
    + match goal with |- context [connection_callback ?x] => exists x end.
      rewrite bool_decide_false by done. split; [reflexivity|]. split; [done|]. intros _.
      split; [|exists h3; split; [done|by rewrite Hc3, Htext]].
      transitivity (peer_kex r2); [reflexivity|exact Hpeer].
    + unfold kexinit_error.
      match goal with |- context [Some (SSH_PACKET_USED, ?x)] => exists x end.
      rewrite bool_decide_true by done. split; [reflexivity|]. by split.
  - cbn [mbind option_bind negb].
    match goal with |- context [connection_callback ?x] => exists x end. rewrite bool_decide_false by done.
    split; [reflexivity|]. split; [done|]. intros _. split; [exact Hpeer|].
    exists h2. rewrite app_nil_r. done.
Qed.


(** (C29) A KEXINIT message arrives as it was sent: the receiver keeps the cookie and
    the lists of the sender, and both ends enter the same text in the exchange
    hash (a server has also entered the two last fields, which the client enters
    in [ssh_make_sessionid]).  Only a server can refuse the message, in the
    negotiation of the extensions. *)
Theorem kexinit_received_as_sent packet_send connection_callback s r b c ls :
  malloc_succeeds -> is_server s = negb (is_server r) ->
  some (next_crypto s) = true -> some (next_crypto r) = true ->
  proposal (own_kex s) c ls ->
  out_buffer s = Some b -> buffer_wf b -> contents b = [] -> b_used b < 2 ^ 20 ->
  expects_kexinit r -> length (wanted_methods (upper r)) = SSH_KEX_METHODS ->
  exists s1 out hash,
    ssh_send_kex packet_send s (is_server s)
      = ('(rc, s) ← packet_send s1; Some (if rc =? SSH_ERROR then -1 else 0, s))
    /\ out_buffer s1 = Some out /\ out_hashbuf (upper s1) = Some hash
    /\ forall packet, in_buffer r = Some packet -> buffer_wf packet ->
         z2b SSH2_MSG_KEXINIT :: contents packet = contents out ->
         exists r1, ssh_packet_kexinit connection_callback r SSH2_MSG_KEXINIT
             = (if bool_decide (ends_in_error r1) then Some (SSH_PACKET_USED, r1)
                else r2 ← connection_callback r1; Some (SSH_PACKET_USED, r2))
           /\ (ends_in_error r1 -> is_server r = true)
           /\ (~ ends_in_error r1 -> peer_kex r1 = own_kex s
               /\ exists hash', in_hashbuf (upper r1) = Some hash'
                    /\ contents hash' = contents hash ++ (if is_server r then no_guess else [])).
Proof.
  intros Hmem Hroles Hns Hnr Hprop Hob Hb Hcb Hu Hst Hw.
  destruct (send_kex_ok packet_send s b c ls Hmem Hns Hprop Hob Hb Hcb Hu)
    as (hash & out & s1 & He & -> & Hout & Hco & _ & Hhash & Hch).
  destruct Hprop as (Hk & Hc & Hlen & Hcs & Hsz).
  exists (set_out_buffers hash out s), out, hash. split_and!; [done|done|done|].
  intros packet Hib Hp Hcp. rewrite Hco in Hcp. injection Hcp as Hcp. rewrite <- app_assoc in Hcp.
  destruct (packet_kexinit_ok connection_callback r packet c ls) as (r1 & He1 & Herr & Hok); [done..|].
  exists r1. split_and!; [done|done|]. intros Hne. destruct (Hok Hne) as (Hpk & h' & Hih & Hch').
  rewrite Hk. split; [done|]. exists h'. split; [done|]. by rewrite Hch', Hch.
Qed.
End MessageFacts.

(** ** The selection *)

Section Selection.
Context `{Allocator} `{BignumLib}.

(** The method RFC 4253 selects in the lists of both ends, and what is kept for the
    languages, where no match is needed. *)
Definition choice (server client : list bytes) (i : nat) : option bytes :=
  first_match (nth i server []) (nth i client []).
Definition kept_choice (server client : list bytes) (i : nat) : option bytes :=
  if (i <? SSH_LANG_C_S)%nat then choice server client i
  else Some (default [] (choice server client i)).

Lemma lookup_some_nth (l : list bytes) i :
  (i < length l)%nat -> map Some l !! i = Some (Some (nth i l [])).
Proof.
  intros Hi. destruct (nth_lookup_or_length l i []) as [Hl|]; [|lia].
  change (map Some l) with (Some <$> l). by rewrite list_lookup_fmap, Hl.
Qed.

Lemma select_loop_ok n k sl cl ms :
  malloc_never_fails -> length sl = (k + n)%nat -> length cl = (k + n)%nat -> length ms = (k + n)%nat ->
  exists ok ms', select_loop (seq k n) (map Some sl) (map Some cl) ms = Some (ok, ms')
    /\ (ok = true <-> forall i, (k <= i < k + n)%nat -> (i < SSH_LANG_C_S)%nat -> choice sl cl i <> None)
    /\ length ms' = (k + n)%nat
    /\ (forall i, (i < k)%nat -> ms' !! i = ms !! i)
    /\ (ok = true -> forall i, (k <= i < k + n)%nat -> ms' !! i = Some (kept_choice sl cl i)).
Proof.
  intros Hm. revert k ms. induction n as [|n IH]; intros k ms Hs Hc Hl; cbn [seq select_loop].
  { exists true, ms. split_and!; [done|split; [intros _ i ?; lia|done]|done|done|intros _ i ?; lia]. }
  rewrite !lookup_some_nth by lia. cbn [mbind option_bind].
  rewrite ssh_find_matching_first by done. fold (choice sl cl k).
  assert (Hrec : forall m, m = kept_choice sl cl k ->
    ((k < SSH_LANG_C_S)%nat -> choice sl cl k <> None) ->
    exists ok ms', select_loop (seq (S k) n) (map Some sl) (map Some cl) (<[k := m]> ms) = Some (ok, ms')
    /\ (ok = true <-> forall i, (k <= i < k + S n)%nat -> (i < SSH_LANG_C_S)%nat -> choice sl cl i <> None)
    /\ length ms' = (k + S n)%nat
    /\ (forall i, (i < k)%nat -> ms' !! i = ms !! i)
    /\ (ok = true -> forall i, (k <= i < k + S n)%nat -> ms' !! i = Some (kept_choice sl cl i))).
  { intros m Hmk Hk. destruct (IH (S k) (<[k := m]> ms)) as (ok & ms' & -> & Hok & Hl' & Hlow & Hsel);
      [lia|lia|rewrite length_insert; lia|].
    assert (Hat : ms' !! k = Some (kept_choice sl cl k)).
    { rewrite Hlow by lia. rewrite list_lookup_insert_eq by lia. congruence. }
    exists ok, ms'. split_and!; [done| |lia| |].
    - rewrite Hok. split; intros Hall i Hi Hi8.
      + destruct (decide (i = k)) as [->|]; [by apply Hk|]. apply Hall; lia.
      + apply Hall; lia.
    - intros i Hi. rewrite Hlow by lia. by rewrite list_lookup_insert_ne by lia.
    - intros Ht i Hi. destruct (decide (i = k)) as [->|]; [done|]. apply Hsel; [done|lia]. }
  destruct (Nat.ltb_spec k SSH_LANG_C_S) as [Hk8|Hk8].
  - rewrite (proj2 (Nat.leb_gt _ _)) by lia. cbn [andb].
    destruct (choice sl cl k) as [t|] eqn:Hch; cbn [some negb andb].
    + apply Hrec; [|done]. unfold kept_choice. by rewrite (proj2 (Nat.ltb_lt _ _)).
    + exists false. eexists. split; [reflexivity|]. split_and!; [|rewrite length_insert; lia| |done].
      * split; [done|]. intros Hall. exfalso. by apply (Hall k); [lia|lia|].
      * intros i Hi. by rewrite list_lookup_insert_ne by lia.
  - rewrite (proj2 (Nat.leb_le _ _)) by lia. rewrite andb_false_r. cbn [andb].
    apply Hrec; [|lia]. unfold kept_choice. rewrite (proj2 (Nat.ltb_ge _ _)) by lia.
    destruct (choice sl cl k) as [t|]; cbn [some negb default from_option id]; [done|].
    unfold strdup. by rewrite alloc_ok by (done || (rewrite zlen_nil; lia)).
Qed.

(** (C28) The client's list of key exchanges ends, for the selection, before [ext-info-c].  From the lists so offered, the
    selection takes for every kind of method the first of the client's that
    the server has, and fails exactly when some kind but the languages has none. *)
Theorem select_methods_correct h sl cl :
  malloc_never_fails ->
  methods (server_kex h) = map Some sl -> methods (client_kex h) = map Some cl ->
  length sl = SSH_KEX_METHODS -> length cl = SSH_KEX_METHODS ->
  length (kex_methods h) = SSH_KEX_METHODS ->
  let offered := <[SSH_KEX := drop_ext_info (nth SSH_KEX cl [])]> cl in
  exists rc h', ssh_kex_select_methods h = Some (rc, h')
    /\ (rc = SSH_OK \/ rc = SSH_ERROR)
    /\ (rc = SSH_OK <-> forall i, (i < SSH_LANG_C_S)%nat -> choice sl offered i <> None)
    /\ (rc = SSH_OK ->
          (forall i, (i < SSH_KEX_METHODS)%nat -> kex_methods h' !! i = Some (kept_choice sl offered i))
          /\ kex_type h' = match kex_type_of (default [] (choice sl offered SSH_KEX)) with
                           | Some t => Some t
                           | None => kex_type h
                           end).
Proof.
  intros Hm Hs Hc Hsl Hcl Hkm offered. unfold ssh_kex_select_methods.
  unfold SSH_KEX_METHODS, SSH_LANG_C_S in *. rewrite Hc.
  rewrite lookup_some_nth by (unfold SSH_KEX; lia). cbn [mjoin option_join mbind option_bind].
  assert (Hof : <[SSH_KEX := Some (drop_ext_info (nth SSH_KEX cl []))]> (map Some cl) = map Some offered).
  { subst offered. change (map Some) with (fmap (M := list) (A := bytes) Some). by rewrite list_fmap_insert. }
  rewrite Hof. cbn [methods client_kex set_client_kex server_kex kex_methods mbind option_bind].
  rewrite Hs.
  destruct (select_loop_ok 10 0 sl offered (kex_methods h)) as (ok & ms & -> & Hok & Hl & _ & Hsel);
    [done|lia|subst offered; rewrite length_insert; lia|lia|].
  cbn [mbind option_bind]. destruct ok; cbn [negb].
  - specialize (Hsel eq_refl). pose proof (proj1 Hok eq_refl) as Hall.
    rewrite (Hsel SSH_KEX) by (unfold SSH_KEX; lia).
    change (kept_choice sl offered SSH_KEX) with (choice sl offered SSH_KEX).
    destruct (choice sl offered SSH_KEX) as [name|] eqn:Hch;
      [|exfalso; apply (Hall SSH_KEX); [unfold SSH_KEX; lia|unfold SSH_KEX, SSH_LANG_C_S; lia|done]].
    cbn [mjoin option_join mbind option_bind]. do 2 eexists. split; [reflexivity|].
    split_and!; [by left| |].
    + split; [|done]. intros _ i Hi. apply Hall; unfold SSH_LANG_C_S; lia.
    + intros _. split; [|done]. intros i Hi. cbn [kex_methods set_selection]. apply Hsel. lia.
  - do 2 eexists. split; [reflexivity|]. split_and!; [by right| |done]. split; [done|].
    intros Hall. destruct Hok as [_ Hok]. discriminate Hok. intros i _ Hi. by apply Hall.
Qed.
End Selection.

(** ** A concrete negotiation *)

Module KexDemo.
Definition client_lists : list bytes := map cstr
  ["curve25519-sha256,diffie-hellman-group14-sha256,ext-info-c"; "rsa-sha2-512,ssh-ed25519"; "aes256-ctr";
   "aes256-ctr"; "hmac-sha2-256"; "hmac-sha2-256"; "none"; "none"; ""; ""]%string.
Definition server_lists : list bytes := map cstr
  ["diffie-hellman-group14-sha256,curve25519-sha256"; "ssh-ed25519,rsa-sha2-512"; "aes128-ctr,aes256-ctr";
   "aes256-ctr"; "hmac-sha2-256"; "hmac-sha2-256"; "none"; "none"; ""; ""]%string.
Definition demo_cookie : bytes := zrep 16 Byte.x2a.

Definition hs (client server : list bytes) : @handshake N_bignum :=
  mk_handshake N_bignum (Some (cstr "SSH-2.0-client")) (Some (cstr "SSH-2.0-server")) None None 0 false
    no_methods (None, None, None, None) (mk_kex demo_cookie (map Some client))
    (mk_kex demo_cookie (map Some server)) no_methods None no_exchange no_keys no_algorithms.

Definition peer (srv : bool) (inb : option ssh_buffer) (h : @handshake N_bignum)
    : session Z (@prng Demo.random) (@handshake N_bignum) :=
  mk_session (mkProto (negb srv) srv 0 SSH_SESSION_STATE_INITIAL_KEX DH_STATE_INIT_SENT
      SSH_CHANNEL_REQ_STATE_NONE SSH_AUTH_SERVICE_NONE SSH_AUTH_STATE_NONE)
    inb (Some zero_buffer) [] PACKET_STATE_PROCESSING (mk_packet 0 0 0) 0 0 None (Some Demo.no_crypto)
    None 0 0 (mk_timestamp 0 0) (mk_timestamp 0 0) zero_buffer tt h.

Definition demo_message : bytes := demo_cookie ++ kex_lists client_lists ++ no_guess.
End KexDemo.

Lemma kexinit_received_as_sent_witness :
  let s := KexDemo.peer false None (KexDemo.hs KexDemo.client_lists KexDemo.server_lists) in
  let r := KexDemo.peer true (Some (Demo.buffer_of KexDemo.demo_message)) (KexDemo.hs [] KexDemo.server_lists) in
  let send := fun x : session Z (@prng Demo.random) (@handshake N_bignum) => Some (0, x) in
  exists s1 out hash,
    @ssh_send_kex calloc_allocator N_bignum Demo.random Z send s (is_server s)
      = ('(rc, s) ← send s1; Some (if rc =? SSH_ERROR then -1 else 0, s))
    /\ out_buffer s1 = Some out /\ out_hashbuf (upper s1) = Some hash
    /\ forall packet, in_buffer r = Some packet -> buffer_wf packet ->
         z2b SSH2_MSG_KEXINIT :: contents packet = contents out ->
         exists r1, @ssh_packet_kexinit calloc_allocator N_bignum Demo.random Z (fun x => Some x) r SSH2_MSG_KEXINIT
             = (if bool_decide (ends_in_error r1) then Some (SSH_PACKET_USED, r1)
                else r2 ← Some r1; Some (SSH_PACKET_USED, r2))
           /\ (ends_in_error r1 -> is_server r = true)
           /\ (~ ends_in_error r1 -> peer_kex r1 = own_kex s
               /\ exists hash', in_hashbuf (upper r1) = Some hash'
                    /\ contents hash' = contents hash ++ (if is_server r then no_guess else [])).
Proof.
  intros s r send.
  apply (@kexinit_received_as_sent calloc_allocator N_bignum Demo.random Z send (fun x => Some x) s r
    zero_buffer KexDemo.demo_cookie KexDemo.client_lists).
  - exact Demo.calloc_succeeds.
  - reflexivity.
  - reflexivity.
  - reflexivity.
  - split_and!; [reflexivity|reflexivity|reflexivity| |vm_compute; reflexivity].
    apply (bool_decide_unpack _). vm_compute. exact I.
  - reflexivity.
  - exact zero_buffer_wf.
  - reflexivity.
  - vm_compute. reflexivity.
  - right. reflexivity.
  - reflexivity.
Defined.

(** The example evaluated: the server keeps the client's lists. *)
Example demo_kexinit :
  option_map (fun r => client_kex (upper (snd r)))
    (@ssh_packet_kexinit calloc_allocator N_bignum Demo.random Z (fun x => Some x)
       (KexDemo.peer true (Some (Demo.buffer_of KexDemo.demo_message)) (KexDemo.hs [] KexDemo.server_lists))
       SSH2_MSG_KEXINIT)
  = Some (mk_kex KexDemo.demo_cookie (map Some KexDemo.client_lists)).
Proof. vm_compute. reflexivity. Qed.

Lemma select_methods_correct_witness :
  let h := KexDemo.hs KexDemo.client_lists KexDemo.server_lists in
  let offered := <[SSH_KEX := drop_ext_info (nth SSH_KEX KexDemo.client_lists [])]> KexDemo.client_lists in
  exists rc h', @ssh_kex_select_methods calloc_allocator N_bignum h = Some (rc, h')
    /\ (rc = SSH_OK \/ rc = SSH_ERROR)
    /\ (rc = SSH_OK <-> forall i, (i < SSH_LANG_C_S)%nat -> choice KexDemo.server_lists offered i <> None)
    /\ (rc = SSH_OK ->
          (forall i, (i < SSH_KEX_METHODS)%nat ->
             kex_methods h' !! i = Some (kept_choice KexDemo.server_lists offered i))
          /\ kex_type h' = match kex_type_of (default [] (choice KexDemo.server_lists offered SSH_KEX)) with
                           | Some t => Some t
                           | None => kex_type h
                           end).
Proof.
  intros h offered.
  apply (@select_methods_correct calloc_allocator N_bignum h KexDemo.server_lists KexDemo.client_lists);
    [|reflexivity..].
  intros ? ?. discriminate.
Defined.

(** The example agrees on the first key exchange of the client. *)
Example demo_selection :
  option_map (fun r => (fst r, kex_type (snd r)))
    (@ssh_kex_select_methods calloc_allocator N_bignum (KexDemo.hs KexDemo.client_lists KexDemo.server_lists))
  = Some (SSH_OK, Some SSH_KEX_CURVE25519_SHA256).
Proof. vm_compute. reflexivity. Qed.

(** [ext-info-c] may stand anywhere in the list of a client (RFC 8308, section
    2.1).  What follows it is dropped as well, so a server refuses a client whose
    only common key exchange comes after it. *)
Theorem select_drops_after_ext_info :
  let client := cstr "curve25519-sha256,ext-info-c,diffie-hellman-group14-sha256" :: drop 1 KexDemo.client_lists in
  let server := cstr "diffie-hellman-group14-sha256" :: drop 1 KexDemo.server_lists in
  first_match (nth SSH_KEX server []) (nth SSH_KEX client []) = Some (cstr "diffie-hellman-group14-sha256")
  /\ exists h', @ssh_kex_select_methods calloc_allocator N_bignum (KexDemo.hs client server) = Some (SSH_ERROR, h').
Proof. split; [vm_compute; reflexivity|]. eexists. vm_compute. reflexivity. Qed.

(** The branch of [ssh_packet_kexinit] that "should never happen": a host key
    name that is a prefix of both signature types enables both, and then neither
    is found in the list. *)
Theorem extensions_never_happens :
  let h := set_wanted (<[SSH_HOSTKEYS := Some (cstr "rsa-sha2-512,rsa-sha2-256,ssh-ed25519")]> no_methods)
    (KexDemo.hs (cstr "curve25519-sha256,ext-info-c" :: cstr "rsa,ssh-ed25519" :: drop 2 KexDemo.client_lists)
       KexDemo.server_lists) in
  exists h', @negotiate_extensions calloc_allocator N_bignum h = Some (false, h').
Proof. eexists. vm_compute. reflexivity. Qed.
