(* ===== verification/Channel.v ===== *)
(** * Channels ([libssh/src/channels.c])

    The multiplexed streams of a session: opening, windows, data in both directions,
    end of file, closing, requests and their answers.  The channels live in a
    heap, [session->channels] lists their addresses, and using a freed channel has
    no result.  The packet layer below is the interface [PacketLayer].  The sockets
    ([poll]) and the callbacks of the application are arguments. *)

From stdpp Require Import gmap.
From S2P Require Import Prelude SshString Buffer Bignum BufferPack SshList Session Misc Crypto Packet.
From S2P Require Import PacketRecv Kex.

Definition WINDOWBASE : Z := 1280000.
Definition WINDOWLIMIT : Z := WINDOWBASE / 2.
Definition CHANNEL_MAX_PACKET : Z := 32768.
Definition CHANNEL_INITIAL_WINDOW : Z := 64000.
Definition SSH2_EXTENDED_DATA_STDERR : Z := 1.
Definition SSH_TIMEOUT_INFINITE : Z := -1.
Definition SSH_TIMEOUT_USER : Z := -2.
Definition SSH_TIMEOUT_DEFAULT : Z := -3.
Definition SSH_TIMEOUT_NONBLOCKING : Z := 0.

(** ** Data *)

Inductive ssh_channel_state_e :=
  | SSH_CHANNEL_STATE_NOT_OPEN
  | SSH_CHANNEL_STATE_OPENING
  | SSH_CHANNEL_STATE_OPEN_DENIED
  | SSH_CHANNEL_STATE_OPEN
  | SSH_CHANNEL_STATE_CLOSED.

#[export] Instance ssh_channel_state_eq : EqDecision ssh_channel_state_e.
Proof. solve_decision. Defined.

Definition SSH_CHANNEL_FLAG_CLOSED_REMOTE : Z := 1.
Definition SSH_CHANNEL_FLAG_CLOSED_LOCAL : Z := 2.
Definition SSH_CHANNEL_FLAG_FREED_LOCAL : Z := 4.
Definition SSH_CHANNEL_FLAG_NOT_BOUND : Z := 8.

Record ssh_channel := mk_channel {
  local_channel : Z;
  local_window : Z;
  local_eof : Z;
  local_maxpacket : Z;
  remote_channel : Z;
  remote_window : Z;
  remote_eof : Z;
  remote_maxpacket : Z;
  ch_state : ssh_channel_state_e;
  delayed_close : Z;
  ch_flags : Z;
  stdout_buffer : option ssh_buffer;
  stderr_buffer : option ssh_buffer;
  exit_status : Z;
  request_state : ssh_channel_request_state_e;
  ch_counter : option ssh_counter;
  released : nat * nat  (** how many buffers of each stream have been freed: a pointer taken before dangles *)
}.

Definition set_local_window (v : Z) (c : ssh_channel) : ssh_channel :=
  mk_channel (local_channel c) v (local_eof c) (local_maxpacket c) (remote_channel c)
    (remote_window c) (remote_eof c) (remote_maxpacket c) (ch_state c) (delayed_close c)
    (ch_flags c) (stdout_buffer c) (stderr_buffer c) (exit_status c) (request_state c)
    (ch_counter c) (released c).
Definition set_local_eof (v : Z) (c : ssh_channel) : ssh_channel :=
  mk_channel (local_channel c) (local_window c) v (local_maxpacket c) (remote_channel c)
    (remote_window c) (remote_eof c) (remote_maxpacket c) (ch_state c) (delayed_close c)
    (ch_flags c) (stdout_buffer c) (stderr_buffer c) (exit_status c) (request_state c)
    (ch_counter c) (released c).
Definition set_remote_window (v : Z) (c : ssh_channel) : ssh_channel :=
  mk_channel (local_channel c) (local_window c) (local_eof c) (local_maxpacket c)
    (remote_channel c) v (remote_eof c) (remote_maxpacket c) (ch_state c) (delayed_close c)
    (ch_flags c) (stdout_buffer c) (stderr_buffer c) (exit_status c) (request_state c)
    (ch_counter c) (released c).
Definition set_remote_eof (v : Z) (c : ssh_channel) : ssh_channel :=
  mk_channel (local_channel c) (local_window c) (local_eof c) (local_maxpacket c)
    (remote_channel c) (remote_window c) v (remote_maxpacket c) (ch_state c) (delayed_close c)
    (ch_flags c) (stdout_buffer c) (stderr_buffer c) (exit_status c) (request_state c)
    (ch_counter c) (released c).
Definition set_ch_state (v : ssh_channel_state_e) (c : ssh_channel) : ssh_channel :=
  mk_channel (local_channel c) (local_window c) (local_eof c) (local_maxpacket c)
    (remote_channel c) (remote_window c) (remote_eof c) (remote_maxpacket c) v (delayed_close c)
    (ch_flags c) (stdout_buffer c) (stderr_buffer c) (exit_status c) (request_state c)
    (ch_counter c) (released c).
Definition set_delayed_close (v : Z) (c : ssh_channel) : ssh_channel :=
  mk_channel (local_channel c) (local_window c) (local_eof c) (local_maxpacket c)
    (remote_channel c) (remote_window c) (remote_eof c) (remote_maxpacket c) (ch_state c) v
    (ch_flags c) (stdout_buffer c) (stderr_buffer c) (exit_status c) (request_state c)
    (ch_counter c) (released c).
Definition set_ch_flags (v : Z) (c : ssh_channel) : ssh_channel :=
  mk_channel (local_channel c) (local_window c) (local_eof c) (local_maxpacket c)
    (remote_channel c) (remote_window c) (remote_eof c) (remote_maxpacket c) (ch_state c)
    (delayed_close c) v (stdout_buffer c) (stderr_buffer c) (exit_status c) (request_state c)
    (ch_counter c) (released c).
Definition set_exit_status (v : Z) (c : ssh_channel) : ssh_channel :=
  mk_channel (local_channel c) (local_window c) (local_eof c) (local_maxpacket c)
    (remote_channel c) (remote_window c) (remote_eof c) (remote_maxpacket c) (ch_state c)
    (delayed_close c) (ch_flags c) (stdout_buffer c) (stderr_buffer c) v (request_state c)
    (ch_counter c) (released c).
Definition set_request_state (v : ssh_channel_request_state_e) (c : ssh_channel) : ssh_channel :=
  mk_channel (local_channel c) (local_window c) (local_eof c) (local_maxpacket c)
    (remote_channel c) (remote_window c) (remote_eof c) (remote_maxpacket c) (ch_state c)
    (delayed_close c) (ch_flags c) (stdout_buffer c) (stderr_buffer c) (exit_status c) v
    (ch_counter c) (released c).
Definition set_ch_counter (v : option ssh_counter) (c : ssh_channel) : ssh_channel :=
  mk_channel (local_channel c) (local_window c) (local_eof c) (local_maxpacket c)
    (remote_channel c) (remote_window c) (remote_eof c) (remote_maxpacket c) (ch_state c)
    (delayed_close c) (ch_flags c) (stdout_buffer c) (stderr_buffer c) (exit_status c)
    (request_state c) v (released c).
Definition set_local (v0 : Z) (v1 : Z) (v2 : Z) (c : ssh_channel) : ssh_channel :=
  mk_channel v0 v1 (local_eof c) v2 (remote_channel c) (remote_window c) (remote_eof c)
    (remote_maxpacket c) (ch_state c) (delayed_close c) (ch_flags c) (stdout_buffer c)
    (stderr_buffer c) (exit_status c) (request_state c) (ch_counter c) (released c).
Definition set_remote (v0 : Z) (v1 : Z) (v2 : Z) (c : ssh_channel) : ssh_channel :=
  mk_channel (local_channel c) (local_window c) (local_eof c) (local_maxpacket c) v0 v1
    (remote_eof c) v2 (ch_state c) (delayed_close c) (ch_flags c) (stdout_buffer c)
    (stderr_buffer c) (exit_status c) (request_state c) (ch_counter c) (released c).
Definition set_std (v0 : option ssh_buffer) (v1 : option ssh_buffer) (c : ssh_channel) : ssh_channel :=
  mk_channel (local_channel c) (local_window c) (local_eof c) (local_maxpacket c)
    (remote_channel c) (remote_window c) (remote_eof c) (remote_maxpacket c) (ch_state c)
    (delayed_close c) (ch_flags c) v0 v1 (exit_status c) (request_state c) (ch_counter c) (released c).

Definition has_flag (c : ssh_channel) (flag : Z) : bool := negb (Z.land (ch_flags c) flag =? 0).
Definition add_flag (flag : Z) (c : ssh_channel) : ssh_channel := set_ch_flags (Z.lor (ch_flags c) flag) c.
Definition del_flag (flag : Z) (c : ssh_channel) : ssh_channel := set_ch_flags (Z.ldiff (ch_flags c) flag) c.

(** [is_stderr ? channel->stderr_buffer : channel->stdout_buffer] *)
Definition stream (is_stderr : bool) (c : ssh_channel) : option ssh_buffer :=
  if is_stderr then stderr_buffer c else stdout_buffer c.
Definition set_stream (is_stderr : bool) (b : option ssh_buffer) (c : ssh_channel) : ssh_channel :=
  if is_stderr then set_std (stdout_buffer c) b c else set_std b (stderr_buffer c) c.

(** The buffer of a stream is freed. *)
Definition free_stream (is_stderr : bool) (c : ssh_channel) : ssh_channel :=
  let c := set_stream is_stderr None c in
  mk_channel (local_channel c) (local_window c) (local_eof c) (local_maxpacket c)
    (remote_channel c) (remote_window c) (remote_eof c) (remote_maxpacket c) (ch_state c)
    (delayed_close c) (ch_flags c) (stdout_buffer c) (stderr_buffer c) (exit_status c) (request_state c) (ch_counter c)
    (if is_stderr then ((released c).1, S (released c).2) else (S (released c).1, (released c).2)).

(** A pointer to the buffer of a stream that is kept while packets are handled, and
    the buffer behind it, which may have been freed. *)
Definition stdbuf (is_stderr : bool) (c : ssh_channel) : nat := if is_stderr then (released c).2 else (released c).1.
Definition pointed (is_stderr : bool) (p : nat) (c : ssh_channel) : run ssh_buffer :=
  if bool_decide (p = stdbuf is_stderr c) then stream is_stderr c else None.

(** What the channels need of the layers below. *)
Class PacketLayer (L : Type) := {
  pl_proto : L -> proto;
  pl_set_proto : proto -> L -> L;
  pl_alive : L -> bool;                        (* [session->alive] *)
  pl_in : L -> option ssh_buffer;              (* [session->in_buffer]: the [packet] of a handler *)
  pl_set_in : option ssh_buffer -> L -> L;
  pl_out : L -> option ssh_buffer;             (* [session->out_buffer] *)
  pl_set_out : option ssh_buffer -> L -> L;
  pl_now : L -> ssh_timestamp;                 (* the clock *)
  pl_buffered : L -> Z;                        (* [ssh_socket_buffered_write_bytes] *)
  pl_send : L -> run (Z * L)                   (* [ssh_packet_send] *)
}.

Record csession {L : Type} := mk_cs {
  base : L;
  heap : gmap positive ssh_channel;
  channels : option (list positive);     (* [session->channels], as the list it represents *)
  maxchannel : Z;
  opts_timeout : Z;
  opts_timeout_usec : Z
}.
Arguments csession : clear implicits.
Arguments mk_cs {L}.

(** The functions the application registered for a channel. *)
Record ssh_channel_callbacks {L : Type} := mk_ccb {
  channel_data_function :
    option (csession L -> positive -> option bytes -> Z -> bool -> run (Z * csession L));
  channel_eof_function : option (csession L -> positive -> run (csession L));
  channel_close_function : option (csession L -> positive -> run (csession L));
  channel_signal_function : option (csession L -> positive -> bytes -> run (csession L));
  channel_exit_status_function : option (csession L -> positive -> Z -> run (csession L));
  channel_exit_signal_function :
    option (csession L -> positive -> bytes -> Z -> bytes -> bytes -> run (csession L));
  channel_auth_agent_req_function : option (csession L -> positive -> run (csession L))
}.
Arguments ssh_channel_callbacks : clear implicits.
Arguments mk_ccb {L}.

Section Channels.
Context `{Allocator} `{BignumLib} {L : Type} `{PacketLayer L}.
#[local] Abbreviation cs := (csession L).
Implicit Type s : cs.

Definition set_base (v : L) s : cs :=
  mk_cs v (heap s) (channels s) (maxchannel s) (opts_timeout s) (opts_timeout_usec s).
Definition set_heap (v : gmap positive ssh_channel) s : cs :=
  mk_cs (base s) v (channels s) (maxchannel s) (opts_timeout s) (opts_timeout_usec s).
Definition set_channels (v : option (list positive)) s : cs :=
  mk_cs (base s) (heap s) v (maxchannel s) (opts_timeout s) (opts_timeout_usec s).
Definition set_maxchannel (v : Z) s : cs :=
  mk_cs (base s) (heap s) (channels s) v (opts_timeout s) (opts_timeout_usec s).

(** A write through a channel pointer. *)
Definition upd_channel (a : positive) (f : ssh_channel -> ssh_channel) s : run cs :=
  c ← heap s !! a; Some (set_heap (<[a := f c]> (heap s)) s).

Definition session_state_of s : ssh_session_state_e := session_state (pl_proto (base s)).
Definition in_error s : bool := bool_decide (session_state_of s = SSH_SESSION_STATE_ERROR).
Definition set_state_error s : cs :=
  set_base (pl_set_proto (set_session_state SSH_SESSION_STATE_ERROR (pl_proto (base s))) (base s)) s.

(** [ssh_buffer_pack (session->out_buffer, ...)] *)
Definition pack s (format : string) (args : list va) : run (Z * cs) :=
  b ← pl_out (base s);
  '(rc, b) ← ssh_buffer_pack b (cstr format) args;
  Some (rc, set_base (pl_set_out (Some b) (base s)) s).

(** [ssh_buffer_unpack (packet, ...)] *)
Definition unpack s (format : string) (args : list ua) : run (Z * list slot * cs) :=
  b ← pl_in (base s);
  '(rc, os, _, b) ← ssh_buffer_unpack b (cstr format) args;
  Some (rc, os, set_base (pl_set_in (Some b) (base s)) s).

(** An integer variable after the call: it keeps [old] unless it was written. *)
Definition int_slot (os : list slot) (i : nat) (old : Z) : Z :=
  match os !! i with Some (SlotInt (Some z)) => z | _ => old end.

(** The text a character pointer designates. *)
Definition cstr_slot (os : list slot) (i : nat) : run bytes :=
  match os !! i with Some (SlotCstr (Some p)) => text_of p | _ => None end.

Definition ssh_packet_send s : run (Z * cs) :=
  '(rc, b) ← pl_send (base s); Some (rc, set_base b s).

(** [ssh_buffer_reinit (session->out_buffer)]: at the [error] labels. *)
Definition reinit_out s : run cs :=
  '(_, b) ← ssh_buffer_reinit (pl_out (base s)); Some (set_base (pl_set_out b (base s)) s).

(** ** Waiting ([libssh/src/session.c]) *)

(** [ssh_poll_ctx_dopoll]: the sockets, and through their callbacks the packets
    that arrive. *)
Variable poll : cs -> Z -> run (Z * cs).
(** The number of polls after which a call is considered to be waiting still. *)
Variable wait_fuel : nat.

Definition ssh_is_blocking s : bool :=
  negb (Z.land (flags (pl_proto (base s))) SSH_SESSION_FLAG_BLOCKING =? 0).

Definition ssh_set_blocking (blocking : bool) s : cs :=
  let f := Z.ldiff (flags (pl_proto (base s))) SSH_SESSION_FLAG_BLOCKING in
  let f := Z.lor f (if blocking then SSH_SESSION_FLAG_BLOCKING else 0) in
  set_base (pl_set_proto (set_flags f (pl_proto (base s))) (base s)) s.

Definition ssh_handle_packets s (timeout : Z) : run (Z * cs) :=
  let tm := if timeout =? SSH_TIMEOUT_USER then
              if ssh_is_blocking s then ssh_make_milliseconds (opts_timeout s) (opts_timeout_usec s) else 0
            else timeout in
  '(rc, s) ← poll s tm;
  Some (rc, if rc =? SSH_ERROR then set_state_error s else s).

(** The loop over a termination function; [ts] is read when it began. *)
Fixpoint wait_loop (fuel : nat) (fct : cs -> run bool) (ts : ssh_timestamp) (timeout_ms tm ret : Z) s
    : run (Z * cs) :=
  match fuel with
  | O => None
  | S fuel =>
      stop ← fct s;
      if (stop : bool) then Some (ret, s) else
      '(ret, s) ← ssh_handle_packets s tm;
      if ret =? SSH_ERROR then Some (ret, s) else
      if ssh_timeout_elapsed ts (pl_now (base s)) timeout_ms then
        stop ← fct s; Some (if (stop : bool) then SSH_OK else SSH_AGAIN, s)
      else wait_loop fuel fct ts timeout_ms (ssh_timeout_update ts (pl_now (base s)) timeout_ms) ret s
  end.

Definition ssh_handle_packets_termination s (timeout : Z) (fct : cs -> run bool) : run (Z * cs) :=
  let timeout_ms :=
    if 0 <=? timeout then timeout
    else if ssh_is_blocking s then
      if ((timeout =? SSH_TIMEOUT_USER) || (timeout =? SSH_TIMEOUT_DEFAULT))
         && ((0 <? opts_timeout s) || (0 <? opts_timeout_usec s))
      then ssh_make_milliseconds (opts_timeout s) (opts_timeout_usec s) else SSH_TIMEOUT_INFINITE
    else SSH_TIMEOUT_NONBLOCKING in
  wait_loop wait_fuel fct (pl_now (base s)) timeout_ms timeout_ms SSH_OK s.

Definition ssh_flush_termination s : bool := (pl_buffered (base s) =? 0) || in_error s.

Definition ssh_blocking_flush s (timeout : Z) : run (Z * cs) :=
  '(rc, s) ← ssh_handle_packets_termination s timeout (fun s => Some (ssh_flush_termination s));
  if rc =? SSH_ERROR then Some (rc, s) else
  Some (if ssh_flush_termination s then rc else SSH_AGAIN, s).

(** ** Creation and lookup *)

Definition sizeof_channel : Z := 104.

Definition ssh_channel_new s : run (option positive * cs) :=
  if negb (flag_authenticated (pl_proto (base s))) then Some (None, s) else
  if negb (some (malloc sizeof_channel)) then Some (None, s) else
  out ← ssh_buffer_new;
  match out with
  | None => Some (None, s)
  | Some out =>
      err ← ssh_buffer_new;
      match err with
      | None => _ ← ssh_buffer_free (Some out); Some (None, s)
      | Some err =>
          let a := fresh (dom (heap s)) in
          let channel := mk_channel 0 0 0 0 0 0 0 0 SSH_CHANNEL_STATE_NOT_OPEN 0 SSH_CHANNEL_FLAG_NOT_BOUND
                           (Some out) (Some err) (-1) SSH_CHANNEL_REQ_STATE_NONE None (0, 0)%nat in
          let list := match channels s with
                      | Some l => Some l
                      | None => match malloc sizeof_list with Some _ => Some [] | None => None end
                      end in
          Some (Some a, set_channels (option_map (fun l => (seq_step l (Prepend a)).2) list)
                          (set_heap (<[a := channel]> (heap s)) s))
      end
  end.

Definition ssh_channel_new_id s : Z * cs :=
  let id := u32 (maxchannel s + 1) in (id, set_maxchannel id s).

(** The walk over [session->channels]; every address in it is dereferenced. *)
Fixpoint from_local_loop (h : gmap positive ssh_channel) (l : list positive) (id : Z) : run (option positive) :=
  match l with
  | [] => Some None
  | a :: l => c ← h !! a; if local_channel c =? id then Some (Some a) else from_local_loop h l id
  end.

Definition ssh_channel_from_local s (id : Z) : run (option positive) :=
  from_local_loop (heap s) (default [] (channels s)) id.

Definition channel_from_msg s : run (option positive * cs) :=
  '(rc, os, s) ← unpack s "d" [UPtr];
  if negb (rc =? SSH_OK) then Some (None, s) else
  channel ← ssh_channel_from_local s (int_slot os 0 0); Some (channel, s).

(** ** Opening *)

(** The [&channel->remote_channel], ... of [ssh_buffer_unpack] are written as the
    values are read, also when a later one is missing. *)
Definition ssh_packet_channel_open_conf s (type : Z) : run (Z * cs) :=
  '(rc, os, s) ← unpack s "d" [UPtr];
  if negb (rc =? SSH_OK) then Some (SSH_PACKET_USED, s) else
  channel ← ssh_channel_from_local s (int_slot os 0 0);
  match channel with
  | None => Some (SSH_PACKET_USED, s)
  | Some a =>
      '(rc, os, s) ← unpack s "ddd" [UPtr; UPtr; UPtr];
      s ← upd_channel a (fun c => set_remote (int_slot os 0 (remote_channel c))
              (int_slot os 1 (remote_window c)) (int_slot os 2 (remote_maxpacket c)) c) s;
      if negb (rc =? SSH_OK) then Some (SSH_PACKET_USED, s) else
      c ← heap s !! a;
      if negb (bool_decide (ch_state c = SSH_CHANNEL_STATE_OPENING)) then Some (SSH_PACKET_USED, s) else
      s ← upd_channel a (fun c => del_flag SSH_CHANNEL_FLAG_NOT_BOUND (set_ch_state SSH_CHANNEL_STATE_OPEN c)) s;
      Some (SSH_PACKET_USED, s)
  end.

Definition ssh_packet_channel_open_fail s (type : Z) : run (Z * cs) :=
  '(channel, s) ← channel_from_msg s;
  match channel with
  | None => Some (SSH_PACKET_USED, s)
  | Some a =>
      '(rc, os, s) ← unpack s "ds" [UPtr; UPtr];
      if negb (rc =? SSH_OK) then Some (SSH_PACKET_USED, s) else
      c ← heap s !! a;
      if negb (bool_decide (ch_state c = SSH_CHANNEL_STATE_OPENING)) then Some (SSH_PACKET_USED, s) else
      s ← upd_channel a (set_ch_state SSH_CHANNEL_STATE_OPEN_DENIED) s;
      Some (SSH_PACKET_USED, s)
  end.

Definition ssh_channel_open_termination (a : positive) s : run bool :=
  c ← heap s !! a; Some (negb (bool_decide (ch_state c = SSH_CHANNEL_STATE_OPENING)) || in_error s).

(** The labels [pending] and [end]; [err] is its value there. *)
Definition open_end (a : positive) (err : Z) s : run (Z * cs) :=
  c ← heap s !! a;
  Some (if bool_decide (ch_state c = SSH_CHANNEL_STATE_OPEN) then SSH_OK
        else if negb (err =? SSH_AGAIN) then SSH_ERROR else err, s).

Definition open_pending (a : positive) s : run (Z * cs) :=
  '(err, s) ← ssh_handle_packets_termination s SSH_TIMEOUT_DEFAULT (ssh_channel_open_termination a);
  open_end a (if in_error s then SSH_ERROR else err) s.

Definition channel_open (a : positive) s (type : bytes) (window maxpacket : Z) (payload : option ssh_buffer)
    : run (Z * cs) :=
  c ← heap s !! a;
  match ch_state c with
  | SSH_CHANNEL_STATE_OPENING => open_pending a s
  | SSH_CHANNEL_STATE_OPEN | SSH_CHANNEL_STATE_CLOSED | SSH_CHANNEL_STATE_OPEN_DENIED => open_end a SSH_ERROR s
  | SSH_CHANNEL_STATE_NOT_OPEN =>
      let '(id, s) := ssh_channel_new_id s in
      s ← upd_channel a (set_local id window maxpacket) s;
      '(rc, s) ← pack s "bsddd" [VInt SSH2_MSG_CHANNEL_OPEN; VCstr type; VInt id; VInt window; VInt maxpacket];
      if negb (rc =? SSH_OK) then Some (SSH_ERROR, s) else
      '(rc, s) ← match payload with
                 | None => Some (0, s)
                 | Some p => b ← pl_out (base s); '(rc, b) ← ssh_buffer_add_buffer b p;
                             Some (rc, set_base (pl_set_out (Some b) (base s)) s)
                 end;
      if rc <? 0 then Some (SSH_ERROR, s) else
      s ← upd_channel a (set_ch_state SSH_CHANNEL_STATE_OPENING) s;
      '(rc, s) ← ssh_packet_send s;
      if rc =? SSH_ERROR then Some (SSH_ERROR, s) else open_pending a s
  end.

Definition ssh_channel_open_session (channel : option positive) s : run (Z * cs) :=
  match channel with
  | None => Some (SSH_ERROR, s)
  | Some a => channel_open a s (cstr "session") CHANNEL_INITIAL_WINDOW CHANNEL_MAX_PACKET None
  end.

Definition ssh_channel_open_auth_agent (channel : option positive) s : run (Z * cs) :=
  match channel with
  | None => Some (SSH_ERROR, s)
  | Some a => channel_open a s (cstr "auth-agent@openssh.com") CHANNEL_INITIAL_WINDOW CHANNEL_MAX_PACKET None
  end.

(** [buffer = ssh_buffer_new ()], [ssh_buffer_pack (buffer, ...)], what follows, and
    [SSH_BUFFER_FREE] at the label [error]. *)
Definition with_payload s (format : string) (args : list va)
    (k : option ssh_buffer -> cs -> run (Z * cs)) : run (Z * cs) :=
  b ← ssh_buffer_new;
  match b with
  | None => Some (SSH_ERROR, s)
  | Some b =>
      '(rc, b) ← ssh_buffer_pack b (cstr format) args;
      r ← (if negb (rc =? SSH_OK) then Some (rc, s) else k (Some b) s);
      _ ← ssh_buffer_free (Some b);
      Some r
  end.

Definition ssh_channel_open_forward (channel : option positive) (remotehost : option bytes) (remoteport : Z)
    (sourcehost : option bytes) (localport : Z) s : run (Z * cs) :=
  match channel, remotehost, sourcehost with
  | Some a, Some remotehost, Some sourcehost =>
      with_payload s "sdsd" [VCstr remotehost; VInt remoteport; VCstr sourcehost; VInt localport]
        (fun payload s => channel_open a s (cstr "direct-tcpip") CHANNEL_INITIAL_WINDOW CHANNEL_MAX_PACKET payload)
  | _, _, _ => Some (SSH_ERROR, s)
  end.

(** [openssh]: what [ssh_get_openssh_version] reads from the banner of the peer. *)
Definition ssh_channel_open_forward_unix (openssh : Z) (channel : option positive) (remotepath : option bytes)
    (sourcehost : option bytes) (localport : Z) s : run (Z * cs) :=
  match channel with
  | None => Some (SSH_ERROR, s)
  | Some a =>
      if openssh =? 0 then Some (SSH_ERROR, s) else
      match remotepath, sourcehost with
      | Some remotepath, Some sourcehost =>
          with_payload s "ssd" [VCstr remotepath; VCstr sourcehost; VInt localport]
            (fun payload s => channel_open a s (cstr "direct-streamlocal@openssh.com")
                                CHANNEL_INITIAL_WINDOW CHANNEL_MAX_PACKET payload)
      | _, _ => Some (SSH_ERROR, s)
      end
  end.

(** The openings of the server side: the payload is made for the first call only. *)
Definition open_server (a : positive) (type : string) (format : string) (args : list va) s : run (Z * cs) :=
  c ← heap s !! a;
  let open payload s := channel_open a s (cstr type) CHANNEL_INITIAL_WINDOW CHANNEL_MAX_PACKET payload in
  if negb (bool_decide (ch_state c = SSH_CHANNEL_STATE_NOT_OPEN)) then open None s
  else with_payload s format args open.

Definition ssh_channel_open_reverse_forward (channel : option positive) (remotehost : option bytes) (remoteport : Z)
    (sourcehost : option bytes) (localport : Z) s : run (Z * cs) :=
  match channel, remotehost, sourcehost with
  | Some a, Some remotehost, Some sourcehost =>
      open_server a "forwarded-tcpip" "sdsd" [VCstr remotehost; VInt remoteport; VCstr sourcehost; VInt localport] s
  | _, _, _ => Some (SSH_ERROR, s)
  end.

Definition ssh_channel_open_x11 (channel : option positive) (orig_addr : option bytes) (orig_port : Z) s : run (Z * cs) :=
  match channel, orig_addr with
  | Some a, Some orig_addr => open_server a "x11" "sd" [VCstr orig_addr; VInt orig_port] s
  | _, _ => Some (SSH_ERROR, s)
  end.

(** ** Windows and data *)

Definition grow_window s (a : positive) (minimumsize : Z) : run (Z * cs) :=
  let new_window := if WINDOWBASE <? minimumsize then minimumsize else WINDOWBASE in
  c ← heap s !! a;
  if new_window <=? local_window c then Some (SSH_OK, s) else
  let error s := s ← reinit_out s; Some (SSH_ERROR, s) in
  '(rc, s) ← pack s "bdd" [VInt SSH2_MSG_CHANNEL_WINDOW_ADJUST; VInt (remote_channel c);
                           VInt (u32 (new_window - local_window c))];
  if negb (rc =? SSH_OK) then error s else
  '(rc, s) ← ssh_packet_send s;
  if rc =? SSH_ERROR then error s else
  s ← upd_channel a (set_local_window new_window) s;
  Some (SSH_OK, s).

Definition channel_rcv_change_window s (type : Z) : run (Z * cs) :=
  '(channel, s) ← channel_from_msg s;
  '(rc, os, s) ← unpack s "d" [UPtr];
  match channel with
  | None => Some (SSH_PACKET_USED, s)
  | Some a =>
      if negb (rc =? SSH_OK) then Some (SSH_PACKET_USED, s) else
      s ← upd_channel a (fun c => set_remote_window (u32 (remote_window c + int_slot os 0 0)) c) s;
      Some (SSH_PACKET_USED, s)
  end.

Definition channel_default_bufferize s (channel : option positive) (data : option bytes) (len : Z) (is_stderr : bool)
    : run (Z * cs) :=
  match channel, data with
  | Some a, Some data =>
      c ← heap s !! a;
      buffer ← match stream is_stderr c with Some b => Some (Some b) | None => ssh_buffer_new end;
      match buffer with
      | None => Some (-1, s)
      | Some b =>
          '(rc, b) ← ssh_buffer_add_data (Some b) (Some data) len;
          if rc <? 0 then
            _ ← ssh_buffer_free b;
            s ← upd_channel a (free_stream is_stderr) s; Some (-1, s)
          else s ← upd_channel a (set_stream is_stderr b) s; Some (0, s)
      end
  | _, _ => Some (-1, s)
  end.

(** The callbacks registered for a channel, in order.  A callback may use the
    session; when it frees the channel, its list of callbacks is freed with it. *)
Variable channel_callbacks : cs -> positive -> list (ssh_channel_callbacks L).

Definition count_in (n : Z) (c : ssh_channel) : ssh_channel :=
  set_ch_counter (option_map (fun k => mk_counter (u64 (in_bytes k + n)) (out_bytes k) (in_packets k) (out_packets k))
    (ch_counter c)) c.
Definition count_out (n : Z) (c : ssh_channel) : ssh_channel :=
  set_ch_counter (option_map (fun k => mk_counter (in_bytes k) (u64 (out_bytes k + n)) (in_packets k) (out_packets k))
    (ch_counter c)) c.

(** [ssh_buffer_pass_bytes (buf, n)] *)
Definition pass_stream (a : positive) (is_stderr : bool) (n : Z) s : run cs :=
  c ← heap s !! a;
  b ← stream is_stderr c;
  upd_channel a (set_stream is_stderr (Some (ssh_buffer_pass_bytes b n).2)) s.

(** The loop that offers the data to the callbacks. *)
Fixpoint data_callbacks (cbs : list (ssh_channel_callbacks L)) (a : positive) (is_stderr : bool) s : run cs :=
  match cbs with
  | [] => Some s
  | cb :: cbs =>
      match channel_data_function cb with
      | None => data_callbacks cbs a is_stderr s
      | Some f =>
          c ← heap s !! a;
          buf ← stream is_stderr c;
          match ssh_buffer_get buf with
          | None => Some s
          | Some data =>
              '(rest, s) ← f s a (Some data) (ssh_buffer_get_len buf) is_stderr;
              s ← (if 0 <? rest then
                     s ← upd_channel a (count_in rest) s; pass_stream a is_stderr (u32 rest) s
                   else _ ← heap s !! a; Some s);
              data_callbacks cbs a is_stderr s
          end
      end
  end.

Definition take_window (len : Z) (c : ssh_channel) : ssh_channel :=
  set_local_window (if len <=? local_window c then local_window c - len else 0) c.

Definition channel_rcv_data s (type : Z) : run (Z * cs) :=
  let is_stderr := negb (type =? SSH2_MSG_CHANNEL_DATA) in
  '(channel, s) ← channel_from_msg s;
  match channel with
  | None => Some (SSH_PACKET_USED, s)
  | Some a =>
      packet ← pl_in (base s);
      '(_, _, packet) ← (if is_stderr then ssh_buffer_get_u32 packet else Some (0, None, packet));
      '(str, packet) ← ssh_buffer_get_ssh_string packet;
      let s := set_base (pl_set_in (Some packet) (base s)) s in
      match str with
      | None => Some (SSH_PACKET_USED, s)
      | Some str =>
          let len := ssh_string_len (Some str) in
          '(rc, s) ← channel_default_bufferize s (Some a) (ssh_string_data (Some str)) len is_stderr;
          if rc <? 0 then Some (SSH_PACKET_USED, s) else
          s ← upd_channel a (take_window len) s;
          s ← data_callbacks (channel_callbacks s a) a is_stderr s;
          c ← heap s !! a;
          buf ← stream is_stderr c;
          if u32 (local_window c + ssh_buffer_get_len buf) <? WINDOWLIMIT then
            '(rc, s) ← grow_window s a 0;
            if rc <? 0 then Some (-1, s) else Some (SSH_PACKET_USED, s)
          else Some (SSH_PACKET_USED, s)
      end
  end.

(** ** End of file and closing, received *)

(** [ssh_callbacks_execute_list]: the results are ignored; the list goes with the
    channel. *)
Fixpoint execute_list (cbs : list (option (cs -> run cs))) (a : positive) s : run cs :=
  match cbs with
  | [] => Some s
  | None :: cbs => execute_list cbs a s
  | Some f :: cbs => s ← f s; _ ← heap s !! a; execute_list cbs a s
  end.

(** The member [f] of every registered structure, applied to the channel. *)
Definition execute {F} (f : ssh_channel_callbacks L -> option F) (call : F -> cs -> run cs) (a : positive) s : run cs :=
  execute_list (map (fun cb => option_map call (f cb)) (channel_callbacks s a)) a s.

Definition channel_rcv_eof s (type : Z) : run (Z * cs) :=
  '(channel, s) ← channel_from_msg s;
  match channel with
  | None => Some (SSH_PACKET_USED, s)
  | Some a =>
      s ← upd_channel a (set_remote_eof 1) s;
      s ← execute channel_eof_function (fun f s => f s a) a s;
      Some (SSH_PACKET_USED, s)
  end.

Definition has_data (b : option ssh_buffer) : bool :=
  match b with Some b => 0 <? ssh_buffer_get_len b | None => false end.

Definition list_remove (a : positive) s : cs :=
  set_channels (option_map (fun l => (seq_step l (Remove a)).2) (channels s)) s.

Definition ssh_channel_do_free (a : positive) s : run cs :=
  c ← heap s !! a;
  let s := list_remove a s in
  _ ← ssh_buffer_free (stdout_buffer c);
  _ ← ssh_buffer_free (stderr_buffer c);
  Some (set_heap (delete a (heap s)) s).

Definition channel_rcv_close s (type : Z) : run (Z * cs) :=
  '(channel, s) ← channel_from_msg s;
  match channel with
  | None => Some (SSH_PACKET_USED, s)
  | Some a =>
      s ← upd_channel a (fun c => set_remote_eof 1
              (if has_data (stdout_buffer c) || has_data (stderr_buffer c) then set_delayed_close 1 c
               else set_ch_state SSH_CHANNEL_STATE_CLOSED c)) s;
      s ← execute channel_close_function (fun f s => f s a) a s;
      s ← upd_channel a (add_flag SSH_CHANNEL_FLAG_CLOSED_REMOTE) s;
      c ← heap s !! a;
      s ← (if has_flag c SSH_CHANNEL_FLAG_FREED_LOCAL then ssh_channel_do_free a s else Some s);
      Some (SSH_PACKET_USED, s)
  end.

(** ** Requests of the peer *)

(** [ssh_message_handle_channel_request] ([libssh/src/messages.c]) queues the
    request for the application of a server. *)
Variable ssh_message_handle_channel_request : cs -> positive -> bytes -> Z -> run cs.

Definition rcv_exit_status (a : positive) s : run (Z * cs) :=
  '(rc, os, s) ← unpack s "d" [UPtr];
  s ← upd_channel a (fun c => set_exit_status (s32 (int_slot os 0 (exit_status c))) c) s;
  if negb (rc =? SSH_OK) then Some (SSH_PACKET_USED, s) else
  c ← heap s !! a;
  s ← execute channel_exit_status_function (fun f s => f s a (exit_status c)) a s;
  Some (SSH_PACKET_USED, s).

Definition rcv_signal (a : positive) s : run (Z * cs) :=
  '(rc, os, s) ← unpack s "s" [UPtr];
  if negb (rc =? SSH_OK) then Some (SSH_PACKET_USED, s) else
  sig ← cstr_slot os 0;
  s ← execute channel_signal_function (fun f s => f s a sig) a s;
  Some (SSH_PACKET_USED, s).

Definition rcv_exit_signal (a : positive) s : run (Z * cs) :=
  '(rc, os, s) ← unpack s "sbss" [UPtr; UPtr; UPtr; UPtr];
  if negb (rc =? SSH_OK) then Some (SSH_PACKET_USED, s) else
  sig ← cstr_slot os 0; errmsg ← cstr_slot os 2; lang ← cstr_slot os 3;
  s ← execute channel_exit_signal_function (fun f s => f s a sig (int_slot os 1 0) errmsg lang) a s;
  Some (SSH_PACKET_USED, s).

Definition rcv_keepalive (a : positive) s : run (Z * cs) :=
  c ← heap s !! a;
  '(rc, s) ← pack s "bd" [VInt SSH2_MSG_CHANNEL_FAILURE; VInt (remote_channel c)];
  if negb (rc =? SSH_OK) then Some (SSH_PACKET_USED, s) else
  '(_, s) ← ssh_packet_send s; Some (SSH_PACKET_USED, s).

Definition channel_rcv_request s (type : Z) : run (Z * cs) :=
  '(channel, s) ← channel_from_msg s;
  match channel with
  | None => Some (SSH_PACKET_USED, s)
  | Some a =>
      '(rc, os, s) ← unpack s "sb" [UPtr; UPtr];
      if negb (rc =? SSH_OK) then Some (SSH_PACKET_USED, s) else
      request ← cstr_slot os 0;
      let req (name : string) := bool_decide (request = cstr name) in
      if req "exit-status" then rcv_exit_status a s else
      if req "signal" then rcv_signal a s else
      if req "exit-signal" then rcv_exit_signal a s else
      if req "keepalive@openssh.com" then rcv_keepalive a s else
      if req "auth-agent-req@openssh.com" then
        s ← execute channel_auth_agent_req_function (fun f s => f s a) a s; Some (SSH_PACKET_USED, s)
      else
        s ← ssh_message_handle_channel_request s a request (int_slot os 1 0); Some (SSH_PACKET_USED, s)
  end.

(** ** End of file and closing, sent *)

Definition ssh_channel_flush s : run (Z * cs) := ssh_blocking_flush s SSH_TIMEOUT_DEFAULT.

Definition ssh_channel_send_eof (channel : option positive) s : run (Z * cs) :=
  match channel with
  | None => Some (SSH_ERROR, s)
  | Some a =>
      c ← heap s !! a;
      if negb (local_eof c =? 0) then Some (SSH_OK, s) else
      let error rc s := s ← reinit_out s; Some (rc, s) in
      '(err, s) ← pack s "bd" [VInt SSH2_MSG_CHANNEL_EOF; VInt (remote_channel c)];
      if negb (err =? SSH_OK) then error SSH_ERROR s else
      '(rc, s) ← ssh_packet_send s;
      if negb (rc =? SSH_OK) then error rc s else
      '(rc, s) ← ssh_channel_flush s;
      if rc =? SSH_ERROR then error rc s else
      s ← upd_channel a (set_local_eof 1) s;
      Some (rc, s)
  end.

Definition ssh_channel_close (channel : option positive) s : run (Z * cs) :=
  match channel with
  | None => Some (SSH_ERROR, s)
  | Some a =>
      c ← heap s !! a;
      if has_flag c SSH_CHANNEL_FLAG_CLOSED_LOCAL then Some (SSH_OK, s) else
      '(rc, s) ← ssh_channel_send_eof (Some a) s;
      if negb (rc =? SSH_OK) then Some (rc, s) else
      let error rc s := s ← reinit_out s; Some (rc, s) in
      c ← heap s !! a;
      '(rc, s) ← pack s "bd" [VInt SSH2_MSG_CHANNEL_CLOSE; VInt (remote_channel c)];
      if negb (rc =? SSH_OK) then error rc s else
      '(rc, s) ← ssh_packet_send s;
      s ← (if rc =? SSH_OK
           then upd_channel a (fun c => add_flag SSH_CHANNEL_FLAG_CLOSED_LOCAL (set_ch_state SSH_CHANNEL_STATE_CLOSED c)) s
           else Some s);
      '(rc, s) ← ssh_channel_flush s;
      if rc =? SSH_ERROR then error rc s else Some (rc, s)
  end.

(** Whether [ssh_channel_free] still has to tell the peer. *)
Definition sends_close (c : ssh_channel) : bool :=
  match ch_state c with
  | SSH_CHANNEL_STATE_OPEN => true
  | SSH_CHANNEL_STATE_CLOSED =>
      has_flag c SSH_CHANNEL_FLAG_CLOSED_REMOTE && negb (has_flag c SSH_CHANNEL_FLAG_CLOSED_LOCAL)
  | _ => false
  end.

Definition ssh_channel_free (channel : option positive) s : run cs :=
  match channel with
  | None => Some s
  | Some a =>
      c ← heap s !! a;
      s ← (if pl_alive (base s) && sends_close c then '(_, s) ← ssh_channel_close (Some a) s; Some s else Some s);
      s ← upd_channel a (add_flag SSH_CHANNEL_FLAG_FREED_LOCAL) s;
      c ← heap s !! a;
      if has_flag c SSH_CHANNEL_FLAG_CLOSED_REMOTE || has_flag c SSH_CHANNEL_FLAG_NOT_BOUND
      then ssh_channel_do_free a s else Some s
  end.

(** ** Writing *)

Definition ssh_channel_waitwindow_termination (a : positive) s : run bool :=
  c ← heap s !! a;
  Some ((0 <? remote_window c) || in_error s || bool_decide (ch_state c = SSH_CHANNEL_STATE_CLOSED)).

Definition ssh_waitsession_unblocked s : bool :=
  match session_state_of s with
  | SSH_SESSION_STATE_DH | SSH_SESSION_STATE_INITIAL_KEX | SSH_SESSION_STATE_KEXINIT_RECEIVED => false
  | _ => true
  end.

(** The message of one chunk, in the three calls of the code. *)
Definition pack_chunk (a : positive) (is_stderr : bool) (chunk : bytes) s : run (Z * cs) :=
  c ← heap s !! a;
  '(rc, s) ← pack s "bd" [VInt (if is_stderr then SSH2_MSG_CHANNEL_EXTENDED_DATA else SSH2_MSG_CHANNEL_DATA);
                          VInt (remote_channel c)];
  if negb (rc =? SSH_OK) then Some (rc, s) else
  '(rc, s) ← (if is_stderr then pack s "d" [VInt SSH2_EXTENDED_DATA_STDERR] else Some (rc, s));
  if negb (rc =? SSH_OK) then Some (rc, s) else
  pack s "dP" [VInt (zlen chunk); VLen (zlen chunk); VPtr (Some chunk)].

(** How the loop ends: [goto out], [goto error], a return, or its condition.  The
    rest of the data is [data]. *)
Inductive write_exit := WOut | WError | WReturn (rc : Z) | WDone.

Definition chunk_len (c : ssh_channel) (data : bytes) (maxpacketlen : Z) : Z :=
  Z.min (if remote_window c <? zlen data then Z.min (zlen data) (remote_window c) else zlen data) maxpacketlen.

Fixpoint write_loop (fuel : nat) (a : positive) (is_stderr : bool) (maxpacketlen : Z) (data : bytes) s
    : run (write_exit * bytes * cs) :=
  match fuel with
  | O => None
  | S fuel =>
      if zlen data <=? 0 then Some (WDone, data, s) else
      c ← heap s !! a;
      if (remote_window c <? zlen data) && (remote_window c =? 0) then
        '(rc, s) ← ssh_handle_packets_termination s SSH_TIMEOUT_DEFAULT (ssh_channel_waitwindow_termination a);
        stop ← ssh_channel_waitwindow_termination a s;
        c ← heap s !! a;
        if (rc =? SSH_ERROR) || negb stop || in_error s || bool_decide (ch_state c = SSH_CHANNEL_STATE_CLOSED)
        then Some (WOut, data, s) else write_loop fuel a is_stderr maxpacketlen data s
      else
        let effectivelen := chunk_len c data maxpacketlen in
        '(rc, s) ← pack_chunk a is_stderr (ztake effectivelen data) s;
        if negb (rc =? SSH_OK) then Some (WError, data, s) else
        '(rc, s) ← ssh_packet_send s;
        if rc =? SSH_ERROR then Some (WReturn SSH_ERROR, data, s) else
        s ← upd_channel a (fun c => count_out effectivelen (set_remote_window (u32 (remote_window c - effectivelen)) c)) s;
        write_loop fuel a is_stderr maxpacketlen (zdrop effectivelen data) s
  end.

(** [data] with its [len] bytes; the loop gets fuel [fuel]. *)
Definition channel_write_common (fuel : nat) (channel : option positive) (data : option bytes) (is_stderr : bool) s
    : run (Z * cs) :=
  match channel, data with
  | Some a, Some data =>
      let len := zlen data in
      if INT_MAX <? len then Some (SSH_ERROR, s) else
      c ← heap s !! a;
      let maxpacketlen := u32 (remote_maxpacket c - 10) in
      if negb (local_eof c =? 0) then Some (-1, s) else
      if negb (bool_decide (ch_state c = SSH_CHANNEL_STATE_OPEN)) || negb (delayed_close c =? 0) then Some (-1, s) else
      if in_error s then Some (SSH_ERROR, s) else
      '(blocked, s) ←
        (if negb (ssh_waitsession_unblocked s) then
           '(rc, s) ← ssh_handle_packets_termination s SSH_TIMEOUT_DEFAULT (fun s => Some (ssh_waitsession_unblocked s));
           Some ((rc =? SSH_ERROR) || negb (ssh_waitsession_unblocked s), s)
         else Some (false, s));
      if (blocked : bool) then Some (0, s) else
      '(e, rest, s) ← write_loop fuel a is_stderr maxpacketlen data s;
      let written := len - zlen rest in
      match e with
      | WReturn rc => Some (rc, s)
      | WOut => Some (written, s)
      | WError => s ← reinit_out s; Some (SSH_ERROR, s)
      | WDone =>
          '(rc, s) ← ssh_channel_flush s;
          if rc =? SSH_ERROR then s ← reinit_out s; Some (SSH_ERROR, s) else Some (written, s)
      end
  | _, _ => Some (-1, s)
  end.

Definition ssh_channel_write (fuel : nat) (channel : option positive) (data : option bytes) s : run (Z * cs) :=
  channel_write_common fuel channel data false s.
Definition ssh_channel_write_stderr (fuel : nat) (channel : option positive) (data : option bytes) s : run (Z * cs) :=
  channel_write_common fuel channel data true s.

Definition ssh_channel_window_size (a : positive) s : run Z := c ← heap s !! a; Some (remote_window c).

(** ** State queries *)

Definition ssh_channel_is_open (channel : option positive) s : run bool :=
  match channel with
  | None => Some false
  | Some a => c ← heap s !! a; Some (bool_decide (ch_state c = SSH_CHANNEL_STATE_OPEN) && pl_alive (base s))
  end.

Definition ssh_channel_is_closed (channel : option positive) s : run Z :=
  match channel with
  | None => Some SSH_ERROR
  | Some a =>
      c ← heap s !! a;
      Some (if negb (bool_decide (ch_state c = SSH_CHANNEL_STATE_OPEN)) || negb (pl_alive (base s)) then 1 else 0)
  end.

Definition ssh_channel_is_eof (channel : option positive) s : run Z :=
  match channel with
  | None => Some SSH_ERROR
  | Some a =>
      c ← heap s !! a;
      Some (if has_data (stdout_buffer c) || has_data (stderr_buffer c) then 0
            else if remote_eof c =? 0 then 0 else 1)
  end.

(** ** Requests *)

(** An answer to the pending request. *)
Definition answer (r : ssh_channel_request_state_e) (old : ssh_channel_request_state_e) : ssh_channel_request_state_e :=
  match old with SSH_CHANNEL_REQ_STATE_PENDING => r | _ => old end.

Definition ssh_packet_channel_success s (type : Z) : run (Z * cs) :=
  '(channel, s) ← channel_from_msg s;
  match channel with
  | None => Some (SSH_PACKET_USED, s)
  | Some a =>
      s ← upd_channel a (fun c => set_request_state (answer SSH_CHANNEL_REQ_STATE_ACCEPTED (request_state c)) c) s;
      Some (SSH_PACKET_USED, s)
  end.

Definition ssh_packet_channel_failure s (type : Z) : run (Z * cs) :=
  '(channel, s) ← channel_from_msg s;
  match channel with
  | None => Some (SSH_PACKET_USED, s)
  | Some a =>
      s ← upd_channel a (fun c => set_request_state (answer SSH_CHANNEL_REQ_STATE_DENIED (request_state c)) c) s;
      Some (SSH_PACKET_USED, s)
  end.

Definition set_global_state (v : ssh_channel_request_state_e) s : cs :=
  set_base (pl_set_proto (set_global_req_state v (pl_proto (base s))) (base s)) s.
Definition global_state s : ssh_channel_request_state_e := global_req_state (pl_proto (base s)).

Definition ssh_request_success s (type : Z) : run (Z * cs) :=
  Some (SSH_PACKET_USED, set_global_state (answer SSH_CHANNEL_REQ_STATE_ACCEPTED (global_state s)) s).
Definition ssh_request_denied s (type : Z) : run (Z * cs) :=
  Some (SSH_PACKET_USED, set_global_state (answer SSH_CHANNEL_REQ_STATE_DENIED (global_state s)) s).

(** [ssh_buffer_add_data (session->out_buffer, ssh_buffer_get (buffer), ...)] *)
Definition append_out (buffer : option ssh_buffer) s : run (Z * cs) :=
  match buffer with
  | None => Some (0, s)
  | Some b =>
      '(rc, out) ← ssh_buffer_add_data (pl_out (base s)) (ssh_buffer_get b) (ssh_buffer_get_len b);
      Some (rc, set_base (pl_set_out out (base s)) s)
  end.

Definition ssh_channel_request_termination (a : positive) s : run bool :=
  c ← heap s !! a;
  Some (negb (bool_decide (request_state c = SSH_CHANNEL_REQ_STATE_PENDING)) || in_error s).

(** The label [pending] of [channel_request]. *)
Definition request_pending (a : positive) s : run (Z * cs) :=
  '(rc, s) ← ssh_handle_packets_termination s SSH_TIMEOUT_DEFAULT (ssh_channel_request_termination a);
  s ← (if in_error s || (rc =? SSH_ERROR)
       then upd_channel a (set_request_state SSH_CHANNEL_REQ_STATE_ERROR) s else Some s);
  c ← heap s !! a;
  match request_state c with
  | SSH_CHANNEL_REQ_STATE_PENDING => Some (SSH_AGAIN, s)
  | r =>
      s ← upd_channel a (set_request_state SSH_CHANNEL_REQ_STATE_NONE) s;
      Some (if bool_decide (r = SSH_CHANNEL_REQ_STATE_ACCEPTED) then SSH_OK else SSH_ERROR, s)
  end.

Definition channel_request (a : positive) (request : bytes) (buffer : option ssh_buffer) (reply : bool) s
    : run (Z * cs) :=
  c ← heap s !! a;
  match request_state c with
  | SSH_CHANNEL_REQ_STATE_NONE =>
      let error s := s ← reinit_out s; Some (SSH_ERROR, s) in
      '(ret, s) ← pack s "bdsb" [VInt SSH2_MSG_CHANNEL_REQUEST; VInt (remote_channel c); VCstr request;
                                 VInt (if reply then 1 else 0)];
      if negb (ret =? SSH_OK) then error s else
      '(rc, s) ← append_out buffer s;
      if rc <? 0 then error s else
      s ← upd_channel a (set_request_state SSH_CHANNEL_REQ_STATE_PENDING) s;
      '(rc, s) ← ssh_packet_send s;
      if rc =? SSH_ERROR then Some (SSH_ERROR, s) else
      if negb reply then
        s ← upd_channel a (set_request_state SSH_CHANNEL_REQ_STATE_NONE) s; Some (SSH_OK, s)
      else request_pending a s
  | _ => request_pending a s
  end.

(** The requests with an answer: while one is pending the payload is not made. *)
Definition request_with (a : positive) (request : string) (format : string) (args : list va) s : run (Z * cs) :=
  c ← heap s !! a;
  let go buffer s := channel_request a (cstr request) buffer true s in
  match request_state c with
  | SSH_CHANNEL_REQ_STATE_NONE => with_payload s format args go
  | _ => go None s
  end.

(** The requests without an answer. *)
Definition notify_with (a : positive) (request : string) (format : string) (args : list va) s : run (Z * cs) :=
  with_payload s format args (fun buffer s => channel_request a (cstr request) buffer false s).

Definition ssh_channel_request_pty_size (channel : option positive) (terminal : option bytes) (col row : Z) s
    : run (Z * cs) :=
  match channel, terminal with
  | Some a, Some terminal =>
      request_with a "pty-req" "sdddddb"
        [VCstr terminal; VInt col; VInt row; VInt 0; VInt 0; VInt 1; VInt 0] s
  | _, _ => Some (SSH_ERROR, s)
  end.

Definition ssh_channel_request_pty (channel : option positive) s : run (Z * cs) :=
  ssh_channel_request_pty_size channel (Some (cstr "xterm")) 80 24 s.

Definition ssh_channel_change_pty_size (channel : option positive) (cols rows : Z) s : run (Z * cs) :=
  a ← channel;
  _ ← heap s !! a;
  notify_with a "window-change" "dddd" [VInt cols; VInt rows; VInt 0; VInt 0] s.

Definition ssh_channel_request_shell (channel : option positive) s : run (Z * cs) :=
  match channel with
  | None => Some (SSH_ERROR, s)
  | Some a => channel_request a (cstr "shell") None true s
  end.

Definition ssh_channel_request_subsystem (channel : option positive) (subsys : option bytes) s : run (Z * cs) :=
  match channel, subsys with
  | Some a, Some subsys => request_with a "subsystem" "s" [VCstr subsys] s
  | _, _ => Some (SSH_ERROR, s)
  end.

Definition ssh_channel_request_sftp (channel : option positive) s : run (Z * cs) :=
  match channel with
  | None => Some (SSH_ERROR, s)
  | Some _ => ssh_channel_request_subsystem channel (Some (cstr "sftp")) s
  end.

Definition ssh_channel_request_auth_agent (channel : option positive) s : run (Z * cs) :=
  match channel with
  | None => Some (SSH_ERROR, s)
  | Some a => channel_request a (cstr "auth-agent-req@openssh.com") None false s
  end.

Definition ssh_channel_request_env (channel : option positive) (name value : option bytes) s : run (Z * cs) :=
  match channel, name, value with
  | Some a, Some name, Some value => request_with a "env" "ss" [VCstr name; VCstr value] s
  | _, _, _ => Some (SSH_ERROR, s)
  end.

Definition ssh_channel_request_exec (channel : option positive) (cmd : option bytes) s : run (Z * cs) :=
  match channel, cmd with
  | Some a, Some cmd => request_with a "exec" "s" [VCstr cmd] s
  | _, _ => Some (SSH_ERROR, s)
  end.

Definition ssh_channel_request_send_signal (channel : option positive) (sig : option bytes) s : run (Z * cs) :=
  match channel, sig with
  | Some a, Some sig => notify_with a "signal" "s" [VCstr sig] s
  | _, _ => Some (SSH_ERROR, s)
  end.

Definition ssh_channel_request_send_break (channel : option positive) (length : Z) s : run (Z * cs) :=
  match channel with
  | None => Some (SSH_ERROR, s)
  | Some a => notify_with a "break" "d" [VInt length] s
  end.

Definition ssh_channel_request_send_exit_status (channel : option positive) (exit_status : Z) s : run (Z * cs) :=
  match channel with
  | None => Some (SSH_ERROR, s)
  | Some a => notify_with a "exit-status" "d" [VInt exit_status] s
  end.

Definition ssh_channel_request_send_exit_signal (channel : option positive) (sig : option bytes) (core : bool)
    (errmsg lang : option bytes) s : run (Z * cs) :=
  match channel, sig, errmsg, lang with
  | Some a, Some sig, Some errmsg, Some lang =>
      notify_with a "exit-signal" "sbss" [VCstr sig; VInt (if core then 1 else 0); VCstr errmsg; VCstr lang] s
  | _, _, _, _ => Some (SSH_ERROR, s)
  end.

(** ** Global requests *)

Definition ssh_global_request_termination s : bool :=
  negb (bool_decide (global_state s = SSH_CHANNEL_REQ_STATE_PENDING)) || in_error s.

Definition global_pending s : run (Z * cs) :=
  '(rc, s) ← ssh_handle_packets_termination s SSH_TIMEOUT_DEFAULT (fun s => Some (ssh_global_request_termination s));
  let s := if (rc =? SSH_ERROR) || in_error s then set_global_state SSH_CHANNEL_REQ_STATE_ERROR s else s in
  match global_state s with
  | SSH_CHANNEL_REQ_STATE_PENDING => Some (SSH_AGAIN, s)
  | r => Some (if bool_decide (r = SSH_CHANNEL_REQ_STATE_ACCEPTED) then SSH_OK else SSH_ERROR,
               set_global_state SSH_CHANNEL_REQ_STATE_NONE s)
  end.

Definition ssh_global_request (request : bytes) (buffer : option ssh_buffer) (reply : bool) s : run (Z * cs) :=
  match global_state s with
  | SSH_CHANNEL_REQ_STATE_NONE =>
      let error s := s ← reinit_out s; Some (SSH_ERROR, s) in
      '(rc, s) ← pack s "bsb" [VInt SSH2_MSG_GLOBAL_REQUEST; VCstr request; VInt (if reply then 1 else 0)];
      if negb (rc =? SSH_OK) then error s else
      '(rc, s) ← append_out buffer s;
      if rc <? 0 then error s else
      let s := set_global_state SSH_CHANNEL_REQ_STATE_PENDING s in
      '(rc, s) ← ssh_packet_send s;
      if rc =? SSH_ERROR then Some (rc, s) else
      if negb reply then Some (SSH_OK, set_global_state SSH_CHANNEL_REQ_STATE_NONE s) else global_pending s
  | _ => global_pending s
  end.

Definition global_request_with (request : string) (format : string) (args : list va) s : run (Z * cs) :=
  let go buffer s := ssh_global_request (cstr request) buffer true s in
  match global_state s with
  | SSH_CHANNEL_REQ_STATE_NONE => with_payload s format args go
  | _ => go None s
  end.

(** [bound]: whether the caller gave a [bound_port]; the result has its value. *)
Definition ssh_channel_listen_forward (address : option bytes) (port : Z) (bound : bool) s : run (Z * option Z * cs) :=
  '(rc, s) ← global_request_with "tcpip-forward" "sd" [VCstr (default [] address); VInt port] s;
  if (rc =? SSH_OK) && (port =? 0) && bound then
    '(rc, os, s) ← unpack s "d" [UPtr];
    Some (rc, Some (if rc =? SSH_OK then s32 (int_slot os 0 0) else 0), s)
  else Some (rc, None, s).

Definition ssh_channel_cancel_forward (address : option bytes) (port : Z) s : run (Z * cs) :=
  global_request_with "cancel-tcpip-forward" "sd" [VCstr (default [] address); VInt port] s.

(** ** Reading *)

(** [ctx.buffer] is [p]. *)
Definition ssh_channel_read_termination (a : positive) (is_stderr : bool) (p : nat) (count : Z) s : run bool :=
  c ← heap s !! a;
  b ← pointed is_stderr p c;
  Some ((count <=? ssh_buffer_get_len b) || negb (remote_eof c =? 0) || in_error s).

(** The end of [ssh_channel_read_timeout]: the bytes that are copied to [dest]. *)
Definition read_copy (a : positive) (count : Z) (is_stderr : bool) s : run (Z * bytes * cs) :=
  c ← heap s !! a;
  b ← stream is_stderr c;
  let len := ssh_buffer_get_len b in
  let len := if count <? len then count else len in
  data ← (if len =? 0 then Some [] else d ← ssh_buffer_get b; Some (ztake len d));
  s ← upd_channel a (fun c => count_in len (set_stream is_stderr (Some (ssh_buffer_pass_bytes b len).2) c)) s;
  c ← heap s !! a;
  if local_window c <? WINDOWLIMIT then
    '(rc, s) ← grow_window s a 0;
    if rc <? 0 then Some (-1, data, s) else Some (len, data, s)
  else Some (len, data, s).

(** [dest]: whether the caller's pointer is not null; it has room for [count]. *)
Definition ssh_channel_read_timeout (channel : option positive) (dest : bool) (count : Z) (is_stderr : bool)
    (timeout_ms : Z) s : run (Z * bytes * cs) :=
  match channel with
  | None => Some (SSH_ERROR, [], s)
  | Some a =>
      if negb dest then Some (SSH_ERROR, [], s) else
      c ← heap s !! a;
      if count =? 0 then Some (0, [], s) else
      b ← stream is_stderr c;
      let p := stdbuf is_stderr c in
      let len := ssh_buffer_get_len b in
      '(rc, s) ← (if u32 (len + local_window c) <? count then grow_window s a (u32 (count - len)) else Some (0, s));
      if rc <? 0 then Some (-1, [], s) else
      let timeout_ms := if timeout_ms <? SSH_TIMEOUT_DEFAULT then SSH_TIMEOUT_INFINITE else timeout_ms in
      '(rc, s) ← ssh_handle_packets_termination s timeout_ms (ssh_channel_read_termination a is_stderr p 1);
      if (rc =? SSH_AGAIN) && ssh_is_blocking s then Some (rc, [], s) else
      if rc =? SSH_ERROR then Some (rc, [], s) else
      if in_error s then Some (SSH_ERROR, [], s) else
      c ← heap s !! a;
      b ← pointed is_stderr p c;
      if negb (remote_eof c =? 0) && (ssh_buffer_get_len b =? 0) then Some (0, [], s) else
      if bool_decide (ch_state c = SSH_CHANNEL_STATE_CLOSED) then Some (SSH_ERROR, [], s) else
      read_copy a count is_stderr s
  end.

Definition ssh_channel_read (channel : option positive) (dest : bool) (count : Z) (is_stderr : bool) s
    : run (Z * bytes * cs) :=
  ssh_channel_read_timeout channel dest count is_stderr SSH_TIMEOUT_DEFAULT s.

Definition ssh_channel_poll (channel : option positive) (is_stderr : bool) s : run (Z * cs) :=
  match channel with
  | None => Some (SSH_ERROR, s)
  | Some a =>
      c ← heap s !! a;
      b ← stream is_stderr c;
      let p := stdbuf is_stderr c in
      '(rc, s) ←
        (if (ssh_buffer_get_len b =? 0) && (remote_eof c =? 0) then
           if in_error s then Some (SSH_ERROR, s) else ssh_handle_packets s SSH_TIMEOUT_NONBLOCKING
         else Some (SSH_OK, s));
      if rc =? SSH_ERROR then Some (SSH_ERROR, s) else
      c ← heap s !! a;
      b ← pointed is_stderr p c;
      if 0 <? ssh_buffer_get_len b then Some (s32 (ssh_buffer_get_len b), s) else
      if negb (remote_eof c =? 0) then Some (SSH_EOF, s) else Some (s32 (ssh_buffer_get_len b), s)
  end.

Definition ssh_channel_read_nonblocking (channel : option positive) (dest : bool) (count : Z) (is_stderr : bool) s
    : run (Z * bytes * cs) :=
  match channel with
  | None => Some (SSH_ERROR, [], s)
  | Some _ =>
      if negb dest then Some (SSH_ERROR, [], s) else
      '(to_read, s) ← ssh_channel_poll channel is_stderr s;
      if to_read <=? 0 then Some (if in_error s then SSH_ERROR else to_read, [], s) else
      let to_read := if count <? to_read then count else to_read in
      let blocking := ssh_is_blocking s in
      '(rc, d, s) ← ssh_channel_read channel dest (u32 to_read) is_stderr (ssh_set_blocking false s);
      Some (rc, d, ssh_set_blocking blocking s)
  end.

Definition ssh_channel_poll_timeout (channel : option positive) (timeout : Z) (is_stderr : bool) s : run (Z * cs) :=
  match channel with
  | None => Some (SSH_ERROR, s)
  | Some a =>
      c ← heap s !! a;
      let p := stdbuf is_stderr c in
      '(rc, s) ← ssh_handle_packets_termination s timeout (ssh_channel_read_termination a is_stderr p 1);
      if (rc =? SSH_ERROR) || in_error s then Some (SSH_ERROR, s) else
      if rc =? SSH_AGAIN then Some (SSH_OK, s) else
      c ← heap s !! a;
      b ← pointed is_stderr p c;
      let len := ssh_buffer_get_len b in
      if 0 <? len then Some (if INT_MAX <? len then SSH_ERROR else len, s) else
      Some (if negb (remote_eof c =? 0) then SSH_EOF else rc, s)
  end.

Definition ssh_channel_exit_status_termination (a : positive) s : run bool :=
  c ← heap s !! a;
  Some (negb (exit_status c =? -1) || has_flag c SSH_CHANNEL_FLAG_CLOSED_REMOTE || in_error s).

Definition ssh_channel_get_exit_status (channel : option positive) s : run (Z * cs) :=
  match channel with
  | None => Some (SSH_ERROR, s)
  | Some a =>
      '(rc, s) ← ssh_handle_packets_termination s SSH_TIMEOUT_DEFAULT (ssh_channel_exit_status_termination a);
      if (rc =? SSH_ERROR) || in_error s then Some (SSH_ERROR, s) else
      c ← heap s !! a; Some (exit_status c, s)
  end.

Definition ssh_channel_set_counter (channel : option positive) (counter : option ssh_counter) s : run cs :=
  match channel with None => Some s | Some a => upd_channel a (set_ch_counter counter) s end.

Definition ssh_channel_set_blocking (channel : option positive) (blocking : bool) s : run cs :=
  match channel with None => Some s | Some a => _ ← heap s !! a; Some (ssh_set_blocking blocking s) end.
End Channels.
