(* ===== verification/ChannelSafe.v ===== *)
(** * Safety of the channels

    The laws of the packet layer, and what the channel code guarantees whatever
    the peer sends: the list of channels designates channels that are alive, their
    buffers are well formed, and every handler returns. *)

From stdpp Require Import gmap.
From S2P Require Import Prelude SshString Buffer Bignum BufferPack SshList Session Misc Crypto Packet.
From S2P Require Import PacketRecv Kex Channel.

(** The first byte, if there is one, is the number of a message of the connection
    protocol. *)
Definition connection_msg (q : bytes) : Prop := match q with [] => True | t :: _ => 80 <= b2z t end.

(** ** The laws of the packet layer

    [pl_sent] is an observation: the packets that were handed over, in order.  What
    a refused packet leaves in the output buffer is part of the laws, since some
    callers do not clear it. *)
Class PacketLayerLaws (L : Type) `{PacketLayer L} := {
  pl_good : L -> Prop;
  pl_sent : L -> list bytes;
  in_set_in v l : pl_in (pl_set_in v l) = v;
  out_set_in v l : pl_out (pl_set_in v l) = pl_out l;
  proto_set_in v l : pl_proto (pl_set_in v l) = pl_proto l;
  sent_set_in v l : pl_sent (pl_set_in v l) = pl_sent l;
  good_set_in v l : pl_good l -> pl_good (pl_set_in v l);
  in_set_out v l : pl_in (pl_set_out v l) = pl_in l;
  out_set_out v l : pl_out (pl_set_out v l) = v;
  proto_set_out v l : pl_proto (pl_set_out v l) = pl_proto l;
  sent_set_out v l : pl_sent (pl_set_out v l) = pl_sent l;
  good_set_out v l : pl_good l -> pl_good (pl_set_out v l);
  in_set_global v l : pl_in (pl_set_proto (set_global_req_state v (pl_proto l)) l) = pl_in l;
  out_set_global v l : pl_out (pl_set_proto (set_global_req_state v (pl_proto l)) l) = pl_out l;
  sent_set_global v l : pl_sent (pl_set_proto (set_global_req_state v (pl_proto l)) l) = pl_sent l;
  good_set_global v l : pl_good l -> pl_good (pl_set_proto (set_global_req_state v (pl_proto l)) l);
  (* a message of the connection protocol is taken or refused *)
  send_spec l b t rest : pl_good l -> pl_out l = Some b -> buffer_wf b -> contents b = t :: rest ->
    80 <= b2z t ->
    exists rc l' b', pl_send l = Some (rc, l') /\ pl_good l' /\ pl_in l' = pl_in l
      /\ pl_out l' = Some b' /\ buffer_wf b' /\ pl_proto l' = pl_proto l
      /\ (rc = SSH_OK /\ contents b' = [] /\ pl_sent l' = pl_sent l ++ [t :: rest] \/ rc = SSH_ERROR /\ connection_msg (contents b'))
}.

Create Rewrite HintDb layer.
#[export] Hint Rewrite @in_set_in @out_set_in @proto_set_in @sent_set_in @in_set_out @out_set_out
  @proto_set_out @sent_set_out @in_set_global @out_set_global @sent_set_global : layer.

Section Laws.
Context `{Allocator} `{BignumLib} {L : Type} `{PacketLayerLaws L}.
#[local] Abbreviation cs := (csession L).
Implicit Type s : cs.

(** ** Well formed sessions *)

Definition stream_wf (b : option ssh_buffer) : Prop := forall x, b = Some x -> buffer_wf x.

Record channel_wf (c : ssh_channel) : Prop := {
  cw_out : stream_wf (stdout_buffer c);
  cw_err : stream_wf (stderr_buffer c);
  cw_window : 0 <= local_window c < 2 ^ 32
}.

(** The buffers between the channels and the packets. *)
Record layer_wf (l : L) : Prop := {
  lw_good : pl_good l;
  lw_in : exists b, pl_in l = Some b /\ buffer_wf b;
  lw_out : exists b, pl_out l = Some b /\ buffer_wf b /\ connection_msg (contents b)
}.

Record session_wf s : Prop := {
  sw_layer : layer_wf (base s);
  sw_nodup : NoDup (default [] (channels s));
  sw_alive : forall a, a ∈ default [] (channels s) -> is_Some (heap s !! a);
  sw_channels : forall a c, heap s !! a = Some c -> channel_wf c
}.

(** The code after [x] has no undefined behaviour and keeps the session well
    formed. *)
Definition safe {A} (x : run (A * cs)) : Prop := exists r s', x = Some (r, s') /\ session_wf s'.

Lemma safe_ret {A} (r : A) s : session_wf s -> safe (Some (r, s)).
Proof. by do 3 eexists. Qed.

Lemma safe_bind {A B} (x : run (A * cs)) (f : A * cs -> run (B * cs)) :
  safe x -> (forall r s', session_wf s' -> x = Some (r, s') -> safe (f (r, s'))) -> safe (x ≫= f).
Proof. intros (r & s' & -> & Hs) Hf. by apply Hf. Qed.

Lemma stream_wf_none : stream_wf None.
Proof. done. Qed.
Lemma stream_wf_some b : buffer_wf b -> stream_wf (Some b).
Proof. by intros ? ? [= <-]. Qed.
Lemma stream_wf_of e c b : channel_wf c -> stream e c = Some b -> buffer_wf b.
Proof. destruct e; cbn; intros [? ? ?]; auto. Qed.

Lemma set_stream_wf e b c : channel_wf c -> stream_wf b -> channel_wf (set_stream e b c).
Proof. intros [] ?. destruct e; by constructor. Qed.

Lemma free_stream_wf e c : channel_wf c -> channel_wf (free_stream e c).
Proof. intros []. destruct e; by constructor. Qed.

(** Writing through the pointer of a live channel. *)
Lemma upd_channel_wf s a f : session_wf s -> is_Some (heap s !! a) ->
  (forall c, channel_wf c -> channel_wf (f c)) ->
  exists s', upd_channel a f s = Some s' /\ session_wf s' /\ base s' = base s
    /\ channels s' = channels s /\ is_Some (heap s' !! a)
    /\ (forall c, heap s !! a = Some c -> heap s' !! a = Some (f c)).
Proof.
  intros [Hl Hn Ha Hc] [c Hca] Hf. unfold upd_channel. rewrite Hca. cbn [mbind option_bind].
  eexists. split; [done|]. split_and!; [|done|done|cbn; by simplify_map_eq|].
  - constructor; cbn; [done|done| |].
    + intros x Hx. destruct (decide (a = x)) as [->|]; simplify_map_eq; eauto.
    + intros x cx Hx. destruct (decide (a = x)) as [->|]; simplify_map_eq; eauto.
  - intros c' [= <-]. cbn. by simplify_map_eq.
Qed.

Lemma set_base_wf s l : session_wf s -> layer_wf l -> session_wf (set_base l s).
Proof. intros [] ?. by constructor. Qed.

Lemma layer_set_in l b : layer_wf l -> buffer_wf b -> layer_wf (pl_set_in (Some b) l).
Proof.
  intros [Hg Hi Ho] Hb. constructor; [by apply good_set_in|exists b; by rewrite in_set_in|].
  by rewrite out_set_in.
Qed.
Lemma layer_set_out l b :
  layer_wf l -> buffer_wf b -> connection_msg (contents b) -> layer_wf (pl_set_out (Some b) l).
Proof.
  intros [Hg Hi Ho] Hb Hm. constructor; [by apply good_set_out|by rewrite in_set_out|].
  exists b. by rewrite out_set_out.
Qed.

(** ** The calls of the layers below *)

(** A message is packed completely, or the call fails with a part of it. *)
Lemma connection_msg_app q e p : connection_msg q -> q <> [] \/ connection_msg e -> p `prefix_of` e ->
  connection_msg (q ++ p).
Proof.
  intros Hq He Hp. destruct q as [|x q]; [|done]. destruct He as [|He]; [done|].
  destruct p as [|y p]; [done|]. destruct Hp as [k ->]. done.
Qed.

Lemma pack_wf s fs format args b :
  session_wf s -> pl_out (base s) = Some b ->
  cstr format = fields_format fs -> args = fields_args fs -> fs <> [] ->
  Forall field_ok fs -> zlen args <= 256 -> contents b <> [] \/ connection_msg (fields_encode fs) ->
  exists rc b', pack s format args = Some (rc, set_base (pl_set_out (Some b') (base s)) s)
    /\ session_wf (set_base (pl_set_out (Some b') (base s)) s) /\ buffer_wf b'
    /\ (rc = SSH_OK /\ contents b' = contents b ++ fields_encode fs \/ rc = SSH_ERROR).
Proof.
  intros Hs Hb Hf -> Hne Hok Hn Hmsg. destruct (lw_out _ (sw_layer _ Hs)) as (b0 & Hb0 & Hwf & Hm).
  rewrite Hb0 in Hb. injection Hb as ->. unfold pack. rewrite Hb0. cbn [mbind option_bind]. rewrite Hf.
  destruct (pack_fields_spec b fs Hwf Hok Hne Hn) as (rc & b' & -> & Hwf' & _ & Hres).
  cbn [mbind option_bind]. exists rc, b'. split_and!; [done| |done|naive_solver].
  apply set_base_wf; [done|]. apply layer_set_out; [apply sw_layer|done|]; [done|].
  destruct Hres as [[_ ->]|(_ & p & -> & Hp)]; by eapply connection_msg_app.
Qed.

(** Any bytes are unpacked or refused. *)
Lemma unpack_wf s ws format args :
  session_wf s -> cstr format = wants_format ws -> args = wants_args ws -> Forall want_ok ws ->
  zlen args <= 256 ->
  exists rc os s', unpack s format args = Some (rc, os, s') /\ session_wf s' /\ heap s' = heap s
    /\ channels s' = channels s
    /\ (rc = SSH_OK /\ Forall slot_ok os \/ rc = SSH_ERROR /\ Forall slot_cleared os).
Proof.
  intros Hs Hf -> Hok Hn. destruct (lw_in _ (sw_layer _ Hs)) as (b & Hb & Hwf).
  unfold unpack. rewrite Hb. cbn [mbind option_bind]. rewrite Hf.
  destruct (unpack_untrusted_spec b ws Hwf Hok Hn) as (rc & os & fr & b' & -> & Hwf' & Hres).
  cbn [mbind option_bind]. do 3 eexists. split_and!; [done| |done|done|done].
  apply set_base_wf; [done|]. apply layer_set_in; [apply sw_layer|]; done.
Qed.

(** Whatever is in the output buffer is sent or refused; nothing else changes. *)
Record only_base s s' : Prop := {
  ob_heap : heap s' = heap s;
  ob_channels : channels s' = channels s;
  ob_in : pl_in (base s') = pl_in (base s);
  ob_proto : pl_proto (base s') = pl_proto (base s)
}.

Lemma send_wf s b :
  session_wf s -> pl_out (base s) = Some b -> contents b <> [] ->
  exists rc s' b', ssh_packet_send s = Some (rc, s') /\ session_wf s' /\ only_base s s'
    /\ pl_out (base s') = Some b'
    /\ (rc = SSH_OK /\ contents b' = [] /\ pl_sent (base s') = pl_sent (base s) ++ [contents b]
        \/ rc = SSH_ERROR).
Proof.
  intros Hs Hb Hne. pose proof (sw_layer _ Hs) as [Hg Hi (b0 & Hb0 & Hwf & Hm)].
  rewrite Hb0 in Hb. injection Hb as ->. destruct (contents b) as [|t rest] eqn:Hc; [done|].
  destruct (send_spec _ _ _ _ Hg Hb0 Hwf Hc Hm) as (rc & l' & b' & Hsend & Hg' & Hin & Hout & Hwf' & Hp & Hres).
  unfold ssh_packet_send. rewrite Hsend. cbn [mbind option_bind]. do 3 eexists.
  split_and!; [done| |done|done|naive_solver].
  apply set_base_wf; [done|]. constructor; [done|by rewrite Hin|].
  exists b'. split_and!; [done|done|]. destruct Hres as [(_ & -> & _)|[_ ?]]; done.
Qed.

Lemma reinit_wf s : session_wf s ->
  exists s', reinit_out s = Some s' /\ session_wf s' /\ heap s' = heap s /\ channels s' = channels s.
Proof.
  intros Hs. destruct (lw_out _ (sw_layer _ Hs)) as (b & Hb & Hwf & _). unfold reinit_out. rewrite Hb.
  destruct (ssh_buffer_reinit_spec b Hwf) as (rc & b' & -> & Hwf' & Hc & _). cbn [mbind option_bind].
  eexists. split_and!; [done| |done|done]. apply set_base_wf; [done|].
  apply layer_set_out; [apply sw_layer|done|by rewrite Hc]; done.
Qed.

(** ** Lookup *)

Lemma from_local_spec (h : gmap positive ssh_channel) (l : list positive) id :
  (forall a, a ∈ l -> is_Some (h !! a)) ->
  exists r, from_local_loop h l id = Some r /\ (forall a, r = Some a -> a ∈ l).
Proof.
  induction l as [|a l IH]; intros Hl; cbn [from_local_loop]; [by exists None|].
  destruct (Hl a) as [c ->]; [set_solver|]. cbn [mbind option_bind].
  destruct (local_channel c =? id).
  - eexists. split; [done|]. intros ? [= <-]. set_solver.
  - destruct IH as (r & -> & Hr); [set_solver|]. eexists. split; [done|]. set_solver.
Qed.

Lemma from_local_wf s id : session_wf s ->
  exists r, ssh_channel_from_local s id = Some r /\ (forall a, r = Some a -> is_Some (heap s !! a)).
Proof.
  intros Hs. destruct (from_local_spec (heap s) (default [] (channels s)) id) as (r & Hr & Hin).
  - apply (sw_alive _ Hs).
  - exists r. split; [done|]. intros a ->. by apply (sw_alive _ Hs), Hin.
Qed.

Lemma channel_from_msg_wf s : session_wf s ->
  exists r s', channel_from_msg s = Some (r, s') /\ session_wf s' /\ heap s' = heap s
    /\ (forall a, r = Some a -> is_Some (heap s' !! a)).
Proof.
  intros Hs. unfold channel_from_msg.
  destruct (unpack_wf s [WLetter "d"] "d" [UPtr] Hs) as (rc & os & s1 & -> & Hs1 & Hh & _);
    [done|done|repeat constructor; discriminate|done|]. cbn [mbind option_bind].
  destruct (negb (rc =? SSH_OK)); [by do 2 eexists|].
  destruct (from_local_wf s1 (int_slot os 0 0) Hs1) as (r & -> & Hr). cbn [mbind option_bind].
  by do 2 eexists.
Qed.
End Laws.

(** ** The handlers *)

Section Handlers.
Context `{Allocator} `{BignumLib} {L : Type} `{PacketLayerLaws L}.
#[local] Abbreviation cs := (csession L).
Implicit Type s : cs.

Variable channel_callbacks : cs -> positive -> list (ssh_channel_callbacks L).
Variable ssh_message_handle_channel_request : cs -> positive -> bytes -> Z -> run cs.

(** What the application promises: a callback returns, leaves the session well
    formed, does not free the channel it is called for, and the callback for data
    does not take the stream away. *)
Definition alive (a : positive) s : Prop := is_Some (heap s !! a).
Definition streaming (e : bool) (a : positive) s : Prop :=
  exists c, heap s !! a = Some c /\ is_Some (stream e c).
Definition returns (P : cs -> Prop) (x : run cs) : Prop := exists s', x = Some s' /\ session_wf s' /\ P s'.

Record callback_contract (cb : ssh_channel_callbacks L) : Prop := {
  cc_data f s a d n e : channel_data_function cb = Some f -> session_wf s -> streaming e a s ->
    exists rest s', f s a d n e = Some (rest, s') /\ session_wf s' /\ streaming e a s';
  cc_eof f s a : channel_eof_function cb = Some f -> session_wf s -> alive a s -> returns (alive a) (f s a);
  cc_close f s a : channel_close_function cb = Some f -> session_wf s -> alive a s -> returns (alive a) (f s a);
  cc_signal f s a t : channel_signal_function cb = Some f -> session_wf s -> alive a s ->
    returns (alive a) (f s a t);
  cc_exit_status f s a n : channel_exit_status_function cb = Some f -> session_wf s -> alive a s ->
    returns (alive a) (f s a n);
  cc_exit_signal f s a t n m l : channel_exit_signal_function cb = Some f -> session_wf s -> alive a s ->
    returns (alive a) (f s a t n m l);
  cc_agent f s a : channel_auth_agent_req_function cb = Some f -> session_wf s -> alive a s ->
    returns (alive a) (f s a)
}.

Hypothesis callbacks_ok : forall s a, Forall callback_contract (channel_callbacks s a).
Hypothesis message_ok : forall s a t n, session_wf s -> alive a s ->
  returns (fun _ => True) (ssh_message_handle_channel_request s a t n).

Lemma execute_wf {F} (f : ssh_channel_callbacks L -> option F) (call : F -> cs -> run cs) s a :
  session_wf s -> alive a s ->
  (forall cb g r, callback_contract cb -> f cb = Some g -> session_wf r -> alive a r -> returns (alive a) (call g r)) ->
  returns (alive a) (execute channel_callbacks f call a s).
Proof.
  intros Hs Ha Hcall. unfold execute.
  assert (Hcbs := callbacks_ok s a). revert s Hs Ha Hcbs.
  generalize (channel_callbacks) as ccb. intros ccb s. generalize (ccb s a) as cbs. clear ccb.
  induction cbs as [|cb cbs IH] in s |- *; intros Hs Ha Hcbs; cbn [map execute_list].
  - by exists s.
  - inversion Hcbs as [|? ? Hcb Hrest]; subst. destruct (f cb) as [g|] eqn:Hf; cbn [option_map].
    + destruct (Hcall cb g s Hcb Hf Hs Ha) as (s' & -> & Hs' & Ha'). cbn [mbind option_bind].
      pose proof Ha' as [c Hc]. rewrite Hc. cbn [mbind option_bind]. by apply IH.
    + by apply IH.
Qed.

Lemma used_safe s : session_wf s -> safe (Some (SSH_PACKET_USED, s)).
Proof. apply safe_ret. Qed.

Lemma eof_safe s type : session_wf s -> safe (channel_rcv_eof channel_callbacks s type).
Proof.
  intros Hs. unfold channel_rcv_eof.
  destruct (channel_from_msg_wf s Hs) as (r & s1 & -> & Hs1 & _ & Hr). cbn [mbind option_bind].
  destruct r as [a|]; [|by apply used_safe].
  destruct (upd_channel_wf s1 a (set_remote_eof 1) Hs1) as (s2 & -> & Hs2 & _ & _ & Ha2 & _);
    [by apply Hr|by intros c []|]. cbn [mbind option_bind].
  destruct (execute_wf channel_eof_function (fun f s => f s a) s2 a Hs2 Ha2) as (s3 & -> & Hs3 & _).
  { intros cb g r Hcb Hg Hr' Ha'. by apply (cc_eof _ Hcb). }
  cbn [mbind option_bind]. by apply used_safe.
Qed.

Lemma buffer_free_wf b : stream_wf b -> exists fr, ssh_buffer_free b = Some fr.
Proof.
  intros Hb. destruct b as [b|]; [|by eexists]. specialize (Hb b eq_refl). unfold ssh_buffer_free.
  destruct (_ && _); [|by eexists]. pose proof Hb as [? ? ? ?].
  rewrite bzero_ok by lia. by eexists.
Qed.

Lemma remove_first_sub (a : positive) l : NoDup l ->
  NoDup (remove_first a l) /\ (forall x, x ∈ remove_first a l -> x ∈ l /\ x <> a).
Proof.
  induction l as [|y l IH]; intros Hn; cbn [remove_first]; [split; [done|set_solver]|].
  apply NoDup_cons in Hn as [Hy Hn]. case_decide as E.
  - subst. split; [done|]. intros x Hx. split; [set_solver|]. by intros ->.
  - destruct (IH Hn) as [Hn' Hin]. split.
    + apply NoDup_cons. split; [|done]. intros Hx. apply Hy, Hin, Hx.
    + intros x [->|Hx]%elem_of_cons; [set_solver|]. destruct (Hin x Hx). set_solver.
Qed.

(** A freed channel leaves the list before its memory goes. *)
Lemma do_free_wf s a : session_wf s -> alive a s ->
  returns (fun s' => heap s' !! a = None) (ssh_channel_do_free a s).
Proof.
  intros [Hl Hn Ha Hc] [c Hca]. unfold ssh_channel_do_free. rewrite Hca. cbn [mbind option_bind].
  pose proof (Hc a c Hca) as [Ho He _].
  destruct (buffer_free_wf _ Ho) as [f1 ->]. destruct (buffer_free_wf _ He) as [f2 ->]. cbn [mbind option_bind].
  eexists. split; [done|]. split; [|cbn; by simplify_map_eq]. unfold list_remove.
  assert (Hlist : default [] (option_map (fun l => (seq_step l (Remove a)).2) (channels s))
    = remove_first a (default [] (channels s))) by by destruct (channels s).
  destruct (remove_first_sub a _ Hn) as [Hn' Hin].
  constructor; cbn [base channels heap set_heap set_channels]; rewrite ?Hlist; [done|done| |].
  - intros x Hx. destruct (Hin x Hx). rewrite lookup_delete_ne by done. by apply Ha.
  - intros x cx Hx. apply lookup_delete_Some in Hx as [_ Hx]. by eapply Hc.
Qed.

Lemma close_safe s type : session_wf s -> safe (channel_rcv_close channel_callbacks s type).
Proof.
  intros Hs. unfold channel_rcv_close.
  destruct (channel_from_msg_wf s Hs) as (r & s1 & -> & Hs1 & _ & Hr). cbn [mbind option_bind].
  destruct r as [a|]; [|by apply used_safe].
  edestruct (upd_channel_wf s1 a) as (s2 & -> & Hs2 & _ & _ & Ha2 & _);
    [done|by apply Hr|intros c []; by destruct (_ || _)|]. cbn [mbind option_bind].
  destruct (execute_wf channel_close_function (fun f s => f s a) s2 a Hs2 Ha2) as (s3 & -> & Hs3 & Ha3).
  { intros cb g r Hcb Hg Hr' Ha'. by apply (cc_close _ Hcb). }
  cbn [mbind option_bind].
  destruct (upd_channel_wf s3 a (add_flag SSH_CHANNEL_FLAG_CLOSED_REMOTE) Hs3 Ha3)
    as (s4 & -> & Hs4 & _ & _ & Ha4 & _); [by intros c []|]. cbn [mbind option_bind].
  pose proof Ha4 as [c Hc]. rewrite Hc. cbn [mbind option_bind].
  destruct (has_flag _ _); [|by apply used_safe].
  destruct (do_free_wf s4 a Hs4 Ha4) as (s5 & -> & Hs5 & _). by apply used_safe.
Qed.

Lemma change_window_safe s type : session_wf s -> safe (channel_rcv_change_window s type).
Proof.
  intros Hs. unfold channel_rcv_change_window.
  destruct (channel_from_msg_wf s Hs) as (r & s1 & -> & Hs1 & _ & Hr). cbn [mbind option_bind].
  destruct (unpack_wf s1 [WLetter "d"] "d" [UPtr] Hs1) as (rc & os & s2 & -> & Hs2 & Hh & _);
    [done|done|repeat constructor; discriminate|done|]. cbn [mbind option_bind].
  destruct r as [a|]; [|by apply used_safe]. destruct (negb (rc =? SSH_OK)); [by apply used_safe|].
  edestruct (upd_channel_wf s2 a) as (s3 & -> & Hs3 & _);
    [done|by rewrite Hh; apply Hr|by intros c []|]. by apply used_safe.
Qed.

Lemma open_conf_safe s type : session_wf s -> safe (ssh_packet_channel_open_conf s type).
Proof.
  intros Hs. unfold ssh_packet_channel_open_conf.
  destruct (unpack_wf s [WLetter "d"] "d" [UPtr] Hs) as (rc & os & s1 & -> & Hs1 & _);
    [done|done|repeat constructor; discriminate|done|]. cbn [mbind option_bind].
  destruct (negb _); [by apply used_safe|].
  destruct (from_local_wf s1 (int_slot os 0 0) Hs1) as (r & -> & Hr). cbn [mbind option_bind].
  destruct r as [a|]; [|by apply used_safe].
  destruct (unpack_wf s1 [WLetter "d"; WLetter "d"; WLetter "d"] "ddd" [UPtr; UPtr; UPtr] Hs1)
    as (rc2 & os2 & s2 & -> & Hs2 & Hh & _); [done|done|repeat constructor; discriminate|done|].
  cbn [mbind option_bind].
  edestruct (upd_channel_wf s2 a) as (s3 & -> & Hs3 & _ & _ & Ha3 & _);
    [done|by rewrite Hh; apply Hr|by intros c []|]. cbn [mbind option_bind].
  destruct (negb _); [by apply used_safe|]. pose proof Ha3 as [c Hc]. rewrite Hc. cbn [mbind option_bind].
  destruct (negb _); [by apply used_safe|].
  edestruct (upd_channel_wf s3 a) as (s4 & -> & Hs4 & _); [done|done|by intros c' []|]. by apply used_safe.
Qed.

Lemma open_fail_safe s type : session_wf s -> safe (ssh_packet_channel_open_fail s type).
Proof.
  intros Hs. unfold ssh_packet_channel_open_fail.
  destruct (channel_from_msg_wf s Hs) as (r & s1 & -> & Hs1 & _ & Hr). cbn [mbind option_bind].
  destruct r as [a|]; [|by apply used_safe].
  destruct (unpack_wf s1 [WLetter "d"; WLetter "s"] "ds" [UPtr; UPtr] Hs1) as (rc & os & s2 & -> & Hs2 & Hh & _);
    [done|done|repeat constructor; discriminate|done|]. cbn [mbind option_bind].
  destruct (negb _); [by apply used_safe|].
  assert (Ha : alive a s2) by (unfold alive; rewrite Hh; by apply Hr).
  pose proof Ha as [c Hc]. rewrite Hc. cbn [mbind option_bind].
  destruct (negb _); [by apply used_safe|].
  edestruct (upd_channel_wf s2 a) as (s3 & -> & Hs3 & _); [done|done|by intros c' []|]. by apply used_safe.
Qed.

Lemma success_safe s type : session_wf s -> safe (ssh_packet_channel_success s type).
Proof.
  intros Hs. unfold ssh_packet_channel_success.
  destruct (channel_from_msg_wf s Hs) as (r & s1 & -> & Hs1 & _ & Hr). cbn [mbind option_bind].
  destruct r as [a|]; [|by apply used_safe].
  edestruct (upd_channel_wf s1 a) as (s2 & -> & Hs2 & _); [done|by apply Hr|by intros c' []|]. by apply used_safe.
Qed.

Lemma failure_safe s type : session_wf s -> safe (ssh_packet_channel_failure s type).
Proof.
  intros Hs. unfold ssh_packet_channel_failure.
  destruct (channel_from_msg_wf s Hs) as (r & s1 & -> & Hs1 & _ & Hr). cbn [mbind option_bind].
  destruct r as [a|]; [|by apply used_safe].
  edestruct (upd_channel_wf s1 a) as (s2 & -> & Hs2 & _); [done|by apply Hr|by intros c' []|]. by apply used_safe.
Qed.

Lemma set_global_wf s v : session_wf s -> session_wf (set_global_state v s).
Proof.
  intros Hs. pose proof (sw_layer _ Hs) as [Hg Hi Ho]. apply set_base_wf; [done|]. constructor.
  - by apply good_set_global.
  - by rewrite in_set_global.
  - by rewrite out_set_global.
Qed.

(** ** Data *)

Lemma u32_of_range z : 0 <= u32 z < 2 ^ 32.
Proof. apply u32_range. Qed.

Lemma grow_window_wf s a m : session_wf s -> alive a s -> 0 <= m < 2 ^ 32 ->
  exists rc s', grow_window s a m = Some (rc, s') /\ session_wf s'.
Proof.
  intros Hs [c Hc] Hm. destruct (lw_out _ (sw_layer _ Hs)) as (b & Hb & Hbwf & Hbm). unfold grow_window. rewrite Hc. cbn [mbind option_bind].
  set (w := if WINDOWBASE <? m then m else WINDOWBASE).
  assert (Hw : 0 <= w < 2 ^ 32) by (unfold w, WINDOWBASE; destruct (1280000 <? m); lia).
  destruct (w <=? local_window c); [by do 2 eexists|].
  destruct (pack_wf s [FByte SSH2_MSG_CHANNEL_WINDOW_ADJUST; FDword (remote_channel c);
      FDword (u32 (w - local_window c))] "bdd"
      [VInt SSH2_MSG_CHANNEL_WINDOW_ADJUST; VInt (remote_channel c); VInt (u32 (w - local_window c))] b)
    as (rc & b1 & -> & Hs1 & Hwf1 & Hres); [done|done|done|done|done|by repeat constructor|done|by right|].
  cbn [mbind option_bind]. set (s1 := set_base _ s) in *.
  assert (Herr : forall r, session_wf r -> exists rc' s', (s0 ← reinit_out r; Some (SSH_ERROR, s0)) = Some (rc', s') /\ session_wf s').
  { intros r Hr. destruct (reinit_wf r Hr) as (r' & -> & Hr' & _). by do 2 eexists. }
  destruct Hres as [[-> Hc1]| ->]; [|by apply Herr]. cbn [negb SSH_OK Z.eqb].
  change (negb (SSH_OK =? SSH_OK)) with false. cbv iota.
  destruct (send_wf s1 b1 Hs1) as (rc2 & s2 & b2 & -> & Hs2 & [Hh2 _ _ _] & _ & Hrc);
    [unfold s1; cbn; by rewrite out_set_out|rewrite Hc1; by destruct (contents b)|].
  cbn [mbind option_bind]. destruct Hrc as [[-> _]| ->]; [|by apply Herr].
  change (SSH_OK =? SSH_ERROR) with false. cbv iota.
  edestruct (upd_channel_wf s2 a (set_local_window w)) as (s3 & -> & Hs3 & _);
    [done|rewrite Hh2; by exists c|by intros c' []|]. by do 2 eexists.
Qed.

Lemma bufferize_wf s a d len e : session_wf s -> alive a s -> 0 <= len < 2 ^ 32 -> len <= zlen d ->
  exists rc s', channel_default_bufferize s (Some a) (Some d) len e = Some (rc, s') /\ session_wf s'
    /\ alive a s' /\ (rc = 0 /\ streaming e a s' \/ rc = -1).
Proof.
  intros Hs [c Hc] Hlen Hd. unfold channel_default_bufferize. rewrite Hc. cbn [mbind option_bind].
  pose proof (sw_channels _ Hs _ _ Hc) as Hcw.
  assert (Hbuf : exists o, match stream e c with Some b => Some (Some b) | None => ssh_buffer_new end = Some o
    /\ stream_wf o).
  { destruct (stream e c) as [b|] eqn:Hb; [eexists; split; [done|]; by eapply stream_wf_some, stream_wf_of|].
    destruct ssh_buffer_new_spec as (r & -> & Hr). eexists. split; [done|]. intros x ->. by apply Hr. }
  destruct Hbuf as (o & -> & Ho). cbn [mbind option_bind].
  destruct o as [b|]; [|exists (-1), s; split_and!; [done|done|by exists c|by right]].
  assert (Hadd : exists rc b', ssh_buffer_add_data (Some b) (Some d) len = Some (rc, Some b') /\ buffer_wf b'
    /\ (rc = 0 \/ rc = -1)).
  { unfold ssh_buffer_add_data.
    destruct (add_data_spec b d len (Ho b eq_refl) Hlen Hd) as (rc & b' & -> & Hwf & _ & Hrc). cbn [mbind option_bind].
    do 2 eexists. split_and!; [done|done|]. naive_solver. }
  destruct Hadd as (rc & b' & -> & Hwf & Hrc). cbn [mbind option_bind]. destruct Hrc as [-> | ->].
  - change (0 <? 0) with false. cbv iota.
    destruct (upd_channel_wf s a (set_stream e (Some b')) Hs) as (s' & -> & Hs' & _ & _ & Ha' & Hh);
      [by exists c|intros c' Hc'; apply set_stream_wf; [done|by apply stream_wf_some]|]. cbn [mbind option_bind].
    do 2 eexists. split_and!; [done|done|done|left]. split; [done|]. exists (set_stream e (Some b') c).
    split; [by apply Hh|]. by destruct e.
  - change (-1 <? 0) with true. cbv iota.
    destruct (buffer_free_wf (Some b')) as [fr ->]; [by apply stream_wf_some|]. cbn [mbind option_bind].
    destruct (upd_channel_wf s a (free_stream e) Hs) as (s' & -> & Hs' & _ & _ & Ha' & Hh);
      [by exists c|intros c' Hc'; by apply free_stream_wf|]. cbn [mbind option_bind].
    do 2 eexists. split_and!; [done|done|done|by right].
Qed.

Lemma streaming_upd s s' e a f : streaming e a s -> upd_channel a f s = Some s' ->
  (forall c, is_Some (stream e c) -> is_Some (stream e (f c))) -> streaming e a s'.
Proof.
  intros (c & Hc & Hst) Hu Hf. unfold upd_channel in Hu. rewrite Hc in Hu. injection Hu as <-.
  exists (f c). split; [cbn; by simplify_map_eq|]. by apply Hf.
Qed.

Lemma streaming_alive s e a : streaming e a s -> alive a s.
Proof. intros (c & Hc & _). by exists c. Qed.

Lemma pass_stream_wf s e a n : session_wf s -> streaming e a s -> 0 <= n < 2 ^ 32 ->
  returns (streaming e a) (pass_stream a e n s).
Proof.
  intros Hs Hst Hn. pose proof Hst as (c & Hc & b & Hb). unfold pass_stream. rewrite Hc. cbn [mbind option_bind].
  rewrite Hb. cbn [mbind option_bind].
  destruct (pass_bytes_spec b n (stream_wf_of _ _ _ (sw_channels _ Hs _ _ Hc) Hb) Hn) as (b' & -> & Hwf & _).
  destruct (upd_channel_wf s a (set_stream e (Some b')) Hs) as (s' & Hu & Hs' & _);
    [by exists c|intros c' Hc'; apply set_stream_wf; [done|by apply stream_wf_some]|].
  exists s'. split_and!; [exact Hu|done|]. eapply streaming_upd; [done|done|]. intros. by destruct e.
Qed.

Lemma data_callbacks_wf e a cbs : forall s, session_wf s -> streaming e a s -> Forall callback_contract cbs ->
  returns (streaming e a) (data_callbacks cbs a e s).
Proof.
  induction cbs as [|cb cbs IH]; intros s Hs Hst Hcbs; cbn [data_callbacks]; [by exists s|].
  inversion Hcbs as [|? ? Hcb Hrest]; subst.
  destruct (channel_data_function cb) as [f|] eqn:Hf; [|by apply IH].
  pose proof Hst as (c & Hc & b & Hb). rewrite Hc. cbn [mbind option_bind]. rewrite Hb. cbn [mbind option_bind].
  destruct (ssh_buffer_get b) as [d|]; [|by exists s].
  destruct (cc_data _ Hcb f s a (Some d) (ssh_buffer_get_len b) e Hf Hs Hst) as (rest & s1 & -> & Hs1 & Hst1).
  cbn [mbind option_bind]. destruct (0 <? rest).
  - destruct (upd_channel_wf s1 a (count_in rest) Hs1 (streaming_alive _ _ _ Hst1)) as (s2 & Hu & Hs2 & _);
      [by intros c' []|]. rewrite Hu. cbn [mbind option_bind].
    destruct (pass_stream_wf s2 e a (u32 rest) Hs2) as (s3 & -> & Hs3 & Hst3);
      [by eapply streaming_upd|apply u32_range|]. cbn [mbind option_bind]. by apply IH.
  - pose proof Hst1 as (c1 & Hc1 & _). rewrite Hc1. cbn [mbind option_bind]. by apply IH.
Qed.

(** What is parsed off a data packet: the channel, for stderr a code, the data. *)
Lemma data_safe s type : session_wf s -> safe (channel_rcv_data channel_callbacks s type).
Proof.
  intros Hs. unfold channel_rcv_data. generalize (negb (type =? SSH2_MSG_CHANNEL_DATA)) as e. intros e.
  destruct (channel_from_msg_wf s Hs) as (r & s1 & -> & Hs1 & _ & Hr). cbn [mbind option_bind].
  destruct r as [a|]; [|by apply used_safe]. specialize (Hr a eq_refl).
  destruct (lw_in _ (sw_layer _ Hs1)) as (p & Hp & Hpwf). rewrite Hp. cbn [mbind option_bind].
  assert (Hcode : exists n v p', (if e then ssh_buffer_get_u32 p else Some (0, None, p)) = Some (n, v, p') /\ buffer_wf p').
  { destruct e; [|by do 3 eexists]. unfold ssh_buffer_get_u32.
    destruct (get_int_spec 4 p Hpwf) as (p' & -> & Hwf & _); [lia|].
    destruct (_ <=? _); by do 3 eexists. }
  destruct Hcode as (n & v & p' & -> & Hpwf'). cbn [mbind option_bind].
  destruct (get_ssh_string_spec p' Hpwf') as (str & p2 & -> & Hpwf2 & _ & _ & Hstr). cbn [mbind option_bind].
  assert (Hs2 : session_wf (set_base (pl_set_in (Some p2) (base s1)) s1)).
  { apply set_base_wf; [done|]. apply layer_set_in; [apply sw_layer|]; done. }
  destruct str as [str|]; [|by apply used_safe].
  destruct (string_wf_len str (Hstr str eq_refl)) as (Hlen & _ & Hdata). unfold STRING_SIZE_MAX in Hlen.
  destruct (bufferize_wf _ a (str_data str) (ssh_string_len (Some str)) e Hs2 Hr) as (rc & s3 & Hbuf & Hs3 & Ha3 & Hrc);
    [lia|lia|]. change (ssh_string_data (Some str)) with (Some (str_data str)). rewrite Hbuf. cbn [mbind option_bind].
  destruct Hrc as [[-> Hst3]| ->]; [|by apply used_safe]. change (0 <? 0) with false. cbv iota.
  destruct (upd_channel_wf s3 a (take_window (ssh_string_len (Some str))) Hs3 Ha3) as (s4 & Hu & Hs4 & _).
  { clear -Hlen. revert Hlen. generalize (ssh_string_len (Some str)) as len.
    intros len Hlen c [? ? Hw]. constructor; cbn; [done|done|]. destruct (_ <=? _) eqn:Hle; lia. }
  rewrite Hu. cbn [mbind option_bind].
  destruct (data_callbacks_wf e a (channel_callbacks s4 a) s4 Hs4) as (s5 & -> & Hs5 & Hst5);
    [by eapply streaming_upd|done|]. cbn [mbind option_bind].
  pose proof Hst5 as (c & Hc & b & Hb). rewrite Hc. cbn [mbind option_bind]. rewrite Hb. cbn [mbind option_bind].
  destruct (_ <? WINDOWLIMIT); [|by apply used_safe].
  destruct (grow_window_wf s5 a 0 Hs5) as (rc & s6 & -> & Hs6); [by exists c|lia|]. cbn [mbind option_bind].
  destruct (rc <? 0); [by apply safe_ret|by apply used_safe].
Qed.

(** ** Requests *)

(** The slots of a request: their shapes and texts. *)
Lemma unpack_shape s ws format args os s' :
  unpack s format args = Some (SSH_OK, os, s') -> cstr format = wants_format ws -> args = wants_args ws ->
  Forall2 slot_kind (map letter_of (cstr format)) os.
Proof.
  unfold unpack. intros Hu _ _. apply bind_Some in Hu as (b & _ & Hu).
  apply bind_Some in Hu as ([[[rc os'] fr] b'] & Hu & Heq). injection Heq as -> -> _.
  by eapply unpack_kinds.
Qed.

Lemma cstr_slot_some os ls i : Forall2 slot_kind ls os -> Forall slot_ok os -> ls !! i = Some Ls ->
  exists t, cstr_slot os i = Some t.
Proof.
  intros Hk Hok Hi. destruct (Forall2_lookup_l _ _ _ _ _ Hk Hi) as (o & Ho & Hs).
  pose proof (Forall_lookup_1 _ _ _ _ Hok Ho) as Hos. unfold cstr_slot. rewrite Ho.
  destruct o as [| |[p|]| |]; try done. cbn in Hos. unfold text_of. destruct (strlen p); [by eexists|done].
Qed.

Ltac unpacked Hs ws :=
  match goal with |- context [unpack ?r ?f ?args] =>
    destruct (unpack_wf r ws f args Hs) as (rc & os & s' & Hu & Hs' & Hh & _ & Hres);
    [reflexivity|reflexivity|repeat constructor; discriminate|done|]
  end.

Lemma exit_status_safe s a : session_wf s -> alive a s -> safe (rcv_exit_status channel_callbacks a s).
Proof.
  intros Hs Ha. unfold rcv_exit_status. unpacked Hs [WLetter "d"%byte]. rewrite Hu. cbn [mbind option_bind].
  edestruct (upd_channel_wf s' a) as (s2 & -> & Hs2 & _ & _ & Ha2 & _);
    [done|rewrite Hh; exact Ha|by intros c' []|]. cbn [mbind option_bind].
  destruct (negb _); [by apply used_safe|]. pose proof Ha2 as [c Hc]. rewrite Hc. cbn [mbind option_bind].
  destruct (execute_wf channel_exit_status_function (fun f s => f s a (exit_status c)) s2 a Hs2 Ha2) as (s3 & -> & Hs3 & _).
  { intros cb g r Hcb Hg Hr' Ha'. by apply (cc_exit_status _ Hcb). }
  by apply used_safe.
Qed.

Lemma signal_safe s a : session_wf s -> alive a s -> safe (rcv_signal channel_callbacks a s).
Proof.
  intros Hs Ha. unfold rcv_signal. unpacked Hs [WLetter "s"%byte]. rewrite Hu. cbn [mbind option_bind].
  destruct (Z.eqb_spec rc SSH_OK) as [->|]; cbn [negb]; [|by apply used_safe].
  destruct Hres as [[_ Hok]|[? _]]; [|done].
  pose proof (unpack_shape _ [WLetter "s"%byte] _ _ _ _ Hu eq_refl eq_refl) as Hk.
  destruct (cstr_slot_some os _ 0 Hk Hok eq_refl) as [t ->]. cbn [mbind option_bind].
  destruct (execute_wf channel_signal_function (fun f s => f s a t) s' a Hs') as (s3 & -> & Hs3 & _).
  { unfold alive. rewrite Hh. exact Ha. }
  { intros cb g r Hcb Hg Hr' Ha'. by apply (cc_signal _ Hcb). }
  by apply used_safe.
Qed.

Lemma exit_signal_safe s a : session_wf s -> alive a s -> safe (rcv_exit_signal channel_callbacks a s).
Proof.
  intros Hs Ha. unfold rcv_exit_signal.
  unpacked Hs [WLetter "s"%byte; WLetter "b"%byte; WLetter "s"%byte; WLetter "s"%byte]. rewrite Hu. cbn [mbind option_bind].
  destruct (Z.eqb_spec rc SSH_OK) as [->|]; cbn [negb]; [|by apply used_safe].
  destruct Hres as [[_ Hok]|[? _]]; [|done].
  pose proof (unpack_shape _ [WLetter "s"%byte; WLetter "b"%byte; WLetter "s"%byte; WLetter "s"%byte]
    _ _ _ _ Hu eq_refl eq_refl) as Hk.
  destruct (cstr_slot_some os _ 0 Hk Hok eq_refl) as [t ->]. cbn [mbind option_bind].
  destruct (cstr_slot_some os _ 2 Hk Hok eq_refl) as [m ->]. cbn [mbind option_bind].
  destruct (cstr_slot_some os _ 3 Hk Hok eq_refl) as [l ->]. cbn [mbind option_bind].
  destruct (execute_wf channel_exit_signal_function (fun f s => f s a t (int_slot os 1 0) m l) s' a Hs') as (s3 & -> & Hs3 & _).
  { unfold alive. rewrite Hh. exact Ha. }
  { intros cb g r Hcb Hg Hr' Ha'. by apply (cc_exit_signal _ Hcb). }
  by apply used_safe.
Qed.

Lemma keepalive_safe s a : session_wf s -> alive a s -> safe (rcv_keepalive a s).
Proof.
  intros Hs [c Hc]. unfold rcv_keepalive. rewrite Hc. cbn [mbind option_bind].
  destruct (lw_out _ (sw_layer _ Hs)) as (b & Hb & Hbwf & Hbm).
  destruct (pack_wf s [FByte SSH2_MSG_CHANNEL_FAILURE; FDword (remote_channel c)] "bd"
      [VInt SSH2_MSG_CHANNEL_FAILURE; VInt (remote_channel c)] b)
    as (rc & b1 & -> & Hs1 & Hwf1 & Hres); [done|done|done|done|done|by repeat constructor|done|by right|].
  cbn [mbind option_bind]. set (s1 := set_base _ s) in *.
  destruct Hres as [[-> Hc1]| ->]; [|by apply used_safe]. change (negb (SSH_OK =? SSH_OK)) with false. cbv iota.
  destruct (send_wf s1 b1 Hs1) as (rc2 & s2 & b2 & -> & Hs2 & _);
    [unfold s1; cbn; by rewrite out_set_out|rewrite Hc1; by destruct (contents b)|].
  by apply used_safe.
Qed.

Lemma request_safe s type : session_wf s ->
  safe (channel_rcv_request channel_callbacks ssh_message_handle_channel_request s type).
Proof.
  intros Hs. unfold channel_rcv_request.
  destruct (channel_from_msg_wf s Hs) as (r & s1 & -> & Hs1 & _ & Hr). cbn [mbind option_bind].
  destruct r as [a|]; [|by apply used_safe]. specialize (Hr a eq_refl).
  unpacked Hs1 [WLetter "s"%byte; WLetter "b"%byte]. rewrite Hu. cbn [mbind option_bind].
  destruct (Z.eqb_spec rc SSH_OK) as [->|]; cbn [negb]; [|by apply used_safe].
  destruct Hres as [[_ Hok]|[? _]]; [|done].
  pose proof (unpack_shape _ [WLetter "s"%byte; WLetter "b"%byte] _ _ _ _ Hu eq_refl eq_refl) as Hk.
  destruct (cstr_slot_some os _ 0 Hk Hok eq_refl) as [t ->]. cbn [mbind option_bind].
  assert (Ha : alive a s') by (unfold alive; rewrite Hh; by apply Hr).
  destruct (bool_decide _); [by apply exit_status_safe|]. destruct (bool_decide _); [by apply signal_safe|].
  destruct (bool_decide _); [by apply exit_signal_safe|]. destruct (bool_decide _); [by apply keepalive_safe|].
  destruct (bool_decide _).
  - destruct (execute_wf channel_auth_agent_req_function (fun f s => f s a) s' a Hs' Ha) as (s3 & -> & Hs3 & _).
    { intros cb g r Hcb Hg Hr' Ha'. by apply (cc_agent _ Hcb). }
    by apply used_safe.
  - destruct (message_ok s' a t (int_slot os 1 0) Hs' Ha) as (s3 & -> & Hs3 & _). by apply used_safe.
Qed.

(** The handlers of the connection protocol. *)
Definition channel_handlers : list (cs -> Z -> run (Z * cs)) :=
  [ssh_packet_channel_open_conf; ssh_packet_channel_open_fail; channel_rcv_change_window;
   channel_rcv_data channel_callbacks; channel_rcv_eof channel_callbacks; channel_rcv_close channel_callbacks;
   channel_rcv_request channel_callbacks ssh_message_handle_channel_request;
   ssh_packet_channel_success; ssh_packet_channel_failure; ssh_request_success; ssh_request_denied].

(** (C8) Whatever bytes the peer sends, every handler of the connection protocol returns
    without using a freed channel, a null buffer or a byte outside of a block, and
    keeps the session well formed: the list holds distinct channels that are all
    alive, their buffers and windows are in range, and the output buffer
    holds nothing but messages of the connection protocol.  The callbacks of the
    application and the queue of messages keep this promise too. *)
Theorem handlers_keep_channels_alive h s type :
  h ∈ channel_handlers -> session_wf s -> exists rc s', h s type = Some (rc, s') /\ session_wf s'.
Proof.
  intros Hh Hs. change (safe (h s type)). unfold channel_handlers in Hh.
  repeat (apply elem_of_cons in Hh as [->|Hh]); [..|by apply elem_of_nil in Hh].
  - by apply open_conf_safe.
  - by apply open_fail_safe.
  - by apply change_window_safe.
  - by apply data_safe.
  - by apply eof_safe.
  - by apply close_safe.
  - by apply request_safe.
  - by apply success_safe.
  - by apply failure_safe.
  - by apply used_safe, set_global_wf.
  - by apply used_safe, set_global_wf.
Qed.
End Handlers.

(** ** The packet layer of a session

    During a rekeying [ssh_packet_send] takes the messages of the connection
    protocol in its queue; that state of the packet layer satisfies the laws. *)
Section Queueing.
Context `{Allocator} `{BignumLib} `{HmacLib} `{RandomLib} {K X : Type}.
Variable ssh_packet_set_newkeys : session K prng X -> Z -> run (Z * session K prng X).
Variable ssh_send_rekex : session K prng X -> run (Z * session K prng X).
Variable session_alive : X -> bool.   (* [session->alive] belongs to the layers above *)

Definition session_layer : PacketLayer (session K prng X) := {|
  pl_proto := proto_of; pl_set_proto := set_proto;
  pl_alive s := session_alive (upper s);
  pl_in := in_buffer; pl_set_in := set_in_buffer;
  pl_out := out_buffer; pl_set_out := set_out_buffer;
  pl_now := now;
  pl_buffered s := zlen (contents (socket_out s));
  pl_send := Packet.ssh_packet_send ssh_packet_set_newkeys ssh_send_rekex
|}.

Lemma connection_not_kex z : 80 <= z -> ssh_packet_is_kex z = false.
Proof.
  intros Hz. unfold ssh_packet_is_kex. change SSH2_MSG_KEX_DH_GEX_REQUEST with 34.
  rewrite (proj2 (Z.leb_gt z 34)) by lia. by rewrite andb_false_r.
Qed.

Definition queueing_laws (Hmem : malloc_succeeds) :
  @PacketLayerLaws (session K prng X) session_layer.
Proof.
  refine (@Build_PacketLayerLaws _ session_layer (fun s => ssh_packet_in_rekey s = true)
    (fun s => map contents (out_queue s)) _ _ _ _ _ _ _ _ _ _ _ _ _ _ _); try done.
  intros s b t rest Hg Hb Hwf Hc Ht.
  destruct (rekey_queues ssh_packet_set_newkeys ssh_send_rekex s b t rest Hmem Hb Hwf Hc Hg)
    as (nb & Hsend & Hnwf & Hnc); [by apply connection_not_kex|].
  exists SSH_OK. eexists. exists nb. split_and!; [exact Hsend|done..|]. left.
  split_and!; [done|done|]. cbn. by rewrite map_app, <-Hc.
Defined.
End Queueing.

(** ** An example: a client with one open channel, in the middle of a rekeying *)
Module ChannelDemo.
Definition lower (packet : bytes) : session Z (@prng Demo.random) () :=
  mk_session Demo.authenticated (Some (Demo.buffer_of packet)) (Some zero_buffer) [] PACKET_STATE_INIT (mk_packet 0 0 0)
    3 3 (Some Demo.xor_crypto) None None 0 0 (mk_timestamp 0 0) (mk_timestamp 0 0) zero_buffer tt ().

(** Channel 1 of the client is channel 7 of the server. *)
Definition channel (remote_window remote_maxpacket : Z) : ssh_channel :=
  mk_channel 1 CHANNEL_INITIAL_WINDOW 0 CHANNEL_MAX_PACKET 7 remote_window 0 remote_maxpacket
    SSH_CHANNEL_STATE_OPEN 0 0 (Some zero_buffer) (Some zero_buffer) (-1) SSH_CHANNEL_REQ_STATE_NONE None (0, 0)%nat.

Definition state (c : ssh_channel) (packet : bytes) : csession (session Z (@prng Demo.random) ()) :=
  mk_cs (lower packet) {[5%positive := c]} (Some [5%positive]) 1 0 0.

#[export] Instance layer : PacketLayer (session Z (@prng Demo.random) ()) :=
  @session_layer calloc_allocator (Demo.hmac true) Demo.random Z () (fun s _ => Some (0, s))
    (fun s => Some (0, s)) (fun _ => true).
#[export] Instance laws : @PacketLayerLaws _ layer :=
  @queueing_laws calloc_allocator (Demo.hmac true) Demo.random Z () (fun s _ => Some (0, s))
    (fun s => Some (0, s)) (fun _ => true) Demo.calloc_succeeds.

Lemma state_wf c packet : channel_wf c -> zlen packet <= BUFFER_SIZE_MAX ->
  @session_wf _ layer laws (state c packet).
Proof.
  intros Hc Hp. constructor.
  - constructor; [reflexivity| |by exists zero_buffer; split_and!; [|apply zero_buffer_wf|]].
    eexists. split; [reflexivity|]. by apply Demo.buffer_of_wf.
  - apply NoDup_singleton.
  - cbn. intros a ->%list_elem_of_singleton. by simplify_map_eq.
  - cbn. intros a c' Ha. apply lookup_singleton_Some in Ha as [_ <-]. done.
Qed.

Lemma channel_ok w m : channel_wf (channel w m).
Proof.
  constructor; [by apply stream_wf_some, zero_buffer_wf|by apply stream_wf_some, zero_buffer_wf|].
  vm_compute. by split.
Qed.
End ChannelDemo.

(** The peer closes the channel. *)
Lemma handlers_keep_channels_alive_witness :
  exists rc s', @channel_rcv_close calloc_allocator N_bignum _ ChannelDemo.layer (fun _ _ => [])
      (ChannelDemo.state (ChannelDemo.channel 100 1000) (be_bytes 4 1)) 97 = Some (rc, s')
    /\ @session_wf _ ChannelDemo.layer ChannelDemo.laws s'.
Proof.
  apply (@handlers_keep_channels_alive calloc_allocator N_bignum _ ChannelDemo.layer ChannelDemo.laws
    (fun _ _ => []) (fun s _ _ _ => Some s)).
  - intros; constructor.
  - intros s a t n Hs Ha. by exists s.
  - unfold channel_handlers. rewrite !elem_of_cons. do 5 right. by left.
  - apply ChannelDemo.state_wf; [apply ChannelDemo.channel_ok|]. vm_compute. discriminate.
Defined.
