(* ===== verification/ChannelFlow.v ===== *)
(** * Flow control of the channels

    A writer and a reader on the two ends of a channel, non-blocking, with the
    packets between them in two queues.  The window the writer believes to have, what
    is in flight and the window of the reader always agree, and the reader gets
    the bytes of the writer in order. *)

From stdpp Require Import gmap.
From S2P Require Import Prelude SshString Buffer Bignum BufferPack SshList Session Misc Crypto Packet.
From S2P Require Import PacketRecv Kex Channel ChannelSafe.

Section Flow.
Context `{Allocator} `{BignumLib} {L : Type} `{PacketLayerLaws L}.
#[local] Abbreviation cs := (csession L).
Implicit Type s : cs.

(** No packet arrives during a call: the arrivals are steps of their own. *)
Definition quiet (s : cs) (timeout : Z) : run (Z * cs) := Some (0, s).
Definition nonblocking s : Prop := ssh_is_blocking s = false.

(** One poll is enough when nothing arrives. *)
Lemma quiet_wait n s timeout fct : nonblocking s -> timeout < 0 ->
  ssh_handle_packets_termination quiet (S n) s timeout fct
  = (stop ← fct s; Some (if (stop : bool) then SSH_OK else SSH_AGAIN, s)).
Proof.
  intros Hb Ht. unfold ssh_handle_packets_termination. rewrite (proj2 (Z.leb_gt 0 timeout)) by lia.
  rewrite Hb. cbn [wait_loop]. destruct (fct s) as [[]|] eqn:Hf; cbn [mbind option_bind]; [done| |done].
  unfold ssh_handle_packets, quiet. change (SSH_TIMEOUT_NONBLOCKING =? SSH_TIMEOUT_USER) with false.
  cbn [mbind option_bind]. change (0 =? SSH_ERROR) with false. cbv iota.
  change (ssh_timeout_elapsed _ _ SSH_TIMEOUT_NONBLOCKING) with true. cbv iota. by rewrite Hf.
Qed.

(** ** Messages *)

Definition data_msg (e : bool) (id : Z) (chunk : bytes) : bytes :=
  be_bytes 1 (if e then SSH2_MSG_CHANNEL_EXTENDED_DATA else SSH2_MSG_CHANNEL_DATA) ++ be_bytes 4 id
  ++ (if e then be_bytes 4 SSH2_EXTENDED_DATA_STDERR else []) ++ lv chunk.

Definition adjust_msg (id n : Z) : bytes :=
  be_bytes 1 SSH2_MSG_CHANNEL_WINDOW_ADJUST ++ be_bytes 4 id ++ be_bytes 4 n.

Definition out_holds s (q : bytes) : Prop :=
  exists b, pl_out (base s) = Some b /\ buffer_wf b /\ contents b = q.

(** Between two calls nothing is left in the output buffer. *)
Lemma pack_more s fs format args q :
  session_wf s -> out_holds s q -> cstr format = fields_format fs -> args = fields_args fs -> fs <> [] ->
  Forall field_ok fs -> zlen args <= 256 -> q <> [] \/ connection_msg (fields_encode fs) ->
  exists rc s', pack s format args = Some (rc, s') /\ session_wf s' /\ only_base s s'
    /\ pl_sent (base s') = pl_sent (base s)
    /\ (rc = SSH_OK /\ out_holds s' (q ++ fields_encode fs) \/ rc = SSH_ERROR).
Proof.
  intros Hs (b & Hb & Hwf & Hq) Hf Ha Hne Hok Hn Hm.
  destruct (pack_wf s fs format args b Hs Hb Hf Ha Hne Hok Hn) as (rc & b' & -> & Hs' & Hwf' & Hres);
    [by rewrite Hq|].
  do 2 eexists. split_and!; [done|done| |cbn; by rewrite sent_set_out|].
  - constructor; cbn; [done|done|by rewrite in_set_out|by rewrite proto_set_out].
  - destruct Hres as [[-> Hc]| ->]; [left|by right]. split; [done|]. exists b'.
    cbn. rewrite out_set_out. split_and!; [done|done|]. by rewrite Hc, Hq.
Qed.

Lemma only_base_trans s1 s2 s3 : only_base s1 s2 -> only_base s2 s3 -> only_base s1 s3.
Proof. intros [] []. constructor; congruence. Qed.

(** The parts of a data message, packed one after the other. *)
Lemma pack_chunk_spec s a e chunk c :
  session_wf s -> out_holds s [] -> heap s !! a = Some c -> zlen chunk < 2 ^ 32 ->
  exists rc s', pack_chunk a e chunk s = Some (rc, s') /\ session_wf s' /\ only_base s s'
    /\ pl_sent (base s') = pl_sent (base s)
    /\ (rc = SSH_OK /\ out_holds s' (data_msg e (remote_channel c) chunk) \/ rc <> SSH_OK).
Proof.
  intros Hs Ho Hc Hl. unfold pack_chunk. rewrite Hc. cbn [mbind option_bind].
  set (t := if e then SSH2_MSG_CHANNEL_EXTENDED_DATA else SSH2_MSG_CHANNEL_DATA).
  destruct (pack_more s [FByte t; FDword (remote_channel c)] "bd" [VInt t; VInt (remote_channel c)] [] Hs Ho)
    as (rc & s1 & -> & Hs1 & Hb1 & Hp1 & Hres); [done|done|done|by repeat constructor|done| |].
  { right. unfold t. destruct e; vm_compute; discriminate. }
  cbn [mbind option_bind]. destruct Hres as [[-> Ho1]| ->]; [|do 2 eexists; split_and!; [done..|by right]].
  change (negb (SSH_OK =? SSH_OK)) with false. cbv iota. cbn [app] in Ho1.
  assert (Hcode : exists rc s', (if e then pack s1 "d" [VInt SSH2_EXTENDED_DATA_STDERR] else Some (SSH_OK, s1)) = Some (rc, s')
    /\ session_wf s' /\ only_base s1 s' /\ pl_sent (base s') = pl_sent (base s1)
    /\ (rc = SSH_OK /\ out_holds s' (fields_encode [FByte t; FDword (remote_channel c)]
          ++ (if e then be_bytes 4 SSH2_EXTENDED_DATA_STDERR else [])) \/ rc = SSH_ERROR)).
  { destruct e.
    - destruct (pack_more s1 [FDword SSH2_EXTENDED_DATA_STDERR] "d" [VInt SSH2_EXTENDED_DATA_STDERR] _ Hs1 Ho1)
        as (rc & s2 & -> & Hs2 & Hb2 & Hp2 & Hres); [done|done|done|by repeat constructor|done|by left|].
      do 2 eexists. by split_and!.
    - do 2 eexists. split_and!; [done|done|by constructor|done|left]. by rewrite app_nil_r. }
  destruct Hcode as (rc & s2 & -> & Hs2 & Hb2 & Hp2 & Hres). cbn [mbind option_bind].
  destruct Hres as [[-> Ho2]| ->].
  2: { do 2 eexists. split_and!; [done|done|by eapply only_base_trans|congruence|by right]. }
  change (negb (SSH_OK =? SSH_OK)) with false. cbv iota.
  destruct (pack_more s2 [FDword (zlen chunk); FData chunk] "dP"
      [VInt (zlen chunk); VLen (zlen chunk); VPtr (Some chunk)] _ Hs2 Ho2)
    as (rc & s3 & -> & Hs3 & Hb3 & Hp3 & Hres); [done|done|done|by repeat constructor|done|by left|].
  do 2 eexists. split_and!; [done|done|by do 2 (eapply only_base_trans; [done|])|congruence|].
  destruct Hres as [[-> Ho3]| ->]; [left|by right]. split; [done|].
  replace (data_msg e (remote_channel c) chunk) with
    ((fields_encode [FByte t; FDword (remote_channel c)] ++ (if e then be_bytes 4 SSH2_EXTENDED_DATA_STDERR else []))
     ++ fields_encode [FDword (zlen chunk); FData chunk]); [done|].
  unfold data_msg, fields_encode, lv, t. cbn [map concat encode]. by rewrite ?app_nil_r, <- ?app_assoc.
Qed.

Lemma send_more s q :
  session_wf s -> out_holds s q -> q <> [] ->
  exists rc s', ssh_packet_send s = Some (rc, s') /\ session_wf s' /\ only_base s s'
    /\ (rc = SSH_OK /\ out_holds s' [] /\ pl_sent (base s') = pl_sent (base s) ++ [q] \/ rc = SSH_ERROR).
Proof.
  intros Hs (b & Hb & Hwf & Hq) Hne.
  destruct (send_wf s b Hs Hb) as (rc & s' & b' & -> & Hs' & Hbase & Hb' & Hres); [by rewrite Hq|].
  do 2 eexists. split_and!; [done|done|done|]. destruct Hres as [(-> & Hc & Hsent)| ->]; [left|by right].
  split_and!; [done| |by rewrite Hsent, Hq].
  destruct (lw_out _ (sw_layer _ Hs')) as (x & Hx & Hxwf & _). exists b'. split_and!; [done| |done]. congruence.
Qed.

Lemma data_msg_cons e id chunk : exists rest,
  data_msg e id chunk = z2b (if e then SSH2_MSG_CHANNEL_EXTENDED_DATA else SSH2_MSG_CHANNEL_DATA) :: rest.
Proof. by eexists. Qed.

(** ** Writing *)

(** The channel after some bytes were written. *)
Definition windowed (w : Z) (k : option ssh_counter) (c : ssh_channel) : ssh_channel :=
  set_ch_counter k (set_remote_window w c).

Lemma windowed_twice w k w' k' c : windowed w' k' (windowed w k c) = windowed w' k' c.
Proof. done. Qed.

(** What a call of the loop has done: [n] bytes went out in chunks. *)
Record wrote (s s' : cs) (a : positive) (c : ssh_channel) (e : bool) (maxp : Z) (sent : bytes) : Prop := {
  wr_wf : session_wf s';
  wr_out : out_holds s' [];
  wr_channels : channels s' = channels s;
  wr_in : pl_in (base s') = pl_in (base s);
  wr_proto : pl_proto (base s') = pl_proto (base s);
  wr_heap : exists k, heap s' = <[a := windowed (remote_window c - zlen sent) k c]> (heap s);
  wr_sent : exists chunks, concat chunks = sent /\ Forall (fun k => Z.min 1 maxp <= zlen k <= maxp) chunks
    /\ pl_sent (base s') = pl_sent (base s) ++ map (data_msg e (remote_channel c)) chunks
}.

Lemma wrote_nothing s a c e maxp : session_wf s -> out_holds s [] -> heap s !! a = Some c ->
  wrote s s a c e maxp [].
Proof.
  intros Hs Ho Hc. constructor; [done..| |].
  - exists (ch_counter c). rewrite zlen_nil, Z.sub_0_r. replace (windowed _ _ c) with c by by destruct c.
    by rewrite insert_id.
  - exists []. split_and!; [done|constructor|by rewrite app_nil_r].
Qed.

Lemma wrote_more s s1 s2 a c c1 e maxp chunk sent :
  wrote s s1 a c e maxp chunk -> heap s1 !! a = Some c1 -> wrote s1 s2 a c1 e maxp sent ->
  wrote s s2 a c e maxp (chunk ++ sent).
Proof.
  intros [? ? Hch Hin Hpr [k Hh] (ks & <- & Hks & Hse)] Hc1 [? ? Hch2 Hin2 Hpr2 [k2 Hh2] (ks2 & <- & Hks2 & Hse2)].
  assert (Hrc : c1 = windowed (remote_window c - zlen (concat ks)) k c).
  { rewrite Hh in Hc1. by simplify_map_eq. }
  subst c1. constructor; [done|done|congruence..| |].
  - exists k2. rewrite Hh2, Hh, insert_insert, decide_True, windowed_twice by done. cbn [remote_window windowed set_ch_counter set_remote_window].
    do 2 f_equal. zlen_lia.
  - exists (ks ++ ks2). split_and!; [by rewrite concat_app|by apply Forall_app|].
    rewrite Hse2, Hse, map_app, <-app_assoc. done.
Qed.

Definition writable s (a : positive) (c : ssh_channel) : Prop :=
  heap s !! a = Some c /\ ch_state c = SSH_CHANNEL_STATE_OPEN /\ 0 <= remote_window c < 2 ^ 32.

(** One message. *)
Lemma write_chunk s a e c maxp data :
  session_wf s -> out_holds s [] -> writable s a c -> 0 <= maxp -> 0 < zlen data < 2 ^ 32 -> 0 < remote_window c ->
  let n := chunk_len c data maxp in
  Z.min 1 maxp <= n <= zlen data /\ n <= remote_window c /\
  exists rc s1, pack_chunk a e (ztake n data) s = Some (rc, s1)
    /\ (rc = SSH_OK /\ (exists rc2 s2, ssh_packet_send s1 = Some (rc2, s2)
          /\ (rc2 = SSH_OK /\ (exists s3, upd_channel a (fun c => count_out n (set_remote_window (u32 (remote_window c - n)) c)) s2 = Some s3
                 /\ wrote s s3 a c e maxp (ztake n data))
              \/ rc2 = SSH_ERROR))
        \/ session_wf s1 /\ rc <> SSH_OK).
Proof.
  intros Hs Ho (Hc & _ & Hw) Hm Hd Hw0 n.
  assert (Hn : Z.min 1 maxp <= n <= zlen data /\ n <= remote_window c /\ n <= maxp).
  { unfold n, chunk_len. destruct (remote_window c <? zlen data) eqn:?; lia. }
  split; [lia|]. split; [lia|].
  assert (Hz : zlen (ztake n data) = n) by zlen_lia.
  destruct (pack_chunk_spec s a e (ztake n data) c Hs Ho Hc) as (rc & s1 & -> & Hs1 & Hb1 & Hp1 & Hres); [lia|].
  do 2 eexists. split; [done|]. destruct Hres as [[-> Ho1]|]; [left|by right]. split; [done|].
  destruct (send_more s1 _ Hs1 Ho1) as (rc2 & s2 & -> & Hs2 & Hb2 & Hres).
  { destruct (data_msg_cons e (remote_channel c) (ztake n data)) as [r ->]. done. }
  do 2 eexists. split; [done|]. destruct Hres as [(-> & Ho2 & Hse2)|]; [left|by right]. split; [done|].
  destruct (only_base_trans _ _ _ Hb1 Hb2) as [Hh Hch Hin Hpr].
  assert (Hc2 : heap s2 !! a = Some c) by by rewrite Hh.
  edestruct (upd_channel_wf s2 a) as (s3 & Hu & Hs3 & Hba & Hch3 & _ & Hnew);
    [done|by exists c| |]; cycle 1.
  - exists s3. split; [exact Hu|]. specialize (Hnew c Hc2). cbn beta in Hnew.
    constructor; [done|by unfold out_holds; rewrite Hba|congruence..| |].
    + eexists. unfold upd_channel in Hu. rewrite Hc2 in Hu. injection Hu as <-. cbn [heap set_heap]. rewrite Hh, Hz.
      rewrite u32_small by lia. reflexivity.
    + exists [ztake n data]. cbn [concat map]. rewrite app_nil_r. split_and!; [done|constructor; [lia|constructor]|].
      rewrite Hba, Hse2. by rewrite Hp1.
  - by intros c' [? ? ?].
Qed.

Lemma ztake_split {A} (n m : Z) (l : list A) : 0 <= n -> 0 <= m -> n <= zlen l ->
  ztake (n + m) l = ztake n l ++ ztake m (zdrop n l).
Proof.
  intros. rewrite <-(ztake_drop n l) at 1. rewrite ztake_app_ge by zlen_lia. do 2 f_equal. zlen_lia.
Qed.

Lemma wrote_state s s' a c e maxp sent : writable s a c -> wrote s s' a c e maxp sent ->
  zlen sent <= remote_window c ->
  exists c', writable s' a c' /\ remote_window c' = remote_window c - zlen sent
    /\ remote_channel c' = remote_channel c /\ in_error s' = in_error s /\ (nonblocking s -> nonblocking s').
Proof.
  intros (Hc & Hst & Hw) Hwr Hle. pose proof (zlen_nonneg sent). destruct (wr_heap _ _ _ _ _ _ _ Hwr) as [k Hh].
  pose proof (wr_proto _ _ _ _ _ _ _ Hwr) as Hp.
  exists (windowed (remote_window c - zlen sent) k c).
  split; [split; [|split; [done|cbn; lia]]; rewrite Hh; by simplify_map_eq|]. do 2 (split; [done|]).
  unfold in_error, session_state_of, nonblocking, ssh_is_blocking. by rewrite Hp.
Qed.

(** The loop writes what the window allows, or it reports an error. *)
Lemma write_loop_spec wf a e maxp : 1 <= maxp -> forall fuel s data c,
  session_wf s -> out_holds s [] -> writable s a c -> nonblocking s -> in_error s = false ->
  zlen data < 2 ^ 32 -> (Z.to_nat (zlen data) < fuel)%nat ->
  exists ex rest s', write_loop quiet (S wf) fuel a e maxp data s = Some (ex, rest, s')
    /\ (ex = WError /\ session_wf s' \/ ex = WReturn SSH_ERROR
        \/ let n := Z.min (zlen data) (remote_window c) in
           ex = (if n =? zlen data then WDone else WOut) /\ rest = zdrop n data
           /\ wrote s s' a c e maxp (ztake n data)).
Proof.
  intros Hm. induction fuel as [|fuel IH]; intros s data c Hs Ho Hwr Hnb Herr Hd Hf; [lia|]. cbn [write_loop].
  pose proof (zlen_nonneg data). pose proof Hwr as (Hc & Hst & Hw).
  destruct (Z.leb_spec (zlen data) 0) as [Hz|Hz].
  { do 3 eexists. split; [done|]. right. right. cbv zeta. rewrite Z.min_l by lia. rewrite Z.eqb_refl.
    rewrite zdrop_0, ztake_0 by lia. split_and!; [done..|]. by apply wrote_nothing. }
  rewrite Hc. cbn [mbind option_bind].
  destruct (Z.eqb_spec (remote_window c) 0) as [Hw0|Hw0].
  { rewrite Hw0. rewrite (proj2 (Z.ltb_lt 0 (zlen data))) by lia. cbn [andb].
    unfold SSH_TIMEOUT_DEFAULT. rewrite quiet_wait by (done || lia).
    unfold ssh_channel_waitwindow_termination. rewrite Hc. cbn [mbind option_bind].
    rewrite Herr. cbn [mbind option_bind]. rewrite Hc. cbn [mbind option_bind]. rewrite Hw0, Hst. cbn.
    do 3 eexists. split; [done|]. right. right. cbv zeta. rewrite Z.min_r by lia.
    rewrite (proj2 (Z.eqb_neq 0 _)) by lia. rewrite zdrop_0, ztake_0 by lia.
    split_and!; [done..|]. by apply wrote_nothing. }
  rewrite andb_false_r. destruct (write_chunk s a e c maxp data Hs Ho Hwr) as (Hn & Hnw & rc & s1 & -> & Hres); [lia..|].
  set (n := chunk_len c data maxp) in *. cbn [mbind option_bind].
  destruct Hres as [(-> & rc2 & s2 & -> & Hres)|Hrc].
  2: { destruct Hrc as [Hs1 Hrc]. rewrite (proj2 (Z.eqb_neq _ _)) by done. cbn [negb].
       do 3 eexists. split; [done|]. by left. }
  change (negb (SSH_OK =? SSH_OK)) with false. cbv iota. cbn [mbind option_bind].
  destruct Hres as [(-> & s3 & -> & Hwrote)| ->].
  2: { change (SSH_ERROR =? SSH_ERROR) with true. cbv iota. do 3 eexists. split; [done|]. right. by left. }
  change (SSH_OK =? SSH_ERROR) with false. cbv iota. cbn [mbind option_bind].
  assert (Hzn : zlen (ztake n data) = n) by zlen_lia.
  destruct (wrote_state s s3 a c e maxp _ Hwr Hwrote) as (c3 & Hwr3 & Hrw3 & Hrc3 & He3 & Hnb3); [lia|].
  rewrite Hzn in Hrw3. assert (Hzd : zlen (zdrop n data) = zlen data - n) by zlen_lia.
  destruct (IH s3 (zdrop n data) c3 (wr_wf _ _ _ _ _ _ _ Hwrote) (wr_out _ _ _ _ _ _ _ Hwrote) Hwr3 (Hnb3 Hnb))
    as (ex & rest & s' & -> & Hres); [congruence|lia|lia|].
  do 3 eexists. split; [done|]. destruct Hres as [?|[?|(-> & -> & Hw3)]]; [by left|right; by left|right; right].
  cbv zeta. rewrite Hzd, Hrw3 in *.
  replace (Z.min (zlen data) (remote_window c)) with (n + Z.min (zlen data - n) (remote_window c - n)) by lia.
  split_and!.
  - by destruct (Z.eqb_spec (Z.min (zlen data - n) (remote_window c - n)) (zlen data - n)),
      (Z.eqb_spec (n + Z.min (zlen data - n) (remote_window c - n)) (zlen data)); [|lia..|].
  - by rewrite zdrop_drop by lia.
  - rewrite ztake_split by lia. by eapply wrote_more; [|apply Hwr3|].
Qed.

Lemma flush_quiet wf s : nonblocking s ->
  exists rc, ssh_channel_flush quiet (S wf) s = Some (rc, s) /\ rc <> SSH_ERROR.
Proof.
  intros Hnb. unfold ssh_channel_flush, ssh_blocking_flush. rewrite quiet_wait by (done || (unfold SSH_TIMEOUT_DEFAULT; lia)).
  cbn [mbind option_bind]. destruct (ssh_flush_termination s); [by exists SSH_OK|by exists SSH_AGAIN].
Qed.

(** What a writer needs: a channel that is open in its direction, between two calls,
    with packets that can hold data. *)
Record ready s (a : positive) (c : ssh_channel) : Prop := {
  rd_wf : session_wf s;
  rd_out : out_holds s [];
  rd_writable : writable s a c;
  rd_nonblocking : nonblocking s;
  rd_error : in_error s = false;
  rd_session : ssh_waitsession_unblocked s = true;
  rd_eof : local_eof c = 0;
  rd_delayed : delayed_close c = 0;
  rd_maxpacket : 11 <= remote_maxpacket c < 2 ^ 32
}.

Lemma channel_write_spec wf fuel s a c e data :
  ready s a c -> zlen data <= INT_MAX -> (Z.to_nat (zlen data) < fuel)%nat ->
  exists rc s', channel_write_common quiet (S wf) fuel (Some a) (Some data) e s = Some (rc, s')
    /\ (rc = SSH_ERROR \/ rc = Z.min (zlen data) (remote_window c)
          /\ wrote s s' a c e (remote_maxpacket c - 10) (ztake rc data)).
Proof.
  intros [Hs Ho Hwr Hnb Herr Hun Heof Hdel Hmax] Hlen Hf. pose proof Hwr as (Hc & Hst & Hw). unfold INT_MAX in Hlen.
  pose proof (zlen_nonneg data). unfold channel_write_common, INT_MAX. rewrite (proj2 (Z.ltb_ge _ _)) by lia.
  rewrite Hc. cbn [mbind option_bind]. rewrite Heof, Hst, Hdel, Herr, Hun. cbn [negb orb Z.eqb bool_decide_eq_true].
  rewrite bool_decide_true by done. cbn [negb orb mbind option_bind]. rewrite u32_small by lia.
  destruct (write_loop_spec wf a e (remote_maxpacket c - 10)) with (fuel := fuel) (s := s) (data := data) (c := c)
    as (ex & rest & s' & -> & Hres); [lia|done..|lia|done|]. cbn [mbind option_bind].
  destruct Hres as [[-> Hs']|[->|(-> & -> & Hwrote)]].
  - destruct (reinit_wf s' Hs') as (s2 & -> & _). do 2 eexists. split; [done|by left].
  - do 2 eexists. split; [done|by left].
  - cbv zeta in *. set (n := Z.min _ _) in *. destruct (wrote_state _ _ _ _ _ _ _ Hwr Hwrote) as (c' & _ & _ & _ & _ & Hnb'); [zlen_lia|].
    assert (Hn : zlen data - zlen (zdrop n data) = n) by zlen_lia. rewrite Hn.
    destruct (n =? zlen data); [|do 2 eexists; split; [done|by right]].
    destruct (flush_quiet wf s' (Hnb' Hnb)) as (rc & -> & Hrc). cbn [mbind option_bind].
    rewrite (proj2 (Z.eqb_neq _ _)) by done. do 2 eexists. split; [done|by right].
Qed.

(** ** Receiving *)

(** A packet of the peer is at the handler: its type was read, [payload] is left. *)
Definition in_holds s (payload : bytes) : Prop :=
  exists b, pl_in (base s) = Some b /\ buffer_wf b /\ contents b = payload.

Lemma unpack_dword s z rest : session_wf s -> in_holds s (be_bytes 4 z ++ rest) -> 0 <= z < 2 ^ 32 ->
  exists s', unpack s "d" [UPtr] = Some (SSH_OK, [SlotInt (Some z)], s') /\ session_wf s' /\ in_holds s' rest
    /\ heap s' = heap s /\ channels s' = channels s /\ pl_out (base s') = pl_out (base s)
    /\ pl_proto (base s') = pl_proto (base s) /\ pl_sent (base s') = pl_sent (base s).
Proof.
  intros Hs (b & Hb & Hwf & Hc) Hz.
  destruct (unpack_int_prefix 4 ntohl b z rest Hwf) as (b' & Hu & Hwf' & _ & Hc');
    [lia|done|rewrite ntohl_le_val by done; apply be_val_bytes|].
  change (256 ^ Z.of_nat 4) with (2 ^ 32) in Hu. rewrite Z.mod_small in Hu by lia.
  assert (He : ssh_buffer_unpack b (cstr "d") [UPtr] = Some (SSH_OK, [SlotInt (Some z)], [], b')).
  { unfold ssh_buffer_unpack, _ssh_buffer_unpack, ssh_buffer_unpack_va.
    change (cstr "d") with ["d"%byte]. cbn [unpack_loop]. change (letter_of "d") with Ld. cbn [unpack_one].
    rewrite Hu. by cbn. }
  eexists. split; [unfold unpack; rewrite Hb; cbn [mbind option_bind]; by rewrite He|].
  split_and!; [|exists b'; cbn; by rewrite in_set_in|done|done|cbn; by rewrite out_set_in|cbn; by rewrite proto_set_in|cbn; by rewrite sent_set_in].
  apply set_base_wf; [done|]. apply layer_set_in; [apply sw_layer|]; done.
Qed.

Definition zsum (l : list Z) : Z := foldr Z.add 0 l.
Lemma zsum_app l k : zsum (l ++ k) = zsum l + zsum k.
Proof. induction l as [|x l IH]; cbn; [done|]. unfold zsum in *. lia. Qed.

(** A call that changed the channel [a] to [c'] and granted the windows [ns]. *)
Record granted s s' (a : positive) (c c' : ssh_channel) (ns : list Z) : Prop := {
  gr_wf : session_wf s';
  gr_out : out_holds s' [];
  gr_channels : channels s' = channels s;
  gr_proto : pl_proto (base s') = pl_proto (base s);
  gr_heap : heap s' = <[a := c']> (heap s);
  gr_remote : remote_channel c' = remote_channel c;
  gr_ns : Forall (fun n => 0 < n < 2 ^ 32) ns;
  gr_sent : pl_sent (base s') = pl_sent (base s) ++ map (adjust_msg (remote_channel c)) ns
}.

Lemma granted_trans s s1 s2 a c c1 c2 ns ms :
  granted s s1 a c c1 ns -> granted s1 s2 a c1 c2 ms -> granted s s2 a c c2 (ns ++ ms).
Proof.
  intros [_ _ Hch Hp Hh Hr Hn Hse] [? ? Hch2 Hp2 Hh2 Hr2 Hn2 Hse2].
  constructor; [done|done|congruence..| | |by apply Forall_app|].
  - rewrite Hh2, Hh. by rewrite insert_insert, decide_True.
  - congruence.
  - by rewrite Hse2, Hse, map_app, <-app_assoc, Hr.
Qed.

Lemma granted_refl s a c : session_wf s -> out_holds s [] -> heap s !! a = Some c -> granted s s a c c [].
Proof. intros. constructor; [done|done|done|done|by rewrite insert_id|done|constructor|by rewrite app_nil_r]. Qed.

(** A change of the channel alone. *)
Lemma granted_upd s a c f : session_wf s -> out_holds s [] -> heap s !! a = Some c ->
  (forall c, channel_wf c -> channel_wf (f c)) -> remote_channel (f c) = remote_channel c ->
  exists s', upd_channel a f s = Some s' /\ granted s s' a c (f c) [].
Proof.
  intros Hs Ho Hc Hf Hr. destruct (upd_channel_wf s a f Hs) as (s' & Hu & Hs' & Hb & Hch & _); [by eexists|done|].
  exists s'. split; [done|].
  assert (heap s' = <[a := f c]> (heap s)) by (unfold upd_channel in Hu; rewrite Hc in Hu; by injection Hu as <-).
  constructor; [done|by unfold out_holds; rewrite Hb|done|by rewrite Hb|done|done|constructor|by rewrite Hb, app_nil_r].
Qed.

Lemma granted_at s s' a c c' ns : granted s s' a c c' ns -> heap s' !! a = Some c'.
Proof. intros [_ _ _ _ Hh _ _ _]. rewrite Hh. by simplify_map_eq. Qed.

(** The window is not reduced, and the peer is told by how much it grew. *)
Lemma grow_window_spec s a m c :
  session_wf s -> out_holds s [] -> heap s !! a = Some c -> 0 <= m < 2 ^ 32 -> 0 <= remote_channel c < 2 ^ 32 ->
  exists rc s', grow_window s a m = Some (rc, s')
    /\ (rc = SSH_OK /\ (exists ns, granted s s' a c (set_local_window (local_window c + zsum ns) c) ns
          /\ Z.max WINDOWBASE m <= local_window c + zsum ns) \/ rc = SSH_ERROR).
Proof.
  intros Hs Ho Hc Hm Hid. unfold grow_window. rewrite Hc. cbn [mbind option_bind].
  pose proof (cw_window _ (sw_channels _ Hs _ _ Hc)) as Hw.
  set (w := if WINDOWBASE <? m then m else WINDOWBASE).
  assert (Hwm : w = Z.max WINDOWBASE m) by (unfold w; destruct (Z.ltb_spec WINDOWBASE m); lia).
  assert (Hw32 : w < 2 ^ 32) by (unfold WINDOWBASE in *; lia).
  destruct (Z.leb_spec w (local_window c)) as [Hle|Hgt].
  { do 2 eexists. split; [done|left]. split; [done|]. exists []. cbn [zsum foldr]. rewrite Z.add_0_r.
    replace (set_local_window (local_window c) c) with c by by destruct c. split; [by apply granted_refl|lia]. }
  rewrite u32_small by (unfold WINDOWBASE in *; lia).
  destruct (pack_more s [FByte SSH2_MSG_CHANNEL_WINDOW_ADJUST; FDword (remote_channel c); FDword (w - local_window c)]
      "bdd" [VInt SSH2_MSG_CHANNEL_WINDOW_ADJUST; VInt (remote_channel c); VInt (w - local_window c)] [] Hs Ho)
    as (rc & s1 & -> & Hs1 & Hb1 & Hp1 & Hres); [done|done|done|by repeat constructor|done|by right|].
  assert (Herr : forall r, session_wf r -> exists rc' s', (s0 ← reinit_out r; Some (SSH_ERROR, s0)) = Some (rc', s')
    /\ rc' = SSH_ERROR) by (intros r Hr; destruct (reinit_wf r Hr) as (r' & -> & _); by do 2 eexists).
  cbn [mbind option_bind]. destruct Hres as [[-> Ho1]| ->].
  2: { destruct (Herr s1 Hs1) as (? & ? & He & ->). rewrite (proj2 (Z.eqb_neq _ _)) by done. cbn [negb].
       do 2 eexists. split; [exact He|by right]. }
  change (negb (SSH_OK =? SSH_OK)) with false. cbv iota. cbn [app] in Ho1.
  destruct (send_more s1 _ Hs1 Ho1) as (rc2 & s2 & -> & Hs2 & Hb2 & Hres); [done|]. cbn [mbind option_bind].
  destruct Hres as [(-> & Ho2 & Hse2)| ->].
  2: { destruct (Herr s2 Hs2) as (? & ? & He & ->). do 2 eexists. split; [exact He|by right]. }
  change (SSH_OK =? SSH_ERROR) with false. cbv iota. destruct (only_base_trans _ _ _ Hb1 Hb2) as [Hh Hch Hin Hpr].
  destruct (granted_upd s2 a c (set_local_window w)) as (s3 & -> & [? ? ? ? Hh3 ? ? Hse3]);
    [done|done|by rewrite Hh|intros c' []; constructor; [done..|cbn; unfold WINDOWBASE in *; lia]|done|].
  cbn [mbind option_bind]. do 2 eexists. split; [done|left]. split; [done|]. exists [w - local_window c].
  cbn [zsum foldr]. rewrite Z.add_0_r, Zplus_minus. split; [|lia].
  constructor; [done|done|congruence|congruence|by rewrite Hh3, Hh|done|repeat constructor; lia|].
  by rewrite Hse3, app_nil_r, Hse2, Hp1.
Qed.

(** ** Data at the reader *)

Definition buffered (e : bool) (c : ssh_channel) : bytes :=
  match stream e c with Some b => contents b | None => [] end.

(** The stream can take [n] bytes more. *)
Definition has_room (e : bool) (n : Z) (c : ssh_channel) : Prop :=
  exists b, stream e c = Some b /\ b_used b + n < BUFFER_SIZE_MAX.

Definition data_type (e : bool) : Z := if e then SSH2_MSG_CHANNEL_EXTENDED_DATA else SSH2_MSG_CHANNEL_DATA.
Definition data_payload (e : bool) (id : Z) (k : bytes) : bytes :=
  be_bytes 4 id ++ (if e then be_bytes 4 SSH2_EXTENDED_DATA_STDERR else []) ++ lv k.

Lemma from_msg_holds s id rest a :
  session_wf s -> in_holds s (be_bytes 4 id ++ rest) -> 0 <= id < 2 ^ 32 ->
  ssh_channel_from_local s id = Some (Some a) ->
  exists s', channel_from_msg s = Some (Some a, s') /\ session_wf s' /\ in_holds s' rest
    /\ heap s' = heap s /\ channels s' = channels s /\ pl_out (base s') = pl_out (base s)
    /\ pl_proto (base s') = pl_proto (base s) /\ pl_sent (base s') = pl_sent (base s).
Proof.
  intros Hs Hin Hid Hl. unfold channel_from_msg.
  destruct (unpack_dword s id rest Hs Hin Hid) as (s' & -> & Hs' & Hin' & Hh & Hch & Hrest). cbn [mbind option_bind].
  change (negb (SSH_OK =? SSH_OK)) with false. cbv iota. change (int_slot _ 0 0) with id.
  assert (ssh_channel_from_local s' id = Some (Some a)) as -> by (unfold ssh_channel_from_local; by rewrite Hh, Hch).
  cbn [mbind option_bind]. by exists s'.
Qed.

Lemma granted_from s s1 s' a c c' ns :
  granted s1 s' a c c' ns -> heap s1 = heap s -> channels s1 = channels s ->
  pl_proto (base s1) = pl_proto (base s) -> pl_sent (base s1) = pl_sent (base s) -> granted s s' a c c' ns.
Proof. intros [] Hh Hch Hp Hse. constructor; rewrite <-?Hh, <-?Hch, <-?Hp, <-?Hse; done. Qed.

Lemma bufferize_ok s a c k p e :
  malloc_succeeds -> session_wf s -> out_holds s [] -> heap s !! a = Some c -> has_room e (zlen k) c ->
  zlen k <= zlen p -> ztake (zlen k) p = k ->
  exists s' b', channel_default_bufferize s (Some a) (Some p) (zlen k) e = Some (0, s')
    /\ granted s s' a c (set_stream e (Some b') c) [] /\ buffer_wf b' /\ contents b' = buffered e c ++ k.
Proof.
  intros Hmem Hs Ho Hc (b & Hb & Hroom) Hp Hk. unfold channel_default_bufferize, buffered. rewrite Hc. cbn [mbind option_bind]. rewrite Hb. cbn [mbind option_bind].
  pose proof (zlen_nonneg k). unfold ssh_buffer_add_data.
  destruct (add_data_ok b p (zlen k) Hmem) as (b' & -> & Hwf' & _ & Hc');
    [apply (stream_wf_of e c); [by apply (sw_channels _ Hs a)|done]|lia|done|].
  cbn [mbind option_bind]. change (0 <? 0) with false. cbv iota.
  destruct (granted_upd s a c (set_stream e (Some b'))) as (s' & -> & Hg);
    [done|done|done|intros; apply set_stream_wf; [done|by apply stream_wf_some]|by destruct e|].
  cbn [mbind option_bind]. do 2 eexists. split_and!; [done|done|done|]. by rewrite Hc', Hk.
Qed.

(** The string at the front of the rest of a data packet. *)
Lemma data_string s (e : bool) k : malloc_succeeds -> session_wf s ->
  in_holds s ((if e then be_bytes 4 SSH2_EXTENDED_DATA_STDERR else []) ++ lv k) ->
  exists p0 (n : Z) (v : option Z) p1 str p2, pl_in (base s) = Some p0
    /\ (if e then ssh_buffer_get_u32 p0 else Some (0, None, p0)) = Some (n, v, p1)
    /\ ssh_buffer_get_ssh_string p1 = Some (Some str, p2) /\ buffer_wf p2
    /\ ssh_string_len (Some str) = zlen k /\ zlen (str_data str) = zlen k + 1 /\ ztake (zlen k) (str_data str) = k.
Proof.
  intros Hmem Hs (p0 & Hp0 & Hwf & Hc).
  assert (Hcode : exists (n : Z) (v : option Z) p1, (if e then ssh_buffer_get_u32 p0 else Some (0, None, p0)) = Some (n, v, p1)
    /\ buffer_wf p1 /\ contents p1 = lv k ++ []).
  { rewrite app_nil_r. destruct e; [unfold ssh_buffer_get_u32|by do 3 eexists].
    destruct (get_int_prefix 4 p0 _ _ Hwf ltac:(lia) Hc eq_refl) as (p1 & -> & ? & _ & ?). by do 3 eexists. }
  destruct Hcode as (n & v & p1 & Hn & Hwf1 & Hc1).
  destruct (get_ssh_string_lv Hmem p1 k [] Hwf1 Hc1) as (str & p2 & Hstr & Hwf2 & _ & _ & Hsw & Ht).
  exists p0, n, v, p1, str, p2. pose proof (string_text_zlen str Hsw) as Hl. rewrite Ht in Hl.
  destruct (string_wf_len str Hsw) as (_ & _ & Hd). split_and!; [done..|lia|]. unfold string_text in Ht. by rewrite <-Hl in Ht.
Qed.

Lemma rcv_data_spec s e k a c :
  malloc_succeeds -> session_wf s -> out_holds s [] -> heap s !! a = Some c ->
  0 <= local_channel c < 2 ^ 32 -> 0 <= remote_channel c < 2 ^ 32 ->
  ssh_channel_from_local s (local_channel c) = Some (Some a) ->
  in_holds s (data_payload e (local_channel c) k) -> has_room e (zlen k) c -> zlen k <= local_window c ->
  exists rc s', channel_rcv_data (fun _ _ => []) s (data_type e) = Some (rc, s')
    /\ (rc = SSH_PACKET_USED /\ (exists ns b', buffer_wf b' /\ contents b' = buffered e c ++ k
          /\ granted s s' a c (set_local_window (local_window c - zlen k + zsum ns) (set_stream e (Some b') c)) ns)
        \/ rc = -1).
Proof.
  intros Hmem Hs Ho Hc Hid Hrid Hl Hin Hroom Hw. unfold channel_rcv_data.
  assert (Hty : negb (data_type e =? SSH2_MSG_CHANNEL_DATA) = e) by by destruct e.
  rewrite Hty. clear Hty.
  destruct (from_msg_holds s _ _ a Hs Hin Hid Hl) as (s1 & -> & Hs1 & Hin1 & Hh1 & Hch1 & Ho1 & Hp1 & Hse1).
  cbn [mbind option_bind].
  destruct (data_string s1 e k Hmem Hs1 Hin1) as (p0 & n & v & p1 & str & p2 & -> & Hcode & Hstr & Hwf2 & Hlen & Hd & Ht).
  cbn [mbind option_bind]. rewrite Hcode. cbn [mbind option_bind]. rewrite Hstr. cbn [mbind option_bind].
  set (s2 := set_base _ s1). rewrite Hlen. change (ssh_string_data (Some str)) with (Some (str_data str)).
  assert (Hs2 : session_wf s2) by (apply set_base_wf; [done|]; apply layer_set_in; [apply sw_layer|]; done).
  destruct (bufferize_ok s2 a c k (str_data str) e Hmem Hs2) as (s3 & b' & Hbuf & Hg3 & Hwf' & Hc');
    [unfold s2, out_holds; cbn; by rewrite out_set_in, Ho1|unfold s2; cbn; by rewrite Hh1|done|lia|done|].
  rewrite Hbuf. cbn [mbind option_bind]. change (0 <? 0) with false. cbv iota. pose proof (zlen_nonneg k).
  destruct (granted_upd s3 a (set_stream e (Some b') c) (take_window (zlen k))) as (s4 & -> & Hg4).
  { apply Hg3. } { apply Hg3. } { by eapply granted_at. }
  { intros c' [? ? ?]. constructor; cbn; [done|done|]. destruct (_ <=? _) eqn:Hle; lia. } { done. }
  cbn [mbind option_bind data_callbacks].
  set (c4 := take_window (zlen k) (set_stream e (Some b') c)) in *.
  assert (Hc4 : c4 = set_local_window (local_window c - zlen k) (set_stream e (Some b') c)).
  { unfold c4, take_window. assert (Hlw : local_window (set_stream e (Some b') c) = local_window c) by by destruct e.
    rewrite Hlw, (proj2 (Z.leb_le _ _)) by done. done. }
  pose proof (granted_trans _ _ _ _ _ _ _ _ _ Hg3 Hg4) as Hg. cbn [app] in Hg.
  rewrite (granted_at _ _ _ _ _ _ Hg). cbn [mbind option_bind].
  assert (stream e c4 = Some b') as -> by (rewrite Hc4; by destruct e). cbn [mbind option_bind].
  assert (Hg' : granted s s4 a c c4 []).
  { eapply granted_from; [exact Hg|unfold s2; cbn..]; [done|done|by rewrite proto_set_in|by rewrite sent_set_in]. }
  destruct (_ <? WINDOWLIMIT).
  2: { do 2 eexists. split; [done|left]. split; [done|]. exists [], b'. split_and!; [done|done|].
       cbn [zsum foldr]. by rewrite Z.add_0_r, <-Hc4. }
  destruct (grow_window_spec s4 a 0 c4) as (rc & s5 & -> & Hres);
    [apply Hg|apply Hg|by eapply granted_at|lia|by rewrite (gr_remote _ _ _ _ _ _ Hg')|]. cbn [mbind option_bind].
  destruct Hres as [(-> & ns & Hg5 & _)| ->]; [|do 2 eexists; split; [done|by right]].
  change (SSH_OK <? 0) with false. cbv iota. do 2 eexists. split; [done|left]. split; [done|].
  exists ns, b'. split_and!; [done|done|]. pose proof (granted_trans _ _ _ _ _ _ _ _ _ Hg' Hg5) as Hg6. cbn [app] in Hg6.
  rewrite Hc4 in Hg6. by destruct e.
Qed.

(** ** Reading *)

(** The channel after [n] bytes were taken off a stream and its window was grown. *)
Definition read_channel (e : bool) (n grown : Z) (b : ssh_buffer) (c : ssh_channel) : ssh_channel :=
  set_local_window (local_window c + grown) (count_in n (set_stream e (Some b) c)).

Lemma stream_count_in e n c : stream e (count_in n c) = stream e c.
Proof. by destruct e. Qed.
Lemma stream_set_stream e b c : stream e (set_stream e b c) = b.
Proof. by destruct e. Qed.
Lemma stream_other e e' b c : e <> e' -> stream e (set_stream e' b c) = stream e c.
Proof. by destruct e, e'. Qed.
Lemma window_set_stream e b c : local_window (set_stream e b c) = local_window c.
Proof. by destruct e. Qed.

Lemma count_in_wf n c : channel_wf c -> channel_wf (count_in n c).
Proof. by intros []. Qed.

Lemma get_prefix b n : buffer_wf b -> 0 < n <= zlen (contents b) ->
  (d ← ssh_buffer_get b; Some (ztake n d)) = Some (ztake n (contents b)).
Proof.
  intros Hwf Hn. pose proof (contents_zlen b Hwf) as Hl. pose proof Hwf as [Hp Hu Ha Hd]. unfold ssh_buffer_get.
  destruct (b_data b) as [|x d] eqn:Hb; [rewrite zlen_nil in *; lia|]. cbn [mbind option_bind].
  unfold contents. by rewrite Hb, ztake_take_le by lia.
Qed.

Lemma read_copy_spec s a e c b count :
  session_wf s -> out_holds s [] -> heap s !! a = Some c -> stream e c = Some b -> 0 < count < 2 ^ 32 ->
  0 <= remote_channel c < 2 ^ 32 ->
  let n := Z.min count (zlen (contents b)) in
  exists rc s', read_copy a count e s = Some (rc, ztake n (contents b), s')
    /\ (rc = n /\ (exists ns b', buffer_wf b' /\ contents b' = zdrop n (contents b)
          /\ granted s s' a c (read_channel e n (zsum ns) b' c) ns /\ WINDOWLIMIT <= local_window c + zsum ns)
        \/ rc = -1).
Proof.
  intros Hs Ho Hc Hb Hcount Hrid n. unfold read_copy. rewrite Hc. cbn [mbind option_bind]. rewrite Hb. cbn [mbind option_bind].
  assert (Hwf : buffer_wf b) by (eapply (stream_wf_of e c); [by apply (sw_channels _ Hs a)|done]).
  pose proof (contents_max b Hwf) as Hmax. unfold BUFFER_SIZE_MAX in Hmax. pose proof (zlen_nonneg (contents b)).
  rewrite ssh_buffer_get_len_contents by done.
  assert (Hlen : (if count <? zlen (contents b) then count else zlen (contents b)) = n)
    by (unfold n; destruct (Z.ltb_spec count (zlen (contents b))); lia). rewrite Hlen.
  assert (Hdata : (if n =? 0 then Some [] else d ← ssh_buffer_get b; Some (ztake n d)) = Some (ztake n (contents b))).
  { destruct (Z.eqb_spec n 0) as [->|]; [by rewrite ztake_0 by lia|]. by apply get_prefix; [|lia]. }
  rewrite Hdata. cbn [mbind option_bind].
  destruct (pass_bytes_spec b n Hwf) as (b' & -> & Hwf' & _ & Hc'); [lia|]. rewrite (proj2 (Z.leb_le _ _)) in Hc' by lia. cbn [snd].
  destruct (granted_upd s a c (fun c => count_in n (set_stream e (Some b') c))) as (s1 & -> & Hg); [done|done|done| | |].
  { intros. by apply count_in_wf, set_stream_wf, stream_wf_some. } { by destruct e. }
  cbn [mbind option_bind]. rewrite (granted_at _ _ _ _ _ _ Hg). cbn [mbind option_bind].
  assert (Hlw : local_window (count_in n (set_stream e (Some b') c)) = local_window c) by by destruct e. rewrite Hlw.
  destruct (Z.ltb_spec (local_window c) WINDOWLIMIT) as [Hlt|Hge].
  2: { do 2 eexists. split; [done|left]. split; [done|]. exists [], b'. split_and!; [done|done| |cbn [zsum foldr]; lia].
       unfold read_channel. cbn [zsum foldr]. rewrite Z.add_0_r, <-Hlw. by destruct (count_in _ _). }
  destruct (grow_window_spec s1 a 0 (count_in n (set_stream e (Some b') c))) as (rc & s2 & -> & Hres);
    [apply Hg|apply Hg|by eapply granted_at|lia|by destruct e|]. cbn [mbind option_bind].
  destruct Hres as [(-> & ns & Hg2 & Hmx)| ->]; [|do 2 eexists; split; [done|by right]].
  change (SSH_OK <? 0) with false. cbv iota. do 2 eexists. split; [done|left]. split; [done|].
  exists ns, b'. rewrite Hlw in Hmx, Hg2. split_and!; [done|done| |change WINDOWLIMIT with 640000; change WINDOWBASE with 1280000 in Hmx; lia].
  eapply (granted_trans _ _ _ _ _ _ _ []); [exact Hg|exact Hg2].
Qed.

Lemma read_spec wf s a e c b count :
  session_wf s -> out_holds s [] -> nonblocking s -> in_error s = false -> heap s !! a = Some c ->
  stream e c = Some b -> remote_eof c = 0 -> ch_state c = SSH_CHANNEL_STATE_OPEN -> 0 < count < 2 ^ 32 ->
  0 <= remote_channel c < 2 ^ 32 ->
  exists rc data s', ssh_channel_read quiet (S wf) (Some a) true count e s = Some (rc, data, s')
    /\ (let n := Z.min count (zlen (contents b)) in rc = n /\ data = ztake n (contents b)
        /\ (exists ns b', buffer_wf b' /\ contents b' = zdrop n (contents b)
             /\ granted s s' a c (read_channel e n (zsum ns) b' c) ns /\ WINDOWLIMIT <= local_window c + zsum ns)
        \/ rc < 0).
Proof.
  intros Hs Ho Hnb Herr Hc Hb Heof Hst Hcount Hrid. unfold ssh_channel_read, ssh_channel_read_timeout. cbn [negb].
  rewrite Hc. cbn [mbind option_bind]. rewrite (proj2 (Z.eqb_neq _ _)) by lia. rewrite Hb. cbn [mbind option_bind].
  set (len := ssh_buffer_get_len b).
  assert (Hgrow : exists rc s1, (if u32 (len + local_window c) <? count then grow_window s a (u32 (count - len)) else Some (0, s))
      = Some (rc, s1) /\ (rc = 0 /\ (exists ns, granted s s1 a c (set_local_window (local_window c + zsum ns) c) ns) \/ rc = SSH_ERROR)).
  { destruct (_ <? count).
    - destruct (grow_window_spec s a (u32 (count - len)) c) as (rc & s1 & -> & Hres); [done|done|done|apply u32_range|done|].
      do 2 eexists. split; [done|]. destruct Hres as [(-> & ns & Hg & _)| ->]; [left|by right]. split; [done|by exists ns].
    - do 2 eexists. split; [done|left]. split; [done|]. exists []. cbn [zsum foldr]. rewrite Z.add_0_r.
      replace (set_local_window _ c) with c by by destruct c. by apply granted_refl. }
  destruct Hgrow as (rc & s1 & -> & [(-> & ns & Hg)| ->]); cbn [mbind option_bind];
    [|do 3 eexists; split; [done|by right]]. change (0 <? 0) with false. cbv iota.
  change (SSH_TIMEOUT_DEFAULT <? SSH_TIMEOUT_DEFAULT) with false. cbv iota.
  set (c1 := set_local_window (local_window c + zsum ns) c) in *. pose proof (granted_at _ _ _ _ _ _ Hg) as Hc1.
  assert (Hnb1 : nonblocking s1) by (unfold nonblocking, ssh_is_blocking; by rewrite (gr_proto _ _ _ _ _ _ Hg)).
  assert (Herr1 : in_error s1 = false) by (unfold in_error, session_state_of; by rewrite (gr_proto _ _ _ _ _ _ Hg)).
  assert (Hb1 : stream e c1 = Some b) by by destruct e.
  rewrite quiet_wait by (done || (unfold SSH_TIMEOUT_DEFAULT; lia)). unfold ssh_channel_read_termination. rewrite Hc1.
  assert (Hp1 : pointed e (stdbuf e c) c1 = Some b) by (unfold pointed; rewrite bool_decide_true by (by destruct e); exact Hb1).
  cbn [mbind option_bind]. rewrite Hp1. cbn [mbind option_bind]. generalize ((1 <=? ssh_buffer_get_len b) || negb (remote_eof c1 =? 0) || in_error s1).
  intros stop. assert (Hstop : ((if stop then SSH_OK else SSH_AGAIN) =? SSH_ERROR) = false) by by destruct stop.
  rewrite Hnb1, andb_false_r. rewrite Hstop, Herr1, Hc1. cbn [mbind option_bind]. rewrite Hp1. cbn [mbind option_bind].
  change (remote_eof c1) with (remote_eof c). change (ch_state c1) with (ch_state c). rewrite Heof, Hst. cbn [negb andb Z.eqb].
  rewrite bool_decide_false by done.
  destruct (read_copy_spec s1 a e c1 b count) as (rc & s2 & -> & Hres);
    [apply Hg|apply Hg|done|done|done|done|]. do 3 eexists. split; [done|].
  destruct Hres as [(-> & ms & b' & Hwf' & Hc' & Hg2 & Hlim)| ->]; [left|by right]. split_and!; [done|done|].
  exists (ns ++ ms), b'. rewrite zsum_app. split_and!; [done|done| |unfold c1 in Hlim; cbn in Hlim; lia].
  replace (read_channel e _ (zsum ns + zsum ms) b' c) with (read_channel e (Z.min count (zlen (contents b))) (zsum ms) b' c1);
    [by eapply granted_trans|].
  unfold read_channel, c1. cbn [local_window set_local_window]. rewrite Z.add_assoc. by destruct e.
Qed.

(** ** Adjusting *)
Lemma change_window_spec s a c n :
  session_wf s -> out_holds s [] -> heap s !! a = Some c -> 0 <= local_channel c < 2 ^ 32 ->
  ssh_channel_from_local s (local_channel c) = Some (Some a) ->
  in_holds s (be_bytes 4 (local_channel c) ++ be_bytes 4 n) -> 0 <= n < 2 ^ 32 ->
  exists s', channel_rcv_change_window s SSH2_MSG_CHANNEL_WINDOW_ADJUST = Some (SSH_PACKET_USED, s')
    /\ granted s s' a c (set_remote_window (u32 (remote_window c + n)) c) [].
Proof.
  intros Hs Ho Hc Hid Hl Hin Hn. unfold channel_rcv_change_window.
  destruct (from_msg_holds s _ _ a Hs Hin Hid Hl) as (s1 & -> & Hs1 & Hin1 & Hh1 & Hch1 & Ho1 & Hp1 & Hse1).
  cbn [mbind option_bind].
  destruct (unpack_dword s1 n [] Hs1) as (s2 & -> & Hs2 & _ & Hh2 & Hch2 & Ho2 & Hp2 & Hse2); [by rewrite app_nil_r|done|].
  cbn [mbind option_bind]. change (negb (SSH_OK =? SSH_OK)) with false. cbv iota. change (int_slot _ 0 0) with n.
  destruct (granted_upd s2 a c (fun c => set_remote_window (u32 (remote_window c + n)) c)) as (s3 & -> & Hg);
    [done|by unfold out_holds; rewrite Ho2, Ho1|by rewrite Hh2, Hh1|by intros c' []|done|].
  cbn [mbind option_bind]. eexists. split; [done|]. eapply granted_from; [done|congruence..].
Qed.
End Flow.
