(* ===== verification/ChannelLink.v ===== *)
(** * Two ends of a channel

    A writer and a reader, non-blocking, with the packets between them in two
    queues.  The window the writer believes to have, what is on the way and the
    window of the reader always agree; the reader gets the bytes of the
    writer in order; and when everything was delivered and read, the writer can
    write again. *)

From stdpp Require Import gmap.
From S2P Require Import Prelude SshString Buffer Bignum BufferPack SshList Session Misc Crypto Packet.
From S2P Require Import PacketRecv Kex Channel ChannelSafe ChannelFlow.

Section Link.
Context `{Allocator} `{BignumLib} {L : Type} `{PacketLayerLaws L}.
#[local] Abbreviation cs := (csession L).
Implicit Type s : cs.

(** The addresses of the channel at the writer and at the reader. *)
Variables a b : positive.

Record link := mk_link {
  writer : cs;
  reader : cs;
  to_reader : list bytes;
  to_writer : list bytes;
  written : bool -> bytes;      (* per stream: stdout, stderr *)
  received : bool -> bytes
}.

Definition extend (f : bool -> bytes) (e : bool) (d : bytes) : bool -> bytes :=
  fun x => if Bool.eqb e x then f x ++ d else f x.

(** A packet arrives: its type selects the handler, which finds the rest of it in
    [session->in_buffer]. *)
Definition channel_handler (type : Z) s : run (Z * cs) :=
  if type =? SSH2_MSG_CHANNEL_WINDOW_ADJUST then channel_rcv_change_window s type else
  if (type =? SSH2_MSG_CHANNEL_DATA) || (type =? SSH2_MSG_CHANNEL_EXTENDED_DATA)
  then channel_rcv_data (fun _ _ => []) s type else None.

Definition receives (p : bytes) s s' : Prop :=
  exists t rest q, p = t :: rest /\ buffer_wf q /\ contents q = rest
    /\ channel_handler (b2z t) (set_base (pl_set_in (Some q) (base s)) s) = Some (SSH_PACKET_USED, s').

(** The packets a call sent. *)
Definition sends s s' (ps : list bytes) : Prop := pl_sent (base s') = pl_sent (base s) ++ ps.

(** The buffers of the reader can take the packet. *)
Definition reader_room (p : bytes) s : Prop := forall d e, heap s !! b = Some d -> has_room e (zlen p) d.

Inductive link_step : link -> link -> Prop :=
  | Write A A' B fwd bwd w r e data n ps :
      channel_write_common quiet 1 (S (length data)) (Some a) (Some data) e A = Some (n, A') ->
      0 <= n -> sends A A' ps ->
      link_step (mk_link A B fwd bwd w r) (mk_link A' B (fwd ++ ps) bwd (extend w e (ztake n data)) r)
  | DeliverData A B B' p fwd bwd w r ps :
      reader_room p B -> receives p B B' -> sends B B' ps ->
      link_step (mk_link A B (p :: fwd) bwd w r) (mk_link A B' fwd (bwd ++ ps) w r)
  | Read A B B' fwd bwd w r e count n data ps :
      0 < count < 2 ^ 32 -> ssh_channel_read quiet 1 (Some b) true count e B = Some (n, data, B') ->
      0 <= n -> sends B B' ps ->
      link_step (mk_link A B fwd bwd w r) (mk_link A B' fwd (bwd ++ ps) w (extend r e data))
  | DeliverAdjust A A' B p fwd bwd w r :
      receives p A A' ->
      link_step (mk_link A B fwd (p :: bwd) w r) (mk_link A' B fwd bwd w r).

(** ** The invariant *)

(** What a reader needs. *)
Record listening s (d : ssh_channel) : Prop := {
  li_wf : session_wf s;
  li_out : out_holds s [];
  li_nonblocking : nonblocking s;
  li_error : in_error s = false;
  li_channel : heap s !! b = Some d;
  li_local : ssh_channel_from_local s (local_channel d) = Some (Some b);
  li_eof : remote_eof d = 0;
  li_state : ch_state d = SSH_CHANNEL_STATE_OPEN;
  li_streams : forall e, is_Some (stream e d)
}.

(** The ends belong to each other. *)
Record matched s (c d : ssh_channel) : Prop := {
  ma_local : ssh_channel_from_local s (local_channel c) = Some (Some a);
  ma_writer : remote_channel c = local_channel d;
  ma_reader : remote_channel d = local_channel c;
  ma_id_writer : 0 <= local_channel c < 2 ^ 32;
  ma_id_reader : 0 <= local_channel d < 2 ^ 32
}.

(** The data on the way: messages of a stream and a chunk. *)
Definition flight : Type := list (bool * bytes).
Definition flight_bytes (ms : flight) : Z := zsum (map (fun m => zlen m.2) ms).
Definition flight_of (e : bool) (ms : flight) : bytes :=
  concat (map (fun m => if Bool.eqb m.1 e then m.2 else []) ms).

Record agree (l : link) (c d : ssh_channel) (ms : flight) (ns : list Z) : Prop := {
  ag_ready : ready (writer l) a c;
  ag_listening : listening (reader l) d;
  ag_matched : matched (writer l) c d;
  ag_data : to_reader l = map (fun m => data_msg m.1 (local_channel d) m.2) ms;
  ag_adjust : to_writer l = map (adjust_msg (local_channel c)) ns;
  ag_ns : Forall (fun n => 0 < n < 2 ^ 32) ns;
  ag_windows : remote_window c + flight_bytes ms + zsum ns = local_window d;
  ag_streams : forall e, written l e = received l e ++ buffered e d ++ flight_of e ms;
  ag_alive : 0 < local_window d + zlen (buffered false d) + zlen (buffered true d)
}.

(** The window of the writer, and what is on the way, as the packets say it. *)
Definition link_start (l : link) (c d : ssh_channel) : Prop :=
  ready (writer l) a c /\ listening (reader l) d /\ matched (writer l) c d
  /\ to_reader l = [] /\ to_writer l = [] /\ (forall e, buffered e d = [])
  /\ (forall e, written l e = []) /\ (forall e, received l e = [])
  /\ remote_window c = local_window d /\ 0 < local_window d.

Lemma start_agrees l c d : link_start l c d -> agree l c d [] [].
Proof.
  intros (Hr & Hl & Hm & Hf & Hb & Hbuf & Hw & Hg & Hwin & Hpos).
  constructor; [done|done|done|done|done|constructor| | |].
  - unfold flight_bytes. cbn. lia.
  - intros e. by rewrite Hw, Hg, Hbuf.
  - rewrite (Hbuf false), (Hbuf true). change (zlen (@nil Byte.byte)) with 0. lia.
Qed.

Lemma zlen_concat (l : list bytes) : zlen (concat l) = zsum (map zlen l).
Proof. induction l as [|x l IH]; [done|]. cbn [concat map zsum foldr]. rewrite zlen_app, IH. done. Qed.

Lemma zsum_nonneg l : Forall (Z.le 0) l -> 0 <= zsum l.
Proof. induction 1; cbn; [done|]. unfold zsum in *. lia. Qed.

Lemma flight_nonneg ms : 0 <= flight_bytes ms.
Proof. apply zsum_nonneg, Forall_map, Forall_true. intros. apply zlen_nonneg. Qed.

Lemma flight_app ms ks : flight_bytes (ms ++ ks) = flight_bytes ms + flight_bytes ks.
Proof. unfold flight_bytes. by rewrite map_app, zsum_app. Qed.

Lemma flight_of_app e ms ks : flight_of e (ms ++ ks) = flight_of e ms ++ flight_of e ks.
Proof. unfold flight_of. by rewrite map_app, concat_app. Qed.

(** The chunks of one call. *)
Definition chunks_of (e : bool) (chunks : list bytes) : flight := map (pair e) chunks.
Lemma chunks_bytes e chunks : flight_bytes (chunks_of e chunks) = zlen (concat chunks).
Proof. unfold flight_bytes, chunks_of. by rewrite map_map, zlen_concat. Qed.
Lemma chunks_flight e x chunks :
  flight_of x (chunks_of e chunks) = if Bool.eqb e x then concat chunks else [].
Proof.
  unfold flight_of, chunks_of. rewrite map_map. cbn [fst snd]. destruct (Bool.eqb e x).
  - by rewrite (map_ext _ id), map_id.
  - by induction chunks.
Qed.

(** A lookup does not depend on a change that keeps the numbers. *)
Lemma from_local_upd s s' x c c' id :
  heap s !! x = Some c -> heap s' = <[x := c']> (heap s) -> channels s' = channels s ->
  local_channel c' = local_channel c -> ssh_channel_from_local s' id = ssh_channel_from_local s id.
Proof.
  intros Hc Hh Hch Hl. unfold ssh_channel_from_local. rewrite Hh, Hch. generalize (default [] (channels s)) as l.
  induction l as [|y l IH]; [done|]. cbn [from_local_loop]. destruct (decide (x = y)) as [->|].
  - simplify_map_eq. cbn [mbind option_bind]. by rewrite Hl, IH.
  - rewrite lookup_insert_ne by done. destruct (heap s !! y) as [c0|]; [|done]. cbn [mbind option_bind]. by rewrite IH.
Qed.

Lemma sends_det s s' ps qs : sends s s' ps -> sends s s' qs -> ps = qs.
Proof. unfold sends. intros -> Hq. by apply app_inv_head in Hq. Qed.

Lemma extend_spec f e d x : extend f e d x = f x ++ (if Bool.eqb e x then d else []).
Proof. unfold extend. destruct (Bool.eqb e x); by rewrite ?app_nil_r. Qed.

Lemma write_length fuel wf s x data e n s' : channel_write_common quiet wf fuel (Some x) (Some data) e s = Some (n, s') ->
  0 <= n -> zlen data <= INT_MAX.
Proof.
  unfold channel_write_common. destruct (Z.ltb_spec INT_MAX (zlen data)); [|done]. intros [= <- _]. unfold SSH_ERROR. lia.
Qed.

Lemma wrote_ready s s' c e maxp sent : ready s a c -> wrote s s' a c e maxp sent -> zlen sent <= remote_window c ->
  exists c', ready s' a c' /\ remote_window c' = remote_window c - zlen sent
    /\ remote_channel c' = remote_channel c /\ local_channel c' = local_channel c
    /\ (forall id, ssh_channel_from_local s' id = ssh_channel_from_local s id).
Proof.
  intros [Hs Ho Hwr Hnb Herr Hun Heof Hdel Hmax] Hw Hle. destruct (wr_heap _ _ _ _ _ _ _ Hw) as [k Hh].
  pose proof (wr_proto _ _ _ _ _ _ _ Hw) as Hp. pose proof Hwr as (Hc & Hst & Hr). pose proof (zlen_nonneg sent).
  exists (windowed (remote_window c - zlen sent) k c). split_and!; [|done|done|done|].
  - constructor; [apply Hw|apply Hw| |..]; unfold nonblocking, ssh_is_blocking, in_error, ssh_waitsession_unblocked, session_state_of in *;
      rewrite ?Hp; try done.
    split; [rewrite Hh; by simplify_map_eq|]. split; [done|cbn; lia].
  - intros id. by eapply from_local_upd; [exact Hc|exact Hh|apply Hw|].
Qed.

Lemma write_agrees A A' B fwd bwd w r e data n ps c d ms ns :
  agree (mk_link A B fwd bwd w r) c d ms ns ->
  channel_write_common quiet 1 (S (length data)) (Some a) (Some data) e A = Some (n, A') -> 0 <= n -> sends A A' ps ->
  exists c' ks, agree (mk_link A' B (fwd ++ ps) bwd (extend w e (ztake n data)) r) c' d (ms ++ ks) ns.
Proof.
  intros [Hr Hl Hm Hf Hb Hns Hwin Hst Hal] Hw Hn Hps. cbn [writer reader to_reader to_writer written received] in *.
  destruct (channel_write_spec 0 (S (length data)) A a c e data Hr) as (rc & s' & Hw' & Hres);
    [by eapply write_length|unfold zlen; lia|]. rewrite Hw' in Hw. injection Hw as -> ->.
  destruct Hres as [->|[Hmin Hwrote]]; [done|].
  assert (Hz : zlen (ztake n data) = n) by zlen_lia.
  destruct (wrote_ready _ _ _ _ _ _ Hr Hwrote) as (c' & Hr' & Hrw & Hrc & Hlc & Hfl); [lia|].
  destruct (wr_sent _ _ _ _ _ _ _ Hwrote) as (chunks & Hcat & _ & Hse).
  rewrite (sends_det _ _ _ _ Hps Hse) in *. exists c', (chunks_of e chunks).
  destruct Hm as [Hm1 Hm2 Hm3 Hm4 Hm5].
  constructor; cbn [writer reader to_reader to_writer written received]; [done|done| | | |done| | |done].
  - constructor; [rewrite Hfl|..]; congruence.
  - rewrite Hf, map_app. unfold chunks_of. rewrite map_map, <-Hm2. done.
  - congruence.
  - rewrite flight_app, chunks_bytes, Hcat, Hrw, Hz. lia.
  - intros x. rewrite extend_spec, Hst, flight_of_app, chunks_flight, Hcat. by rewrite !app_assoc.
Qed.

(** The reader after a call that kept what identifies its channel. *)
Record same_end (d d' : ssh_channel) : Prop := {
  se_local : local_channel d' = local_channel d;
  se_eof : remote_eof d' = remote_eof d;
  se_state : ch_state d' = ch_state d;
  se_streams : forall e, is_Some (stream e d) -> is_Some (stream e d')
}.

Lemma granted_listening s s' d d' ns : listening s d -> granted s s' b d d' ns -> same_end d d' -> listening s' d'.
Proof.
  intros [Hs Ho Hnb Herr Hc Hl Heof Hst Hstr] Hg [Hloc He Hs' Hstr']. pose proof (gr_proto _ _ _ _ _ _ Hg) as Hp.
  constructor; [apply Hg|apply Hg| | |by eapply granted_at| |congruence|congruence|intros e; apply Hstr', Hstr];
    unfold nonblocking, ssh_is_blocking, in_error, session_state_of in *; rewrite ?Hp; try done.
  rewrite Hloc, <-Hl. by eapply from_local_upd; [exact Hc|apply Hg|apply Hg|].
Qed.

(** A packet at the handler. *)
Lemma arrived s q rest : session_wf s -> out_holds s [] -> buffer_wf q -> contents q = rest ->
  let s1 := set_base (pl_set_in (Some q) (base s)) s in
  session_wf s1 /\ out_holds s1 [] /\ in_holds s1 rest /\ pl_proto (base s1) = pl_proto (base s)
  /\ pl_sent (base s1) = pl_sent (base s).
Proof.
  intros Hs Ho Hq Hc s1. unfold s1, out_holds, in_holds. cbn. rewrite in_set_in, out_set_in, proto_set_in, sent_set_in.
  split_and!; [|done|by exists q|done|done]. apply set_base_wf; [done|]. apply layer_set_in; [apply sw_layer|]; done.
Qed.

Lemma data_msg_payload e id k : data_msg e id k = z2b (data_type e) :: data_payload e id k.
Proof. by destruct e. Qed.

Lemma handler_of_data e s : channel_handler (b2z (z2b (data_type e))) s = channel_rcv_data (fun _ _ => []) s (data_type e).
Proof. by destruct e. Qed.
Lemma handler_of_adjust s :
  channel_handler (b2z (z2b SSH2_MSG_CHANNEL_WINDOW_ADJUST)) s = channel_rcv_change_window s SSH2_MSG_CHANNEL_WINDOW_ADJUST.
Proof. done. Qed.

Lemma data_agrees A B B' p fwd bwd w r ps c d ms ns :
  malloc_succeeds -> agree (mk_link A B (p :: fwd) bwd w r) c d ms ns ->
  reader_room p B -> receives p B B' -> sends B B' ps ->
  exists d' ms' ks, agree (mk_link A B' fwd (bwd ++ ps) w r) c d' ms' (ns ++ ks).
Proof.
  intros Hmem [Hr Hl Hm Hf Hb Hns Hwin Hst Hal] Hroom (t & rest & q & -> & Hq & Hcq & Hrcv) Hps.
  cbn [writer reader to_reader to_writer written received] in *.
  destruct ms as [|[e k] ms]; [done|]. cbn [map fst snd] in Hf. rewrite data_msg_payload in Hf. injection Hf as -> -> Hf.
  rewrite handler_of_data in Hrcv.
  pose proof Hl as [Hs Ho Hnb Herr Hc Hloc Heof Hste Hstr]. destruct Hm as [Hm1 Hm2 Hm3 Hm4 Hm5].
  assert (Hfl : flight_bytes ((e, k) :: ms) = zlen k + flight_bytes ms) by done. rewrite Hfl in Hwin.
  pose proof (flight_nonneg ms). pose proof (zlen_nonneg k).
  assert (0 <= zsum ns) by (apply zsum_nonneg; eapply Forall_impl; [exact Hns|]; cbn; lia).
  pose proof (rd_writable _ _ _ Hr) as (_ & _ & Hrw).
  destruct (arrived B q _ Hs Ho Hq Hcq) as (Hs1 & Ho1 & Hin1 & Hp1 & Hse1). set (B1 := set_base _ B) in *.
  destruct (rcv_data_spec B1 e k b d Hmem Hs1 Ho1 Hc) as (rc & s' & Hrcv' & Hres);
    [lia|lia|exact Hloc|exact Hin1| |lia|].
  { destruct (Hroom d e Hc) as (x & Hx & Hxr). exists x. split; [done|]. rewrite zlen_cons in Hxr.
    unfold data_payload, lv in Hxr. rewrite !zlen_app in Hxr. pose proof (zlen_nonneg (be_bytes 4 (local_channel d))).
    pose proof (zlen_nonneg (if e then be_bytes 4 SSH2_EXTENDED_DATA_STDERR else [])). pose proof (zlen_nonneg (be_bytes 4 (zlen k))). lia. }
  rewrite Hrcv' in Hrcv. injection Hrcv as -> ->. destruct Hres as [(_ & ks & b' & Hwf' & Hcb' & Hg)|]; [|done].
  assert (Hg' : granted B B' b d (set_local_window (local_window d - zlen k + zsum ks) (set_stream e (Some b') d)) ks)
    by (eapply granted_from; [exact Hg|done|done|exact Hp1|exact Hse1]).
  rewrite (sends_det _ _ _ _ Hps (gr_sent _ _ _ _ _ _ Hg')) in *. set (d' := set_local_window _ _) in *.
  assert (Hbuf : forall x, buffered x d' = buffered x d ++ if Bool.eqb e x then k else []).
  { intros x. unfold buffered, d'. destruct e, x; cbn; rewrite ?app_nil_r; try done; exact Hcb'. }
  assert (0 <= zsum ks) by (apply zsum_nonneg; eapply Forall_impl; [apply Hg'|]; cbn; lia).
  exists d', ms, ks. constructor; cbn [writer reader to_reader to_writer written received].
  - done.
  - eapply granted_listening; [exact Hl|exact Hg'|]. unfold d'. constructor; try by destruct e.
    intros x Hx. destruct e, x; cbn in *; done.
  - unfold d'. constructor; try done; by destruct e.
  - rewrite Hf. unfold d'. by destruct e.
  - by rewrite Hb, map_app, Hm3.
  - apply Forall_app. split; [done|]. apply Hg'.
  - rewrite zsum_app. unfold d'. cbn. lia.
  - intros x. rewrite Hst, Hbuf. unfold flight_of. cbn [map concat fst snd]. by rewrite !app_assoc.
  - rewrite !Hbuf. unfold d'. cbn [local_window set_local_window]. destruct e; cbn [Bool.eqb]; rewrite ?app_nil_r, ?zlen_app; lia.
Qed.

Lemma read_agrees A B B' fwd bwd w r e count n data ps c d ms ns :
  agree (mk_link A B fwd bwd w r) c d ms ns -> 0 < count < 2 ^ 32 ->
  ssh_channel_read quiet 1 (Some b) true count e B = Some (n, data, B') -> 0 <= n -> sends B B' ps ->
  exists d' ks, agree (mk_link A B' fwd (bwd ++ ps) w (extend r e data)) c d' ms (ns ++ ks).
Proof.
  intros [Hr Hl Hm Hf Hb Hns Hwin Hst Hal] Hcount Hread Hn Hps.
  cbn [writer reader to_reader to_writer written received] in *.
  pose proof Hl as [Hs Ho Hnb Herr Hc Hloc Heof Hste Hstr]. destruct Hm as [Hm1 Hm2 Hm3 Hm4 Hm5].
  destruct (Hstr e) as [x Hx].
  destruct (read_spec 0 B b e d x count Hs Ho Hnb Herr Hc Hx Heof Hste Hcount) as (rc & dat & s' & Hread' & Hres); [lia|].
  rewrite Hread' in Hread. injection Hread as -> -> ->. destruct Hres as [(Hmin & Hdat & ks & b' & Hwf' & Hcb' & Hg & Hlim)|]; [|lia].
  cbv zeta in *. rewrite <-Hmin in *. rewrite (sends_det _ _ _ _ Hps (gr_sent _ _ _ _ _ _ Hg)) in *.
  set (d' := read_channel e n (zsum ks) b' d) in *.
  assert (Hbuf : forall y, buffered y d = (if Bool.eqb e y then data else []) ++ buffered y d').
  { intros y. unfold buffered, d'. rewrite Hdat. destruct e, y; cbn -[ztake zdrop] in *; try done;
      rewrite Hx, Hcb'; symmetry; apply ztake_drop. }
  exists d', ks. constructor; cbn [writer reader to_reader to_writer written received].
  - done.
  - eapply granted_listening; [exact Hl|exact Hg|]. unfold d'. constructor; try by destruct e.
    intros y Hy. destruct e, y; cbn in *; done.
  - unfold d'. constructor; try done; by destruct e.
  - rewrite Hf. unfold d'. by destruct e.
  - by rewrite Hb, map_app, Hm3.
  - apply Forall_app. split; [done|]. apply Hg.
  - rewrite zsum_app. unfold d', read_channel. cbn [local_window set_local_window]. lia.
  - intros y. rewrite extend_spec, Hst, Hbuf. by rewrite <-!app_assoc.
  - unfold d', read_channel. cbn [local_window set_local_window]. change WINDOWLIMIT with 640000 in Hlim.
    match goal with |- _ < _ + zlen ?x + zlen ?y => pose proof (zlen_nonneg x); pose proof (zlen_nonneg y) end. lia.
Qed.

Lemma adjust_msg_payload id n : adjust_msg id n = z2b SSH2_MSG_CHANNEL_WINDOW_ADJUST :: be_bytes 4 id ++ be_bytes 4 n.
Proof. done. Qed.

Lemma adjust_agrees A A' B p fwd bwd w r c d ms ns :
  agree (mk_link A B fwd (p :: bwd) w r) c d ms ns -> receives p A A' ->
  exists c' ns', agree (mk_link A' B fwd bwd w r) c' d ms ns'.
Proof.
  intros [Hr Hl Hm Hf Hb Hns Hwin Hst Hal] (t & rest & q & -> & Hq & Hcq & Hrcv).
  cbn [writer reader to_reader to_writer written received] in *.
  destruct ns as [|n ns]; [done|]. cbn [map] in Hb. rewrite adjust_msg_payload in Hb. injection Hb as -> -> Hb.
  rewrite handler_of_adjust in Hrcv. apply Forall_cons in Hns as [Hn Hns].
  pose proof Hr as [Hs Ho (Hc & Hste & Hrw) Hnb Herr Hun Heof Hdel Hmax]. destruct Hm as [Hm1 Hm2 Hm3 Hm4 Hm5].
  destruct (arrived A q _ Hs Ho Hq Hcq) as (Hs1 & Ho1 & Hin1 & Hp1 & Hse1). set (A1 := set_base _ A) in *.
  destruct (change_window_spec A1 a c n Hs1 Ho1 Hc Hm4 Hm1 Hin1) as (s' & Hrcv' & Hg); [lia|].
  rewrite Hrcv' in Hrcv. injection Hrcv as ->. pose proof (gr_proto _ _ _ _ _ _ Hg) as Hp.
  pose proof (flight_nonneg ms). pose proof (cw_window _ (sw_channels _ (li_wf _ _ Hl) _ _ (li_channel _ _ Hl))).
  assert (Hz : zsum (n :: ns) = n + zsum ns) by done. rewrite Hz in Hwin.
  assert (0 <= zsum ns) by (apply zsum_nonneg; eapply Forall_impl; [exact Hns|]; cbn; lia).
  rewrite u32_small in Hg by lia. set (c' := set_remote_window (remote_window c + n) c) in *.
  exists c', ns. constructor; cbn [writer reader to_reader to_writer written received].
  - constructor; [apply Hg|apply Hg|split; [by eapply granted_at|split; [done|cbn; lia]]|..];
      unfold nonblocking, ssh_is_blocking, in_error, ssh_waitsession_unblocked, session_state_of in *; rewrite ?Hp, ?Hp1; done.
  - done.
  - constructor; try done. change (local_channel c') with (local_channel c). rewrite <-Hm1.
    eapply (from_local_upd A _ a c c'); [exact Hc|exact (gr_heap _ _ _ _ _ _ Hg)|exact (gr_channels _ _ _ _ _ _ Hg)|done].
  - done.
  - done.
  - done.
  - cbn. lia.
  - done.
  - done.
Qed.

Lemma step_agrees l l' c d ms ns : malloc_succeeds -> agree l c d ms ns -> link_step l l' ->
  exists c' d' ms' ns', agree l' c' d' ms' ns'.
Proof.
  intros Hmem Hag Hstep. destruct Hstep.
  - edestruct write_agrees as (c' & ks & ?); [done..|]. eauto.
  - edestruct data_agrees as (d' & ms' & ks & ?); [done..|]. eauto.
  - edestruct read_agrees as (d' & ks & ?); [done..|]. eauto.
  - edestruct adjust_agrees as (c' & ns' & ?); [done..|]. eauto.
Qed.

Lemma reachable_agrees l l' c d : malloc_succeeds -> link_start l c d -> rtc link_step l l' ->
  exists c' d' ms ns, agree l' c' d' ms ns.
Proof.
  intros Hmem Hstart Hsteps. assert (H' : exists c d ms ns, agree l c d ms ns).
  { exists c, d, [], []. by apply start_agrees. }
  clear c d Hstart. induction Hsteps as [|l1 l2 l3 Hstep _ IH]; [done|]. apply IH.
  destruct H' as (c & d & ms & ns & Hag). by eapply step_agrees.
Qed.

(** ** What the two ends guarantee *)

(** (C5) However the two applications write and read, and in whatever order the packets
    are delivered, the window the writer may still use, the data on the way to
    the reader and the adjustments on the way to the writer add up to the window of
    the reader.  So the writer never sends more than the reader allows, and
    no window wraps around. *)
Theorem link_windows_agree l l' c0 d0 :
  malloc_succeeds -> link_start l c0 d0 -> rtc link_step l l' ->
  exists c d ms ns, heap (writer l') !! a = Some c /\ heap (reader l') !! b = Some d
    /\ to_reader l' = map (fun m => data_msg m.1 (local_channel d) m.2) ms
    /\ to_writer l' = map (adjust_msg (local_channel c)) ns
    /\ remote_window c + flight_bytes ms + zsum ns = local_window d
    /\ 0 <= remote_window c /\ local_window d < 2 ^ 32.
Proof.
  intros Hmem Hstart Hsteps. destruct (reachable_agrees _ _ _ _ Hmem Hstart Hsteps) as (c & d & ms & ns & []).
  destruct (rd_writable _ _ _ ag_ready0) as (Hc & _ & Hw).
  pose proof (cw_window _ (sw_channels _ (li_wf _ _ ag_listening0) _ _ (li_channel _ _ ag_listening0))).
  exists c, d, ms, ns. split_and!; [done|apply ag_listening0|done|done|done|lia|lia].
Qed.

(** (C6) The reader gets the bytes of each stream in order, none lost and none twice:
    what the calls that succeeded read, what is in its buffer and what is on the way make up what
    the writes that succeeded took. *)
Theorem link_stream_integrity l l' c0 d0 :
  malloc_succeeds -> link_start l c0 d0 -> rtc link_step l l' ->
  exists d ms, heap (reader l') !! b = Some d /\ to_reader l' = map (fun m => data_msg m.1 (local_channel d) m.2) ms
    /\ forall e, written l' e = received l' e ++ buffered e d ++ flight_of e ms.
Proof.
  intros Hmem Hstart Hsteps. destruct (reachable_agrees _ _ _ _ Hmem Hstart Hsteps) as (c & d & ms & ns & []).
  exists d, ms. split_and!; [apply ag_listening0|done|done].
Qed.

(** (C7) The two ends never wait for each other: when every packet was delivered and
    the reader has read its buffers, a write returns, with at least one byte taken or
    with an error; it never waits for a window. *)
Theorem link_no_deadlock l l' c0 d0 e data :
  malloc_succeeds -> link_start l c0 d0 -> rtc link_step l l' ->
  to_reader l' = [] -> to_writer l' = [] -> (forall d x, heap (reader l') !! b = Some d -> buffered x d = []) ->
  1 <= zlen data <= INT_MAX ->
  exists n A', channel_write_common quiet 1 (S (length data)) (Some a) (Some data) e (writer l') = Some (n, A')
    /\ (n = SSH_ERROR \/ 0 < n).
Proof.
  intros Hmem Hstart Hsteps Hr Hw Hbuf Hlen. destruct (reachable_agrees _ _ _ _ Hmem Hstart Hsteps) as (c & d & ms & ns & []).
  assert (ms = []) as -> by (rewrite Hr in *; by destruct ms).
  assert (ns = []) as -> by (rewrite Hw in *; by destruct ns).
  pose proof (Hbuf d) as Hd. rewrite !Hd in ag_alive0 by apply ag_listening0. change (zlen []) with 0 in ag_alive0.
  cbn in ag_windows0.
  destruct (channel_write_spec 0 (S (length data)) (writer l') a c e data) as (n & A' & Hwr & Hres); [done|lia|unfold zlen; lia|].
  exists n, A'. split; [done|]. destruct Hres as [->|[-> _]]; [by left|right; lia].
Qed.
End Link.

(** ** A call of the writer *)

(** In a non-blocking session a write either reports an error or takes exactly the
    bytes that fit in the window of the peer: they go out in order, in messages
    that respect the size the peer accepts, and the window shrinks by
    their number.  The call returns. *)
Theorem write_takes_what_fits `{Allocator} `{BignumLib} {L} `{PacketLayerLaws L} (s : csession L) a c e data fuel wait :
  ready s a c -> zlen data <= INT_MAX -> (Z.to_nat (zlen data) < fuel)%nat ->
  exists rc s', channel_write_common quiet (S wait) fuel (Some a) (Some data) e s = Some (rc, s')
    /\ (rc = SSH_ERROR \/
        rc = Z.min (zlen data) (remote_window c)
        /\ (exists k, heap s' = <[a := windowed (remote_window c - rc) k c]> (heap s))
        /\ (exists chunks, concat chunks = ztake rc data
             /\ Forall (fun k => 1 <= zlen k <= remote_maxpacket c - 10) chunks
             /\ pl_sent (base s') = pl_sent (base s) ++ map (data_msg e (remote_channel c)) chunks)).
Proof.
  intros Hr Hl Hf. destruct (channel_write_spec wait fuel s a c e data Hr Hl Hf) as (rc & s' & -> & Hres).
  do 2 eexists. split; [done|]. destruct Hres as [?|[Hrc Hw]]; [by left|right]. split; [done|].
  pose proof (rd_writable _ _ _ Hr) as (_ & _ & ?). pose proof (zlen_nonneg data).
  destruct (wr_heap _ _ _ _ _ _ _ Hw) as [k Hh]. pose proof (rd_maxpacket _ _ _ Hr).
  split; [|destruct (wr_sent _ _ _ _ _ _ _ Hw) as (ks & ? & Hks & ?); exists ks; split_and!; [done| |done];
    eapply Forall_impl; [exact Hks|]; cbn beta; lia].
  exists k. rewrite Hh. do 3 f_equal. zlen_lia.
Qed.

(** ** A peer with tiny packets

    [remote_maxpacket - 10] is 0 for a peer that announced packets of 10 bytes. *)
Section Tiny.
Context `{Allocator} `{BignumLib} {L : Type} `{PacketLayerLaws L}.

Lemma tiny_chunk c data : 0 < zlen data -> 0 < remote_window c -> chunk_len c data 0 = 0.
Proof. intros. unfold chunk_len. destruct (_ <? _) eqn:?; lia. Qed.

Lemma tiny_loop wf a e fuel : forall (s : csession L) data c ex rest s',
  session_wf s -> out_holds s [] -> writable s a c -> 0 < remote_window c -> 0 < zlen data < 2 ^ 32 ->
  write_loop quiet wf fuel a e 0 data s = Some (ex, rest, s') -> ex = WError \/ ex = WReturn SSH_ERROR.
Proof.
  induction fuel as [|fuel IH]; intros s data c ex rest s' Hs Ho Hwr Hw Hd; [done|]. cbn [write_loop].
  pose proof Hwr as (Hc & _). rewrite (proj2 (Z.leb_gt _ _)) by lia. rewrite Hc. cbn [mbind option_bind].
  rewrite (proj2 (Z.eqb_neq (remote_window c) 0)) by lia. rewrite andb_false_r.
  destruct (write_chunk s a e c 0 data Hs Ho Hwr) as (_ & _ & rc & s1 & Hpack & Hres); [lia..|].
  rewrite tiny_chunk in * by lia. rewrite Hpack. cbn [mbind option_bind].
  destruct Hres as [(-> & rc2 & s2 & Hsend & Hres)|[_ Hrc]].
  2: { rewrite (proj2 (Z.eqb_neq rc SSH_OK)) by done. cbn [negb]. intros [= <- _ _]. by left. }
  change (negb (SSH_OK =? SSH_OK)) with false. cbv iota. rewrite Hsend. cbn [mbind option_bind].
  destruct Hres as [(-> & s3 & Hupd & Hwrote)| ->].
  2: { change (SSH_ERROR =? SSH_ERROR) with true. cbv iota. intros [= <- _ _]. by right. }
  change (SSH_OK =? SSH_ERROR) with false. cbv iota. rewrite Hupd. cbn [mbind option_bind].
  rewrite zdrop_0 by lia. rewrite ztake_0 in Hwrote by lia.
  destruct (wrote_state _ _ _ _ _ _ _ Hwr Hwrote) as (c' & Hwr' & Hrw & _); [rewrite zlen_nil; lia|]. rewrite zlen_nil in Hrw.
  intros Hloop. eapply (IH s3 data c'); [apply Hwrote|apply Hwrote|done|lia|done|exact Hloop].
Qed.

(** With a peer that accepts packets of 10 bytes, [channel_write] sends empty
    messages for ever: no fuel is enough for a write of one byte or more to
    come back with anything but an error. *)
Theorem tiny_packets_never_written (s : csession L) a c e data fuel wf rc s' :
  session_wf s -> out_holds s [] -> writable s a c -> nonblocking s -> in_error s = false ->
  ssh_waitsession_unblocked s = true -> remote_maxpacket c = 10 -> 0 < remote_window c ->
  0 < zlen data ->
  channel_write_common quiet (S wf) fuel (Some a) (Some data) e s = Some (rc, s') -> rc = SSH_ERROR.
Proof.
  intros Hs Ho Hwr Hnb Herr Hun Hmax Hw Hd. pose proof Hwr as (Hc & Hst & _). unfold channel_write_common.
  destruct (Z.ltb_spec INT_MAX (zlen data)) as [|Hlen]; [by intros [= <- _]|]. unfold INT_MAX in Hlen.
  rewrite Hc. cbn [mbind option_bind]. destruct (negb (local_eof c =? 0)); [by intros [= <- _]|].
  destruct (_ || negb (delayed_close c =? 0)); [by intros [= <- _]|]. rewrite Herr, Hun, Hmax. cbn [negb mbind option_bind].
  change (u32 (10 - 10)) with 0. intros Hcall. apply bind_Some in Hcall as ([[ex rest] s1] & Hloop & Hcall).
  assert (Hd32 : 0 < zlen data < 2 ^ 32) by lia.
  destruct (tiny_loop _ _ _ _ _ _ _ _ _ _ Hs Ho Hwr Hw Hd32 Hloop) as [-> | ->].
  - apply bind_Some in Hcall as (s2 & _ & Hcall). by injection Hcall as <- _.
  - by injection Hcall as <- _.
Qed.
End Tiny.

(** ** A confirmation for a channel that is open *)
Section Redirect.
Context `{Allocator} `{BignumLib} {L : Type} `{PacketLayerLaws L}.

Lemma unpack_dwords3 (s : csession L) x y z : session_wf s ->
  in_holds s (be_bytes 4 x ++ be_bytes 4 y ++ be_bytes 4 z) ->
  0 <= x < 2 ^ 32 -> 0 <= y < 2 ^ 32 -> 0 <= z < 2 ^ 32 ->
  exists s', unpack s "ddd" [UPtr; UPtr; UPtr] = Some (SSH_OK, [SlotInt (Some x); SlotInt (Some y); SlotInt (Some z)], s')
    /\ heap s' = heap s.
Proof.
  intros Hs (p & Hp & Hwf & Hc) Hx Hy Hz.
  assert (Hd : forall (p : ssh_buffer) (z : Z) rest, buffer_wf p -> contents p = be_bytes 4 z ++ rest -> 0 <= z < 2 ^ 32 ->
    exists p', unpack_int 4 ntohl p = Some (SSH_OK, Some (SlotInt (Some z)), p') /\ buffer_wf p' /\ contents p' = rest).
  { intros q v rest Hq Hcq Hv. destruct (unpack_int_prefix 4 ntohl q v rest Hq) as (q' & Hu & Hq' & _ & Hcq');
      [lia|done|rewrite ntohl_le_val by done; apply be_val_bytes|]. change (256 ^ Z.of_nat 4) with (2 ^ 32) in Hu.
    rewrite Z.mod_small in Hu by lia. by exists q'. }
  destruct (Hd p x _ Hwf Hc Hx) as (p1 & H1' & Hwf1 & Hc1). destruct (Hd p1 y _ Hwf1 Hc1 Hy) as (p2 & H2' & Hwf2 & Hc2).
  destruct (Hd p2 z [] Hwf2) as (p3 & H3' & Hwf3 & Hc3); [by rewrite app_nil_r|done|].
  unfold unpack. rewrite Hp. cbn [mbind option_bind]. unfold ssh_buffer_unpack, _ssh_buffer_unpack, ssh_buffer_unpack_va.
  change (cstr "ddd") with ["d"%byte; "d"%byte; "d"%byte]. cbn [unpack_loop]. change (letter_of "d") with Ld. cbn [unpack_one].
  rewrite H1'. cbn. rewrite H2'. cbn. rewrite H3'. cbn. by eexists.
Qed.

(** The numbers of a channel are overwritten before its state is looked at: a
    second confirmation leaves an open channel open, with the channel number, the
    window and the packet size that the message gives. *)
Theorem second_confirmation_redirects (s : csession L) a c x y z :
  session_wf s -> heap s !! a = Some c -> ch_state c = SSH_CHANNEL_STATE_OPEN -> 0 <= local_channel c < 2 ^ 32 ->
  ssh_channel_from_local s (local_channel c) = Some (Some a) ->
  in_holds s (be_bytes 4 (local_channel c) ++ be_bytes 4 x ++ be_bytes 4 y ++ be_bytes 4 z) ->
  0 <= x < 2 ^ 32 -> 0 <= y < 2 ^ 32 -> 0 <= z < 2 ^ 32 ->
  exists s', ssh_packet_channel_open_conf s SSH2_MSG_CHANNEL_OPEN_CONFIRMATION = Some (SSH_PACKET_USED, s')
    /\ heap s' !! a = Some (set_remote x y z c).
Proof.
  intros Hs Hc Hst Hid Hl Hin Hx Hy Hz. unfold ssh_packet_channel_open_conf.
  destruct (unpack_dword s _ _ Hs Hin Hid) as (s1 & -> & Hs1 & Hin1 & Hh1 & Hch1 & _). cbn [mbind option_bind].
  change (negb (SSH_OK =? SSH_OK)) with false. cbv iota. change (int_slot _ 0 0) with (local_channel c).
  assert (ssh_channel_from_local s1 (local_channel c) = Some (Some a)) as -> by (unfold ssh_channel_from_local; by rewrite Hh1, Hch1).
  cbn [mbind option_bind]. destruct (unpack_dwords3 s1 x y z Hs1 Hin1 Hx Hy Hz) as (s2 & -> & Hh2). cbn [mbind option_bind].
  unfold upd_channel. rewrite Hh2, Hh1, Hc. cbn. rewrite lookup_insert_eq. cbn. rewrite Hst. cbn.
  eexists. split; [done|]. cbn. by rewrite lookup_insert_eq.
Qed.
End Redirect.

(** ** An example: 64000 bytes of window, channel 1 of the writer is channel 7 of
    the reader *)
Module LinkDemo.
Import ChannelDemo.
#[local] Existing Instance calloc_allocator.
#[local] Existing Instance N_bignum.

Definition reading : ssh_channel :=
  mk_channel 7 CHANNEL_INITIAL_WINDOW 0 CHANNEL_MAX_PACKET 1 CHANNEL_INITIAL_WINDOW 0 CHANNEL_MAX_PACKET
    SSH_CHANNEL_STATE_OPEN 0 0 (Some zero_buffer) (Some zero_buffer) (-1) SSH_CHANNEL_REQ_STATE_NONE None (0, 0)%nat.
Definition writing (maxpacket : Z) : ssh_channel := channel CHANNEL_INITIAL_WINDOW maxpacket.

Definition start : link :=
  mk_link (state (writing CHANNEL_MAX_PACKET) []) (state reading []) [] [] (fun _ => []) (fun _ => []).

Lemma state_out c : out_holds (state c []) [].
Proof. exists zero_buffer. split_and!; [done|apply zero_buffer_wf|done]. Qed.

Lemma writing_writable m : writable (state (writing m) []) 5 (writing m).
Proof. split; [cbn; by simplify_map_eq|]. split; [done|]. vm_compute. by split. Qed.

Lemma writing_ready : ready (state (writing CHANNEL_MAX_PACKET) []) 5 (writing CHANNEL_MAX_PACKET).
Proof.
  constructor; [apply state_wf; [apply channel_ok|vm_compute; discriminate]|apply state_out|apply writing_writable|done..|].
  vm_compute. split; [discriminate|reflexivity].
Qed.

Lemma reading_listening : listening 5 (state reading []) reading.
Proof.
  constructor; [apply state_wf; [|vm_compute; discriminate]|apply state_out|done|done|cbn; by simplify_map_eq|done|done|done|].
  - constructor; [by apply stream_wf_some, zero_buffer_wf|by apply stream_wf_some, zero_buffer_wf|vm_compute; by split].
  - intros []; by eexists.
Qed.

Lemma start_ok : link_start 5 5 start (writing CHANNEL_MAX_PACKET) reading.
Proof.
  split; [apply writing_ready|]. split; [apply reading_listening|].
  split; [by constructor|]. split_and!; try done. by intros [].
Qed.

(** The writer writes, the reader gets the packet and reads three bytes. *)
Definition packet : bytes := data_msg false 7 (cstr "hello").
Definition out_of {R : Type} (s : csession (session Z (@prng Demo.random) ())) (x : run (R * csession (session Z (@prng Demo.random) ()))) :=
  default s (snd <$> x).
Definition writer1 :=
  out_of (writer start) (channel_write_common quiet 1 6 (Some 5%positive) (Some (cstr "hello")) false (writer start)).
Definition reader1 :=
  out_of (reader start) (channel_handler SSH2_MSG_CHANNEL_DATA
    (set_base (pl_set_in (Some (Demo.buffer_of (tail packet))) (base (reader start))) (reader start))).
Definition reader2 := out_of reader1 (ssh_channel_read quiet 1 (Some 5%positive) true 3 false reader1).
Definition streams (t : string) (e : bool) : bytes := if e then [] else cstr t.

Definition after : link :=
  mk_link writer1 reader2 [] ([adjust_msg 1 (WINDOWBASE - CHANNEL_INITIAL_WINDOW + 5)] ++ [])
    (extend (fun _ => []) false (ztake 5 (cstr "hello"))) (extend (fun _ => []) false (cstr "hel")).

Lemma after_reached : rtc (link_step 5 5) start after.
Proof.
  unfold start, after.
  eapply rtc_l; [|eapply rtc_l; [|eapply rtc_once]].
  - eapply (Write _ _ _ writer1 _ _ _ _ _ false (cstr "hello") 5 [packet]).
    + vm_compute. reflexivity.
    + lia.
    + vm_compute. reflexivity.
  - eapply (DeliverData _ _ _ _ reader1 packet [] [] _ _ [adjust_msg 1 (WINDOWBASE - CHANNEL_INITIAL_WINDOW + 5)]).
    + intros d e Hd. cbn in Hd. apply lookup_singleton_Some in Hd as [_ <-].
      exists zero_buffer. split; [by destruct e|]. vm_compute. reflexivity.
    + exists (z2b SSH2_MSG_CHANNEL_DATA), (tail packet), (Demo.buffer_of (tail packet)).
      split_and!; [done|apply Demo.buffer_of_wf; vm_compute; discriminate|vm_compute; reflexivity..].
    + vm_compute. reflexivity.
  - eapply (Read _ _ _ reader1 _ _ _ _ _ false 3 3 (cstr "hel") []); [lia|vm_compute; reflexivity|lia|vm_compute; reflexivity].
Qed.
End LinkDemo.

#[local] Existing Instance calloc_allocator.
#[local] Existing Instance N_bignum.
#[local] Existing Instance ChannelDemo.layer.
#[local] Existing Instance ChannelDemo.laws.

Lemma link_windows_agree_witness :
  exists c d ms ns, heap (writer LinkDemo.after) !! 5%positive = Some c /\ heap (reader LinkDemo.after) !! 5%positive = Some d
    /\ to_reader LinkDemo.after = map (fun m => data_msg m.1 (local_channel d) m.2) ms
    /\ to_writer LinkDemo.after = map (adjust_msg (local_channel c)) ns
    /\ remote_window c + flight_bytes ms + zsum ns = local_window d
    /\ 0 <= remote_window c /\ local_window d < 2 ^ 32.
Proof.
  apply (link_windows_agree 5 5 LinkDemo.start _ (LinkDemo.writing CHANNEL_MAX_PACKET) LinkDemo.reading).
  - exact Demo.calloc_succeeds.
  - exact LinkDemo.start_ok.
  - exact LinkDemo.after_reached.
Defined.

Lemma link_stream_integrity_witness :
  exists d ms, heap (reader LinkDemo.after) !! 5%positive = Some d
    /\ to_reader LinkDemo.after = map (fun m => data_msg m.1 (local_channel d) m.2) ms
    /\ forall e, written LinkDemo.after e = received LinkDemo.after e ++ buffered e d ++ flight_of e ms.
Proof.
  apply (link_stream_integrity 5 5 LinkDemo.start _ (LinkDemo.writing CHANNEL_MAX_PACKET) LinkDemo.reading).
  - exact Demo.calloc_succeeds.
  - exact LinkDemo.start_ok.
  - exact LinkDemo.after_reached.
Defined.

Lemma link_no_deadlock_witness :
  exists n A', channel_write_common quiet 1 6 (Some 5%positive) (Some (cstr "hello")) true (writer LinkDemo.start) = Some (n, A')
    /\ (n = SSH_ERROR \/ 0 < n).
Proof.
  apply (link_no_deadlock 5 5 LinkDemo.start _ (LinkDemo.writing CHANNEL_MAX_PACKET) LinkDemo.reading).
  - exact Demo.calloc_succeeds.
  - exact LinkDemo.start_ok.
  - apply rtc_refl.
  - reflexivity.
  - reflexivity.
  - intros d x Hd. cbn in Hd. apply lookup_singleton_Some in Hd as [_ <-]. by destruct x.
  - vm_compute. split; discriminate.
Defined.

Lemma write_takes_what_fits_witness :
  exists rc s', channel_write_common quiet 1 6 (Some 5%positive) (Some (cstr "hello")) false (writer LinkDemo.start) = Some (rc, s')
    /\ (rc = SSH_ERROR \/
        rc = Z.min (zlen (cstr "hello")) (remote_window (LinkDemo.writing CHANNEL_MAX_PACKET))
        /\ (exists k, heap s' = <[5%positive := windowed (remote_window (LinkDemo.writing CHANNEL_MAX_PACKET) - rc) k
                                    (LinkDemo.writing CHANNEL_MAX_PACKET)]> (heap (writer LinkDemo.start)))
        /\ (exists chunks, concat chunks = ztake rc (cstr "hello")
             /\ Forall (fun k => 1 <= zlen k <= remote_maxpacket (LinkDemo.writing CHANNEL_MAX_PACKET) - 10) chunks
             /\ pl_sent (base s') = pl_sent (base (writer LinkDemo.start))
                  ++ map (data_msg false (remote_channel (LinkDemo.writing CHANNEL_MAX_PACKET))) chunks)).
Proof.
  apply write_takes_what_fits.
  - exact LinkDemo.writing_ready.
  - vm_compute. discriminate.
  - vm_compute. lia.
Defined.

(** With 64 messages of fuel the call is still busy. *)
Lemma tiny_packets_never_written_witness :
  channel_write_common quiet 1 64 (Some 5%positive) (Some (cstr "x")) false
    (ChannelDemo.state (LinkDemo.writing 10) []) = None
  /\ forall rc s', channel_write_common quiet 1 64 (Some 5%positive) (Some (cstr "x")) false
       (ChannelDemo.state (LinkDemo.writing 10) []) = Some (rc, s') -> rc = SSH_ERROR.
Proof.
  split; [vm_compute; reflexivity|]. intros rc s'.
  apply (tiny_packets_never_written _ 5%positive (LinkDemo.writing 10)).
  - apply ChannelDemo.state_wf; [apply ChannelDemo.channel_ok|vm_compute; discriminate].
  - apply LinkDemo.state_out.
  - apply LinkDemo.writing_writable.
  - reflexivity.
  - reflexivity.
  - reflexivity.
  - reflexivity.
  - reflexivity.
  - reflexivity.
Defined.

Lemma second_confirmation_redirects_witness :
  exists s', ssh_packet_channel_open_conf
      (ChannelDemo.state (LinkDemo.writing 1000) (be_bytes 4 1 ++ be_bytes 4 9 ++ be_bytes 4 5 ++ be_bytes 4 6))
      SSH2_MSG_CHANNEL_OPEN_CONFIRMATION = Some (SSH_PACKET_USED, s')
    /\ heap s' !! 5%positive = Some (set_remote 9 5 6 (LinkDemo.writing 1000)).
Proof.
  apply (second_confirmation_redirects _ 5%positive (LinkDemo.writing 1000) 9 5 6).
  - apply ChannelDemo.state_wf; [apply ChannelDemo.channel_ok|vm_compute; discriminate].
  - cbn. by simplify_map_eq.
  - reflexivity.
  - vm_compute. split; [discriminate|reflexivity].
  - reflexivity.
  - eexists. split; [reflexivity|]. apply Demo.buffer_of_wf. vm_compute. discriminate.
  - lia.
  - lia.
  - lia.
Defined.
