(* ===== verification/Kdf.v ===== *)
(** * Derivation of the session keys ([libssh/src/kdf.c], [libssh/src/kex.c])

    The digests of [libcrypto.c], the key derivation for a build without OpenSSL's
    own, and [ssh_generate_session_keys]; the specification is RFC 4253, section
    7.2.  Blocks are lists of the allocated size and every read stays in them. *)

From S2P Require Import Prelude SshString Buffer Bignum BufferPack Session Misc Crypto Packet Kex.

(** ** The digests *)

Definition SHA_DIGEST_LEN : Z := 20.
Definition SHA256_DIGEST_LEN : Z := 32.
Definition SHA384_DIGEST_LEN : Z := 48.
Definition SHA512_DIGEST_LEN : Z := 64.

Definition md_len (md : ssh_kdf_digest) : Z :=
  match md with
  | SSH_KDF_SHA1 => SHA_DIGEST_LEN
  | SSH_KDF_SHA256 => SHA256_DIGEST_LEN
  | SSH_KDF_SHA384 => SHA384_DIGEST_LEN
  | SSH_KDF_SHA512 => SHA512_DIGEST_LEN
  end.

(** OpenSSL's digests: whether a context can be made and initialised, and the
    digest of what it was given. *)
Class HashLib := {
  EVP_MD_CTX_create : ssh_kdf_digest -> bool;
  EVP_Digest : ssh_kdf_digest -> bytes -> bytes;
  EVP_Digest_size md data : zlen (EVP_Digest md data) = md_len md
}.

Record sha_ctx := mk_sha_ctx { sha_md : ssh_kdf_digest; sha_data : bytes }.

(** The bytes read through a pointer. *)
Definition read_ptr (p : option bytes) (n : Z) : run bytes :=
  p ← p; memcpy (zrep n Byte.x00) 0 p 0 n.

Section Digests.
Context `{HashLib}.

Definition sha_init (md : ssh_kdf_digest) : option sha_ctx :=
  if EVP_MD_CTX_create md then Some (mk_sha_ctx md []) else None.
(** The context must not be null. *)
Definition sha_update (c : option sha_ctx) (data : bytes) : run (option sha_ctx) :=
  c ← c; Some (Some (mk_sha_ctx (sha_md c) (sha_data c ++ data))).
Definition sha_final (md : bytes) (c : option sha_ctx) : run bytes :=
  c ← c; let d := EVP_Digest (sha_md c) (sha_data c) in memcpy md 0 d 0 (zlen d).

(** [sha1], [sha256], [sha384] and [sha512]: without a context [hash] keeps what it
    holds. *)
Definition sha (md : ssh_kdf_digest) (digest hash : bytes) : run bytes :=
  match sha_init md with
  | None => Some hash
  | c => c ← sha_update c digest; sha_final hash c
  end.
Definition sha1 := sha SSH_KDF_SHA1.
Definition sha256 := sha SSH_KDF_SHA256.
Definition sha384 := sha SSH_KDF_SHA384.
Definition sha512 := sha SSH_KDF_SHA512.
End Digests.

(** ** kdf.c *)

Record ssh_mac_ctx := mk_mac_ctx { mc_type : ssh_kdf_digest; mc_ctx : option sha_ctx }.

Section Kdf.
Context `{Allocator} `{HashLib}.

(** [None] stands for the type 0 of a fresh structure. *)
Definition ssh_mac_ctx_init (type : option ssh_kdf_digest) : option ssh_mac_ctx :=
  match malloc 16 with
  | None => None
  | Some _ => match type with Some md => Some (mk_mac_ctx md (sha_init md)) | None => None end
  end.
Definition ssh_mac_update (ctx : ssh_mac_ctx) (data : bytes) : run ssh_mac_ctx :=
  c ← sha_update (mc_ctx ctx) data; Some (mk_mac_ctx (mc_type ctx) c).
Definition ssh_mac_final (md : bytes) (ctx : ssh_mac_ctx) : run bytes := sha_final md (mc_ctx ctx).

(** The fields of [struct ssh_crypto_struct] that the derivation reads. *)
Record kdf_input := mk_kdf_input {
  ki_len : Z;                        (** [digest_len] *)
  ki_type : option ssh_kdf_digest;   (** [digest_type] *)
  ki_secret_hash : option bytes;
  ki_session_id : option bytes
}.

(** The [while] loop: [output] filled up to [output_len].  [digest] is an array of
    [DIGEST_MAX_LEN] bytes. *)
Fixpoint derive_loop (fuel : nat) (c : kdf_input) (key digest output : bytes) (output_len requested_len : Z)
    : run (Z * bytes) :=
  match fuel with
  | O => None
  | S fuel =>
      if negb (output_len <? requested_len) then Some (0, output) else
      match ssh_mac_ctx_init (ki_type c) with
      | None => Some (-1, output)
      | Some ctx =>
          ctx ← ssh_mac_update ctx key;
          h ← read_ptr (ki_secret_hash c) (ki_len c);
          ctx ← ssh_mac_update ctx h;
          k ← read_ptr (Some output) output_len;
          ctx ← ssh_mac_update ctx k;
          digest ← ssh_mac_final digest ctx;
          output ← (if requested_len <? output_len + ki_len c
                    then memcpy output output_len digest 0 (requested_len - output_len)
                    else memcpy output output_len digest 0 (ki_len c));
          derive_loop fuel c key digest output (output_len + ki_len c) requested_len
      end
  end.

(** [sshkdf_derive_key (crypto, key, key_len, key_type, output, requested_len)]:
    the result and the block [output]. *)
Definition sshkdf_derive_key (c : kdf_input) (key : bytes) (key_type : byte) (output : bytes)
    (requested_len : Z) : run (Z * bytes) :=
  let digest := zrep DIGEST_MAX_LEN Byte.x00 in
  if DIGEST_MAX_LEN <? ki_len c then Some (-1, output) else
  match ssh_mac_ctx_init (ki_type c) with
  | None => Some (-1, output)
  | Some ctx =>
      ctx ← ssh_mac_update ctx key;
      h ← read_ptr (ki_secret_hash c) (ki_len c);
      ctx ← ssh_mac_update ctx h;
      ctx ← ssh_mac_update ctx [key_type];
      id ← read_ptr (ki_session_id c) (ki_len c);
      ctx ← ssh_mac_update ctx id;
      digest ← ssh_mac_final digest ctx;
      let output_len := if requested_len <? ki_len c then requested_len else ki_len c in
      output ← memcpy output 0 digest 0 output_len;
      derive_loop (S (Z.to_nat requested_len)) c key digest output output_len requested_len
  end.

(** The build without OpenSSL's key derivation. *)
Definition ssh_kdf := sshkdf_derive_key.
End Kdf.

(** ** The specification: RFC 4253, section 7.2

    K1 = HASH(K || H || X || session_id), K2 = HASH(K || H || K1),
    K3 = HASH(K || H || K1 || K2), and so on; the key is the start of
    K1 || K2 || K3 ... *)

Section Spec.
Context `{HashLib}.

Fixpoint rfc_stream (md : ssh_kdf_digest) (k h : bytes) (x : byte) (id : bytes) (n : nat) : bytes :=
  match n with
  | O => EVP_Digest md (k ++ h ++ x :: id)
  | S n => let prior := rfc_stream md k h x id n in prior ++ EVP_Digest md (k ++ h ++ prior)
  end.

Definition rfc_key (md : ssh_kdf_digest) (k h : bytes) (x : byte) (id : bytes) (len : Z) : bytes :=
  ztake len (rfc_stream md k h x id (Z.to_nat (len / md_len md))).

Lemma md_len_range md : 20 <= md_len md <= DIGEST_MAX_LEN.
Proof. destruct md; split; discriminate. Qed.

Lemma rfc_stream_len md k h x id n :
  zlen (rfc_stream md k h x id n) = (Z.of_nat n + 1) * md_len md.
Proof.
  induction n as [|n IH]; cbn [rfc_stream].
  - rewrite EVP_Digest_size. lia.
  - rewrite zlen_app, IH, EVP_Digest_size. lia.
Qed.

Lemma rfc_key_len md k h x id len : 0 <= len -> zlen (rfc_key md k h x id len) = len.
Proof.
  intros Hl. unfold rfc_key. pose proof (md_len_range md).
  pose proof (Z.div_pos len (md_len md) ltac:(lia) ltac:(lia)).
  pose proof (Z.mul_succ_div_gt len (md_len md) ltac:(lia)) as Hg.
  assert (Hs : zlen (rfc_stream md k h x id (Z.to_nat (len / md_len md))) = md_len md * Z.succ (len / md_len md))
    by (rewrite rfc_stream_len, Z2Nat.id by lia; ring).
  rewrite zlen_take. lia.
Qed.

(** The start of the stream does not depend on how far it is computed. *)
Lemma rfc_key_block md k h x id len n :
  Z.of_nat n * md_len md <= len <= (Z.of_nat n + 1) * md_len md ->
  rfc_key md k h x id len = ztake len (rfc_stream md k h x id n).
Proof.
  intros Hl. pose proof (md_len_range md). unfold rfc_key.
  destruct (decide (len = (Z.of_nat n + 1) * md_len md)) as [->|Hne].
  - rewrite Z.div_mul by lia. rewrite Z2Nat.inj_add, Nat2Z.id by lia.
    change (Z.to_nat 1) with 1%nat. rewrite Nat.add_1_r. cbn [rfc_stream].
    rewrite ztake_app_le by (rewrite rfc_stream_len; lia). done.
  - assert (Hd : len / md_len md = Z.of_nat n).
    { symmetry. apply (Z.div_unique _ _ _ (len - Z.of_nat n * md_len md)); [left|]; lia. }
    by rewrite Hd, Nat2Z.id.
Qed.
End Spec.

(** A state of the crypto structure after the exchange: the digest and the two
    hashes are there, with the length of the digest. *)
Record kdf_ready `{HashLib} (c : kdf_input) (md : ssh_kdf_digest) (h id : bytes) : Prop := {
  kr_len : ki_len c = md_len md;
  kr_type : ki_type c = Some md;
  kr_hash : ki_secret_hash c = Some h;
  kr_hash_len : zlen h = md_len md;
  kr_id : ki_session_id c = Some id;
  kr_id_len : zlen id = md_len md;
  kr_create : EVP_MD_CTX_create md = true
}.

Section KdfFacts.
Context `{Allocator} `{HashLib}.

Lemma read_ptr_ok p n : 0 <= n <= zlen p -> read_ptr (Some p) n = Some (ztake n p).
Proof.
  intros Hn. unfold read_ptr. cbn [mbind option_bind]. rewrite memcpy_ok by zlen_lia.
  rewrite (zdrop_0 0), ztake_0, (zdrop_all n) by zlen_lia. cbn [app]. by rewrite app_nil_r.
Qed.

Lemma mac_ctx_init_ok c md h id :
  malloc_never_fails -> kdf_ready c md h id ->
  ssh_mac_ctx_init (ki_type c) = Some (mk_mac_ctx md (Some (mk_sha_ctx md []))).
Proof.
  intros Hm Hr. unfold ssh_mac_ctx_init. destruct (malloc 16) as [m|] eqn:E; [|by apply Hm in E].
  rewrite (kr_type _ _ _ _ Hr). unfold sha_init. by rewrite (kr_create _ _ _ _ Hr).
Qed.

(** [ssh_mac_final] leaves the digest at the start of its array. *)
Lemma mac_final_ok digest md data :
  zlen digest = DIGEST_MAX_LEN ->
  exists rest, ssh_mac_final digest (mk_mac_ctx md (Some (mk_sha_ctx md data)))
      = Some (EVP_Digest md data ++ rest)
    /\ zlen (EVP_Digest md data ++ rest) = DIGEST_MAX_LEN.
Proof.
  intros Hd. pose proof (md_len_range md). unfold ssh_mac_final, sha_final.
  cbn [mc_ctx mbind option_bind sha_md sha_data]. rewrite memcpy_ok by (rewrite ?EVP_Digest_size; lia).
  rewrite (zdrop_0 0), ztake_0, ztake_all, Z.add_0_l by lia. cbn [app].
  eexists. split; [reflexivity|]. rewrite zlen_app, zlen_drop, EVP_Digest_size; rewrite ?EVP_Digest_size; lia.
Qed.

Lemma derive_loop_ok c md h id key x n : forall fuel digest output blocks,
  malloc_never_fails -> kdf_ready c md h id -> zlen digest = DIGEST_MAX_LEN ->
  zlen output = n -> (Z.of_nat blocks + 1) * md_len md <= n ->
  ztake ((Z.of_nat blocks + 1) * md_len md) output = rfc_stream md key h x id blocks ->
  n - (Z.of_nat blocks + 1) * md_len md < Z.of_nat fuel ->
  derive_loop fuel c key digest output ((Z.of_nat blocks + 1) * md_len md) n
  = Some (0, rfc_key md key h x id n).
Proof.
  induction fuel as [|fuel IH]; intros digest output blocks Hm Hr Hdig Hout Hle Hpre Hfuel; [lia|].
  pose proof (md_len_range md) as Hmd. cbn [derive_loop]. set (len := (Z.of_nat blocks + 1) * md_len md) in *.
  assert (Hblock : rfc_stream md key h x id (S blocks)
    = rfc_stream md key h x id blocks ++ EVP_Digest md (key ++ h ++ rfc_stream md key h x id blocks)) by done.
  destruct (Z.ltb_spec len n) as [Hlt|Hge]; cbn [negb].
  2:{ assert (len = n) as Hn by lia. rewrite (rfc_key_block _ _ _ _ _ _ blocks) by lia.
      by rewrite <- Hpre, Hn, !(ztake_all n output) by lia. }
  rewrite (mac_ctx_init_ok c md h id) by done.
  unfold ssh_mac_update, sha_update. cbn [mbind option_bind mc_ctx mc_type sha_md sha_data].
  rewrite (kr_hash _ _ _ _ Hr), (kr_len _ _ _ _ Hr).
  rewrite (read_ptr_ok h) by (rewrite (kr_hash_len _ _ _ _ Hr); lia).
  cbn [mbind option_bind mc_ctx mc_type sha_md sha_data].
  rewrite (read_ptr_ok output) by lia. cbn [mbind option_bind mc_ctx mc_type sha_md sha_data app].
  rewrite Hpre, (ztake_all (md_len md) h) by (rewrite (kr_hash_len _ _ _ _ Hr); lia). rewrite <- app_assoc.
  destruct (mac_final_ok digest md (key ++ h ++ rfc_stream md key h x id blocks)) as (rest & -> & Hdig'); [done|].
  cbn [mbind option_bind]. set (d := EVP_Digest md _) in *.
  assert (Hd : zlen d = md_len md) by apply EVP_Digest_size.
  assert (Hpz : zlen (rfc_stream md key h x id blocks) = len) by apply rfc_stream_len.
  destruct (Z.ltb_spec n (len + md_len md)) as [Hlast|Hmore].
  - rewrite memcpy_ok by lia. cbn [mbind option_bind].
    rewrite Hpre, (zdrop_0 0), ztake_app_le, (zdrop_all (len + _)), app_nil_r by lia.
    destruct fuel as [|fuel]; [lia|]. cbn [derive_loop]. rewrite (proj2 (Z.ltb_ge (len + _) n)) by lia.
    cbn [negb]. f_equal. f_equal. rewrite (rfc_key_block _ _ _ _ _ _ (S blocks)) by lia.
    rewrite Hblock, ztake_app_ge by lia. fold d. by rewrite Hpz.
  - rewrite memcpy_ok by lia. cbn [mbind option_bind].
    rewrite Hpre, (zdrop_0 0), ztake_app_le, (ztake_all (md_len md) d) by lia.
    replace (len + md_len md) with ((Z.of_nat (S blocks) + 1) * md_len md) by lia.
    apply IH; [done|done|done| |lia| |lia].
    + rewrite !zlen_app, Hpz, Hd, zlen_drop; lia.
    + rewrite app_assoc. rewrite Hblock. fold d. rewrite ztake_app_le by (rewrite zlen_app; lia).
      apply ztake_all. rewrite zlen_app. lia.
Qed.

Lemma derive_key_spec c md h id key x output n :
  malloc_never_fails -> kdf_ready c md h id -> 0 <= n -> zlen output = n ->
  sshkdf_derive_key c key x output n = Some (0, rfc_key md key h x id n).
Proof.
  intros Hm Hr Hn Hout. pose proof (md_len_range md) as Hmd. unfold sshkdf_derive_key.
  rewrite (kr_len _ _ _ _ Hr), (proj2 (Z.ltb_ge _ _)) by lia.
  rewrite (mac_ctx_init_ok c md h id) by done.
  unfold ssh_mac_update, sha_update. cbn [mbind option_bind mc_ctx mc_type sha_md sha_data].
  rewrite (kr_hash _ _ _ _ Hr), (kr_id _ _ _ _ Hr).
  rewrite (read_ptr_ok h) by (rewrite (kr_hash_len _ _ _ _ Hr); lia).
  cbn [mbind option_bind mc_ctx mc_type sha_md sha_data].
  rewrite (read_ptr_ok id) by (rewrite (kr_id_len _ _ _ _ Hr); lia).
  cbn [mbind option_bind mc_ctx mc_type sha_md sha_data app].
  rewrite (ztake_all (md_len md) h) by (rewrite (kr_hash_len _ _ _ _ Hr); lia).
  rewrite (ztake_all (md_len md) id) by (rewrite (kr_id_len _ _ _ _ Hr); lia).
  rewrite <- !app_assoc. cbn [app].
  destruct (mac_final_ok (zrep DIGEST_MAX_LEN Byte.x00) md (key ++ h ++ x :: id)) as (rest & -> & Hdig);
    [by vm_compute|]. cbn [mbind option_bind]. set (d := EVP_Digest md _) in *.
  assert (Hd : zlen d = md_len md) by apply EVP_Digest_size.
  destruct (Z.ltb_spec n (md_len md)) as [Hlt|Hge].
  - rewrite memcpy_ok by lia. cbn [mbind option_bind].
    rewrite ztake_0, (zdrop_0 0), ztake_app_le, (zdrop_all (0 + n)), app_nil_r by lia. cbn [app].
    cbn [derive_loop]. rewrite Z.ltb_irrefl. cbn [negb]. rewrite (rfc_key_block _ _ _ _ _ _ 0) by lia. done.
  - rewrite memcpy_ok by lia. cbn [mbind option_bind].
    rewrite ztake_0, (zdrop_0 0), ztake_app_le, (ztake_all (md_len md) d), Z.add_0_l by lia. cbn [app].
    replace (md_len md) with ((Z.of_nat 0 + 1) * md_len md) at 2 by lia.
    apply derive_loop_ok; [done|done|done| |lia| |lia].
    + rewrite zlen_app, Hd, zlen_drop; lia.
    + cbn [rfc_stream]. fold d. replace ((Z.of_nat 0 + 1) * md_len md) with (md_len md) by lia.
      rewrite ztake_app_le by lia. apply ztake_all. lia.
Qed.
(** Every derivation reads [digest_len] bytes of the session identifier. *)
Lemma derive_key_overreads c md h id key x output n :
  malloc_never_fails -> ki_len c = md_len md -> ki_type c = Some md -> EVP_MD_CTX_create md = true ->
  ki_secret_hash c = Some h -> ki_session_id c = Some id -> zlen id < md_len md ->
  ssh_kdf c key x output n = None.
Proof.
  intros Hm Hl Ht Hc Hh Hid Hlen. pose proof (md_len_range md). unfold ssh_kdf, sshkdf_derive_key.
  rewrite Hl, (proj2 (Z.ltb_ge _ _)) by lia. unfold ssh_mac_ctx_init.
  destruct (malloc 16) as [m|] eqn:E; [|by apply Hm in E]. rewrite Ht. unfold sha_init. rewrite Hc.
  unfold ssh_mac_update, sha_update. cbn [mbind option_bind mc_ctx]. rewrite Hh, Hid.
  destruct (read_ptr (Some h) _); [|done]. cbn [mbind option_bind mc_ctx].
  unfold read_ptr, memcpy. cbn [mbind option_bind]. rewrite (proj2 (Z.leb_gt (0 + md_len md) (zlen id))) by lia.
  by rewrite andb_false_r.
Qed.
End KdfFacts.

(** ** [ssh_generate_session_keys] *)

Section Generate.
Context `{Allocator} `{BignumLib} `{HashLib} `{RandomLib} {K : Type}.
Notation session := (session K prng handshake).
Implicit Type s : session.

Definition kdf_of (c : ssh_crypto K) (h : handshake) : kdf_input :=
  mk_kdf_input (digest_len c) (digest_type (keys h)) (secret_hash (keys h)) (session_id c).

Definition set_macs (dec enc : bytes) (c : ssh_crypto K) : ssh_crypto K :=
  mk_crypto (used c) (in_cipher c) (out_cipher c) (in_hmac c) (out_hmac c) (in_hmac_etm c) (out_hmac_etm c)
    dec enc (hmacbuf c) (digest_len c) (session_id c).

(** The six blocks: IVs, encryption keys and integrity keys, from the client to the
    server and back. *)
Record six_keys := mk_six {
  IV_cli_to_srv : bytes; IV_srv_to_cli : bytes;
  enckey_cli_to_srv : bytes; enckey_srv_to_cli : bytes;
  intkey_cli_to_srv : bytes; intkey_srv_to_cli : bytes
}.

(** The calls of [ssh_kdf], in order, until one fails. *)
Fixpoint derive_all (c : kdf_input) (key : bytes) (calls : list (byte * bytes * Z)) (done : list bytes)
    : run (Z * list bytes) :=
  match calls with
  | [] => Some (0, done)
  | (letter, output, len) :: calls =>
      '(rc, output) ← ssh_kdf c key letter output len;
      if rc <? 0 then Some (rc, done) else derive_all c key calls (done ++ [output])
  end.

(** The assignment of the blocks to the fields, by the role. *)
Definition assign_keys (is_client : bool) (k : six_keys) (c : ssh_crypto K) (h : handshake)
    : ssh_crypto K * handshake :=
  let ks := keys h in
  if is_client then
    (set_macs (intkey_srv_to_cli k) (intkey_cli_to_srv k) c,
     set_keys (mk_keys (digest_type ks) (secret_hash ks) (IV_cli_to_srv k) (IV_srv_to_cli k)
                 (enckey_cli_to_srv k) (enckey_srv_to_cli k)) h)
  else
    (set_macs (intkey_cli_to_srv k) (intkey_srv_to_cli k) c,
     set_keys (mk_keys (digest_type ks) (secret_hash ks) (IV_srv_to_cli k) (IV_cli_to_srv k)
                 (enckey_srv_to_cli k) (enckey_cli_to_srv k)) h).

(** What follows the derivation: all six blocks are there, or [rc] is an error. *)
Definition store_keys s (c : ssh_crypto K) (rc : Z) (blocks : list bytes) : Z * session :=
  match blocks with
  | [a; b; c'; d; e; f] =>
      let '(c, h) := assign_keys (is_client s) (mk_six a b c' d e f) c (upper s) in
      (0, set_upper h (set_cryptos (current_crypto s) (Some c) s))
  | _ => (rc, s)
  end.

Definition ssh_generate_session_keys s : run (Z * session) :=
  c ← next_crypto s;
  secret ← shared_secret (exch (upper s));
  k_string ← ssh_make_bignum_string secret;
  match k_string with
  | None => Some (-1, s)
  | Some k_string =>
      let key_len := ssh_string_len (Some k_string) + 4 in
      key ← read_ptr (Some (string_image k_string)) key_len;
      let IV_len := digest_len c in
      out ← out_cipher c;
      inc ← in_cipher c;
      let cli := is_client s in
      let enc_cs := keysize (c_ops (if cli then out else inc)) / 8 in
      let enc_sc := keysize (c_ops (if cli then inc else out)) / 8 in
      let int_cs := hmac_key_len (if cli then out_hmac c else in_hmac c) in
      let int_sc := hmac_key_len (if cli then in_hmac c else out_hmac c) in
      match malloc IV_len, malloc IV_len, malloc enc_cs, malloc enc_sc, malloc int_cs, malloc int_sc with
      | Some a, Some b, Some c', Some d, Some e, Some f =>
          '(rc, blocks) ← derive_all (kdf_of c (upper s)) key
             [("A"%byte, a, IV_len); ("B"%byte, b, IV_len); ("C"%byte, c', enc_cs); ("D"%byte, d, enc_sc);
              ("E"%byte, e, int_cs); ("F"%byte, f, int_sc)] [];
          Some (store_keys s c rc blocks)
      | _, _, _, _, _, _ => Some (-1, s)
      end
  end.
End Generate.

(** *** The keys of both ends *)

Section GenerateFacts.
Context `{Allocator} `{BignumLib} `{HashLib} `{RandomLib} {K : Type}.
Notation session := (session K prng handshake).
Implicit Type s r : session.

(** The keys of RFC 4253 for the sizes of the algorithms of each direction. *)
Definition rfc_keys (md : ssh_kdf_digest) (k h id : bytes) (enc_cs enc_sc int_cs int_sc : Z) : six_keys :=
  mk_six (rfc_key md k h "A" id (md_len md)) (rfc_key md k h "B" id (md_len md))
    (rfc_key md k h "C" id enc_cs) (rfc_key md k h "D" id enc_sc)
    (rfc_key md k h "E" id int_cs) (rfc_key md k h "F" id int_sc).

Lemma hmac_key_len_range type : 16 <= hmac_key_len type <= 64.
Proof. by destruct type. Qed.

Lemma string_read_image w :
  string_wf w -> read_ptr (Some (string_image w)) (ssh_string_len (Some w) + 4) = Some (lv (string_text w)).
Proof.
  intros Hw. pose proof (string_wf_len w Hw) as (Hr & Hsz & Hd). pose proof (string_text_zlen w Hw) as Ht.
  unfold string_image, lv, string_text, STRING_SIZE_MAX in *. set (n := ssh_string_len (Some w)) in *.
  rewrite read_ptr_ok by zlen_lia. rewrite ztake_app_ge by zlen_lia. rewrite Hsz, le_bytes_htonl, Ht.
  do 3 f_equal. zlen_lia.
Qed.

(** A session whose exchange is over and whose algorithms are set. *)
Record keys_ready s (c : ssh_crypto K) (n : bignum) (oc ic : ssh_cipher K) (md : ssh_kdf_digest) (h id : bytes)
    : Prop := {
  gr_crypto : next_crypto s = Some c;
  gr_secret : shared_secret (exch (upper s)) = Some n;
  gr_nonzero : bn_val n <> 0;
  gr_size : 4 + zlen (mpint n) < BUFFER_SIZE_MAX;
  gr_out : out_cipher c = Some oc;
  gr_in : in_cipher c = Some ic;
  gr_out_size : 0 <= keysize (c_ops oc);
  gr_in_size : 0 <= keysize (c_ops ic);
  gr_kdf : kdf_ready (kdf_of c (upper s)) md h id
}.

Lemma derive_all_ok c key md h id calls : forall prior,
  malloc_never_fails -> kdf_ready c md h id ->
  Forall (fun '(_, output, len) => 0 <= len /\ zlen output = len) calls ->
  derive_all c key calls prior
  = Some (0, prior ++ map (fun '(letter, _, len) => rfc_key md key h letter id len) calls).
Proof.
  induction calls as [|[[letter output] len] calls IH]; intros prior Hm Hr Hall; cbn [derive_all map].
  - by rewrite app_nil_r.
  - apply Forall_cons in Hall as [[Hlen Hout] Hall']. unfold ssh_kdf.
    rewrite (derive_key_spec c md h id) by done. cbn [mbind option_bind]. change (0 <? 0) with false. cbv iota.
    rewrite IH by done. by rewrite <- app_assoc.
Qed.

(** What [ssh_generate_session_keys] leaves. *)
Definition generated s (c : ssh_crypto K) (n : bignum) (oc ic : ssh_cipher K) md h id : session :=
  let cli := is_client s in
  let k := rfc_keys md (lv (mpint n)) h id
    (keysize (c_ops (if cli then oc else ic)) / 8) (keysize (c_ops (if cli then ic else oc)) / 8)
    (hmac_key_len (if cli then out_hmac c else in_hmac c)) (hmac_key_len (if cli then in_hmac c else out_hmac c)) in
  let '(c, hs) := assign_keys cli k c (upper s) in set_upper hs (set_cryptos (current_crypto s) (Some c) s).

(** The calls of the derivation: letters, blocks and lengths. *)
Definition kdf_calls (lens : list Z) (blocks : list bytes) : list (byte * bytes * Z) :=
  zip (zip ["A"; "B"; "C"; "D"; "E"; "F"]%byte blocks) lens.
Definition key_lens s (c : ssh_crypto K) (oc ic : ssh_cipher K) : list Z :=
  let cli := is_client s in
  [digest_len c; digest_len c;
   keysize (c_ops (if cli then oc else ic)) / 8; keysize (c_ops (if cli then ic else oc)) / 8;
   hmac_key_len (if cli then out_hmac c else in_hmac c); hmac_key_len (if cli then in_hmac c else out_hmac c)].

(** With memory, the function comes to the derivation. *)
Lemma generate_derives s c n oc ic :
  malloc_never_fails -> next_crypto s = Some c -> shared_secret (exch (upper s)) = Some n ->
  bn_val n <> 0 -> 4 + zlen (mpint n) < BUFFER_SIZE_MAX -> out_cipher c = Some oc -> in_cipher c = Some ic ->
  0 <= keysize (c_ops oc) -> 0 <= keysize (c_ops ic) -> 0 <= digest_len c ->
  exists blocks, length blocks = 6%nat
    /\ Forall (fun '(_, output, len) => 0 <= len /\ zlen output = len) (kdf_calls (key_lens s c oc ic) blocks)
    /\ ssh_generate_session_keys s
       = ('(rc, ks) ← derive_all (kdf_of c (upper s)) (lv (mpint n)) (kdf_calls (key_lens s c oc ic) blocks) [];
          Some (store_keys s c rc ks)).
Proof.
  intros Hm Hc Hn Hnz Hsz Ho Hi Hos His Hdl.
  assert (Hms : malloc_succeeds) by (intros k Hk; apply Hm; lia).
  pose proof (hmac_key_len_range (out_hmac c)). pose proof (hmac_key_len_range (in_hmac c)).
  unfold ssh_generate_session_keys. rewrite Hc, Hn. cbn [mbind option_bind].
  destruct (ssh_make_bignum_string n) as [[w|]|] eqn:Hw;
    [|by apply bignum_string_made in Hw|by apply make_bignum_string_runs in Hw].
  apply make_bignum_string_text in Hw as (Hwf & _ & Ht). fold (mpint n) in Ht.
  cbn [mbind option_bind]. rewrite string_read_image by done. rewrite Ht. cbn [mbind option_bind].
  rewrite Ho, Hi. cbn [mbind option_bind].
  assert (Hlens : Forall (fun len => 0 <= len) (key_lens s c oc ic)).
  { unfold key_lens. repeat constructor; try lia; destruct (is_client s); try lia; apply Z.div_pos; lia. }
  assert (Hblk : forall k, 0 <= k -> exists p, malloc k = Some p /\ zlen p = k).
  { intros k Hk. destruct (malloc k) as [p|] eqn:E; [|by apply Hm in E]. exists p. split; [done|].
    by apply malloc_zlen in E. }
  unfold key_lens in Hlens. rewrite !Forall_cons in Hlens. destruct Hlens as (Hz1 & _ & Hz2 & Hz3 & Hz4 & Hz5 & _).
  destruct (Hblk _ Hz1) as (p1 & Ep1 & Hp1). destruct (Hblk _ Hz2) as (p2 & Ep2 & Hp2).
  destruct (Hblk _ Hz3) as (p3 & Ep3 & Hp3). destruct (Hblk _ Hz4) as (p4 & Ep4 & Hp4).
  destruct (Hblk _ Hz5) as (p5 & Ep5 & Hp5). rewrite Ep1, Ep2, Ep3, Ep4, Ep5.
  exists [p1; p1; p2; p3; p4; p5]. split_and!; [done| |done]. by repeat constructor.
Qed.

Lemma generate_session_keys_spec s c n oc ic md h id :
  malloc_never_fails -> keys_ready s c n oc ic md h id ->
  ssh_generate_session_keys s = Some (0, generated s c n oc ic md h id).
Proof.
  intros Hm [Hc Hn Hnz Hsz Ho Hi Hos His Hr].
  pose proof (md_len_range md) as Hmd. pose proof (kr_len _ _ _ _ Hr) as Hdl. cbn in Hdl.
  destruct (generate_derives s c n oc ic) as (blocks & Hl & Hall & ->); try done; [lia|].
  rewrite (derive_all_ok _ _ md h id) by done.
  do 6 (destruct blocks as [|? blocks]; [done|]). destruct blocks; [|done].
  cbn [mbind option_bind app map kdf_calls key_lens zip zip_with]. unfold store_keys, generated.
  cbn. rewrite Hdl. by destruct (is_client s).
Qed.
End GenerateFacts.

(** ** Properties *)

(** (C25) [sshkdf_derive_key] ends, writes the key that RFC 4253, section 7.2
    defines, for any length that is asked for, and reads its hashes within their
    blocks, when the exchange hash and the session identifier have the length of the digest in use (so that a session
    never changes to a longer digest: [SessionId.rekey_reads_past_session_id]). *)
Theorem derive_key_rfc4253 `{Allocator} `{HashLib} c md h id key letter output n :
  malloc_never_fails -> kdf_ready c md h id -> 0 <= n -> zlen output = n ->
  sshkdf_derive_key c key letter output n = Some (0, rfc_key md key h letter id n)
  /\ zlen (rfc_key md key h letter id n) = n.
Proof. intros. split; [by apply derive_key_spec|by apply rfc_key_len]. Qed.

(** (C26) Two ends with the same exchange hash, session identifier and secret, and with
    the algorithms of each direction chosen alike, derive the same keys: what one
    encrypts and signs with, the other decrypts and checks with.  The keys have
    the sizes of the algorithms. *)
Theorem session_keys_agree `{Allocator} `{BignumLib} `{HashLib} `{RandomLib} {K : Type}
    (s r : session K prng handshake) cs cr ns nr oc ic oc' ic' md h id :
  malloc_never_fails -> is_client s = true -> is_client r = false ->
  keys_ready s cs ns oc ic md h id -> keys_ready r cr nr oc' ic' md h id ->
  bn_val ns = bn_val nr ->
  keysize (c_ops oc) = keysize (c_ops ic') -> keysize (c_ops ic) = keysize (c_ops oc') ->
  out_hmac cs = in_hmac cr -> in_hmac cs = out_hmac cr ->
  exists s' r' cs' cr',
    ssh_generate_session_keys s = Some (0, s') /\ next_crypto s' = Some cs'
    /\ ssh_generate_session_keys r = Some (0, r') /\ next_crypto r' = Some cr'
    /\ encryptkey (keys (upper s')) = decryptkey (keys (upper r'))
    /\ decryptkey (keys (upper s')) = encryptkey (keys (upper r'))
    /\ encryptIV (keys (upper s')) = decryptIV (keys (upper r'))
    /\ decryptIV (keys (upper s')) = encryptIV (keys (upper r'))
    /\ encryptMAC cs' = decryptMAC cr' /\ decryptMAC cs' = encryptMAC cr'
    /\ zlen (encryptkey (keys (upper s'))) = keysize (c_ops oc) / 8
    /\ zlen (decryptkey (keys (upper s'))) = keysize (c_ops ic) / 8
    /\ zlen (encryptIV (keys (upper s'))) = md_len md
    /\ zlen (encryptMAC cs') = hmac_key_len (out_hmac cs).
Proof.
  intros Hm Hs Hr Hcs Hcr Hn Ho Hi Hmo Hmi.
  rewrite (generate_session_keys_spec s cs ns oc ic md h id Hm Hcs).
  rewrite (generate_session_keys_spec r cr nr oc' ic' md h id Hm Hcr).
  assert (Hmp : mpint ns = mpint nr) by (by apply mpint_val_eq).
  unfold generated. rewrite Hs, Hr, Hmp. cbn [assign_keys].
  pose proof (gr_out_size _ _ _ _ _ _ _ _ Hcs). pose proof (gr_in_size _ _ _ _ _ _ _ _ Hcs).
  pose proof (md_len_range md). pose proof (hmac_key_len_range (out_hmac cs)).
  do 4 eexists. split_and!; [reflexivity..| | | | | | | | | |];
    cbn [upper next_crypto set_upper set_cryptos keys set_keys encryptkey decryptkey encryptIV decryptIV
         encryptMAC decryptMAC set_macs rfc_keys IV_cli_to_srv IV_srv_to_cli enckey_cli_to_srv enckey_srv_to_cli
         intkey_cli_to_srv intkey_srv_to_cli]; rewrite <- ?Ho, <- ?Hi, <- ?Hmo, <- ?Hmi; try done;
    apply rfc_key_len; try lia; apply Z.div_pos; lia.
Qed.

(** ** A concrete derivation *)

Module KdfDemo.
(** A checksum in place of a digest; [works] tells whether contexts can be made. *)
Definition hash (works : bool) : HashLib.
Proof.
  refine {| EVP_MD_CTX_create _ := works;
            EVP_Digest md data := zrep (md_len md) (Demo.checksum [] data) |}.
  by intros [] data.
Defined.

Definition h : bytes := zrep 32 Byte.x07.
Definition id : bytes := zrep 32 Byte.x09.
Definition secret : N := 0x80ff%N.

Definition cipher : ssh_cipher Z := mk_cipher Demo.xor_ops 0 0 0 0.
Definition crypto : ssh_crypto Z :=
  mk_crypto 0 (Some cipher) (Some cipher) SSH_HMAC_SHA256 SSH_HMAC_SHA256 true true [] [] (zrep 64 Byte.x00)
    32 (Some id).
Definition exchanged (srv : bool) : session Z (@prng Demo.random) (@handshake N_bignum) :=
  set_cryptos None (Some crypto)
    (KexDemo.peer srv None
       (set_exch (@mk_exchange N_bignum (Some secret) None None None None 0 0 0 None None [] [] None None)
          (set_keys (mk_keys (Some SSH_KDF_SHA256) (Some h) [] [] [] [])
             (KexDemo.hs KexDemo.client_lists KexDemo.server_lists)))).
Definition input : kdf_input := mk_kdf_input 32 (Some SSH_KDF_SHA256) (Some h) (Some id).

Lemma input_ready : @kdf_ready (hash true) input SSH_KDF_SHA256 h id.
Proof. by constructor. Qed.
Lemma calloc_never_fails : @malloc_never_fails calloc_allocator.
Proof. intros n Hn. discriminate. Qed.
Lemma exchanged_ready srv : @keys_ready N_bignum (hash true) Demo.random Z (exchanged srv) crypto secret cipher cipher
  SSH_KDF_SHA256 h id.
Proof. constructor; try done. all: by vm_compute. Qed.
End KdfDemo.

Lemma derive_key_rfc4253_witness :
  let key := cstr "key" in
  @sshkdf_derive_key calloc_allocator (KdfDemo.hash true) KdfDemo.input key "C" (zrep 80 Byte.x00) 80
  = Some (0, @rfc_key (KdfDemo.hash true) SSH_KDF_SHA256 key KdfDemo.h "C" KdfDemo.id 80)
  /\ zlen (@rfc_key (KdfDemo.hash true) SSH_KDF_SHA256 key KdfDemo.h "C" KdfDemo.id 80) = 80.
Proof.
  apply (@derive_key_rfc4253 calloc_allocator (KdfDemo.hash true));
    [apply KdfDemo.calloc_never_fails|apply KdfDemo.input_ready|lia|reflexivity].
Defined.

Lemma session_keys_agree_witness :
  exists s' r' cs' cr',
    @ssh_generate_session_keys calloc_allocator N_bignum (KdfDemo.hash true) Demo.random Z (KdfDemo.exchanged false)
      = Some (0, s') /\ next_crypto s' = Some cs'
    /\ @ssh_generate_session_keys calloc_allocator N_bignum (KdfDemo.hash true) Demo.random Z (KdfDemo.exchanged true)
      = Some (0, r') /\ next_crypto r' = Some cr'
    /\ encryptkey (keys (upper s')) = decryptkey (keys (upper r'))
    /\ decryptkey (keys (upper s')) = encryptkey (keys (upper r'))
    /\ encryptIV (keys (upper s')) = decryptIV (keys (upper r'))
    /\ decryptIV (keys (upper s')) = encryptIV (keys (upper r'))
    /\ encryptMAC cs' = decryptMAC cr' /\ decryptMAC cs' = encryptMAC cr'
    /\ zlen (encryptkey (keys (upper s'))) = keysize (c_ops KdfDemo.cipher) / 8
    /\ zlen (decryptkey (keys (upper s'))) = keysize (c_ops KdfDemo.cipher) / 8
    /\ zlen (encryptIV (keys (upper s'))) = md_len SSH_KDF_SHA256
    /\ zlen (encryptMAC cs') = hmac_key_len (out_hmac KdfDemo.crypto).
Proof.
  apply (@session_keys_agree calloc_allocator N_bignum (KdfDemo.hash true) Demo.random Z (KdfDemo.exchanged false)
    (KdfDemo.exchanged true) KdfDemo.crypto KdfDemo.crypto KdfDemo.secret KdfDemo.secret KdfDemo.cipher KdfDemo.cipher
    KdfDemo.cipher KdfDemo.cipher SSH_KDF_SHA256 KdfDemo.h KdfDemo.id);
    [apply KdfDemo.calloc_never_fails|reflexivity|reflexivity|apply KdfDemo.exchanged_ready..|reflexivity
    |reflexivity|reflexivity|reflexivity|reflexivity].
Defined.
