(* ===== verification/SessionId.v ===== *)
(** * The exchange hash ([ssh_make_sessionid] of [libssh/src/kex.c])

    The text both ends hash at the end of a key exchange, and the session
    identifier.  The banners, the proposals and the values of the exchange are
    those of the session; the key pairs of [dh_ctx] and the blob of the server's
    key belong to libraries.  The 32 bit lengths and the [size_t] group sizes the
    code passes to [ssh_buffer_pack] are read as their values. *)

From S2P Require Import Prelude SshString Buffer Bignum BufferPack Session Misc Crypto Packet Kex Kdf.

Definition CURVE25519_PUBKEY_SIZE : Z := 32.

(** A step of the function: [goto error] with the value of [rc], or its result. *)
Inductive step (A : Type) := GotoError (rc : Z) | Next_ (a : A).
Arguments GotoError {A}.
Arguments Next_ {A}.

Definition then_ {A B} (m : run (step A)) (f : A -> run (step B)) : run (step B) :=
  x ← m; match x with GotoError rc => Some (GotoError rc) | Next_ a => f a end.

Section SessionId.
Context `{Allocator} `{BignumLib} `{HashLib} `{RandomLib} {K : Type}.
Notation session := (session K prng handshake).
Implicit Type s : session.

(** [ssh_buffer_pack] and the test of its result. *)
Definition pack_step (buf : ssh_buffer) (fmt : bytes) (args : list va) : run (step ssh_buffer) :=
  '(rc, buf) ← ssh_buffer_pack buf fmt args;
  Some (if rc =? SSH_OK then Next_ buf else GotoError rc).

(** The two last fields of a KEXINIT message, added to a hash buffer. *)
Definition add_trailer (hash : option ssh_buffer) : run (step ssh_buffer) :=
  match hash with
  | None => Some (GotoError (-1))
  | Some hash =>
      '(rc, hash) ← ssh_buffer_add_u8 hash 0;
      if rc <? 0 then Some (GotoError rc) else
      '(rc, hash) ← ssh_buffer_add_u32 hash 0;
      Some (if rc <? 0 then GotoError rc else Next_ hash)
  end.

(** [ssh_dh_keypair_get_keys (dh_ctx, peer, NULL, &pub)]. *)
Definition ssh_dh_keypair_get_keys (key : option bignum) : step bignum :=
  match key with
  | None => GotoError SSH_ERROR
  | Some n => if bignum_num_bits n =? 0 then GotoError SSH_ERROR else Next_ n
  end.

(** [ssh_dh_get_parameters]. *)
Definition ssh_dh_get_parameters (e : exchange) : step (bignum * bignum) :=
  match dh_modulus e, dh_generator e with
  | Some p, Some g => Next_ (p, g)
  | _, _ => GotoError SSH_ERROR
  end.

(** The first switch: the public values of the method. *)
Definition pack_public (kex_type : option ssh_key_exchange_e) (e : exchange) (buf : ssh_buffer)
    : run (step ssh_buffer) :=
  match kex_type with
  | Some (SSH_KEX_DH_GROUP1_SHA1 | SSH_KEX_DH_GROUP14_SHA1 | SSH_KEX_DH_GROUP14_SHA256
         | SSH_KEX_DH_GROUP16_SHA512 | SSH_KEX_DH_GROUP18_SHA512) =>
      then_ (Some (ssh_dh_keypair_get_keys (dh_client_key e))) (fun client_pubkey =>
      then_ (Some (ssh_dh_keypair_get_keys (dh_server_key e))) (fun server_pubkey =>
      pack_step buf (cstr "BB") [VBignum client_pubkey; VBignum server_pubkey]))
  | Some (SSH_KEX_DH_GEX_SHA1 | SSH_KEX_DH_GEX_SHA256) =>
      then_ (Some (ssh_dh_keypair_get_keys (dh_client_key e))) (fun client_pubkey =>
      then_ (Some (ssh_dh_keypair_get_keys (dh_server_key e))) (fun server_pubkey =>
      then_ (Some (ssh_dh_get_parameters e)) (fun '(modulus, generator) =>
      pack_step buf (cstr "dddBBBB")
        [VInt (dh_pmin e); VInt (dh_pn e); VInt (dh_pmax e); VBignum modulus; VBignum generator;
         VBignum client_pubkey; VBignum server_pubkey])))
  | Some (SSH_KEX_ECDH_SHA2_NISTP256 | SSH_KEX_ECDH_SHA2_NISTP384 | SSH_KEX_ECDH_SHA2_NISTP521) =>
      match ecdh_client_pubkey e, ecdh_server_pubkey e with
      | Some c, Some v => pack_step buf (cstr "SS") [VString (Some c); VString (Some v)]
      | _, _ => Some (GotoError SSH_OK)   (* [rc] is still that of the last call *)
      end
  | Some (SSH_KEX_CURVE25519_SHA256 | SSH_KEX_CURVE25519_SHA256_LIBSSH_ORG) =>
      pack_step buf (cstr "dPdP")
        [VInt CURVE25519_PUBKEY_SIZE; VLen CURVE25519_PUBKEY_SIZE; VPtr (Some (curve25519_client_pubkey e));
         VInt CURVE25519_PUBKEY_SIZE; VLen CURVE25519_PUBKEY_SIZE; VPtr (Some (curve25519_server_pubkey e))]
  | None => Some (Next_ buf)
  end.

(** From the banners to the shared secret.  On success [buf] and the two hash
    buffers. *)
Definition exchange_text s (buf : ssh_buffer) : run (step ssh_buffer) :=
  let h := upper s in
  c ← clientbanner h; v ← serverbanner h;
  then_ (pack_step buf (cstr "ss") [VCstr c; VCstr v]) (fun buf =>
  let '(server_hash, client_hash) :=
    if is_client s then (in_hashbuf h, out_hashbuf h) else (out_hashbuf h, in_hashbuf h) in
  then_ (add_trailer server_hash) (fun server_hash =>
  then_ (if is_client s then add_trailer client_hash
         else client_hash ← client_hash; Some (Next_ client_hash)) (fun client_hash =>
  _ ← next_crypto s;
  match server_pubkey_blob (exch h) with
  | None => Some (GotoError SSH_ERROR)
  | Some blob =>
      then_ (pack_step buf (cstr "dPdPS")
        [VInt (ssh_buffer_get_len client_hash); VLen (ssh_buffer_get_len client_hash);
         VPtr (Some (contents client_hash));
         VInt (ssh_buffer_get_len server_hash); VLen (ssh_buffer_get_len server_hash);
         VPtr (Some (contents server_hash)); VString (Some blob)]) (fun buf =>
      then_ (pack_public (kex_type h) (exch h) buf) (fun buf =>
      secret ← shared_secret (exch h);
      pack_step buf (cstr "B") [VBignum secret]))
  end))).

(** The second switch: the digest of the method. *)
Definition kex_digest (t : ssh_key_exchange_e) : ssh_kdf_digest :=
  match t with
  | SSH_KEX_DH_GROUP1_SHA1 | SSH_KEX_DH_GROUP14_SHA1 | SSH_KEX_DH_GEX_SHA1 => SSH_KDF_SHA1
  | SSH_KEX_DH_GROUP14_SHA256 | SSH_KEX_ECDH_SHA2_NISTP256 | SSH_KEX_CURVE25519_SHA256
  | SSH_KEX_CURVE25519_SHA256_LIBSSH_ORG | SSH_KEX_DH_GEX_SHA256 => SSH_KDF_SHA256
  | SSH_KEX_ECDH_SHA2_NISTP384 => SSH_KDF_SHA384
  | SSH_KEX_DH_GROUP16_SHA512 | SSH_KEX_DH_GROUP18_SHA512 | SSH_KEX_ECDH_SHA2_NISTP521 => SSH_KDF_SHA512
  end.

Definition set_digest_len (n : Z) (c : ssh_crypto K) : ssh_crypto K :=
  mk_crypto (used c) (in_cipher c) (out_cipher c) (in_hmac c) (out_hmac c) (in_hmac_etm c) (out_hmac_etm c)
    (decryptMAC c) (encryptMAC c) (hmacbuf c) n (session_id c).
Definition set_session_id (id : option bytes) (c : ssh_crypto K) : ssh_crypto K :=
  mk_crypto (used c) (in_cipher c) (out_cipher c) (in_hmac c) (out_hmac c) (in_hmac_etm c) (out_hmac_etm c)
    (decryptMAC c) (encryptMAC c) (hmacbuf c) (digest_len c) id.
Definition set_hash (md : ssh_kdf_digest) (h : option bytes) (ks : session_keys) : session_keys :=
  mk_keys (Some md) h (encryptIV ks) (decryptIV ks) (encryptkey ks) (decryptkey ks).

(** The digest of [buf] in a new [secret_hash]; false when there is no memory. *)
Definition make_secret_hash (buf : ssh_buffer) (kex_type : option ssh_key_exchange_e) (c : ssh_crypto K)
    (ks : session_keys) : run (bool * ssh_crypto K * session_keys) :=
  match kex_type with
  | None => Some (true, c, ks)
  | Some t =>
      let md := kex_digest t in
      let c := set_digest_len (md_len md) c in
      match malloc (md_len md) with
      | None => Some (false, c, set_hash md None ks)
      | Some p => h ← sha md (contents buf) p; Some (true, c, set_hash md (Some h) ks)
      end
  end.

(** The first hash of a session becomes its identifier. *)
Definition make_id (c : ssh_crypto K) (ks : session_keys) : run (ssh_crypto K) :=
  match session_id c with
  | Some _ => Some c
  | None =>
      match malloc (digest_len c) with
      | None => Some c
      | Some p => h ← secret_hash ks; p ← memcpy p 0 h 0 (digest_len c); Some (set_session_id (Some p) c)
      end
  end.

(** The failures of [malloc] after the text is packed leave [rc] at [SSH_OK]. *)
Definition ssh_make_sessionid s : run (Z * session) :=
  new ← ssh_buffer_new;
  match new with
  | None => Some (SSH_ERROR, s)
  | Some buf =>
      let drop := upd (set_hashbufs None None) in
      t ← exchange_text s buf;
      match t with
      | GotoError rc => Some (rc, drop s)
      | Next_ buf =>
          c ← next_crypto s;
          '(ok, c, ks) ← make_secret_hash buf (kex_type (upper s)) c (keys (upper s));
          let s := upd (set_keys ks) s in
          if negb (ok : bool) then Some (SSH_OK, drop (set_cryptos (current_crypto s) (Some c) s)) else
          c ← make_id c ks;
          Some (SSH_OK, drop (set_cryptos (current_crypto s) (Some c) s))
      end
  end.
End SessionId.

(** ** The text of RFC 4253, section 8 *)

Section Transcript.
Context `{BignumLib}.

(** The public values of a method, as fields of a message. *)
Definition public_fields (t : ssh_key_exchange_e) (e : exchange) : option (list field) :=
  match t with
  | SSH_KEX_DH_GROUP1_SHA1 | SSH_KEX_DH_GROUP14_SHA1 | SSH_KEX_DH_GROUP14_SHA256
  | SSH_KEX_DH_GROUP16_SHA512 | SSH_KEX_DH_GROUP18_SHA512 =>
      c ← dh_client_key e; v ← dh_server_key e; Some [FBignum c; FBignum v]
  | SSH_KEX_DH_GEX_SHA1 | SSH_KEX_DH_GEX_SHA256 =>
      c ← dh_client_key e; v ← dh_server_key e; p ← dh_modulus e; g ← dh_generator e;
      Some [FDword (dh_pmin e); FDword (dh_pn e); FDword (dh_pmax e); FBignum p; FBignum g; FBignum c; FBignum v]
  | SSH_KEX_ECDH_SHA2_NISTP256 | SSH_KEX_ECDH_SHA2_NISTP384 | SSH_KEX_ECDH_SHA2_NISTP521 =>
      c ← ecdh_client_pubkey e; v ← ecdh_server_pubkey e; Some [FString c; FString v]
  | SSH_KEX_CURVE25519_SHA256 | SSH_KEX_CURVE25519_SHA256_LIBSSH_ORG =>
      Some [FDword CURVE25519_PUBKEY_SIZE; FData (curve25519_client_pubkey e);
            FDword CURVE25519_PUBKEY_SIZE; FData (curve25519_server_pubkey e)]
  end.

Definition transcript (v_c v_s i_c i_s k_s : bytes) (public : list field) (secret : bignum) : bytes :=
  lv v_c ++ lv v_s ++ lv i_c ++ lv i_s ++ lv k_s ++ fields_encode public ++ lv (mpint secret).

(** *** What the text determines *)

Lemma lv_app_inj a b x y :
  zlen a < 2 ^ 32 -> zlen b < 2 ^ 32 -> lv a ++ x = lv b ++ y -> a = b /\ x = y.
Proof.
  intros Ha Hb He. unfold lv in He. rewrite <- !app_assoc in He.
  pose proof (zlen_nonneg a). pose proof (zlen_nonneg b).
  apply app_inj_1 in He as [Hl He]; [|by apply Nat2Z.inj; change (zlen (be_bytes 4 (zlen a)) = zlen (be_bytes 4 (zlen b))); rewrite !zlen_be_bytes].
  apply (f_equal be_val) in Hl. rewrite !be_val_bytes, !Z.mod_small in Hl by (change (256 ^ Z.of_nat 4) with (2 ^ 32); lia).
  apply app_inj_1 in He; [done|]. unfold zlen in Hl. lia.
Qed.

Lemma mpint_inj n m : mpint n = mpint m -> bn_val n = bn_val m.
Proof. intros He. rewrite <- !mpint_val. by rewrite He. Qed.

(** Fields of one shape: the same letter, and the same length for raw data. *)
Definition same_shape (f g : field) : Prop :=
  field_char f = field_char g
  /\ match f, g with FData a, FData b => zlen a = zlen b | _, _ => True end.

Lemma encode_app_inj f g x y :
  same_shape f g -> zlen (encode f) < 2 ^ 32 -> zlen (encode g) < 2 ^ 32 ->
  encode f ++ x = encode g ++ y -> encode f = encode g /\ x = y.
Proof.
  intros [Hc Hd] Hf Hg He.
  assert (Hlv : forall a b, zlen (lv a) < 2 ^ 32 -> zlen (lv b) < 2 ^ 32 -> lv a ++ x = lv b ++ y ->
    lv a = lv b /\ x = y).
  { intros a b Ha Hb Hab. rewrite zlen_lv in *. apply lv_app_inj in Hab as [-> ->]; (done || lia). }
  assert (Hfix : forall a b : bytes, zlen a = zlen b -> a ++ x = b ++ y -> a = b /\ x = y).
  { intros a b Hl Hab. apply app_inj_1 in Hab; [done|]. unfold zlen in Hl. lia. }
  destruct f, g; try discriminate Hc; cbn [encode] in *; first [by apply Hlv|apply Hfix; [|done]];
    (done || by rewrite !zlen_be_bytes).
Qed.

Lemma fields_encode_inj fs gs x y :
  Forall2 same_shape fs gs -> zlen (fields_encode fs) < 2 ^ 32 -> zlen (fields_encode gs) < 2 ^ 32 ->
  fields_encode fs ++ x = fields_encode gs ++ y ->
  Forall2 (fun f g => encode f = encode g) fs gs /\ x = y.
Proof.
  intros Hs. induction Hs as [|f g fs gs Hfg Hs IH]; intros Hf Hg He.
  - split; [constructor|done].
  - rewrite fields_encode_cons, zlen_app in *.
    rewrite fields_encode_cons, <- !app_assoc in He.
    pose proof (zlen_nonneg (encode f)). pose proof (zlen_nonneg (encode g)).
    pose proof (zlen_nonneg (fields_encode fs)). pose proof (zlen_nonneg (fields_encode gs)).
    apply encode_app_inj in He as [Hfg' He]; [|done|lia|lia].
    apply IH in He as [Hall ->]; [|lia|lia]. split; [by constructor|done].
Qed.

Lemma public_fields_shape t e e' fs gs :
  public_fields t e = Some fs -> public_fields t e' = Some gs ->
  zlen (curve25519_client_pubkey e) = zlen (curve25519_client_pubkey e') ->
  zlen (curve25519_server_pubkey e) = zlen (curve25519_server_pubkey e') ->
  Forall2 same_shape fs gs.
Proof.
  intros Hf Hg Hc Hs. unfold public_fields in *.
  destruct t; repeat match goal with
    | H : mbind _ ?o = Some _ |- _ => destruct o; cbn [mbind option_bind] in H; [|discriminate H]
    end; simplify_eq; repeat constructor; done.
Qed.

Lemma transcript_inj v_c v_s i_c i_s k_s fs n v_c' v_s' i_c' i_s' k_s' gs m :
  Forall2 same_shape fs gs ->
  zlen (transcript v_c v_s i_c i_s k_s fs n) < 2 ^ 32 ->
  transcript v_c v_s i_c i_s k_s fs n = transcript v_c' v_s' i_c' i_s' k_s' gs m ->
  v_c = v_c' /\ v_s = v_s' /\ i_c = i_c' /\ i_s = i_s' /\ k_s = k_s'
  /\ Forall2 (fun f g => encode f = encode g) fs gs /\ bn_val n = bn_val m.
Proof.
  intros Hshape Hlen He. pose proof Hlen as Hlen'. rewrite He in Hlen'. unfold transcript in *.
  rewrite !zlen_app, !zlen_lv in Hlen, Hlen'.
  pose proof (zlen_nonneg v_c). pose proof (zlen_nonneg v_s). pose proof (zlen_nonneg i_c).
  pose proof (zlen_nonneg i_s). pose proof (zlen_nonneg k_s). pose proof (zlen_nonneg (fields_encode fs)).
  pose proof (zlen_nonneg (mpint n)). pose proof (zlen_nonneg v_c'). pose proof (zlen_nonneg v_s').
  pose proof (zlen_nonneg i_c'). pose proof (zlen_nonneg i_s'). pose proof (zlen_nonneg k_s').
  pose proof (zlen_nonneg (fields_encode gs)). pose proof (zlen_nonneg (mpint m)).
  apply lv_app_inj in He as [-> He]; [|lia|lia]. apply lv_app_inj in He as [-> He]; [|lia|lia].
  apply lv_app_inj in He as [-> He]; [|lia|lia]. apply lv_app_inj in He as [-> He]; [|lia|lia].
  apply lv_app_inj in He as [-> He]; [|lia|lia].
  apply fields_encode_inj in He as [Hall He]; [|done|lia|lia].
  split_and!; try done. apply mpint_inj.
  apply (f_equal (fun l => l ++ [])) in He. apply lv_app_inj in He as [? _]; [done|lia|lia].
Qed.
End Transcript.

(** ** What [ssh_make_sessionid] computes *)

Section SessionIdFacts.
Context `{Allocator} `{BignumLib} `{HashLib} `{RandomLib} {K : Type}.
Notation session := (session K prng handshake).
Implicit Type s r : session.

Lemma fields_room_le fs : fields_room fs <= zlen (fields_encode fs) + 64 * zlen fs.
Proof.
  induction fs as [|f fs IH]; [done|]. rewrite fields_room_cons, fields_encode_cons, zlen_app, zlen_cons.
  assert (field_room f <= zlen (encode f) + 64); [|lia].
  pose proof (zlen_nonneg (encode f)). destruct f; cbn [field_room]; lia.
Qed.

Lemma fields_args_le fs : zlen (fields_args fs) <= 2 * zlen fs.
Proof.
  induction fs as [|f fs IH]; [done|]. rewrite zlen_fields_args_cons, zlen_cons.
  pose proof (field_arity_pos f). lia.
Qed.

Lemma pack_step_ok b fs :
  malloc_succeeds -> buffer_wf b -> Forall field_ready fs -> fs <> [] -> zlen fs <= 8 ->
  b_used b + zlen (fields_encode fs) + 512 < BUFFER_SIZE_MAX ->
  exists b', pack_step b (fields_format fs) (fields_args fs) = Some (Next_ b')
    /\ buffer_wf b' /\ b_used b' <= b_used b + zlen (fields_encode fs)
    /\ contents b' = contents b ++ fields_encode fs.
Proof.
  intros Hm Hb Hf Hne Hn Hmax. pose proof (fields_room_le fs). pose proof (fields_args_le fs).
  pose proof Hb as [Hp Hu _ _]. pose proof (zlen_nonneg (fields_encode fs)).
  destruct (pack_fields_ok b fs) as (b' & He & Hrest); try done; try lia.
  exists b'. split; [|done]. unfold pack_step. rewrite He. done.
Qed.

Lemma add_trailer_ok b :
  malloc_succeeds -> buffer_wf b -> b_used b + 5 < BUFFER_SIZE_MAX ->
  exists b', add_trailer (Some b) = Some (Next_ b') /\ buffer_wf b' /\ contents b' = contents b ++ no_guess.
Proof.
  intros Hm Hb Hu. unfold add_trailer, ssh_buffer_add_u8, ssh_buffer_add_u32.
  destruct (add_int_ok 1 b 0) as (b1 & -> & Hb1 & Hu1 & Hc1); [done|done|lia|lia|].
  cbn [mbind option_bind]. change (0 <? 0) with false. cbv iota.
  destruct (add_int_ok 4 b1 0) as (b2 & -> & Hb2 & Hu2 & Hc2); [done|done|lia|lia|].
  cbn [mbind option_bind]. change (0 <? 0) with false. cbv iota.
  exists b2. split_and!; [done|done|]. by rewrite Hc2, Hc1, <- app_assoc.
Qed.

(** The values an exchange of type [t] has agreed on, and the transcript of one
    end: the client's proposal is complete on a server, the other has still to get
    its last two fields. *)
Record exchange_done s (c : ssh_crypto K) (t : ssh_key_exchange_e) (v_c v_s i_c i_s : bytes)
    (blob : ssh_string) (fs : list field) (n : bignum) : Prop := {
  ed_crypto : next_crypto s = Some c;
  ed_type : kex_type (upper s) = Some t;
  ed_clientbanner : clientbanner (upper s) = Some v_c;
  ed_serverbanner : serverbanner (upper s) = Some v_s;
  ed_hashbufs : exists bc bs,
    (if is_client s then (in_hashbuf (upper s), out_hashbuf (upper s))
     else (out_hashbuf (upper s), in_hashbuf (upper s))) = (Some bs, Some bc)
    /\ buffer_wf bc /\ buffer_wf bs /\ b_used bc + 5 < BUFFER_SIZE_MAX /\ b_used bs + 5 < BUFFER_SIZE_MAX
    /\ (if is_client s then contents bc ++ no_guess else contents bc) = i_c /\ contents bs ++ no_guess = i_s;
  ed_blob : server_pubkey_blob (exch (upper s)) = Some blob;
  ed_blob_wf : string_wf blob;
  ed_public : public_fields t (exch (upper s)) = Some fs;
  ed_ready : Forall field_ready fs;
  ed_curve : zlen (curve25519_client_pubkey (exch (upper s))) = 32
             /\ zlen (curve25519_server_pubkey (exch (upper s))) = 32;
  ed_secret : shared_secret (exch (upper s)) = Some n;
  ed_nonzero : bn_val n <> 0;
  ed_digest : EVP_MD_CTX_create (kex_digest t) = true;
  ed_size : zlen (transcript v_c v_s i_c i_s (string_text blob) fs n) + 1024 < BUFFER_SIZE_MAX
}.

Lemma pack_public_ok t e fs b :
  malloc_succeeds -> buffer_wf b -> public_fields t e = Some fs -> Forall field_ready fs ->
  zlen (curve25519_client_pubkey e) = 32 -> zlen (curve25519_server_pubkey e) = 32 ->
  b_used b + zlen (fields_encode fs) + 512 < BUFFER_SIZE_MAX ->
  exists b', pack_public (Some t) e b = Some (Next_ b') /\ buffer_wf b'
    /\ b_used b' <= b_used b + zlen (fields_encode fs) /\ contents b' = contents b ++ fields_encode fs.
Proof.
  intros Hm Hb Hfs Hr Hcl Hsl Hmax.
  assert (Hfin : fs <> [] /\ zlen fs <= 8).
  { unfold public_fields in Hfs.
    destruct t; repeat match goal with
      | H : mbind _ ?o = Some _ |- _ => destruct o; cbn [mbind option_bind] in H; [|discriminate H]
      end; simplify_eq; done. }
  destruct Hfin as [Hne Hlen]. destruct (pack_step_ok b fs) as (b' & He & Hrest); try done.
  exists b'. split; [|done]. rewrite <- He. clear He Hrest.
  assert (Hkey : forall n, In (FBignum n) fs -> ssh_dh_keypair_get_keys (Some n) = Next_ n).
  { intros n Hin. rewrite List.Forall_forall in Hr. destruct (Hr _ Hin) as [_ Hnz]. unfold ssh_dh_keypair_get_keys.
    rewrite bn_num_bits_spec, (proj2 (Z.eqb_neq (bn_val n) 0)) by done.
    rewrite (proj2 (Z.eqb_neq _ _)); [done|]. pose proof (Z.log2_nonneg (bn_val n)). lia. }
  unfold public_fields in Hfs. unfold pack_public, ssh_dh_get_parameters.
  destruct t; repeat match goal with
    | H : mbind _ ?o = Some _ |- _ => destruct o eqn:?; cbn [mbind option_bind] in H; [|discriminate H]
    end; simplify_eq; try reflexivity;
    unfold then_; cbn [mbind option_bind];
    repeat (rewrite Hkey by (cbn; tauto); cbn [mbind option_bind]); try reflexivity.
  all: unfold fields_args; cbn [map concat field_args app]; rewrite Hcl, Hsl; reflexivity.
Qed.

Lemma exchange_text_ok s c t v_c v_s i_c i_s blob fs n buf :
  malloc_succeeds -> exchange_done s c t v_c v_s i_c i_s blob fs n ->
  buffer_wf buf -> contents buf = [] -> b_used buf = 0 ->
  exists b', exchange_text s buf = Some (Next_ b')
    /\ contents b' = transcript v_c v_s i_c i_s (string_text blob) fs n.
Proof.
  intros Hm [Hc Ht Hcb Hsb (bc & bs & Hhb & Hbc & Hbs & Huc & Hus & Hic & His) Hbl Hblw Hpub Hrdy
    [Hcl Hsl] Hsec Hnz Hcr Hsz] Hb Hcont Hu. unfold exchange_text.
  rewrite Hcb, Hsb. cbn [mbind option_bind]. unfold transcript in Hsz. rewrite !zlen_app, !zlen_lv in Hsz.
  unfold BUFFER_SIZE_MAX in *.
  pose proof (zlen_nonneg v_c). pose proof (zlen_nonneg v_s). pose proof (zlen_nonneg i_c).
  pose proof (zlen_nonneg i_s). pose proof (zlen_nonneg (string_text blob)).
  pose proof (zlen_nonneg (fields_encode fs)). pose proof (zlen_nonneg (mpint n)).
  destruct (pack_step_ok buf [FCstring v_c; FCstring v_s]) as (b1 & He1 & Hb1 & Hu1 & Hc1); try done.
  { repeat constructor; cbn; lia. }
  { cbn. rewrite app_nil_r, zlen_app, !zlen_lv. unfold BUFFER_SIZE_MAX. lia. }
  change (cstr "ss") with (fields_format [FCstring v_c; FCstring v_s]).
  change [VCstr v_c; VCstr v_s] with (fields_args [FCstring v_c; FCstring v_s]). rewrite He1.
  rewrite Hhb. unfold then_ at 1. cbn [mbind option_bind].
  destruct (add_trailer_ok bs) as (bs' & -> & Hbs' & Hcs'); [done|done|unfold BUFFER_SIZE_MAX; lia|].
  unfold then_ at 1. cbn [mbind option_bind].
  assert (Hcli : exists bc', (if is_client s then add_trailer (Some bc) else Some (Next_ bc))
      = Some (Next_ bc') /\ buffer_wf bc' /\ contents bc' = i_c).
  { destruct (is_client s).
    - destruct (add_trailer_ok bc) as (bc' & -> & Hbc' & Hcc'); [done|done|unfold BUFFER_SIZE_MAX; lia|].
      exists bc'. by rewrite Hcc'.
    - by exists bc. }
  destruct Hcli as (bc' & -> & Hbc' & Hcc'). unfold then_ at 1. cbn [mbind option_bind]. rewrite Hc, Hbl.
  cbn [mbind option_bind]. rewrite !ssh_buffer_get_len_contents, Hcs', Hcc', His by done.
  destruct (pack_step_ok b1 [FDword (zlen i_c); FData i_c; FDword (zlen i_s); FData i_s; FString blob])
    as (b2 & He2 & Hb2 & Hu2 & Hc2); try done.
  { repeat constructor; cbn; (done || lia). }
  { cbn. rewrite app_nil_r, !zlen_app, zlen_lv, !zlen_be_bytes. cbn in Hu1.
    rewrite app_nil_r, zlen_app, !zlen_lv in Hu1. unfold BUFFER_SIZE_MAX. lia. }
  change (cstr "dPdPS") with
    (fields_format [FDword (zlen i_c); FData i_c; FDword (zlen i_s); FData i_s; FString blob]).
  change [VInt (zlen i_c); VLen (zlen i_c); VPtr (Some i_c); VInt (zlen i_s); VLen (zlen i_s);
    VPtr (Some i_s); VString (Some blob)]
    with (fields_args [FDword (zlen i_c); FData i_c; FDword (zlen i_s); FData i_s; FString blob]).
  rewrite He2. unfold then_ at 1. cbn [mbind option_bind]. rewrite Ht.
  cbn [fields_encode map concat encode] in Hc1, Hu1, Hc2, Hu2. rewrite app_nil_r in Hc1, Hu1, Hc2, Hu2.
  rewrite zlen_app, !zlen_lv in Hu1. rewrite !zlen_app, zlen_lv, !zlen_be_bytes in Hu2.
  destruct (pack_public_ok t (exch (upper s)) fs b2) as (b3 & -> & Hb3 & Hu3 & Hc3);
    [done|done|done|done|done|done|unfold BUFFER_SIZE_MAX; lia|].
  unfold then_. cbn [mbind option_bind]. rewrite Hsec. cbn [mbind option_bind].
  destruct (pack_step_ok b3 [FBignum n]) as (b4 & He4 & Hb4 & Hu4 & Hc4); try done.
  { repeat constructor. done. }
  { cbn. rewrite app_nil_r, zlen_lv. unfold BUFFER_SIZE_MAX. lia. }
  change (cstr "B") with (fields_format [FBignum n]). change [VBignum n] with (fields_args [FBignum n]).
  rewrite He4. exists b4. split; [done|]. cbn [fields_encode map concat encode] in Hc4. rewrite app_nil_r in Hc4.
  rewrite Hc4, Hc3, Hc2, Hc1, Hcont. unfold transcript, lv. cbn [app]. by rewrite <- !app_assoc.
Qed.

(** The session after the hash: the identifier is the first hash. *)
Definition hashed s (c : ssh_crypto K) (md : ssh_kdf_digest) (h : bytes) : session :=
  let s := upd (set_keys (set_hash md (Some h) (keys (upper s)))) s in
  let c := set_digest_len (md_len md) c in
  let c := match session_id c with Some _ => c | None => set_session_id (Some h) c end in
  upd (set_hashbufs None None) (set_cryptos (current_crypto s) (Some c) s).

Lemma make_sessionid_spec s c t v_c v_s i_c i_s blob fs n :
  malloc_never_fails -> exchange_done s c t v_c v_s i_c i_s blob fs n ->
  ssh_make_sessionid s = Some (SSH_OK,
    hashed s c (kex_digest t)
      (EVP_Digest (kex_digest t) (transcript v_c v_s i_c i_s (string_text blob) fs n))).
Proof.
  intros Hm Hd. assert (Hms : malloc_succeeds) by (intros k Hk; apply Hm; lia).
  unfold ssh_make_sessionid. destruct ssh_buffer_new_ok as (b & -> & Hb & Hc & Hu); [done|].
  cbn [mbind option_bind].
  destruct (exchange_text_ok s c t v_c v_s i_c i_s blob fs n b) as (b' & -> & Hb'); try done.
  cbn [mbind option_bind]. rewrite (ed_crypto _ _ _ _ _ _ _ _ _ _ Hd), (ed_type _ _ _ _ _ _ _ _ _ _ Hd).
  cbn [mbind option_bind]. unfold make_secret_hash. pose proof (md_len_range (kex_digest t)).
  destruct (malloc (md_len (kex_digest t))) as [p|] eqn:Hp; [|apply Hm in Hp; [done|lia]].
  apply malloc_zlen in Hp as Hpl; [|lia]. unfold sha, sha_init.
  rewrite (ed_digest _ _ _ _ _ _ _ _ _ _ Hd). unfold sha_update, sha_final. cbn [mbind option_bind sha_md sha_data app].
  rewrite Hb'. set (h := EVP_Digest _ _).
  assert (Hh : zlen h = md_len (kex_digest t)) by apply EVP_Digest_size.
  rewrite Hh. rewrite (memcpy_over p h (md_len (kex_digest t))) by lia. cbn [mbind option_bind negb].
  unfold make_id, hashed. cbn [session_id set_digest_len digest_len].
  destruct (session_id c) as [id|]; [reflexivity|]. rewrite Hp. cbn [secret_hash set_hash mbind option_bind].
  rewrite (memcpy_over p h (md_len (kex_digest t))) by lia. reflexivity.
Qed.
End SessionIdFacts.

(** ** Properties *)

Section SessionIdProperties.
Context `{Allocator} `{BignumLib} `{HashLib} `{RandomLib} {K : Type}.
Notation session := (session K prng handshake).
Implicit Type s r : session.

(** What is read of the session after the hash. *)
Lemma hashed_fields s c md h :
  exists c', next_crypto (hashed s c md h) = Some c' /\ secret_hash (keys (upper (hashed s c md h))) = Some h
    /\ digest_len c' = md_len md /\ session_id c' = Some (default h (session_id c))
    /\ out_cipher c' = out_cipher c /\ in_cipher c' = in_cipher c /\ used c' = used c
    /\ exch (upper (hashed s c md h)) = exch (upper s).
Proof.
  eexists. split; [reflexivity|]. cbn [session_id set_digest_len].
  destruct (session_id c) as [id|] eqn:E; cbn; rewrite ?E; done.
Qed.

Lemma encodes_agree fs gs : Forall2 (fun f g : field => encode f = encode g) fs gs -> fields_encode fs = fields_encode gs.
Proof. unfold fields_encode. induction 1 as [|f g fs gs Hf _ IH]; [done|]. cbn. by rewrite Hf, IH. Qed.

(** Both ends of an exchange hash the same text, that of RFC 4253, section 8, and
    the first hash of a session becomes and stays its identifier: two
    ends with the same banners and proposals, the same host key, public values
    and secret end with the same exchange hash and, if they had the same
    identifier or none, the same identifier. *)
Theorem exchange_hash_agrees s r c cr t v_c v_s i_c i_s blob blob' fs fs' n m :
  malloc_never_fails ->
  exchange_done s c t v_c v_s i_c i_s blob fs n -> exchange_done r cr t v_c v_s i_c i_s blob' fs' m ->
  string_text blob = string_text blob' -> fields_encode fs = fields_encode fs' -> bn_val n = bn_val m ->
  exists s' r' c' cr' h,
    ssh_make_sessionid s = Some (SSH_OK, s') /\ next_crypto s' = Some c'
    /\ ssh_make_sessionid r = Some (SSH_OK, r') /\ next_crypto r' = Some cr'
    /\ h = EVP_Digest (kex_digest t) (transcript v_c v_s i_c i_s (string_text blob) fs n)
    /\ secret_hash (keys (upper s')) = Some h /\ secret_hash (keys (upper r')) = Some h
    /\ digest_len c' = zlen h /\ digest_len cr' = zlen h
    /\ session_id c' = Some (default h (session_id c)) /\ session_id cr' = Some (default h (session_id cr)).
Proof.
  intros Hm Hs Hr Hblob Hfs Hn.
  rewrite (make_sessionid_spec s c t v_c v_s i_c i_s blob fs n Hm Hs).
  rewrite (make_sessionid_spec r cr t v_c v_s i_c i_s blob' fs' m Hm Hr).
  assert (Ht : transcript v_c v_s i_c i_s (string_text blob') fs' m
    = transcript v_c v_s i_c i_s (string_text blob) fs n).
  { unfold transcript. by rewrite Hblob, Hfs, (mpint_val_eq n m). }
  rewrite Ht. set (h := EVP_Digest _ _).
  assert (Hh : zlen h = md_len (kex_digest t)) by apply EVP_Digest_size.
  destruct (hashed_fields s c (kex_digest t) h) as (c' & Hc' & Hk & Hl & Hid & _).
  destruct (hashed_fields r cr (kex_digest t) h) as (cr' & Hcr' & Hkr & Hlr & Hidr & _).
  do 4 eexists. exists h. rewrite Hh. split_and!; try done.
Qed.

(** (C24) The exchange hash binds the exchange.  Take two ends, of either role, that have completed a
    key exchange of the same method, each with its own view of what was said, and no
    collision of the digest between the two texts that they hash: both calls of
    [ssh_make_sessionid] succeed, and the two hashes are equal exactly when the ends
    agree on the banners, on both proposals (so that no list of algorithms was
    changed on the way), on the host key, on the encoding of every public value
    and on the secret. *)
Theorem exchange_hash_binds s r c cr t v_c v_s i_c i_s v_c' v_s' i_c' i_s' blob blob' fs fs' n m :
  malloc_never_fails ->
  exchange_done s c t v_c v_s i_c i_s blob fs n -> exchange_done r cr t v_c' v_s' i_c' i_s' blob' fs' m ->
  let x := transcript v_c v_s i_c i_s (string_text blob) fs n in
  let y := transcript v_c' v_s' i_c' i_s' (string_text blob') fs' m in
  (EVP_Digest (kex_digest t) x = EVP_Digest (kex_digest t) y -> x = y) ->
  exists s' r', ssh_make_sessionid s = Some (SSH_OK, s') /\ ssh_make_sessionid r = Some (SSH_OK, r')
    /\ (secret_hash (keys (upper s')) = secret_hash (keys (upper r'))
        <-> v_c = v_c' /\ v_s = v_s' /\ i_c = i_c' /\ i_s = i_s' /\ string_text blob = string_text blob'
            /\ Forall2 (fun f g => encode f = encode g) fs fs' /\ bn_val n = bn_val m).
Proof.
  intros Hm Hs Hr x y Hcoll.
  rewrite (make_sessionid_spec s c t v_c v_s i_c i_s blob fs n Hm Hs).
  rewrite (make_sessionid_spec r cr t v_c' v_s' i_c' i_s' blob' fs' m Hm Hr).
  do 2 eexists. split_and!; [done|done|]. split.
  - intros Heq. cbn in Heq. injection Heq as Heq. apply transcript_inj.
    + destruct Hs, Hr. eapply public_fields_shape; [done|done| |]; destruct ed_curve0, ed_curve1; congruence.
    + pose proof (ed_size _ _ _ _ _ _ _ _ _ _ Hs). unfold BUFFER_SIZE_MAX in *. lia.
    + by apply Hcoll.
  - intros (<- & <- & <- & <- & Hb & Hf & Hn). cbn. do 2 f_equal. unfold transcript.
    by rewrite Hb, (encodes_agree fs fs' Hf), (mpint_val_eq n m Hn).
Qed.

(** The session identifier keeps the length of the first digest, but every later
    derivation reads as many bytes of it as the current digest has: a rekeying
    with a longer digest than the first one reads past the block. *)
Theorem rekey_reads_past_session_id s c t v_c v_s i_c i_s blob fs n id oc ic :
  malloc_never_fails -> exchange_done s c t v_c v_s i_c i_s blob fs n ->
  out_cipher c = Some oc -> in_cipher c = Some ic ->
  0 <= keysize (c_ops oc) -> 0 <= keysize (c_ops ic) ->
  session_id c = Some id -> zlen id < md_len (kex_digest t) ->
  exists s', ssh_make_sessionid s = Some (SSH_OK, s') /\ ssh_generate_session_keys s' = None.
Proof.
  intros Hm Hs Ho Hi Hos His Hid Hlen.
  rewrite (make_sessionid_spec s c t v_c v_s i_c i_s blob fs n Hm Hs). set (h := EVP_Digest _ _).
  pose proof (md_len_range (kex_digest t)) as Hmd. pose proof (ed_size _ _ _ _ _ _ _ _ _ _ Hs) as Hsz.
  destruct (hashed_fields s c (kex_digest t) h) as (c' & Hc' & Hk & Hl & Hid' & Ho' & Hi' & _ & He).
  rewrite Hid in Hid'. change (default h (Some id)) with id in Hid'. rewrite Ho in Ho'. rewrite Hi in Hi'.
  eexists. split; [reflexivity|]. set (s' := hashed s c (kex_digest t) h) in *.
  destruct (generate_derives s' c' n oc ic) as (blocks & Hb & Hall & ->); try done.
  - rewrite He. apply Hs.
  - apply Hs.
  - revert Hsz. unfold transcript. rewrite !zlen_app, !zlen_lv.
    pose proof (zlen_nonneg v_c). pose proof (zlen_nonneg v_s). pose proof (zlen_nonneg i_c).
    pose proof (zlen_nonneg i_s). pose proof (zlen_nonneg (string_text blob)).
    pose proof (zlen_nonneg (fields_encode fs)). lia.
  - lia.
  - destruct blocks as [|a blocks]; [done|]. cbn [kdf_calls key_lens zip zip_with derive_all].
    rewrite (derive_key_overreads _ (kex_digest t) h id); try done. apply Hs.
Qed.
End SessionIdProperties.

(** ** A concrete exchange *)

Module SidDemo.
Definition blob : ssh_string := mk_string (htonl 3) (cstr "key" ++ [Byte.x00]).
Definition exch : @exchange N_bignum :=
  @mk_exchange N_bignum (Some 0x80ff%N) (Some 5%N) (Some 7%N) (Some 23%N) (Some 2%N) 1024 2048 8192 None None
    (zrep 32 Byte.x01) (zrep 32 Byte.x02) (Some blob) None.
Definition i_c : bytes := cstr "proposal of the client".
Definition i_s : bytes := cstr "proposal of the server".
(** The proposal of the client as somebody on the way has changed it. *)
Definition i_x : bytes := cstr "proposal of somebody else".

Definition crypto (id : option bytes) : ssh_crypto Z :=
  mk_crypto 0 (Some KdfDemo.cipher) (Some KdfDemo.cipher) SSH_HMAC_SHA256 SSH_HMAC_SHA256 true true [] []
    (zrep 64 Byte.x00) 0 id.

(** One end after an exchange of type [t] in a session with the identifier [id], with [p] as
    the proposal of the client. *)
Definition ended_with (p : bytes) (srv : bool) (t : ssh_key_exchange_e) (id : option bytes)
    : session Z (@prng Demo.random) (@handshake N_bignum) :=
  set_cryptos None (Some (crypto id))
    (KexDemo.peer srv None
       (set_hashbufs (Some (Demo.buffer_of (if srv then p ++ no_guess else i_s)))
          (Some (Demo.buffer_of (if srv then i_s else p)))
          (set_selection no_methods (Some t)
             (set_exch exch (KexDemo.hs KexDemo.client_lists KexDemo.server_lists))))).

Definition ended := ended_with i_c.

Definition v_c : bytes := cstr "SSH-2.0-client".
Definition v_s : bytes := cstr "SSH-2.0-server".
Definition public (t : ssh_key_exchange_e) : list (@field N_bignum) := default [] (@public_fields N_bignum t exch).

Lemma ended_with_done p srv t id :
  p = i_c \/ p = i_x -> t = SSH_KEX_CURVE25519_SHA256 \/ t = SSH_KEX_DH_GROUP16_SHA512 ->
  @exchange_done N_bignum (KdfDemo.hash true) Demo.random Z (ended_with p srv t id) (crypto id) t v_c v_s
    (p ++ no_guess) (i_s ++ no_guess) blob (public t) 0x80ff%N.
Proof.
  intros Hp Ht. assert (Hw : string_wf blob) by (exists 3; split_and!; [lia|vm_compute; discriminate|done|done]).
  constructor; try done.
  - destruct srv.
    + exists (Demo.buffer_of (p ++ no_guess)), (Demo.buffer_of i_s).
      split_and!; try done; try (by apply Demo.buffer_of_wf); destruct Hp; subst p; by vm_compute.
    + exists (Demo.buffer_of p), (Demo.buffer_of i_s).
      split_and!; try done; try (by apply Demo.buffer_of_wf); destruct Hp; subst p; by vm_compute.
  - by destruct Ht; subst t.
  - destruct Ht; subst t; repeat constructor; vm_compute; done.
  - destruct Hp; subst p; destruct Ht; subst t; by vm_compute.
Qed.

Lemma ended_done srv t id :
  t = SSH_KEX_CURVE25519_SHA256 \/ t = SSH_KEX_DH_GROUP16_SHA512 ->
  @exchange_done N_bignum (KdfDemo.hash true) Demo.random Z (ended srv t id) (crypto id) t v_c v_s
    (i_c ++ no_guess) (i_s ++ no_guess) blob (public t) 0x80ff%N.
Proof. apply ended_with_done. by left. Qed.
End SidDemo.

Lemma exchange_hash_agrees_witness :
  let t := SSH_KEX_CURVE25519_SHA256 in
  exists s' r' c' cr' h,
    @ssh_make_sessionid calloc_allocator N_bignum (KdfDemo.hash true) Demo.random Z (SidDemo.ended false t None)
      = Some (SSH_OK, s') /\ next_crypto s' = Some c'
    /\ @ssh_make_sessionid calloc_allocator N_bignum (KdfDemo.hash true) Demo.random Z (SidDemo.ended true t None)
      = Some (SSH_OK, r') /\ next_crypto r' = Some cr'
    /\ h = @EVP_Digest (KdfDemo.hash true) (kex_digest t)
             (@transcript N_bignum SidDemo.v_c SidDemo.v_s (SidDemo.i_c ++ no_guess) (SidDemo.i_s ++ no_guess)
                (string_text SidDemo.blob) (SidDemo.public t) 0x80ff%N)
    /\ secret_hash (keys (upper s')) = Some h /\ secret_hash (keys (upper r')) = Some h
    /\ digest_len c' = zlen h /\ digest_len cr' = zlen h
    /\ session_id c' = Some h /\ session_id cr' = Some h.
Proof.
  apply (@exchange_hash_agrees calloc_allocator N_bignum (KdfDemo.hash true) Demo.random Z
    (SidDemo.ended false SSH_KEX_CURVE25519_SHA256 None) (SidDemo.ended true SSH_KEX_CURVE25519_SHA256 None)
    (SidDemo.crypto None) (SidDemo.crypto None) SSH_KEX_CURVE25519_SHA256 SidDemo.v_c SidDemo.v_s
    (SidDemo.i_c ++ no_guess) (SidDemo.i_s ++ no_guess) SidDemo.blob SidDemo.blob
    (SidDemo.public SSH_KEX_CURVE25519_SHA256) (SidDemo.public SSH_KEX_CURVE25519_SHA256) 0x80ff%N 0x80ff%N);
    [apply KdfDemo.calloc_never_fails|apply SidDemo.ended_done; by left..|reflexivity|reflexivity|reflexivity].
Defined.

(** Witness: a client, and a server that received another proposal than the client sent; the
    two hashes differ, as the proposals do. *)
Lemma exchange_hash_binds_witness :
  let t := SSH_KEX_CURVE25519_SHA256 in
  exists s' r',
    @ssh_make_sessionid calloc_allocator N_bignum (KdfDemo.hash true) Demo.random Z (SidDemo.ended false t None)
      = Some (SSH_OK, s')
    /\ @ssh_make_sessionid calloc_allocator N_bignum (KdfDemo.hash true) Demo.random Z (SidDemo.ended_with SidDemo.i_x true t None)
      = Some (SSH_OK, r')
    /\ SidDemo.i_c ++ no_guess <> SidDemo.i_x ++ no_guess
    /\ secret_hash (keys (upper s')) <> secret_hash (keys (upper r')).
Proof.
  edestruct (@exchange_hash_binds calloc_allocator N_bignum (KdfDemo.hash true) Demo.random Z
    (SidDemo.ended false SSH_KEX_CURVE25519_SHA256 None) (SidDemo.ended_with SidDemo.i_x true SSH_KEX_CURVE25519_SHA256 None)
    (SidDemo.crypto None) (SidDemo.crypto None) SSH_KEX_CURVE25519_SHA256 SidDemo.v_c SidDemo.v_s
    (SidDemo.i_c ++ no_guess) (SidDemo.i_s ++ no_guess) SidDemo.v_c SidDemo.v_s
    (SidDemo.i_x ++ no_guess) (SidDemo.i_s ++ no_guess) SidDemo.blob SidDemo.blob
    (SidDemo.public SSH_KEX_CURVE25519_SHA256) (SidDemo.public SSH_KEX_CURVE25519_SHA256) 0x80ff%N 0x80ff%N)
    as (s' & r' & Hs & Hr & Heq);
    [apply KdfDemo.calloc_never_fails|apply SidDemo.ended_done; by left|apply SidDemo.ended_with_done; [by right|by left]
    |intros E; exfalso; vm_compute in E; discriminate E|].
  exists s', r'. split_and!; [exact Hs|exact Hr|vm_compute; discriminate|].
  intros E. apply Heq in E as (_ & _ & E & _). vm_compute in E. discriminate E.
Defined.

Lemma rekey_reads_past_session_id_witness :
  let s := SidDemo.ended false SSH_KEX_DH_GROUP16_SHA512 (Some (zrep 20 Byte.x2a)) in
  exists s', @ssh_make_sessionid calloc_allocator N_bignum (KdfDemo.hash true) Demo.random Z s = Some (SSH_OK, s')
    /\ @ssh_generate_session_keys calloc_allocator N_bignum (KdfDemo.hash true) Demo.random Z s' = None.
Proof.
  apply (@rekey_reads_past_session_id calloc_allocator N_bignum (KdfDemo.hash true) Demo.random Z
    (SidDemo.ended false SSH_KEX_DH_GROUP16_SHA512 (Some (zrep 20 Byte.x2a)))
    (SidDemo.crypto (Some (zrep 20 Byte.x2a))) SSH_KEX_DH_GROUP16_SHA512 SidDemo.v_c SidDemo.v_s
    (SidDemo.i_c ++ no_guess) (SidDemo.i_s ++ no_guess) SidDemo.blob (SidDemo.public SSH_KEX_DH_GROUP16_SHA512)
    0x80ff%N (zrep 20 Byte.x2a) KdfDemo.cipher KdfDemo.cipher);
    [apply KdfDemo.calloc_never_fails|apply SidDemo.ended_done; by right|reflexivity|reflexivity
    |cbn; lia|cbn; lia|reflexivity|reflexivity].
Defined.

(** With a public key of ECDH missing the function answers [SSH_OK], without a hash
    and without an identifier: [rc] still holds the result of the last call. *)
Example ecdh_missing_succeeds :
  option_map (fun r => (fst r, secret_hash (keys (upper (snd r))), c ← next_crypto (snd r); session_id c))
    (@ssh_make_sessionid calloc_allocator N_bignum (KdfDemo.hash true) Demo.random Z
       (SidDemo.ended false SSH_KEX_ECDH_SHA2_NISTP256 None))
  = Some (SSH_OK, None, None).
Proof. vm_compute. reflexivity. Qed.
