(* ===== verification/Poly1305.v ===== *)
(** * Poly1305 ([libssh/src/external/poly1305.c])

    The one time authenticator of chacha20-poly1305, with its five limbs of 26
    bits in 32 bit words and its lazy carries, and the proof that it computes the
    polynomial of RFC 8439, section 2.5. *)

From S2P Require Import Prelude.

Definition POLY1305_KEYLEN : Z := 32.
Definition POLY1305_TAGLEN : Z := 16.

(** ** The code *)

(** [U8TO32_LE (p)] *)
Definition U8TO32_LE (p : bytes) : run Z :=
  match p with
  | p0 :: p1 :: p2 :: p3 :: _ =>
      Some (Z.lor (Z.lor (Z.lor (b2z p0) (Z.shiftl (b2z p1) 8)) (Z.shiftl (b2z p2) 16))
              (Z.shiftl (b2z p3) 24))
  | _ => None
  end.

(** [U32TO8_LE]: the bytes that are written. *)
Definition U32TO8_LE (v : Z) : bytes :=
  [z2b v; z2b (Z.shiftr v 8); z2b (Z.shiftr v 16); z2b (Z.shiftr v 24)].

(** Five 32 bit words. *)
Record limbs := mk_limbs { l0 : Z; l1 : Z; l2 : Z; l3 : Z; l4 : Z }.

(** The clamped key. *)
Definition clamp_key (key : bytes) : run limbs :=
  t0 ← U8TO32_LE key;
  t1 ← U8TO32_LE (zdrop 4 key);
  t2 ← U8TO32_LE (zdrop 8 key);
  t3 ← U8TO32_LE (zdrop 12 key);
  let r0 := Z.land t0 0x3ffffff in
  let t0 := Z.lor (Z.shiftr t0 26) (u32 (Z.shiftl t1 6)) in
  let r1 := Z.land t0 0x3ffff03 in
  let t1 := Z.lor (Z.shiftr t1 20) (u32 (Z.shiftl t2 12)) in
  let r2 := Z.land t1 0x3ffc0ff in
  let t2 := Z.lor (Z.shiftr t2 14) (u32 (Z.shiftl t3 18)) in
  let r3 := Z.land t2 0x3f03fff in
  let t3 := Z.shiftr t3 8 in
  let r4 := Z.land t3 0x00fffff in
  Some (mk_limbs r0 r1 r2 r3 r4).

(** The block at [m] added to [h]; [hibit] is [1 << 24] for a full block. *)
Definition add_block (hibit : Z) (h : limbs) (m : bytes) : run limbs :=
  t0 ← U8TO32_LE m;
  t1 ← U8TO32_LE (zdrop 4 m);
  t2 ← U8TO32_LE (zdrop 8 m);
  t3 ← U8TO32_LE (zdrop 12 m);
  let pair hi lo := Z.lor (u64 (Z.shiftl hi 32)) lo in
  Some (mk_limbs
    (u32 (l0 h + Z.land t0 0x3ffffff))
    (u32 (l1 h + Z.land (Z.shiftr (pair t1 t0) 26) 0x3ffffff))
    (u32 (l2 h + Z.land (Z.shiftr (pair t2 t1) 20) 0x3ffffff))
    (u32 (l3 h + Z.land (Z.shiftr (pair t3 t2) 14) 0x3ffffff))
    (u32 (l4 h + Z.lor (Z.shiftr t3 8) hibit))).

(** The carries at the end of [poly1305_donna_mul]. *)
Definition donna_carry (t0 t1 t2 t3 t4 : Z) : limbs :=
  let h0 := Z.land (u32 t0) 0x3ffffff in
  let c := Z.shiftr t0 26 in
  let t1 := u64 (t1 + c) in
  let h1 := Z.land (u32 t1) 0x3ffffff in
  let b := u32 (Z.shiftr t1 26) in
  let t2 := u64 (t2 + b) in
  let h2 := Z.land (u32 t2) 0x3ffffff in
  let b := u32 (Z.shiftr t2 26) in
  let t3 := u64 (t3 + b) in
  let h3 := Z.land (u32 t3) 0x3ffffff in
  let b := u32 (Z.shiftr t3 26) in
  let t4 := u64 (t4 + b) in
  let h4 := Z.land (u32 t4) 0x3ffffff in
  let b := u32 (Z.shiftr t4 26) in
  mk_limbs (u32 (h0 + u32 (b * 5))) h1 h2 h3 h4.

(** [poly1305_donna_mul]. *)
Definition donna_mul (r h : limbs) : limbs :=
  let s1 := u32 (l1 r * 5) in
  let s2 := u32 (l2 r * 5) in
  let s3 := u32 (l3 r * 5) in
  let s4 := u32 (l4 r * 5) in
  donna_carry
    (u64 (l0 h * l0 r + l1 h * s4 + l2 h * s3 + l3 h * s2 + l4 h * s1))
    (u64 (l0 h * l1 r + l1 h * l0 r + l2 h * s4 + l3 h * s3 + l4 h * s2))
    (u64 (l0 h * l2 r + l1 h * l1 r + l2 h * l0 r + l3 h * s4 + l4 h * s3))
    (u64 (l0 h * l3 r + l1 h * l2 r + l2 h * l1 r + l3 h * l0 r + l4 h * s4))
    (u64 (l0 h * l4 r + l1 h * l3 r + l2 h * l2 r + l3 h * l1 r + l4 h * l0 r)).

(** From [poly1305_donna_16bytes] to [poly1305_donna_finish]. *)
Fixpoint donna_blocks (fuel : nat) (r h : limbs) (m : bytes) (inlen : Z) : run limbs :=
  match fuel with
  | O => None
  | S fuel =>
      if 16 <=? inlen then
        h ← add_block (Z.shiftl 1 24) h m;
        donna_blocks fuel r (donna_mul r h) (zdrop 16 m) (inlen - 16)
      else if inlen =? 0 then Some h
      else
        final ← memcpy (zrep 16 Byte.x00) 0 m 0 inlen;
        mp ← memcpy final inlen [Byte.x01] 0 1;
        h ← add_block 0 h mp;
        donna_blocks fuel r (donna_mul r h) m 0
  end.

(** [poly1305_donna_finish], up to the choice between [h] and [g]. *)
Definition donna_finish (h : limbs) : limbs :=
  let b := Z.shiftr (l0 h) 26 in let h0 := Z.land (l0 h) 0x3ffffff in
  let h1 := u32 (l1 h + b) in let b := Z.shiftr h1 26 in let h1 := Z.land h1 0x3ffffff in
  let h2 := u32 (l2 h + b) in let b := Z.shiftr h2 26 in let h2 := Z.land h2 0x3ffffff in
  let h3 := u32 (l3 h + b) in let b := Z.shiftr h3 26 in let h3 := Z.land h3 0x3ffffff in
  let h4 := u32 (l4 h + b) in let b := Z.shiftr h4 26 in let h4 := Z.land h4 0x3ffffff in
  let h0 := u32 (h0 + u32 (b * 5)) in let b := Z.shiftr h0 26 in let h0 := Z.land h0 0x3ffffff in
  let h1 := u32 (h1 + b) in
  let g0 := u32 (h0 + 5) in let b := Z.shiftr g0 26 in let g0 := Z.land g0 0x3ffffff in
  let g1 := u32 (h1 + b) in let b := Z.shiftr g1 26 in let g1 := Z.land g1 0x3ffffff in
  let g2 := u32 (h2 + b) in let b := Z.shiftr g2 26 in let g2 := Z.land g2 0x3ffffff in
  let g3 := u32 (h3 + b) in let b := Z.shiftr g3 26 in let g3 := Z.land g3 0x3ffffff in
  let g4 := u32 (u32 (h4 + b) - Z.shiftl 1 26) in
  let b := u32 (Z.shiftr g4 31 - 1) in
  let nb := Z.lxor b 0xffffffff in
  let choose h g := Z.lor (Z.land h nb) (Z.land g b) in
  mk_limbs (choose h0 g0) (choose h1 g1) (choose h2 g2) (choose h3 g3) (choose h4 g4).

(** The tag: the second half of the key is added modulo 2^128. *)
Definition donna_tag (h : limbs) (key : bytes) : run bytes :=
  k0 ← U8TO32_LE (zdrop 16 key);
  k1 ← U8TO32_LE (zdrop 20 key);
  k2 ← U8TO32_LE (zdrop 24 key);
  k3 ← U8TO32_LE (zdrop 28 key);
  let f0 := u64 (Z.lor (l0 h) (u32 (Z.shiftl (l1 h) 26)) + k0) in
  let f1 := u64 (Z.lor (Z.shiftr (l1 h) 6) (u32 (Z.shiftl (l2 h) 20)) + k1) in
  let f2 := u64 (Z.lor (Z.shiftr (l2 h) 12) (u32 (Z.shiftl (l3 h) 14)) + k2) in
  let f3 := u64 (Z.lor (Z.shiftr (l3 h) 18) (u32 (Z.shiftl (l4 h) 8)) + k3) in
  let f1 := u64 (f1 + Z.shiftr f0 32) in
  let f2 := u64 (f2 + Z.shiftr f1 32) in
  let f3 := u64 (f3 + Z.shiftr f2 32) in
  Some (U32TO8_LE f0 ++ U32TO8_LE f1 ++ U32TO8_LE f2 ++ U32TO8_LE f3).

(** [poly1305_auth (out, m, inlen, key)]: what [out] gets. *)
Definition poly1305_auth (m : bytes) (inlen : Z) (key : bytes) : run bytes :=
  r ← clamp_key key;
  h ← donna_blocks (S (S (Z.to_nat (inlen / 16)))) r (mk_limbs 0 0 0 0 0) m inlen;
  donna_tag (donna_finish h) key.

(** ** The authenticator of RFC 8439 *)

Definition poly_p : Z := 2 ^ 130 - 5.
Definition poly_clamp (r : Z) : Z := Z.land r 0x0ffffffc0ffffffc0ffffffc0fffffff.

(** The blocks of 16 bytes, each with a byte 1 after it, the last one shorter. *)
Fixpoint poly_eval (fuel : nat) (r acc : Z) (m : bytes) : Z :=
  match fuel, m with
  | O, _ | _, [] => acc
  | S fuel, _ => poly_eval fuel r (((acc + le_val (ztake 16 m ++ [Byte.x01])) * r) mod poly_p) (zdrop 16 m)
  end.

Definition poly1305_mac (m key : bytes) : bytes :=
  let r := poly_clamp (le_val (ztake 16 key)) in
  let s := le_val (ztake 16 (zdrop 16 key)) in
  le_bytes 16 (poly_eval (length m) r 0 m + s).

(** The test vector of RFC 8439, section 2.5.2. *)
Definition rfc_key : bytes := map z2b
  [0x85; 0xd6; 0xbe; 0x78; 0x57; 0x55; 0x6d; 0x33; 0x7f; 0x44; 0x52; 0xfe; 0x42; 0xd5; 0x06; 0xa8;
   0x01; 0x03; 0x80; 0x8a; 0xfb; 0x0d; 0xb2; 0xfd; 0x4a; 0xbf; 0xf6; 0xaf; 0x41; 0x49; 0xf5; 0x1b].
Definition rfc_tag : bytes := map z2b
  [0xa8; 0x06; 0x1d; 0xc1; 0x30; 0x51; 0x36; 0xc6; 0xc2; 0x2b; 0x8b; 0xaf; 0x0c; 0x01; 0x27; 0xa9].
Definition rfc_text : bytes := cstr "Cryptographic Forum Research Group".

Example poly1305_rfc8439 : poly1305_auth rfc_text (zlen rfc_text) rfc_key = Some rfc_tag.
Proof. vm_compute. reflexivity. Qed.
Example poly1305_mac_rfc8439 : poly1305_mac rfc_text rfc_key = rfc_tag.
Proof. vm_compute. reflexivity. Qed.

(** ** Words and limbs *)

Definition val (h : limbs) : Z :=
  l0 h + 2 ^ 26 * l1 h + 2 ^ 52 * l2 h + 2 ^ 78 * l3 h + 2 ^ 104 * l4 h.

Lemma land_26 z : Z.land z 0x3ffffff = z mod 2 ^ 26.
Proof. apply (land_ones_mod z 26). lia. Qed.

Lemma u8to32_le p : 4 <= zlen p -> U8TO32_LE p = Some (le_val (ztake 4 p)).
Proof.
  destruct p as [|p0 [|p1 [|p2 [|p3 p]]]]; cbn; try (rewrite ?zlen_cons, ?zlen_nil; lia).
  intros _. cbn [U8TO32_LE]. f_equal.
  pose proof (b2z_range p0). pose proof (b2z_range p1). pose proof (b2z_range p2). pose proof (b2z_range p3).
  rewrite (Z.lor_comm (b2z p0)), lor_low by lia.
  rewrite (Z.lor_comm _ (Z.shiftl (b2z p2) 16)), lor_low by lia.
  rewrite (Z.lor_comm _ (Z.shiftl (b2z p3) 24)), lor_low by lia.
  change (ztake 4 _) with [p0; p1; p2; p3]. rewrite !le_val_cons. change (le_val []) with 0. lia.
Qed.

(** A block of 16 bytes is its four words. *)
Lemma words_16 p :
  16 <= zlen p ->
  exists t0 t1 t2 t3, U8TO32_LE p = Some t0 /\ U8TO32_LE (zdrop 4 p) = Some t1
    /\ U8TO32_LE (zdrop 8 p) = Some t2 /\ U8TO32_LE (zdrop 12 p) = Some t3
    /\ (0 <= t0 < 2 ^ 32 /\ 0 <= t1 < 2 ^ 32 /\ 0 <= t2 < 2 ^ 32 /\ 0 <= t3 < 2 ^ 32)
    /\ le_val (ztake 16 p) = t0 + 2 ^ 32 * t1 + 2 ^ 64 * t2 + 2 ^ 96 * t3.
Proof.
  intros Hp. exists (le_val (ztake 4 p)), (le_val (ztake 4 (zdrop 4 p))),
    (le_val (ztake 4 (zdrop 8 p))), (le_val (ztake 4 (zdrop 12 p))).
  rewrite !u8to32_le by (rewrite ?zlen_drop; lia).
  assert (Hr : forall q, 4 <= zlen q -> 0 <= le_val (ztake 4 q) < 2 ^ 32).
  { intros q Hq. pose proof (le_val_range (ztake 4 q)) as Hv.
    replace (zlen (ztake 4 q)) with 4 in Hv by (rewrite zlen_take; lia). exact Hv. }
  split_and!; try done; try (apply Hr; rewrite ?zlen_drop; lia).
  assert (Hs : forall n k, 4 <= n -> 0 <= k -> n <= zlen (zdrop k p) ->
    le_val (ztake n (zdrop k p)) = le_val (ztake 4 (zdrop k p)) + 2 ^ 32 * le_val (ztake (n - 4) (zdrop (k + 4) p))).
  { intros n k Hn Hk Hl. rewrite <- (ztake_drop 4 (ztake n (zdrop k p))) at 1.
    rewrite le_val_app. replace (zlen (ztake 4 _)) with 4 by (rewrite !zlen_take; lia). rewrite ztake_take_le by lia. rewrite zdrop_take by lia. rewrite zdrop_drop by lia. done. }
  pose proof (Hs 16 0) as H1. pose proof (Hs 12 4) as H2. pose proof (Hs 8 8) as H3.
  change (16 - 4) with 12 in H1. change (0 + 4) with 4 in H1. change (12 - 4) with 8 in H2.
  change (4 + 4) with 8 in H2. change (8 - 4) with 4 in H3. change (8 + 4) with 12 in H3.
  rewrite (zdrop_0 0 p) in H1 by lia. rewrite ?zlen_drop in *.
  rewrite H1, H2, H3 by lia. lia.
Qed.

(** Two parts of a word or a pair of words, put together again. *)
Lemma word_parts hi lo j k :
  0 <= j -> 0 <= k <= 32 -> 0 <= lo < 2 ^ 32 -> j = 32 - k ->
  Z.lor (Z.shiftr lo k) (u32 (Z.shiftl hi j)) = (lo + 2 ^ 32 * hi) / 2 ^ k mod 2 ^ 32.
Proof.
  intros Hj Hk Hlo ->. rewrite Z.shiftr_div_pow2, (Z.shiftl_mul_pow2 hi) by lia. unfold u32.
  assert (Hs : 2 ^ 32 = 2 ^ (32 - k) * 2 ^ k) by (rewrite <- Z.pow_add_r by lia; f_equal; lia).
  rewrite Hs in *. set (a := 2 ^ k) in *. set (c := 2 ^ (32 - k)) in *.
  assert (Ha : 0 < a) by (apply Z.pow_pos_nonneg; lia).
  assert (Hc : 0 < c) by (apply Z.pow_pos_nonneg; lia).
  assert (Hlo' : 0 <= lo / a < c).
  { split; [apply Z.div_pos; lia|]. apply Z.div_lt_upper_bound; lia. }
  replace (hi * c) with (c * hi) by lia. rewrite Z.mul_mod_distr_l by lia.
  rewrite Z.lor_comm, Z.mul_comm. unfold c at 1. rewrite <- Z.shiftl_mul_pow2, lor_low by (done || lia).
  fold c. replace (lo + c * a * hi) with (lo + (c * hi) * a) by lia. rewrite Z.div_add by lia.
  rewrite Z.rem_mul_r by lia. replace (lo / a + c * hi) with (lo / a + hi * c) by lia.
  rewrite Z_mod_plus_full, (Z.mod_small (lo / a)), Z.div_add by lia. rewrite (Z.div_small (lo / a)) by lia. rewrite Z.add_0_l. lia.
Qed.

(** ** Clamping and adding a block *)

(** The limbs of the value of a block. *)
Lemma pair_parts hi lo k :
  0 <= hi < 2 ^ 32 -> 0 <= lo < 2 ^ 32 -> 6 <= k <= 32 ->
  Z.land (Z.shiftr (Z.lor (u64 (Z.shiftl hi 32)) lo) k) 0x3ffffff = (lo + 2 ^ 32 * hi) / 2 ^ k mod 2 ^ 26.
Proof.
  intros Hhi Hlo Hk. rewrite (Z.shiftl_mul_pow2 hi), u64_small by lia.
  rewrite <- Z.shiftl_mul_pow2, lor_low by lia. rewrite land_26, Z.shiftr_div_pow2 by lia.
  do 2 f_equal. lia.
Qed.

(** A field of [lo + 2^32 hi] that ends below bit 64 is a field of any number
    that continues it. *)
Lemma field_low x y k j w :
  0 <= k -> 0 <= w -> 0 <= j -> k + w <= j -> (x + 2 ^ j * y) / 2 ^ k mod 2 ^ w = x / 2 ^ k mod 2 ^ w.
Proof.
  intros Hk Hw Hj Hle. replace (2 ^ j) with (2 ^ (j - k - w) * 2 ^ w * 2 ^ k)
    by (rewrite <- !Z.pow_add_r by lia; f_equal; lia).
  assert (0 < 2 ^ k) by (apply Z.pow_pos_nonneg; lia).
  replace (x + _) with (x + (2 ^ (j - k - w) * y * 2 ^ w) * 2 ^ k) by lia.
  rewrite Z.div_add, Z_mod_plus_full by lia. done.
Qed.

Definition block_val (t0 t1 t2 t3 : Z) : Z := t0 + 2 ^ 32 * t1 + 2 ^ 64 * t2 + 2 ^ 96 * t3.

Lemma block_fields t0 t1 t2 t3 :
  0 <= t0 < 2 ^ 32 -> 0 <= t1 < 2 ^ 32 -> 0 <= t2 < 2 ^ 32 -> 0 <= t3 < 2 ^ 32 ->
  let v := block_val t0 t1 t2 t3 in
  t0 mod 2 ^ 26 = v mod 2 ^ 26
  /\ (t0 + 2 ^ 32 * t1) / 2 ^ 26 mod 2 ^ 26 = v / 2 ^ 26 mod 2 ^ 26
  /\ (t1 + 2 ^ 32 * t2) / 2 ^ 20 mod 2 ^ 26 = v / 2 ^ 52 mod 2 ^ 26
  /\ (t2 + 2 ^ 32 * t3) / 2 ^ 14 mod 2 ^ 26 = v / 2 ^ 78 mod 2 ^ 26
  /\ t3 / 2 ^ 8 = v / 2 ^ 104.
Proof. intros H0 H1 H2 H3 v. unfold v, block_val. Z.to_euclidean_division_equations. lia. Qed.

Lemma fields_val v :
  0 <= v -> v = v mod 2 ^ 26 + 2 ^ 26 * (v / 2 ^ 26 mod 2 ^ 26) + 2 ^ 52 * (v / 2 ^ 52 mod 2 ^ 26)
    + 2 ^ 78 * (v / 2 ^ 78 mod 2 ^ 26) + 2 ^ 104 * (v / 2 ^ 104).
Proof. intros Hv. Z.to_euclidean_division_equations. lia. Qed.

(** Masking by limbs is masking. *)
Lemma land_split x m m' k :
  0 <= k -> 0 <= m < 2 ^ k -> Z.land x (m + 2 ^ k * m') = Z.land x m + 2 ^ k * Z.land (x / 2 ^ k) m'.
Proof.
  intros Hk Hm. assert (Hc : forall y, m + 2 ^ k * y = Z.lor (Z.shiftl y k) m).
  { intros y. rewrite lor_low by lia. lia. }
  assert (Hl : 0 <= Z.land x m < 2 ^ k).
  { replace (Z.land x m) with (Z.land x m mod 2 ^ k); [apply Z.mod_pos_bound; apply Z.pow_pos_nonneg; lia|].
    rewrite <- Z.land_ones, <- Z.land_assoc, Z.land_ones by lia. by rewrite Z.mod_small. }
  rewrite Hc. replace (Z.land x m + 2 ^ k * _) with (Z.lor (Z.shiftl (Z.land (x / 2 ^ k) m') k) (Z.land x m))
    by (rewrite lor_low by lia; lia).
  rewrite Z.land_lor_distr_r, Z.shiftl_land. f_equal.
  rewrite <- Z.shiftr_div_pow2 by lia. apply Z.bits_inj'. intros n Hn.
  rewrite !Z.land_spec. destruct (decide (n < k)).
  - by rewrite !(Z.shiftl_spec_low _ _ n), !andb_false_r by lia.
  - rewrite !Z.shiftl_spec, Z.shiftr_spec by lia. do 2 f_equal. lia.
Qed.

Lemma land_mod x m k : 0 <= k -> 0 <= m < 2 ^ k -> Z.land x m = Z.land (x mod 2 ^ k) m.
Proof.
  intros Hk Hm. rewrite <- (Z.mod_small m (2 ^ k)) at 1 by lia.
  rewrite <- !Z.land_ones by lia. rewrite Z.land_assoc, (Z.land_comm _ (Z.ones k)), !Z.land_assoc.
  by rewrite (Z.land_comm (Z.ones k) x).
Qed.

Record limbs_in (b0 b b4 : Z) (h : limbs) : Prop := {
  in_l0 : 0 <= l0 h < b0;
  in_l1 : 0 <= l1 h < b;
  in_l2 : 0 <= l2 h < b;
  in_l3 : 0 <= l3 h < b;
  in_l4 : 0 <= l4 h < b4
}.

(** The bounds of the three kinds of limbs: a clamped key, an accumulator, and an
    accumulator with a block added to it. *)
Definition key_limbs : limbs -> Prop := limbs_in (2 ^ 26) (2 ^ 26) (2 ^ 20).
Definition acc_limbs : limbs -> Prop := limbs_in (42 * 2 ^ 26) (2 ^ 26) (2 ^ 26).
Definition sum_limbs : limbs -> Prop := limbs_in (43 * 2 ^ 26) (2 ^ 27) (2 ^ 26 + 2 ^ 25).

Lemma land_range x m k : 0 <= k -> 0 <= m < 2 ^ k -> 0 <= Z.land x m < 2 ^ k.
Proof.
  intros Hk Hm. replace (Z.land x m) with (Z.land x m mod 2 ^ k);
    [apply Z.mod_pos_bound; apply Z.pow_pos_nonneg; lia|].
  rewrite <- Z.land_ones, <- Z.land_assoc, Z.land_ones by lia. by rewrite Z.mod_small.
Qed.

Lemma poly_clamp_fields v :
  poly_clamp v = Z.land v 0x3ffffff + 2 ^ 26 * Z.land (v / 2 ^ 26) 0x3ffff03
    + 2 ^ 52 * Z.land (v / 2 ^ 52) 0x3ffc0ff + 2 ^ 78 * Z.land (v / 2 ^ 78) 0x3f03fff
    + 2 ^ 104 * Z.land (v / 2 ^ 104) 0x00fffff.
Proof.
  unfold poly_clamp.
  change 0x0ffffffc0ffffffc0ffffffc0fffffff with
    (0x3ffffff + 2 ^ 26 * (0x3ffff03 + 2 ^ 26 * (0x3ffc0ff + 2 ^ 26 * (0x3f03fff + 2 ^ 26 * 0x00fffff)))).
  rewrite !land_split by lia. rewrite !Z.div_div by lia.
  change (2 ^ 26 * 2 ^ 26) with (2 ^ 52). change (2 ^ 52 * 2 ^ 26) with (2 ^ 78).
  change (2 ^ 78 * 2 ^ 26) with (2 ^ 104). lia.
Qed.

Lemma clamp_key_spec key :
  16 <= zlen key ->
  exists r, clamp_key key = Some r /\ key_limbs r /\ val r = poly_clamp (le_val (ztake 16 key)).
Proof.
  intros Hk. destruct (words_16 key Hk) as (t0 & t1 & t2 & t3 & E0 & E1 & E2 & E3 & (B0 & B1 & B2 & B3) & Hv).
  fold (block_val t0 t1 t2 t3) in Hv. destruct (block_fields t0 t1 t2 t3) as (F0 & F1 & F2 & F3 & F4); try done.
  unfold clamp_key. rewrite E0, E1, E2, E3. cbn [mbind option_bind].
  rewrite (word_parts t1 t0 6 26), (word_parts t2 t1 12 20), (word_parts t3 t2 18 14) by lia.
  rewrite Z.shiftr_div_pow2 by lia. eexists. split; [reflexivity|].
  split; [constructor; cbn [l0 l1 l2 l3 l4]; apply land_range; lia|].
  unfold val. cbn [l0 l1 l2 l3 l4]. rewrite Hv, poly_clamp_fields. set (v := block_val t0 t1 t2 t3) in *.
  assert (Hmm : forall x, x mod 2 ^ 32 mod 2 ^ 26 = x mod 2 ^ 26).
  { intros x. Z.to_euclidean_division_equations. lia. }
  rewrite (land_mod t0 _ 26), (land_mod v _ 26), F0 by lia.
  rewrite (land_mod (_ mod 2 ^ 32) 0x3ffff03 26), (land_mod (v / 2 ^ 26) _ 26), Hmm, F1 by lia.
  rewrite (land_mod (_ mod 2 ^ 32) 0x3ffc0ff 26), (land_mod (v / 2 ^ 52) _ 26), Hmm, F2 by lia.
  rewrite (land_mod (_ mod 2 ^ 32) 0x3f03fff 26), (land_mod (v / 2 ^ 78) _ 26), Hmm, F3 by lia.
  by rewrite F4.
Qed.

Lemma add_block_spec hibit h m :
  hibit = 0 \/ hibit = 2 ^ 24 -> acc_limbs h -> 16 <= zlen m ->
  exists h', add_block hibit h m = Some h' /\ sum_limbs h'
    /\ val h' = val h + le_val (ztake 16 m) + 2 ^ 104 * hibit.
Proof.
  intros Hb [A0 A1 A2 A3 A4] Hm.
  destruct (words_16 m Hm) as (t0 & t1 & t2 & t3 & E0 & E1 & E2 & E3 & (B0 & B1 & B2 & B3) & Hv).
  fold (block_val t0 t1 t2 t3) in Hv. destruct (block_fields t0 t1 t2 t3) as (F0 & F1 & F2 & F3 & F4); try done.
  unfold add_block. rewrite E0, E1, E2, E3. cbn [mbind option_bind].
  rewrite !pair_parts, land_26, Z.shiftr_div_pow2 by lia.
  assert (H4 : 0 <= t3 / 2 ^ 8 < 2 ^ 24) by (Z.to_euclidean_division_equations; lia).
  assert (Hl : Z.lor (t3 / 2 ^ 8) hibit = t3 / 2 ^ 8 + hibit).
  { destruct Hb as [-> | ->]; [rewrite Z.lor_0_r; lia|].
    change (2 ^ 24) with (Z.shiftl 1 24) at 1. rewrite Z.lor_comm, lor_low by lia. lia. }
  rewrite Hl, F0, F1, F2, F3, F4. rewrite F4 in H4. set (v := block_val t0 t1 t2 t3) in *.
  assert (Hmod : forall x, 0 <= x mod 2 ^ 26 < 2 ^ 26) by (intros; apply Z.mod_pos_bound; lia).
  pose proof (Hmod v). pose proof (Hmod (v / 2 ^ 26)). pose proof (Hmod (v / 2 ^ 52)). pose proof (Hmod (v / 2 ^ 78)).
  eexists. split; [reflexivity|].
  assert (Hh : 0 <= hibit <= 2 ^ 24) by lia. clear Hb. unwrap.
  split; [constructor; cbn [l0 l1 l2 l3 l4]; lia|].
  assert (Hv0 : 0 <= v) by (unfold v, block_val; lia).
  unfold val. cbn [l0 l1 l2 l3 l4]. rewrite Hv. pose proof (fields_val v Hv0). lia.
Qed.

Lemma mul_range a b x y : 0 <= a < x -> 0 <= b < y -> 0 <= a * b <= (x - 1) * (y - 1).
Proof. intros. split; [lia|]. apply Z.mul_le_mono_nonneg; lia. Qed.

(** A sum of five products, the limbs of an accumulator with a block added by
    words below [2^26 * x]. *)
Lemma dot_range h0 h1 h2 h3 h4 y0 y1 y2 y3 y4 x0 x1 x2 x3 x4 :
  0 <= h0 < 43 * 2 ^ 26 -> 0 <= h1 < 2 ^ 27 -> 0 <= h2 < 2 ^ 27 -> 0 <= h3 < 2 ^ 27 ->
  0 <= h4 < 2 ^ 26 + 2 ^ 25 ->
  0 <= y0 < x0 -> 0 <= y1 < x1 -> 0 <= y2 < x2 -> 0 <= y3 < x3 -> 0 <= y4 < x4 ->
  0 <= h0 * y0 + h1 * y1 + h2 * y2 + h3 * y3 + h4 * y4
    <= 2 ^ 25 * (86 * x0 + 4 * x1 + 4 * x2 + 4 * x3 + 3 * x4).
Proof.
  intros H0 H1 H2 H3 H4 Y0 Y1 Y2 Y3 Y4.
  pose proof (mul_range _ _ _ _ H0 Y0). pose proof (mul_range _ _ _ _ H1 Y1).
  pose proof (mul_range _ _ _ _ H2 Y2). pose proof (mul_range _ _ _ _ H3 Y3).
  pose proof (mul_range _ _ _ _ H4 Y4). lia.
Qed.

(** ** The multiplication *)

Lemma land_u32_26 x : Z.land (u32 x) 0x3ffffff = x mod 2 ^ 26.
Proof. rewrite land_26. unfold u32. Z.to_euclidean_division_equations. lia. Qed.

Lemma split_26 t : exists d m, t / 2 ^ 26 = d /\ t mod 2 ^ 26 = m /\ t = 2 ^ 26 * d + m /\ 0 <= m < 2 ^ 26.
Proof.
  exists (t / 2 ^ 26), (t mod 2 ^ 26). split_and!; try done; try (apply Z.mod_pos_bound; lia).
  apply Z.div_mod. lia.
Qed.

(** The carries keep the value modulo [poly_p]; the word [b] does not overflow. *)
Lemma donna_carry_spec t0 t1 t2 t3 t4 :
  0 <= t0 < 2 ^ 59 -> 0 <= t1 < 63 * 2 ^ 52 -> 0 <= t2 < 63 * 2 ^ 52 -> 0 <= t3 < 63 * 2 ^ 52 ->
  5 * t4 < 40 * 2 ^ 52 + 63 * 2 ^ 46 -> 0 <= t4 ->
  acc_limbs (donna_carry t0 t1 t2 t3 t4)
  /\ exists q, val (donna_carry t0 t1 t2 t3 t4) + poly_p * q
               = t0 + 2 ^ 26 * t1 + 2 ^ 52 * t2 + 2 ^ 78 * t3 + 2 ^ 104 * t4.
Proof.
  intros B0 B1 B2 B3 B4 B4'. unfold donna_carry. rewrite !land_u32_26, !Z.shiftr_div_pow2 by lia.
  destruct (split_26 t0) as (d0 & m0 & -> & -> & E0 & R0).
  rewrite (u64_small (t1 + d0)) by lia.
  destruct (split_26 (t1 + d0)) as (d1 & m1 & -> & -> & E1 & R1).
  rewrite (u32_small d1), (u64_small (t2 + d1)) by lia.
  destruct (split_26 (t2 + d1)) as (d2 & m2 & -> & -> & E2 & R2).
  rewrite (u32_small d2), (u64_small (t3 + d2)) by lia.
  destruct (split_26 (t3 + d2)) as (d3 & m3 & -> & -> & E3 & R3).
  rewrite (u32_small d3), (u64_small (t4 + d3)) by lia.
  destruct (split_26 (t4 + d3)) as (d4 & m4 & -> & -> & E4 & R4).
  rewrite (u32_small d4), (u32_small (d4 * 5)), (u32_small (m0 + _)) by lia.
  split; [constructor; cbn [l0 l1 l2 l3 l4]; lia|].
  exists d4. unfold val, poly_p. cbn [l0 l1 l2 l3 l4]. lia.
Qed.

#[local] Ltac specialize_lia H :=
  repeat match type of H with ?P -> _ => let p := fresh in assert (p : P) by lia; specialize (H p); clear p end.

Lemma donna_mul_spec r h :
  key_limbs r -> sum_limbs h ->
  acc_limbs (donna_mul r h) /\ exists q, val (donna_mul r h) + poly_p * q = val h * val r.
Proof.
  destruct r as [r0 r1 r2 r3 r4], h as [h0 h1 h2 h3 h4].
  intros [K0 K1 K2 K3 K4] [S0 S1 S2 S3 S4]. cbn [l0 l1 l2 l3 l4] in *.
  unfold donna_mul. cbn [l0 l1 l2 l3 l4].
  rewrite (u32_small (r1 * 5)), (u32_small (r2 * 5)), (u32_small (r3 * 5)), (u32_small (r4 * 5)) by lia.
  pose proof (dot_range h0 h1 h2 h3 h4 r0 (r4 * 5) (r3 * 5) (r2 * 5) (r1 * 5)
    (2 ^ 26) (5 * 2 ^ 20) (5 * 2 ^ 26) (5 * 2 ^ 26) (5 * 2 ^ 26)) as P0.
  pose proof (dot_range h0 h1 h2 h3 h4 r1 r0 (r4 * 5) (r3 * 5) (r2 * 5)
    (2 ^ 26) (2 ^ 26) (5 * 2 ^ 20) (5 * 2 ^ 26) (5 * 2 ^ 26)) as P1.
  pose proof (dot_range h0 h1 h2 h3 h4 r2 r1 r0 (r4 * 5) (r3 * 5)
    (2 ^ 26) (2 ^ 26) (2 ^ 26) (5 * 2 ^ 20) (5 * 2 ^ 26)) as P2.
  pose proof (dot_range h0 h1 h2 h3 h4 r3 r2 r1 r0 (r4 * 5)
    (2 ^ 26) (2 ^ 26) (2 ^ 26) (2 ^ 26) (5 * 2 ^ 20)) as P3.
  pose proof (dot_range h0 h1 h2 h3 h4 r4 r3 r2 r1 r0
    (2 ^ 20) (2 ^ 26) (2 ^ 26) (2 ^ 26) (2 ^ 26)) as P4.
  specialize_lia P0. specialize_lia P1. specialize_lia P2. specialize_lia P3. specialize_lia P4.
  set (T0 := h0 * r0 + _ + _ + _ + _) in *. set (T1 := h0 * r1 + _ + _ + _ + _) in *.
  set (T2 := h0 * r2 + _ + _ + _ + _) in *. set (T3 := h0 * r3 + _ + _ + _ + _) in *.
  set (T4 := h0 * r4 + _ + _ + _ + _) in *.
  rewrite (u64_small T0), (u64_small T1), (u64_small T2), (u64_small T3), (u64_small T4)
    by (clearbody T0 T1 T2 T3 T4; lia).
  destruct (donna_carry_spec T0 T1 T2 T3 T4) as (Ha & q & Hq);
    [clearbody T0 T1 T2 T3 T4; lia..|]. split; [exact Ha|].
  exists (q + h1 * r4 + h2 * r3 + h3 * r2 + h4 * r1
          + 2 ^ 26 * (h2 * r4 + h3 * r3 + h4 * r2) + 2 ^ 52 * (h3 * r4 + h4 * r3) + 2 ^ 78 * (h4 * r4)).
  rewrite !Z.mul_add_distr_l, !Z.add_assoc, Hq.
  unfold val, poly_p, T0, T1, T2, T3, T4. cbn [l0 l1 l2 l3 l4]. ring.
Qed.

(** ** The loop over the blocks *)

Lemma val_mod_mul r h q v : val (donna_mul r h) + poly_p * q = v -> val (donna_mul r h) mod poly_p = v mod poly_p.
Proof. intros <-. rewrite (Z.mul_comm poly_p), Z_mod_plus_full. done. Qed.

Lemma le_val_zeros n : le_val (zrep n Byte.x00) = 0.
Proof. unfold zrep. induction (Z.to_nat n) as [|k IH]; [done|]. cbn [replicate]. rewrite le_val_cons, IH. done. Qed.

(** One block: the accumulator of the code follows that of the definition. *)
Lemma block_step hibit r h m blk :
  hibit = 0 \/ hibit = 2 ^ 24 -> key_limbs r -> acc_limbs h -> 16 <= zlen m ->
  le_val blk = le_val (ztake 16 m) + 2 ^ 104 * hibit ->
  exists h1, add_block hibit h m = Some h1 /\ acc_limbs (donna_mul r h1)
    /\ val (donna_mul r h1) mod poly_p = ((val h mod poly_p + le_val blk) * val r) mod poly_p.
Proof.
  intros Hb Hr Hh Hm Hblk. destruct (add_block_spec hibit h m Hb Hh Hm) as (h1 & -> & Hs & Hv).
  destruct (donna_mul_spec r h1 Hr Hs) as (Ha & q & Hq). exists h1. split_and!; [done|done|].
  rewrite (val_mod_mul _ _ _ _ Hq), Hv, Hblk.
  rewrite <- (Z.mul_mod_idemp_l (val h mod poly_p + _)) by done.
  rewrite Z.add_mod_idemp_l, Z.mul_mod_idemp_l by done. f_equal. lia.
Qed.

Lemma donna_blocks_spec r fe : key_limbs r -> forall fuel h m inlen,
  acc_limbs h -> 0 <= inlen <= zlen m -> inlen <= 16 * Z.of_nat fe -> inlen / 16 + 2 <= Z.of_nat fuel ->
  exists h', donna_blocks fuel r h m inlen = Some h' /\ acc_limbs h'
    /\ val h' mod poly_p = poly_eval fe (val r) (val h mod poly_p) (ztake inlen m).
Proof.
  intros Hr. induction fe as [|fe IH]; intros fuel h m inlen Hh Hin Hfe Hfuel.
  all: destruct fuel as [|fuel]; [pose proof (Z.div_pos inlen 16); lia|]; cbn [donna_blocks].
  { replace inlen with 0 by lia. cbn [Z.leb Z.eqb]. exists h. by rewrite ztake_0. }
  destruct (Z.leb_spec 16 inlen) as [H16|H16].
  - destruct (block_step (Z.shiftl 1 24) r h m (ztake 16 m ++ [Byte.x01])) as (h1 & -> & Ha & Hv);
      [by right|done|done|lia| |].
    { rewrite le_val_app. replace (zlen (ztake 16 m)) with 16 by (rewrite zlen_take; lia). done. }
    cbn [mbind option_bind].
    destruct (IH fuel (donna_mul r h1) (zdrop 16 m) (inlen - 16)) as (h' & He & Ha' & Hv'); [done| |lia| |].
    { rewrite zlen_drop. lia. }
    { replace inlen with (inlen - 16 + 1 * 16) in Hfuel by lia. rewrite Z.div_add in Hfuel by lia. lia. }
    exists h'. split_and!; [done|done|]. rewrite Hv', Hv. cbn [poly_eval].
    destruct (ztake inlen m) as [|x l] eqn:Hx.
    { assert (zlen (ztake inlen m) = 0) by (by rewrite Hx). rewrite zlen_take in *. lia. }
    rewrite <- Hx. rewrite ztake_take_le by lia. rewrite zdrop_take by lia. done.
  - destruct (Z.eqb_spec inlen 0) as [->|Hne].
    { exists h. rewrite ztake_0 by lia. by destruct fe. }
    rewrite memcpy_ok by (rewrite ?zlen_rep; lia). cbn [mbind option_bind].
    rewrite (ztake_0 0), (zdrop_0 0) by lia. cbn [app]. change (0 + inlen) with inlen.
    assert (Hti : zlen (ztake inlen m) = inlen) by (rewrite zlen_take; lia).
    rewrite memcpy_ok by (rewrite ?zlen_app, ?zlen_drop, ?zlen_rep, ?Hti; change (zlen [Byte.x01]) with 1; lia).
    cbn [mbind option_bind]. change (ztake 1 (zdrop 0 [Byte.x01])) with [Byte.x01].
    rewrite ztake_app_le, (ztake_all inlen (ztake inlen m)) by lia.
    rewrite zdrop_app_ge by lia. rewrite Hti. replace (inlen + 1 - inlen) with 1 by lia.
    set (z := zdrop 1 _).
    assert (Hz : zlen z = 15 - inlen /\ le_val z = 0).
    { unfold z. rewrite !zlen_drop, zlen_rep. split; [lia|].
      replace (zdrop 1 (zdrop inlen (zrep 16 Byte.x00))) with (zrep (15 - inlen) Byte.x00); [apply le_val_zeros|].
      unfold zdrop, zrep. rewrite !drop_replicate. f_equal. lia. }
    destruct Hz as [Hzl Hz].
    destruct (block_step 0 r h (ztake inlen m ++ [Byte.x01] ++ z) (ztake inlen m ++ [Byte.x01]))
      as (h1 & -> & Ha & Hv); [by left|done|done|rewrite !zlen_app, Hti, Hzl; change (zlen [Byte.x01]) with 1; lia| |].
    { rewrite (ztake_all 16) by (rewrite !zlen_app, Hti, Hzl; change (zlen [Byte.x01]) with 1; lia).
      rewrite app_assoc, (le_val_app _ z), Hz. lia. }
    cbn [mbind option_bind].
    destruct fuel as [|fuel]; [rewrite (Z.div_small inlen) in Hfuel by lia; lia|].
    cbn [donna_blocks Z.leb Z.eqb Z.compare]. exists (donna_mul r h1). split_and!; [done|done|].
    rewrite Hv. cbn [poly_eval]. destruct (ztake inlen m) as [|x l] eqn:Hx; [rewrite zlen_nil in Hti; lia|].
    rewrite (ztake_all 16), (zdrop_all 16) by lia. by destruct fe.
Qed.

(** ** The end of the computation *)

(** A value in limbs of 26 bits with the carries taken. *)
Definition full_limbs : limbs -> Prop := limbs_in (2 ^ 26) (2 ^ 26) (2 ^ 26).

Lemma split_32 t : exists d m, Z.shiftr t 32 = d /\ t mod 2 ^ 32 = m /\ t = 2 ^ 32 * d + m /\ 0 <= m < 2 ^ 32.
Proof.
  exists (t / 2 ^ 32), (t mod 2 ^ 32). rewrite Z.shiftr_div_pow2 by lia.
  split_and!; try done; try (apply Z.mod_pos_bound; lia). apply Z.div_mod. lia.
Qed.

(** The words of the choice are masks. *)
Lemma choose_mask (b : bool) h g :
  0 <= h < 2 ^ 32 -> 0 <= g < 2 ^ 32 ->
  let m := if b then 0xffffffff else 0 in
  Z.lor (Z.land h (Z.lxor m 0xffffffff)) (Z.land g m) = if b then g else h.
Proof.
  intros Hh Hg m. assert (Ho : forall x, 0 <= x < 2 ^ 32 -> Z.land x 0xffffffff = x).
  { intros x Hx. change 0xffffffff with (2 ^ 32 - 1). rewrite land_ones_mod by lia. by apply Z.mod_small. }
  destruct b; unfold m; cbn [Z.lxor]; rewrite ?Z.lxor_0_l.
  - rewrite Z.lxor_nilpotent, Z.land_0_r, Z.lor_0_l. auto.
  - rewrite Z.land_0_r, Z.lor_0_r. auto.
Qed.

(** The carries from [h1] to [h4], and the last one to [h0] and [h1]. *)
Lemma finish_carries h0 h1 h2 h3 h4 :
  acc_limbs (mk_limbs h0 h1 h2 h3 h4) ->
  exists d0 m0 d1 m1 d2 m2 d3 m3 d4 m4 e0 n0,
    h0 = 2 ^ 26 * d0 + m0 /\ h1 + d0 = 2 ^ 26 * d1 + m1 /\ h2 + d1 = 2 ^ 26 * d2 + m2
    /\ h3 + d2 = 2 ^ 26 * d3 + m3 /\ h4 + d3 = 2 ^ 26 * d4 + m4 /\ m0 + 5 * d4 = 2 ^ 26 * e0 + n0
    /\ (0 <= d0 < 42 /\ 0 <= d1 <= 1 /\ 0 <= d2 <= 1 /\ 0 <= d3 <= 1 /\ 0 <= d4 <= 1 /\ 0 <= e0 <= 1)
    /\ full_limbs (mk_limbs n0 (m1 + e0) m2 m3 m4)
    /\ 0 <= m0 < 2 ^ 26 /\ 0 <= m1 < 2 ^ 26
    /\ (h0 / 2 ^ 26 = d0 /\ h0 mod 2 ^ 26 = m0 /\ (h1 + d0) / 2 ^ 26 = d1 /\ (h1 + d0) mod 2 ^ 26 = m1
        /\ (h2 + d1) / 2 ^ 26 = d2 /\ (h2 + d1) mod 2 ^ 26 = m2 /\ (h3 + d2) / 2 ^ 26 = d3
        /\ (h3 + d2) mod 2 ^ 26 = m3 /\ (h4 + d3) / 2 ^ 26 = d4 /\ (h4 + d3) mod 2 ^ 26 = m4
        /\ (m0 + d4 * 5) / 2 ^ 26 = e0 /\ (m0 + d4 * 5) mod 2 ^ 26 = n0).
Proof.
  intros [A0 A1 A2 A3 A4]. cbn [l0 l1 l2 l3 l4] in *.
  destruct (split_26 h0) as (d0 & m0 & Q0 & M0 & E0 & R0). assert (0 <= d0 < 42) by lia.
  destruct (split_26 (h1 + d0)) as (d1 & m1 & Q1 & M1 & E1 & R1). assert (0 <= d1 <= 1) by lia.
  destruct (split_26 (h2 + d1)) as (d2 & m2 & Q2 & M2 & E2 & R2). assert (0 <= d2 <= 1) by lia.
  destruct (split_26 (h3 + d2)) as (d3 & m3 & Q3 & M3 & E3 & R3). assert (0 <= d3 <= 1) by lia.
  destruct (split_26 (h4 + d3)) as (d4 & m4 & Q4 & M4 & E4 & R4). assert (0 <= d4 <= 1) by lia.
  destruct (split_26 (m0 + d4 * 5)) as (e0 & n0 & Q5 & M5 & E5 & R5). assert (0 <= e0 <= 1) by lia.
  exists d0, m0, d1, m1, d2, m2, d3, m3, d4, m4, e0, n0.
  split_and!; try done; try lia. constructor; cbn [l0 l1 l2 l3 l4]; try done.
  assert (e0 = 0 \/ e0 = 1 /\ d4 = 1 /\ d3 = 1 /\ d2 = 1 /\ d1 = 1) by lia. lia.
Qed.

(** [g] is [h + 5 - 2^130]; its top bit tells whether that is negative. *)
Lemma finish_choice n0 n1 n2 n3 n4 :
  full_limbs (mk_limbs n0 n1 n2 n3 n4) ->
  let g0 := u32 (n0 + 5) in let c0 := g0 / 2 ^ 26 in
  let g1 := u32 (n1 + c0) in let c1 := g1 / 2 ^ 26 in
  let g2 := u32 (n2 + c1) in let c2 := g2 / 2 ^ 26 in
  let g3 := u32 (n3 + c2) in let c3 := g3 / 2 ^ 26 in
  let g4 := u32 (u32 (n4 + c3) - Z.shiftl 1 26) in
  let b := u32 (g4 / 2 ^ 31 - 1) in
  let choose h g := Z.lor (Z.land h (Z.lxor b 0xffffffff)) (Z.land g b) in
  let r := mk_limbs (choose n0 (g0 mod 2 ^ 26)) (choose n1 (g1 mod 2 ^ 26)) (choose n2 (g2 mod 2 ^ 26))
             (choose n3 (g3 mod 2 ^ 26)) (choose n4 g4) in
  full_limbs r /\ val r = val (mk_limbs n0 n1 n2 n3 n4) mod poly_p.
Proof.
  intros [A0 A1 A2 A3 A4]. cbn [l0 l1 l2 l3 l4] in *. cbv zeta.
  rewrite (u32_small (n0 + 5)) by lia.
  destruct (split_26 (n0 + 5)) as (c0 & k0 & -> & -> & E0 & R0). assert (0 <= c0 <= 1) by lia.
  rewrite (u32_small (n1 + c0)) by lia.
  destruct (split_26 (n1 + c0)) as (c1 & k1 & -> & -> & E1 & R1). assert (0 <= c1 <= 1) by lia.
  rewrite (u32_small (n2 + c1)) by lia.
  destruct (split_26 (n2 + c1)) as (c2 & k2 & -> & -> & E2 & R2). assert (0 <= c2 <= 1) by lia.
  rewrite (u32_small (n3 + c2)) by lia.
  destruct (split_26 (n3 + c2)) as (c3 & k3 & -> & -> & E3 & R3). assert (0 <= c3 <= 1) by lia.
  rewrite (u32_small (n4 + c3)) by lia. change (Z.shiftl 1 26) with (2 ^ 26).
  set (big := 2 ^ 26 <=? n4 + c3).
  assert (Hb : u32 (u32 (n4 + c3 - 2 ^ 26) / 2 ^ 31 - 1) = if big then 0xffffffff else 0).
  { unfold big, u32. destruct (Z.leb_spec (2 ^ 26) (n4 + c3)); Z.to_euclidean_division_equations; lia. }
  assert (Hg4 : 0 <= u32 (n4 + c3 - 2 ^ 26) < 2 ^ 32 /\ (big = true -> u32 (n4 + c3 - 2 ^ 26) = n4 + c3 - 2 ^ 26)).
  { split; [apply u32_range|]. unfold big. rewrite Z.leb_le. intros. apply u32_small. lia. }
  destruct Hg4 as [Hg4 Hg4']. rewrite Hb, !choose_mask by lia.
  unfold full_limbs, val. unfold big in *. cbn [l0 l1 l2 l3 l4].
  destruct (Z.leb_spec (2 ^ 26) (n4 + c3)) as [Hge|Hlt].
  - rewrite Hg4' by done. split; [constructor; cbn [l0 l1 l2 l3 l4]; lia|].
    apply Z.mod_unique_pos with 1; unfold poly_p; lia.
  - split; [constructor; cbn [l0 l1 l2 l3 l4]; lia|].
    symmetry. apply Z.mod_small. unfold poly_p. lia.
Qed.

Lemma donna_finish_spec h :
  acc_limbs h -> full_limbs (donna_finish h) /\ val (donna_finish h) = val h mod poly_p.
Proof.
  destruct h as [h0 h1 h2 h3 h4]. intros Ha.
  destruct (finish_carries _ _ _ _ _ Ha) as (d0 & m0 & d1 & m1 & d2 & m2 & d3 & m3 & d4 & m4 & e0 & n0
    & E0 & E1 & E2 & E3 & E4 & E5 & Hd & Hf & R0 & R1 & Q).
  destruct Ha as [A0 A1 A2 A3 A4]. pose proof Hf as [F0 F1 F2 F3 F4]. cbn [l0 l1 l2 l3 l4] in *.
  destruct Q as (Q0 & M0 & Q1 & M1 & Q2 & M2 & Q3 & M3 & Q4 & M4 & Q5 & M5).
  unfold donna_finish. cbn [l0 l1 l2 l3 l4]. rewrite !land_26, !Z.shiftr_div_pow2 by lia.
  rewrite Q0, M0, (u32_small (h1 + d0)), Q1, M1 by lia. rewrite (u32_small (h2 + d1)), Q2, M2 by lia.
  rewrite (u32_small (h3 + d2)), Q3, M3 by lia. rewrite (u32_small (h4 + d3)), Q4, M4 by lia.
  rewrite (u32_small (d4 * 5)), (u32_small (m0 + d4 * 5)), Q5, M5 by lia.
  rewrite (u32_small (m1 + e0)) by lia.
  destruct (finish_choice _ _ _ _ _ Hf) as [Hr Hv]. split; [exact Hr|].
  etransitivity; [exact Hv|].
  assert (Hval : val (mk_limbs h0 h1 h2 h3 h4) = val (mk_limbs n0 (m1 + e0) m2 m3 m4) + d4 * poly_p).
  { unfold val, poly_p. cbn [l0 l1 l2 l3 l4]. lia. }
  by rewrite Hval, Z_mod_plus_full.
Qed.

(** Four words of 32 bits and their carries. *)
Lemma u32to8_le f : U32TO8_LE f = le_bytes 4 (f mod 2 ^ 32).
Proof.
  change (2 ^ 32) with (256 ^ Z.of_nat 4). rewrite le_bytes_wrap. unfold U32TO8_LE, le_bytes.
  rewrite !Z.shiftr_div_pow2 by lia. change (2 ^ 16) with (256 * 256). change (2 ^ 24) with (256 * 256 * 256).
  change (2 ^ 8) with 256. by rewrite <- !Z.div_div by lia.
Qed.

Lemma le_bytes_app n k z : le_bytes (n + k) z = le_bytes n z ++ le_bytes k (z / 256 ^ Z.of_nat n).
Proof.
  revert z. induction n as [|n IH]; intros z; [by rewrite Z.div_1_r|].
  change (S n + k)%nat with (S (n + k)). cbn [le_bytes app]. unfold le_bytes; fold le_bytes.
  cbn [app]. f_equal. rewrite IH, Z.div_div, Nat2Z.inj_succ, Z.pow_succ_r by lia. done.
Qed.

Lemma words_bytes w0 w1 w2 w3 :
  0 <= w0 < 2 ^ 32 -> 0 <= w1 < 2 ^ 32 -> 0 <= w2 < 2 ^ 32 ->
  le_bytes 4 w0 ++ le_bytes 4 w1 ++ le_bytes 4 w2 ++ le_bytes 4 w3 = le_bytes 16 (block_val w0 w1 w2 w3).
Proof.
  intros H0 H1 H2. unfold block_val. change 16%nat with (4 + (4 + (4 + 4)))%nat.
  rewrite !le_bytes_app. change (256 ^ Z.of_nat 4) with (2 ^ 32). rewrite !Z.div_div by lia.
  assert (Hlow : forall w z, le_bytes 4 (w + 2 ^ 32 * z) = le_bytes 4 w).
  { intros w z. rewrite <- (le_bytes_wrap 4 (w + _)), <- (le_bytes_wrap 4 w).
    change (256 ^ Z.of_nat 4) with (2 ^ 32). by rewrite (Z.mul_comm (2 ^ 32)), Z_mod_plus_full. }
  replace (w0 + 2 ^ 32 * w1 + 2 ^ 64 * w2 + 2 ^ 96 * w3) with (w0 + 2 ^ 32 * (w1 + 2 ^ 32 * (w2 + 2 ^ 32 * w3))) by lia.
  rewrite Hlow. f_equal.
  replace ((w0 + _) / 2 ^ 32) with (w1 + 2 ^ 32 * (w2 + 2 ^ 32 * w3)) by (Z.to_euclidean_division_equations; lia).
  rewrite Hlow. f_equal.
  replace ((w0 + _) / (2 ^ 32 * 2 ^ 32)) with (w2 + 2 ^ 32 * w3) by (Z.to_euclidean_division_equations; lia).
  rewrite Hlow. f_equal. f_equal. Z.to_euclidean_division_equations. lia.
Qed.

(** A word of the tag: the end of a limb and the start of the next one. *)
Lemma tag_word x b j :
  0 <= j <= 32 -> 0 <= x < 2 ^ j -> Z.lor x (u32 (Z.shiftl b j)) = (x + 2 ^ j * b) mod 2 ^ 32.
Proof.
  intros Hj Hx. unfold u32. rewrite (Z.shiftl_mul_pow2 b) by lia.
  assert (Hs : 2 ^ 32 = 2 ^ j * 2 ^ (32 - j)) by (rewrite <- Z.pow_add_r by lia; f_equal; lia).
  assert (Hj0 : 0 < 2 ^ j) by (apply Z.pow_pos_nonneg; lia).
  assert (Hj1 : 0 < 2 ^ (32 - j)) by (apply Z.pow_pos_nonneg; lia).
  rewrite Hs, (Z.mul_comm b), Z.mul_mod_distr_l by lia. rewrite (Z.mul_comm (2 ^ j) (b mod _)).
  rewrite <- Z.shiftl_mul_pow2, Z.lor_comm, lor_low by lia.
  rewrite Z.rem_mul_r by lia. rewrite (Z.mul_comm (2 ^ j) b), Z_mod_plus_full, (Z.mod_small x) by lia.
  rewrite Z.div_add, (Z.div_small x) by lia. rewrite Z.add_0_l. lia.
Qed.

Lemma full_limbs_words h :
  full_limbs h ->
  Z.lor (l0 h) (u32 (Z.shiftl (l1 h) 26)) = val h mod 2 ^ 32
  /\ Z.lor (Z.shiftr (l1 h) 6) (u32 (Z.shiftl (l2 h) 20)) = val h / 2 ^ 32 mod 2 ^ 32
  /\ Z.lor (Z.shiftr (l2 h) 12) (u32 (Z.shiftl (l3 h) 14)) = val h / 2 ^ 64 mod 2 ^ 32
  /\ Z.lor (Z.shiftr (l3 h) 18) (u32 (Z.shiftl (l4 h) 8)) = val h / 2 ^ 96 mod 2 ^ 32.
Proof.
  intros [H0 H1 H2 H3 H4]. rewrite !Z.shiftr_div_pow2 by lia.
  rewrite !tag_word by (try lia; Z.to_euclidean_division_equations; lia). unfold val.
  split_and!; Z.to_euclidean_division_equations; lia.
Qed.

Lemma donna_tag_spec h key :
  full_limbs h -> 32 <= zlen key ->
  donna_tag h key = Some (le_bytes 16 (val h + le_val (ztake 16 (zdrop 16 key)))).
Proof.
  intros Hf Hk.
  destruct (words_16 (zdrop 16 key)) as (k0 & k1 & k2 & k3 & E0 & E1 & E2 & E3 & (B0 & B1 & B2 & B3) & Hv);
    [rewrite zlen_drop; lia|]. rewrite !zdrop_drop in E1, E2, E3 by lia.
  destruct (full_limbs_words h Hf) as (W0 & W1 & W2 & W3).
  change (16 + 4) with 20 in E1. change (16 + 8) with 24 in E2. change (16 + 12) with 28 in E3.
  unfold donna_tag.
  rewrite E0, E1, E2, E3, W0, W1, W2, W3. cbn [mbind option_bind].
  assert (Hval : val h mod 2 ^ 128 = block_val (val h mod 2 ^ 32) (val h / 2 ^ 32 mod 2 ^ 32)
    (val h / 2 ^ 64 mod 2 ^ 32) (val h / 2 ^ 96 mod 2 ^ 32)).
  { unfold block_val. Z.to_euclidean_division_equations. lia. }
  assert (Hm : forall x, 0 <= x mod 2 ^ 32 < 2 ^ 32) by (intros; apply Z.mod_pos_bound; lia).
  pose proof (Hm (val h)). pose proof (Hm (val h / 2 ^ 32)). pose proof (Hm (val h / 2 ^ 64)).
  pose proof (Hm (val h / 2 ^ 96)).
  set (w0 := val h mod 2 ^ 32) in *. set (w1 := val h / 2 ^ 32 mod 2 ^ 32) in *.
  set (w2 := val h / 2 ^ 64 mod 2 ^ 32) in *. set (w3 := val h / 2 ^ 96 mod 2 ^ 32) in *.
  clearbody w0 w1 w2 w3. rewrite (u64_small (w0 + k0)), (u64_small (w1 + k1)), (u64_small (w2 + k2)),
    (u64_small (w3 + k3)) by lia. rewrite !u32to8_le.
  destruct (split_32 (w0 + k0)) as (d0 & m0 & -> & -> & Q0 & R0). rewrite (u64_small (w1 + k1 + d0)) by lia.
  destruct (split_32 (w1 + k1 + d0)) as (d1 & m1 & -> & -> & Q1 & R1). rewrite (u64_small (w2 + k2 + d1)) by lia.
  destruct (split_32 (w2 + k2 + d1)) as (d2 & m2 & -> & -> & Q2 & R2). rewrite (u64_small (w3 + k3 + d2)) by lia.
  destruct (split_32 (w3 + k3 + d2)) as (d3 & m3 & _ & -> & Q3 & R3).
  rewrite words_bytes by lia. f_equal.
  rewrite <- (le_bytes_wrap 16 (val h + _)), <- (le_bytes_wrap 16 (block_val m0 m1 m2 m3)). f_equal.
  change (256 ^ Z.of_nat 16) with (2 ^ 128).
  rewrite <- Z.add_mod_idemp_l, Hval, Hv by done. unfold block_val.
  replace (w0 + 2 ^ 32 * w1 + 2 ^ 64 * w2 + 2 ^ 96 * w3 + (k0 + 2 ^ 32 * k1 + 2 ^ 64 * k2 + 2 ^ 96 * k3))
    with (m0 + 2 ^ 32 * m1 + 2 ^ 64 * m2 + 2 ^ 96 * m3 + d3 * 2 ^ 128) by lia.
  by rewrite Z_mod_plus_full.
Qed.

(** ** The property *)

Lemma poly1305_auth_spec m inlen key :
  32 <= zlen key -> 0 <= inlen <= zlen m -> poly1305_auth m inlen key = Some (poly1305_mac (ztake inlen m) key).
Proof.
  intros Hk Hn. unfold poly1305_auth. destruct (clamp_key_spec key) as (r & -> & Hr & Hv); [lia|].
  cbn [mbind option_bind].
  assert (Hl : Z.of_nat (length (ztake inlen m)) = inlen).
  { fold (zlen (ztake inlen m)). rewrite zlen_take. lia. }
  destruct (donna_blocks_spec r (length (ztake inlen m)) Hr (S (S (Z.to_nat (inlen / 16)))) (mk_limbs 0 0 0 0 0) m inlen)
    as (h & -> & Ha & Hh).
  { constructor; cbn; lia. }
  { lia. }
  { lia. }
  { pose proof (Z.div_pos inlen 16). lia. }
  cbn [mbind option_bind]. destruct (donna_finish_spec h Ha) as [Hf Hfv].
  rewrite donna_tag_spec by done. rewrite Hfv, Hh, Hv. done.
Qed.

Lemma poly1305_mac_len m key : zlen (poly1305_mac m key) = POLY1305_TAGLEN.
Proof. unfold poly1305_mac. by rewrite zlen_le_bytes. Qed.

(** (C22) For every message and every key of 32 bytes or more, the code, with its limbs of 26 bits in 32 bit words and its lazy
    reductions, computes the authenticator of RFC 8439. *)
Theorem poly1305_auth_correct m inlen key :
  32 <= zlen key -> 0 <= inlen <= zlen m -> poly1305_auth m inlen key = Some (poly1305_mac (ztake inlen m) key).
Proof. apply poly1305_auth_spec. Qed.

Lemma poly1305_auth_correct_witness :
  poly1305_auth rfc_text 34 rfc_key = Some (poly1305_mac (ztake 34 rfc_text) rfc_key).
Proof. apply (poly1305_auth_correct rfc_text 34 rfc_key); vm_compute; [|split]; discriminate. Defined.
