(* ===== verification/Chacha.v ===== *)
(** * ChaCha20 ([libssh/src/external/chacha.c])

    The stream cipher of chacha20-poly1305: its state of sixteen 32 bit words,
    the unrolled double rounds and the loop over blocks of 64 bytes with its
    shorter last block, against the stream cipher that exclusive-ors a message
    with the blocks of consecutive counters. *)

From S2P Require Import Prelude Poly1305.

(** ** The code *)

(** [struct chacha_ctx]: [input], sixteen words. *)
Abbreviation chacha_ctx := (list Z).

(** [U8TO32_LITTLE] and [U32TO8_LITTLE] have the bodies of the macros of
    poly1305.c. *)
Definition U8TO32_LITTLE (p : bytes) : run Z := U8TO32_LE p.
Definition U32TO8_LITTLE (v : Z) : bytes := U32TO8_LE v.

Definition ROTATE (v c : Z) : Z := Z.lor (u32 (Z.shiftl v c)) (Z.shiftr v (32 - c)).
Definition PLUS (v w : Z) : Z := u32 (v + w).
Definition PLUSONE (v : Z) : Z := PLUS v 1.

Definition QUARTERROUND (a b c d : Z) : Z * Z * Z * Z :=
  let a := PLUS a b in let d := ROTATE (Z.lxor d a) 16 in
  let c := PLUS c d in let b := ROTATE (Z.lxor b c) 12 in
  let a := PLUS a b in let d := ROTATE (Z.lxor d a) 8 in
  let c := PLUS c d in let b := ROTATE (Z.lxor b c) 7 in
  (a, b, c, d).

Definition sigma : bytes := cstr "expand 32-byte k".
Definition tau : bytes := cstr "expand 16-byte k".

(** [n] words of the bytes at [p]. *)
Fixpoint load_words (n : nat) (p : bytes) : run (list Z) :=
  match n with
  | O => Some []
  | S n => w ← U8TO32_LITTLE p; ws ← load_words n (zdrop 4 p); Some (w :: ws)
  end.

(** The words from index 4, 8 and 0 on are written; [x] keeps the others. *)
Definition chacha_keysetup (x : chacha_ctx) (k : bytes) (kbits : Z) : run chacha_ctx :=
  w4 ← load_words 4 k;
  let '(k, constants) := if kbits =? 256 then (zdrop 16 k, sigma) else (k, tau) in
  w8 ← load_words 4 k;
  w0 ← load_words 4 constants;
  Some (w0 ++ w4 ++ w8 ++ drop 12 x).

Definition chacha_ivsetup (x : chacha_ctx) (iv : bytes) (counter : option bytes) : run chacha_ctx :=
  c ← match counter with None => Some [0; 0] | Some c => load_words 2 c end;
  v ← load_words 2 iv;
  Some (take 12 x ++ c ++ v).

(** One turn of the loop over the rounds. *)
Definition double_round (x : list Z) : run (list Z) :=
  match x with
  | [v0; v1; v2; v3; v4; v5; v6; v7; v8; v9; v10; v11; v12; v13; v14; v15] =>
      let '(v0, v4, v8, v12) := QUARTERROUND v0 v4 v8 v12 in
      let '(v1, v5, v9, v13) := QUARTERROUND v1 v5 v9 v13 in
      let '(v2, v6, v10, v14) := QUARTERROUND v2 v6 v10 v14 in
      let '(v3, v7, v11, v15) := QUARTERROUND v3 v7 v11 v15 in
      let '(v0, v5, v10, v15) := QUARTERROUND v0 v5 v10 v15 in
      let '(v1, v6, v11, v12) := QUARTERROUND v1 v6 v11 v12 in
      let '(v2, v7, v8, v13) := QUARTERROUND v2 v7 v8 v13 in
      let '(v3, v4, v9, v14) := QUARTERROUND v3 v4 v9 v14 in
      Some [v0; v1; v2; v3; v4; v5; v6; v7; v8; v9; v10; v11; v12; v13; v14; v15]
  | _ => None
  end.

(** [for (i = 20; i > 0; i -= 2)]: [n] turns. *)
Fixpoint rounds (n : nat) (x : list Z) : run (list Z) :=
  match n with O => Some x | S n => x ← double_round x; rounds n x end.

(** The words of the key stream for the state [j]. *)
Definition keystream_words (j : list Z) : run (list Z) :=
  x ← rounds 10 j; Some (zip_with PLUS x j).

(** [j12] and [j13] for the next block. *)
Definition next_counter (j : list Z) : run (list Z) :=
  j12 ← j !! 12%nat;
  j13 ← j !! 13%nat;
  let j12 := PLUSONE j12 in
  let j13 := if j12 =? 0 then PLUSONE j13 else j13 in
  Some (<[13%nat := j13]> (<[12%nat := j12]> j)).

(** The 64 bytes written at [c] for the 64 bytes at [m]. *)
Definition chacha_block (j : list Z) (m : bytes) : run bytes :=
  x ← keystream_words j;
  ms ← load_words 16 m;
  Some (concat (map U32TO8_LITTLE (zip_with Z.lxor x ms))).

(** The loop: what is written at [c], and the state of the counter.  For a last
    block of less than 64 bytes, [tmp] holds the message and then the result;
    [tmp0] is what it holds before, and the bytes of [m] after the first [n] are
    not read. *)
Fixpoint encrypt_loop (fuel : nat) (tmp0 : bytes) (j : list Z) (m : bytes) (n : Z) : run (bytes * list Z) :=
  match fuel with
  | O => None
  | S fuel =>
      if n <? 64 then
        tmp ← memcpy tmp0 0 m 0 n;
        c ← chacha_block j tmp;
        j ← next_counter j;
        Some (ztake n c, j)
      else
        c ← chacha_block j m;
        j ← next_counter j;
        if n <=? 64 then Some (c, j) else
        '(cs, j) ← encrypt_loop fuel tmp0 j (zdrop 64 m) (n - 64);
        Some (c ++ cs, j)
  end.

(** [chacha_encrypt_bytes (x, m, c, n)]: what [c] gets and the state after it. *)
Definition chacha_encrypt_bytes (tmp0 : bytes) (x : chacha_ctx) (m : bytes) (n : Z) : run (bytes * chacha_ctx) :=
  if n =? 0 then Some ([], x) else
  '(c, j) ← encrypt_loop (S (Z.to_nat (n / 64))) tmp0 x m n;
  j12 ← j !! 12%nat;
  j13 ← j !! 13%nat;
  Some (c, <[13%nat := j13]> (<[12%nat := j12]> x)).

(** The test vector of RFC 8439, section 2.3.2: the key stream of a block.  The
    96 bit nonce of the RFC is the last word of the counter here and the nonce. *)
Example chacha_rfc8439 :
  (x ← chacha_keysetup (replicate 16 0) (map z2b (map Z.of_nat (seq 0 32))) 256;
   x ← chacha_ivsetup x (map z2b [0; 0; 0; 0x4a; 0; 0; 0; 0]) (Some (map z2b [1; 0; 0; 0; 0; 0; 0; 9]));
   keystream_words x)
  = Some [0xe4e7f110; 0x15593bd1; 0x1fdd0f50; 0xc47120a3; 0xc7f4d1c7; 0x0368c033; 0x9aaa2204; 0x4e6cd4c3;
          0x466482d2; 0x09aa9f07; 0x05d7c214; 0xa2028bd9; 0xd19c12b5; 0xb94e16de; 0xe883d0cb; 0x4e3c50a2].
Proof. vm_compute. reflexivity. Qed.

(** ** The cipher as an exclusive or with a key stream *)

Record wf_ctx (x : chacha_ctx) : Prop := {
  ctx_len : length x = 16%nat;
  ctx_words : Forall (fun w => 0 <= w < 2 ^ 32) x
}.

(** The 64 bit counter of a state, and the state with another one. *)
Definition counter (x : chacha_ctx) : Z := nth 12 x 0 + 2 ^ 32 * nth 13 x 0.
Definition state_at (x : chacha_ctx) (i : Z) : chacha_ctx :=
  let c := u64 (counter x + i) in <[13%nat := c / 2 ^ 32]> (<[12%nat := c mod 2 ^ 32]> x).

Definition words_bytes_of (ws : list Z) : bytes := concat (map U32TO8_LITTLE ws).
Definition keystream_block (x : chacha_ctx) (i : Z) : bytes :=
  words_bytes_of (default [] (keystream_words (state_at x i))).

(** [n] blocks from the [i]th on. *)
Fixpoint keystream (x : chacha_ctx) (i : Z) (n : nat) : bytes :=
  match n with O => [] | S n => keystream_block x i ++ keystream x (i + 1) n end.

Definition xor_byte (a b : byte) : byte := z2b (Z.lxor (b2z a) (b2z b)).
Definition xor_bytes (a b : bytes) : bytes := zip_with xor_byte a b.
Definition blocks_of (n : Z) : Z := (n + 63) / 64.

(** *** Lemmas *)

Lemma z2b_lxor a b : z2b (Z.lxor a b) = xor_byte (z2b a) (z2b b).
Proof.
  unfold xor_byte. rewrite !b2z_z2b. change 256 with (2 ^ 8). rewrite <- !Z.land_ones by lia.
  rewrite <- (z2b_mod (Z.lxor a b)), <- (z2b_mod (Z.lxor (Z.land a _) _)). f_equal.
  change 256 with (2 ^ 8). rewrite <- !Z.land_ones by lia. apply Z.bits_inj'. intros n Hn.
  rewrite !Z.land_spec, !Z.lxor_spec, !Z.land_spec. by destruct (Z.testbit a n), (Z.testbit b n), (Z.testbit (Z.ones 8) n).
Qed.

Lemma xor_bytes_comm a b : xor_bytes a b = xor_bytes b a.
Proof.
  unfold xor_bytes. revert b. induction a as [|x a IH]; intros [|y b]; try done. cbn [zip_with].
  rewrite IH. unfold xor_byte. by rewrite Z.lxor_comm.
Qed.

Lemma u32to8_lxor a b : U32TO8_LITTLE (Z.lxor a b) = xor_bytes (U32TO8_LITTLE a) (U32TO8_LITTLE b).
Proof.
  unfold U32TO8_LITTLE, U32TO8_LE, xor_bytes. cbn [zip_with]. by rewrite !Z.shiftr_lxor, !z2b_lxor.
Qed.

Lemma words_bytes_len ws : zlen (words_bytes_of ws) = 4 * Z.of_nat (length ws).
Proof.
  unfold words_bytes_of. induction ws as [|w ws IH]; [done|]. cbn [map concat length].
  rewrite zlen_app, IH. change (zlen (U32TO8_LITTLE w)) with 4. lia.
Qed.

Lemma words_bytes_lxor x ws :
  words_bytes_of (zip_with Z.lxor x ws) = xor_bytes (words_bytes_of x) (words_bytes_of ws).
Proof.
  revert ws. induction x as [|a x IH]; intros [|b ws]; try done.
  unfold words_bytes_of in *. cbn [zip_with map concat]. rewrite u32to8_lxor, IH.
  unfold xor_bytes. by rewrite zip_with_app.
Qed.

Lemma u8to32_bytes p : 4 <= zlen p -> exists w, U8TO32_LITTLE p = Some w /\ U32TO8_LITTLE w = ztake 4 p.
Proof.
  intros Hp. exists (le_val (ztake 4 p)). split; [by apply u8to32_le|].
  unfold U32TO8_LITTLE. rewrite u32to8_le. change (2 ^ 32) with (256 ^ Z.of_nat 4). rewrite le_bytes_wrap.
  replace 4%nat with (length (ztake 4 p)); [apply le_bytes_val|].
  apply Nat2Z.inj. fold (zlen (ztake 4 p)). rewrite zlen_take. lia.
Qed.

Lemma load_words_bytes n p :
  4 * Z.of_nat n <= zlen p ->
  exists ws, load_words n p = Some ws /\ length ws = n /\ words_bytes_of ws = ztake (4 * Z.of_nat n) p.
Proof.
  revert p. induction n as [|n IH]; intros p Hp; cbn [load_words].
  { exists []. by rewrite ztake_0. }
  destruct (u8to32_bytes p) as (w & -> & Hw); [lia|]. cbn [mbind option_bind].
  destruct (IH (zdrop 4 p)) as (ws & -> & Hl & Hws); [rewrite zlen_drop; lia|]. cbn [mbind option_bind].
  exists (w :: ws). split_and!; [done|cbn [length]; lia|]. unfold words_bytes_of in *. cbn [map concat].
  rewrite Hw, Hws. rewrite <- (ztake_drop 4 (ztake (4 * Z.of_nat (S n)) p)). rewrite ztake_take_le, zdrop_take by lia.
  do 2 f_equal. lia.
Qed.

Lemma double_round_total x : length x = 16%nat -> exists y, double_round x = Some y /\ length y = 16%nat.
Proof.
  intros Hx. do 16 (destruct x as [|? x]; [discriminate Hx|]). destruct x; [|discriminate Hx].
  unfold double_round. repeat (match goal with |- context [QUARTERROUND ?a ?b ?c ?d] =>
    destruct (QUARTERROUND a b c d) as [[[? ?] ?] ?] end). eexists. by split.
Qed.

Lemma rounds_total n x : length x = 16%nat -> exists y, rounds n x = Some y /\ length y = 16%nat.
Proof.
  revert x. induction n as [|n IH]; intros x Hx; cbn [rounds]; [eauto|].
  destruct (double_round_total x Hx) as (y & -> & Hy). cbn [mbind option_bind]. by apply IH.
Qed.

Lemma keystream_total x : length x = 16%nat -> exists ks, keystream_words x = Some ks /\ length ks = 16%nat.
Proof.
  intros Hx. unfold keystream_words. destruct (rounds_total 10 x Hx) as (y & -> & Hy). cbn [mbind option_bind].
  eexists. split; [done|]. rewrite length_zip_with. lia.
Qed.

Lemma state_at_len x i : length (state_at x i) = length x.
Proof. unfold state_at. cbv zeta. by rewrite !length_insert. Qed.

Lemma keystream_block_len x i : length x = 16%nat -> zlen (keystream_block x i) = 64.
Proof.
  intros Hx. unfold keystream_block. destruct (keystream_total (state_at x i)) as (ks & -> & Hk);
    [by rewrite state_at_len|]. cbn [default from_option id]. rewrite words_bytes_len, Hk. done.
Qed.

Lemma chacha_block_spec x i m :
  length x = 16%nat -> 64 <= zlen m ->
  chacha_block (state_at x i) m = Some (xor_bytes (ztake 64 m) (keystream_block x i)).
Proof.
  intros Hx Hm. unfold chacha_block, keystream_block.
  destruct (keystream_total (state_at x i)) as (ks & -> & Hk); [by rewrite state_at_len|].
  cbn [mbind option_bind default from_option id]. destruct (load_words_bytes 16 m) as (ws & -> & Hl & Hw); [done|].
  cbn [mbind option_bind]. f_equal. change (4 * Z.of_nat 16) with 64 in Hw. rewrite <- Hw.
  fold (words_bytes_of (zip_with Z.lxor ks ws)). rewrite words_bytes_lxor.
  apply xor_bytes_comm.
Qed.

Lemma next_counter_spec x i :
  wf_ctx x -> 0 <= i -> next_counter (state_at x i) = Some (state_at x (i + 1)).
Proof.
  intros [Hx Hw] Hi. unfold next_counter, state_at. cbv zeta.
  rewrite (list_lookup_insert_ne _ 13 12), list_lookup_insert_eq by (rewrite ?length_insert; lia). cbn [mbind option_bind].
  rewrite list_lookup_insert_eq by (rewrite ?length_insert; lia). cbn [mbind option_bind]. f_equal.
  set (c := u64 (counter x + i)). set (c' := u64 (counter x + (i + 1))).
  assert (Hc : 0 <= c < 2 ^ 64) by apply u64_range.
  assert (Hs : c' = u64 (c + 1)).
  { unfold c', c, u64. rewrite Z.add_mod_idemp_l by done. f_equal. lia. }
  pose proof (Z.div_mod c (2 ^ 32) ltac:(done)) as Hd. pose proof (Z.mod_pos_bound c (2 ^ 32) ltac:(done)) as Hr.
  set (q := c / 2 ^ 32) in *. set (r := c mod 2 ^ 32) in *. clearbody c' q r.
  assert (Hcs : c' = if r + 1 =? 2 ^ 32 then if q + 1 =? 2 ^ 32 then 0 else 2 ^ 32 * (q + 1)
                     else 2 ^ 32 * q + (r + 1)).
  { rewrite Hs. destruct (Z.eqb_spec (r + 1) (2 ^ 32)); [destruct (Z.eqb_spec (q + 1) (2 ^ 32))|].
    - by replace (c + 1) with (2 ^ 64) by lia.
    - rewrite u64_small by lia. lia.
    - rewrite u64_small by lia. lia. }
  assert (Hsplit : PLUSONE r = c' mod 2 ^ 32 /\ (if PLUSONE r =? 0 then PLUSONE q else q) = c' / 2 ^ 32).
  { rewrite Hcs. unfold PLUSONE, PLUS. destruct (Z.eqb_spec (r + 1) (2 ^ 32)) as [->|].
    - change (u32 (2 ^ 32)) with 0. cbn [Z.eqb]. destruct (Z.eqb_spec (q + 1) (2 ^ 32)) as [->|]; [done|].
      rewrite u32_small by lia. rewrite Z.mul_comm, Z.mod_mul, Z.div_mul by lia. done.
    - rewrite u32_small by lia. destruct (Z.eqb_spec (r + 1) 0); [lia|].
      rewrite (Z.mul_comm (2 ^ 32)), (Z.add_comm (q * 2 ^ 32)), Z_mod_plus_full, Z.div_add by lia.
      by rewrite (Z.mod_small (r + 1)), (Z.div_small (r + 1)) by lia. }
  destruct Hsplit as [H12 H13].
  rewrite H13, H12. rewrite (list_insert_insert_ne (<[12%nat := r]> x) 12 13) by lia.
  by rewrite !list_insert_insert_eq.
Qed.

Lemma xor_bytes_len a b : zlen (xor_bytes a b) = Z.min (zlen a) (zlen b).
Proof. unfold xor_bytes, zlen. rewrite length_zip_with. lia. Qed.

Lemma xor_bytes_app a1 a2 b1 b2 :
  zlen a1 = zlen b1 -> xor_bytes (a1 ++ a2) (b1 ++ b2) = xor_bytes a1 b1 ++ xor_bytes a2 b2.
Proof. unfold zlen. intros H. apply zip_with_app. lia. Qed.

Lemma xor_bytes_trunc a b1 b2 : zlen a <= zlen b1 -> xor_bytes a (b1 ++ b2) = xor_bytes a b1.
Proof.
  unfold xor_bytes, zlen. revert b1. induction a as [|x a IH]; intros [|y b1] H; try done; cbn [length] in H; try lia.
  cbn [app zip_with]. rewrite IH by lia. done.
Qed.

Lemma xor_bytes_involutive a b : zlen a <= zlen b -> xor_bytes (xor_bytes a b) b = a.
Proof.
  unfold xor_bytes, zlen. revert b. induction a as [|x a IH]; intros [|y b] H; try done; cbn [length] in H; try lia.
  cbn [zip_with]. rewrite IH by lia. f_equal. unfold xor_byte at 2.
  rewrite <- (z2b_b2z y) at 2. rewrite <- z2b_lxor, Z.lxor_assoc, Z.lxor_nilpotent, Z.lxor_0_r. apply z2b_b2z.
Qed.

Lemma keystream_len x i n : length x = 16%nat -> zlen (keystream x i n) = 64 * Z.of_nat n.
Proof.
  intros Hx. revert i. induction n as [|n IH]; intros i; cbn [keystream]; [done|].
  rewrite zlen_app, keystream_block_len, IH by done. lia.
Qed.

Lemma blocks_of_range n : 0 < n -> 64 * (blocks_of n - 1) < n <= 64 * blocks_of n.
Proof. intros. unfold blocks_of. Z.to_euclidean_division_equations. lia. Qed.

(** The loop from the [i]th block on. *)
Lemma encrypt_loop_spec tmp0 x : wf_ctx x -> zlen tmp0 = 64 -> forall fuel i m n,
  0 <= i -> 0 < n <= zlen m -> n / 64 + 1 <= Z.of_nat fuel ->
  encrypt_loop fuel tmp0 (state_at x i) m n
  = Some (xor_bytes (ztake n m) (keystream x i (Z.to_nat (blocks_of n))), state_at x (i + blocks_of n)).
Proof.
  intros Hwf Ht. pose proof (ctx_len _ Hwf) as Hx.
  induction fuel as [|fuel IH]; intros i m n Hi Hn Hf; [pose proof (Z.div_pos n 64); lia|].
  cbn [encrypt_loop]. pose proof (keystream_block_len x i Hx) as Hk.
  destruct (Z.ltb_spec n 64) as [H64|H64].
  - assert (Hb : blocks_of n = 1) by (pose proof (blocks_of_range n); lia). rewrite Hb.
    rewrite memcpy_ok by lia. cbn [mbind option_bind]. rewrite (ztake_0 0), (zdrop_0 0) by lia. cbn [app].
    assert (Hti : zlen (ztake n m) = n) by (rewrite zlen_take; lia).
    rewrite chacha_block_spec by (done || (rewrite zlen_app, zlen_drop; lia)). cbn [mbind option_bind].
    rewrite next_counter_spec by done. cbn [mbind option_bind]. do 2 f_equal.
    change (keystream x i (Z.to_nat 1)) with (keystream_block x i ++ []). rewrite app_nil_r.
    rewrite (ztake_all 64) by (rewrite zlen_app, zlen_drop; lia).
    rewrite <- (ztake_drop n (keystream_block x i)) at 1.
    rewrite xor_bytes_app by (rewrite Hti, zlen_take; lia).
    rewrite ztake_app_le by (rewrite xor_bytes_len, Hti, zlen_take; lia).
    rewrite ztake_all by (rewrite xor_bytes_len, Hti, zlen_take; lia).
    rewrite <- (xor_bytes_trunc _ _ (zdrop n (keystream_block x i))) by (rewrite Hti, zlen_take; lia).
    by rewrite ztake_drop.
  - rewrite chacha_block_spec by (done || lia). cbn [mbind option_bind].
    rewrite next_counter_spec by done. cbn [mbind option_bind].
    destruct (Z.leb_spec n 64) as [Hle|Hgt].
    + replace n with 64 in * by lia. change (blocks_of 64) with 1.
      change (keystream x i (Z.to_nat 1)) with (keystream_block x i ++ []). by rewrite app_nil_r.
    + assert (Hb : blocks_of n = 1 + blocks_of (n - 64)).
      { unfold blocks_of. replace (n + 63) with (n - 64 + 63 + 1 * 64) by lia. rewrite Z.div_add by lia. lia. }
      pose proof (blocks_of_range (n - 64) ltac:(lia)).
      rewrite IH; [|lia|rewrite zlen_drop; lia|].
      2: { replace n with (n - 64 + 1 * 64) in Hf by lia. rewrite Z.div_add in Hf by lia. lia. }
      cbn [mbind option_bind]. rewrite Hb. replace (Z.to_nat (1 + _)) with (S (Z.to_nat (blocks_of (n - 64)))) by lia.
      cbn [keystream]. rewrite <- (ztake_drop 64 (ztake n m)). rewrite ztake_take_le, zdrop_take by lia.
      rewrite xor_bytes_app by (rewrite Hk, zlen_take; lia). do 2 f_equal. f_equal. lia.
Qed.

Lemma state_at_0 x : wf_ctx x -> state_at x 0 = x.
Proof.
  intros [Hx Hw]. do 16 (destruct x as [|? x]; [discriminate Hx|]). destruct x; [|discriminate Hx].
  unfold state_at, counter. cbn [nth].
  repeat match goal with H : Forall _ (_ :: _) |- _ => apply Forall_cons in H as [? H] end.
  rewrite Z.add_0_r, u64_small by lia. cbn.
  match goal with |- context [(?a + 2 ^ 32 * ?b) / _] => 
    replace ((a + 2 ^ 32 * b) / 2 ^ 32) with b by (Z.to_euclidean_division_equations; lia);
    replace ((a + 2 ^ 32 * b) mod 2 ^ 32) with a by (Z.to_euclidean_division_equations; lia) end.
  done.
Qed.

Lemma state_at_parts x i : length x = 16%nat ->
  exists a b, state_at x i !! 12%nat = Some a /\ state_at x i !! 13%nat = Some b
    /\ <[13%nat := b]> (<[12%nat := a]> x) = state_at x i.
Proof.
  intros Hx. unfold state_at. cbv zeta. set (c := u64 _). exists (c mod 2 ^ 32), (c / 2 ^ 32).
  rewrite (list_lookup_insert_ne _ 13 12), !list_lookup_insert_eq by (rewrite ?length_insert; lia). done.
Qed.

(** *** The functions *)

Lemma chacha_encrypt_bytes_spec tmp0 x m n :
  wf_ctx x -> zlen tmp0 = 64 -> 0 <= n <= zlen m ->
  chacha_encrypt_bytes tmp0 x m n
  = Some (xor_bytes (ztake n m) (keystream x 0 (Z.to_nat (blocks_of n))), state_at x (blocks_of n)).
Proof.
  intros Hwf Ht Hn. unfold chacha_encrypt_bytes. destruct (Z.eqb_spec n 0) as [->|Hne].
  - change (blocks_of 0) with 0. rewrite ztake_0, state_at_0 by (done || lia). done.
  - rewrite <- (state_at_0 x) at 1 by done.
    rewrite encrypt_loop_spec by (done || lia || (pose proof (Z.div_pos n 64); lia)).
    cbn [mbind option_bind]. change (0 + blocks_of n) with (blocks_of n).
    destruct (state_at_parts x (blocks_of n) (ctx_len _ Hwf)) as (a & b & -> & -> & Hs).
    cbn [mbind option_bind]. by rewrite Hs.
Qed.

(** (C23) [chacha_encrypt_bytes] is the exclusive or of the message with the blocks of
    the key stream from the current counter on, and leaves the counter after
    them; what is in [tmp] at first does not matter. *)
Theorem chacha_encrypt_bytes_correct tmp0 x m n :
  wf_ctx x -> zlen tmp0 = 64 -> 0 <= n <= zlen m ->
  chacha_encrypt_bytes tmp0 x m n
  = Some (xor_bytes (ztake n m) (keystream x 0 (Z.to_nat (blocks_of n))), state_at x (blocks_of n)).
Proof. apply chacha_encrypt_bytes_spec. Qed.

Lemma chacha_encrypt_bytes_correct_witness :
  chacha_encrypt_bytes (zrep 64 Byte.x2a) (replicate 16 7) rfc_text (zlen rfc_text)
  = Some (xor_bytes (ztake (zlen rfc_text) rfc_text) (keystream (replicate 16 7) 0 (Z.to_nat (blocks_of (zlen rfc_text)))),
          state_at (replicate 16 7) (blocks_of (zlen rfc_text))).
Proof.
  apply (chacha_encrypt_bytes_correct (zrep 64 Byte.x2a) (replicate 16 7) rfc_text (zlen rfc_text)).
  - constructor; [reflexivity|]. cbn. repeat (constructor; [lia|]). constructor.
  - reflexivity.
  - split; [vm_compute; discriminate|lia].
Defined.

Lemma load_words_range n p ws : load_words n p = Some ws -> length ws = n /\ Forall (fun w => 0 <= w < 2 ^ 32) ws.
Proof.
  revert p ws. induction n as [|n IH]; intros p ws; cbn [load_words]; [by intros [= <-]|].
  destruct (U8TO32_LITTLE p) as [w|] eqn:Hw; [|done]. cbn [mbind option_bind].
  destruct (load_words n (zdrop 4 p)) as [ws'|] eqn:Hws; [|done]. intros [= <-].
  destruct (IH _ _ Hws) as [Hl Hf]. split; [cbn [length]; lia|]. constructor; [|done].
  assert (Hp : 4 <= zlen p).
  { unfold U8TO32_LITTLE, U8TO32_LE in Hw. do 4 (destruct p as [|? p]; [done|]). rewrite !zlen_cons. pose proof (zlen_nonneg p). lia. }
  unfold U8TO32_LITTLE in Hw. rewrite u8to32_le in Hw by done. injection Hw as <-.
  pose proof (le_val_range (ztake 4 p)) as Hr. replace (zlen (ztake 4 p)) with 4 in Hr by (rewrite zlen_take; lia).
  exact Hr.
Qed.

Lemma keysetup_spec x k :
  length x = 16%nat -> Forall (fun w => 0 <= w < 2 ^ 32) (drop 12 x) -> 32 <= zlen k ->
  exists y, chacha_keysetup x k 256 = Some y /\ wf_ctx y
    /\ forall x', length x' = 16%nat -> exists y', chacha_keysetup x' k 256 = Some y' /\ take 12 y' = take 12 y.
Proof.
  intros Hx Hf Hk. unfold chacha_keysetup. change (256 =? 256) with true. cbv iota.
  destruct (load_words_bytes 4 k) as (w4 & E4 & L4 & _); [lia|]. rewrite E4. cbn [mbind option_bind].
  destruct (load_words_bytes 4 (zdrop 16 k)) as (w8 & E8 & L8 & _); [rewrite zlen_drop; lia|].
  rewrite E8. cbn [mbind option_bind].
  destruct (load_words_bytes 4 sigma) as (w0 & E0 & L0 & _); [done|]. rewrite E0. cbn [mbind option_bind].
  eexists. split_and!; [done| |].
  - constructor; [rewrite !length_app, length_drop; lia|].
    rewrite !Forall_app. split_and!; [eapply load_words_range; eassumption..|done].
  - intros x' Hx'. eexists. split; [done|]. rewrite !app_assoc.
    rewrite (take_app_le _ (drop 12 x')), (take_app_le _ (drop 12 x)) by (rewrite !length_app; lia). done.
Qed.

Lemma ivsetup_spec x iv c :
  wf_ctx x -> 8 <= zlen iv -> 8 <= zlen c ->
  exists y, chacha_ivsetup x iv (Some c) = Some y /\ wf_ctx y
    /\ forall x', take 12 x' = take 12 x -> chacha_ivsetup x' iv (Some c) = Some y.
Proof.
  intros [Hx Hf] Hi Hc. unfold chacha_ivsetup.
  destruct (load_words_bytes 2 c) as (wc & Ec & Lc & _); [lia|]. rewrite Ec. cbn [mbind option_bind].
  destruct (load_words_bytes 2 iv) as (wi & Ei & Li & _); [lia|]. rewrite Ei. cbn [mbind option_bind].
  eexists. split_and!; [done| |].
  - constructor; [rewrite !length_app, length_take; lia|].
    rewrite !Forall_app. split_and!; [by apply Forall_take|eapply load_words_range; eassumption..].
  - intros x' Hx'. by rewrite Hx'.
Qed.

(** The counter is not part of what a new initialisation vector keeps. *)
Lemma state_at_key x i : take 12 (state_at x i) = take 12 x.
Proof. unfold state_at. cbv zeta. by rewrite !take_insert_ge by lia. Qed.

Lemma state_at_wf x i : wf_ctx x -> wf_ctx (state_at x i).
Proof.
  intros [Hx Hf]. constructor; [by rewrite state_at_len|]. unfold state_at. cbv zeta.
  assert (Hc : 0 <= u64 (counter x + i) < 2 ^ 64) by apply u64_range. set (c := u64 _) in *. clearbody c.
  apply Forall_insert; [apply Forall_insert; [done|]|]; Z.to_euclidean_division_equations; lia.
Qed.
