(* ===== verification/Chachapoly.v ===== *)
(** * chacha20-poly1305@openssh.com ([libssh/src/chachapoly.c])

    The authenticated cipher built of ChaCha20 and Poly1305: two keys, one for the
    length of a packet and one for the rest, and a tag under a one time key drawn
    from the second.  The decryption inverts the encryption, and it writes
    nothing unless the tag is the one of the packet. *)

From S2P Require Import Prelude Crypto Poly1305 Chacha.

(** ** The code *)

Definition CHACHA20_KEYLEN : Z := 32.

Record chacha20_poly1305_keysched := mk_sched { k1 : chacha_ctx; k2 : chacha_ctx }.

Definition zero_block_counter : bytes := zrep 8 Byte.x00.
Definition payload_block_counter : bytes := Byte.x01 :: zrep 7 Byte.x00.

Section Chachapoly.
Context `{Allocator}.

(** What the array [tmp] of [chacha_encrypt_bytes] holds before it is written. *)
Variable tmp0 : bytes.

(** [cipher->chacha20_schedule] is [None] for [NULL]. *)
Definition chacha20_set_encrypt_key (schedule : option chacha20_poly1305_keysched) (key IV : bytes)
    : run (Z * option chacha20_poly1305_keysched) :=
  sched ←
    match schedule with
    | Some sched => Some (Some sched)
    | None =>
        match malloc 128 with
        | None => Some None
        | Some p =>
            a ← load_words 16 p;
            b ← load_words 16 (zdrop 64 p);
            Some (Some (mk_sched a b))
        end
    end;
  match sched with
  | None => Some (-1, schedule)
  | Some sched =>
      b ← chacha_keysetup (k2 sched) key (CHACHA20_KEYLEN * 8);
      a ← chacha_keysetup (k1 sched) (zdrop CHACHA20_KEYLEN key) (CHACHA20_KEYLEN * 8);
      Some (0, Some (mk_sched a b))
  end.

(** The key of Poly1305 for the packet: the start of the block of counter 0. *)
Definition poly1305_key (k : chacha_ctx) (iv : bytes) : run (bytes * chacha_ctx) :=
  k ← chacha_ivsetup k iv (Some zero_block_counter);
  chacha_encrypt_bytes tmp0 k (zrep POLY1305_KEYLEN Byte.x00) POLY1305_KEYLEN.

Definition chacha20_poly1305_aead_encrypt (schedule : option chacha20_poly1305_keysched)
    (m : bytes) (seq : Z) : run (bytes * bytes * option chacha20_poly1305_keysched) :=
  keys ← schedule;
  let len := zlen m in
  let iv := le_bytes 8 (htonll seq) in
  '(poly1305_ctx, b) ← poly1305_key (k2 keys) iv;
  a ← chacha_ivsetup (k1 keys) iv (Some zero_block_counter);
  '(clen, a) ← chacha_encrypt_bytes tmp0 a m 4;
  b ← chacha_ivsetup b iv (Some payload_block_counter);
  '(payload, b) ← chacha_encrypt_bytes tmp0 b (zdrop 4 m) (u32 (len - 4));
  let out := clen ++ payload in
  tag ← poly1305_auth out len poly1305_ctx;
  Some (out, tag, Some (mk_sched a b)).

Definition chacha20_poly1305_aead_decrypt_length (schedule : option chacha20_poly1305_keysched)
    (m : bytes) (len seq : Z) : run (option bytes * option chacha20_poly1305_keysched) :=
  if len <? 4 then Some (None, schedule) else
  keys ← schedule;
  a ← chacha_ivsetup (k1 keys) (le_bytes 8 (htonll seq)) (Some zero_block_counter);
  '(out, a) ← chacha_encrypt_bytes tmp0 a m 4;
  Some (Some out, Some (mk_sched a (k2 keys))).

Definition chacha20_poly1305_aead_decrypt (schedule : option chacha20_poly1305_keysched)
    (complete_packet : bytes) (encrypted_size seq : Z)
    : run (option bytes * option chacha20_poly1305_keysched) :=
  keys ← schedule;
  let iv := le_bytes 8 (htonll seq) in
  '(poly1305_ctx, b) ← poly1305_key (k2 keys) iv;
  tag ← poly1305_auth complete_packet (encrypted_size + 4) poly1305_ctx;
  mac ← memcpy (zrep POLY1305_TAGLEN Byte.x00) 0 complete_packet (4 + encrypted_size) POLY1305_TAGLEN;
  if negb (bool_decide (tag = mac)) then Some (None, Some (mk_sched (k1 keys) b)) else
  b ← chacha_ivsetup b iv (Some payload_block_counter);
  '(out, b) ← chacha_encrypt_bytes tmp0 b (zdrop 4 complete_packet) (u32 encrypted_size);
  Some (Some out, Some (mk_sched (k1 keys) b)).

(** The constants and functions of [chacha20poly1305_cipher]; [encrypt] and
    [decrypt] are null pointers. *)
Definition chacha20poly1305_cipher : cipher_ops (option chacha20_poly1305_keysched) :=
  mk_cipher_ops SSH_AEAD_CHACHA20_POLY1305 512 8 4 chacha20_set_encrypt_key chacha20_set_encrypt_key
    (fun _ _ => None) (fun _ _ => None)
    (Some chacha20_poly1305_aead_encrypt) (Some chacha20_poly1305_aead_decrypt_length)
    (Some chacha20_poly1305_aead_decrypt).
End Chachapoly.

(** ** The properties *)

Section Facts.
Context `{Allocator}.
Variable tmp0 : bytes.
Hypothesis tmp0_len : zlen tmp0 = 64.
Implicit Type ks : chacha20_poly1305_keysched.

(** A schedule whose keys are set, and two that hold the same keys. *)
Record keyed ks : Prop := { keyed_k1 : wf_ctx (k1 ks); keyed_k2 : wf_ctx (k2 ks) }.
Record same_keys ks ks' : Prop := {
  same_k1 : take 12 (k1 ks) = take 12 (k1 ks');
  same_k2 : take 12 (k2 ks) = take 12 (k2 ks')
}.
Definition in_step (s s' : option chacha20_poly1305_keysched) : Prop :=
  exists ks ks', s = Some ks /\ s' = Some ks' /\ keyed ks /\ keyed ks' /\ same_keys ks ks'.

(** The state for a block counter: [ks] with the sequence number in place. *)
Definition packet_iv (seq : Z) : bytes := be_bytes 8 seq.
Definition at_packet (k : chacha_ctx) (seq : Z) (c : bytes) : chacha_ctx :=
  default [] (chacha_ivsetup k (packet_iv seq) (Some c)).
Definition stream_of (k : chacha_ctx) (seq : Z) (c : bytes) (n : Z) : bytes :=
  keystream (at_packet k seq c) 0 (Z.to_nat (blocks_of n)).

(** The one time key, the ciphertext and the tag of a packet. *)
Definition one_time_key ks (seq : Z) : bytes :=
  xor_bytes (zrep 32 Byte.x00) (stream_of (k2 ks) seq zero_block_counter 32).
Definition sealed ks (seq : Z) (m : bytes) : bytes :=
  xor_bytes (ztake 4 m) (stream_of (k1 ks) seq zero_block_counter 4)
  ++ xor_bytes (zdrop 4 m) (stream_of (k2 ks) seq payload_block_counter (zlen m - 4)).
Definition packet_tag ks (seq : Z) (c : bytes) : bytes := poly1305_mac c (one_time_key ks seq).

Lemma iv_eq seq : le_bytes 8 (htonll seq) = packet_iv seq.
Proof. apply le_bytes_htonll. Qed.

Lemma at_packet_spec k seq c :
  wf_ctx k -> zlen c = 8 ->
  chacha_ivsetup k (packet_iv seq) (Some c) = Some (at_packet k seq c) /\ wf_ctx (at_packet k seq c).
Proof.
  intros Hk Hc. unfold at_packet. destruct (ivsetup_spec k (packet_iv seq) c Hk) as (y & -> & Hy & _); [|lia|done].
  unfold packet_iv. rewrite zlen_be_bytes. lia.
Qed.

Lemma at_packet_same k k' seq c :
  wf_ctx k -> zlen c = 8 -> take 12 k' = take 12 k -> at_packet k' seq c = at_packet k seq c.
Proof.
  intros Hk Hc Hs. unfold at_packet. destruct (ivsetup_spec k (packet_iv seq) c Hk) as (y & Hy & _ & Hall).
  - unfold packet_iv. rewrite zlen_be_bytes. lia.
  - lia.
  - by rewrite (Hall k' Hs), Hy.
Qed.

Lemma ivsetup_key k seq c y : chacha_ivsetup k (packet_iv seq) (Some c) = Some y -> length k = 16%nat -> take 12 y = take 12 k.
Proof.
  unfold chacha_ivsetup. destruct (load_words 2 c) as [wc|]; [|done]. cbn [mbind option_bind].
  destruct (load_words 2 (packet_iv seq)) as [wi|]; [|done]. cbn [mbind option_bind]. intros [= <-] Hk.
  rewrite take_app_le by (rewrite length_take; lia). rewrite take_take. f_equal.
Qed.

(** A key after it enciphered [n] bytes of a packet: still the same key. *)
Lemma encrypt_at k seq c m n :
  wf_ctx k -> zlen c = 8 -> 0 <= n <= zlen m ->
  exists y k', chacha_ivsetup k (packet_iv seq) (Some c) = Some y
    /\ chacha_encrypt_bytes tmp0 y m n = Some (xor_bytes (ztake n m) (stream_of k seq c n), k')
    /\ wf_ctx k' /\ take 12 k' = take 12 k.
Proof.
  intros Hk Hc Hn. destruct (at_packet_spec k seq c Hk Hc) as [Hy Hw].
  exists (at_packet k seq c), (state_at (at_packet k seq c) (blocks_of n)). split_and!.
  - done.
  - by apply chacha_encrypt_bytes_spec.
  - by apply state_at_wf.
  - rewrite state_at_key. eapply ivsetup_key; [exact Hy|apply Hk].
Qed.

Lemma stream_of_same k k' seq c n :
  wf_ctx k -> zlen c = 8 -> take 12 k' = take 12 k -> stream_of k' seq c n = stream_of k seq c n.
Proof. intros. unfold stream_of. by rewrite (at_packet_same k k'). Qed.

Lemma stream_of_len k seq c n : wf_ctx k -> zlen c = 8 -> 0 <= n -> n <= zlen (stream_of k seq c n).
Proof.
  intros Hk Hc Hn. unfold stream_of. destruct (at_packet_spec k seq c Hk Hc) as [_ [Hl _]].
  rewrite keystream_len by done. destruct (decide (n = 0)) as [->|]; [done|].
  pose proof (blocks_of_range n). lia.
Qed.

Lemma poly1305_key_spec k seq :
  wf_ctx k -> exists k', poly1305_key tmp0 k (packet_iv seq)
      = Some (xor_bytes (zrep 32 Byte.x00) (stream_of k seq zero_block_counter 32), k')
    /\ wf_ctx k' /\ take 12 k' = take 12 k.
Proof.
  intros Hk. unfold poly1305_key, POLY1305_KEYLEN.
  destruct (encrypt_at k seq zero_block_counter (zrep 32 Byte.x00) 32) as (y & k' & -> & He & Hw & Ht);
    [done|done|rewrite zlen_rep; lia|]. cbn [mbind option_bind].
  exists k'. rewrite He. by rewrite ztake_all by (rewrite zlen_rep; lia).
Qed.

Lemma one_time_key_len ks seq : keyed ks -> zlen (one_time_key ks seq) = 32.
Proof.
  intros [_ Hk]. unfold one_time_key. rewrite xor_bytes_len, zlen_rep.
  pose proof (stream_of_len (k2 ks) seq zero_block_counter 32 Hk eq_refl). lia.
Qed.

Lemma sealed_len ks seq m : keyed ks -> 4 <= zlen m -> zlen (sealed ks seq m) = zlen m.
Proof.
  intros [H1 H2] Hm. unfold sealed. rewrite zlen_app, !xor_bytes_len, zlen_take, zlen_drop.
  pose proof (stream_of_len (k1 ks) seq zero_block_counter 4 H1 eq_refl).
  pose proof (stream_of_len (k2 ks) seq payload_block_counter (zlen m - 4) H2 eq_refl). lia.
Qed.

Lemma aead_encrypt_spec ks m seq :
  keyed ks -> 4 <= zlen m < 2 ^ 32 ->
  exists ks', chacha20_poly1305_aead_encrypt tmp0 (Some ks) m seq
      = Some (sealed ks seq m, packet_tag ks seq (sealed ks seq m), Some ks')
    /\ keyed ks' /\ same_keys ks' ks.
Proof.
  intros Hks Hm. pose proof Hks as [H1 H2]. unfold chacha20_poly1305_aead_encrypt. cbn [mbind option_bind].
  rewrite iv_eq. destruct (poly1305_key_spec (k2 ks) seq H2) as (b & -> & Hb & Hbt). cbn [mbind option_bind].
  destruct (encrypt_at (k1 ks) seq zero_block_counter m 4 H1) as (y & a & -> & He & Ha & Hat); [done|lia|].
  cbn [mbind option_bind]. rewrite He. cbn [mbind option_bind].
  rewrite (u32_small (zlen m - 4)) by lia.
  destruct (encrypt_at b seq payload_block_counter (zdrop 4 m) (zlen m - 4) Hb) as (y' & b' & -> & He' & Hb' & Hbt');
    [done|rewrite zlen_drop; lia|]. cbn [mbind option_bind]. rewrite He'. cbn [mbind option_bind].
  rewrite (stream_of_same (k2 ks) b) by done. rewrite (ztake_all (zlen m - 4)) by (rewrite zlen_drop; lia).
  fold (sealed ks seq m) (one_time_key ks seq).
  pose proof (one_time_key_len ks seq Hks). pose proof (sealed_len ks seq m Hks ltac:(lia)).
  rewrite poly1305_auth_spec by lia. cbn [mbind option_bind]. rewrite ztake_all by lia.
  eexists. split; [reflexivity|]. split; constructor; cbn [k1 k2]; congruence.
Qed.

(** The tag is compared before anything is deciphered; the decryption is that of
    the sealed bytes. *)
Definition opened ks (seq : Z) (packet : bytes) (n : Z) : bytes :=
  xor_bytes (ztake n (zdrop 4 packet)) (stream_of (k2 ks) seq payload_block_counter n).

Lemma aead_decrypt_spec ks packet n seq :
  keyed ks -> 0 <= n < 2 ^ 32 -> n + 4 + POLY1305_TAGLEN <= zlen packet ->
  exists ks', chacha20_poly1305_aead_decrypt tmp0 (Some ks) packet n seq
      = Some (if bool_decide (ztake POLY1305_TAGLEN (zdrop (4 + n) packet)
                              = packet_tag ks seq (ztake (4 + n) packet))
              then Some (opened ks seq packet n) else None, Some ks')
    /\ keyed ks' /\ same_keys ks' ks.
Proof.
  intros Hks Hn Hp. unfold POLY1305_TAGLEN in *. pose proof Hks as [H1 H2].
  unfold chacha20_poly1305_aead_decrypt. cbn [mbind option_bind]. rewrite iv_eq.
  destruct (poly1305_key_spec (k2 ks) seq H2) as (b & -> & Hb & Hbt). cbn [mbind option_bind].
  fold (one_time_key ks seq). pose proof (one_time_key_len ks seq Hks).
  rewrite poly1305_auth_spec by lia. cbn [mbind option_bind]. unfold POLY1305_TAGLEN.
  rewrite memcpy_whole by lia. cbn [mbind option_bind]. replace (n + 4) with (4 + n) by lia.
  fold (packet_tag ks seq (ztake (4 + n) packet)).
  destruct (decide (ztake 16 (zdrop (4 + n) packet) = packet_tag ks seq (ztake (4 + n) packet))) as [He|Hne].
  - rewrite (bool_decide_true _ He), bool_decide_true by done. cbn [negb]. rewrite (u32_small n) by lia.
    destruct (encrypt_at b seq payload_block_counter (zdrop 4 packet) n Hb) as (y & b' & -> & Hc & Hb' & Hbt');
      [done|rewrite zlen_drop; lia|]. cbn [mbind option_bind]. rewrite Hc. cbn [mbind option_bind].
    rewrite (stream_of_same (k2 ks) b) by done. fold (opened ks seq packet n).
    eexists. split; [reflexivity|]. split; constructor; cbn [k1 k2]; congruence.
  - rewrite (bool_decide_false _ Hne), bool_decide_false by congruence. cbn [negb].
    eexists. split; [reflexivity|]. split; constructor; cbn [k1 k2]; congruence.
Qed.

Lemma aead_decrypt_length_spec ks packet seq :
  keyed ks -> 4 <= zlen packet ->
  exists ks', chacha20_poly1305_aead_decrypt_length tmp0 (Some ks) packet 4 seq
      = Some (Some (xor_bytes (ztake 4 packet) (stream_of (k1 ks) seq zero_block_counter 4)), Some ks')
    /\ keyed ks' /\ same_keys ks' ks.
Proof.
  intros [H1 H2] Hp. unfold chacha20_poly1305_aead_decrypt_length. cbn [mbind option_bind Z.ltb Z.compare].
  rewrite iv_eq. change (4 <? 4) with false. cbv iota. cbn [mbind option_bind].
  destruct (encrypt_at (k1 ks) seq zero_block_counter packet 4 H1) as (y & a & -> & He & Ha & Hat); [done|lia|].
  cbn [mbind option_bind]. rewrite He. cbn [mbind option_bind].
  eexists. split; [reflexivity|]. split; constructor; cbn [k1 k2]; congruence.
Qed.

Lemma same_sealed ks ks' seq m : keyed ks -> same_keys ks' ks ->
  stream_of (k1 ks') seq zero_block_counter 4 = stream_of (k1 ks) seq zero_block_counter 4
  /\ (forall n, stream_of (k2 ks') seq payload_block_counter n = stream_of (k2 ks) seq payload_block_counter n)
  /\ packet_tag ks' seq m = packet_tag ks seq m.
Proof.
  intros [H1 H2] [S1 S2]. split_and!.
  - by apply stream_of_same.
  - intros n. by apply stream_of_same.
  - unfold packet_tag, one_time_key. by rewrite (stream_of_same (k2 ks) (k2 ks')).
Qed.

Lemma opened_sealed ks seq m more :
  keyed ks -> 4 <= zlen m -> opened ks seq (sealed ks seq m ++ more) (zlen m - 4) = zdrop 4 m.
Proof.
  intros Hks Hm. pose proof Hks as [H1 H2]. unfold opened, sealed.
  pose proof (stream_of_len (k1 ks) seq zero_block_counter 4 H1 eq_refl).
  pose proof (stream_of_len (k2 ks) seq payload_block_counter (zlen m - 4) H2 eq_refl).
  assert (Hl : zlen (xor_bytes (ztake 4 m) (stream_of (k1 ks) seq zero_block_counter 4)) = 4).
  { rewrite xor_bytes_len, zlen_take. lia. }
  rewrite <- app_assoc, zdrop_app_ge by lia. rewrite Hl, zdrop_0 by lia.
  rewrite ztake_app_le by (rewrite xor_bytes_len, zlen_drop; lia).
  rewrite ztake_all by (rewrite xor_bytes_len, zlen_drop; lia).
  apply xor_bytes_involutive. rewrite zlen_drop. lia.
Qed.
End Facts.

(** ** The cipher of the packet layer *)

Section Cipher.
Context `{Allocator}.
Variable tmp0 : bytes.
Hypothesis tmp0_len : zlen tmp0 = 64.

#[export] Instance chachapoly_aead : aead_cipher (chacha20poly1305_cipher tmp0) in_step.
Proof.
  constructor; [by left|done|]. do 3 eexists. split_and!; [reflexivity..|].
  intros ke kd m seq (ks & kr & -> & -> & Hks & Hkr & Hsame) Hm Hseq.
  destruct (aead_encrypt_spec tmp0 tmp0_len ks m seq Hks Hm) as (ks' & He & Hks' & Hs').
  exists (sealed ks seq m), (packet_tag ks seq (sealed ks seq m)), (Some ks').
  pose proof (sealed_len ks seq m Hks ltac:(lia)) as Hl.
  assert (Htl : zlen (packet_tag ks seq (sealed ks seq m)) = 16) by apply poly1305_mac_len.
  split_and!; [done|done|done|]. intros more.
  set (packet := sealed ks seq m ++ packet_tag ks seq (sealed ks seq m) ++ more).
  assert (Hpl : 20 <= zlen packet /\ zlen m + 16 <= zlen packet).
  { unfold packet. rewrite !zlen_app, Hl, Htl. pose proof (zlen_nonneg more). lia. }
  assert (Hsame' : same_keys kr ks) by (destruct Hsame; by constructor).
  destruct (aead_decrypt_length_spec tmp0 tmp0_len kr packet seq Hkr) as (k1' & Hd1 & Hk1 & Hs1); [lia|].
  destruct (aead_decrypt_spec tmp0 tmp0_len k1' packet (zlen m - 4) seq Hk1) as (k2' & Hd2 & Hk2 & Hs2);
    [lia|unfold POLY1305_TAGLEN; lia|].
  assert (Hs1' : same_keys k1' ks) by (destruct Hs1, Hsame'; constructor; congruence).
  destruct (same_sealed ks kr seq [] Hks Hsame') as (Hst & _ & _).
  exists (Some k1'), (Some k2'). split_and!.
  - rewrite Hst in Hd1. etransitivity; [exact Hd1|]. do 3 f_equal. unfold packet, sealed.
    pose proof Hks as [W1 _]. pose proof (stream_of_len (k1 ks) seq zero_block_counter 4 W1 eq_refl).
    assert (H4 : zlen (xor_bytes (ztake 4 m) (stream_of (k1 ks) seq zero_block_counter 4)) = 4).
    { rewrite xor_bytes_len, zlen_take. lia. }
    rewrite <- !app_assoc, ztake_app_le, ztake_all by lia.
    rewrite xor_bytes_involutive; [done|rewrite zlen_take; lia].
  - etransitivity; [exact Hd2|]. replace (4 + (zlen m - 4)) with (zlen m) by lia.
    destruct (same_sealed ks k1' seq (sealed ks seq m) Hks Hs1') as (_ & Hst2 & Htag).
    assert (Ht : ztake (zlen m) packet = sealed ks seq m).
    { unfold packet. rewrite ztake_app_le, ztake_all by lia. done. }
    assert (Hd : zdrop (zlen m) packet = packet_tag ks seq (sealed ks seq m) ++ more).
    { unfold packet. rewrite zdrop_app_ge, Hl by lia. apply zdrop_0. lia. }
    rewrite Ht, Htag, Hd, bool_decide_true.
    + do 3 f_equal. rewrite <- (opened_sealed ks seq m (packet_tag ks seq (sealed ks seq m) ++ more)) by (done || lia).
      unfold opened. rewrite Hst2. done.
    + unfold POLY1305_TAGLEN. rewrite ztake_app_le by lia. apply ztake_all. lia.
  - exists ks', k2'. split_and!; [done..|]. destruct Hs', Hs1', Hs2. constructor; congruence.
Qed.

(** Setting a key of 64 bytes gives schedules that are in step, whatever the
    memory held before. *)
Lemma set_key_in_step s s' key iv iv' :
  malloc_never_fails -> 64 <= zlen key ->
  (forall ks, s = Some ks -> keyed ks) -> (forall ks, s' = Some ks -> keyed ks) ->
  exists k k', chacha20_set_encrypt_key s key iv = Some (0, k)
    /\ chacha20_set_encrypt_key s' key iv' = Some (0, k') /\ in_step k k'.
Proof.
  intros Hmem Hkey Hs Hs'.
  assert (Hset : forall s, (forall ks, s = Some ks -> keyed ks) ->
    exists ks, chacha20_set_encrypt_key s key iv = Some (0, Some ks) /\ keyed ks
      /\ forall s', (forall ks, s' = Some ks -> keyed ks) ->
         exists ks', chacha20_set_encrypt_key s' key iv' = Some (0, Some ks') /\ keyed ks' /\ same_keys ks ks').
  2: { destruct (Hset s Hs) as (ks & -> & Hk & Hall). destruct (Hall s' Hs') as (ks' & -> & Hk' & Hsk).
       eexists _, _. split_and!; [done|done|]. by exists ks, ks'. }
  clear s s' Hs Hs'. intros s Hs. pose (ctx_ok := fun x : chacha_ctx => length x = 16%nat
    /\ Forall (fun w => 0 <= w < 2 ^ 32) (drop 12 x)).
  assert (Hsched : forall s, (forall ks, s = Some ks -> keyed ks) -> exists a b,
    ctx_ok a /\ ctx_ok b /\ forall iv, chacha20_set_encrypt_key s key iv
      = '(b, a) ← (b ← chacha_keysetup b key 256; a ← chacha_keysetup a (zdrop 32 key) 256; Some (b, a));
        Some (0, Some (mk_sched a b))).
  { intros [ks|] Hk; unfold chacha20_set_encrypt_key.
    - destruct (Hk ks eq_refl) as [[L1 W1] [L2 W2]]. exists (k1 ks), (k2 ks).
      split_and!; [by split; [|apply Forall_drop]..|]. intros _. cbn [mbind option_bind].
      change (CHACHA20_KEYLEN * 8) with 256. change CHACHA20_KEYLEN with 32.
      destruct (chacha_keysetup (k2 ks) key 256); [|done]. cbn [mbind option_bind].
      by destruct (chacha_keysetup (k1 ks) (zdrop 32 key) 256).
    - destruct (malloc 128) as [p|] eqn:Hp; [|by apply Hmem in Hp]. pose proof (malloc_zlen 128 p ltac:(done) Hp) as Hl.
      destruct (load_words_bytes 16 p) as (a & Ea & La & _); [lia|].
      destruct (load_words_bytes 16 (zdrop 64 p)) as (b & Eb & Lb & _); [rewrite zlen_drop; lia|].
      exists a, b. pose proof (load_words_range _ _ _ Ea) as [_ Wa]. pose proof (load_words_range _ _ _ Eb) as [_ Wb].
      split_and!; [by split; [|apply Forall_drop]..|]. intros _. rewrite Ea. cbn [mbind option_bind].
      rewrite Eb. cbn [mbind option_bind k1 k2].
      change (CHACHA20_KEYLEN * 8) with 256. change CHACHA20_KEYLEN with 32.
      destruct (chacha_keysetup b key 256); [|done]. cbn [mbind option_bind].
      by destruct (chacha_keysetup a (zdrop 32 key) 256). }
  destruct (Hsched s Hs) as (a & b & [La Wa] & [Lb Wb] & ->).
  destruct (keysetup_spec b key Lb Wb) as (kb & -> & Hkb & Hallb); [lia|]. cbn [mbind option_bind].
  destruct (keysetup_spec a (zdrop 32 key) La Wa) as (ka & -> & Hka & Halla); [rewrite zlen_drop; lia|].
  cbn [mbind option_bind]. exists (mk_sched ka kb). split_and!; [done|by constructor|].
  intros s' Hs'. destruct (Hsched s' Hs') as (a' & b' & [La' Wa'] & [Lb' Wb'] & ->).
  destruct (keysetup_spec b' key Lb' Wb') as (kb' & Eb' & Hkb' & _); [lia|]. rewrite Eb'. cbn [mbind option_bind].
  destruct (keysetup_spec a' (zdrop 32 key) La' Wa') as (ka' & Ea' & Hka' & _); [rewrite zlen_drop; lia|].
  rewrite Ea'. cbn [mbind option_bind]. exists (mk_sched ka' kb'). split_and!; [done|by constructor|].
  destruct (Hallb b' Lb') as (y & Ey & Ty). destruct (Halla a' La') as (z & Ez & Tz).
  constructor; cbn [k1 k2]; congruence.
Qed.

(** Two ends that set the same key of 64 bytes: what one seals for a sequence
    number, the other opens to the same packet, whatever bytes follow the tag. *)
Theorem chachapoly_roundtrip key iv iv' m seq more :
  malloc_never_fails -> 64 <= zlen key -> 4 <= zlen m < 2 ^ 32 -> 0 <= seq < 2 ^ 32 ->
  exists ke kd e tag ke' kd1 kd2,
    chacha20_set_encrypt_key None key iv = Some (0, ke) /\ chacha20_set_encrypt_key None key iv' = Some (0, kd)
    /\ chacha20_poly1305_aead_encrypt tmp0 ke m seq = Some (e, tag, ke')
    /\ chacha20_poly1305_aead_decrypt_length tmp0 kd (e ++ tag ++ more) 4 seq = Some (Some (ztake 4 m), kd1)
    /\ chacha20_poly1305_aead_decrypt tmp0 kd1 (e ++ tag ++ more) (zlen m - 4) seq = Some (Some (zdrop 4 m), kd2)
    /\ in_step ke' kd2.
Proof.
  intros Hmem Hkey Hm Hseq. destruct (set_key_in_step None None key iv iv') as (ke & kd & Hke & Hkd & Hst); [done..|].
  destruct chachapoly_aead as [_ _ (enc & dlen & dec & He & Hl & Hd & Hall)]. cbn in He, Hl, Hd. simplify_eq.
  destruct (Hall ke kd m seq Hst Hm Hseq) as (e & tag & ke' & Hen & _ & _ & Hdec).
  destruct (Hdec more) as (kd1 & kd2 & ? & ? & ?). by exists ke, kd, e, tag, ke', kd1, kd2.
Qed.

(** (C21) A packet is opened exactly when the bytes after it are the Poly1305 tag of the
    received bytes, length field included, under the one time key of its
    sequence number; otherwise nothing is deciphered. *)
Theorem chachapoly_accepts_only_tag ks packet n seq :
  keyed ks -> 0 <= n < 2 ^ 32 -> n + 4 + POLY1305_TAGLEN <= zlen packet ->
  exists ks', chacha20_poly1305_aead_decrypt tmp0 (Some ks) packet n seq
      = Some (if bool_decide (ztake POLY1305_TAGLEN (zdrop (4 + n) packet)
                = poly1305_mac (ztake (4 + n) packet) (one_time_key ks seq))
              then Some (opened ks seq packet n) else None, Some ks')
    /\ keyed ks' /\ same_keys ks' ks.
Proof. by apply aead_decrypt_spec. Qed.
End Cipher.

Definition demo_key : bytes := zrep 64 Byte.x42.
Definition demo_stack : bytes := zrep 64 Byte.x00.

Lemma chachapoly_roundtrip_witness :
  exists ke kd e tag ke' kd1 kd2,
    @chacha20_set_encrypt_key calloc_allocator None demo_key [] = Some (0, ke)
    /\ @chacha20_set_encrypt_key calloc_allocator None demo_key [] = Some (0, kd)
    /\ chacha20_poly1305_aead_encrypt demo_stack ke rfc_text 7 = Some (e, tag, ke')
    /\ chacha20_poly1305_aead_decrypt_length demo_stack kd (e ++ tag ++ [Byte.x00]) 4 7
       = Some (Some (ztake 4 rfc_text), kd1)
    /\ chacha20_poly1305_aead_decrypt demo_stack kd1 (e ++ tag ++ [Byte.x00]) (zlen rfc_text - 4) 7
       = Some (Some (zdrop 4 rfc_text), kd2)
    /\ in_step ke' kd2.
Proof.
  apply (@chachapoly_roundtrip calloc_allocator demo_stack eq_refl demo_key [] [] rfc_text 7 [Byte.x00]).
  - intros n Hn. discriminate.
  - vm_compute. discriminate.
  - split; [vm_compute; discriminate|reflexivity].
  - split; [discriminate|reflexivity].
Defined.

Definition demo_sched : chacha20_poly1305_keysched :=
  default (mk_sched [] []) (r ← @chacha20_set_encrypt_key calloc_allocator None demo_key []; snd r).

Lemma demo_sched_keyed : keyed demo_sched.
Proof. constructor; (constructor; [vm_compute; reflexivity|]); apply (bool_decide_unpack _); vm_compute; exact I. Qed.

Lemma chachapoly_accepts_only_tag_witness :
  exists ks', chacha20_poly1305_aead_decrypt demo_stack (Some demo_sched) (zrep 40 Byte.x00) 20 7
      = Some (if bool_decide (ztake POLY1305_TAGLEN (zdrop (4 + 20) (zrep 40 Byte.x00))
                = poly1305_mac (ztake (4 + 20) (zrep 40 Byte.x00)) (one_time_key demo_sched 7))
              then Some (opened demo_sched 7 (zrep 40 Byte.x00) 20) else None, Some ks')
    /\ keyed ks' /\ same_keys ks' demo_sched.
Proof.
  apply (@chachapoly_accepts_only_tag demo_stack eq_refl demo_sched (zrep 40 Byte.x00) 20 7);
    [exact demo_sched_keyed|split; [discriminate|reflexivity]|vm_compute; discriminate].
Defined.
