(* ===== verification/PacketAead.v ===== *)
(** * Packets protected by an authenticated cipher

    The packet layer with a cipher that has an integrated MAC
    (chacha20-poly1305@openssh.com, aes*-gcm@openssh.com): what one end writes,
    the other reads back.  The cipher enters through the interface
    [aead_cipher] only. *)

From S2P Require Import Prelude Buffer Bignum BufferPack Session PacketFilter Misc.
From S2P Require Import Crypto Packet PacketRecv Poly1305 Chacha Chachapoly.

Definition aead_hmac (type : ssh_hmac_e) : Prop :=
  type = SSH_HMAC_AEAD_POLY1305 \/ type = SSH_HMAC_AEAD_GCM.

Section Aead.
Context `{Allocator} `{BignumLib} `{HmacLib} `{RandomLib} {K X : Type}.
Implicit Type s r : session K prng X.

Lemma aead_digest_len type : aead_hmac type -> hmac_digest_len type = 16.
Proof. by intros [-> | ->]. Qed.

(** ** The sender *)

Record aead_sender s (slot : crypto_slot) (c : ssh_crypto K) (oc : ssh_cipher K) : Prop := {
  as_crypto : ssh_packet_get_current_crypto s SSH_DIRECTION_OUT = Some (slot, c);
  as_cipher : out_cipher c = Some oc;
  as_etm : out_hmac_etm c = false;
  as_mac : aead_hmac (out_hmac c);
  as_hmacbuf : zlen (hmacbuf c) = DIGEST_MAX_LEN
}.

Lemma encrypt_aead s slot c oc enc text e tag k :
  malloc_succeeds -> aead_sender s slot c oc -> block_size_ok (blocksize (c_ops oc)) ->
  lenfield_blocksize (c_ops oc) = 4 -> aead_encrypt (c_ops oc) = Some enc ->
  4 <= zlen text < BUFFER_SIZE_MAX -> (zlen text - 4) mod blocksize (c_ops oc) = 0 ->
  enc (c_key oc) text (send_seq s) = Some (e, tag, k) -> zlen e = zlen text -> zlen tag = 16 ->
  exists buf, zlen buf = DIGEST_MAX_LEN /\ ztake 16 buf = tag
    /\ ssh_packet_encrypt s text (zlen text)
       = Some (Some buf, e, set_slot slot (set_hmacbuf buf (set_out_cipher (Some (set_key k oc)) c)) s).
Proof.
  intros Hmem [Hc Ho He Hm Hbuf] Hbs Hlf Henc Hlen Hmod Heq Hel Htl.
  unfold BUFFER_SIZE_MAX, DIGEST_MAX_LEN in *.
  exists (tag ++ zdrop (zlen tag) (hmacbuf c)). split_and!.
  - rewrite zlen_app, zlen_drop. lia.
  - rewrite ztake_app_le, ztake_all by lia. done.
  - unfold ssh_packet_encrypt. destruct (Z.eqb_spec (zlen text) 0); [lia|]. rewrite Hc.
    cbn [mbind option_bind]. rewrite Ho. cbn [mbind option_bind]. rewrite He, Hlf. cbn [etm_offset].
    rewrite (u32_small (zlen text - 4 - 0)) by lia. rewrite Z.sub_0_r, Hmod. change (0 =? 0) with true. cbn [negb].
    destruct (malloc (zlen text)) eqn:Hmal;
      [|by apply Hmem in Hmal; [|unfold BUFFER_SIZE_MAX; lia]]. cbn [some negb].
    rewrite Henc, (ztake_all (zlen text)), Heq by lia. cbn [mbind option_bind].
    rewrite memcpy_ok by lia. cbn [mbind option_bind].
    rewrite memcpy_ok by lia. cbn [mbind option_bind].
    rewrite !(ztake_0 0), !(zdrop_0 0), (ztake_all (zlen text) e), (ztake_all (zlen tag) tag) by lia.
    rewrite (zdrop_all (0 + zlen text)), app_nil_r by lia. done.
Qed.

Variable ssh_packet_set_newkeys : session K prng X -> Z -> run (Z * session K prng X).

Definition aead_padding (oc : ssh_cipher K) (payload : bytes) : Z :=
  packet_padding (blocksize (c_ops oc)) 4 0 (zlen payload).

Lemma aead_padding_ok oc payload :
  block_size_ok (blocksize (c_ops oc)) -> zlen payload < 2 ^ 31 ->
  let p := aead_padding oc payload in
  4 <= p <= 32 /\ (1 + zlen payload + p) mod blocksize (c_ops oc) = 0.
Proof.
  intros Hbs Hl. unfold aead_padding. pose proof (zlen_nonneg payload).
  destruct (packet_padding_spec (blocksize (c_ops oc)) 4 0 (zlen payload)) as (? & ? & Hm);
    [done|lia|lia|destruct Hbs; lia|lia|]. cbv zeta. split; [lia|]. etransitivity; [|exact Hm]. f_equal. lia.
Qed.

Lemma send_aead s slot c oc enc b t rest rnd g e tag k :
  malloc_succeeds -> aead_sender s slot c oc -> block_size_ok (blocksize (c_ops oc)) ->
  lenfield_blocksize (c_ops oc) = 4 -> aead_encrypt (c_ops oc) = Some enc -> sendable s b t rest ->
  ssh_get_random (rng s) (aead_padding oc (t :: rest)) = (Some rnd, g) ->
  enc (c_key oc) (frame 0 (t :: rest) rnd) (send_seq s) = Some (e, tag, k) ->
  zlen e = zlen (frame 0 (t :: rest) rnd) -> zlen tag = 16 ->
  exists s' c', packet_send2 ssh_packet_set_newkeys s = Some (SSH_OK, s')
    /\ contents (socket_out s') = contents (socket_out s) ++ e ++ tag
    /\ send_seq s' = u32 (send_seq s + 1)
    /\ aead_sender s' slot c' (count_packet (zlen (t :: rest)) (set_key k oc))
    /\ out_hmac c' = out_hmac c.
Proof.
  intros Hmem Hes Hbs Hlf Henc Hsend Hrnd Heq Hel Htl. pose proof Hes as [Hc Ho He Hm Hbuf].
  pose proof (sendable_len _ _ _ _ Hsend) as Hlen. destruct Hsend as [Hb Hwf Hcon Ht Hr Hk Hkr].
  unfold BUFFER_SIZE_MAX in *. set (n := zlen (t :: rest)) in *.
  assert (Hn0 : 0 < n) by (unfold n; rewrite zlen_cons; pose proof (zlen_nonneg rest); lia).
  destruct (aead_padding_ok oc (t :: rest) Hbs) as [Hp Hpm]; [fold n; lia|].
  unfold aead_padding in *. fold n in Hp, Hpm, Hrnd. set (p := packet_padding _ 4 0 n) in *.
  destruct (make_padding_random s p rnd g) as (d & Hpad & Hd & Htd); [lia|done|].
  pose proof (ssh_get_random_zlen _ _ _ _ (ltac:(lia) : 0 <= p) Hrnd) as Hrl.
  assert (Hsp : send_params s = Some (blocksize (c_ops oc), 4, out_hmac c, false)).
  { unfold send_params. rewrite Hc. cbn [mbind option_bind]. rewrite Ho. cbn [mbind option_bind].
    by rewrite He, Hlf. }
  destruct (packet_send2_frame ssh_packet_set_newkeys s (set_rng g s) b t rest
    (blocksize (c_ops oc)) 4 (out_hmac c) false d) as (b2 & Hwf2 & Hc2 & Hu2 & _ & Hsend2);
    [done|done|done|done|fold n; lia|unfold BUFFER_SIZE_MAX; lia|done|done|lia|by rewrite Hc|done|].
  cbn [etm_offset] in Hc2, Hsend2, Hu2. fold n p in Hc2, Hsend2, Hu2. rewrite Htd in Hc2.
  set (f := frame 0 (t :: rest) rnd) in *.
  assert (Hf : zlen f = 5 + n + p) by (unfold f; rewrite zlen_frame; lia).
  destruct (encrypt_aead (set_rng g s) slot c oc enc f e tag k) as (buf & Hbl & Hbt & Hen);
    [done|by destruct Hes|done|done|done|unfold BUFFER_SIZE_MAX; lia| |done|done|done|].
  { rewrite Hf. by replace (5 + n + p - 4) with (1 + n + p) by lia. }
  set (s2 := set_slot slot _ (set_rng g s)) in Hen.
  destruct (encrypt_buffer_spec (set_rng g s) b2 (Some buf) e s2)
    as (b3 & Heb & Hwf3 & Hc3 & Hu3); [done|rewrite Hc2; lia|by rewrite Hc2|by rewrite Hc2|].
  rewrite Heb in Hsend2. cbn [mbind option_bind] in Hsend2.
  assert (Hso : socket_out s2 = socket_out s /\ send_seq s2 = send_seq s)
    by (unfold s2; by destruct slot). destruct Hso as [Hso Hsq2].
  unfold DIGEST_MAX_LEN in *.
  destruct (packet_finish_ok ssh_packet_set_newkeys s2 b3 (Some buf) (out_hmac c) (b2z t) n)
    as (s' & Hfin & _ & Hw & _ & Hsq & _ & Hcnt);
    [done|done|by rewrite Hso|done|rewrite Hc3; lia| |unfold BUFFER_SIZE_MAX; lia| |].
  { intros tag' [= <-]. rewrite aead_digest_len by done. lia. }
  { rewrite Hso, Hc3, Hel. unfold BUFFER_SIZE_MAX. lia. }
  rewrite (aead_digest_len _ Hm), Hbt, Hso, Hc3 in Hw. unfold crypto_counted in Hcnt.
  set (c1 := set_hmacbuf buf (set_out_cipher (Some (set_key k oc)) c)) in *.
  assert (Hg2 : ssh_packet_get_current_crypto s2 SSH_DIRECTION_OUT = Some (slot, c1)).
  { apply (get_crypto_set_slot _ _ slot c); [exact Hc|done|done|]. cbn. by rewrite Ho. }
  specialize (Hcnt _ _ Hg2). eexists s', _. split_and!.
  - rewrite Hsend2. exact Hfin.
  - exact Hw.
  - by rewrite Hsq, Hsq2.
  - constructor; [exact Hcnt|done|done|done|done].
  - done.
Qed.

(** ** The receiver *)

Record aead_receiver s (slot : crypto_slot) (c : ssh_crypto K) (ic : ssh_cipher K) : Prop := {
  ar_crypto : ssh_packet_get_current_crypto s SSH_DIRECTION_IN = Some (slot, c);
  ar_cipher : in_cipher c = Some ic;
  ar_etm : in_hmac_etm c = false;
  ar_mac : aead_hmac (in_hmac c)
}.

Definition aead_params (ic : ssh_cipher K) : recv_params :=
  mk_params 16 (blocksize (c_ops ic)) 4 false.

Lemma get_params_aead s slot c ic :
  aead_receiver s slot c ic -> lenfield_blocksize (c_ops ic) = 4 -> get_params s = Some (aead_params ic).
Proof.
  intros [Hc Hi He Hm] Hl. unfold get_params. rewrite Hc. cbn [mbind option_bind]. rewrite Hi.
  cbn [mbind option_bind]. rewrite He, Hl. by rewrite aead_digest_len.
Qed.
End Aead.

Section AeadRecv.
Context `{Allocator} `{BignumLib} `{HmacLib} `{RandomLib} {K X : Type}.
Implicit Type s r : session K prng X.

(** A part of a packet is decrypted into [in_buffer]: the writes to the buffer and
    to the keys commute. *)
Lemma write_in_slot s slot c b ptr d b' :
  write_in (set_in_buffer (Some b) s) ptr d = Some (set_in_buffer (Some b') s) ->
  write_in (set_slot slot c (set_in_buffer (Some b) s)) ptr d
  = Some (set_in_buffer (Some b') (set_slot slot c s)).
Proof.
  unfold write_in. destruct slot; cbn [set_slot in_buffer set_in_buffer set_cryptos mbind option_bind];
    destruct (memcpy _ _ _ _ _); cbn [mbind option_bind]; intros [= Hx]; by rewrite Hx.
Qed.

(** [PACKET_STATE_INIT]: the length field, decrypted with the key of the cipher. *)
Lemma recv_init_aead r slot c ic dlen data d k :
  malloc_succeeds -> in_buffer_wf r -> aead_receiver r slot c ic ->
  lenfield_blocksize (c_ops ic) = 4 -> aead_decrypt_length (c_ops ic) = Some dlen ->
  4 <= zlen data -> dlen (c_key ic) data 4 (recv_seq r) = Some (Some d, k) -> zlen d = 4 ->
  4 <= be_val d <= MAX_PACKET_LEN ->
  exists r1 b, recv_init (aead_params ic) r data = Some (RGo () r1)
    /\ in_buffer r1 = Some b /\ buffer_wf b /\ contents b = d /\ b_used b <= 4
    /\ p_len (in_packet r1) = be_val d /\ recv_seq r1 = recv_seq r /\ same_rest r r1
    /\ aead_receiver r1 slot (set_in_cipher (Some (set_key k ic)) c) (set_key k ic).
Proof.
  intros Hmem Hwf Hr Hlf Hdl Hdata Heq Hd Hlen. unfold MAX_PACKET_LEN in Hlen.
  pose proof Hr as [Hc Hi He Hm].
  unfold recv_init, rp_offset. cbn [rp_lenfield rp_etm aead_params etm_offset negb].
  change (u32 (4 + 0)) with 4. rewrite (proj2 (Z.ltb_ge _ _)) by lia.
  destruct (fresh_in_buffer_ok (set_in_packet (mk_packet 0 0 0) r) Hmem Hwf) as (b0 & -> & Hwf0 & Hc0 & Hu0).
  cbn [mbind option_bind]. set (rf := set_in_buffer (Some b0) _).
  destruct (in_buffer_append rf b0 4 d) as (b' & ptr & b2 & Hal & Hwf2 & Hu2 & _ & Hwr & Hcb & Hub);
    [done|done|done|done|unfold BUFFER_SIZE_MAX; lia|].
  cbn [in_buffer set_in_buffer rf mbind option_bind]. rewrite Hal. cbn [mbind option_bind].
  set (c1 := set_in_cipher (Some (set_key k ic)) c).
  assert (Hdec : ssh_packet_decrypt_len (set_in_buffer (Some b') rf) data
    = Some (be_val d, Some d, set_slot slot c1 (set_in_buffer (Some b') rf))).
  { unfold ssh_packet_decrypt_len.
    change (ssh_packet_get_current_crypto (set_in_buffer (Some b') rf) SSH_DIRECTION_IN)
      with (ssh_packet_get_current_crypto r SSH_DIRECTION_IN). rewrite Hc. cbn [mbind option_bind]. rewrite Hi.
    cbn [mbind option_bind]. rewrite Hdl, Hlf. change (recv_seq (set_in_buffer (Some b') rf)) with (recv_seq r).
    rewrite Heq. cbn [mbind option_bind].
    rewrite memcpy_whole by lia. cbn [mbind option_bind]. rewrite (zdrop_0 0), ztake_all by lia.
    rewrite ntohl_le_val; [done|]. apply Nat2Z.inj. exact Hd. }
  rewrite Hdec. cbn [mbind option_bind].
  rewrite (write_in_slot rf slot c1 b' ptr d b2 Hwr). cbn [mbind option_bind].
  unfold MAX_PACKET_LEN. rewrite (proj2 (Z.ltb_ge _ (be_val d))) by lia. unwrap.
  rewrite (proj2 (Z.ltb_ge _ 0)) by lia.
  eexists _, b2. split; [reflexivity|]. rewrite Hc0 in Hcb. split_and!; try done.
  - lia.
  - by destruct slot.
  - destruct slot; by constructor.
  - constructor; [|done|done|done].
    change (ssh_packet_get_current_crypto (set_slot slot c1 rf) SSH_DIRECTION_IN = Some (slot, c1)).
    apply (get_crypto_set_slot rf _ slot c); [done|done|cbn; by rewrite Hi|done].
Qed.

(** [PACKET_STATE_SIZEREAD]: the rest of the packet, opened by the cipher. *)
Lemma recv_body_aead r slot c ic dec b len data n rest k payload padding :
  malloc_succeeds -> aead_receiver r slot c ic -> block_size_ok (blocksize (c_ops ic)) ->
  lenfield_blocksize (c_ops ic) = 4 -> aead_decrypt (c_ops ic) = Some dec ->
  in_buffer r = Some b -> buffer_wf b -> contents b = len -> zlen len = 4 -> b_used b <= 4 ->
  p_len (in_packet r) = n -> 0 < n <= MAX_PACKET_LEN -> n mod blocksize (c_ops ic) = 0 ->
  n + 20 <= zlen data -> dec (c_key ic) data n (recv_seq r) = Some (Some rest, k) ->
  rest = z2b (zlen padding) :: payload ++ padding -> zlen rest = n -> 0 < zlen payload -> zlen padding < 256 ->
  exists r2 b2 c2 ic2, recv_body (aead_params ic) r data = Some (RGo (n + 20) r2)
    /\ in_buffer r2 = Some b2 /\ buffer_wf b2 /\ contents b2 = payload
    /\ recv_seq r2 = u32 (recv_seq r + 1) /\ same_rest r r2
    /\ aead_receiver r2 slot c2 ic2 /\ c_ops ic2 = c_ops ic /\ c_key ic2 = k.
Proof.
  intros Hmem Hr Hbs Hlf Hdec Hib Hwf Hcb Hl4 Hub Hpl Hn Hmod Hdata Heq Hrest Hrl Hpay Hpad.
  unfold MAX_PACKET_LEN in Hn. pose proof Hr as [Hc Hi He Hm].
  unfold recv_body, rp_offset. cbn [rp_lenfield rp_etm rp_macsize aead_params etm_offset].
  rewrite Hpl. rewrite (s32_small (n + 4 + 16)) by lia. change (u64 (4 - 4 + 0)) with 0.
  rewrite Z.sub_0_r. unwrap. destruct (Z.eqb_spec (n + 4 + 16) 0); [lia|]. cbn [negb andb].
  rewrite (proj2 (Z.ltb_ge (zlen data) _)) by lia. rewrite Hib. cbn [mbind option_bind].
  destruct (in_buffer_append r b n rest) as (b' & ptr & b2 & Hal & Hwf2 & _ & _ & Hwr & Hc2 & _);
    [done|done|done|done|unfold BUFFER_SIZE_MAX; lia|].
  rewrite Hal. cbn [mbind option_bind]. set (rb := set_in_buffer (Some b') r) in *.
  change (ssh_packet_get_current_crypto rb SSH_DIRECTION_IN)
    with (ssh_packet_get_current_crypto r SSH_DIRECTION_IN). rewrite Hc.
  unfold recv_decrypt, rp_offset. cbn [rp_lenfield rp_etm rp_macsize aead_params etm_offset negb].
  cbn [mbind option_bind]. change (0 <? 0) with false. cbv iota. rewrite (proj2 (Z.ltb_lt 0 n)) by lia.
  replace (n + 4 + 16 - 16 - (4 + 0)) with n by lia. change (4 + 0) with 4.
  set (c1 := set_in_cipher (Some (set_key k ic)) c).
  assert (Hdecr : ssh_packet_decrypt rb data 4 n = Some (Some rest, set_slot slot c1 rb)).
  { unfold ssh_packet_decrypt. rewrite (proj2 (Z.leb_gt _ _)) by lia.
    change (ssh_packet_get_current_crypto rb SSH_DIRECTION_IN)
      with (ssh_packet_get_current_crypto r SSH_DIRECTION_IN). rewrite Hc.
    cbn [mbind option_bind]. rewrite Hi. cbn [mbind option_bind]. rewrite Hmod.
    change (0 =? 0) with true. cbn [negb]. rewrite Hdec. change (recv_seq rb) with (recv_seq r).
    rewrite Heq. done. }
  rewrite Hdecr. unfold rb. cbn [mbind option_bind]. rewrite (write_in_slot r slot c1 b' ptr rest b2 Hwr).
  cbn [mbind option_bind in_buffer set_in_buffer].
  assert (Hcz : 0 < zlen (contents b2)) by (rewrite Hc2, zlen_app, Hrl; pose proof (zlen_nonneg (contents b)); lia).
  destruct (get_buffer_some b2 Hwf2 Hcz) as (-> & _ & _). cbn [mbind option_bind].
  unfold ssh_packet_hmac_verify.
  assert (Hah : bool_decide (in_hmac c = SSH_HMAC_AEAD_POLY1305) || bool_decide (in_hmac c = SSH_HMAC_AEAD_GCM) = true).
  { by destruct Hm as [-> | ->]. }
  rewrite Hah. cbn [mbind option_bind]. change (SSH_OK <? 0) with false. cbv iota.
  destruct (recv_payload_ok (aead_params ic) (set_in_buffer (Some b2) (set_slot slot c1 r)) b2
    (n + 4 + 16 - 16 + 16) len payload padding)
    as (r2 & b5 & Hp & Hb5 & Hwf5 & Hc5 & Hseq & Hrs & Hcnt);
    [done|done|done|by rewrite Hc2, Hcb, Hrest|done|done|].
  cbn [mbind option_bind]. rewrite Hp. replace (n + 4 + 16 - 16 + 16) with (n + 20) by lia.
  assert (Hg2 : ssh_packet_get_current_crypto (set_in_buffer (Some b2) (set_slot slot c1 r)) SSH_DIRECTION_IN
    = Some (slot, c1)).
  { change (ssh_packet_get_current_crypto (set_slot slot c1 r) SSH_DIRECTION_IN = Some (slot, c1)).
    apply (get_crypto_set_slot r _ slot c); [done|done|cbn; by rewrite Hi|done]. }
  specialize (Hcnt _ _ Hg2). eexists r2, b5, _, _. split_and!; [done|done|done|done| | | | |].
  - rewrite Hseq. by destruct slot.
  - eapply same_rest_trans; [|exact Hrs]. destruct slot; by constructor.
  - constructor; [exact Hcnt|reflexivity|exact He|exact Hm].
  - done.
  - done.
Qed.

(** ** What was sealed is read *)

Variable ssh_packet_set_newkeys : session K prng X -> Z -> run (Z * session K prng X).

Variable ssh_send_rekex : session K prng X -> run (Z * session K prng X).
Variable packet_callbacks : session K prng X -> option (list (option (@ssh_packet_callbacks _ K X))).

(** (C20) Every packet of a connection protected by an authenticated cipher is delivered
    to the peer whose key is in step: the callback of its socket runs the handlers of the packet's type once,
    on the rest of its payload (when the filter allows the type), and then goes on with exactly the bytes behind the
    packet; before the handlers both ends are ready for the next packet. *)
Theorem aead_packet_roundtrip s slot c oc sync b t rest rnd g r slotr cr ic more :
  malloc_succeeds -> aead_sender s slot c oc -> aead_cipher (c_ops oc) sync -> sendable s b t rest ->
  zlen (t :: rest) <= MAX_PACKET_LEN - 40 -> contents (socket_out s) = [] ->
  ssh_get_random (rng s) (aead_padding oc (t :: rest)) = (Some rnd, g) ->
  in_buffer_wf r -> aead_receiver r slotr cr ic -> c_ops ic = c_ops oc -> sync (c_key oc) (c_key ic) ->
  recv_seq r = send_seq s -> 0 <= send_seq s < 2 ^ 32 ->
  session_state (proto_of r) <> SSH_SESSION_STATE_ERROR -> packet_state r = PACKET_STATE_INIT ->
  ssh_packet_incoming_filter (proto_of r) (b2z t) = SSH_PACKET_ALLOWED ->
  exists s' c' oc' wire r' b' cr' ic',
    packet_send2 ssh_packet_set_newkeys s = Some (SSH_OK, s')
    /\ contents (socket_out s') = wire
    /\ in_buffer r' = Some b' /\ contents b' = rest /\ p_type (in_packet r') = b2z t /\ same_rest r r'
    /\ aead_sender s' slot c' oc' /\ aead_receiver r' slotr cr' ic'
    /\ c_ops oc' = c_ops oc /\ c_ops ic' = c_ops oc /\ sync (c_key oc') (c_key ic')
    /\ recv_seq r' = send_seq s'
    /\ ssh_packet_socket_callback ssh_packet_set_newkeys ssh_send_rekex packet_callbacks (Some (wire ++ more)) r
       = (r'' ← ssh_packet_process ssh_packet_set_newkeys ssh_send_rekex packet_callbacks r' (b2z t);
          next_packets ssh_packet_set_newkeys ssh_send_rekex packet_callbacks (length (wire ++ more)) (zlen wire) more
            (set_packet_state PACKET_STATE_INIT r'')).
Proof.
  intros Hmem Hes [Hbs Hlf (enc & dlen & dec & He & Hl & Hd & Hall)] Hsend Hmax Hsk Hrnd Hwf Hr Hops Hsync Hseq Hrange Hal Hini Hfil.
  unfold MAX_PACKET_LEN in Hmax. set (f := frame 0 (t :: rest) rnd).
  destruct (aead_padding_ok oc (t :: rest) Hbs) as [Hp Hpm]; [lia|].
  pose proof (ssh_get_random_zlen _ _ _ _ (ltac:(lia) : 0 <= aead_padding oc (t :: rest)) Hrnd) as Hrl.
  rewrite <- Hrl in Hp, Hpm. set (n := 1 + zlen (t :: rest) + zlen rnd) in *.
  assert (Hn0 : 0 < zlen (t :: rest)) by (rewrite zlen_cons; pose proof (zlen_nonneg rest); lia).
  assert (Hf : zlen f = 4 + n) by (unfold f; rewrite zlen_frame; lia).
  destruct (Hall (c_key oc) (c_key ic) f (send_seq s) Hsync) as (e & tag & ke & Heq & Hel & Htl & Hmore); [lia|done|].
  destruct (Hmore more) as (kd1 & kd2 & Hdl & Hdc & Hst). rewrite app_assoc in Hdl, Hdc.
  assert (Hff : ztake 4 f = be_bytes 4 n /\ zdrop 4 f = z2b (zlen rnd) :: (t :: rest) ++ rnd).
  { unfold f, frame. rewrite ztake_app_le, ztake_all, zdrop_app_ge, zdrop_0 by (rewrite zlen_be_bytes; lia).
    split; [|done]. f_equal. unfold packet_finallen. rewrite u32_small by lia. lia. }
  destruct Hff as [Hf4 Hfr]. rewrite Hf4 in Hdl. replace (zlen f - 4) with n in Hdc by lia.
  destruct (send_aead ssh_packet_set_newkeys s slot c oc enc b t rest rnd g e tag ke)
    as (s' & c' & Hs & Hw & Hsq & Hes' & _); [done|done|done|done|done|done|done|done|done|done|].
  rewrite Hsk in Hw. cbn [app] in Hw. set (wire := e ++ tag) in *.
  assert (Hwl : zlen wire = n + 20) by (unfold wire; rewrite zlen_app; lia).
  pose proof (zlen_nonneg more).
  destruct (recv_init_aead r slotr cr ic dlen (wire ++ more) (be_bytes 4 n) kd1)
    as (r1 & b1 & Hi & Hib & Hwf1 & Hc1 & Hu1 & Hpl & Hs1 & Hrest1 & Hr1);
    [done|done|done|by rewrite Hops|by rewrite Hops|rewrite zlen_app; lia|by rewrite Hseq|done| |].
  { rewrite be_val_bytes, Z.mod_small by (change (256 ^ Z.of_nat 4) with (2 ^ 32); lia). unfold MAX_PACKET_LEN. lia. }
  rewrite be_val_bytes, Z.mod_small in Hpl by (change (256 ^ Z.of_nat 4) with (2 ^ 32); lia).
  assert (Hops' : c_ops (set_key kd1 ic) = c_ops oc) by done.
  destruct (recv_body_aead r1 slotr (set_in_cipher (Some (set_key kd1 ic)) cr) (set_key kd1 ic) dec b1 (be_bytes 4 n) (wire ++ more) n (zdrop 4 f) kd2
    (t :: rest) rnd) as (r2 & b2 & c2 & ic2 & Hb & Hib2 & Hwf2 & Hc2 & Hs2 & Hrest2 & Hr2 & Hops2 & Hk2);
    [done|exact Hr1|by rewrite Hops'|by rewrite Hops'|by rewrite Hops'|done|done|done|by rewrite zlen_be_bytes|done|done
    |unfold MAX_PACKET_LEN; lia|by rewrite Hops'| |by rewrite Hs1, Hseq|done|rewrite zlen_drop; lia|done|lia|].
  { rewrite zlen_app. lia. }
  rewrite <- Hwl in Hb.
  destruct (callback_packet ssh_packet_set_newkeys ssh_send_rekex packet_callbacks (aead_params ic) r r1 r2 b2 t rest wire more)
    as (r' & b' & Hib' & Hc' & Hty & Hsq' & Hrest' & Hcr & Hcall);
    [eapply get_params_aead; [exact Hr|by rewrite Hops]|done|done|exact Hi|exact Hb|done|done|done|by eapply same_rest_trans|done|].
  eexists s', c', _, wire, r', b', c2, ic2. destruct Hr2 as [Hq1 Hq2 Hq3 Hq4].
  split_and!; [done|done|done|done|done|done|exact Hes'|constructor; [by rewrite Hcr|done..]|done|by rewrite Hops2|by rewrite Hk2| |exact Hcall].
  by rewrite Hsq', Hs2, Hs1, Hsq, Hseq.
Qed.
End AeadRecv.

(** ** chacha20-poly1305 in the packet layer *)

Definition chacha_ops : cipher_ops (option chacha20_poly1305_keysched) :=
  @chacha20poly1305_cipher calloc_allocator demo_stack.
Definition chacha_end : ssh_cipher (option chacha20_poly1305_keysched) :=
  mk_cipher chacha_ops (Some demo_sched) 0 0 0.
Definition chacha_crypto : ssh_crypto (option chacha20_poly1305_keysched) :=
  mk_crypto SSH_DIRECTION_BOTH (Some chacha_end) (Some chacha_end) SSH_HMAC_AEAD_POLY1305
    SSH_HMAC_AEAD_POLY1305 false false [] [] (zrep 64 Byte.x00) 32 None.
Definition chacha_session : session (option chacha20_poly1305_keysched) (@prng Demo.random) () :=
  mk_session Demo.authenticated None (Some (Demo.buffer_of Demo.ignore_packet)) [] PACKET_STATE_INIT
    (mk_packet 0 0 0) 3 3 (Some chacha_crypto) None None 0 0 (mk_timestamp 0 0) (mk_timestamp 0 0)
    zero_buffer tt ().

Lemma aead_packet_roundtrip_witness :
  let more := cstr "next" in
  let newkeys := fun (s : session (option chacha20_poly1305_keysched) (@prng Demo.random) ()) (_ : Z) => Some (0, s) in
  let rekex := fun s : session (option chacha20_poly1305_keysched) (@prng Demo.random) () => Some (0, s) in
  exists s' c' oc' wire r' b' cr' ic',
    @packet_send2 calloc_allocator (Demo.hmac true) Demo.random _ () newkeys chacha_session = Some (SSH_OK, s')
    /\ contents (socket_out s') = wire
    /\ in_buffer r' = Some b' /\ contents b' = cstr "WindTerm" /\ p_type (in_packet r') = 2 /\ same_rest chacha_session r'
    /\ @aead_sender Demo.random _ () s' Current c' oc' /\ @aead_receiver Demo.random _ () r' Current cr' ic'
    /\ c_ops oc' = chacha_ops /\ c_ops ic' = chacha_ops /\ in_step (c_key oc') (c_key ic')
    /\ recv_seq r' = send_seq s'
    /\ @ssh_packet_socket_callback calloc_allocator N_bignum (Demo.hmac true) Demo.random _ () newkeys rekex (fun _ => None)
         (Some (wire ++ more)) chacha_session
       = (r'' ← @ssh_packet_process calloc_allocator N_bignum (Demo.hmac true) Demo.random _ () newkeys rekex (fun _ => None) r' 2;
          @next_packets calloc_allocator N_bignum (Demo.hmac true) Demo.random _ () newkeys rekex (fun _ => None)
            (length (wire ++ more)) (zlen wire) more (set_packet_state PACKET_STATE_INIT r'')).
Proof.
  intros more newkeys rekex.
  apply (@aead_packet_roundtrip calloc_allocator N_bignum (Demo.hmac true) Demo.random _ () newkeys rekex (fun _ => None)
    chacha_session Current chacha_crypto chacha_end in_step (Demo.buffer_of Demo.ignore_packet)
    (z2b SSH2_MSG_IGNORE) (cstr "WindTerm") (zrep 6 Byte.x00) tt
    chacha_session Current chacha_crypto chacha_end more).
  - exact Demo.calloc_succeeds.
  - constructor; try reflexivity. by left.
  - exact (@chachapoly_aead calloc_allocator demo_stack eq_refl).
  - constructor; try done; try (by apply Demo.buffer_of_wf); apply zero_buffer_wf.
  - vm_compute. discriminate.
  - reflexivity.
  - vm_compute. reflexivity.
  - exact I.
  - constructor; try reflexivity. by left.
  - reflexivity.
  - exists demo_sched, demo_sched. split_and!; [done|done|exact demo_sched_keyed|exact demo_sched_keyed|done].
  - reflexivity.
  - split; [discriminate|reflexivity].
  - discriminate.
  - reflexivity.
  - reflexivity.
Defined.
