(* ===== verification/Libcrypto.v ===== *)
(** * The ciphers of OpenSSL ([libssh/src/libcrypto.c], [libssh/src/wrapper.c])

    The wrappers around OpenSSL's EVP interface and the table of the ciphers.  The
    interface itself is a parameter; a null context is a crash, and the bytes a
    call reads through a pointer must be in the block it points to. *)

From S2P Require Import Prelude Buffer Bignum BufferPack Session PacketFilter Misc Crypto Packet PacketRecv.
From S2P Require Import Poly1305 Chacha Chachapoly PacketAead.

(** ** OpenSSL *)

Inductive evp_cipher :=
  | EVP_aes_128_cbc | EVP_aes_192_cbc | EVP_aes_256_cbc
  | EVP_aes_128_ctr | EVP_aes_192_ctr | EVP_aes_256_ctr
  | EVP_aes_128_gcm | EVP_aes_256_gcm
  | EVP_des_ede3_cbc.

Definition EVP_CIPHER_key_length (c : evp_cipher) : Z :=
  match c with
  | EVP_aes_128_cbc | EVP_aes_128_ctr | EVP_aes_128_gcm => 16
  | EVP_aes_192_cbc | EVP_aes_192_ctr | EVP_des_ede3_cbc => 24
  | EVP_aes_256_cbc | EVP_aes_256_ctr | EVP_aes_256_gcm => 32
  end.
Definition EVP_CIPHER_iv_length (c : evp_cipher) : Z :=
  match c with
  | EVP_aes_128_gcm | EVP_aes_256_gcm => 12
  | EVP_des_ede3_cbc => 8
  | _ => 16
  end.

(** The functions of EVP: the value returned, what is written at the output
    pointer, and the context after the call.  [EVP_CIPHER_CTX_ctrl] has a function
    per control, and the updates with a null output one of their own, that gives
    the length in place of the output. *)
Class EvpLib := {
  evp_ctx : Type;
  EVP_CIPHER_CTX_new : option evp_ctx;
  EVP_CIPHER_CTX_reset : evp_ctx -> evp_ctx;
  EVP_EncryptInit_ex : evp_ctx -> option evp_cipher -> bytes -> bytes -> Z * evp_ctx;
  EVP_DecryptInit_ex : evp_ctx -> option evp_cipher -> bytes -> bytes -> Z * evp_ctx;
  EVP_CIPHER_CTX_set_padding : evp_ctx -> Z -> evp_ctx;
  EVP_CTRL_GCM_SET_IV_FIXED : evp_ctx -> bytes -> Z * evp_ctx;
  EVP_CTRL_GCM_IV_GEN : evp_ctx -> Z * evp_ctx;
  EVP_CTRL_GCM_SET_TAG : evp_ctx -> bytes -> Z * evp_ctx;
  EVP_CTRL_GCM_GET_TAG : evp_ctx -> Z -> Z * bytes * evp_ctx;
  EVP_EncryptUpdate : evp_ctx -> bytes -> Z * bytes * evp_ctx;
  EVP_EncryptUpdate_aad : evp_ctx -> bytes -> Z * Z * evp_ctx;
  EVP_EncryptFinal : evp_ctx -> Z * evp_ctx;
  EVP_DecryptUpdate : evp_ctx -> bytes -> Z * bytes * evp_ctx;
  EVP_DecryptUpdate_aad : evp_ctx -> bytes -> Z * Z * evp_ctx;
  EVP_DecryptFinal : evp_ctx -> Z * evp_ctx
}.

Definition AES_GCM_TAGLEN : Z := 16.

Section Evp.
Context `{EvpLib} `{Allocator}.

(** The key state of [struct ssh_cipher_struct]: [cipher->ctx] and
    [cipher->chacha20_schedule]. *)
Record cipher_state := mk_state {
  cs_ctx : option evp_ctx;
  cs_schedule : option chacha20_poly1305_keysched
}.
Definition no_state : cipher_state := mk_state None None.
Definition set_ctx (c : evp_ctx) (k : cipher_state) : cipher_state := mk_state (Some c) (cs_schedule k).

(** What the memory that [ssh_buffer_allocate] reserved holds before it is
    written, and the array [tmp] of chacha.c. *)
Variable fresh : Z -> bytes.
Variable tmp0 : bytes.

(** The cipher that [evp_cipher_init] selects: [None] leaves [cipher->cipher] null. *)
Definition evp_cipher_of (type : ssh_cipher_e) : option evp_cipher :=
  match type with
  | SSH_AES128_CBC => Some EVP_aes_128_cbc
  | SSH_AES192_CBC => Some EVP_aes_192_cbc
  | SSH_AES256_CBC => Some EVP_aes_256_cbc
  | SSH_AES128_CTR => Some EVP_aes_128_ctr
  | SSH_AES192_CTR => Some EVP_aes_192_ctr
  | SSH_AES256_CTR => Some EVP_aes_256_ctr
  | SSH_AEAD_AES128_GCM => Some EVP_aes_128_gcm
  | SSH_AEAD_AES256_GCM => Some EVP_aes_256_gcm
  | SSH_3DES_CBC => Some EVP_des_ede3_cbc
  | SSH_AEAD_CHACHA20_POLY1305 | SSH_NO_CIPHER => None
  end.

Definition evp_cipher_init (k : cipher_state) : cipher_state :=
  match cs_ctx k with
  | Some _ => k
  | None => mk_state EVP_CIPHER_CTX_new (cs_schedule k)
  end.

(** The block of [n] bytes a pointer is read through. *)
Definition read_block (p : bytes) (n : Z) : run bytes := memcpy (zrep n Byte.x00) 0 p 0 n.

Definition is_gcm (type : ssh_cipher_e) : bool :=
  match type with SSH_AEAD_AES128_GCM | SSH_AEAD_AES256_GCM => true | _ => false end.

(** [evp_cipher_set_encrypt_key] and [evp_cipher_set_decrypt_key] with their call
    of EVP. *)
Definition evp_set_key (init : evp_ctx -> option evp_cipher -> bytes -> bytes -> Z * evp_ctx)
    (type : ssh_cipher_e) (k : cipher_state) (key IV : bytes) : run (Z * cipher_state) :=
  let k := evp_cipher_init k in
  ctx ← cs_ctx k;
  let ctx := EVP_CIPHER_CTX_reset ctx in
  '(key, iv) ← match evp_cipher_of type with
               | None => Some ([], [])
               | Some c => key ← read_block key (EVP_CIPHER_key_length c);
                           iv ← read_block IV (EVP_CIPHER_iv_length c); Some (key, iv)
               end;
  let '(rc, ctx) := init ctx (evp_cipher_of type) key iv in
  if negb (rc =? 1) then Some (SSH_ERROR, set_ctx ctx k) else
  let '(rc, ctx) := if is_gcm type then EVP_CTRL_GCM_SET_IV_FIXED ctx iv else (1, ctx) in
  if negb (rc =? 1) then Some (SSH_ERROR, set_ctx ctx k) else
  Some (SSH_OK, set_ctx (EVP_CIPHER_CTX_set_padding ctx 0) k).

Definition evp_cipher_set_encrypt_key (type : ssh_cipher_e) := evp_set_key EVP_EncryptInit_ex type.
Definition evp_cipher_set_decrypt_key (type : ssh_cipher_e) := evp_set_key EVP_DecryptInit_ex type.

(** [out] is the cleared block of [ssh_packet_encrypt]. *)
Definition evp_cipher_encrypt (k : cipher_state) (m : bytes) : run (bytes * cipher_state) :=
  ctx ← cs_ctx k;
  let '(rc, written, ctx) := EVP_EncryptUpdate ctx m in
  out ← memcpy (zrep (zlen m) Byte.x00) 0 written 0 (zlen written);
  Some (out, set_ctx ctx k).

Definition evp_cipher_decrypt (k : cipher_state) (m : bytes) : run (bytes * cipher_state) :=
  ctx ← cs_ctx k;
  let '(rc, written, ctx) := EVP_DecryptUpdate ctx m in
  out ← memcpy (fresh (zlen m)) 0 written 0 (zlen written);
  Some (out, set_ctx ctx k).

(** ** AES-GCM *)

Definition evp_cipher_aead_get_length (k : cipher_state) (m : bytes) (len seq : Z)
    : run (option bytes * cipher_state) :=
  out ← read_block m len; Some (Some out, k).

(** [out] starts cleared; on a failure [out] and [tag] keep what they hold. *)
Definition evp_cipher_aead_encrypt (lenfield tag_size : Z) (k : cipher_state) (m : bytes) (seq : Z)
    : run (bytes * bytes * cipher_state) :=
  let len := zlen m in
  let out := zrep len Byte.x00 in
  ctx ← cs_ctx k;
  let '(rc, ctx) := EVP_CTRL_GCM_IV_GEN ctx in
  if rc =? 0 then Some (out, [], set_ctx ctx k) else
  aad ← read_block m lenfield;
  let '(rc, outlen, ctx) := EVP_EncryptUpdate_aad ctx aad in
  if (rc =? 0) || negb (outlen =? lenfield) then Some (out, [], set_ctx ctx k) else
  out ← memcpy out 0 m 0 lenfield;
  let '(rc, written, ctx) := EVP_EncryptUpdate ctx (zdrop lenfield m) in
  out ← memcpy out lenfield written 0 (zlen written);
  if negb (rc =? 1) || negb (zlen written =? len - lenfield) then Some (out, [], set_ctx ctx k) else
  let '(rc, ctx) := EVP_EncryptFinal ctx in
  if rc <? 0 then Some (out, [], set_ctx ctx k) else
  let '(rc, tag, ctx) := EVP_CTRL_GCM_GET_TAG ctx tag_size in
  Some (out, tag, set_ctx ctx k).

Definition evp_cipher_aead_decrypt (lenfield tag_size : Z) (k : cipher_state)
    (complete_packet : bytes) (encrypted_size seq : Z) : run (option bytes * cipher_state) :=
  ctx ← cs_ctx k;
  let '(rc, ctx) := EVP_CTRL_GCM_IV_GEN ctx in
  if rc =? 0 then Some (None, set_ctx ctx k) else
  tag ← memcpy (zrep tag_size Byte.x00) 0 complete_packet (lenfield + encrypted_size) tag_size;
  let '(rc, ctx) := EVP_CTRL_GCM_SET_TAG ctx tag in
  if rc =? 0 then Some (None, set_ctx ctx k) else
  aad ← read_block complete_packet lenfield;
  let '(rc, _, ctx) := EVP_DecryptUpdate_aad ctx aad in
  if rc =? 0 then Some (None, set_ctx ctx k) else
  text ← memcpy (zrep encrypted_size Byte.x00) 0 complete_packet lenfield encrypted_size;
  let '(rc, written, ctx) := EVP_DecryptUpdate ctx text in
  if negb (rc =? 1) then Some (None, set_ctx ctx k) else
  if negb (zlen written =? encrypted_size) then Some (None, set_ctx ctx k) else
  let '(rc, ctx) := EVP_DecryptFinal ctx in
  if rc <? 0 then Some (None, set_ctx ctx k) else
  Some (Some written, set_ctx ctx k).

(** ** The table *)

Definition evp_ops (type : ssh_cipher_e) (blocksize keysize : Z) : cipher_ops cipher_state :=
  mk_cipher_ops type keysize blocksize 0 (evp_cipher_set_encrypt_key type) (evp_cipher_set_decrypt_key type)
    evp_cipher_encrypt evp_cipher_decrypt None None None.

(** [encrypt] and [decrypt] are null. *)
Definition gcm_ops (type : ssh_cipher_e) (keysize : Z) : cipher_ops cipher_state :=
  mk_cipher_ops type keysize 16 4 (evp_cipher_set_encrypt_key type) (evp_cipher_set_decrypt_key type)
    (fun _ _ => None) (fun _ _ => None)
    (Some (evp_cipher_aead_encrypt 4 AES_GCM_TAGLEN)) (Some evp_cipher_aead_get_length)
    (Some (evp_cipher_aead_decrypt 4 AES_GCM_TAGLEN)).

(** A function of chachapoly.c on the field [chacha20_schedule]. *)
Definition on_schedule {A} (f : option chacha20_poly1305_keysched -> run (A * option chacha20_poly1305_keysched))
    (k : cipher_state) : run (A * cipher_state) :=
  '(a, s) ← f (cs_schedule k); Some (a, mk_state (cs_ctx k) s).

Definition chacha_table_ops : cipher_ops cipher_state :=
  mk_cipher_ops SSH_AEAD_CHACHA20_POLY1305 512 8 4
    (fun k key iv => on_schedule (fun s => chacha20_set_encrypt_key s key iv) k)
    (fun k key iv => on_schedule (fun s => chacha20_set_encrypt_key s key iv) k)
    (fun _ _ => None) (fun _ _ => None)
    (Some (fun k m seq => on_schedule (fun s => chacha20_poly1305_aead_encrypt tmp0 s m seq) k))
    (Some (fun k m len seq => on_schedule (fun s => chacha20_poly1305_aead_decrypt_length tmp0 s m len seq) k))
    (Some (fun k m n seq => on_schedule (fun s => chacha20_poly1305_aead_decrypt tmp0 s m n seq) k)).

(** [ssh_ciphertab], after [ssh_crypto_init] copied the entry of chacha20. *)
Definition ssh_ciphertab : list (bytes * cipher_ops cipher_state) :=
  [ (cstr "aes128-ctr", evp_ops SSH_AES128_CTR 16 128);
    (cstr "aes192-ctr", evp_ops SSH_AES192_CTR 16 192);
    (cstr "aes256-ctr", evp_ops SSH_AES256_CTR 16 256);
    (cstr "aes128-cbc", evp_ops SSH_AES128_CBC 16 128);
    (cstr "aes192-cbc", evp_ops SSH_AES192_CBC 16 192);
    (cstr "aes256-cbc", evp_ops SSH_AES256_CBC 16 256);
    (cstr "aes128-gcm@openssh.com", gcm_ops SSH_AEAD_AES128_GCM 128);
    (cstr "aes256-gcm@openssh.com", gcm_ops SSH_AEAD_AES256_GCM 256);
    (cstr "3des-cbc", evp_ops SSH_3DES_CBC 8 192);
    (cstr "chacha20-poly1305@openssh.com", chacha_table_ops) ].

(** [cipher_new] on the entry: a copy with no key. *)
Definition cipher_new (ops : cipher_ops cipher_state) : ssh_cipher cipher_state := mk_cipher ops no_state 0 0 0.
End Evp.

(** ** The tag of AES-GCM is not verified *)

Section Gcm.
Context `{EvpLib} `{Allocator}.

(** A run of the decryption whose steps before the verification succeed: what they
    wrote, and the context they left. *)
Record gcm_deciphers (k : cipher_state) (packet : bytes) (n : Z) (written : bytes) (last : evp_ctx) : Prop := {
  gd_ctx : exists c0 c1 c2 c3 l,
    cs_ctx k = Some c0 /\ EVP_CTRL_GCM_IV_GEN c0 = (1, c1)
    /\ EVP_CTRL_GCM_SET_TAG c1 (ztake 16 (zdrop (4 + n) packet)) = (1, c2)
    /\ EVP_DecryptUpdate_aad c2 (ztake 4 packet) = (1, l, c3)
    /\ EVP_DecryptUpdate c3 (ztake n (zdrop 4 packet)) = (1, written, last);
  gd_len : zlen written = n
}.

Lemma gcm_decrypt_any_tag k packet n seq written last c rc :
  gcm_deciphers k packet n written last -> 0 <= n -> n + 20 <= zlen packet ->
  EVP_DecryptFinal last = (rc, c) -> rc = 0 \/ rc = 1 ->
  evp_cipher_aead_decrypt 4 AES_GCM_TAGLEN k packet n seq = Some (Some written, set_ctx c k).
Proof.
  intros [(c0 & c1 & c2 & c3 & l & Hk & Hiv & Htag & Haad & Hupd) Hlen] Hn Hp Hfin Hrc.
  unfold evp_cipher_aead_decrypt, read_block, AES_GCM_TAGLEN. rewrite Hk. cbn [mbind option_bind].
  rewrite Hiv. change (1 =? 0) with false. cbv iota.
  rewrite (memcpy_whole packet (4 + n) 16), (memcpy_whole packet 0 4), (memcpy_whole packet 4 n) by lia.
  cbn [mbind option_bind]. rewrite Htag. change (1 =? 0) with false. cbv iota.
  rewrite (zdrop_0 0) by lia. rewrite Haad. change (1 =? 0) with false. cbv iota.
  rewrite Hupd. change (1 =? 1) with true. cbn [negb].
  rewrite Hlen, Z.eqb_refl. cbn [negb]. rewrite Hfin. destruct (Z.ltb_spec rc 0); [lia|done].
Qed.

Context `{BignumLib} `{HmacLib} `{RandomLib} {X : Type}.

(** (C30) [EVP_DecryptFinal] answers 0 when the tag does not match (1 when it does,
    never a negative value), and only negative values are taken for a failure:
    a packet whose verification failed goes on to the dispatch with the payload
    that was deciphered. *)
Theorem gcm_forgery_accepted (r : session cipher_state prng X) slot cr ic type keysize b len data n rest last c k payload padding :
  malloc_succeeds -> c_ops ic = gcm_ops type keysize -> aead_receiver r slot cr ic ->
  in_buffer r = Some b -> buffer_wf b -> contents b = len -> zlen len = 4 -> b_used b <= 4 ->
  p_len (in_packet r) = n -> 0 < n <= MAX_PACKET_LEN -> n mod 16 = 0 -> n + 20 <= zlen data ->
  gcm_deciphers (c_key ic) data n rest last -> EVP_DecryptFinal last = (0, c) -> k = set_ctx c (c_key ic) ->
  rest = z2b (zlen padding) :: payload ++ padding -> 0 < zlen payload -> zlen padding < 256 ->
  exists r2 b2, recv_body (aead_params ic) r data = Some (RGo (n + 20) r2)
    /\ in_buffer r2 = Some b2 /\ contents b2 = payload.
Proof.
  intros Hmem Hops Hr Hib Hwf Hcb Hl4 Hub Hpl Hn Hmod Hdata Hd Hfin -> Hrest Hpay Hpad.
  pose proof Hd as [_ Hlen].
  destruct (recv_body_aead r slot cr ic (evp_cipher_aead_decrypt 4 AES_GCM_TAGLEN) b len data n rest
    (set_ctx c (c_key ic)) payload padding) as (r2 & b2 & c2 & ic2 & Hb & Hib2 & _ & Hc2 & _);
    try done; rewrite ?Hops; try done.
  - by right.
  - eapply gcm_decrypt_any_tag; [done|lia|done|done|by left].
  - by exists r2, b2.
Qed.
End Gcm.

(** ** An example of an EVP interface

    A cipher that masks each byte, with a checksum as its tag: [EVP_DecryptFinal]
    answers 0 for a wrong tag. *)

Module EvpDemo.
Record demo_ctx := mk_demo { dc_tag : bytes; dc_text : bytes }.
Definition checksum (m : bytes) : bytes := zrep 16 (Demo.checksum [] m).

#[export] Instance evp : EvpLib := {|
  evp_ctx := demo_ctx;
  EVP_CIPHER_CTX_new := Some (mk_demo [] []);
  EVP_CIPHER_CTX_reset _ := mk_demo [] [];
  EVP_EncryptInit_ex c _ _ _ := (1, c);
  EVP_DecryptInit_ex c _ _ _ := (1, c);
  EVP_CIPHER_CTX_set_padding c _ := c;
  EVP_CTRL_GCM_SET_IV_FIXED c _ := (1, c);
  EVP_CTRL_GCM_IV_GEN _ := (1, mk_demo [] []);
  EVP_CTRL_GCM_SET_TAG c t := (1, mk_demo t (dc_text c));
  EVP_CTRL_GCM_GET_TAG c n := (1, ztake n (dc_tag c), c);
  EVP_EncryptUpdate c m := (1, Demo.mask m, mk_demo (dc_tag c) (dc_text c ++ Demo.mask m));
  EVP_EncryptUpdate_aad c m := (1, zlen m, mk_demo (dc_tag c) m);
  EVP_EncryptFinal c := (1, mk_demo (checksum (dc_text c)) []);
  EVP_DecryptUpdate c m := (1, Demo.mask m, mk_demo (dc_tag c) (dc_text c ++ m));
  EVP_DecryptUpdate_aad c m := (1, zlen m, mk_demo (dc_tag c) m);
  EVP_DecryptFinal c := (if bool_decide (dc_tag c = checksum (dc_text c)) then 1 else 0, mk_demo [] [])
|}.

Definition gcm_cipher : ssh_cipher cipher_state :=
  mk_cipher (gcm_ops SSH_AEAD_AES128_GCM 128) (mk_state (Some (mk_demo [] [])) None) 0 0 0.
Definition gcm_crypto : ssh_crypto cipher_state :=
  mk_crypto SSH_DIRECTION_BOTH (Some gcm_cipher) (Some gcm_cipher) SSH_HMAC_AEAD_GCM
    SSH_HMAC_AEAD_GCM false false [] [] (zrep 64 Byte.x00) 32 None.
(** A packet of 16 bytes with a tag of zeros, its length read. *)
Definition len : bytes := be_bytes 4 16.
Definition payload : bytes := z2b SSH2_MSG_IGNORE :: cstr "forged".
Definition padding : bytes := zrep 8 Byte.x00.
Definition forged : bytes := len ++ Demo.mask (z2b 8 :: payload ++ padding) ++ zrep 16 Byte.x00.
Definition reading : session cipher_state (@prng Demo.random) () :=
  mk_session Demo.authenticated (Some (Demo.buffer_of len)) (Some zero_buffer) [] PACKET_STATE_SIZEREAD
    (mk_packet 0 16 0) 3 3 (Some gcm_crypto) None None 0 0 (mk_timestamp 0 0) (mk_timestamp 0 0)
    zero_buffer tt ().
End EvpDemo.

Lemma gcm_forgery_accepted_witness :
  exists r2 b2, @recv_body calloc_allocator (Demo.hmac true) Demo.random (@cipher_state EvpDemo.evp) ()
      (aead_params EvpDemo.gcm_cipher) EvpDemo.reading EvpDemo.forged = Some (RGo (16 + 20) r2)
    /\ in_buffer r2 = Some b2 /\ contents b2 = EvpDemo.payload.
Proof.
  apply (@gcm_forgery_accepted EvpDemo.evp calloc_allocator (Demo.hmac true) Demo.random ()
    EvpDemo.reading Current EvpDemo.gcm_crypto EvpDemo.gcm_cipher SSH_AEAD_AES128_GCM 128
    (Demo.buffer_of EvpDemo.len) EvpDemo.len EvpDemo.forged 16 (z2b 8 :: EvpDemo.payload ++ EvpDemo.padding)
    (EvpDemo.mk_demo (zrep 16 Byte.x00) (EvpDemo.len ++ Demo.mask (z2b 8 :: EvpDemo.payload ++ EvpDemo.padding)))
    (EvpDemo.mk_demo [] []) (@mk_state EvpDemo.evp (Some (EvpDemo.mk_demo [] [])) None) EvpDemo.payload EvpDemo.padding).
  - exact Demo.calloc_succeeds.
  - reflexivity.
  - constructor; try reflexivity. by right.
  - reflexivity.
  - apply Demo.buffer_of_wf. vm_compute. discriminate.
  - apply Demo.buffer_of_wf. vm_compute. discriminate.
  - reflexivity.
  - vm_compute. discriminate.
  - reflexivity.
  - split; [reflexivity|vm_compute; discriminate].
  - reflexivity.
  - vm_compute. discriminate.
  - constructor; [|reflexivity]. do 5 eexists. split_and!; reflexivity.
  - vm_compute. reflexivity.
  - reflexivity.
  - reflexivity.
  - reflexivity.
  - reflexivity.
Defined.
