(* ===== verification/NewKeys.v ===== *)
(** * Algorithms and new keys ([libssh/src/wrapper.c], [libssh/src/packet.c])

    The choice of the ciphers and MACs from the negotiated names, for both roles,
    and [ssh_packet_set_newkeys], that prepares the next crypto context and
    switches to it when both directions use it. *)

From S2P Require Import Prelude SshString Buffer Bignum BufferPack Token Session Misc Crypto Packet Kex Kdf SessionId.
From S2P Require Import Chacha Chachapoly Libcrypto.

(** ** Names of keys ([libssh/src/pki.c]) *)

Definition lookup_name {A} (name : bytes) (table : list (string * A)) : option A :=
  match List.find (fun '(s, _) => bool_decide (cstr s = name)) table with
  | Some (_, a) => Some a
  | None => None
  end.

Definition ssh_key_type_from_name (name : option bytes) : ssh_keytypes_e :=
  match name with
  | None => SSH_KEYTYPE_UNKNOWN
  | Some name =>
      default SSH_KEYTYPE_UNKNOWN (lookup_name name
        [ ("rsa", SSH_KEYTYPE_RSA); ("dsa", SSH_KEYTYPE_DSS); ("ssh-rsa", SSH_KEYTYPE_RSA);
          ("ssh-dss", SSH_KEYTYPE_DSS); ("ssh-ecdsa", SSH_KEYTYPE_ECDSA_P256); ("ecdsa", SSH_KEYTYPE_ECDSA_P256);
          ("ecdsa-sha2-nistp256", SSH_KEYTYPE_ECDSA_P256); ("ecdsa-sha2-nistp384", SSH_KEYTYPE_ECDSA_P384);
          ("ecdsa-sha2-nistp521", SSH_KEYTYPE_ECDSA_P521); ("ssh-ed25519", SSH_KEYTYPE_ED25519);
          ("ssh-dss-cert-v01@openssh.com", SSH_KEYTYPE_DSS_CERT01);
          ("ssh-rsa-cert-v01@openssh.com", SSH_KEYTYPE_RSA_CERT01);
          ("ecdsa-sha2-nistp256-cert-v01@openssh.com", SSH_KEYTYPE_ECDSA_P256_CERT01);
          ("ecdsa-sha2-nistp384-cert-v01@openssh.com", SSH_KEYTYPE_ECDSA_P384_CERT01);
          ("ecdsa-sha2-nistp521-cert-v01@openssh.com", SSH_KEYTYPE_ECDSA_P521_CERT01);
          ("ssh-ed25519-cert-v01@openssh.com", SSH_KEYTYPE_ED25519_CERT01) ]%string)
  end.

Definition ssh_key_type_from_signature_name (name : option bytes) : ssh_keytypes_e :=
  if bool_decide (name = Some (cstr "rsa-sha2-256")) || bool_decide (name = Some (cstr "rsa-sha2-512"))
  then SSH_KEYTYPE_RSA else ssh_key_type_from_name name.

Definition ssh_key_hash_from_name (name : option bytes) : ssh_digest_e :=
  match name with
  | None => SSH_DIGEST_AUTO
  | Some name =>
      default SSH_DIGEST_AUTO (lookup_name name
        [ ("ssh-rsa", SSH_DIGEST_SHA1); ("ssh-dss", SSH_DIGEST_SHA1); ("rsa-sha2-256", SSH_DIGEST_SHA256);
          ("rsa-sha2-512", SSH_DIGEST_SHA512); ("ecdsa-sha2-nistp256", SSH_DIGEST_SHA256);
          ("ecdsa-sha2-nistp384", SSH_DIGEST_SHA384); ("ecdsa-sha2-nistp521", SSH_DIGEST_SHA512);
          ("ssh-ed25519", SSH_DIGEST_AUTO) ]%string)
  end.

(** The sizes of [struct ssh_cipher_struct] and [struct ssh_crypto_struct]. *)
Definition SIZEOF_CIPHER : Z := 176.
Definition SIZEOF_CRYPTO : Z := 664.

Section NewKeys.
Context `{EvpLib} `{Allocator} `{BignumLib} `{HashLib} `{RandomLib}.
Variable fresh : Z -> bytes.
Variable tmp0 : bytes.
Notation session := (session cipher_state prng handshake).
Notation crypto := (ssh_crypto cipher_state).
Implicit Type s : session.

(** ** The tables *)

Definition find_cipher (name : bytes) : option (cipher_ops cipher_state) :=
  match List.find (fun '(n, _) => bool_decide (n = name)) (ssh_ciphertab fresh tmp0) with
  | Some (_, ops) => Some ops
  | None => None
  end.
Definition find_hmac (name : bytes) : option (ssh_hmac_e * bool) :=
  match List.find (fun '(n, _, _) => bool_decide (n = name)) ssh_hmac_tab with
  | Some (_, type, etm) => Some (type, etm)
  | None => None
  end.

(** The name of the MAC: that of the cipher when it has one of its own. *)
Definition mac_name (ops : cipher_ops cipher_state) (negotiated : option bytes) : option bytes :=
  if some (aead_encrypt ops) then
    Some (if bool_decide (ciphertype ops = SSH_AEAD_CHACHA20_POLY1305) then cstr "aead-poly1305"
          else cstr "aead-gcm")
  else negotiated.

(** One direction: the cipher and the MAC for the names, as far as they are found.
    A null name is a crash in [strcmp]. *)
Definition pick (cipher mac : option bytes) : run (option (ssh_cipher cipher_state) * option (ssh_hmac_e * bool)) :=
  wanted ← cipher;
  match find_cipher wanted with
  | None => Some (None, None)
  | Some ops =>
      match malloc SIZEOF_CIPHER with
      | None => Some (None, None)
      | Some _ => wanted ← mac_name ops mac; Some (Some (cipher_new ops), find_hmac wanted)
      end
  end.

Definition set_out_hmac (v : ssh_hmac_e * bool) (c : crypto) : crypto :=
  mk_crypto (used c) (in_cipher c) (out_cipher c) (in_hmac c) (fst v) (in_hmac_etm c) (snd v)
    (decryptMAC c) (encryptMAC c) (hmacbuf c) (digest_len c) (session_id c).
Definition set_in_hmac (v : ssh_hmac_e * bool) (c : crypto) : crypto :=
  mk_crypto (used c) (in_cipher c) (out_cipher c) (fst v) (out_hmac c) (snd v) (out_hmac_etm c)
    (decryptMAC c) (encryptMAC c) (hmacbuf c) (digest_len c) (session_id c).

(** Both directions into [next_crypto]: what is set, and whether all is. *)
Definition set_out (p : option (ssh_cipher cipher_state) * option (ssh_hmac_e * bool)) (c : crypto) : bool * crypto :=
  match p with
  | (None, _) => (false, c)
  | (Some oc, None) => (false, set_out_cipher (Some oc) c)
  | (Some oc, Some hm) => (true, set_out_hmac hm (set_out_cipher (Some oc) c))
  end.
Definition set_in (p : option (ssh_cipher cipher_state) * option (ssh_hmac_e * bool)) (c : crypto) : bool * crypto :=
  match p with
  | (None, _) => (false, c)
  | (Some ic, None) => (false, set_in_cipher (Some ic) c)
  | (Some ic, Some hm) => (true, set_in_hmac hm (set_in_cipher (Some ic) c))
  end.

Definition set_next (c : crypto) s : session := set_cryptos (current_crypto s) (Some c) s.

(** The part both roles share: [out] and [inc] are the indices of the cipher and
    the MAC of each direction. *)
Definition set_ciphers (out inc : nat * nat) s : run (bool * session) :=
  c ← next_crypto s;
  let method i := kex_methods (upper s) !! i in
  oc ← method (fst out); om ← method (snd out);
  p ← pick oc om;
  let '(ok, c) := set_out p c in
  if negb ok then Some (false, set_next c s) else
  ic ← method (fst inc); im ← method (snd inc);
  p ← pick ic im;
  let '(ok, c) := set_in p c in
  Some (ok, set_next c s).

Definition is_method (name : string) (m : option bytes) : run bool := m ← m; Some (bool_decide (m = cstr name)).

Definition set_compression (dout din delout delin : bool) (a : algorithms) : algorithms :=
  mk_algorithms (dout || do_compress_out a) (din || do_compress_in a) (delout || delayed_compress_out a)
    (delin || delayed_compress_in a) (hostkey a) (hostkey_digest a) (kex_callbacks a).

(** ** [crypt_set_algorithms_client] *)

Definition crypt_set_algorithms2 s : run (Z * session) :=
  '(ok, s) ← set_ciphers (SSH_CRYPT_C_S, SSH_MAC_C_S) (SSH_CRYPT_S_C, SSH_MAC_S_C) s;
  if negb (ok : bool) then Some (SSH_ERROR, s) else
  cs ← kex_methods (upper s) !! SSH_COMP_C_S;
  sc ← kex_methods (upper s) !! SSH_COMP_S_C;
  out ← is_method "zlib" cs; inc ← is_method "zlib" sc;
  dout ← is_method "zlib@openssh.com" cs; dinc ← is_method "zlib@openssh.com" sc;
  Some (SSH_OK, upd (set_algos (set_compression out inc dout dinc (algos (upper s)))) s).

Definition crypt_set_algorithms_client s : run (Z * session) := crypt_set_algorithms2 s.

(** ** [crypt_set_algorithms_server] *)

Definition kex_family_of (t : ssh_key_exchange_e) : kex_family :=
  match t with
  | SSH_KEX_DH_GROUP1_SHA1 | SSH_KEX_DH_GROUP14_SHA1 | SSH_KEX_DH_GROUP14_SHA256
  | SSH_KEX_DH_GROUP16_SHA512 | SSH_KEX_DH_GROUP18_SHA512 => KEX_DH
  | SSH_KEX_DH_GEX_SHA1 | SSH_KEX_DH_GEX_SHA256 => KEX_DHGEX
  | SSH_KEX_ECDH_SHA2_NISTP256 | SSH_KEX_ECDH_SHA2_NISTP384 | SSH_KEX_ECDH_SHA2_NISTP521 => KEX_ECDH
  | SSH_KEX_CURVE25519_SHA256 | SSH_KEX_CURVE25519_SHA256_LIBSSH_ORG => KEX_CURVE25519
  end.

Definition set_hostkey (method : option bytes) (a : algorithms) : algorithms :=
  mk_algorithms (do_compress_out a) (do_compress_in a) (delayed_compress_out a) (delayed_compress_in a)
    (ssh_key_type_from_signature_name method) (ssh_key_hash_from_name method) (kex_callbacks a).
Definition set_kex_callbacks (f : kex_family) (a : algorithms) : algorithms :=
  mk_algorithms (do_compress_out a) (do_compress_in a) (delayed_compress_out a) (delayed_compress_in a)
    (hostkey a) (hostkey_digest a) (Some f).

Definition crypt_set_algorithms_server s : run (Z * session) :=
  '(ok, s) ← set_ciphers (SSH_CRYPT_S_C, SSH_MAC_S_C) (SSH_CRYPT_C_S, SSH_MAC_C_S) s;
  if negb (ok : bool) then Some (SSH_ERROR, s) else
  cs ← kex_methods (upper s) !! SSH_COMP_C_S;
  sc ← kex_methods (upper s) !! SSH_COMP_S_C;
  inc ← is_method "zlib" cs; dinc ← is_method "zlib@openssh.com" cs;
  out ← is_method "zlib" sc; dout ← is_method "zlib@openssh.com" sc;
  let auth := flag_authenticated (proto_of s) in
  hk ← kex_methods (upper s) !! SSH_HOSTKEYS;
  let a := set_compression (out || dout && auth) (inc || dinc && auth) (dout && negb auth) (dinc && negb auth)
             (algos (upper s)) in
  let a := set_hostkey hk a in
  match kex_type (upper s) with
  | None => Some (SSH_ERROR, upd (set_algos a) s)
  | Some t => Some (SSH_OK, upd (set_algos (set_kex_callbacks (kex_family_of t) a)) s)
  end.

(** ** [ssh_packet_set_newkeys] *)

(** [crypto_new]: no MAC is chosen; the field is not read before one is. *)
Definition crypto_new : option crypto :=
  match malloc SIZEOF_CRYPTO with
  | None => None
  | Some _ => Some (mk_crypto 0 None None SSH_HMAC_SHA1 SSH_HMAC_SHA1 false false [] []
                      (zrep DIGEST_MAX_LEN Byte.x00) 0 None)
  end.

(** Both directions use [next]: it becomes the current context, and the next one
    starts with the identifier of the session. *)
Definition switch_crypto (next : crypto) s : run (Z * session) :=
  let cur := set_crypto_used SSH_DIRECTION_BOTH next in
  let s := upd fresh_next s in
  match crypto_new with
  | None => Some (SSH_ERROR, set_cryptos (Some cur) None s)
  | Some n =>
      match malloc (digest_len cur) with
      | None => Some (SSH_ERROR, set_cryptos (Some cur) (Some n) s)
      | Some p =>
          id ← session_id cur;
          p ← memcpy p 0 id 0 (digest_len cur);
          Some (SSH_OK, set_cryptos (Some cur) (Some (set_session_id (Some p) n)) s)
      end
  end.

Definition set_limits s : run session :=
  c ← next_crypto s;
  oc ← out_cipher c; oc ← ssh_init_rekey_state (rekey_data s) oc;
  ic ← in_cipher c; ic ← ssh_init_rekey_state (rekey_data s) ic;
  let s := set_next (set_in_cipher (Some ic) (set_out_cipher (Some oc) c)) s in
  Some (if negb (rekey_time s =? 0) then set_last_rekey_time (now s) s else s).

(** The key schedules; after a failure the context is not used. *)
Definition install_keys s : run (Z * session) :=
  c ← next_crypto s;
  ic ← in_cipher c; oc ← out_cipher c;
  let ks := keys (upper s) in
  '(rc, k) ← set_decrypt_key (c_ops ic) (c_key ic) (decryptkey ks) (decryptIV ks);
  let c := set_in_cipher (Some (set_key k ic)) c in
  if rc <? 0 then Some (SSH_ERROR, set_next (set_crypto_used 0 c) s) else
  '(rc, k) ← set_encrypt_key (c_ops oc) (c_key oc) (encryptkey ks) (encryptIV ks);
  let c := set_out_cipher (Some (set_key k oc)) c in
  if rc <? 0 then Some (SSH_ERROR, set_next (set_crypto_used 0 c) s) else
  Some (SSH_OK, set_next c s).

(** The derivation of the keys and what follows it. *)
Definition prepare_keys s : run (Z * session) :=
  '(rc, s) ← ssh_generate_session_keys s;
  if rc <? 0 then Some (SSH_ERROR, s) else
  c ← next_crypto s;
  if negb (some (in_cipher c) && some (out_cipher c)) then Some (SSH_ERROR, s) else
  s ← set_limits s;
  install_keys s.

Definition ssh_packet_set_newkeys s (direction : Z) : run (Z * session) :=
  match next_crypto s with
  | None => Some (SSH_ERROR, s)
  | Some next =>
      let next := set_crypto_used (Z.lor (used next) direction) next in
      let cur := option_map (fun c => set_crypto_used (Z.land (used c) (Z.lnot direction)) c) (current_crypto s) in
      let s := set_cryptos cur (Some next) s in
      if used next =? SSH_DIRECTION_BOTH then switch_crypto next s else
      '(rc, s) ← (if is_client s then
                    '(rc, s) ← ssh_make_sessionid s;
                    if negb (rc =? SSH_OK) then Some (SSH_ERROR, s) else
                    '(rc, s) ← crypt_set_algorithms_client s;
                    Some (if rc <? 0 then SSH_ERROR else SSH_OK, s)
                  else Some (SSH_OK, s));
      if negb (rc =? SSH_OK) then Some (SSH_ERROR, s) else
      prepare_keys s
  end.
End NewKeys.

(** ** Facts *)

Section NewKeysFacts.
Context `{EvpLib} `{Allocator} `{BignumLib} `{HashLib} `{RandomLib}.
Variable fresh : Z -> bytes.
Variable tmp0 : bytes.
Notation session := (session cipher_state prng handshake).
Notation crypto := (ssh_crypto cipher_state).
Implicit Type s r : session.

(** The names a proposal may hold: those of the tables of kex.c. *)
Definition cipher_names : list bytes := tokens_of (nth SSH_CRYPT_C_S supported_methods []).
Definition mac_names : list bytes := tokens_of (nth SSH_MAC_C_S supported_methods []).

Lemma read_block_ok p n : 0 <= n <= zlen p -> read_block p n = Some (ztake n p).
Proof.
  intros Hn. unfold read_block. rewrite memcpy_whole by lia. by rewrite (zdrop_0 0) by lia.
Qed.

(** What every entry of the table has in common. *)
Record entry_ok (name : bytes) (ops : cipher_ops cipher_state) : Prop := {
  eo_block : block_size_ok (blocksize ops);
  eo_keysize : 0 < keysize ops /\ keysize ops mod 8 = 0;
  eo_mac : forall mac, In mac mac_names ->
    exists m hm, mac_name ops (Some mac) = Some m /\ find_hmac m = Some hm
}.

Lemma macs_found : forallb (fun m => some (find_hmac m)) mac_names = true.
Proof. vm_compute. reflexivity. Qed.

Lemma mac_found mac : In mac mac_names -> exists hm, find_hmac mac = Some hm.
Proof.
  intros Hin. pose proof macs_found as Hall. rewrite forallb_forall in Hall. specialize (Hall mac Hin).
  destruct (find_hmac mac) as [hm|]; [by exists hm|discriminate].
Qed.

Lemma table_entries name ops : In (name, ops) (ssh_ciphertab fresh tmp0) -> entry_ok name ops.
Proof.
  intros Hin. cbn [ssh_ciphertab In] in Hin.
  repeat match type of Hin with _ \/ _ => destruct Hin as [Hin|Hin] end; try done; injection Hin as <- <-;
    (split; [by (left; reflexivity) || (right; reflexivity)|cbn; split; [lia|reflexivity]|]);
    intros mac Hmac; unfold mac_name; cbn [aead_encrypt evp_ops gcm_ops chacha_table_ops some];
    first [destruct (mac_found mac Hmac) as [hm Hh]; by exists mac, hm | do 2 eexists; split; reflexivity].
Qed.

Lemma find_cipher_in name ops : find_cipher fresh tmp0 name = Some ops -> In (name, ops) (ssh_ciphertab fresh tmp0).
Proof.
  unfold find_cipher. destruct (List.find _ _) as [[n o]|] eqn:E; [|done]. intros [= <-].
  apply List.find_some in E as [Hin Hb]. by apply bool_decide_eq_true_1 in Hb as ->.
Qed.

Lemma ciphers_found : forallb (fun n => some (find_cipher fresh tmp0 n)) cipher_names = true.
Proof. vm_compute. reflexivity. Qed.

Lemma cipher_found name : In name cipher_names -> exists ops, find_cipher fresh tmp0 name = Some ops.
Proof.
  intros Hin. pose proof ciphers_found as Hall. rewrite forallb_forall in Hall. specialize (Hall name Hin).
  destruct (find_cipher fresh tmp0 name) as [ops|]; [by exists ops|discriminate].
Qed.

(** A pair of supported names gives a cipher and a MAC. *)
Lemma pick_ok cipher mac :
  malloc_never_fails -> In cipher cipher_names -> In mac mac_names ->
  exists ops hm, pick fresh tmp0 (Some cipher) (Some mac) = Some (Some (cipher_new ops), Some hm)
    /\ In (cipher, ops) (ssh_ciphertab fresh tmp0).
Proof.
  intros Hm Hc Hmac. unfold pick. cbn [mbind option_bind].
  destruct (cipher_found cipher Hc) as [ops Hops]. rewrite Hops. apply find_cipher_in in Hops as Hin.
  destruct (malloc SIZEOF_CIPHER) as [p|] eqn:Hp; [|by apply Hm in Hp].
  destruct (eo_mac _ _ (table_entries cipher ops Hin) mac Hmac) as (m & hm & Hmn & Hf).
  rewrite Hmn. cbn [mbind option_bind]. rewrite Hf. by exists ops, hm.
Qed.
End NewKeysFacts.

(** ** Properties *)

Section NewKeysProperties.
Context `{EvpLib} `{Allocator} `{BignumLib} `{HashLib} `{RandomLib}.
Variable fresh : Z -> bytes.
Variable tmp0 : bytes.
Notation session := (session cipher_state prng handshake).
Notation crypto := (ssh_crypto cipher_state).
Implicit Type s r : session.

Lemma evp_key_fits init type c key iv :
  EVP_CIPHER_CTX_new <> None -> evp_cipher_of type = Some c ->
  EVP_CIPHER_key_length c <= zlen key -> 16 <= zlen iv ->
  exists rc k, evp_set_key init type no_state key iv = Some (rc, k) /\ (rc = SSH_OK \/ rc = SSH_ERROR).
Proof.
  intros Hnew Hc Hk Hiv. unfold evp_set_key, evp_cipher_init, no_state. cbn [cs_ctx].
  destruct EVP_CIPHER_CTX_new as [ctx|]; [|done]. cbn [mbind option_bind cs_ctx]. rewrite Hc.
  rewrite read_block_ok by (destruct c; cbn in *; lia). cbn [mbind option_bind].
  rewrite read_block_ok by (destruct c; cbn in *; lia). cbn [mbind option_bind].
  destruct (init _ _ _ _) as [rc ctx']. destruct (negb (rc =? 1)).
  - do 2 eexists. split; [reflexivity|by right].
  - destruct (if is_gcm type then _ else _) as [rc' ctx'']. destruct (negb (rc' =? 1)).
    + do 2 eexists. split; [reflexivity|by right].
    + do 2 eexists. split; [reflexivity|by left].
Qed.

Lemma chacha_key_fits key iv :
  64 <= zlen key ->
  exists rc k, on_schedule (fun sc => chacha20_set_encrypt_key sc key iv) no_state = Some (rc, k)
    /\ (rc = SSH_OK \/ rc = SSH_ERROR).
Proof.
  intros Hk. unfold on_schedule, chacha20_set_encrypt_key, no_state. cbn [cs_schedule].
  destruct (malloc 128) as [p|] eqn:Hp; cbn [mbind option_bind].
  2:{ do 2 eexists. split; [reflexivity|by right]. }
  apply malloc_zlen in Hp; [|lia].
  destruct (load_words_bytes 16 p) as (a & Ea & La & _); [lia|]. rewrite Ea. cbn [mbind option_bind].
  destruct (load_words_bytes 16 (zdrop 64 p)) as (b & Eb & Lb & _); [rewrite zlen_drop; lia|]. rewrite Eb.
  pose proof (load_words_range _ _ _ Ea) as [_ Wa]. pose proof (load_words_range _ _ _ Eb) as [_ Wb].
  cbn [mbind option_bind k1 k2]. change (CHACHA20_KEYLEN * 8) with 256. change CHACHA20_KEYLEN with 32.
  destruct (keysetup_spec b key Lb) as (kb & -> & _); [by apply Forall_drop|lia|]. cbn [mbind option_bind].
  destruct (keysetup_spec a (zdrop 32 key) La) as (ka & -> & _); [by apply Forall_drop|rewrite zlen_drop; lia|].
  do 2 eexists. split; [reflexivity|by left].
Qed.

Lemma keys_fit name ops key iv :
  In (name, ops) (ssh_ciphertab fresh tmp0) -> EVP_CIPHER_CTX_new <> None ->
  zlen key = keysize ops / 8 -> md_len SSH_KDF_SHA1 <= zlen iv ->
  (exists rc k, set_encrypt_key ops no_state key iv = Some (rc, k) /\ (rc = SSH_OK \/ rc = SSH_ERROR))
  /\ (exists rc k, set_decrypt_key ops no_state key iv = Some (rc, k) /\ (rc = SSH_OK \/ rc = SSH_ERROR)).
Proof.
  intros Hin Hnew Hk Hiv. change (md_len SSH_KDF_SHA1) with 20 in Hiv. cbn [ssh_ciphertab In] in Hin.
  repeat match type of Hin with _ \/ _ => destruct Hin as [Hin|Hin] end; try done; injection Hin as _ <-;
    match type of Hk with _ = ?n => let v := eval vm_compute in n in change n with v in Hk end;
    split; cbn [set_encrypt_key set_decrypt_key evp_ops gcm_ops chacha_table_ops];
    first [apply chacha_key_fits; lia
          |eapply evp_key_fits; [done|reflexivity|cbn; lia|lia]].
Qed.

(** Every cipher a side proposes is in the table, and reads its key and its IV
    within the blocks that [ssh_generate_session_keys] derives for it: as many
    bytes of key as the entry says, and an IV of the length of the digest, at
    least that of SHA-1. *)
Theorem cipher_keys_fit name key iv :
  In name cipher_names -> EVP_CIPHER_CTX_new <> None -> md_len SSH_KDF_SHA1 <= zlen iv ->
  exists ops, find_cipher fresh tmp0 name = Some ops
  /\ (zlen key = keysize ops / 8 ->
      (exists rc k, set_encrypt_key ops no_state key iv = Some (rc, k) /\ (rc = SSH_OK \/ rc = SSH_ERROR))
      /\ (exists rc k, set_decrypt_key ops no_state key iv = Some (rc, k) /\ (rc = SSH_OK \/ rc = SSH_ERROR))).
Proof.
  intros Hin Hnew Hiv. destruct (cipher_found fresh tmp0 name Hin) as [ops Hops]. exists ops.
  split; [done|]. intros Hk. by apply (keys_fit name); [apply find_cipher_in|..].
Qed.

(** The methods a negotiation of supported algorithms chooses: ciphers and MACs of
    both directions, and compression methods. *)
Record chosen (ms : list (option bytes)) (ccs csc mcs msc zcs zsc hk : bytes) : Prop := {
  ch_hostkey : ms !! SSH_HOSTKEYS = Some (Some hk);
  ch_crypt_cs : ms !! SSH_CRYPT_C_S = Some (Some ccs);
  ch_crypt_sc : ms !! SSH_CRYPT_S_C = Some (Some csc);
  ch_mac_cs : ms !! SSH_MAC_C_S = Some (Some mcs);
  ch_mac_sc : ms !! SSH_MAC_S_C = Some (Some msc);
  ch_comp_cs : ms !! SSH_COMP_C_S = Some (Some zcs);
  ch_comp_sc : ms !! SSH_COMP_S_C = Some (Some zsc);
  ch_ccs : In ccs cipher_names;
  ch_csc : In csc cipher_names;
  ch_mcs : In mcs mac_names;
  ch_msc : In msc mac_names
}.

(** The ciphers and MACs of the two directions in a context. *)
Definition has_algorithms (c : crypto) (oops iops : cipher_ops cipher_state) (oh ih : ssh_hmac_e * bool) : Prop :=
  out_cipher c = Some (cipher_new oops) /\ in_cipher c = Some (cipher_new iops)
  /\ (out_hmac c, out_hmac_etm c) = oh /\ (in_hmac c, in_hmac_etm c) = ih.

Lemma set_ciphers_spec s c o mo i mi on mon inn min :
  malloc_never_fails -> next_crypto s = Some c ->
  kex_methods (upper s) !! o = Some (Some on) -> kex_methods (upper s) !! mo = Some (Some mon) ->
  kex_methods (upper s) !! i = Some (Some inn) -> kex_methods (upper s) !! mi = Some (Some min) ->
  In on cipher_names -> In inn cipher_names -> In mon mac_names -> In min mac_names ->
  exists oops iops oh ih c',
    set_ciphers fresh tmp0 (o, mo) (i, mi) s = Some (true, set_next c' s)
    /\ has_algorithms c' oops iops oh ih
    /\ used c' = used c /\ session_id c' = session_id c /\ digest_len c' = digest_len c
    /\ In (on, oops) (ssh_ciphertab fresh tmp0) /\ In (inn, iops) (ssh_ciphertab fresh tmp0)
    /\ pick fresh tmp0 (Some on) (Some mon) = Some (Some (cipher_new oops), Some oh)
    /\ pick fresh tmp0 (Some inn) (Some min) = Some (Some (cipher_new iops), Some ih).
Proof.
  intros Hm Hc Ho Hmo Hi Hmi Hon Hin Hmon Hmin. unfold set_ciphers. rewrite Hc. cbn [mbind option_bind fst snd].
  rewrite Ho, Hmo. cbn [mbind option_bind].
  destruct (pick_ok fresh tmp0 on mon) as (oops & oh & Hp & Hino); try done. rewrite Hp. cbn [mbind option_bind set_out negb].
  rewrite Hi, Hmi. cbn [mbind option_bind].
  destruct (pick_ok fresh tmp0 inn min) as (iops & ih & Hp' & Hini); try done. rewrite Hp'. cbn [mbind option_bind set_in].
  exists oops, iops, oh, ih. eexists. split_and!; [reflexivity| |done..].
  destruct oh, ih. by repeat split.
Qed.

(** (C27) A client and a server that negotiated the same supported methods set the same
    algorithms: what one sends with, the other receives with.  The names found in
    the tables of proposals never fail, and the first context of a session has
    compression where the other end has it. *)
Theorem algorithms_mirror s r c cr ms ccs csc mcs msc zcs zsc hk t :
  malloc_never_fails -> next_crypto s = Some c -> next_crypto r = Some cr ->
  kex_methods (upper s) = ms -> kex_methods (upper r) = ms -> chosen ms ccs csc mcs msc zcs zsc hk ->
  kex_type (upper r) = Some t ->
  exists s' r' c' cr' oops iops oh ih,
    crypt_set_algorithms_client fresh tmp0 s = Some (SSH_OK, s') /\ next_crypto s' = Some c'
    /\ crypt_set_algorithms_server fresh tmp0 r = Some (SSH_OK, r') /\ next_crypto r' = Some cr'
    /\ has_algorithms c' oops iops oh ih /\ has_algorithms cr' iops oops ih oh
    /\ kex_callbacks (algos (upper r')) = Some (kex_family_of t)
    /\ (algos (upper s) = no_algorithms -> algos (upper r) = no_algorithms ->
        flag_authenticated (proto_of r) = false ->
        let a := algos (upper s') in let b := algos (upper r') in
        do_compress_out a = do_compress_in b /\ do_compress_in a = do_compress_out b
        /\ delayed_compress_out a = delayed_compress_in b /\ delayed_compress_in a = delayed_compress_out b).
Proof.
  intros Hm Hc Hcr Hms Hmr Hch Ht. destruct Hch. rewrite <- Hms in *.
  destruct (set_ciphers_spec s c SSH_CRYPT_C_S SSH_MAC_C_S SSH_CRYPT_S_C SSH_MAC_S_C ccs mcs csc msc)
    as (oops & iops & oh & ih & c' & E & Ha & _ & _ & _ & _ & _ & Po & Pi); try done.
  destruct (set_ciphers_spec r cr SSH_CRYPT_S_C SSH_MAC_S_C SSH_CRYPT_C_S SSH_MAC_C_S csc msc ccs mcs)
    as (oops' & iops' & oh' & ih' & cr' & E' & Ha' & _ & _ & _ & _ & _ & Po' & Pi'); try done; try (by rewrite Hmr).
  rewrite Po in Pi'. injection Pi' as <- <-. rewrite Pi in Po'. injection Po' as <- <-.
  unfold crypt_set_algorithms_client, crypt_set_algorithms2, crypt_set_algorithms_server. rewrite E, E'.
  cbn [mbind option_bind negb]. change (upper (set_next c' s)) with (upper s).
  change (upper (set_next cr' r)) with (upper r). rewrite Hmr, ch_comp_cs0, ch_comp_sc0, ch_hostkey0.
  unfold is_method. cbn [mbind option_bind]. rewrite Ht.
  do 4 eexists. exists oops, iops, oh, ih. split_and!; [reflexivity|reflexivity|reflexivity|reflexivity|done|done|done|].
  intros Hs0 Hr0 Hauth. cbn [upd upper set_upper algos set_algos set_kex_callbacks set_hostkey set_compression
    do_compress_out do_compress_in delayed_compress_out delayed_compress_in].
  change (proto_of (set_next cr' r)) with (proto_of r). rewrite Hs0, Hr0, Hauth. cbn [negb no_algorithms
    do_compress_out do_compress_in delayed_compress_out delayed_compress_in].
  by rewrite !orb_false_r, !andb_false_r, !andb_true_r, !orb_false_r.
Qed.

(** After authentication the two roles differ: a rekeying with zlib@openssh.com
    makes the server compress at once, and the client only when it is told that
    the authentication succeeded, which does not happen again. *)
Theorem rekey_compression_diverges s r c cr ms ccs csc mcs msc hk t :
  malloc_never_fails -> next_crypto s = Some c -> next_crypto r = Some cr ->
  kex_methods (upper s) = ms -> kex_methods (upper r) = ms ->
  chosen ms ccs csc mcs msc (cstr "zlib@openssh.com") (cstr "zlib@openssh.com") hk ->
  kex_type (upper r) = Some t ->
  algos (upper s) = no_algorithms -> flag_authenticated (proto_of r) = true ->
  exists s' r',
    crypt_set_algorithms_client fresh tmp0 s = Some (SSH_OK, s')
    /\ crypt_set_algorithms_server fresh tmp0 r = Some (SSH_OK, r')
    /\ do_compress_out (algos (upper s')) = false /\ do_compress_in (algos (upper r')) = true
    /\ do_compress_in (algos (upper s')) = false /\ do_compress_out (algos (upper r')) = true.
Proof.
  intros Hm Hc Hcr Hms Hmr Hch Ht Ha Hauth. destruct Hch. rewrite <- Hms in *.
  destruct (set_ciphers_spec s c SSH_CRYPT_C_S SSH_MAC_C_S SSH_CRYPT_S_C SSH_MAC_S_C ccs mcs csc msc)
    as (oops & iops & oh & ih & c' & E & _); try done.
  destruct (set_ciphers_spec r cr SSH_CRYPT_S_C SSH_MAC_S_C SSH_CRYPT_C_S SSH_MAC_C_S csc msc ccs mcs)
    as (oops' & iops' & oh' & ih' & cr' & E' & _); try done; try (by rewrite Hmr).
  unfold crypt_set_algorithms_client, crypt_set_algorithms2, crypt_set_algorithms_server. rewrite E, E'.
  cbn [mbind option_bind negb]. change (upper (set_next c' s)) with (upper s).
  change (upper (set_next cr' r)) with (upper r). rewrite Hmr, ch_comp_cs0, ch_comp_sc0, ch_hostkey0.
  unfold is_method. cbn [mbind option_bind]. rewrite Ht, Ha.
  change (proto_of (set_next cr' r)) with (proto_of r). rewrite Hauth.
  do 2 eexists. split_and!; reflexivity.
Qed.

(** *** [ssh_packet_set_newkeys] *)

Lemma init_rekey_ok data (c : ssh_cipher cipher_state) :
  block_size_ok (blocksize (c_ops c)) ->
  exists max, ssh_init_rekey_state data c = Some (mk_cipher (c_ops c) (c_key c) 0 0 max).
Proof.
  intros Hb. unfold ssh_init_rekey_state. destruct Hb as [->| ->]; cbn; by eexists.
Qed.

Lemma set_limits_ok s c oc ic :
  next_crypto s = Some c -> out_cipher c = Some oc -> in_cipher c = Some ic ->
  block_size_ok (blocksize (c_ops oc)) -> block_size_ok (blocksize (c_ops ic)) ->
  exists mo mi s', set_limits s = Some s'
    /\ next_crypto s' = Some (set_in_cipher (Some (mk_cipher (c_ops ic) (c_key ic) 0 0 mi))
                               (set_out_cipher (Some (mk_cipher (c_ops oc) (c_key oc) 0 0 mo)) c))
    /\ upper s' = upper s.
Proof.
  intros Hc Ho Hi Hbo Hbi. unfold set_limits. rewrite Hc. cbn [mbind option_bind]. rewrite Ho. cbn [mbind option_bind].
  destruct (init_rekey_ok (rekey_data s) oc Hbo) as [mo ->]. cbn [mbind option_bind]. rewrite Hi.
  cbn [mbind option_bind]. destruct (init_rekey_ok (rekey_data s) ic Hbi) as [mi ->]. cbn [mbind option_bind].
  exists mo, mi. eexists. split; [reflexivity|].
  change (rekey_time (set_next _ s)) with (rekey_time s). by destruct (negb (rekey_time s =? 0)).
Qed.

(** A cipher whose key is set, with its counters at zero. *)
Definition keyed_with (set : cipher_state -> bytes -> bytes -> run (Z * cipher_state)) ops (key iv : bytes)
    (c : option (ssh_cipher cipher_state)) : Prop :=
  exists k max, set no_state key iv = Some (SSH_OK, k) /\ c = Some (mk_cipher ops k 0 0 max).

Lemma install_keys_ok s c oops iops mo mi on inn :
  next_crypto s = Some c -> In (on, oops) (ssh_ciphertab fresh tmp0) -> In (inn, iops) (ssh_ciphertab fresh tmp0) ->
  out_cipher c = Some (mk_cipher oops no_state 0 0 mo) -> in_cipher c = Some (mk_cipher iops no_state 0 0 mi) ->
  EVP_CIPHER_CTX_new <> None ->
  let ks := keys (upper s) in
  zlen (encryptkey ks) = keysize oops / 8 -> zlen (decryptkey ks) = keysize iops / 8 ->
  md_len SSH_KDF_SHA1 <= zlen (encryptIV ks) -> md_len SSH_KDF_SHA1 <= zlen (decryptIV ks) ->
  exists rc s' c', install_keys s = Some (rc, s') /\ next_crypto s' = Some c' /\ upper s' = upper s
    /\ session_id c' = session_id c
    /\ (rc = SSH_OK /\ used c' = used c
        /\ keyed_with (set_encrypt_key oops) oops (encryptkey ks) (encryptIV ks) (out_cipher c')
        /\ keyed_with (set_decrypt_key iops) iops (decryptkey ks) (decryptIV ks) (in_cipher c')
        \/ rc = SSH_ERROR /\ used c' = 0).
Proof.
  intros Hc Hon Hin Ho Hi Hnew ks Hek Hdk Hei Hdi. unfold install_keys. rewrite Hc. cbn [mbind option_bind].
  rewrite Hi, Ho. cbn [mbind option_bind c_ops c_key]. fold ks.
  destruct (keys_fit inn iops (decryptkey ks) (decryptIV ks) Hin Hnew Hdk Hdi) as [_ (rc & k & Ed & Hrc)].
  rewrite Ed. cbn [mbind option_bind]. destruct Hrc as [-> | ->].
  2:{ change (SSH_ERROR <? 0) with true. cbv iota. do 3 eexists. split_and!; [reflexivity..|]. by right. }
  change (SSH_OK <? 0) with false. cbv iota.
  destruct (keys_fit on oops (encryptkey ks) (encryptIV ks) Hon Hnew Hek Hei) as [(rc' & k' & Ee & Hrc') _].
  rewrite Ee. cbn [mbind option_bind]. destruct Hrc' as [-> | ->].
  - change (SSH_OK <? 0) with false. cbv iota. do 3 eexists. split_and!; [reflexivity..|]. left.
    split_and!; [done|done| |]; do 2 eexists; split; (done || reflexivity).
  - change (SSH_ERROR <? 0) with true. cbv iota. do 3 eexists. split_and!; [reflexivity..|]. by right.
Qed.

(** The keys of an end, by its role. *)
Definition role_keys (cli : bool) (md : ssh_kdf_digest) (k h id : bytes) (oops iops : cipher_ops cipher_state)
    (ks : session_keys) : Prop :=
  let up := if cli then ("A", "C")%byte else ("B", "D")%byte in
  let down := if cli then ("B", "D")%byte else ("A", "C")%byte in
  encryptIV ks = rfc_key md k h (fst up) id (md_len md)
  /\ encryptkey ks = rfc_key md k h (snd up) id (keysize oops / 8)
  /\ decryptIV ks = rfc_key md k h (fst down) id (md_len md)
  /\ decryptkey ks = rfc_key md k h (snd down) id (keysize iops / 8)
  /\ secret_hash ks = Some h.

Lemma role_keys_generated s c n (oc ic : ssh_cipher cipher_state) md h id :
  secret_hash (keys (upper s)) = Some h ->
  role_keys (is_client s) md (lv (mpint n)) h id (c_ops oc) (c_ops ic)
    (keys (upper (generated s c n oc ic md h id))).
Proof. intros Hh. unfold generated, role_keys. by destruct (is_client s). Qed.

Lemma generated_crypto s c n (oc ic : ssh_cipher cipher_state) md h id :
  exists c', next_crypto (generated s c n oc ic md h id) = Some c' /\ out_cipher c' = out_cipher c
    /\ in_cipher c' = in_cipher c /\ session_id c' = session_id c /\ used c' = used c.
Proof. unfold generated. destruct (is_client s); eexists; split; reflexivity || done. Qed.

Lemma md_len_sha1 md : md_len SSH_KDF_SHA1 <= md_len md.
Proof. by destruct md. Qed.

Lemma prepare_keys_ok s c n oops iops md h id on inn :
  malloc_never_fails -> EVP_CIPHER_CTX_new <> None ->
  keys_ready s c n (cipher_new oops) (cipher_new iops) md h id ->
  In (on, oops) (ssh_ciphertab fresh tmp0) -> In (inn, iops) (ssh_ciphertab fresh tmp0) ->
  exists rc s' c', prepare_keys s = Some (rc, s') /\ next_crypto s' = Some c' /\ session_id c' = Some id
    /\ role_keys (is_client s) md (lv (mpint n)) h id oops iops (keys (upper s'))
    /\ (rc = SSH_OK /\ used c' = used c
        /\ keyed_with (set_encrypt_key oops) oops (encryptkey (keys (upper s'))) (encryptIV (keys (upper s'))) (out_cipher c')
        /\ keyed_with (set_decrypt_key iops) iops (decryptkey (keys (upper s'))) (decryptIV (keys (upper s'))) (in_cipher c')
        \/ rc = SSH_ERROR /\ used c' = 0).
Proof.
  intros Hm Hnew Hr Hon Hin. unfold prepare_keys.
  rewrite (generate_session_keys_spec s c n _ _ md h id Hm Hr). cbn [mbind option_bind].
  change (0 <? 0) with false. cbv iota.
  pose proof (role_keys_generated s c n (cipher_new oops) (cipher_new iops) md h id) as Hkeys.
  specialize (Hkeys (kr_hash _ _ _ _ (gr_kdf _ _ _ _ _ _ _ _ Hr))).
  destruct (generated_crypto s c n (cipher_new oops) (cipher_new iops) md h id) as (c1 & Hc1 & Ho1 & Hi1 & Hid1 & Hu1).
  rewrite (gr_out _ _ _ _ _ _ _ _ Hr) in Ho1. rewrite (gr_in _ _ _ _ _ _ _ _ Hr) in Hi1.
  set (s1 := generated _ _ _ _ _ _ _ _) in *. rewrite Hc1. cbn [mbind option_bind]. rewrite Ho1, Hi1. cbn [some andb negb].
  destruct (table_entries fresh tmp0 on oops Hon) as [Hbo [Hko _] _].
  destruct (table_entries fresh tmp0 inn iops Hin) as [Hbi [Hki _] _].
  destruct (set_limits_ok s1 c1 (cipher_new oops) (cipher_new iops)) as (mo & mi & s2 & -> & Hc2 & Hup); try done.
  cbn [mbind option_bind]. cbn [c_ops c_key cipher_new] in *. rewrite <- Hup in Hkeys.
  destruct Hkeys as (K1 & K2 & K3 & K4 & K5). pose proof (md_len_range md). pose proof (md_len_sha1 md).
  assert (0 <= keysize oops / 8) by (apply Z.div_pos; lia). assert (0 <= keysize iops / 8) by (apply Z.div_pos; lia).
  destruct (install_keys_ok s2 _ oops iops mo mi on inn Hc2) as (rc & s3 & c3 & -> & Hc3 & Hup3 & Hid3 & Hres); try done.
  { rewrite K2. by apply rfc_key_len. }
  { rewrite K4. by apply rfc_key_len. }
  { rewrite K1, rfc_key_len; lia. }
  { rewrite K3, rfc_key_len; lia. }
  exists rc, s3, c3. rewrite Hup3. split_and!; [done|done| | |].
  - rewrite Hid3. cbn [session_id set_in_cipher set_out_cipher]. rewrite Hid1.
    exact (kr_id _ _ _ _ (gr_kdf _ _ _ _ _ _ _ _ Hr)).
  - done.
  - cbn [used set_in_cipher set_out_cipher] in Hres. by rewrite Hu1 in Hres.
Qed.

(** The first NEWKEYS of a client, in either direction, after an exchange with
    supported methods: nothing is read outside of its block; the derived keys are
    those of RFC 4253 for the exchange hash; and either both ciphers hold their
    keys, with counters at zero, or OpenSSL refused one and the context is not
    used in any direction. *)
Theorem client_newkeys_installs s c t v_c v_s i_c i_s blob fs n ccs csc mcs msc zcs zsc hk dir :
  malloc_never_fails -> EVP_CIPHER_CTX_new <> None -> is_client s = true ->
  exchange_done s c t v_c v_s i_c i_s blob fs n ->
  chosen (kex_methods (upper s)) ccs csc mcs msc zcs zsc hk ->
  Z.lor (used c) dir <> SSH_DIRECTION_BOTH ->
  (forall id, session_id c = Some id -> zlen id = md_len (kex_digest t)) ->
  let h := EVP_Digest (kex_digest t) (transcript v_c v_s i_c i_s (string_text blob) fs n) in
  let id := default h (session_id c) in
  exists rc s' c' oops iops,
    ssh_packet_set_newkeys fresh tmp0 s dir = Some (rc, s') /\ next_crypto s' = Some c'
    /\ In (ccs, oops) (ssh_ciphertab fresh tmp0) /\ In (csc, iops) (ssh_ciphertab fresh tmp0)
    /\ session_id c' = Some id
    /\ role_keys true (kex_digest t) (lv (mpint n)) h id oops iops (keys (upper s'))
    /\ (rc = SSH_OK /\ used c' = Z.lor (used c) dir
        /\ keyed_with (set_encrypt_key oops) oops (encryptkey (keys (upper s'))) (encryptIV (keys (upper s'))) (out_cipher c')
        /\ keyed_with (set_decrypt_key iops) iops (decryptkey (keys (upper s'))) (decryptIV (keys (upper s'))) (in_cipher c')
        \/ rc = SSH_ERROR /\ used c' = 0).
Proof.
  intros Hm Hnew Hcli Hd Hch Hdir Hidlen h id. unfold ssh_packet_set_newkeys.
  rewrite (ed_crypto _ _ _ _ _ _ _ _ _ _ Hd). cbv zeta. cbn [used set_crypto_used].
  rewrite (proj2 (Z.eqb_neq _ _)) by done.
  set (cur := option_map _ _). set (next := set_crypto_used _ c). set (s0 := set_cryptos cur (Some next) s).
  change (is_client s0) with (is_client s). rewrite Hcli.
  assert (Hd0 : exchange_done s0 next t v_c v_s i_c i_s blob fs n) by (by destruct Hd; constructor).
  rewrite (make_sessionid_spec s0 next t v_c v_s i_c i_s blob fs n Hm Hd0). fold h.
  cbn [mbind option_bind]. change (negb (SSH_OK =? SSH_OK)) with false. cbv iota.
  destruct (hashed_fields s0 next (kex_digest t) h) as (c1 & Hc1 & Hk1 & Hl1 & Hid1 & _ & _ & Hu1 & He1).
  assert (Hcli1 : is_client (hashed s0 next (kex_digest t) h) = true) by done.
  assert (Hms1 : kex_methods (upper (hashed s0 next (kex_digest t) h)) = kex_methods (upper s)) by done.
  assert (Hdt1 : digest_type (keys (upper (hashed s0 next (kex_digest t) h))) = Some (kex_digest t)) by done.
  set (s1 := hashed s0 next (kex_digest t) h) in *. destruct Hch. rewrite <- Hms1 in *.
  destruct (set_ciphers_spec s1 c1 SSH_CRYPT_C_S SSH_MAC_C_S SSH_CRYPT_S_C SSH_MAC_S_C ccs mcs csc msc)
    as (oops & iops & oh & ih & c2 & E & (Ho2 & Hi2 & _) & Hu2 & Hid2 & Hl2 & Hon & Hin & _); try done.
  unfold crypt_set_algorithms_client, crypt_set_algorithms2. rewrite E. cbn [mbind option_bind negb].
  change (upper (set_next c2 s1)) with (upper s1). rewrite ch_comp_cs0, ch_comp_sc0.
  unfold is_method. cbn [mbind option_bind]. change (SSH_OK <? 0) with false. cbv iota.
  set (s2 := upd _ _). change (negb (SSH_OK =? SSH_OK)) with false. cbv iota.
  assert (Hh : zlen h = md_len (kex_digest t)) by apply EVP_Digest_size.
  change (session_id next) with (session_id c) in Hid1. fold id in Hid1.
  assert (Hidl : zlen id = md_len (kex_digest t)).
  { subst id. destruct (session_id c) as [i|] eqn:Ei; [by apply Hidlen|done]. }
  assert (Hr : keys_ready s2 c2 n (cipher_new oops) (cipher_new iops) (kex_digest t) h id).
  { destruct (table_entries fresh tmp0 ccs oops Hon) as [_ [Hko _] _].
    destruct (table_entries fresh tmp0 csc iops Hin) as [_ [Hki _] _].
    pose proof (ed_size _ _ _ _ _ _ _ _ _ _ Hd) as Hsz. unfold transcript in Hsz. rewrite !zlen_app, !zlen_lv in Hsz.
    pose proof (zlen_nonneg v_c). pose proof (zlen_nonneg v_s). pose proof (zlen_nonneg i_c).
    pose proof (zlen_nonneg i_s). pose proof (zlen_nonneg (string_text blob)). pose proof (zlen_nonneg (fields_encode fs)).
    constructor; try done; try (by apply Hd); try lia.
    - cbn [cipher_new c_ops]. lia.
    - cbn [cipher_new c_ops]. lia.
    - constructor; try done; cbn [kdf_of ki_len ki_session_id]; [congruence|congruence|apply Hd]. }
  destruct (prepare_keys_ok s2 c2 n oops iops (kex_digest t) h id ccs csc Hm Hnew Hr Hon Hin)
    as (rc & s3 & c3 & -> & Hc3 & Hid3 & Hkeys & Hres).
  change (is_client s2) with (is_client s) in Hkeys. rewrite Hcli in Hkeys. rewrite Hu2, Hu1 in Hres.
  by exists rc, s3, c3, oops, iops.
Qed.

(** When the second direction switches, the next context becomes the current one for
    both directions, with its keys; the state of the key exchange is new, and
    keeps the identifier of the session. *)
Theorem newkeys_switch s c id dir :
  malloc_never_fails -> next_crypto s = Some c -> Z.lor (used c) dir = SSH_DIRECTION_BOTH ->
  session_id c = Some id -> zlen id = digest_len c ->
  exists s' n', ssh_packet_set_newkeys fresh tmp0 s dir = Some (SSH_OK, s')
    /\ current_crypto s' = Some (set_crypto_used SSH_DIRECTION_BOTH c)
    /\ next_crypto s' = Some n' /\ session_id n' = Some id /\ used n' = 0 /\ in_cipher n' = None /\ out_cipher n' = None
    /\ client_kex (upper s') = zero_kex /\ server_kex (upper s') = zero_kex /\ keys (upper s') = no_keys
    /\ shared_secret (exch (upper s')) = None.
Proof.
  intros Hm Hc Hb Hid Hl. pose proof (zlen_nonneg id). unfold ssh_packet_set_newkeys. rewrite Hc. cbv zeta.
  cbn [used set_crypto_used]. rewrite Hb, Z.eqb_refl. unfold switch_crypto, crypto_new.
  destruct (malloc SIZEOF_CRYPTO) as [m|] eqn:Em; [|by apply Hm in Em].
  cbn [digest_len set_crypto_used session_id].
  destruct (malloc (digest_len c)) as [p|] eqn:Ep; [|apply Hm in Ep; [done|lia]].
  apply malloc_zlen in Ep; [|lia]. rewrite Hid. cbn [mbind option_bind]. rewrite memcpy_over by lia.
  cbn [mbind option_bind]. do 2 eexists. split_and!; [reflexivity|reflexivity|reflexivity|reflexivity|done..].
Qed.
End NewKeysProperties.

(** ** A concrete exchange *)

Module NewKeysDemo.
Definition names (zlib : string) : list (option bytes) := map (fun n => Some (cstr n))
  ["curve25519-sha256"; "rsa-sha2-512"; "aes256-ctr"; "chacha20-poly1305@openssh.com"; "hmac-sha2-256";
   "hmac-sha2-512-etm@openssh.com"; zlib; zlib; ""; ""]%string.

Definition state := @cipher_state EvpDemo.evp.
Definition crypto (used : Z) (len : Z) (id : option bytes) : ssh_crypto state :=
  mk_crypto used None None SSH_HMAC_SHA1 SSH_HMAC_SHA1 false false [] [] (zrep 64 Byte.x00) len id.

(** One end after the exchange of [SidDemo], with its methods selected. *)
Definition ended (srv : bool) (fl : Z) (zlib : string) (c : ssh_crypto state)
    : session state (@prng Demo.random) (@handshake N_bignum) :=
  mk_session (mkProto (negb srv) srv fl SSH_SESSION_STATE_DH DH_STATE_NEWKEYS_SENT
      SSH_CHANNEL_REQ_STATE_NONE SSH_AUTH_SERVICE_NONE SSH_AUTH_STATE_NONE)
    None (Some zero_buffer) [] PACKET_STATE_PROCESSING (mk_packet 0 0 0) 0 0 None (Some c)
    None 0 0 (mk_timestamp 0 0) (mk_timestamp 0 0) zero_buffer tt
    (set_selection (names zlib) (Some SSH_KEX_CURVE25519_SHA256)
       (upper (SidDemo.ended srv SSH_KEX_CURVE25519_SHA256 None))).

Lemma names_chosen zlib : chosen (names zlib) (cstr "aes256-ctr") (cstr "chacha20-poly1305@openssh.com")
  (cstr "hmac-sha2-256") (cstr "hmac-sha2-512-etm@openssh.com") (cstr zlib) (cstr zlib) (cstr "rsa-sha2-512").
Proof. constructor; try reflexivity; vm_compute; tauto. Qed.

Lemma exchange_ended c : @exchange_done N_bignum (KdfDemo.hash true) Demo.random state (ended false 0 "none" c) c
  SSH_KEX_CURVE25519_SHA256 SidDemo.v_c SidDemo.v_s (SidDemo.i_c ++ no_guess) (SidDemo.i_s ++ no_guess)
  SidDemo.blob (SidDemo.public SSH_KEX_CURVE25519_SHA256) 0x80ff%N.
Proof.
  pose proof (SidDemo.ended_done false SSH_KEX_CURVE25519_SHA256 None (or_introl eq_refl)) as Hd.
  destruct Hd. constructor; done.
Qed.

Lemma context_made : @EVP_CIPHER_CTX_new EvpDemo.evp <> None.
Proof. done. Qed.
End NewKeysDemo.

Lemma cipher_keys_fit_witness :
  let find := @find_cipher EvpDemo.evp calloc_allocator (fun n => zrep n Byte.x00) Chachapoly.demo_stack in
  exists ops, find (cstr "aes256-ctr") = Some ops
  /\ (zlen (zrep 32 Byte.x01) = keysize ops / 8 ->
      (exists rc k, set_encrypt_key ops (@no_state EvpDemo.evp) (zrep 32 Byte.x01) (zrep 20 Byte.x02) = Some (rc, k)
         /\ (rc = SSH_OK \/ rc = SSH_ERROR))
      /\ (exists rc k, set_decrypt_key ops (@no_state EvpDemo.evp) (zrep 32 Byte.x01) (zrep 20 Byte.x02) = Some (rc, k)
         /\ (rc = SSH_OK \/ rc = SSH_ERROR))).
Proof.
  apply (@cipher_keys_fit EvpDemo.evp calloc_allocator (fun n => zrep n Byte.x00) Chachapoly.demo_stack
    (cstr "aes256-ctr") (zrep 32 Byte.x01) (zrep 20 Byte.x02));
    [vm_compute; repeat (first [left; reflexivity|right])|apply NewKeysDemo.context_made|vm_compute; discriminate].
Defined.

Lemma algorithms_mirror_witness :
  let s := NewKeysDemo.ended false 0 "zlib@openssh.com" (NewKeysDemo.crypto 0 0 None) in
  let r := NewKeysDemo.ended true 0 "zlib@openssh.com" (NewKeysDemo.crypto 0 0 None) in
  let fresh := fun n => zrep n Byte.x00 in
  exists s' r' c' cr' oops iops oh ih,
    @crypt_set_algorithms_client EvpDemo.evp calloc_allocator N_bignum Demo.random fresh Chachapoly.demo_stack s
      = Some (SSH_OK, s') /\ next_crypto s' = Some c'
    /\ @crypt_set_algorithms_server EvpDemo.evp calloc_allocator N_bignum Demo.random fresh Chachapoly.demo_stack r
      = Some (SSH_OK, r') /\ next_crypto r' = Some cr'
    /\ has_algorithms c' oops iops oh ih /\ has_algorithms cr' iops oops ih oh
    /\ kex_callbacks (algos (upper r')) = Some (kex_family_of SSH_KEX_CURVE25519_SHA256)
    /\ (algos (upper s) = no_algorithms -> algos (upper r) = no_algorithms ->
        flag_authenticated (proto_of r) = false ->
        let a := algos (upper s') in let b := algos (upper r') in
        do_compress_out a = do_compress_in b /\ do_compress_in a = do_compress_out b
        /\ delayed_compress_out a = delayed_compress_in b /\ delayed_compress_in a = delayed_compress_out b).
Proof.
  eapply (@algorithms_mirror EvpDemo.evp calloc_allocator N_bignum Demo.random);
    [apply KdfDemo.calloc_never_fails|reflexivity|reflexivity|reflexivity|reflexivity
    |apply NewKeysDemo.names_chosen|reflexivity].
Defined.

Lemma rekey_compression_diverges_witness :
  let s := NewKeysDemo.ended false SSH_SESSION_FLAG_AUTHENTICATED "zlib@openssh.com" (NewKeysDemo.crypto 0 0 None) in
  let r := NewKeysDemo.ended true SSH_SESSION_FLAG_AUTHENTICATED "zlib@openssh.com" (NewKeysDemo.crypto 0 0 None) in
  let fresh := fun n => zrep n Byte.x00 in
  exists s' r',
    @crypt_set_algorithms_client EvpDemo.evp calloc_allocator N_bignum Demo.random fresh Chachapoly.demo_stack s
      = Some (SSH_OK, s')
    /\ @crypt_set_algorithms_server EvpDemo.evp calloc_allocator N_bignum Demo.random fresh Chachapoly.demo_stack r
      = Some (SSH_OK, r')
    /\ do_compress_out (algos (upper s')) = false /\ do_compress_in (algos (upper r')) = true
    /\ do_compress_in (algos (upper s')) = false /\ do_compress_out (algos (upper r')) = true.
Proof.
  eapply (@rekey_compression_diverges EvpDemo.evp calloc_allocator N_bignum Demo.random);
    [apply KdfDemo.calloc_never_fails|reflexivity|reflexivity|reflexivity|reflexivity
    |apply NewKeysDemo.names_chosen|reflexivity|reflexivity|reflexivity].
Defined.

Lemma client_newkeys_installs_witness :
  let s := NewKeysDemo.ended false 0 "none" (NewKeysDemo.crypto 0 0 None) in
  exists rc s' c', @ssh_packet_set_newkeys EvpDemo.evp calloc_allocator N_bignum (KdfDemo.hash true) Demo.random
      (fun n => zrep n Byte.x00) Chachapoly.demo_stack s SSH_DIRECTION_OUT = Some (rc, s')
    /\ next_crypto s' = Some c' /\ (rc = SSH_OK /\ used c' = SSH_DIRECTION_OUT \/ rc = SSH_ERROR /\ used c' = 0).
Proof.
  destruct (@client_newkeys_installs EvpDemo.evp calloc_allocator N_bignum (KdfDemo.hash true) Demo.random
    (fun n => zrep n Byte.x00) Chachapoly.demo_stack
    (NewKeysDemo.ended false 0 "none" (NewKeysDemo.crypto 0 0 None)) (NewKeysDemo.crypto 0 0 None)
    SSH_KEX_CURVE25519_SHA256 SidDemo.v_c SidDemo.v_s (SidDemo.i_c ++ no_guess) (SidDemo.i_s ++ no_guess) SidDemo.blob
    (SidDemo.public SSH_KEX_CURVE25519_SHA256) 0x80ff%N (cstr "aes256-ctr") (cstr "chacha20-poly1305@openssh.com")
    (cstr "hmac-sha2-256") (cstr "hmac-sha2-512-etm@openssh.com") (cstr "none") (cstr "none") (cstr "rsa-sha2-512")
    SSH_DIRECTION_OUT KdfDemo.calloc_never_fails NewKeysDemo.context_made eq_refl (NewKeysDemo.exchange_ended _)
    (NewKeysDemo.names_chosen "none")) as (rc & s' & c' & oops & iops & E & Hc & _ & _ & _ & _ & Hres).
  - discriminate.
  - intros id Hid. discriminate Hid.
  - exists rc, s', c'. split; [exact E|]. split; [exact Hc|].
    destruct Hres as [(Hrc & Hu & _)|Hres]; [left; split; [exact Hrc|exact Hu]|right; exact Hres].
Defined.

Lemma newkeys_switch_witness :
  let c := NewKeysDemo.crypto SSH_DIRECTION_OUT 32 (Some (zrep 32 Byte.x09)) in
  exists s' n', @ssh_packet_set_newkeys EvpDemo.evp calloc_allocator N_bignum (KdfDemo.hash true) Demo.random
      (fun n => zrep n Byte.x00) Chachapoly.demo_stack (NewKeysDemo.ended false 0 "none" c) SSH_DIRECTION_IN
      = Some (SSH_OK, s')
    /\ current_crypto s' = Some (set_crypto_used SSH_DIRECTION_BOTH c)
    /\ next_crypto s' = Some n' /\ session_id n' = Some (zrep 32 Byte.x09) /\ used n' = 0
    /\ in_cipher n' = None /\ out_cipher n' = None
    /\ client_kex (upper s') = zero_kex /\ server_kex (upper s') = zero_kex /\ keys (upper s') = no_keys
    /\ shared_secret (exch (upper s')) = None.
Proof.
  apply (@newkeys_switch EvpDemo.evp calloc_allocator N_bignum (KdfDemo.hash true) Demo.random);
    [apply KdfDemo.calloc_never_fails|reflexivity|reflexivity|reflexivity|reflexivity].
Defined.
