(* ===== verification/Pki.v ===== *)
(** * Keys and signatures ([libssh/src/pki.c], [libssh/src/pki_crypto.c])

    The blobs of public keys and of signatures, which digests a key may be used
    with, and the signatures of a key exchange and of an authentication, for a
    build with OpenSSL 1.1.1 (the Ed25519 keys are OpenSSL's).  The keys of OpenSSL
    and its signature schemes are the class [KeyLib]. *)

From S2P Require Import Prelude SshString Buffer Bignum BufferPack Session Misc Crypto Packet Kex Kdf SessionId.
From S2P Require Import Chacha Chachapoly Libcrypto NewKeys.

Definition SSH_KEY_FLAG_PUBLIC : Z := 1.
Definition SSH_KEY_FLAG_PRIVATE : Z := 2.
Definition ED25519_KEY_LEN : Z := 32.
Definition ED25519_SIG_LEN : Z := 64.
Definition SIZEOF_KEY : Z := 80.
Definition SIZEOF_SIGNATURE : Z := 24.

(** The curves OpenSSL numbers. *)
Definition NID_X9_62_prime256v1 : Z := 415.
Definition NID_secp384r1 : Z := 715.
Definition NID_secp521r1 : Z := 716.

(** ** Names and types *)

Definition ssh_key_type_to_char (type : ssh_keytypes_e) : option bytes :=
  match type with
  | SSH_KEYTYPE_DSS => Some (cstr "ssh-dss")
  | SSH_KEYTYPE_RSA => Some (cstr "ssh-rsa")
  | SSH_KEYTYPE_ECDSA => Some (cstr "ssh-ecdsa")
  | SSH_KEYTYPE_ECDSA_P256 => Some (cstr "ecdsa-sha2-nistp256")
  | SSH_KEYTYPE_ECDSA_P384 => Some (cstr "ecdsa-sha2-nistp384")
  | SSH_KEYTYPE_ECDSA_P521 => Some (cstr "ecdsa-sha2-nistp521")
  | SSH_KEYTYPE_ED25519 => Some (cstr "ssh-ed25519")
  | SSH_KEYTYPE_DSS_CERT01 => Some (cstr "ssh-dss-cert-v01@openssh.com")
  | SSH_KEYTYPE_RSA_CERT01 => Some (cstr "ssh-rsa-cert-v01@openssh.com")
  | SSH_KEYTYPE_ECDSA_P256_CERT01 => Some (cstr "ecdsa-sha2-nistp256-cert-v01@openssh.com")
  | SSH_KEYTYPE_ECDSA_P384_CERT01 => Some (cstr "ecdsa-sha2-nistp384-cert-v01@openssh.com")
  | SSH_KEYTYPE_ECDSA_P521_CERT01 => Some (cstr "ecdsa-sha2-nistp521-cert-v01@openssh.com")
  | SSH_KEYTYPE_ED25519_CERT01 => Some (cstr "ssh-ed25519-cert-v01@openssh.com")
  | SSH_KEYTYPE_RSA1 | SSH_KEYTYPE_UNKNOWN => None
  end.

Definition ssh_key_signature_to_char (type : ssh_keytypes_e) (hash_type : ssh_digest_e) : option bytes :=
  match type with
  | SSH_KEYTYPE_RSA =>
      match hash_type with
      | SSH_DIGEST_SHA256 => Some (cstr "rsa-sha2-256")
      | SSH_DIGEST_SHA512 => Some (cstr "rsa-sha2-512")
      | SSH_DIGEST_SHA1 | SSH_DIGEST_AUTO => Some (cstr "ssh-rsa")
      | SSH_DIGEST_SHA384 => None
      end
  | SSH_KEYTYPE_RSA_CERT01 =>
      match hash_type with
      | SSH_DIGEST_SHA256 => Some (cstr "rsa-sha2-256-cert-v01@openssh.com")
      | SSH_DIGEST_SHA512 => Some (cstr "rsa-sha2-512-cert-v01@openssh.com")
      | SSH_DIGEST_SHA1 | SSH_DIGEST_AUTO => Some (cstr "ssh-rsa-cert-v01@openssh.com")
      | SSH_DIGEST_SHA384 => None
      end
  | _ => ssh_key_type_to_char type
  end.

Definition ssh_key_type_plain (type : ssh_keytypes_e) : ssh_keytypes_e :=
  match type with
  | SSH_KEYTYPE_DSS_CERT01 => SSH_KEYTYPE_DSS
  | SSH_KEYTYPE_RSA_CERT01 => SSH_KEYTYPE_RSA
  | SSH_KEYTYPE_ECDSA_P256_CERT01 => SSH_KEYTYPE_ECDSA_P256
  | SSH_KEYTYPE_ECDSA_P384_CERT01 => SSH_KEYTYPE_ECDSA_P384
  | SSH_KEYTYPE_ECDSA_P521_CERT01 => SSH_KEYTYPE_ECDSA_P521
  | SSH_KEYTYPE_ED25519_CERT01 => SSH_KEYTYPE_ED25519
  | type => type
  end.

Definition is_cert_type (type : ssh_keytypes_e) : bool :=
  match type with
  | SSH_KEYTYPE_DSS_CERT01 | SSH_KEYTYPE_RSA_CERT01 | SSH_KEYTYPE_ECDSA_P256_CERT01
  | SSH_KEYTYPE_ECDSA_P384_CERT01 | SSH_KEYTYPE_ECDSA_P521_CERT01 | SSH_KEYTYPE_ED25519_CERT01 => true
  | _ => false
  end.

Definition pki_key_ecdsa_nid_to_name (nid : Z) : bytes :=
  if nid =? NID_X9_62_prime256v1 then cstr "ecdsa-sha2-nistp256" else
  if nid =? NID_secp384r1 then cstr "ecdsa-sha2-nistp384" else
  if nid =? NID_secp521r1 then cstr "ecdsa-sha2-nistp521" else cstr "unknown".

Definition pki_key_ecdsa_nid_to_char (nid : Z) : bytes :=
  if nid =? NID_X9_62_prime256v1 then cstr "nistp256" else
  if nid =? NID_secp384r1 then cstr "nistp384" else
  if nid =? NID_secp521r1 then cstr "nistp521" else cstr "unknown".

Definition pki_key_ecdsa_nid_from_name (name : bytes) : Z :=
  default (-1) (lookup_name name
    [("nistp256", NID_X9_62_prime256v1); ("nistp384", NID_secp384r1); ("nistp521", NID_secp521r1)]%string).

(** ** OpenSSL's keys *)

(** What an [EVP_PKEY] is made from. *)
Inductive pkey_source {RSA DSA EC_KEY : Type} :=
  | From_RSA (k : RSA)
  | From_DSA (k : DSA)
  | From_EC (k : EC_KEY)
  | Raw_private (seed : bytes)
  | Raw_public (point : bytes).

(** The functions that make a key of public parts stand for the calls that
    allocate it and set them; [None]: one of these failed. *)
Class KeyLib `{BignumLib} := {
  RSA : Type;
  DSA : Type;
  EC_KEY : Type;
  EVP_PKEY : Type;
  RSA_public : bignum -> bignum -> option RSA;                       (* n, e *)
  RSA_n : RSA -> bignum;
  RSA_e : RSA -> bignum;
  RSA_size : RSA -> Z;
  DSA_public : bignum -> bignum -> bignum -> bignum -> option DSA;   (* p, q, g, y *)
  DSA_pqgy : DSA -> bignum * bignum * bignum * bignum;
  EC_public : Z -> bytes -> option EC_KEY;                           (* curve, octets of the point *)
  EC_point2oct : EC_KEY -> bytes;                                    (* empty: failure *)
  EC_KEY_demote : Z -> EC_KEY -> option EC_KEY;
  EC_KEY_dup : EC_KEY -> option EC_KEY;
  i2d_SIG : bignum -> bignum -> option bytes;                        (* DSA_SIG and ECDSA_SIG *)
  d2i_SIG : bytes -> option (bignum * bignum);
  EVP_PKEY_of : @pkey_source RSA DSA EC_KEY -> option EVP_PKEY;
  EVP_PKEY_size : EVP_PKEY -> Z;
  EVP_MD_CTX_created : bool;
  EVP_DigestSignInit : option ssh_digest_e -> EVP_PKEY -> Z;
  EVP_DigestSign : option ssh_digest_e -> EVP_PKEY -> bytes -> option bytes;
  EVP_DigestVerifyInit : option ssh_digest_e -> EVP_PKEY -> Z;
  EVP_DigestVerify : option ssh_digest_e -> EVP_PKEY -> bytes -> bytes -> Z;
  (* documented behaviour *)
  RSA_sign_size : forall r p md d sig, EVP_PKEY_of (From_RSA r) = Some p ->
    EVP_DigestSign md p d = Some sig -> zlen sig = RSA_size r;
  RSA_size_bound : forall r, 0 < RSA_size r < 2 ^ 16;
  RSA_public_size : forall r r', bn_val (RSA_n r') = bn_val (RSA_n r) -> RSA_size r' = RSA_size r;
  RSA_public_parts : forall n e r, RSA_public n e = Some r -> RSA_n r = n /\ RSA_e r = e;
  RSA_accepts : forall r r' p p' md d sig,
    bn_val (RSA_n r') = bn_val (RSA_n r) -> bn_val (RSA_e r') = bn_val (RSA_e r) ->
    EVP_PKEY_of (From_RSA r) = Some p -> EVP_PKEY_of (From_RSA r') = Some p' ->
    EVP_DigestSign md p d = Some sig -> EVP_DigestVerify md p' sig d = 1;
  ed25519_point : bytes -> bytes;                                    (* of a seed *)
  ed25519_point_size : forall seed, zlen (ed25519_point seed) = ED25519_KEY_LEN;
  ED25519_sign_size : forall seed p md d sig, EVP_PKEY_of (Raw_private seed) = Some p ->
    EVP_DigestSign md p d = Some sig -> zlen sig = ED25519_SIG_LEN;
  ED25519_accepts : forall seed p p' md d sig,
    EVP_PKEY_of (Raw_private seed) = Some p -> EVP_PKEY_of (Raw_public (ed25519_point seed)) = Some p' ->
    EVP_DigestSign md p d = Some sig -> EVP_DigestVerify md p' sig d = 1
}.

(** ** Keys and signatures *)

Record ssh_key `{KeyLib} := mk_key {
  key_type : ssh_keytypes_e;
  key_flags : Z;
  key_type_c : option bytes;
  ecdsa_nid : Z;
  key_dsa : option DSA;
  key_rsa : option RSA;
  key_ecdsa : option EC_KEY;
  ed25519_pubkey : option bytes;
  ed25519_privkey : option bytes;
  key_cert : option ssh_buffer
}.

Record ssh_signature := mk_signature {
  sig_type : ssh_keytypes_e;
  sig_hash : ssh_digest_e;
  sig_type_c : option bytes;
  raw_sig : option ssh_string
}.

Section Pki.
Context `{Allocator} `{KeyLib} `{RandomLib}.
Implicit Type key : ssh_key.

Variable fips_mode : bool.

(** [ssh_key_new], for the fields that [pki_import_pubkey_buffer] sets first. *)
Definition public_key (type : ssh_keytypes_e) (type_c : option bytes) : option ssh_key :=
  match malloc SIZEOF_KEY with
  | None => None
  | Some _ => Some (mk_key _ _ type SSH_KEY_FLAG_PUBLIC type_c 0 None None None None None None)
  end.

Definition set_rsa (k : RSA) key : ssh_key :=
  mk_key _ _ (key_type key) (key_flags key) (key_type_c key) (ecdsa_nid key) (key_dsa key) (Some k)
    (key_ecdsa key) (ed25519_pubkey key) (ed25519_privkey key) (key_cert key).
Definition set_dsa (k : DSA) key : ssh_key :=
  mk_key _ _ (key_type key) (key_flags key) (key_type_c key) (ecdsa_nid key) (Some k) (key_rsa key)
    (key_ecdsa key) (ed25519_pubkey key) (ed25519_privkey key) (key_cert key).
Definition set_ecdsa (type_c : option bytes) (nid : Z) (k : option EC_KEY) key : ssh_key :=
  mk_key _ _ (key_type key) (key_flags key) type_c nid (key_dsa key) (key_rsa key)
    k (ed25519_pubkey key) (ed25519_privkey key) (key_cert key).
Definition set_ed25519 (pub priv : option bytes) key : ssh_key :=
  mk_key _ _ (key_type key) (key_flags key) (key_type_c key) (ecdsa_nid key) (key_dsa key) (key_rsa key)
    (key_ecdsa key) pub priv (key_cert key).
Definition set_cert (type : ssh_keytypes_e) (type_c : option bytes) (cert : ssh_buffer) key : ssh_key :=
  mk_key _ _ type (key_flags key) type_c (ecdsa_nid key) (key_dsa key) (key_rsa key)
    (key_ecdsa key) (ed25519_pubkey key) (ed25519_privkey key) (Some cert).

Definition ssh_key_is_public (key : option ssh_key) : bool :=
  match key with
  | None => false
  | Some key => Z.land (key_flags key) SSH_KEY_FLAG_PUBLIC =? SSH_KEY_FLAG_PUBLIC
  end.
Definition ssh_key_is_private (key : option ssh_key) : bool :=
  match key with
  | None => false
  | Some key => Z.land (key_flags key) SSH_KEY_FLAG_PRIVATE =? SSH_KEY_FLAG_PRIVATE
  end.

(** ** Public keys *)

Definition text_char (s : option ssh_string) : run (option bytes) :=
  p ← ssh_string_get_char s;
  match p with None => Some None | Some p => t ← text_of (str_data p); Some (Some t) end.

(** A buffer with the text of a string, as the readers of blobs make it. *)
Definition blob_buffer (blob : ssh_string) : run (option ssh_buffer) :=
  nb ← ssh_buffer_new;
  match nb with
  | None => Some None
  | Some b =>
      '(rc, b) ← add_data b (ssh_string_data (Some blob)) (ssh_string_len (Some blob));
      Some (if rc <? 0 then None else Some b)
  end.

(** A string with the text of a buffer, as the writers of blobs make it;
    [checked]: the result of the copy is tested. *)
Definition buffer_blob (checked : bool) (b : ssh_buffer) : run (option ssh_string) :=
  match ssh_string_new (ssh_buffer_get_len b) with
  | None => Some None
  | Some str =>
      '(rc, str) ← ssh_string_fill (Some str) (ssh_buffer_get b) (ssh_buffer_get_len b);
      Some (if checked && (rc <? 0) then None else str)
  end.

(** [ssh_buffer_unpack] of string fields into variables that start as [NULL]. *)
Definition unpack_strings (format : string) (n : nat) (b : ssh_buffer) : run (option (list ssh_string) * ssh_buffer) :=
  '(rc, slots, _, b) ← ssh_buffer_unpack b (cstr format) (replicate n UPtr);
  Some (if rc =? SSH_OK then mapM (fun o => match o with SlotString s => s | _ => None end) slots else None, b).

Definition bn_all (l : list ssh_string) : option (list bignum) := mapM ssh_make_string_bn l.

Definition pki_pubkey_build_rsa key (e n : ssh_string) : option ssh_key :=
  match bn_all [e; n] with
  | Some [be; bn] => k ← RSA_public bn be; Some (set_rsa k key)
  | _ => None
  end.

Definition pki_pubkey_build_dss key (p q g pubkey : ssh_string) : option ssh_key :=
  match bn_all [p; q; g; pubkey] with
  | Some [bp; bq; bg; by_] => k ← DSA_public bp bq bg by_; Some (set_dsa k key)
  | _ => None
  end.

Definition pki_pubkey_build_ecdsa key (nid : Z) (e : ssh_string) : option ssh_key :=
  k ← EC_public nid (ztake (ssh_string_len (Some e)) (str_data e));
  Some (set_ecdsa (Some (pki_key_ecdsa_nid_to_name nid)) nid (Some k) key).

(** The parts of a plain public key. *)
Definition pki_import_pubkey_buffer (b : ssh_buffer) (type : ssh_keytypes_e) : run (option ssh_key * ssh_buffer) :=
  match public_key type (ssh_key_type_to_char type) with
  | None => Some (None, b)
  | Some key =>
      match type with
      | SSH_KEYTYPE_DSS =>
          '(l, b) ← unpack_strings "SSSS" 4 b;
          Some (match l with Some [p; q; g; y] => pki_pubkey_build_dss key p q g y | _ => None end, b)
      | SSH_KEYTYPE_RSA =>
          '(l, b) ← unpack_strings "SS" 2 b;
          Some (match l with Some [e; n] => pki_pubkey_build_rsa key e n | _ => None end, b)
      | SSH_KEYTYPE_ECDSA | SSH_KEYTYPE_ECDSA_P256 | SSH_KEYTYPE_ECDSA_P384 | SSH_KEYTYPE_ECDSA_P521 =>
          '(l, b) ← unpack_strings "SS" 2 b;
          match l with
          | Some [i; e] =>
              name ← text_char (Some i);
              let nid := match name with Some name => pki_key_ecdsa_nid_from_name name | None => -1 end in
              Some (if nid =? -1 then None else pki_pubkey_build_ecdsa key nid e, b)
          | _ => Some (None, b)
          end
      | SSH_KEYTYPE_ED25519 =>
          '(s, b) ← ssh_buffer_get_ssh_string b;
          if negb (ssh_string_len s =? ED25519_KEY_LEN) then Some (None, b) else
          match malloc ED25519_KEY_LEN with
          | None => Some (None, b)
          | Some p =>
              d ← ssh_string_data s;
              p ← memcpy p 0 d 0 ED25519_KEY_LEN;
              Some (Some (set_ed25519 (Some p) None key), b)
          end
      | _ => Some (None, b)
      end
  end.

(** The plain type of a certificate is read by the [switch] of the source; a type
    that is not a certificate does not come here. *)
Definition pki_import_cert_buffer (b : ssh_buffer) (type : ssh_keytypes_e) : run (option ssh_key) :=
  nb ← ssh_buffer_new;
  match nb with
  | None => Some None
  | Some cert =>
      let type_c := ssh_key_type_to_char type in
      s ← ssh_string_from_char type_c;
      match s with
      | None => Some None
      | Some _ =>
          '(rc, cert) ← ssh_buffer_add_ssh_string cert s;
          if negb (rc =? 0) then Some None else
          '(rc, cert) ← ssh_buffer_add_buffer cert b;
          if negb (rc =? 0) then Some None else
          '(nonce, b) ← ssh_buffer_get_ssh_string b;
          match nonce with
          | None => Some None
          | Some _ =>
              '(key, _) ← pki_import_pubkey_buffer b (ssh_key_type_plain type);
              Some (option_map (set_cert type type_c cert) key)
          end
      end
  end.

Definition ssh_pki_import_pubkey_blob (key_blob : option ssh_string) : run (option ssh_key) :=
  match key_blob with
  | None => Some None
  | Some blob =>
      b ← blob_buffer blob;
      match b with
      | None => Some None
      | Some b =>
          '(type_s, b) ← ssh_buffer_get_ssh_string b;
          match type_s with
          | None => Some None
          | Some _ =>
              name ← text_char type_s;
              let type := ssh_key_type_from_name name in
              if bool_decide (type = SSH_KEYTYPE_UNKNOWN) then Some None else
              if is_cert_type type then pki_import_cert_buffer b type
              else '(key, _) ← pki_import_pubkey_buffer b type; Some key
          end
      end
  end.

(** Strings added to a buffer one after the other; a missing one fails. *)
Fixpoint add_strings (l : list (run (option ssh_string))) (b : ssh_buffer) : run (bool * ssh_buffer) :=
  match l with
  | [] => Some (true, b)
  | s :: l =>
      s ← s;
      match s with
      | None => Some (false, b)
      | Some _ =>
          '(rc, b) ← ssh_buffer_add_ssh_string b s;
          if rc <? 0 then Some (false, b) else add_strings l b
      end
  end.

Definition make_ecpoint_string (k : EC_KEY) : run (option ssh_string) :=
  let oct := EC_point2oct k in
  if zlen oct =? 0 then Some None else
  match ssh_string_new (zlen oct) with
  | None => Some None
  | Some s => p ← memcpy (str_data s) 0 oct 0 (zlen oct); Some (Some (mk_string (str_size s) p))
  end.

(** The parts of a key after its name. *)
Definition key_parts key (b : ssh_buffer) : run (bool * ssh_buffer) :=
  match key_type key with
  | SSH_KEYTYPE_DSS =>
      k ← key_dsa key;
      let '(p, q, g, y) := DSA_pqgy k in add_strings (map ssh_make_bignum_string [p; q; g; y]) b
  | SSH_KEYTYPE_RSA | SSH_KEYTYPE_RSA1 =>
      k ← key_rsa key; add_strings (map ssh_make_bignum_string [RSA_e k; RSA_n k]) b
  | SSH_KEYTYPE_ED25519 =>
      match ed25519_pubkey key with
      | None => Some (false, b)
      | Some p =>
          '(rc, b) ← ssh_buffer_pack b (cstr "dP") [VInt ED25519_KEY_LEN; VLen ED25519_KEY_LEN; VPtr (Some p)];
          Some (negb (rc =? SSH_ERROR), b)
      end
  | SSH_KEYTYPE_ECDSA_P256 | SSH_KEYTYPE_ECDSA_P384 | SSH_KEYTYPE_ECDSA_P521 =>
      k ← key_ecdsa key;
      add_strings [ssh_string_from_char (Some (pki_key_ecdsa_nid_to_char (ecdsa_nid key)));
                   make_ecpoint_string k] b
  | _ => Some (false, b)
  end.

Definition pki_publickey_to_blob key : run (option ssh_string) :=
  nb ← ssh_buffer_new;
  match nb with
  | None => Some None
  | Some b =>
      '(ok, b) ←
        (match key_cert key with
         | Some cert => '(rc, b) ← ssh_buffer_add_buffer b cert; Some (negb (rc <? 0), b)
         | None =>
             '(ok, b) ← add_strings [ssh_string_from_char (key_type_c key)] b;
             if (ok : bool) then key_parts key b else Some (false, b)
         end);
      if negb (ok : bool) then Some None else buffer_blob true b
  end.

(** The result code and the blob, if it was assigned. *)
Definition ssh_pki_export_pubkey_blob (key : option ssh_key) : run (Z * option ssh_string) :=
  match key with
  | None => Some (SSH_OK, None)
  | Some key =>
      blob ← pki_publickey_to_blob key;
      Some (if some blob then SSH_OK else SSH_ERROR, blob)
  end.

(** A copy of 32 bytes; the outer option is a failure. *)
Definition ed25519_dup (k : option bytes) : run (option (option bytes)) :=
  match k with
  | None => Some (Some None)
  | Some k =>
      match malloc ED25519_KEY_LEN with
      | None => Some None
      | Some p => p ← memcpy p 0 k 0 ED25519_KEY_LEN; Some (Some (Some p))
      end
  end.

(** [pki_key_dup (key, 1)]: the private part of the keys of OpenSSL is left out. *)
Definition pki_key_demote key : run (option ssh_key) :=
  match public_key (key_type key) (key_type_c key) with
  | None => Some None
  | Some new =>
      match key_type key with
      | SSH_KEYTYPE_DSS =>
          k ← key_dsa key;
          let '(p, q, g, y) := DSA_pqgy k in
          Some (option_map (fun k => set_dsa k new) (DSA_public p q g y))
      | SSH_KEYTYPE_RSA | SSH_KEYTYPE_RSA1 =>
          k ← key_rsa key;
          Some (option_map (fun k => set_rsa k new) (RSA_public (RSA_n k) (RSA_e k)))
      | SSH_KEYTYPE_ECDSA_P256 | SSH_KEYTYPE_ECDSA_P384 | SSH_KEYTYPE_ECDSA_P521 =>
          k ← key_ecdsa key;
          if ssh_key_is_private (Some key)
          then Some (option_map (fun k => set_ecdsa (key_type_c key) (ecdsa_nid key) (Some k) new)
                       (EC_KEY_demote (ecdsa_nid key) k))
          else Some (Some (set_ecdsa (key_type_c key) (ecdsa_nid key) (EC_KEY_dup k) new))
      | SSH_KEYTYPE_ED25519 =>
          if negb (some (ed25519_privkey key) || some (ed25519_pubkey key)) then Some None else
          priv ← ed25519_dup (ed25519_privkey key);
          match priv with
          | None => Some None
          | Some priv =>
              pub ← ed25519_dup (ed25519_pubkey key);
              Some (option_map (fun pub => set_ed25519 pub priv new) pub)
          end
      | _ => Some None
      end
  end.

Definition ssh_pki_export_privkey_to_pubkey (privkey : option ssh_key) : run (option ssh_key) :=
  match privkey with
  | Some key => if ssh_key_is_private privkey then pki_key_demote key else Some None
  | None => Some None
  end.

(** ** Signatures *)

Definition new_signature (type : ssh_keytypes_e) (hash_type : ssh_digest_e) (raw : option ssh_string)
    : option ssh_signature :=
  match malloc SIZEOF_SIGNATURE with
  | None => None
  | Some _ => Some (mk_signature type hash_type (ssh_key_signature_to_char type hash_type) raw)
  end.

(** A string made of bytes that OpenSSL produced. *)
Definition raw_string (d : bytes) : run (option ssh_string) :=
  match ssh_string_new (zlen d) with
  | None => Some None
  | Some s =>
      '(rc, s) ← ssh_string_fill (Some s) (Some d) (zlen d);
      Some (if rc <? 0 then None else s)
  end.

Definition der_string (r s : bignum) : run (option ssh_string) :=
  match i2d_SIG r s with
  | None => Some None
  | Some d => if some (malloc (zlen d)) then raw_string d else Some None
  end.

(** The raw signature; the outer option is a failure. *)
Definition pki_signature_from_rsa_blob (pubkey : ssh_key) (sig_blob : ssh_string) : run (option (option ssh_string)) :=
  match key_rsa pubkey with
  | None => Some None
  | Some rsa =>
      let len := ssh_string_len (Some sig_blob) in
      let rsalen := RSA_size rsa in
      if rsalen <? len then Some None else
      if len =? rsalen then s ← ssh_string_copy (Some sig_blob); Some (Some s) else
      let pad_len := u32 (rsalen - len) in
      match ssh_string_new rsalen with
      | None => Some None
      | Some s =>
          p ← bzero (str_data s) 0 pad_len;
          p ← memcpy p pad_len (str_data sig_blob) 0 len;
          Some (Some (Some (mk_string (str_size s) p)))
      end
  end.

(** One half of a DSA signature as a number. *)
Definition half_bn (sig_blob : ssh_string) (off : Z) : run (option bignum) :=
  match ssh_string_new 20 with
  | None => Some None
  | Some s =>
      '(_, s) ← ssh_string_fill (Some s) (Some (zdrop off (str_data sig_blob))) 20;
      s ← s; Some (ssh_make_string_bn s)
  end.

Definition pki_signature_from_dsa_blob (sig_blob : ssh_string) : run (option ssh_string) :=
  if negb (ssh_string_len (Some sig_blob) =? 40) then Some None else
  pr ← half_bn sig_blob 0;
  match pr with
  | None => Some None
  | Some pr =>
      ps ← half_bn sig_blob 20;
      match ps with None => Some None | Some ps => der_string pr ps end
  end.

Definition pki_signature_from_ecdsa_blob (sig_blob : ssh_string) : run (option ssh_string) :=
  b ← blob_buffer sig_blob;
  match b with
  | None => Some None
  | Some b =>
      '(r, b) ← ssh_buffer_get_ssh_string b;
      match (r ← r; ssh_make_string_bn r) with
      | None => Some None
      | Some pr =>
          '(s, b) ← ssh_buffer_get_ssh_string b;
          match s with
          | None => Some None
          | Some s =>
              if negb (ssh_buffer_get_len b =? 0) then Some None else
              match ssh_make_string_bn s with None => Some None | Some ps => der_string pr ps end
          end
      end
  end.

Definition pki_signature_from_ed25519_blob (sig_blob : ssh_string) : run (option (option ssh_string)) :=
  if negb (ssh_string_len (Some sig_blob) =? ED25519_SIG_LEN) then Some None else
  s ← ssh_string_copy (Some sig_blob); Some (Some s).

Definition pki_signature_from_blob (pubkey : ssh_key) (sig_blob : ssh_string) (type : ssh_keytypes_e)
    (hash_type : ssh_digest_e) : run (option ssh_signature) :=
  if negb (bool_decide (ssh_key_type_plain (key_type pubkey) = type)) then Some None else
  match new_signature type hash_type None with
  | None => Some None
  | Some sig =>
      let filled raw := mk_signature (sig_type sig) (sig_hash sig) (sig_type_c sig) raw in
      match type with
      | SSH_KEYTYPE_DSS =>
          s ← pki_signature_from_dsa_blob sig_blob; Some (option_map (fun s => filled (Some s)) s)
      | SSH_KEYTYPE_RSA | SSH_KEYTYPE_RSA1 =>
          s ← pki_signature_from_rsa_blob pubkey sig_blob; Some (option_map filled s)
      | SSH_KEYTYPE_ED25519 =>
          s ← pki_signature_from_ed25519_blob sig_blob; Some (option_map filled s)
      | SSH_KEYTYPE_ECDSA_P256 | SSH_KEYTYPE_ECDSA_P384 | SSH_KEYTYPE_ECDSA_P521
      | SSH_KEYTYPE_ECDSA_P256_CERT01 | SSH_KEYTYPE_ECDSA_P384_CERT01 | SSH_KEYTYPE_ECDSA_P521_CERT01 =>
          s ← pki_signature_from_ecdsa_blob sig_blob; Some (option_map (fun s => filled (Some s)) s)
      | _ => Some None
      end
  end.

Definition ssh_pki_import_signature_blob (sig_blob : option ssh_string) (pubkey : ssh_key)
    : run (option ssh_signature) :=
  match sig_blob with
  | None => Some None
  | Some blob =>
      b ← blob_buffer blob;
      match b with
      | None => Some None
      | Some b =>
          '(algorithm, b) ← ssh_buffer_get_ssh_string b;
          match algorithm with
          | None => Some None
          | Some _ =>
              alg ← text_char algorithm;
              let type := ssh_key_type_from_signature_name alg in
              let hash_type := ssh_key_hash_from_name alg in
              '(blob, _) ← ssh_buffer_get_ssh_string b;
              match blob with
              | None => Some None
              | Some blob => pki_signature_from_blob pubkey blob type hash_type
              end
          end
      end
  end.

Definition pki_dsa_signature_to_blob (raw : option ssh_string) : run (option ssh_string) :=
  match raw with
  | None => Some None
  | Some raw =>
      match d2i_SIG (ztake (ssh_string_len (Some raw)) (str_data raw)) with
      | None => Some None
      | Some (pr, ps) =>
          r ← ssh_make_bignum_string pr;
          match r with
          | None => Some None
          | Some r =>
              s ← ssh_make_bignum_string ps;
              match s with
              | None => Some None
              | Some s =>
                  let copy (buffer : bytes) (at_ : Z) (t : ssh_string) :=
                    let len := ssh_string_len (Some t) in
                    let offset_in := if 20 <? len then len - 20 else 0 in
                    let offset_out := if len <? 20 then 20 - len else 0 in
                    memcpy buffer (at_ + offset_out) (str_data t) offset_in (len - offset_in) in
                  buffer ← copy (zrep 40 Byte.x00) 0 r;
                  buffer ← copy buffer 20 s;
                  match ssh_string_new 40 with
                  | None => Some None
                  | Some str => '(_, str) ← ssh_string_fill (Some str) (Some buffer) 40; Some str
                  end
              end
          end
      end
  end.

Definition pki_ecdsa_signature_to_blob (raw : option ssh_string) : run (option ssh_string) :=
  match raw with
  | None => Some None
  | Some raw =>
      match d2i_SIG (ztake (ssh_string_len (Some raw)) (str_data raw)) with
      | None => Some None
      | Some (pr, ps) =>
          nb ← ssh_buffer_new;
          match nb with
          | None => Some None
          | Some b =>
              '(ok, b) ← add_strings (map ssh_make_bignum_string [pr; ps]) b;
              if (ok : bool) then buffer_blob false b else Some None
          end
      end
  end.

Definition pki_ed25519_signature_to_blob (raw : option ssh_string) : run (option ssh_string) :=
  match raw with
  | None => Some None
  | Some raw =>
      match ssh_string_new ED25519_SIG_LEN with
      | None => Some None
      | Some s =>
          '(_, s) ← ssh_string_fill (Some s) (ssh_string_data (Some raw)) (ssh_string_len (Some raw));
          Some s
      end
  end.

Definition pki_signature_to_blob (sig : ssh_signature) : run (option ssh_string) :=
  match sig_type sig with
  | SSH_KEYTYPE_DSS => pki_dsa_signature_to_blob (raw_sig sig)
  | SSH_KEYTYPE_RSA | SSH_KEYTYPE_RSA1 => ssh_string_copy (raw_sig sig)
  | SSH_KEYTYPE_ED25519 => pki_ed25519_signature_to_blob (raw_sig sig)
  | SSH_KEYTYPE_ECDSA_P256 | SSH_KEYTYPE_ECDSA_P384 | SSH_KEYTYPE_ECDSA_P521 =>
      pki_ecdsa_signature_to_blob (raw_sig sig)
  | _ => Some None
  end.

Definition ssh_pki_export_signature_blob (sig : ssh_signature) : run (option ssh_string) :=
  nb ← ssh_buffer_new;
  match nb with
  | None => Some None
  | Some b =>
      '(ok, b) ← add_strings [ssh_string_from_char (sig_type_c sig); pki_signature_to_blob sig] b;
      if (ok : bool) then buffer_blob false b else Some None
  end.

(** ** Signing and verifying *)

Definition pki_key_check_hash_compatible (key : option ssh_key) (hash_type : ssh_digest_e) : Z :=
  match key with
  | None => SSH_ERROR
  | Some key =>
      match key_type key, hash_type with
      | (SSH_KEYTYPE_DSS_CERT01 | SSH_KEYTYPE_DSS), SSH_DIGEST_SHA1
      | (SSH_KEYTYPE_RSA_CERT01 | SSH_KEYTYPE_RSA), SSH_DIGEST_SHA1 => if fips_mode then SSH_ERROR else SSH_OK
      | (SSH_KEYTYPE_RSA_CERT01 | SSH_KEYTYPE_RSA), (SSH_DIGEST_SHA256 | SSH_DIGEST_SHA512)
      | (SSH_KEYTYPE_ECDSA_P256_CERT01 | SSH_KEYTYPE_ECDSA_P256), SSH_DIGEST_SHA256
      | (SSH_KEYTYPE_ECDSA_P384_CERT01 | SSH_KEYTYPE_ECDSA_P384), SSH_DIGEST_SHA384
      | (SSH_KEYTYPE_ECDSA_P521_CERT01 | SSH_KEYTYPE_ECDSA_P521), SSH_DIGEST_SHA512
      | (SSH_KEYTYPE_ED25519_CERT01 | SSH_KEYTYPE_ED25519), SSH_DIGEST_AUTO => SSH_OK
      | _, _ => SSH_ERROR
      end
  end.

Definition pki_digest_to_md (hash_type : ssh_digest_e) : option ssh_digest_e :=
  match hash_type with SSH_DIGEST_AUTO => None | h => Some h end.

Definition pki_key_to_pkey key : option EVP_PKEY :=
  match key_type key with
  | SSH_KEYTYPE_DSS | SSH_KEYTYPE_DSS_CERT01 => k ← key_dsa key; EVP_PKEY_of (From_DSA k)
  | SSH_KEYTYPE_RSA | SSH_KEYTYPE_RSA1 | SSH_KEYTYPE_RSA_CERT01 => k ← key_rsa key; EVP_PKEY_of (From_RSA k)
  | SSH_KEYTYPE_ECDSA_P256 | SSH_KEYTYPE_ECDSA_P384 | SSH_KEYTYPE_ECDSA_P521
  | SSH_KEYTYPE_ECDSA_P256_CERT01 | SSH_KEYTYPE_ECDSA_P384_CERT01 | SSH_KEYTYPE_ECDSA_P521_CERT01 =>
      k ← key_ecdsa key; EVP_PKEY_of (From_EC k)
  | SSH_KEYTYPE_ED25519 | SSH_KEYTYPE_ED25519_CERT01 =>
      if ssh_key_is_private (Some key)
      then k ← ed25519_privkey key; EVP_PKEY_of (Raw_private k)
      else k ← ed25519_pubkey key; EVP_PKEY_of (Raw_public k)
  | _ => None
  end.

(** [ssh_key_signature_to_char] names the type of the key. *)
Definition pki_sign_data (privkey : option ssh_key) (hash_type : ssh_digest_e) (input : option bytes)
    : run (option ssh_signature) :=
  match privkey, input with
  | Some key, Some input =>
      if negb (ssh_key_is_private privkey) then Some None else
      if negb (pki_key_check_hash_compatible privkey hash_type =? SSH_OK) then Some None else
      let md := pki_digest_to_md hash_type in
      match pki_key_to_pkey key with
      | None => Some None
      | Some pkey =>
          if negb (some (malloc (EVP_PKEY_size pkey)) && EVP_MD_CTX_created) then Some None else
          if negb (EVP_DigestSignInit md pkey =? 1) then Some None else
          match EVP_DigestSign md pkey input with
          | None => Some None
          | Some raw =>
              match new_signature (key_type key) hash_type None with
              | None => Some None
              | Some _ =>
                  s ← raw_string raw;
                  Some (option_map (fun s => mk_signature (key_type key) hash_type
                          (ssh_key_signature_to_char (key_type key) hash_type) (Some s)) s)
              end
          end
      end
  | _, _ => Some None
  end.

Definition pki_do_sign (privkey : option ssh_key) (input : option bytes) (hash_type : ssh_digest_e)
    : run (option ssh_signature) :=
  match privkey, input with
  | Some _, Some _ =>
      if negb (pki_key_check_hash_compatible privkey hash_type =? SSH_OK) then Some None
      else pki_sign_data privkey hash_type input
  | _, _ => Some None
  end.

(** [rc] holds the result of the compatibility check when the context is made. *)
Definition pki_verify_data_signature (signature : ssh_signature) (pubkey : option ssh_key) (input : bytes) : Z :=
  match pubkey, raw_sig signature with
  | Some key, Some raw =>
      if ssh_key_is_private pubkey then SSH_ERROR else
      let rc := pki_key_check_hash_compatible pubkey (sig_hash signature) in
      if negb (rc =? SSH_OK) then SSH_ERROR else
      let md := pki_digest_to_md (sig_hash signature) in
      match pki_key_to_pkey key with
      | None => SSH_ERROR
      | Some pkey =>
          if negb EVP_MD_CTX_created then rc else
          if negb (EVP_DigestVerifyInit md pkey =? 1) then rc else
          if EVP_DigestVerify md pkey (ztake (ssh_string_len (Some raw)) (str_data raw)) input =? 1
          then SSH_OK else SSH_ERROR
      end
  | _, _ => SSH_ERROR
  end.

Definition ssh_pki_signature_verify (sig : option ssh_signature) (key : option ssh_key) (input : option bytes) : Z :=
  match sig, key, input with
  | Some sig, Some k, Some input =>
      if negb (bool_decide (ssh_key_type_plain (key_type k) = sig_type sig)) then SSH_ERROR else
      if negb (pki_key_check_hash_compatible key (sig_hash sig) =? SSH_OK) then SSH_ERROR else
      pki_verify_data_signature sig key input
  | _, _, _ => SSH_ERROR
  end.

(** The signature over the packed fields, as a blob. *)
Definition sign_packed (format : bytes) (args : list va) (privkey : option ssh_key) (digest : ssh_digest_e)
    : run (option ssh_string) :=
  nb ← ssh_buffer_new;
  match nb with
  | None => Some None
  | Some b =>
      '(rc, b) ← ssh_buffer_pack (ssh_buffer_set_secure b) format args;
      if negb (rc =? SSH_OK) then Some None else
      let input := option_map (ztake (ssh_buffer_get_len b)) (ssh_buffer_get b) in
      sig ← pki_do_sign privkey input digest;
      match sig with
      | None => Some None
      | Some sig => ssh_pki_export_signature_blob sig
      end
  end.

Section Session.
Context {K : Type}.
Notation session := (session K prng handshake).

(** A server signs in a key exchange, when [next_crypto] is there. *)
Definition ssh_srv_pki_do_sign_sessionid (s : session) (privkey : option ssh_key) (digest : ssh_digest_e)
    : run (option ssh_string) :=
  if negb (ssh_key_is_private privkey) then Some None else
  c ← next_crypto s;
  match secret_hash (keys (upper s)) with
  | None => Some None
  | Some h => sign_packed (cstr "P") [VLen (digest_len c); VPtr (Some h)] privkey digest
  end.

Definition ssh_pki_do_sign (s : session) (sigbuf : option ssh_buffer) (privkey : option ssh_key) (hash_type : ssh_digest_e)
    : run (option ssh_string) :=
  match sigbuf with
  | None => Some None
  | Some sb =>
      if negb (ssh_key_is_private privkey) then Some None else
      match ssh_packet_get_current_crypto s SSH_DIRECTION_BOTH with
      | None => Some None
      | Some (_, crypto) =>
          match ssh_string_new (digest_len crypto) with
          | None => Some None
          | Some id =>
              '(_, id) ← ssh_string_fill (Some id) (session_id crypto) (digest_len crypto);
              sign_packed (cstr "SP") [VString id; VLen (ssh_buffer_get_len sb); VPtr (option_map (ztake (ssh_buffer_get_len sb)) (ssh_buffer_get sb))] privkey hash_type
          end
      end
  end.
End Session.
End Pki.

(** ** Facts *)

Section PkiFacts.
Context `{Allocator} `{KeyLib} `{RandomLib}.

(** *** Blobs *)

Lemma string_new_ok n :
  malloc_succeeds -> 0 <= n <= BUFFER_SIZE_MAX ->
  exists s, ssh_string_new n = Some s /\ string_wf s /\ ssh_string_len (Some s) = n.
Proof.
  intros Hm Hn. destruct (ssh_string_new n) as [s|] eqn:E.
  - exists s. split; [done|]. apply ssh_string_new_wf in E; [done|lia].
  - revert E. unfold ssh_string_new, string_header. unfold BUFFER_SIZE_MAX in Hn.
    rewrite (proj2 (Z.ltb_ge _ _)) by (unfold STRING_SIZE_MAX; lia).
    destruct (malloc (5 + n)) eqn:E; [done|]. apply Hm in E; [done|]. unfold BUFFER_SIZE_MAX. lia.
Qed.

Lemma fill_spec s d n :
  string_wf s -> ssh_string_len (Some s) = n -> 0 < n <= zlen d ->
  exists s', ssh_string_fill (Some s) (Some d) n = Some (0, Some s') /\ string_wf s' /\ string_text s' = ztake n d.
Proof.
  intros Hwf Hl Hn. pose proof (string_wf_len s Hwf) as (Hr & Hsz & Hd). unfold ssh_string_fill.
  rewrite Hl, Z.ltb_irrefl, (proj2 (Z.eqb_neq n 0)) by lia. cbn [orb].
  assert (Hz : zlen (ztake n d) = n) by (rewrite zlen_take; lia).
  destruct (memcpy (str_data s) 0 (ztake n d) 0 n) as [p|] eqn:Hm.
  2: { rewrite memcpy_ok in Hm by lia. done. }
  assert (Hm' : memcpy (str_data s) 0 d 0 n = Some p).
  { rewrite memcpy_ok in Hm |- * by lia. rewrite <- Hm. do 3 f_equal. rewrite !(zdrop_0 0) by done.
    by rewrite (ztake_all n (ztake n d)) by lia. }
  rewrite Hm'. cbn [mbind option_bind]. eexists. split; [reflexivity|].
  rewrite <- Hz in Hm at 2. by apply fill_text; [|lia|].
Qed.

Lemma raw_string_spec d : 0 < zlen d ->
  exists r, raw_string d = Some r /\ (forall s, r = Some s -> string_wf s /\ string_text s = d)
  /\ (malloc_succeeds -> zlen d <= BUFFER_SIZE_MAX -> r <> None).
Proof.
  intros Hd. unfold raw_string. destruct (ssh_string_new (zlen d)) as [s|] eqn:E.
  - apply ssh_string_new_wf in E as [Hwf Hl]; [|lia].
    destruct (fill_spec s d (zlen d) Hwf Hl) as (s' & -> & Hwf' & Ht); [lia|]. cbn [mbind option_bind].
    eexists. split; [reflexivity|]. change (0 <? 0) with false. cbv iota. split; [|done].
    intros ? [= <-]. rewrite Ht, ztake_all by lia. done.
  - eexists. split; [reflexivity|]. split; [done|]. intros Hm Hle.
    destruct (string_new_ok (zlen d) Hm) as (s & E' & _); [lia|congruence].
Qed.

Lemma blob_buffer_spec s : string_wf s ->
  exists r, blob_buffer s = Some r /\ (forall b, r = Some b -> buffer_wf b /\ contents b = string_text s)
  /\ (malloc_succeeds -> zlen (string_text s) < BUFFER_SIZE_MAX -> r <> None).
Proof.
  intros Hs. pose proof (string_wf_len s Hs) as (Hr & _ & Hd). unfold STRING_SIZE_MAX in Hr. unfold blob_buffer.
  destruct ssh_buffer_new_spec as (r & Hn & Hb). rewrite Hn. cbn [mbind option_bind]. cbn [ssh_string_data].
  pose proof (string_text_zlen s Hs) as Ht. destruct r as [b|].
  - destruct (Hb b eq_refl) as (Hwf & Hc & _).
    destruct (add_data_spec b (str_data s) (ssh_string_len (Some s)) Hwf) as (rc & b' & Ha & Hwf' & _ & Hrc); [lia|lia|].
    rewrite Ha. cbn [mbind option_bind]. eexists. split; [reflexivity|]. split.
    + intros ? Eb. destruct Hrc as [[-> Hc']|[-> _]]; [|done]. injection Eb as <-. split; [done|]. by rewrite Hc', Hc.
    + intros Hm Hle. destruct (ssh_buffer_new_ok Hm) as (b0 & Hn' & Hwf0 & _ & Hu). rewrite Hn' in Hn. injection Hn as ->.
      destruct (add_data_ok b (str_data s) (ssh_string_len (Some s)) Hm Hwf) as (b'' & Ha' & _); [lia|lia|].
      rewrite Ha' in Ha. injection Ha as <- _. done.
  - eexists. split; [reflexivity|]. split; [done|]. intros Hm _. destruct (ssh_buffer_new_ok Hm) as (b0 & Hn' & _).
    congruence.
Qed.

Lemma text_char_spec s : string_wf s ->
  exists t, text_char (Some s) = Some (Some t) /\ (is_cstr (string_text s) -> t = string_text s).
Proof.
  intros Hs. pose proof (string_wf_len s Hs) as (Hr & _ & Hd). unfold text_char, ssh_string_get_char.
  rewrite memcpy_ok by zlen_lia. cbn [mbind option_bind str_data]. change (zdrop 0 [Byte.x00]) with [Byte.x00].
  rewrite (ztake_all 1 [Byte.x00]), (zdrop_all (ssh_string_len (Some s) + 1)) by zlen_lia. rewrite app_nil_r.
  unfold text_of. fold (string_text s).
  destruct (strlen (string_text s ++ [Byte.x00])) as [n|] eqn:E; [|by apply strlen_app_nul in E].
  cbn [mbind option_bind]. eexists. split; [reflexivity|]. intros Hc. rewrite strlen_cstr in E by done.
  injection E as <-. by rewrite ztake_app_le, ztake_all by zlen_lia.
Qed.

Lemma buffer_blob_spec chk b : buffer_wf b -> contents b <> [] ->
  exists r, buffer_blob chk b = Some r /\ (forall s, r = Some s -> string_wf s /\ string_text s = contents b).
Proof.
  intros Hwf Hne. pose proof (contents_zlen b Hwf) as Hl. pose proof (contents_max b Hwf) as Hmax.
  assert (0 < zlen (contents b)) by (destruct (contents b); [done|rewrite zlen_cons; zlen_lia]).
  unfold buffer_blob. rewrite ssh_buffer_get_len_contents by done.
  destruct (ssh_string_new _) as [s|] eqn:E; [|by eexists]. apply ssh_string_new_wf in E as [Hs Hsl]; [|lia].
  assert (Hg : ssh_buffer_get b = Some (zdrop (b_pos b) (b_data b))).
  { unfold ssh_buffer_get. destruct (b_data b) eqn:Ed; [|done]. exfalso. apply Hne.
    destruct (contents b); [done|]. pose proof (wf_data b Hwf) as Hd. rewrite Ed, zlen_nil in Hd.
    destruct Hwf. rewrite zlen_cons in *. zlen_lia. }
  rewrite Hg. destruct (fill_spec s (zdrop (b_pos b) (b_data b)) (zlen (contents b)) Hs Hsl) as (s' & -> & Hs' & Ht).
  { destruct Hwf. rewrite zlen_drop. lia. }
  cbn [mbind option_bind]. change (0 <? 0) with false. rewrite andb_false_r. eexists. split; [reflexivity|].
  intros ? [= <-]. split; [done|]. rewrite Ht, read_unread by (done || lia). apply ztake_all. lia.
Qed.

Definition good_string (m : run (option ssh_string)) : Prop :=
  exists r, m = Some r /\ forall s, r = Some s -> string_wf s.

Lemma add_strings_spec l : forall b, buffer_wf b -> Forall good_string l ->
  exists ok b', add_strings l b = Some (ok, b') /\ buffer_wf b'
  /\ (ok = true -> exists ss, l = map (fun s => Some (Some s)) ss
      /\ contents b' = contents b ++ concat (map (fun s => lv (string_text s)) ss)).
Proof.
  induction l as [|m l IH]; intros b Hwf Hl; cbn [add_strings].
  - exists true, b. split_and!; [done|done|]. intros _. exists []. by rewrite app_nil_r.
  - inversion Hl as [|? ? (r & -> & Hr) Hl']; subst. cbn [mbind option_bind]. destruct r as [s|].
    2: { exists false, b. by split_and!. }
    destruct (add_ssh_string_spec b s Hwf (Hr s eq_refl)) as (rc & b1 & -> & Hwf1 & _ & Hrc). cbn [mbind option_bind].
    destruct Hrc as [[-> Hc1]|[-> _]]; [|exists false, b1; by split_and!]. change (0 <? 0) with false. cbv iota.
    destruct (IH b1 Hwf1 Hl') as (ok & b' & -> & Hwf' & Hok). exists ok, b'. split_and!; [done|done|]. intros Ht.
    destruct (Hok Ht) as (ss & -> & Hc'). exists (s :: ss). split; [done|]. cbn [map concat].
    rewrite Hc', Hc1. unfold lv. by rewrite <- !app_assoc.
Qed.

Lemma from_char_good t : good_string (ssh_string_from_char t).
Proof.
  destruct t as [t|]; [|by exists None].
  destruct (ssh_string_from_char (Some t)) as [r|] eqn:E; [|by apply ssh_string_from_char_runs in E].
  exists r. split; [done|]. intros s ->. by apply ssh_string_from_char_text in E as [? _].
Qed.

Lemma bignum_string_good n : good_string (ssh_make_bignum_string n).
Proof.
  destruct (ssh_make_bignum_string n) as [r|] eqn:E; [|by apply make_bignum_string_runs in E].
  exists r. split; [done|]. intros s ->. by apply make_bignum_string_text in E as [? _].
Qed.

Lemma string_copy_spec s : string_wf s -> string_text s <> [] ->
  exists r, ssh_string_copy (Some s) = Some r
  /\ (forall s', r = Some s' -> string_wf s' /\ string_text s' = string_text s)
  /\ (malloc_succeeds -> r <> None).
Proof.
  intros Hs Hne. pose proof (string_wf_len s Hs) as (Hr & _ & Hd). pose proof (string_text_zlen s Hs) as Ht.
  assert (0 < zlen (string_text s)) by (destruct (string_text s); [done|rewrite zlen_cons; zlen_lia]).
  unfold ssh_string_copy. rewrite (proj2 (Z.eqb_neq _ _)) by lia.
  destruct (ssh_string_new _) as [n|] eqn:E.
  - apply ssh_string_new_wf in E as [Hn Hnl]; [|lia]. pose proof (string_wf_len n Hn) as (_ & _ & Hnd).
    destruct (fill_spec n (str_data s) (ssh_string_len (Some s)) Hn Hnl) as (s' & Hf & Hs' & Ht'); [lia|].
    unfold ssh_string_fill in Hf. rewrite Hnl, Z.ltb_irrefl, (proj2 (Z.eqb_neq _ 0)) in Hf by lia. cbn [orb] in Hf.
    destruct (memcpy _ _ _ _ _) as [p|]; [|done]. cbn [mbind option_bind] in *. injection Hf as Hf.
    eexists. split; [reflexivity|]. split; [|done]. intros ? [= <-]. rewrite Hf. by split.
  - eexists. split; [reflexivity|]. split; [done|]. intros Hm.
    destruct (string_new_ok (ssh_string_len (Some s)) Hm) as (? & E' & _); [|congruence].
    unfold BUFFER_SIZE_MAX. unfold STRING_SIZE_MAX in Hr. lia.
Qed.

Lemma export_signature_text sig blob st :
  pki_signature_to_blob sig = Some (Some st) -> string_wf st ->
  ssh_pki_export_signature_blob sig = Some (Some blob) ->
  exists name, sig_type_c sig = Some name /\ string_wf blob /\ string_text blob = lv name ++ lv (string_text st).
Proof.
  intros Hst Hwf. unfold ssh_pki_export_signature_blob.
  destruct ssh_buffer_new_spec as (r & -> & Hb). cbn [mbind option_bind]. destruct r as [b|]; [|done].
  destruct (Hb b eq_refl) as (Hbwf & Hbc & _).
  destruct (add_strings_spec [ssh_string_from_char (sig_type_c sig); pki_signature_to_blob sig] b Hbwf)
    as (ok & b' & -> & Hwf' & Hok).
  { repeat constructor; [apply from_char_good|]. exists (Some st). rewrite Hst. split; [done|]. by intros ? [= <-]. }
  cbn [mbind option_bind]. destruct ok; [|done]. destruct (Hok eq_refl) as (ss & Hss & Hc).
  destruct ss as [|s1 [|s2 [|]]]; try done. injection Hss as Hs1 Hs2. rewrite Hst in Hs2. injection Hs2 as <-.
  cbn [map concat] in Hc. rewrite Hbc, app_nil_r in Hc. cbn [app] in Hc.
  destruct (buffer_blob_spec false b' Hwf') as (r & -> & Hr).
  { rewrite Hc. unfold lv. intros E. apply (f_equal zlen) in E. rewrite !zlen_app, zlen_nil in E.
    rewrite zlen_be_bytes in E. pose proof (zlen_nonneg (string_text s1)). pose proof (zlen_nonneg (be_bytes 4 (zlen (string_text st)))).
    pose proof (zlen_nonneg (string_text st)). lia. }
  intros [= ->]. destruct (Hr blob eq_refl) as [Hbl Ht]. rewrite Ht, Hc.
  destruct (sig_type_c sig) as [name|]; [|done]. exists name.
  apply ssh_string_from_char_text in Hs1 as [_ <-]. done.
Qed.

Lemma import_signature_text blob pub name t :
  malloc_succeeds -> string_wf blob -> string_text blob = lv name ++ lv t -> is_cstr name ->
  zlen (string_text blob) < BUFFER_SIZE_MAX ->
  exists s, string_wf s /\ string_text s = t
  /\ ssh_pki_import_signature_blob (Some blob) pub
     = pki_signature_from_blob pub s (ssh_key_type_from_signature_name (Some name)) (ssh_key_hash_from_name (Some name)).
Proof.
  intros Hm Hwf Ht Hn Hmax. unfold ssh_pki_import_signature_blob.
  destruct (blob_buffer_spec blob Hwf) as (r & -> & Hr & Hok). specialize (Hok Hm Hmax).
  destruct r as [b|]; [|done]. destruct (Hr b eq_refl) as [Hb Hc]. rewrite Ht in Hc. cbn [mbind option_bind].
  destruct (get_ssh_string_lv Hm b name (lv t) Hb Hc) as (s1 & b1 & -> & Hb1 & _ & Hc1 & Hs1 & Ht1).
  cbn [mbind option_bind]. destruct (text_char_spec s1 Hs1) as (w & -> & Hw). cbn [mbind option_bind].
  rewrite Ht1 in Hw. rewrite (Hw Hn). rewrite <- (app_nil_r (lv t)) in Hc1.
  destruct (get_ssh_string_lv Hm b1 t [] Hb1 Hc1) as (s2 & b2 & -> & _ & _ & _ & Hs2 & Ht2).
  cbn [mbind option_bind]. by exists s2.
Qed.

(** *** Key pairs *)

(** A private key and the public key that a peer has of it, for the two schemes
    whose signatures are not re-encoded. *)
Inductive key_pair : ssh_key -> ssh_key -> Prop :=
  | pair_rsa priv pub r r' : key_type priv = SSH_KEYTYPE_RSA -> key_type pub = SSH_KEYTYPE_RSA ->
      ssh_key_is_private (Some pub) = false -> key_rsa priv = Some r -> key_rsa pub = Some r' ->
      bn_val (RSA_n r') = bn_val (RSA_n r) -> bn_val (RSA_e r') = bn_val (RSA_e r) -> key_pair priv pub
  | pair_ed25519 priv pub seed : key_type priv = SSH_KEYTYPE_ED25519 -> key_type pub = SSH_KEYTYPE_ED25519 ->
      ssh_key_is_private (Some pub) = false -> ed25519_privkey priv = Some seed ->
      ed25519_pubkey pub = Some (ed25519_point seed) -> key_pair priv pub.

(** What [pki_sign_data] returns when it returns something. *)
Lemma sign_data_spec fips priv md input sig :
  pki_sign_data fips (Some priv) md (Some input) = Some (Some sig) ->
  ssh_key_is_private (Some priv) = true /\ pki_key_check_hash_compatible fips (Some priv) md = SSH_OK
  /\ exists pkey raw, pki_key_to_pkey priv = Some pkey
     /\ EVP_DigestSign (pki_digest_to_md md) pkey input = Some raw
     /\ (0 < zlen raw -> exists s, string_wf s /\ string_text s = raw
         /\ sig = mk_signature (key_type priv) md (ssh_key_signature_to_char (key_type priv) md) (Some s)).
Proof.
  unfold pki_sign_data. destruct (ssh_key_is_private (Some priv)) eqn:Hp; [|done]. cbn [negb].
  destruct (pki_key_check_hash_compatible fips (Some priv) md =? SSH_OK) eqn:Hh; [|done]. cbn [negb].
  apply Z.eqb_eq in Hh. destruct (pki_key_to_pkey priv) as [pkey|] eqn:Hk; [|done].
  destruct (negb (some _ && _)); [done|]. destruct (negb (_ =? 1)); [done|].
  destruct (EVP_DigestSign _ _ _) as [raw|] eqn:Hs; [|done]. destruct (new_signature _ _ _) as [g|]; [|done].
  intros Hsig. split_and!; [done|done|]. exists pkey, raw. split_and!; [done|done|]. intros Hraw.
  destruct (raw_string_spec raw Hraw) as (r & Hr & Hrs & _). rewrite Hr in Hsig. cbn [mbind option_bind] in Hsig.
  destruct r as [str|]; [|done]. injection Hsig as <-. destruct (Hrs str eq_refl). by exists str.
Qed.

(** The names of the signatures of a type give the type and the digest back. *)
Lemma signature_name_type fips key md name :
  key_type key = SSH_KEYTYPE_RSA \/ key_type key = SSH_KEYTYPE_ED25519 ->
  pki_key_check_hash_compatible fips (Some key) md = SSH_OK ->
  ssh_key_signature_to_char (key_type key) md = Some name ->
  is_cstr name /\ ssh_key_type_from_signature_name (Some name) = key_type key
  /\ ssh_key_hash_from_name (Some name) = md /\ zlen name <= 12.
Proof.
  unfold pki_key_check_hash_compatible.
  intros [-> | ->]; destruct md; try done; intros _ [= <-]; (split_and!;
    [apply (bool_decide_eq_true_1 (is_cstr _)); vm_compute; reflexivity|vm_compute; congruence..]).
Qed.

Lemma zlen_nonempty {A} (l : list A) : 0 < zlen l -> l <> [].
Proof. by intros Hl ->. Qed.

(** The raw signature of these schemes travels as it is. *)
Lemma pair_to_blob priv pub name md s :
  malloc_succeeds -> key_pair priv pub -> string_wf s ->
  (key_type priv = SSH_KEYTYPE_RSA /\ 0 < zlen (string_text s)
   \/ key_type priv = SSH_KEYTYPE_ED25519 /\ zlen (string_text s) = ED25519_SIG_LEN) ->
  exists st, pki_signature_to_blob (mk_signature (key_type priv) md name (Some s)) = Some (Some st)
    /\ string_wf st /\ string_text st = string_text s.
Proof.
  intros Hm Hp Hs Hl. pose proof (string_wf_len s Hs) as (Hr & _ & Hd). pose proof (string_text_zlen s Hs) as Ht.
  unfold pki_signature_to_blob. cbn [sig_type raw_sig]. destruct Hl as [[-> Hl]|[-> Hl]].
  - destruct (string_copy_spec s Hs (zlen_nonempty _ Hl)) as (r & -> & Hr' & Hok). specialize (Hok Hm).
    destruct r as [st|]; [|done]. destruct (Hr' st eq_refl). by exists st.
  - unfold pki_ed25519_signature_to_blob. unfold ED25519_SIG_LEN in *.
    destruct (string_new_ok 64 Hm) as (n & -> & Hn & Hnl); [unfold BUFFER_SIZE_MAX; lia|]. cbn [ssh_string_data].
    rewrite <- Ht, Hl. destruct (fill_spec n (str_data s) 64 Hn Hnl) as (n' & -> & Hn' & Hnt); [lia|].
    cbn [mbind option_bind]. exists n'. split_and!; [done|done|]. rewrite Hnt. unfold string_text. by rewrite <- Ht, Hl.
Qed.

Lemma pair_from_blob priv pub md s :
  malloc_succeeds -> key_pair priv pub -> string_wf s ->
  (key_type priv = SSH_KEYTYPE_RSA /\ (forall r, key_rsa priv = Some r -> zlen (string_text s) = RSA_size r)
   \/ key_type priv = SSH_KEYTYPE_ED25519 /\ zlen (string_text s) = ED25519_SIG_LEN) ->
  exists st, pki_signature_from_blob pub s (key_type priv) md
      = Some (Some (mk_signature (key_type priv) md (ssh_key_signature_to_char (key_type priv) md) (Some st)))
    /\ string_wf st /\ string_text st = string_text s.
Proof.
  intros Hm Hp Hs Hl. pose proof (string_text_zlen s Hs) as Ht. unfold pki_signature_from_blob.
  assert (Hplain : ssh_key_type_plain (key_type pub) = key_type priv) by (by destruct Hp as [? ? ? ? -> ->|? ? ? -> ->]).
  rewrite bool_decide_eq_true_2 by done. cbn [negb]. unfold new_signature.
  destruct (malloc SIZEOF_SIGNATURE) eqn:E; [|apply Hm in E; [done|vm_compute; by split]].
  cbn [sig_type sig_hash sig_type_c].
  assert (Hne : string_text s <> []).
  { apply zlen_nonempty. destruct Hl as [[Ek Hl]|[_ ->]]; [|done]. destruct Hp as [? ? r ? Hk ? ? Hr|? ? ? Hk]; [|congruence].
    rewrite (Hl r Hr). apply RSA_size_bound. }
  destruct (string_copy_spec s Hs Hne) as (r & Hc & Hr & Hok). specialize (Hok Hm). destruct r as [st|]; [|done].
  destruct (Hr st eq_refl) as [Hst Htx]. exists st. split; [|by split].
  destruct Hl as [[Ek Hl]|[Ek Hl]]; rewrite Ek.
  - destruct Hp as [? ? k k' Hk ? ? Hkr Hkr' Hv|? ? ? Hk]; [|congruence].
    unfold pki_signature_from_rsa_blob. rewrite Hkr', <- Ht, (Hl k Hkr), (RSA_public_size _ _ Hv).
    rewrite Z.ltb_irrefl, Z.eqb_refl, Hc. reflexivity.
  - unfold pki_signature_from_ed25519_blob. rewrite <- Ht, Hl. cbn [negb]. rewrite Z.eqb_refl, Hc. reflexivity.
Qed.

Lemma pair_compatible fips priv pub md : key_pair priv pub ->
  pki_key_check_hash_compatible fips (Some pub) md = pki_key_check_hash_compatible fips (Some priv) md.
Proof. unfold pki_key_check_hash_compatible. by intros [? ? ? ? -> ->|? ? ? -> ->]. Qed.

Lemma pair_verifies fips priv pub md pkey pkey' input raw s :
  key_pair priv pub -> ssh_key_is_private (Some priv) = true ->
  pki_key_check_hash_compatible fips (Some priv) md = SSH_OK ->
  pki_key_to_pkey priv = Some pkey -> pki_key_to_pkey pub = Some pkey' ->
  EVP_DigestSign (pki_digest_to_md md) pkey input = Some raw -> string_text s = raw ->
  ssh_pki_signature_verify fips (Some (mk_signature (key_type priv) md (ssh_key_signature_to_char (key_type priv) md) (Some s)))
    (Some pub) (Some input) = SSH_OK.
Proof.
  intros Hp Hpr Hc Hk Hk' Hs Ht. unfold ssh_pki_signature_verify, pki_verify_data_signature.
  cbn [sig_type sig_hash raw_sig]. rewrite (pair_compatible fips _ _ md Hp), Hc, Z.eqb_refl, Hk'.
  assert (Hplain : ssh_key_type_plain (key_type pub) = key_type priv) by (by destruct Hp as [? ? ? ? -> ->|? ? ? -> ->]).
  rewrite bool_decide_eq_true_2 by done. cbn [negb].
  assert (Hnp : ssh_key_is_private (Some pub) = false) by (by destruct Hp). rewrite Hnp. fold (string_text s). rewrite Ht.
  assert (Hv : EVP_DigestVerify (pki_digest_to_md md) pkey' raw input = 1).
  { destruct Hp as [? ? r r' Hkt Hkt' _ Hr Hr' Hn He|? ? seed Hkt Hkt' Hnp' Hpk Hpb]; unfold pki_key_to_pkey in *;
      rewrite Hkt in Hk; rewrite Hkt' in Hk'.
    - rewrite Hr in Hk. rewrite Hr' in Hk'. by eapply (RSA_accepts r r').
    - rewrite Hpr, Hpk in Hk. rewrite Hnp', Hpb in Hk'. by eapply (ED25519_accepts seed). }
  rewrite Hv. destruct (negb EVP_MD_CTX_created); [done|]. by destruct (EVP_DigestVerifyInit _ _ =? 1).
Qed.

(** *** Untrusted blobs *)












End PkiFacts.

(** ** Properties *)

Section PkiProperties.
Context `{Allocator} `{KeyLib} `{RandomLib}.
Variable fips : bool.

Lemma get_contents b : buffer_wf b -> contents b <> [] ->
  option_map (ztake (ssh_buffer_get_len b)) (ssh_buffer_get b) = Some (contents b).
Proof.
  intros Hwf Hne. pose proof (contents_zlen b Hwf) as Hl. rewrite ssh_buffer_get_len_contents by done.
  unfold ssh_buffer_get. destruct (b_data b) eqn:Ed.
  - destruct (contents b); [done|]. pose proof (wf_data b Hwf) as Hd. rewrite Ed, zlen_nil in Hd.
    destruct Hwf. rewrite zlen_cons in *. zlen_lia.
  - rewrite <- Ed. cbn [option_map]. pose proof (zlen_nonneg (contents b)).
    by rewrite read_unread, ztake_all by (done || lia).
Qed.

(** A signature of packed fields is one of their encoding, that a party with the
    public key accepts. *)
Lemma sign_packed_accepted priv pub md fs blob :
  malloc_succeeds -> key_pair priv pub -> pki_key_to_pkey pub <> None ->
  Forall field_ok fs -> fs <> [] -> zlen (fields_args fs) <= 256 -> fields_encode fs <> [] ->
  sign_packed fips (fields_format fs) (fields_args fs) (Some priv) md = Some (Some blob) ->
  string_wf blob /\ forall blob', string_wf blob' -> string_text blob' = string_text blob ->
    exists sig, ssh_pki_import_signature_blob (Some blob') pub = Some (Some sig)
    /\ sig_type_c sig = ssh_key_signature_to_char (key_type priv) md
    /\ ssh_pki_signature_verify fips (Some sig) (Some pub) (Some (fields_encode fs)) = SSH_OK.
Proof.
  intros Hm Hp Hpub Hok Hne Hn Hx. unfold sign_packed.
  destruct ssh_buffer_new_spec as (r & -> & Hb). cbn [mbind option_bind]. destruct r as [b|]; [|done].
  destruct (Hb b eq_refl) as (Hwf & Hc & _).
  assert (Hwf' : buffer_wf (ssh_buffer_set_secure b)) by (by destruct Hwf).
  destruct (pack_fields_spec (ssh_buffer_set_secure b) fs Hwf' Hok Hne Hn) as (rc & b1 & -> & Hwf1 & _ & Hrc).
  cbn [mbind option_bind]. destruct Hrc as [[-> Hc1]|[-> _]]; [|done].
  change (contents (ssh_buffer_set_secure b)) with (contents b) in Hc1. rewrite Hc in Hc1. cbn [app] in Hc1.
  cbn [negb Z.eqb SSH_OK]. rewrite get_contents by (done || by rewrite Hc1). rewrite Hc1.
  unfold pki_do_sign. destruct (pki_key_check_hash_compatible fips (Some priv) md =? SSH_OK) eqn:Ec; [|done].
  apply Z.eqb_eq in Ec. cbn [negb]. destruct (pki_sign_data _ _ _ _) as [[sig|]|] eqn:Es; [|done|done].
  cbn [mbind option_bind]. intros Hexp. apply sign_data_spec in Es as (Hpr & _ & pkey & raw & Hpk & Hs & Hsig).
  destruct (pki_key_to_pkey pub) as [pkey'|] eqn:Hpk'; [|done]. clear Hpub.
  assert (Hlen : (key_type priv = SSH_KEYTYPE_RSA /\ (forall r, key_rsa priv = Some r -> zlen raw = RSA_size r)
      \/ key_type priv = SSH_KEYTYPE_ED25519 /\ zlen raw = ED25519_SIG_LEN) /\ 0 < zlen raw < 2 ^ 16).
  { destruct Hp as [? ? k k' Hkt ? ? Hr ? ? ?|? ? seed Hkt ? ? Hseed ?]; unfold pki_key_to_pkey in Hpk; rewrite Hkt in Hpk.
    - rewrite Hr in Hpk. pose proof (RSA_sign_size _ _ _ _ _ Hpk Hs) as Hz. pose proof (RSA_size_bound k).
      split; [left; split; [done|]; congruence|lia].
    - rewrite Hpr, Hseed in Hpk. pose proof (ED25519_sign_size _ _ _ _ _ Hpk Hs) as Hz. unfold ED25519_SIG_LEN in *.
      split; [by right|lia]. }
  destruct Hlen as [Hlen Hpos]. destruct (Hsig ltac:(lia)) as (s & Hswf & Hst & ->).
  destruct (pair_to_blob priv pub (ssh_key_signature_to_char (key_type priv) md) md s Hm Hp Hswf) as (st & Hto & Hstw & Htx).
  { rewrite Hst. destruct Hlen as [[? _]|?]; [left; split; [done|lia]|by right]. }
  destruct (export_signature_text _ _ _ Hto Hstw Hexp) as (name & Hname & Hbw & Hbt). cbn [sig_type_c] in Hname.
  destruct (signature_name_type fips priv md name) as (Hcs & Hty & Hmd & Hnl);
    [destruct Hlen as [[? _]|[? _]]; auto|done|done|].
  split; [done|]. intros blob' Hbw' Htx'. rewrite Hbt in Htx'.
  destruct (import_signature_text blob' pub name (string_text st) Hm Hbw' Htx' Hcs) as (s2 & Hs2 & Ht2 & ->).
  { rewrite Htx', zlen_app, !zlen_lv, Htx, Hst. unfold BUFFER_SIZE_MAX. lia. }
  rewrite Hty, Hmd. destruct (pair_from_blob priv pub md s2 Hm Hp Hs2) as (st3 & -> & _ & Ht3).
  { by rewrite Ht2, Htx, Hst. }
  eexists. split; [reflexivity|]. split; [done|].
  eapply (pair_verifies fips priv pub md pkey pkey' _ raw); try done. by rewrite Ht3, Ht2, Htx.
Qed.

(** (C17) With an RSA or an Ed25519 key, the schemes whose signatures are not re-encoded, a server's signature
    of the exchange hash is accepted by a client that has its public key, under the name of the algorithm it was made with. *)
Theorem host_signature_accepted {K} (s : session K prng handshake) c h priv pub md blob :
  malloc_succeeds -> key_pair priv pub -> pki_key_to_pkey pub <> None ->
  next_crypto s = Some c -> secret_hash (keys (upper s)) = Some h -> digest_len c = zlen h -> 0 < zlen h < 2 ^ 32 ->
  ssh_srv_pki_do_sign_sessionid fips s (Some priv) md = Some (Some blob) ->
  exists sig, ssh_pki_import_signature_blob (Some blob) pub = Some (Some sig)
    /\ sig_type_c sig = ssh_key_signature_to_char (key_type priv) md
    /\ ssh_pki_signature_verify fips (Some sig) (Some pub) (Some h) = SSH_OK.
Proof.
  intros Hm Hp Hpub Hc Hh Hd Hl. unfold ssh_srv_pki_do_sign_sessionid. destruct (negb _); [done|].
  rewrite Hc. cbn [mbind option_bind]. rewrite Hh, Hd. intros Hs.
  destruct (sign_packed_accepted priv pub md [FData h] blob Hm Hp Hpub) as (Hw & Ha); try done.
  - constructor; [exact (proj2 Hl)|constructor].
  - cbn. rewrite app_nil_r. apply zlen_nonempty; lia.
  - destruct (Ha blob Hw eq_refl) as (sig & Hi & Ht & Hv).
    exists sig. cbn [fields_encode map concat encode] in Hv. unfold fields_encode in Hv. cbn in Hv.
    by rewrite app_nil_r in Hv.
Qed.

(** What a client signs to authenticate: the identifier of the session, as a string,
    before the request (RFC 4252, section 7). *)
Lemma user_signature_accepted {K} (s : session K prng handshake) slot c id sb priv pub md blob :
  malloc_succeeds -> key_pair priv pub -> pki_key_to_pkey pub <> None ->
  ssh_packet_get_current_crypto s SSH_DIRECTION_BOTH = Some (slot, c) ->
  session_id c = Some id -> digest_len c = zlen id -> 0 < zlen id <= 64 ->
  buffer_wf sb -> contents sb <> [] ->
  ssh_pki_do_sign fips s (Some sb) (Some priv) md = Some (Some blob) ->
  string_wf blob /\ forall blob', string_wf blob' -> string_text blob' = string_text blob ->
    exists sig, ssh_pki_import_signature_blob (Some blob') pub = Some (Some sig)
    /\ sig_type_c sig = ssh_key_signature_to_char (key_type priv) md
    /\ ssh_pki_signature_verify fips (Some sig) (Some pub) (Some (lv id ++ contents sb)) = SSH_OK.
Proof.
  intros Hm Hp Hpub Hc Hid Hd Hl Hwf Hne. unfold ssh_pki_do_sign. destruct (negb _); [done|].
  rewrite Hc, Hid, Hd. destruct (string_new_ok (zlen id) Hm) as (n & -> & Hn & Hnl); [unfold BUFFER_SIZE_MAX; lia|].
  destruct (fill_spec n id (zlen id) Hn Hnl) as (ids & -> & Hids & Ht); [lia|]. cbn [mbind option_bind].
  rewrite ztake_all in Ht by lia. pose proof (contents_max sb Hwf). unfold BUFFER_SIZE_MAX in *.
  rewrite get_contents, ssh_buffer_get_len_contents by done. intros Hs.
  assert (He : fields_encode [FString ids; FData (contents sb)] = lv id ++ contents sb).
  { unfold fields_encode. cbn [map concat encode]. by rewrite Ht, app_nil_r. }
  destruct (sign_packed_accepted priv pub md [FString ids; FData (contents sb)] blob Hm Hp Hpub) as (Hw & Ha);
    [repeat constructor; [done|cbn; lia]|done|done|rewrite He; by destruct (lv id)|exact Hs|].
  split; [done|]. intros blob' Hw' Ht'. destruct (Ha blob' Hw' Ht') as (sig & Hi & Hty & Hv). exists sig. by rewrite He in Hv.
Qed.

(** The verification, decided: the types and the digest fit, and the library either
    accepts the signature or could not start. *)
Lemma verify_spec sig key input :
  ssh_pki_signature_verify fips (Some sig) (Some key) (Some input) = SSH_OK <->
  ssh_key_type_plain (key_type key) = sig_type sig
  /\ pki_key_check_hash_compatible fips (Some key) (sig_hash sig) = SSH_OK
  /\ ssh_key_is_private (Some key) = false
  /\ exists raw pkey, raw_sig sig = Some raw /\ pki_key_to_pkey key = Some pkey
     /\ (EVP_DigestVerify (pki_digest_to_md (sig_hash sig)) pkey (string_text raw) input = 1
         \/ EVP_MD_CTX_created = false
         \/ EVP_DigestVerifyInit (pki_digest_to_md (sig_hash sig)) pkey <> 1).
Proof.
  unfold ssh_pki_signature_verify, pki_verify_data_signature. split.
  - destruct (bool_decide _) eqn:Et; [|done]. apply bool_decide_eq_true in Et. cbn [negb].
    destruct (_ =? SSH_OK) eqn:Ec; [|done]. apply Z.eqb_eq in Ec. cbn [negb].
    destruct (raw_sig sig) as [raw|]; [|done]. destruct (ssh_key_is_private (Some key)); [done|].
    rewrite Ec. destruct (pki_key_to_pkey key) as [pkey|]; [|done]. fold (string_text raw).
    intros Hv. split_and!; [done..|]. exists raw, pkey. split_and!; [done|done|].
    destruct EVP_MD_CTX_created; [|by auto]. destruct (Z.eqb_spec (EVP_DigestVerifyInit (pki_digest_to_md (sig_hash sig)) pkey) 1);
      [|by auto]. left. cbn [negb] in Hv. by destruct (Z.eqb_spec (EVP_DigestVerify (pki_digest_to_md (sig_hash sig)) pkey (string_text raw) input) 1).
  - intros (Et & Ec & Hp & raw & pkey & Hr & Hk & Hv). rewrite bool_decide_eq_true_2, Ec, Hr, Hp, Hk by done.
    cbn [negb]. rewrite Z.eqb_refl. cbn [negb]. fold (string_text raw). destruct EVP_MD_CTX_created; [|done]. cbn [negb].
    destruct (Z.eqb_spec (EVP_DigestVerifyInit (pki_digest_to_md (sig_hash sig)) pkey) 1); [|done]. cbn [negb].
    destruct Hv as [-> |[?|?]]; done.
Qed.

(** A signature is accepted only for a key of its type, with a digest that is allowed
    for the key, and if the library verified it; but also if the library failed
    before the verification. *)
Theorem signature_verified_or_library_failed sig key input :
  ssh_pki_signature_verify fips (Some sig) (Some key) (Some input) = SSH_OK ->
  ssh_key_type_plain (key_type key) = sig_type sig
  /\ pki_key_check_hash_compatible fips (Some key) (sig_hash sig) = SSH_OK
  /\ exists raw pkey, raw_sig sig = Some raw /\ pki_key_to_pkey key = Some pkey
     /\ (EVP_DigestVerify (pki_digest_to_md (sig_hash sig)) pkey (string_text raw) input = 1
         \/ EVP_MD_CTX_created = false
         \/ EVP_DigestVerifyInit (pki_digest_to_md (sig_hash sig)) pkey <> 1).
Proof. intros Hv. apply verify_spec in Hv as (? & ? & _ & ?). by split_and!. Qed.

(** (C18) When OpenSSL cannot start the verification, any well formed signature is taken for
    valid: the variable that is returned still holds the result of the
    check before it. *)
Theorem verify_fails_open sig key input raw pkey :
  ssh_key_type_plain (key_type key) = sig_type sig ->
  pki_key_check_hash_compatible fips (Some key) (sig_hash sig) = SSH_OK ->
  ssh_key_is_private (Some key) = false -> raw_sig sig = Some raw -> pki_key_to_pkey key = Some pkey ->
  EVP_MD_CTX_created = false \/ EVP_DigestVerifyInit (pki_digest_to_md (sig_hash sig)) pkey <> 1 ->
  ssh_pki_signature_verify fips (Some sig) (Some key) (Some input) = SSH_OK.
Proof. intros Ht Hc Hp Hr Hk Hf. apply verify_spec. split_and!; [done..|]. exists raw, pkey. auto. Qed.


(** *** Exported keys *)

Lemma lv_app_ne t r : lv t ++ r <> [].
Proof. apply zlen_nonempty. rewrite zlen_app, zlen_lv. pose proof (zlen_nonneg t). zlen_lia. Qed.

Lemma add_strings_ok ss : forall b, malloc_succeeds -> buffer_wf b -> Forall string_wf ss ->
  b_used b + zlen (concat (map (fun s => lv (string_text s)) ss)) < BUFFER_SIZE_MAX ->
  exists b', add_strings (map (fun s => Some (Some s)) ss) b = Some (true, b') /\ buffer_wf b'
    /\ b_used b' <= b_used b + zlen (concat (map (fun s => lv (string_text s)) ss))
    /\ contents b' = contents b ++ concat (map (fun s => lv (string_text s)) ss).
Proof.
  induction ss as [|s ss IH]; intros b Hm Hwf Hs Hmax; cbn [map add_strings concat] in *.
  - exists b. rewrite app_nil_r. split_and!; [done|done|zlen_lia|done].
  - inversion Hs as [|? ? Hs1 Hs2]; subst. rewrite zlen_app, zlen_lv in Hmax. cbn [mbind option_bind].
    pose proof (zlen_nonneg (concat (map (fun s => lv (string_text s)) ss))).
    destruct (add_ssh_string_ok b s Hm Hwf Hs1) as (b1 & -> & Hwf1 & Hu1 & Hc1); [lia|]. cbn [mbind option_bind].
    change (0 <? 0) with false. cbv iota. destruct (IH b1 Hm Hwf1 Hs2) as (b2 & -> & Hwf2 & Hu2 & Hc2); [lia|].
    exists b2. split_and!; [done|done|rewrite zlen_app, zlen_lv; lia|].
    rewrite Hc2, Hc1. unfold lv. by rewrite <- !app_assoc.
Qed.

Lemma buffer_blob_ok chk b : malloc_succeeds -> buffer_wf b -> contents b <> [] ->
  exists s, buffer_blob chk b = Some (Some s) /\ string_wf s /\ string_text s = contents b.
Proof.
  intros Hm Hwf Hne. destruct (buffer_blob_spec chk b Hwf Hne) as (r & Hr & Hs). destruct r as [s|].
  - exists s. by destruct (Hs s eq_refl).
  - exfalso. revert Hr. unfold buffer_blob. pose proof (contents_max b Hwf). pose proof (zlen_nonneg (contents b)).
    rewrite ssh_buffer_get_len_contents by done.
    destruct (string_new_ok (zlen (contents b)) Hm) as (s & -> & Hsw & Hsl); [lia|].
    pose proof (get_contents b Hwf Hne) as Hg. rewrite ssh_buffer_get_len_contents in Hg by done.
    destruct (ssh_buffer_get b) as [d|]; [|done]. injection Hg as Hg. apply (f_equal zlen) in Hg.
    assert (0 < zlen (contents b)) by (destruct (contents b); [done|rewrite zlen_cons; zlen_lia]).
    rewrite zlen_take in Hg.
    destruct (fill_spec s d (zlen (contents b)) Hsw Hsl) as (s' & -> & _); [lia|]. cbn [mbind option_bind].
    change (0 <? 0) with false. by rewrite andb_false_r.
Qed.

Lemma bignum_string_ok n : malloc_succeeds -> bn_val n <> 0 -> 4 + zlen (mpint n) < BUFFER_SIZE_MAX ->
  exists s, ssh_make_bignum_string n = Some (Some s) /\ string_wf s /\ string_text s = mpint n.
Proof.
  intros Hm Hn Hl. pose proof (bignum_string_made n Hm Hn Hl). pose proof (make_bignum_string_runs n).
  destruct (ssh_make_bignum_string n) as [[s|]|] eqn:E; [|done|done]. exists s. split; [done|].
  by apply make_bignum_string_text in E as (? & _ & ?).
Qed.

(** Reading the blob of a plain key. *)
Lemma import_plain_blob blob name rest :
  malloc_succeeds -> string_wf blob -> string_text blob = lv name ++ rest -> is_cstr name ->
  zlen (string_text blob) < BUFFER_SIZE_MAX ->
  ssh_key_type_from_name (Some name) <> SSH_KEYTYPE_UNKNOWN -> is_cert_type (ssh_key_type_from_name (Some name)) = false ->
  exists b, buffer_wf b /\ contents b = rest
  /\ ssh_pki_import_pubkey_blob (Some blob)
     = ('(key, _) ← pki_import_pubkey_buffer b (ssh_key_type_from_name (Some name)); Some key).
Proof.
  intros Hm Hwf Ht Hn Hmax Hty Hce. unfold ssh_pki_import_pubkey_blob.
  destruct (blob_buffer_spec blob Hwf) as (r & -> & Hr & Hok). specialize (Hok Hm Hmax).
  destruct r as [b|]; [|done]. destruct (Hr b eq_refl) as [Hb Hc]. rewrite Ht in Hc. cbn [mbind option_bind].
  destruct (get_ssh_string_lv Hm b name rest Hb Hc) as (s1 & b1 & -> & Hb1 & _ & Hc1 & Hs1 & Ht1).
  cbn [mbind option_bind]. destruct (text_char_spec s1 Hs1) as (w & -> & Hw). cbn [mbind option_bind].
  rewrite Ht1 in Hw. rewrite (Hw Hn), bool_decide_eq_false_2, Hce by done. by exists b1.
Qed.

(** The blob of a key without a certificate. *)
Lemma publickey_blob_ok key name rest :
  malloc_succeeds -> key_cert key = None -> key_type_c key = Some name ->
  (forall b, buffer_wf b -> contents b = lv name -> b_used b <= 4 + zlen name ->
    exists b', key_parts key b = Some (true, b') /\ buffer_wf b' /\ contents b' = lv name ++ rest) ->
  zlen name <= 64 ->
  exists s, ssh_pki_export_pubkey_blob (Some key) = Some (SSH_OK, Some s) /\ string_wf s /\ string_text s = lv name ++ rest.
Proof.
  intros Hm Hcert Hname Hparts Hl. unfold ssh_pki_export_pubkey_blob, pki_publickey_to_blob.
  destruct (ssh_buffer_new_ok Hm) as (b & -> & Hwf & Hc & Hu). cbn [mbind option_bind]. rewrite Hcert, Hname.
  destruct (ssh_string_from_char_ok name Hm) as (sn & -> & Hsn & Htn); [unfold BUFFER_SIZE_MAX; lia|].
  assert (Hz : zlen (concat (map (fun s => lv (string_text s)) [sn])) = 4 + zlen name).
  { cbn [map concat]. rewrite app_nil_r, zlen_lv, Htn. lia. }
  destruct (add_strings_ok [sn] b Hm Hwf) as (b1 & E & Hwf1 & Hu1 & Hc1).
  - by constructor.
  - rewrite Hz, Hu. unfold BUFFER_SIZE_MAX. lia.
  - cbn [map] in E. rewrite E. cbn [mbind option_bind]. cbn [map concat] in Hc1. rewrite app_nil_r, Hc, Htn in Hc1.
    destruct (Hparts b1 Hwf1 Hc1 ltac:(lia)) as (b2 & -> & Hwf2 & Hc2). cbn [mbind option_bind negb].
    destruct (buffer_blob_ok true b2 Hm Hwf2) as (s & -> & Hs & Ht); [rewrite Hc2; apply lv_app_ne|].
    exists s. split_and!; [done|done|]. by rewrite Ht.
Qed.

Lemma make_string_bn_total s : (forall l, bignum_bin2bn l <> None) -> exists n, ssh_make_string_bn s = Some n.
Proof. intros Hbn. unfold ssh_make_string_bn. destruct (bignum_bin2bn _) eqn:E; [by eexists|by apply Hbn in E]. Qed.

Lemma string_bn_val s n m : string_text s = mpint n -> ssh_make_string_bn s = Some m -> bn_val m = bn_val n.
Proof.
  intros Ht. unfold ssh_make_string_bn. fold (string_text s). rewrite Ht. intros Hm. apply bn_bin2bn_spec in Hm.
  by rewrite Hm, mpint_val.
Qed.

(** An RSA key is read from the two numbers of its blob. *)
Lemma import_rsa_parts b e n :
  malloc_succeeds -> (forall l, bignum_bin2bn l <> None) -> (forall n e, RSA_public n e <> None) ->
  buffer_wf b -> contents b = lv (mpint e) ++ lv (mpint n) ->
  zlen (mpint e) < 2 ^ 16 -> zlen (mpint n) < 2 ^ 16 ->
  exists k b', pki_import_pubkey_buffer b SSH_KEYTYPE_RSA
      = Some (Some (mk_key _ _ SSH_KEYTYPE_RSA SSH_KEY_FLAG_PUBLIC (Some (cstr "ssh-rsa")) 0 None (Some k) None None None None), b')
    /\ bn_val (RSA_n k) = bn_val n /\ bn_val (RSA_e k) = bn_val e.
Proof.
  intros Hm Hbn Hrsa Hwf Hc He Hn. unfold pki_import_pubkey_buffer, public_key.
  destruct (malloc SIZEOF_KEY) eqn:Ek; [|apply Hm in Ek; [done|vm_compute; by split]]. clear Ek.
  destruct (ssh_string_from_char_ok (mpint e) Hm) as (se & _ & Hse & Hte); [unfold BUFFER_SIZE_MAX; lia|].
  destruct (ssh_string_from_char_ok (mpint n) Hm) as (sn & _ & Hsn & Htn); [unfold BUFFER_SIZE_MAX; lia|].
  destruct (unpack_fields_ok b [FString se; FString sn] Hm Hbn Hwf) as (os & b' & Hu & Hos & _).
  - unfold fields_encode. cbn [map concat encode]. by rewrite Hte, Htn, app_nil_r.
  - repeat constructor; done.
  - done.
  - done.
  - repeat constructor; done.
  - unfold unpack_strings. change (replicate 2 UPtr) with (@fields_uargs H0 [FString se; FString sn]).
    change (cstr "SS") with (@fields_format H0 [FString se; FString sn]). rewrite Hu. cbn [mbind option_bind].
    change (SSH_OK =? SSH_OK) with true. cbv iota.
    inversion Hos as [|? o1 ? ? Ho1 Hos1]; subst. inversion Hos1 as [|? o2 ? ? Ho2 Hos2]; subst. inversion Hos2; subst.
    destruct o1 as [|[s1|]| | |]; try done. destruct o2 as [|[s2|]| | |]; try done.
    destruct Ho1 as [_ Ht1]. destruct Ho2 as [_ Ht2]. cbn [mapM mbind option_bind mret option_ret].
    unfold pki_pubkey_build_rsa, bn_all.
    destruct (make_string_bn_total s1 Hbn) as [be Hbe]. destruct (make_string_bn_total s2 Hbn) as [bn Hbn'].
    cbn [mapM]. rewrite Hbe, Hbn'. cbn [mbind option_bind mret option_ret].
    destruct (RSA_public bn be) as [k|] eqn:Er; [|by apply Hrsa in Er]. cbn [mbind option_bind].
    exists k, b'. split; [reflexivity|]. destruct (RSA_public_parts _ _ _ Er) as [-> ->].
    split; [eapply string_bn_val; [|exact Hbn']|eapply string_bn_val; [|exact Hbe]]; congruence.
Qed.

Lemma import_ed25519_parts b t :
  malloc_succeeds -> buffer_wf b -> contents b = lv t -> zlen t = ED25519_KEY_LEN ->
  exists b', pki_import_pubkey_buffer b SSH_KEYTYPE_ED25519
      = Some (Some (mk_key _ _ SSH_KEYTYPE_ED25519 SSH_KEY_FLAG_PUBLIC (Some (cstr "ssh-ed25519")) 0 None None None
                      (Some t) None None), b').
Proof.
  intros Hm Hwf Hc Ht. unfold pki_import_pubkey_buffer, public_key, ED25519_KEY_LEN in *.
  destruct (malloc SIZEOF_KEY) eqn:Ek; [|apply Hm in Ek; [done|vm_compute; by split]]. clear Ek.
  rewrite <- (app_nil_r (lv t)) in Hc.
  destruct (get_ssh_string_lv Hm b t [] Hwf Hc) as (s & b' & -> & _ & _ & _ & Hs & Hst). cbn [mbind option_bind].
  pose proof (string_text_zlen s Hs) as Hl. rewrite <- Hl, Hst, Ht. change (negb (32 =? 32)) with false. cbv iota.
  rewrite Hst, Ht in Hl.
  destruct (malloc 32) as [p|] eqn:Ep; [|apply Hm in Ep; [done|vm_compute; by split]]. apply malloc_zlen in Ep; [|done].
  pose proof (string_wf_len s Hs) as (_ & _ & Hd). cbn [ssh_string_data mbind option_bind].
  rewrite memcpy_ok by lia. cbn [mbind option_bind]. exists b'. do 5 f_equal. unfold set_ed25519. f_equal. f_equal.
  rewrite (ztake_0 0), (zdrop_0 0), (zdrop_all (0 + 32)), app_nil_r by lia. cbn [app].
  rewrite <- Hst. unfold string_text. by rewrite <- Hl.
Qed.

(** A private key of the two schemes, as it is loaded: with its name, its public part
    and no certificate. *)
Inductive host_key : ssh_key -> Prop :=
  | host_rsa priv r : key_type priv = SSH_KEYTYPE_RSA -> key_type_c priv = Some (cstr "ssh-rsa") ->
      key_rsa priv = Some r -> bn_val (RSA_n r) <> 0 -> bn_val (RSA_e r) <> 0 ->
      zlen (mpint (RSA_n r)) < 2 ^ 16 -> zlen (mpint (RSA_e r)) < 2 ^ 16 -> host_key priv
  | host_ed25519 priv seed : key_type priv = SSH_KEYTYPE_ED25519 -> key_type_c priv = Some (cstr "ssh-ed25519") ->
      ed25519_privkey priv = Some seed -> zlen seed = ED25519_KEY_LEN ->
      ed25519_pubkey priv = Some (ed25519_point seed) -> host_key priv.

Lemma ed25519_dup_ok t : malloc_succeeds -> zlen t = ED25519_KEY_LEN -> ed25519_dup (Some t) = Some (Some (Some t)).
Proof.
  intros Hm Ht. unfold ed25519_dup, ED25519_KEY_LEN in *.
  destruct (malloc 32) as [p|] eqn:E; [|apply Hm in E; [done|vm_compute; by split]]. apply malloc_zlen in E; [|done].
  by rewrite memcpy_over by lia.
Qed.

(** A key of the two schemes whose blob is [lv name ++ rest]. *)
Inductive blob_key : ssh_key -> bytes -> bytes -> Prop :=
  | blob_rsa key r : key_type key = SSH_KEYTYPE_RSA -> key_type_c key = Some (cstr "ssh-rsa") -> key_cert key = None ->
      key_rsa key = Some r -> bn_val (RSA_n r) <> 0 -> bn_val (RSA_e r) <> 0 ->
      zlen (mpint (RSA_n r)) < 2 ^ 16 -> zlen (mpint (RSA_e r)) < 2 ^ 16 ->
      blob_key key (cstr "ssh-rsa") (lv (mpint (RSA_e r)) ++ lv (mpint (RSA_n r)))
  | blob_ed25519 key point : key_type key = SSH_KEYTYPE_ED25519 -> key_type_c key = Some (cstr "ssh-ed25519") ->
      key_cert key = None -> ed25519_pubkey key = Some point -> zlen point = ED25519_KEY_LEN ->
      blob_key key (cstr "ssh-ed25519") (lv point).

Lemma rsa_parts_ok key r b :
  malloc_succeeds -> key_type key = SSH_KEYTYPE_RSA -> key_rsa key = Some r -> bn_val (RSA_n r) <> 0 ->
  bn_val (RSA_e r) <> 0 -> zlen (mpint (RSA_n r)) < 2 ^ 16 -> zlen (mpint (RSA_e r)) < 2 ^ 16 ->
  buffer_wf b -> b_used b <= 64 ->
  exists b', key_parts key b = Some (true, b') /\ buffer_wf b'
    /\ contents b' = contents b ++ lv (mpint (RSA_e r)) ++ lv (mpint (RSA_n r)).
Proof.
  intros Hm Hty Hr Hn He Hln Hle Hwf Hu. unfold key_parts. rewrite Hty, Hr. cbn [mbind option_bind].
  destruct (bignum_string_ok (RSA_e r) Hm He) as (se & Ee & Hse & Hte); [unfold BUFFER_SIZE_MAX; lia|].
  destruct (bignum_string_ok (RSA_n r) Hm Hn) as (sn & En & Hsn & Htn); [unfold BUFFER_SIZE_MAX; lia|].
  cbn [map]. rewrite Ee, En.
  destruct (add_strings_ok [se; sn] b Hm Hwf) as (b' & E & Hwf' & _ & Hc').
  - by repeat constructor.
  - cbn [map concat]. rewrite !zlen_app, !zlen_lv, zlen_nil, Hte, Htn. unfold BUFFER_SIZE_MAX. lia.
  - cbn [map] in E. rewrite E. exists b'. split_and!; [done|done|]. cbn [map concat] in Hc'.
    by rewrite Hc', Hte, Htn, app_nil_r.
Qed.

Lemma ed25519_parts_ok key point b :
  malloc_succeeds -> key_type key = SSH_KEYTYPE_ED25519 -> ed25519_pubkey key = Some point ->
  zlen point = ED25519_KEY_LEN -> buffer_wf b -> b_used b <= 64 ->
  exists b', key_parts key b = Some (true, b') /\ buffer_wf b' /\ contents b' = contents b ++ lv point.
Proof.
  intros Hm Hty Hp Hz Hwf Hu. unfold key_parts. rewrite Hty, Hp.
  set (fs := [FDword ED25519_KEY_LEN; FData point]).
  assert (He : fields_encode fs = lv point).
  { unfold fields_encode. cbn [fs map concat encode]. rewrite app_nil_r. unfold lv. by rewrite Hz. }
  destruct (pack_fields_ok b fs Hm Hwf) as (b' & Hpk & Hwf' & _ & Hc').
  - repeat constructor; cbn; unfold ED25519_KEY_LEN in *; lia.
  - done.
  - done.
  - cbn. rewrite Hz. vm_compute. reflexivity.
  - rewrite He, zlen_lv, Hz. unfold ED25519_KEY_LEN, BUFFER_SIZE_MAX. lia.
  - unfold fields_format, fields_args in Hpk. cbn [fs map concat field_char field_args app] in Hpk. rewrite Hz in Hpk.
    change (cstr "dP") with ["d"%byte; "P"%byte]. rewrite Hpk. cbn [mbind option_bind].
    exists b'. split_and!; [done|done|]. by rewrite Hc', He.
Qed.

Lemma blob_key_export key name rest : malloc_succeeds -> blob_key key name rest ->
  exists s, ssh_pki_export_pubkey_blob (Some key) = Some (SSH_OK, Some s) /\ string_wf s /\ string_text s = lv name ++ rest.
Proof.
  intros Hm Hk. destruct Hk as [key r Hty Hname Hce Hr Hn He Hln Hle|key point Hty Hname Hce Hp Hz].
  - apply publickey_blob_ok; [done|done|done| |vm_compute; discriminate]. intros b Hwf Hc Hu.
    change (zlen (cstr "ssh-rsa")) with 7 in Hu.
    destruct (rsa_parts_ok key r b) as (b' & -> & Hwf' & Hc'); try done; [lia|]. exists b'. by rewrite Hc', Hc.
  - apply publickey_blob_ok; [done|done|done| |vm_compute; discriminate]. intros b Hwf Hc Hu.
    change (zlen (cstr "ssh-ed25519")) with 11 in Hu.
    destruct (ed25519_parts_ok key point b) as (b' & -> & Hwf' & Hc'); try done; [lia|]. exists b'. by rewrite Hc', Hc.
Qed.

(** The blob determines the key it is read as, and that key has the same blob. *)
Lemma blob_key_import key name rest blob :
  malloc_succeeds -> (forall l, bignum_bin2bn l <> None) -> (forall n e, RSA_public n e <> None) ->
  blob_key key name rest -> string_wf blob -> string_text blob = lv name ++ rest ->
  exists key', ssh_pki_import_pubkey_blob (Some blob) = Some (Some key') /\ blob_key key' name rest
    /\ ssh_key_is_private (Some key') = false /\ key_type key' = key_type key
    /\ (forall r, key_rsa key = Some r -> key_type key = SSH_KEYTYPE_RSA -> exists r', key_rsa key' = Some r'
          /\ bn_val (RSA_n r') = bn_val (RSA_n r) /\ bn_val (RSA_e r') = bn_val (RSA_e r))
    /\ (key_type key = SSH_KEYTYPE_ED25519 -> ed25519_pubkey key' = ed25519_pubkey key).
Proof.
  intros Hm Hbn Hrsa Hk Hs Ht. destruct Hk as [key r Hty Hname Hce Hr Hn He Hln Hle|key point Hty Hname Hce Hp Hz].
  - destruct (import_plain_blob blob (cstr "ssh-rsa") (lv (mpint (RSA_e r)) ++ lv (mpint (RSA_n r))) Hm Hs Ht)
      as (b & Hwf & Hc & Hi);
      [apply (bool_decide_eq_true_1 (is_cstr _)); vm_compute; reflexivity
      |rewrite Ht, !zlen_app, !zlen_lv; change (zlen (cstr "ssh-rsa")) with 7; unfold BUFFER_SIZE_MAX; lia
      |by vm_compute|reflexivity|].
    change (ssh_key_type_from_name (Some (cstr "ssh-rsa"))) with SSH_KEYTYPE_RSA in Hi.
    destruct (import_rsa_parts b (RSA_e r) (RSA_n r)) as (k & b' & Hik & Hkn & Hke); try done.
    rewrite Hik in Hi. eexists. split; [exact Hi|].
    pose proof (mpint_val_eq _ _ Hkn) as Hmn. pose proof (mpint_val_eq _ _ Hke) as Hme. split_and!.
    + rewrite <-Hmn, <-Hme. apply blob_rsa; try done; rewrite ?Hkn, ?Hke, ?Hmn, ?Hme; done.
    + done.
    + done.
    + intros r1 Hr1 _. rewrite Hr in Hr1. injection Hr1 as <-. by exists k.
    + congruence.
  - destruct (import_plain_blob blob (cstr "ssh-ed25519") (lv point) Hm Hs Ht)
      as (b & Hwf & Hc & Hi);
      [apply (bool_decide_eq_true_1 (is_cstr _)); vm_compute; reflexivity
      |rewrite Ht, !zlen_app, !zlen_lv, Hz; vm_compute; reflexivity
      |by vm_compute|reflexivity|].
    change (ssh_key_type_from_name (Some (cstr "ssh-ed25519"))) with SSH_KEYTYPE_ED25519 in Hi.
    destruct (import_ed25519_parts b point Hm Hwf Hc Hz) as (b' & Hik).
    rewrite Hik in Hi. eexists. split; [exact Hi|]. split_and!; [by apply blob_ed25519|done|done|congruence|done].
Qed.

(** The public key of a private one, and the blob of it. *)
Lemma demoted_blob priv :
  malloc_succeeds -> (forall n e, RSA_public n e <> None) -> host_key priv ->
  exists pub rest, pki_key_demote priv = Some (Some pub) /\ key_type_c pub = key_type_c priv
  /\ (key_type priv = SSH_KEYTYPE_RSA /\ (exists r, key_rsa priv = Some r /\ rest = lv (mpint (RSA_e r)) ++ lv (mpint (RSA_n r)))
      \/ key_type priv = SSH_KEYTYPE_ED25519 /\ exists seed, ed25519_privkey priv = Some seed /\ rest = lv (ed25519_point seed))
  /\ exists s name, key_type_c priv = Some name /\ ssh_pki_export_pubkey_blob (Some pub) = Some (SSH_OK, Some s)
     /\ string_wf s /\ string_text s = lv name ++ rest.
Proof.
  intros Hm Hrsa Hk. unfold pki_key_demote, public_key.
  destruct (malloc SIZEOF_KEY) eqn:Ek; [|apply Hm in Ek; [done|vm_compute; by split]]. clear Ek.
  destruct Hk as [priv r Hty Hname Hr Hn He Hln Hle|priv seed Hty Hname Hpriv Hlen Hpub]; rewrite Hty.
  - rewrite Hr. cbn [mbind option_bind].
    destruct (RSA_public (RSA_n r) (RSA_e r)) as [k|] eqn:Er; [|by apply Hrsa in Er].
    destruct (RSA_public_parts _ _ _ Er) as [Hkn Hke]. cbn [option_map].
    do 2 eexists. split; [reflexivity|]. split; [done|]. split; [left; split; [done|]; by exists r|].
    rewrite Hname. match goal with |- context [ssh_pki_export_pubkey_blob (Some ?p)] =>
      destruct (blob_key_export p _ _ Hm (blob_rsa p k eq_refl eq_refl eq_refl eq_refl ltac:(congruence) ltac:(congruence)
        ltac:(congruence) ltac:(congruence))) as (s & Hs & Hw & Ht) end.
    rewrite Hkn, Hke in Ht. by exists s, (cstr "ssh-rsa").
  - rewrite Hpriv, Hpub. cbn [some orb negb]. rewrite (ed25519_dup_ok seed Hm Hlen). cbn [mbind option_bind].
    rewrite (ed25519_dup_ok (ed25519_point seed) Hm (ed25519_point_size seed)). cbn [mbind option_bind option_map].
    do 2 eexists. split; [reflexivity|]. split; [done|]. split; [right; split; [done|]; by exists seed|].
    rewrite Hname. match goal with |- context [ssh_pki_export_pubkey_blob (Some ?p)] =>
      destruct (blob_key_export p _ _ Hm (blob_ed25519 p (ed25519_point seed) eq_refl eq_refl eq_refl eq_refl
        (ed25519_point_size seed))) as (s & Hs & Hw & Ht) end.
    by exists s, (cstr "ssh-ed25519").
Qed.

(** The public key a peer reads from the exported blob of a private key forms a key
    pair with it. *)
Theorem exported_key_pair priv :
  malloc_succeeds -> (forall l, bignum_bin2bn l <> None) -> (forall n e, RSA_public n e <> None) ->
  host_key priv -> ssh_key_is_private (Some priv) = true ->
  exists pub blob key, ssh_pki_export_privkey_to_pubkey (Some priv) = Some (Some pub)
    /\ ssh_pki_export_pubkey_blob (Some pub) = Some (SSH_OK, Some blob)
    /\ ssh_pki_import_pubkey_blob (Some blob) = Some (Some key) /\ key_pair priv key.
Proof.
  intros Hm Hbn Hrsa Hk Hp. unfold ssh_pki_export_privkey_to_pubkey. rewrite Hp.
  destruct (demoted_blob priv Hm Hrsa Hk) as (pub & rest & -> & _ & Hrest & s & name & Hname & He & Hs & Ht).
  exists pub, s. destruct Hk as [priv r Hty Hname' Hr Hn Hne Hln Hle|priv seed Hty Hname' Hpriv Hlen Hpub];
    rewrite Hname' in Hname; injection Hname as <-.
  - destruct Hrest as [(_ & r' & Hr' & ->)|[? _]]; [|congruence]. rewrite Hr in Hr'. injection Hr' as <-.
    destruct (import_plain_blob s (cstr "ssh-rsa") (lv (mpint (RSA_e r)) ++ lv (mpint (RSA_n r))) Hm Hs Ht)
      as (b & Hwf & Hc & Hi);
      [apply (bool_decide_eq_true_1 (is_cstr _)); vm_compute; reflexivity
      |rewrite Ht, !zlen_app, !zlen_lv; change (zlen (cstr "ssh-rsa")) with 7; unfold BUFFER_SIZE_MAX; lia
      |by vm_compute|reflexivity|].
    change (ssh_key_type_from_name (Some (cstr "ssh-rsa"))) with SSH_KEYTYPE_RSA in Hi.
    destruct (import_rsa_parts b (RSA_e r) (RSA_n r)) as (k & b' & Hik & Hkn & Hke); try done.
    rewrite Hik in Hi. eexists. split_and!; [reflexivity|done|exact Hi|]. by eapply (pair_rsa _ _ r k).
  - destruct Hrest as [[? _]|(_ & seed' & Hseed & ->)]; [congruence|]. rewrite Hpriv in Hseed. injection Hseed as <-.
    destruct (import_plain_blob s (cstr "ssh-ed25519") (lv (ed25519_point seed)) Hm Hs Ht)
      as (b & Hwf & Hc & Hi);
      [apply (bool_decide_eq_true_1 (is_cstr _)); vm_compute; reflexivity
      |rewrite Ht, !zlen_app, !zlen_lv, ed25519_point_size; vm_compute; reflexivity
      |by vm_compute|reflexivity|].
    change (ssh_key_type_from_name (Some (cstr "ssh-ed25519"))) with SSH_KEYTYPE_ED25519 in Hi.
    destruct (import_ed25519_parts b (ed25519_point seed) Hm Hwf Hc (ed25519_point_size seed)) as (b' & Hik).
    rewrite Hik in Hi. eexists. split_and!; [reflexivity|done|exact Hi|]. by eapply (pair_ed25519 _ _ seed).
Qed.

(** The public key that is exported from an Ed25519 private key still holds its secret. *)
Theorem demoted_key_keeps_secret priv seed point :
  malloc_succeeds -> key_type priv = SSH_KEYTYPE_ED25519 -> ed25519_privkey priv = Some seed -> ed25519_pubkey priv = Some point ->
  zlen seed = ED25519_KEY_LEN -> zlen point = ED25519_KEY_LEN ->
  exists pub, pki_key_demote priv = Some (Some pub) /\ ssh_key_is_private (Some pub) = false
    /\ ed25519_privkey pub = Some seed.
Proof.
  intros Hm Hty Hpriv Hpub Hs Hpt. unfold pki_key_demote, public_key.
  destruct (malloc SIZEOF_KEY) eqn:Ek; [|apply Hm in Ek; [done|vm_compute; by split]]. clear Ek.
  rewrite Hty, Hpriv, Hpub. cbn [some orb negb]. rewrite (ed25519_dup_ok seed Hm Hs). cbn [mbind option_bind].
  rewrite (ed25519_dup_ok point Hm Hpt). cbn [mbind option_bind option_map]. by eexists.
Qed.
End PkiProperties.

(** ** A concrete library *)

Module PkiDemo.
Inductive pkey := PRsa (n e : Z) | PEd (point : bytes).

Definition point_of (seed : bytes) : bytes := ztake 32 (seed ++ zrep 32 Byte.x00).
Definition sign (p : pkey) (d : bytes) : bytes :=
  match p with
  | PRsa n _ => zrep 8 (Demo.checksum (be_bytes 8 n) d)
  | PEd point => zrep 64 (Demo.checksum point d)
  end.

Definition make (s : @pkey_source (N * N) () bytes) : option pkey :=
  match s with
  | From_RSA (n, e) => Some (PRsa (Z.of_N n) (Z.of_N e))
  | Raw_private seed => Some (PEd (point_of seed))
  | Raw_public point => Some (PEd point)
  | _ => None
  end.

(** [works]: the verification can be started. *)
Definition lib (works : bool) : @KeyLib N_bignum.
Proof.
  refine (@Build_KeyLib N_bignum (N * N) () bytes pkey (fun n e : N => Some (n, e)) fst snd (fun _ => 8)
    (fun _ _ _ _ => Some ()) (fun _ => (1%N, 1%N, 1%N, 1%N)) (fun _ o => Some o) (fun o => o) (fun _ k => Some k)
    (fun k => Some k) (fun _ _ => None) (fun _ => None) make (fun _ => 64) true (fun _ _ => 1)
    (fun _ p d => Some (sign p d)) (fun _ _ => if works then 1 else 0)
    (fun _ p sig d => if bool_decide (sig = sign p d) then 1 else 0)
    _ _ _ _ _ point_of _ _ _).
  - intros [n e] p md d sig [= <-] [= <-]. reflexivity.
  - intros r. lia.
  - done.
  - intros n e r [= <-]. done.
  - intros [n e] [n' e'] p p' md d sig Hn He [= <-] [= <-] [= <-]. cbn in *. by rewrite ?Hn, ?He, bool_decide_eq_true_2.
  - intros seed. unfold point_of, ED25519_KEY_LEN. rewrite zlen_take, zlen_app, zlen_rep. pose proof (zlen_nonneg seed). lia.
  - intros seed p md d sig [= <-] [= <-]. reflexivity.
  - intros seed p p' md d sig [= <-] [= <-] [= <-]. by rewrite bool_decide_eq_true_2.
Defined.

Definition seed : bytes := zrep 32 Byte.x07.
Definition rsa_priv : @ssh_key N_bignum (lib true) :=
  mk_key _ (lib true) SSH_KEYTYPE_RSA 3 (Some (cstr "ssh-rsa")) 0 None (Some (0xc5f1%N, 65537%N)) None None None None.
Definition rsa_pub : @ssh_key N_bignum (lib true) :=
  mk_key _ (lib true) SSH_KEYTYPE_RSA 1 (Some (cstr "ssh-rsa")) 0 None (Some (0xc5f1%N, 65537%N)) None None None None.
Definition ed_priv : @ssh_key N_bignum (lib true) :=
  mk_key _ (lib true) SSH_KEYTYPE_ED25519 3 (Some (cstr "ssh-ed25519")) 0 None None None
    (Some (point_of seed)) (Some seed) None.

Lemma calloc_works : @malloc_succeeds calloc_allocator.
Proof. intros n Hn. discriminate. Qed.

Definition hash : bytes := zrep 32 Byte.x55.
Definition server : session Z (@prng Demo.random) (@handshake N_bignum) :=
  let s := SidDemo.ended true SSH_KEX_CURVE25519_SHA256 None in
  set_cryptos (current_crypto s) (option_map (set_digest_len 32) (next_crypto s))
    (upd (set_keys (set_hash SSH_KDF_SHA256 (Some hash) no_keys)) s).
End PkiDemo.

Lemma host_signature_accepted_witness :
  exists blob sig,
    @ssh_srv_pki_do_sign_sessionid calloc_allocator N_bignum (PkiDemo.lib true) Demo.random false Z PkiDemo.server
      (Some PkiDemo.rsa_priv) SSH_DIGEST_SHA512 = Some (Some blob)
    /\ @ssh_pki_import_signature_blob calloc_allocator N_bignum (PkiDemo.lib true) (Some blob) PkiDemo.rsa_pub = Some (Some sig)
    /\ sig_type_c sig = Some (cstr "rsa-sha2-512")
    /\ @ssh_pki_signature_verify N_bignum (PkiDemo.lib true) false (Some sig) (Some PkiDemo.rsa_pub) (Some PkiDemo.hash) = SSH_OK.
Proof.
  eexists.
  destruct (@host_signature_accepted calloc_allocator N_bignum (PkiDemo.lib true) Demo.random false Z PkiDemo.server
    (set_digest_len 32 (SidDemo.crypto None)) PkiDemo.hash PkiDemo.rsa_priv PkiDemo.rsa_pub SSH_DIGEST_SHA512
    (mk_string (htonl 28) (lv (cstr "rsa-sha2-512") ++ lv (PkiDemo.sign (PkiDemo.PRsa 0xc5f1 65537) PkiDemo.hash) ++ [Byte.x00]))
    PkiDemo.calloc_works) as (sig & Hi & Ht & Hv);
    [by eapply (@pair_rsa N_bignum (PkiDemo.lib true) _ _ (0xc5f1%N, 65537%N) (0xc5f1%N, 65537%N))|discriminate
    |reflexivity|reflexivity|reflexivity|vm_compute; by split|vm_compute; reflexivity|].
  exists sig. split_and!; [vm_compute; reflexivity|exact Hi|exact Ht|exact Hv].
Defined.

Lemma exported_key_pair_witness :
  exists pub blob key, @ssh_pki_export_privkey_to_pubkey calloc_allocator N_bignum (PkiDemo.lib true) (Some PkiDemo.rsa_priv) = Some (Some pub)
    /\ @ssh_pki_export_pubkey_blob calloc_allocator N_bignum (PkiDemo.lib true) (Some pub) = Some (SSH_OK, Some blob)
    /\ @ssh_pki_import_pubkey_blob calloc_allocator N_bignum (PkiDemo.lib true) (Some blob) = Some (Some key)
    /\ @key_pair N_bignum (PkiDemo.lib true) PkiDemo.rsa_priv key.
Proof.
  apply (@exported_key_pair calloc_allocator N_bignum (PkiDemo.lib true) PkiDemo.rsa_priv PkiDemo.calloc_works);
    [discriminate|discriminate| |reflexivity].
  by eapply (@host_rsa N_bignum (PkiDemo.lib true) _ (0xc5f1%N, 65537%N)).
Defined.

Lemma demoted_key_keeps_secret_witness :
  exists pub, @pki_key_demote calloc_allocator N_bignum (PkiDemo.lib true) PkiDemo.ed_priv = Some (Some pub)
    /\ @ssh_key_is_private N_bignum (PkiDemo.lib true) (Some pub) = false /\ ed25519_privkey pub = Some PkiDemo.seed.
Proof.
  by apply (@demoted_key_keeps_secret calloc_allocator N_bignum (PkiDemo.lib true) PkiDemo.ed_priv PkiDemo.seed
    (PkiDemo.point_of PkiDemo.seed) PkiDemo.calloc_works).
Defined.

(** A forged signature, and a library that cannot start the verification. *)
Definition forged : ssh_signature :=
  mk_signature SSH_KEYTYPE_RSA SSH_DIGEST_SHA256 (Some (cstr "rsa-sha2-256")) (Some (mk_string (htonl 8) (zrep 9 Byte.x00))).
Definition some_rsa (works : bool) : @ssh_key N_bignum (PkiDemo.lib works) :=
  mk_key _ (PkiDemo.lib works) SSH_KEYTYPE_RSA 1 (Some (cstr "ssh-rsa")) 0 None (Some (0xc5f1%N, 65537%N)) None None None None.

Lemma verify_fails_open_witness :
  @ssh_pki_signature_verify N_bignum (PkiDemo.lib true) false (Some forged) (Some (some_rsa true)) (Some PkiDemo.hash) = SSH_ERROR
  /\ @ssh_pki_signature_verify N_bignum (PkiDemo.lib false) false (Some forged) (Some (some_rsa false)) (Some PkiDemo.hash) = SSH_OK.
Proof.
  split; [vm_compute; reflexivity|].
  apply (@verify_fails_open N_bignum (PkiDemo.lib false) false forged (some_rsa false) PkiDemo.hash
    (mk_string (htonl 8) (zrep 9 Byte.x00)) (PkiDemo.PRsa 0xc5f1 65537));
    [reflexivity|reflexivity|reflexivity|reflexivity|reflexivity|right; discriminate].
Defined.

Lemma signature_verified_or_library_failed_witness :
  exists raw pkey, raw_sig forged = Some raw /\ @pki_key_to_pkey N_bignum (PkiDemo.lib false) (some_rsa false) = Some pkey
    /\ (@EVP_DigestVerify N_bignum (PkiDemo.lib false) (Some SSH_DIGEST_SHA256) pkey (string_text raw) PkiDemo.hash = 1
       \/ @EVP_MD_CTX_created N_bignum (PkiDemo.lib false) = false
       \/ @EVP_DigestVerifyInit N_bignum (PkiDemo.lib false) (Some SSH_DIGEST_SHA256) pkey <> 1).
Proof.
  destruct (@signature_verified_or_library_failed N_bignum (PkiDemo.lib false) false forged (some_rsa false) PkiDemo.hash)
    as (_ & _ & He); [vm_compute; reflexivity|exact He].
Defined.


(** The curve that is named inside of a blob is not compared with the type of the key. *)
Example curve_not_checked :
  let text := lv (cstr "ecdsa-sha2-nistp256") ++ lv (cstr "nistp521") ++ lv (cstr "point") in
  option_map (option_map (fun key => (key_type key, ecdsa_nid key, key_type_c key)))
    (@ssh_pki_import_pubkey_blob calloc_allocator N_bignum (PkiDemo.lib true)
      (Some (mk_string (htonl (zlen text)) (text ++ [Byte.x00]))))
  = Some (Some (SSH_KEYTYPE_ECDSA_P256, NID_secp521r1, Some (cstr "ecdsa-sha2-nistp521"))).
Proof. vm_compute. reflexivity. Qed.
