(* ===== verification/UserAuth.v ===== *)
(** * User authentication, client side ([libssh/src/auth.c])

    The requests of a client (none, password, public key, keyboard interactive), the
    service request before them ([src/client.c]) and the handlers of the answers.
    A session of this layer is the session of the layers below with the fields of
    the authentication; it is a [PacketLayer], so packing, sending and
    waiting are those of the channels.  The build is without GSSAPI. *)

From stdpp Require Import gmap.
From S2P Require Import Prelude SshString Buffer Bignum BufferPack Token Session Misc Crypto Packet.
From S2P Require Import PacketRecv Kex Pki Channel.

Definition SSH_AUTH_SUCCESS : Z := 0.
Definition SSH_AUTH_DENIED : Z := 1.
Definition SSH_AUTH_PARTIAL : Z := 2.
Definition SSH_AUTH_INFO : Z := 3.
Definition SSH_AUTH_AGAIN : Z := 4.
Definition SSH_AUTH_ERROR : Z := -1.

Definition SSH_AUTH_METHOD_UNKNOWN : Z := 0.
Definition SSH_AUTH_METHOD_NONE : Z := 1.
Definition SSH_AUTH_METHOD_PASSWORD : Z := 2.
Definition SSH_AUTH_METHOD_PUBLICKEY : Z := 4.
Definition SSH_AUTH_METHOD_HOSTBASED : Z := 8.
Definition SSH_AUTH_METHOD_INTERACTIVE : Z := 16.
Definition SSH_AUTH_METHOD_GSSAPI_MIC : Z := 32.

Definition KBDINT_MAX_PROMPT : Z := 256.
Definition SSH2_MSG_USERAUTH_INFO_REQUEST : Z := 60.

Inductive ssh_pending_call_e :=
  | SSH_PENDING_CALL_NONE
  | SSH_PENDING_CALL_CONNECT
  | SSH_PENDING_CALL_AUTH_NONE
  | SSH_PENDING_CALL_AUTH_PASSWORD
  | SSH_PENDING_CALL_AUTH_OFFER_PUBKEY
  | SSH_PENDING_CALL_AUTH_PUBKEY
  | SSH_PENDING_CALL_AUTH_AGENT
  | SSH_PENDING_CALL_AUTH_KBDINT_INIT
  | SSH_PENDING_CALL_AUTH_KBDINT_SEND
  | SSH_PENDING_CALL_AUTH_GSSAPI_MIC.

#[export] Instance ssh_pending_call_eq : EqDecision ssh_pending_call_e.
Proof. solve_decision. Defined.

(** ** Keyboard interactive data

    A [char *] is the text it points to; an array is the list of its elements. *)
Record ssh_kbdint := mk_kbdint {
  nprompts : Z;
  nanswers : Z;
  kb_name : option bytes;
  kb_instruction : option bytes;
  kb_prompts : option (list (option bytes));
  kb_echo : option (list Z);
  kb_answers : option (list (option bytes))
}.

Definition sizeof_kbdint : Z := 48.

Section Kbdint.
Context `{Allocator}.

Definition ssh_kbdint_new : option ssh_kbdint :=
  if some (malloc sizeof_kbdint) then Some (mk_kbdint 0 0 None None None None None) else None.

(** The loop that clears and frees the [n] texts of an array: without [null_ok] it
    calls [strlen] on every element. *)
Definition wipe (null_ok : bool) (l : option (list (option bytes))) (n : Z) : run () :=
  match l with
  | None => Some ()
  | Some l => if (n <=? zlen l) && (null_ok || forallb some (ztake n l)) then Some () else None
  end.

Definition ssh_kbdint_free (kbd : option ssh_kbdint) : run () :=
  match kbd with
  | None => Some ()
  | Some k => _ ← wipe true (kb_prompts k) (nprompts k); wipe true (kb_answers k) (nanswers k)
  end.

Definition ssh_kbdint_clean (kbd : option ssh_kbdint) : run (option ssh_kbdint) :=
  match kbd with
  | None => Some None
  | Some k =>
      _ ← wipe false (kb_prompts k) (nprompts k);
      _ ← wipe false (kb_answers k) (nanswers k);
      Some (Some (mk_kbdint 0 0 None None None None None))
  end.

(** [calloc (n, size)] of an array, all its elements null. *)
Definition calloc_array {A} (zero : A) (n size : Z) : option (list A) :=
  if some (malloc (n * size)) then Some (zrep n zero) else None.
End Kbdint.

(** The compression of the current keys. *)
Record compression := mk_compression {
  cur_compress_out : bool;
  cur_compress_in : bool;
  cur_delayed_out : bool;
  cur_delayed_in : bool
}.

(** The fields of the authentication. *)
Record userauth := mk_userauth {
  auth_methods : Z;                       (** [auth.supported_methods] *)
  current_method : Z;
  pending_call_state : ssh_pending_call_e;
  kbdint : option ssh_kbdint;
  auth_banner : option ssh_string;        (** [session->banner] *)
  opts_username : option bytes;
  opts_pubkey_types : option bytes;       (** [opts.pubkey_accepted_types] *)
  openssh : Z;
  cur_compression : compression
}.

Section Layer.
Context `{Allocator} `{KeyLib} `{HmacLib} `{RandomLib} {K : Type}.
#[local] Abbreviation session := (session K prng handshake).

Record user_layer := mk_user { lower : session; ua : userauth }.

Definition set_lower (v : session) (l : user_layer) : user_layer := mk_user v (ua l).
Definition set_ua (v : userauth) (l : user_layer) : user_layer := mk_user (lower l) v.

Variable ssh_packet_set_newkeys : session -> Z -> run (Z * session).
Variable ssh_send_rekex : session -> run (Z * session).
Variable session_alive : session -> bool.

(** The packet layer under the authentication. *)
#[local] Instance user_packets : PacketLayer user_layer := {|
  pl_proto l := proto_of (lower l);
  pl_set_proto p l := set_lower (set_proto p (lower l)) l;
  pl_alive l := session_alive (lower l);
  pl_in l := in_buffer (lower l);
  pl_set_in b l := set_lower (set_in_buffer b (lower l)) l;
  pl_out l := out_buffer (lower l);
  pl_set_out b l := set_lower (set_out_buffer b (lower l)) l;
  pl_now l := now (lower l);
  pl_buffered l := zlen (contents (socket_out (lower l)));
  pl_send l := '(rc, s) ← Packet.ssh_packet_send ssh_packet_set_newkeys ssh_send_rekex (lower l);
               Some (rc, set_lower s l)
|}.
End Layer.
Arguments user_layer {_ _} _.

Section Client.
Context `{Allocator} `{KeyLib} `{RandomLib} {K : Type}.
Context `{!PacketLayer (user_layer K)}.
#[local] Abbreviation cs := (csession (user_layer K)).
Implicit Type s : cs.

Variable fips_mode : bool.
Variable poll : cs -> Z -> run (Z * cs).
Variable wait_fuel : nat.

Definition auth s : userauth := ua (base s).
Definition set_auth (v : userauth) s : cs := set_base (set_ua v (base s)) s.
Definition set_methods (v : Z) s : cs :=
  let a := auth s in
  set_auth (mk_userauth v (current_method a) (pending_call_state a) (kbdint a) (auth_banner a) (opts_username a)
    (opts_pubkey_types a) (openssh a) (cur_compression a)) s.
Definition set_method (v : Z) s : cs :=
  let a := auth s in
  set_auth (mk_userauth (auth_methods a) v (pending_call_state a) (kbdint a) (auth_banner a) (opts_username a)
    (opts_pubkey_types a) (openssh a) (cur_compression a)) s.
Definition set_pending (v : ssh_pending_call_e) s : cs :=
  let a := auth s in
  set_auth (mk_userauth (auth_methods a) (current_method a) v (kbdint a) (auth_banner a) (opts_username a)
    (opts_pubkey_types a) (openssh a) (cur_compression a)) s.
Definition set_kbdint (v : option ssh_kbdint) s : cs :=
  let a := auth s in
  set_auth (mk_userauth (auth_methods a) (current_method a) (pending_call_state a) v (auth_banner a) (opts_username a)
    (opts_pubkey_types a) (openssh a) (cur_compression a)) s.
Definition set_banner (v : option ssh_string) s : cs :=
  let a := auth s in
  set_auth (mk_userauth (auth_methods a) (current_method a) (pending_call_state a) (kbdint a) v (opts_username a)
    (opts_pubkey_types a) (openssh a) (cur_compression a)) s.
Definition set_compress (v : compression) s : cs :=
  let a := auth s in
  set_auth (mk_userauth (auth_methods a) (current_method a) (pending_call_state a) (kbdint a) (auth_banner a)
    (opts_username a) (opts_pubkey_types a) (openssh a) v) s.

(** [session->auth.state] and [session->auth.service_state] *)
Definition astate s : ssh_auth_state_e := auth_state (pl_proto (base s)).
Definition sstate s : ssh_auth_service_state_e := service_state (pl_proto (base s)).
Definition set_astate (v : ssh_auth_state_e) s : cs :=
  set_base (pl_set_proto (set_auth_state v (pl_proto (base s))) (base s)) s.
Definition set_sstate (v : ssh_auth_service_state_e) s : cs :=
  set_base (pl_set_proto (set_service_state v (pl_proto (base s))) (base s)) s.

(** ** Asking for the service *)

Definition ssh_service_request_termination s : bool :=
  in_error s || negb (bool_decide (sstate s = SSH_AUTH_SERVICE_SENT)).

Definition service_pending s : run (Z * cs) :=
  '(rc, s) ← ssh_handle_packets_termination poll wait_fuel s SSH_TIMEOUT_USER
               (fun s => Some (ssh_service_request_termination s));
  if rc =? SSH_ERROR then Some (SSH_ERROR, s) else
  Some (match sstate s with
        | SSH_AUTH_SERVICE_DENIED => rc
        | SSH_AUTH_SERVICE_ACCEPTED => SSH_OK
        | SSH_AUTH_SERVICE_SENT => SSH_AGAIN
        | SSH_AUTH_SERVICE_NONE => SSH_ERROR
        end, s).

Definition ssh_service_request (service : bytes) s : run (Z * cs) :=
  if negb (bool_decide (sstate s = SSH_AUTH_SERVICE_NONE)) then service_pending s else
  '(rc, s) ← pack s "bs" [VInt SSH2_MSG_SERVICE_REQUEST; VCstr service];
  if negb (rc =? SSH_OK) then Some (SSH_ERROR, s) else
  let s := set_sstate SSH_AUTH_SERVICE_SENT s in
  '(rc, s) ← ssh_packet_send s;
  if rc =? SSH_ERROR then Some (SSH_ERROR, s) else service_pending s.

Definition ssh_userauth_request_service s : run (Z * cs) := ssh_service_request (cstr "ssh-userauth") s.

(** ** The answer *)

Definition ssh_auth_response_termination s : bool :=
  match astate s with
  | SSH_AUTH_STATE_NONE | SSH_AUTH_STATE_KBDINT_SENT | SSH_AUTH_STATE_GSSAPI_REQUEST_SENT
  | SSH_AUTH_STATE_GSSAPI_TOKEN | SSH_AUTH_STATE_GSSAPI_MIC_SENT | SSH_AUTH_STATE_PUBKEY_AUTH_SENT
  | SSH_AUTH_STATE_PUBKEY_OFFER_SENT | SSH_AUTH_STATE_PASSWORD_AUTH_SENT | SSH_AUTH_STATE_AUTH_NONE_SENT => false
  | _ => true
  end.

Definition ssh_userauth_get_response s : run (Z * cs) :=
  '(rc, s) ← ssh_handle_packets_termination poll wait_fuel s SSH_TIMEOUT_USER
               (fun s => Some (ssh_auth_response_termination s));
  if rc =? SSH_ERROR then Some (SSH_AUTH_ERROR, s) else
  if negb (ssh_auth_response_termination s) then Some (SSH_AUTH_AGAIN, s) else
  Some (match astate s with
        | SSH_AUTH_STATE_FAILED => SSH_AUTH_DENIED
        | SSH_AUTH_STATE_INFO => SSH_AUTH_INFO
        | SSH_AUTH_STATE_PARTIAL => SSH_AUTH_PARTIAL
        | SSH_AUTH_STATE_PK_OK | SSH_AUTH_STATE_SUCCESS => SSH_AUTH_SUCCESS
        | _ => SSH_AUTH_ERROR
        end, s).

(** The label [pending] of the requests. *)
Definition auth_pending s : run (Z * cs) :=
  '(rc, s) ← ssh_userauth_get_response s;
  Some (rc, if rc =? SSH_AUTH_AGAIN then s else set_pending SSH_PENDING_CALL_NONE s).

(** The label [fail]. *)
Definition auth_fail s : run (Z * cs) := s ← reinit_out s; Some (SSH_AUTH_ERROR, s).

(** The packet is complete: the states are set and it is sent. *)
Definition auth_send (state : ssh_auth_state_e) (call : ssh_pending_call_e) s : run (Z * cs) :=
  let s := set_pending call (set_astate state s) in
  '(rc, s) ← ssh_packet_send s;
  if rc =? SSH_ERROR then Some (SSH_AUTH_ERROR, s) else auth_pending s.

(** The switch over the pending call, and the request of the service. *)
Definition auth_begin (call : ssh_pending_call_e) s (go : cs -> run (Z * cs)) : run (Z * cs) :=
  if bool_decide (pending_call_state (auth s) = call) then auth_pending s else
  if negb (bool_decide (pending_call_state (auth s) = SSH_PENDING_CALL_NONE)) then Some (SSH_AUTH_ERROR, s) else
  go s.

Definition with_service s (go : cs -> run (Z * cs)) : run (Z * cs) :=
  '(rc, s) ← ssh_userauth_request_service s;
  if rc =? SSH_AGAIN then Some (SSH_AUTH_AGAIN, s) else
  if rc =? SSH_ERROR then Some (SSH_AUTH_ERROR, s) else go s.

(** [username ? username : session->opts.username] *)
Definition the_user (username : option bytes) s : run bytes :=
  match username with Some u => Some u | None => opts_username (auth s) end.

Definition ssh_userauth_list s : Z := auth_methods (auth s).

(** ** None and password *)

Definition ssh_userauth_none (username : option bytes) s : run (Z * cs) :=
  auth_begin SSH_PENDING_CALL_AUTH_NONE s (fun s => with_service s (fun s =>
    user ← the_user username s;
    '(rc, s) ← pack s "bsss" [VInt SSH2_MSG_USERAUTH_REQUEST; VCstr user; VCstr (cstr "ssh-connection"); VCstr (cstr "none")];
    if rc <? 0 then auth_fail s else
    auth_send SSH_AUTH_STATE_AUTH_NONE_SENT SSH_PENDING_CALL_AUTH_NONE (set_method SSH_AUTH_METHOD_NONE s))).

Definition set_out_secure s : run cs :=
  b ← pl_out (base s); Some (set_base (pl_set_out (Some (ssh_buffer_set_secure b)) (base s)) s).

Definition ssh_userauth_password (username : option bytes) (password : bytes) s : run (Z * cs) :=
  auth_begin SSH_PENDING_CALL_AUTH_PASSWORD s (fun s => with_service s (fun s =>
    user ← the_user username s;
    '(rc, s) ← pack s "bsssbs" [VInt SSH2_MSG_USERAUTH_REQUEST; VCstr user; VCstr (cstr "ssh-connection");
                                VCstr (cstr "password"); VInt 0; VCstr password];
    if rc <? 0 then auth_fail s else
    s ← set_out_secure s;
    auth_send SSH_AUTH_STATE_PASSWORD_AUTH_SENT SSH_PENDING_CALL_AUTH_PASSWORD (set_method SSH_AUTH_METHOD_PASSWORD s))).

(** ** Public keys *)

(** [ssh_key_algorithm_allowed] ([src/pki.c]): on a client the accepted types, on a
    server the host key methods. *)
Definition ssh_key_algorithm_allowed (type : bytes) s : run bool :=
  let p := pl_proto (base s) in
  if client p then
    let default := if fips_mode then fips_methods !! SSH_HOSTKEYS else default_methods !! SSH_HOSTKEYS in
    list ← match opts_pubkey_types (auth s) with Some l => Some l | None => default end;
    r ← ssh_match_group list type; Some (negb (r =? 0))
  else if server p then
    list ← wanted_methods (upper (lower (base s))) !! SSH_HOSTKEYS;
    match list with
    | None => Some false
    | Some list => r ← ssh_match_group list type; Some (negb (r =? 0))
    end
  else Some false.

Definition SSH_VERSION_INT (a b c : Z) : Z := Z.lor (Z.shiftl a 16) (Z.lor (Z.shiftl b 8) c).

Definition has_extension (e : Z) s : bool := negb (Z.land (extensions (upper (lower (base s)))) e =? 0).

Definition rsa_hash s : run ssh_digest_e :=
  a512 ← ssh_key_algorithm_allowed (cstr "rsa-sha2-512") s;
  if a512 && has_extension SSH_EXT_SIG_RSA_SHA512 s then Some SSH_DIGEST_SHA512 else
  a256 ← ssh_key_algorithm_allowed (cstr "rsa-sha2-256") s;
  Some (if a256 && has_extension SSH_EXT_SIG_RSA_SHA256 s then SSH_DIGEST_SHA256 else SSH_DIGEST_SHA1).

Definition ssh_key_type_to_hash (type : ssh_keytypes_e) s : run ssh_digest_e :=
  match type with
  | SSH_KEYTYPE_DSS_CERT01 | SSH_KEYTYPE_DSS => Some SSH_DIGEST_SHA1
  | SSH_KEYTYPE_RSA_CERT01 =>
      if (0 <? openssh (auth s)) && (openssh (auth s) <? SSH_VERSION_INT 7 2 0) then Some SSH_DIGEST_SHA1
      else rsa_hash s
  | SSH_KEYTYPE_RSA => rsa_hash s
  | SSH_KEYTYPE_ECDSA_P256_CERT01 | SSH_KEYTYPE_ECDSA_P256 => Some SSH_DIGEST_SHA256
  | SSH_KEYTYPE_ECDSA_P384_CERT01 | SSH_KEYTYPE_ECDSA_P384 => Some SSH_DIGEST_SHA384
  | SSH_KEYTYPE_ECDSA_P521_CERT01 | SSH_KEYTYPE_ECDSA_P521 => Some SSH_DIGEST_SHA512
  | _ => Some SSH_DIGEST_AUTO
  end.

Definition ssh_key_get_signature_algorithm (type : ssh_keytypes_e) s : run (option bytes) :=
  if bool_decide (type = SSH_KEYTYPE_RSA_CERT01) && (0 <? openssh (auth s)) && (openssh (auth s) <? SSH_VERSION_INT 7 8 0)
  then Some (Some (cstr "ssh-rsa-cert-v01@openssh.com"))
  else hash ← ssh_key_type_to_hash type s; Some (ssh_key_signature_to_char type hash).

(** The name of the algorithm when it may be used. *)
Definition allowed_algorithm (type : ssh_keytypes_e) s : run (option bytes) :=
  alg ← ssh_key_get_signature_algorithm type s;
  match alg with
  | None => Some None
  | Some a => ok ← ssh_key_algorithm_allowed a s; Some (if (ok : bool) then Some a else None)
  end.

Definition ssh_userauth_try_publickey (username : option bytes) (pubkey : option ssh_key) s : run (Z * cs) :=
  match pubkey with
  | None => Some (SSH_AUTH_ERROR, s)
  | Some key =>
      if negb (ssh_key_is_public pubkey) then Some (SSH_AUTH_ERROR, s) else
      auth_begin SSH_PENDING_CALL_AUTH_OFFER_PUBKEY s (fun s =>
        alg ← allowed_algorithm (key_type key) s;
        match alg with
        | None => Some (SSH_AUTH_DENIED, s)
        | Some alg => with_service s (fun s =>
            '(rc, blob) ← ssh_pki_export_pubkey_blob pubkey;
            if rc <? 0 then auth_fail s else
            user ← the_user username s;
            '(rc, s) ← pack s "bsssbsS" [VInt SSH2_MSG_USERAUTH_REQUEST; VCstr user; VCstr (cstr "ssh-connection");
                                         VCstr (cstr "publickey"); VInt 0; VCstr alg; VString blob];
            if rc <? 0 then auth_fail s else
            auth_send SSH_AUTH_STATE_PUBKEY_OFFER_SENT SSH_PENDING_CALL_AUTH_OFFER_PUBKEY
              (set_method SSH_AUTH_METHOD_PUBLICKEY s))
        end)
  end.

(** The request with its signature, in the output buffer; [false]: [goto fail]. *)
Definition publickey_packet (user alg : bytes) (privkey : ssh_key) s : run (bool * cs) :=
  '(rc, blob) ← ssh_pki_export_pubkey_blob (Some privkey);
  if rc <? 0 then Some (false, s) else
  '(rc, s) ← pack s "bsssbsS" [VInt SSH2_MSG_USERAUTH_REQUEST; VCstr user; VCstr (cstr "ssh-connection");
                               VCstr (cstr "publickey"); VInt 1; VCstr alg; VString blob];
  if rc <? 0 then Some (false, s) else
  hash ← ssh_key_type_to_hash (key_type privkey) s;
  sig ← ssh_pki_do_sign fips_mode (lower (base s)) (pl_out (base s)) (Some privkey) hash;
  match sig with
  | None => Some (false, s)
  | Some sig =>
      b ← pl_out (base s);
      '(rc, b) ← ssh_buffer_add_ssh_string b (Some sig);
      Some (negb (rc <? 0), set_base (pl_set_out (Some b) (base s)) s)
  end.

(** The type of the certificate, if there is one, is the one presented: a key with
    a certificate carries it in [cert_type]. *)
Definition ssh_userauth_publickey (cert_type : ssh_keytypes_e) (username : option bytes) (privkey : option ssh_key) s
    : run (Z * cs) :=
  match privkey with
  | None => Some (SSH_AUTH_ERROR, s)
  | Some key =>
      if negb (ssh_key_is_private privkey) then Some (SSH_AUTH_ERROR, s) else
      auth_begin SSH_PENDING_CALL_AUTH_PUBKEY s (fun s =>
        alg ← allowed_algorithm (if some (key_cert key) then cert_type else key_type key) s;
        match alg with
        | None => Some (SSH_AUTH_DENIED, s)
        | Some alg => with_service s (fun s =>
            user ← the_user username s;
            '(ok, s) ← publickey_packet user alg key s;
            if negb (ok : bool) then auth_fail s else
            auth_send SSH_AUTH_STATE_PUBKEY_AUTH_SENT SSH_PENDING_CALL_AUTH_PUBKEY
              (set_method SSH_AUTH_METHOD_PUBLICKEY s))
        end)
  end.

(** ** Agents

    [ssh_pki_do_sign_agent] asks the agent for a signature over its socket. *)
Variable ssh_pki_do_sign_agent : cs -> option ssh_buffer -> ssh_key -> run (option ssh_string * cs).

Definition ssh_userauth_agent_publickey (username : option bytes) (pubkey : ssh_key) s : run (Z * cs) :=
  auth_begin SSH_PENDING_CALL_AUTH_AGENT s (fun s => with_service s (fun s =>
    '(rc, blob) ← ssh_pki_export_pubkey_blob (Some pubkey);
    if rc <? 0 then auth_fail s else
    alg ← allowed_algorithm (key_type pubkey) s;
    match alg with
    | None => Some (SSH_AUTH_DENIED, s)
    | Some alg =>
        user ← the_user username s;
        '(rc, s) ← pack s "bsssbsS" [VInt SSH2_MSG_USERAUTH_REQUEST; VCstr user; VCstr (cstr "ssh-connection");
                                     VCstr (cstr "publickey"); VInt 1; VCstr alg; VString blob];
        if rc <? 0 then auth_fail s else
        '(sig, s) ← ssh_pki_do_sign_agent s (pl_out (base s)) pubkey;
        match sig with
        | None => auth_fail s
        | Some sig =>
            b ← pl_out (base s);
            '(rc, b) ← ssh_buffer_add_ssh_string b (Some sig);
            let s := set_base (pl_set_out (Some b) (base s)) s in
            if rc <? 0 then auth_fail s else
            auth_send SSH_AUTH_STATE_PUBKEY_AUTH_SENT SSH_PENDING_CALL_AUTH_AGENT
              (set_method SSH_AUTH_METHOD_PUBLICKEY s)
        end
    end)).

(** ** Keyboard interactive *)

Definition ssh_userauth_kbdint_init (username submethods : option bytes) s : run (Z * cs) :=
  auth_begin SSH_PENDING_CALL_AUTH_KBDINT_INIT s (fun s =>
    '(rc, s) ← ssh_userauth_request_service s;
    if rc =? SSH_AGAIN then Some (SSH_AUTH_AGAIN, s) else
    if negb (rc =? SSH_OK) then Some (SSH_AUTH_ERROR, s) else
    user ← the_user username s;
    '(rc, s) ← pack s "bsssss" [VInt SSH2_MSG_USERAUTH_REQUEST; VCstr user; VCstr (cstr "ssh-connection");
                                VCstr (cstr "keyboard-interactive"); VCstr []; VCstr (default [] submethods)];
    if rc <? 0 then auth_fail s else
    auth_send SSH_AUTH_STATE_KBDINT_SENT SSH_PENDING_CALL_AUTH_KBDINT_INIT s).

(** The answers, an empty text where there is none. *)
Fixpoint pack_answers (n : nat) (answers : option (list (option bytes))) s : run (Z * cs) :=
  match n with
  | O => Some (SSH_OK, s)
  | S n =>
      a ← match answers with None => Some None | Some l => head l end;
      '(rc, s) ← pack s "s" [VCstr (default [] a)];
      if rc <? 0 then Some (rc, s) else pack_answers n (option_map tail answers) s
  end.

(** The response, in the output buffer. *)
Definition pack_info_response (k : ssh_kbdint) s : run (Z * cs) :=
  '(rc, s) ← pack s "bd" [VInt SSH2_MSG_USERAUTH_INFO_RESPONSE; VInt (nprompts k)];
  if rc <? 0 then Some (rc, s) else pack_answers (Z.to_nat (nprompts k)) (kb_answers k) s.

Definition ssh_userauth_kbdint_send s : run (Z * cs) :=
  auth_begin SSH_PENDING_CALL_AUTH_KBDINT_SEND s (fun s =>
    k ← kbdint (auth s);
    '(rc, s) ← pack_info_response k s;
    if rc <? 0 then auth_fail s else
    _ ← ssh_kbdint_free (kbdint (auth s));
    auth_send SSH_AUTH_STATE_KBDINT_SENT SSH_PENDING_CALL_AUTH_KBDINT_SEND
      (set_kbdint None (set_method SSH_AUTH_METHOD_INTERACTIVE s))).

Definition ssh_userauth_kbdint (user submethods : option bytes) s : run (Z * cs) :=
  let call := pending_call_state (auth s) in
  if bool_decide (call = SSH_PENDING_CALL_NONE) && negb (some (kbdint (auth s)))
     || bool_decide (call = SSH_PENDING_CALL_AUTH_KBDINT_INIT)
  then ssh_userauth_kbdint_init user submethods s else
  if bool_decide (call = SSH_PENDING_CALL_AUTH_KBDINT_SEND) || some (kbdint (auth s))
  then ssh_userauth_kbdint_send s else Some (SSH_AUTH_ERROR, s).

Definition ssh_userauth_kbdint_getnprompts s : Z :=
  match kbdint (auth s) with None => SSH_ERROR | Some k => nprompts k end.
Definition ssh_userauth_kbdint_getname s : option bytes := k ← kbdint (auth s); kb_name k.
Definition ssh_userauth_kbdint_getinstruction s : option bytes := k ← kbdint (auth s); kb_instruction k.

(** Reading an array behind its end has no result.  [echo]: whether the caller asks
    for it. *)
Definition ssh_userauth_kbdint_getprompt (i : Z) (echo : bool) s : run (option bytes * option Z) :=
  match kbdint (auth s) with
  | None => Some (None, None)
  | Some k =>
      if nprompts k <? i then Some (None, None) else
      e ← (if echo then l ← kb_echo k; e ← l !! Z.to_nat i; Some (Some e) else Some None);
      l ← kb_prompts k; p ← l !! Z.to_nat i; Some (p, e)
  end.

Definition ssh_userauth_kbdint_getnanswers s : Z :=
  match kbdint (auth s) with None => SSH_ERROR | Some k => nanswers k end.

Definition ssh_userauth_kbdint_getanswer (i : Z) s : run (option bytes) :=
  match kbdint (auth s) with
  | None => Some None
  | Some k => match kb_answers k with
              | None => Some None
              | Some l => if nanswers k <=? i then Some None else l !! Z.to_nat i
              end
  end.

Definition set_answers (l : list (option bytes)) (k : ssh_kbdint) : ssh_kbdint :=
  mk_kbdint (nprompts k) (nanswers k) (kb_name k) (kb_instruction k) (kb_prompts k) (kb_echo k) (Some l).

Definition ssh_userauth_kbdint_setanswer (i : Z) (answer : option bytes) s : run (Z * cs) :=
  match answer, kbdint (auth s) with
  | Some answer, Some k =>
      if nprompts k <=? i then Some (-1, s) else
      match match kb_answers k with Some l => Some l | None => calloc_array None (nprompts k) 8 end with
      | None => Some (-1, s)
      | Some l =>
          _ ← l !! Z.to_nat i;
          let copy := strdup answer in
          Some (if some copy then 0 else -1, set_kbdint (Some (set_answers (<[Z.to_nat i := copy]> l) k)) s)
      end
  | _, _ => Some (-1, s)
  end.

(** ** The handlers *)

Definition ssh_packet_service_accept s (type : Z) : run (Z * cs) :=
  Some (SSH_PACKET_USED, set_sstate SSH_AUTH_SERVICE_ACCEPTED s).

Definition ssh_packet_userauth_banner s (type : Z) : run (Z * cs) :=
  p ← pl_in (base s);
  '(banner, p) ← ssh_buffer_get_ssh_string p;
  let s := set_base (pl_set_in (Some p) (base s)) s in
  Some (SSH_PACKET_USED, match banner with None => s | Some b => set_banner (Some b) s end).

(** The names that occur in the text. *)
Definition methods_in (text : bytes) : Z :=
  let bit (name : string) (m : Z) := if some (strstr text (cstr name)) then m else 0 in
  Z.lor (bit "password" SSH_AUTH_METHOD_PASSWORD)
    (Z.lor (bit "keyboard-interactive" SSH_AUTH_METHOD_INTERACTIVE)
      (Z.lor (bit "publickey" SSH_AUTH_METHOD_PUBLICKEY)
        (Z.lor (bit "hostbased" SSH_AUTH_METHOD_HOSTBASED)
          (bit "gssapi-with-mic" SSH_AUTH_METHOD_GSSAPI_MIC)))).

Definition ssh_packet_userauth_failure s (type : Z) : run (Z * cs) :=
  '(rc, os, s) ← unpack s "sb" [UPtr; UPtr];
  if negb (rc =? SSH_OK) then
    Some (SSH_PACKET_USED, set_method SSH_AUTH_METHOD_UNKNOWN (set_astate SSH_AUTH_STATE_ERROR s))
  else
    methods ← cstr_slot os 0;
    let partial := int_slot os 1 0 in
    let s := set_astate (if negb (partial =? 0) then SSH_AUTH_STATE_PARTIAL else SSH_AUTH_STATE_FAILED) s in
    Some (SSH_PACKET_USED, set_method SSH_AUTH_METHOD_UNKNOWN (set_methods (methods_in methods) s)).

(** Delayed compression starts in the directions that have keys. *)
Definition enable_compression s : cs :=
  let c := cur_compression (auth s) in
  let on dir := some (ssh_packet_get_current_crypto (lower (base s)) dir) in
  set_compress (mk_compression
    (cur_compress_out c || on SSH_DIRECTION_OUT && cur_delayed_out c)
    (cur_compress_in c || on SSH_DIRECTION_IN && cur_delayed_in c)
    (cur_delayed_out c) (cur_delayed_in c)) s.

Definition set_authenticated s : cs :=
  let p := set_session_state SSH_SESSION_STATE_AUTHENTICATED (pl_proto (base s)) in
  set_base (pl_set_proto (set_flags (Z.lor (flags p) SSH_SESSION_FLAG_AUTHENTICATED) p) (base s)) s.

Definition ssh_packet_userauth_success s (type : Z) : run (Z * cs) :=
  let s := set_authenticated (set_astate SSH_AUTH_STATE_SUCCESS s) in
  Some (SSH_PACKET_USED, set_method SSH_AUTH_METHOD_UNKNOWN (enable_compression s)).

(** The loop over the prompts of a request; [false]: one of them is short. *)
Fixpoint read_prompts (n : nat) s : run (bool * list (option bytes) * list Z * cs) :=
  match n with
  | O => Some (true, [], [], s)
  | S n =>
      '(rc, os, s) ← unpack s "sb" [UPtr; UPtr];
      if rc =? SSH_ERROR then Some (false, [], [], s) else
      p ← cstr_slot os 0;
      '(ok, ps, es, s) ← read_prompts n s;
      Some (ok, Some p :: ps, int_slot os 1 0 :: es, s)
  end.

Definition ssh_packet_userauth_info_request s (type : Z) : run (Z * cs) :=
  k ← (if some (kbdint (auth s)) then ssh_kbdint_clean (kbdint (auth s)) else Some ssh_kbdint_new);
  match k with
  | None => Some (SSH_PACKET_USED, set_kbdint None s)
  | Some k =>
      let drop s := Some (SSH_PACKET_USED, set_kbdint None s) in
      '(rc, os, s) ← unpack s "ssSd" [UPtr; UPtr; UPtr; UPtr];
      if negb (rc =? SSH_OK) then drop s else
      name ← cstr_slot os 0; instruction ← cstr_slot os 1;
      let n := int_slot os 3 0 in
      if KBDINT_MAX_PROMPT <? n then drop s else
      match calloc_array (A := option bytes) None n 8, calloc_array 0 n 1 with
      | Some _, Some _ =>
          '(ok, ps, es, s) ← read_prompts (Z.to_nat n) s;
          if negb (ok : bool) then drop s else
          Some (SSH_PACKET_USED,
            set_astate SSH_AUTH_STATE_INFO
              (set_kbdint (Some (mk_kbdint n n (Some name) (Some instruction) (Some ps) (Some es) None)) s))
      | _, _ => drop s
      end
  end.

Definition ssh_packet_userauth_pk_ok s (type : Z) : run (Z * cs) :=
  match astate s with
  | SSH_AUTH_STATE_KBDINT_SENT => ssh_packet_userauth_info_request s type
  | SSH_AUTH_STATE_PUBKEY_OFFER_SENT => Some (SSH_PACKET_USED, set_astate SSH_AUTH_STATE_PK_OK s)
  | _ => Some (SSH_PACKET_USED, set_astate SSH_AUTH_STATE_ERROR s)
  end.
End Client.
