(* ===== verification/AuthServer.v ===== *)
(** * User authentication, server side ([libssh/src/messages.c], [src/server.c])

    The requests of a client become messages, which the callbacks of the server
    answer, or its message callback, or which wait in the queue of the session.  A
    public key request with a signature is verified before it becomes a message.
    The messages of the connection protocol are not modelled here. *)

From stdpp Require Import gmap.
From S2P Require Import Prelude SshString Buffer Bignum BufferPack Token Session Misc Crypto Packet.
From S2P Require Import PacketRecv Kex Pki Channel UserAuth.

Inductive ssh_publickey_state_e :=
  | SSH_PUBLICKEY_STATE_ERROR
  | SSH_PUBLICKEY_STATE_NONE
  | SSH_PUBLICKEY_STATE_VALID
  | SSH_PUBLICKEY_STATE_WRONG.

#[export] Instance ssh_publickey_state_eq : EqDecision ssh_publickey_state_e.
Proof. solve_decision. Defined.

Record ssh_auth_request `{KeyLib} := mk_auth_request {
  req_username : option bytes;
  req_method : Z;
  req_password : option bytes;
  req_pubkey : option ssh_key;
  signature_state : ssh_publickey_state_e;
  kbdint_response : bool
}.

Inductive ssh_message `{KeyLib} :=
  | AuthMessage (r : ssh_auth_request)
  | ServiceMessage (service : bytes).

Section Server.
Context `{Allocator} `{KeyLib} `{RandomLib} {K : Type}.
Context `{!PacketLayer (user_layer K)}.
#[local] Abbreviation cs := (csession (user_layer K)).
Implicit Type s : cs.

(** The functions of [session->server_callbacks]. *)
Record ssh_server_callbacks := mk_server_callbacks {
  auth_password_function : option (cs -> option bytes -> option bytes -> run (Z * cs));
  auth_none_function : option (cs -> option bytes -> run (Z * cs));
  auth_pubkey_function : option (cs -> option bytes -> option ssh_key -> ssh_publickey_state_e -> run (Z * cs));
  service_request_function : option (cs -> bytes -> run (Z * cs))
}.

Variable fips_mode : bool.
Variable server_callbacks : option ssh_server_callbacks.
(** [session->ssh_message_callback] *)
Variable ssh_message_callback : option (cs -> ssh_message -> run (Z * cs)).
Variable ssh_disconnect : cs -> run cs.
(** [ssh_list_append (session->ssh_message_list, message)], the list made first *)
Variable enqueue : cs -> ssh_message -> run cs.

(** ** Replies *)

(** [strncat (methods_c, name, sizeof (methods_c) - strlen (methods_c) - 1)] *)
Definition strncat128 (text name : bytes) : bytes := text ++ ztake (127 - zlen text) name.

Definition methods_text (m : Z) : bytes :=
  let add (flag : Z) (name : string) t := if negb (Z.land m flag =? 0) then strncat128 t (cstr name) else t in
  add SSH_AUTH_METHOD_HOSTBASED "hostbased,"
    (add SSH_AUTH_METHOD_PASSWORD "password,"
      (add SSH_AUTH_METHOD_INTERACTIVE "keyboard-interactive,"
        (add SSH_AUTH_METHOD_GSSAPI_MIC "gssapi-with-mic,"
          (add SSH_AUTH_METHOD_PUBLICKEY "publickey," [])))).

Definition ssh_auth_reply_default s (partial : bool) : run (Z * cs) :=
  let s := if auth_methods (auth s) =? 0
           then set_methods (Z.lor SSH_AUTH_METHOD_PUBLICKEY SSH_AUTH_METHOD_PASSWORD) s else s in
  let text := methods_text (auth_methods (auth s)) in
  if negb (bool_decide (last text = Some comma)) then Some (SSH_ERROR, s) else
  '(rc, s) ← pack s "bsb" [VInt SSH2_MSG_USERAUTH_FAILURE; VCstr (removelast text); VInt (if partial then 1 else 0)];
  if negb (rc =? SSH_OK) then Some (SSH_ERROR, s) else ssh_packet_send s.

Definition ssh_auth_reply_success s (partial : bool) : run (Z * cs) :=
  if partial then ssh_auth_reply_default s partial else
  b ← pl_out (base s);
  '(rc, b) ← ssh_buffer_add_u8 b SSH2_MSG_USERAUTH_SUCCESS;
  let s := set_base (pl_set_out (Some b) (base s)) s in
  if rc <? 0 then Some (SSH_ERROR, s) else
  '(r, s) ← ssh_packet_send s;
  Some (r, enable_compression (set_authenticated s)).

Definition ssh_message_auth_reply_pk_ok s (algo pubkey : option ssh_string) : run (Z * cs) :=
  '(rc, s) ← pack s "bSS" [VInt SSH2_MSG_USERAUTH_PK_OK; VString algo; VString pubkey];
  if negb (rc =? SSH_OK) then Some (SSH_ERROR, s) else ssh_packet_send s.

Definition ssh_message_auth_reply_pk_ok_simple s (r : ssh_auth_request) : run (Z * cs) :=
  key ← req_pubkey r;
  algo ← ssh_string_from_char (key_type_c key);
  match algo with
  | None => Some (SSH_ERROR, s)
  | Some algo =>
      '(rc, blob) ← ssh_pki_export_pubkey_blob (Some key);
      if rc <? 0 then Some (SSH_ERROR, s) else ssh_message_auth_reply_pk_ok s (Some algo) blob
  end.

Definition ssh_message_service_reply_success s (service : bytes) : run (Z * cs) :=
  '(rc, s) ← pack s "bs" [VInt SSH2_MSG_SERVICE_ACCEPT; VCstr service];
  if negb (rc =? SSH_OK) then Some (SSH_ERROR, s) else ssh_packet_send s.

Definition ssh_message_reply_default s (msg : ssh_message) : run (Z * cs) :=
  match msg with
  | AuthMessage _ => ssh_auth_reply_default s false
  | ServiceMessage service => ssh_message_service_reply_success s service
  end.

(** ** The callbacks *)

Definition success_or_partial (rc : Z) : bool := (rc =? SSH_AUTH_SUCCESS) || (rc =? SSH_AUTH_PARTIAL).

Definition reply_success s (rc : Z) (msg : ssh_message) : run (Z * cs) :=
  '(_, s) ← (if success_or_partial rc then ssh_auth_reply_success s (rc =? SSH_AUTH_PARTIAL)
             else ssh_message_reply_default s msg);
  Some (SSH_OK, s).

Definition ssh_execute_server_request (cb : ssh_server_callbacks) s (msg : ssh_message) : run (Z * cs) :=
  match msg with
  | AuthMessage r =>
      let for_method {F} (m : Z) (f : option F) := if req_method r =? m then f else None in
      match for_method SSH_AUTH_METHOD_PASSWORD (auth_password_function cb),
            for_method SSH_AUTH_METHOD_PUBLICKEY (auth_pubkey_function cb),
            for_method SSH_AUTH_METHOD_NONE (auth_none_function cb) with
      | Some f, _, _ => '(rc, s) ← f s (req_username r) (req_password r); reply_success s rc msg
      | None, Some f, _ =>
          '(rc, s) ← f s (req_username r) (req_pubkey r) (signature_state r);
          if negb (bool_decide (signature_state r = SSH_PUBLICKEY_STATE_NONE)) then reply_success s rc msg
          else
            '(_, s) ← (if rc =? SSH_AUTH_SUCCESS then ssh_message_auth_reply_pk_ok_simple s r
                       else ssh_message_reply_default s msg);
            Some (SSH_OK, s)
      | None, None, Some f => '(rc, s) ← f s (req_username r); reply_success s rc msg
      | None, None, None => Some (SSH_AGAIN, s)
      end
  | ServiceMessage service =>
      match service_request_function cb with
      | Some f =>
          '(rc, s) ← f s service;
          if rc =? 0 then '(_, s) ← ssh_message_reply_default s msg; Some (SSH_OK, s)
          else s ← ssh_disconnect s; Some (SSH_OK, s)
      | None => Some (SSH_AGAIN, s)
      end
  end.

(** [session->common.callbacks] answers channel messages only. *)
Definition ssh_execute_server_callbacks s (msg : ssh_message) : run (Z * cs) :=
  match server_callbacks with
  | Some cb => ssh_execute_server_request cb s msg
  | None => Some (SSH_AGAIN, s)
  end.

Definition ssh_execute_message_callback (f : cs -> ssh_message -> run (Z * cs)) s (msg : ssh_message) : run (Z * cs) :=
  '(ret, s) ← f s msg;
  if ret =? 1 then ssh_message_reply_default s msg else Some (SSH_OK, s).

Definition ssh_message_queue s (msg : ssh_message) : run cs :=
  '(ret, s) ← ssh_execute_server_callbacks s msg;
  if ret =? SSH_OK then Some s else
  match ssh_message_callback with
  | Some f => '(_, s) ← ssh_execute_message_callback f s msg; Some s
  | None =>
      if some server_callbacks then '(_, s) ← ssh_message_reply_default s msg; Some s
      else enqueue s msg
  end.

(** ** The packets of the client *)

Definition sizeof_message : Z := 304.

(** [ssh_message_new] *)
Definition message_memory : bool := some (malloc sizeof_message).

Definition ssh_packet_service_request s (type : Z) : run (Z * cs) :=
  '(rc, os, s) ← unpack s "s" [UPtr];
  if negb (rc =? SSH_OK) then Some (SSH_PACKET_USED, s) else
  service ← cstr_slot os 0;
  if negb message_memory then Some (SSH_PACKET_USED, s) else
  s ← ssh_message_queue s (ServiceMessage service);
  Some (SSH_PACKET_USED, s).

(** The text a signature of a public key request covers: the session identifier and
    the request. *)
Definition ssh_msg_userauth_build_digest s (username : bytes) (pubkey : ssh_key) (service : bytes) (algo : option ssh_string)
    : run (option ssh_buffer) :=
  match ssh_packet_get_current_crypto (lower (base s)) SSH_DIRECTION_IN with
  | None => Some None
  | Some (_, crypto) =>
      nb ← ssh_buffer_new;
      match nb with
      | None => Some None
      | Some b =>
          '(rc, str) ← ssh_pki_export_pubkey_blob (Some pubkey);
          if rc <? 0 then Some None else
          alg ← text_char algo;
          alg ← alg;
          '(rc, b) ← ssh_buffer_pack b (cstr "dPbsssbsS")
            [VInt (digest_len crypto); VLen (digest_len crypto); VPtr (session_id crypto);
             VInt SSH2_MSG_USERAUTH_REQUEST; VCstr username; VCstr service; VCstr (cstr "publickey"); VInt 1;
             VCstr alg; VString str];
          Some (if rc =? SSH_OK then Some b else None)
      end
  end.

(** The verification of a request with a signature. *)
Definition check_signature s (sig_blob : ssh_string) (pubkey : ssh_key) (digest : ssh_buffer) : run Z :=
  sig ← ssh_pki_import_signature_blob (Some sig_blob) pubkey;
  match sig with
  | None => Some SSH_ERROR
  | Some sig =>
      ok ← match opts_pubkey_types (auth s) with
           | None => Some 1
           | Some types => c ← sig_type_c sig; ssh_match_group types c
           end;
      if ok =? 0 then Some SSH_ERROR else
      let input := option_map (ztake (ssh_buffer_get_len digest)) (ssh_buffer_get digest) in
      Some (ssh_pki_signature_verify fips_mode (Some sig) (Some pubkey) input)
  end.

(** A request of a method, as [ssh_message_new] and its assignments make it. *)
Definition request (username : bytes) (method : Z) : ssh_auth_request :=
  mk_auth_request _ _ (Some username) method None None SSH_PUBLICKEY_STATE_NONE false.

(** [None]: [goto error]. *)
Definition parse_publickey s (username service : bytes) : run (option ssh_auth_request * cs) :=
  '(rc, os, s) ← unpack s "bSS" [UPtr; UPtr; UPtr];
  if negb (rc =? SSH_OK) then Some (None, s) else
  let string i := match os !! i with Some (SlotString o) => o | _ => None end in
  key ← ssh_pki_import_pubkey_blob (string 2%nat);
  match key with
  | None => Some (None, s)
  | Some key =>
      let req state := mk_auth_request _ _ (Some username) SSH_AUTH_METHOD_PUBLICKEY None (Some key) state false in
      if int_slot os 0 0 =? 0 then Some (Some (req SSH_PUBLICKEY_STATE_NONE), s) else
      p ← pl_in (base s);
      '(sig_blob, p) ← ssh_buffer_get_ssh_string p;
      let s := set_base (pl_set_in (Some p) (base s)) s in
      match sig_blob with
      | None => Some (None, s)
      | Some sig_blob =>
          digest ← ssh_msg_userauth_build_digest s username key service (string 1%nat);
          match digest with
          | None => Some (None, s)
          | Some digest =>
              rc ← check_signature s sig_blob key digest;
              Some (if rc <? 0 then None else Some (req SSH_PUBLICKEY_STATE_VALID), s)
          end
      end
  end.

(** The message of a request; [None]: [goto error]. *)
Definition parse_userauth_request s : run (option ssh_auth_request * cs) :=
  if negb message_memory then Some (None, s) else
  '(rc, os, s) ← unpack s "sss" [UPtr; UPtr; UPtr];
  if negb (rc =? SSH_OK) then Some (None, s) else
  username ← cstr_slot os 0; service ← cstr_slot os 1; method ← cstr_slot os 2;
  let named (name : string) := bool_decide (method = cstr name) in
  if negb (bool_decide (service = cstr "ssh-connection")) then Some (Some (request username SSH_AUTH_METHOD_UNKNOWN), s) else
  if named "none" then Some (Some (request username SSH_AUTH_METHOD_NONE), s) else
  if named "password" then
    '(rc, os, s) ← unpack s "bs" [UPtr; UPtr];
    if negb (rc =? SSH_OK) then Some (None, s) else
    password ← cstr_slot os 1;
    Some (Some (mk_auth_request _ _ (Some username) SSH_AUTH_METHOD_PASSWORD (Some password) None
                  SSH_PUBLICKEY_STATE_NONE false), s)
  else if named "keyboard-interactive" then
    p ← pl_in (base s);
    '(lang, p) ← ssh_buffer_get_ssh_string p;
    let s := set_base (pl_set_in (Some p) (base s)) s in
    if negb (some lang) then Some (None, s) else
    '(submethods, p) ← ssh_buffer_get_ssh_string p;
    let s := set_base (pl_set_in (Some p) (base s)) s in
    Some (if some submethods then Some (request username SSH_AUTH_METHOD_INTERACTIVE) else None, s)
  else if named "publickey" then parse_publickey s username service
  else Some (Some (request username SSH_AUTH_METHOD_UNKNOWN), s).

Definition ssh_packet_userauth_request s (type : Z) : run (Z * cs) :=
  '(r, s) ← parse_userauth_request s;
  match r with
  | None => Some (SSH_PACKET_USED, s)
  | Some r => s ← ssh_message_queue s (AuthMessage r); Some (SSH_PACKET_USED, s)
  end.

(** ** Keyboard interactive *)

Fixpoint pack_prompts (prompts : list bytes) (echo : list Z) s : run (Z * cs) :=
  match prompts with
  | [] => Some (SSH_OK, s)
  | p :: prompts =>
      e ← head echo;
      '(rc, s) ← pack s "sb" [VCstr p; VInt (if e =? 0 then 0 else 1)];
      if negb (rc =? SSH_OK) then Some (SSH_ERROR, s) else pack_prompts prompts (tail echo) s
  end.

(** The request, in the output buffer. *)
Definition pack_info_request (name instruction : bytes) (prompts : list bytes) (echo : list Z) s : run (Z * cs) :=
  '(rc, s) ← pack s "bsssd" [VInt SSH2_MSG_USERAUTH_INFO_REQUEST; VCstr name; VCstr instruction; VCstr [];
                             VInt (zlen prompts)];
  if negb (rc =? SSH_OK) then Some (SSH_ERROR, s) else pack_prompts prompts echo s.

(** The copies of the texts; [None]: one of them failed. *)
Definition strdup_all (l : list bytes) : option (list (option bytes)) :=
  mapM (fun t => option_map Some (strdup t)) l.

(** The structure the answers will go to. *)
Definition kbdint_for (name instruction : bytes) (prompts : list bytes) (echo : list Z) : Z + ssh_kbdint :=
  let n := zlen prompts in
  match strdup name, strdup instruction with
  | Some name, Some instruction =>
      if n =? 0 then inr (mk_kbdint 0 0 (Some name) (Some instruction) None None None) else
      match calloc_array (A := option bytes) None n 8, calloc_array 0 n 1 with
      | Some _, Some _ =>
          match strdup_all prompts with
          | None => inl SSH_PACKET_USED
          | Some l => inr (mk_kbdint n 0 (Some name) (Some instruction) (Some l) (Some (ztake n echo)) None)
          end
      | _, _ => inl SSH_ERROR
      end
  | _, _ => inl SSH_PACKET_USED
  end.

(** [prompts], [echo]: the arrays of the caller, with [num_prompts] elements. *)
Definition ssh_message_auth_interactive_request s (name instruction : option bytes) (prompts : list bytes) (echo : list Z)
    : run (Z * cs) :=
  match name, instruction with
  | Some name, Some instruction =>
      '(rc, s) ← pack_info_request name instruction prompts echo s;
      if negb (rc =? SSH_OK) then Some (SSH_ERROR, s) else
      '(rc, s) ← ssh_packet_send s;
      ready ← (if some (kbdint (auth s)) then k ← ssh_kbdint_clean (kbdint (auth s)); Some (some k)
               else Some (some ssh_kbdint_new));
      if negb (ready : bool) then Some (SSH_ERROR, s) else
      match kbdint_for name instruction prompts echo with
      | inl e => Some (e, set_kbdint None s)
      | inr k => Some (rc, set_astate SSH_AUTH_STATE_INFO (set_kbdint (Some k) s))
      end
  | _, _ => Some (SSH_ERROR, s)
  end.

(** The loop over the answers; [None]: one is short or has no copy. *)
Fixpoint read_answers (n : nat) s : run (option (list (option bytes)) * cs) :=
  match n with
  | O => Some (Some [], s)
  | S n =>
      p ← pl_in (base s);
      '(tmp, p) ← ssh_buffer_get_ssh_string p;
      let s := set_base (pl_set_in (Some p) (base s)) s in
      match tmp with
      | None => Some (None, s)
      | Some tmp =>
          c ← ssh_string_to_char (Some tmp);
          match c with
          | None => Some (None, s)
          | Some c => t ← text_of c; '(l, s) ← read_answers n s; Some (option_map (cons (Some t)) l, s)
          end
      end
  end.

(** The structure for the answers: new, or without those of an earlier response. *)
Definition fresh_answers s : run (option ssh_kbdint) :=
  match kbdint (auth s) with
  | None => Some ssh_kbdint_new
  | Some k =>
      if some (kb_answers k) then
        _ ← wipe false (kb_answers k) (nanswers k);
        Some (Some (mk_kbdint (nprompts k) 0 (kb_name k) (kb_instruction k) (kb_prompts k) (kb_echo k) None))
      else Some (Some k)
  end.

Definition ssh_packet_userauth_info_response s (type : Z) : run (Z * cs) :=
  if negb message_memory then Some (SSH_PACKET_USED, s) else
  '(rc, os, s) ← unpack s "d" [UPtr];
  if negb (rc =? SSH_OK) then Some (SSH_PACKET_USED, s) else
  k ← fresh_answers s;
  match k with
  | None => Some (SSH_PACKET_USED, s)
  | Some k =>
      let n := int_slot os 0 0 in
      if KBDINT_MAX_PROMPT <? n then Some (SSH_PACKET_USED, set_kbdint None s) else
      match calloc_array (A := option bytes) None n 8 with
      | None => Some (SSH_PACKET_USED, set_kbdint None s)
      | Some _ =>
          '(answers, s) ← read_answers (Z.to_nat n) s;
          match answers with
          | None => Some (SSH_PACKET_USED, set_kbdint None s)
          | Some l =>
              let k := mk_kbdint (nprompts k) n (kb_name k) (kb_instruction k) (kb_prompts k) (kb_echo k) (Some l) in
              s ← ssh_message_queue (set_kbdint (Some k) s)
                    (AuthMessage (mk_auth_request _ _ None SSH_AUTH_METHOD_INTERACTIVE None None
                                    SSH_PUBLICKEY_STATE_NONE true));
              Some (SSH_PACKET_USED, s)
          end
      end
  end.
End Server.
