(* ===== verification/AuthFacts.v ===== *)
(** * Authentication: the two sides together

    What a client packs and what a server reads from it, the requests a server takes
    as proved, and what the replies of a server mean to a client.  The packets go
    from one side to the other as the contents of their buffers. *)

From stdpp Require Import gmap.
From S2P Require Import Prelude SshString Buffer Bignum BufferPack Token Session Misc Crypto Packet.
From S2P Require Import PacketRecv Kex Pki Channel UserAuth AuthServer.

Section AuthFacts.
Context `{Allocator} `{KeyLib} `{HmacLib} `{RandomLib} {K : Type}.
Variable set_newkeys : session K prng handshake -> Z -> run (Z * session K prng handshake).
Variable send_rekex : session K prng handshake -> run (Z * session K prng handshake).
Variable session_alive : session K prng handshake -> bool.
#[local] Instance users : PacketLayer (user_layer K) := user_packets set_newkeys send_rekex session_alive.
#[local] Abbreviation cs := (csession (user_layer K)).
Implicit Type s : cs.

(** ** Messages *)

Definition with_out (b : ssh_buffer) s : cs := set_base (pl_set_out (Some b) (base s)) s.
Definition with_in (b : ssh_buffer) s : cs := set_base (pl_set_in (Some b) (base s)) s.

(** The output buffer, and the packet at a handler. *)
Definition sending s (q : bytes) : Prop :=
  exists b, out_buffer (lower (base s)) = Some b /\ buffer_wf b /\ contents b = q.
Definition receiving s (q : bytes) : Prop :=
  exists b, in_buffer (lower (base s)) = Some b /\ buffer_wf b /\ contents b = q.

Lemma user_pack s fs format args q :
  sending s q -> cstr format = fields_format fs -> args = fields_args fs -> fs <> [] -> Forall field_ok fs ->
  zlen args <= 256 ->
  exists rc b, pack s format args = Some (rc, with_out b s) /\ buffer_wf b
    /\ (rc = SSH_OK /\ contents b = q ++ fields_encode fs \/ rc = SSH_ERROR).
Proof.
  intros (b & Hb & Hwf & <-) Hf -> Hne Hok Hn. unfold pack. cbn [pl_out users user_packets]. rewrite Hb, Hf. cbn [mbind option_bind].
  destruct (pack_fields_spec b fs Hwf Hok Hne Hn) as (rc & b' & -> & Hwf' & _ & Hr). cbn [mbind option_bind].
  do 2 eexists. split_and!; [done|done|]. destruct Hr as [[-> ?]|[-> _]]; auto.
Qed.

Lemma sending_out b s q : buffer_wf b -> contents b = q -> sending (with_out b s) q.
Proof. intros Hwf Hq. by exists b. Qed.

Lemma receiving_in b s q : buffer_wf b -> contents b = q -> receiving (with_in b s) q.
Proof. intros Hwf Hq. by exists b. Qed.

(** Fields that are not read as raw data are read back from the front of a packet. *)
Definition no_data (f : field) : bool := match f with FData _ => false | _ => true end.

Lemma user_unpack s fs format args rest :
  malloc_succeeds -> (forall l, bignum_bin2bn l <> None) ->
  receiving s (fields_encode fs ++ rest) -> cstr format = fields_format fs -> args = fields_uargs fs -> fs <> [] ->
  Forall field_ok fs -> forallb no_data fs = true -> zlen (fields_args fs) <= 256 ->
  exists os b, unpack s format args = Some (SSH_OK, os, with_in b s) /\ Forall2 slot_holds fs os /\ buffer_wf b
    /\ contents b = rest.
Proof.
  intros Hm Hbn (b & Hb & Hwf & Hc) Hf -> Hne Hok Hd Hn. unfold unpack. cbn [pl_in users user_packets]. rewrite Hb, Hf. cbn [mbind option_bind].
  destruct (unpack_prefix_ok b fs rest Hm Hbn Hwf Hc Hok Hne Hn) as (os & b' & -> & Hos & Hwf' & Hc').
  - apply Forall_forall. intros f Hin d ->. apply list_elem_of_In, (proj1 (forallb_forall _ _) Hd) in Hin. done.
  - cbn [mbind option_bind]. by do 2 eexists.
Qed.

(** ** Public keys *)

(** The request up to the signature. *)
Definition login_fields (user service alg : bytes) (blob : ssh_string) : list field :=
  [FByte SSH2_MSG_USERAUTH_REQUEST; FCstring user; FCstring service; FCstring (cstr "publickey"); FByte 1;
   FCstring alg; FString blob].

Definition login_text (user service alg : bytes) (blob : ssh_string) : bytes :=
  fields_encode (login_fields user service alg blob).

(** The text of a signature: the identifier of the session is a string before it. *)
Definition signed_text (id user service alg : bytes) (blob : ssh_string) : bytes :=
  lv id ++ login_text user service alg blob.

Lemma out_crypto b s dir : ssh_packet_get_current_crypto (lower (base (with_out b s))) dir
  = ssh_packet_get_current_crypto (lower (base s)) dir.
Proof. done. Qed.

Lemma in_crypto b s dir : ssh_packet_get_current_crypto (lower (base (with_in b s))) dir
  = ssh_packet_get_current_crypto (lower (base s)) dir.
Proof. done. Qed.

(** A client signs its request with a key whose public part the server has: the
    packet is the request with a signature the server can verify. *)
Lemma publickey_packet_spec fips user alg priv name rest s s' slot c id :
  malloc_succeeds -> blob_key priv name rest -> (exists pub, key_pair priv pub) ->
  (forall pub, key_pair priv pub -> pki_key_to_pkey pub <> None) ->
  ssh_packet_get_current_crypto (lower (base s)) SSH_DIRECTION_BOTH = Some (slot, c) ->
  session_id c = Some id -> digest_len c = zlen id -> 0 < zlen id <= 64 ->
  sending s [] -> zlen user < 2 ^ 32 -> zlen alg < 2 ^ 32 ->
  publickey_packet fips user alg priv s = Some (true, s') ->
  exists blob sig md, string_wf blob /\ string_text blob = lv name ++ rest /\ string_wf sig
    /\ ssh_key_type_to_hash fips (key_type priv) s = Some md
    /\ sending s' (login_text user (cstr "ssh-connection") alg blob ++ lv (string_text sig))
    /\ forall b pub, string_wf b -> string_text b = string_text sig -> key_pair priv pub ->
       exists o, ssh_pki_import_signature_blob (Some b) pub = Some (Some o)
       /\ sig_type_c o = ssh_key_signature_to_char (key_type priv) md
       /\ ssh_pki_signature_verify fips (Some o) (Some pub)
            (Some (signed_text id user (cstr "ssh-connection") alg blob)) = SSH_OK.
Proof.
  intros Hm Hk [pub0 Hp0] Hpub Hc Hid Hd Hl Hs Hu Ha. unfold publickey_packet.
  destruct (blob_key_export priv name rest Hm Hk) as (blob & -> & Hblob & Ht). cbn [mbind option_bind].
  change (SSH_OK <? 0) with false. cbv iota.
  destruct (user_pack s (login_fields user (cstr "ssh-connection") alg blob) "bsssbsS"
    (fields_args (login_fields user (cstr "ssh-connection") alg blob)) [] Hs) as (rc & b & E & Hwf & Hrc);
    [done|done|done|by repeat constructor|done|].
  cbn [fields_args login_fields map concat field_args app] in E. rewrite E. clear E. cbn [mbind option_bind].
  destruct Hrc as [[-> Hb]| ->]; [|done]. change (SSH_OK <? 0) with false. cbv iota. cbn [app] in Hb.
  change (fields_encode (login_fields user (cstr "ssh-connection") alg blob)) with
    (login_text user (cstr "ssh-connection") alg blob) in Hb.
  change (ssh_key_type_to_hash fips (key_type priv) (with_out b s)) with (ssh_key_type_to_hash fips (key_type priv) s).
  destruct (ssh_key_type_to_hash fips (key_type priv) s) as [md|] eqn:Emd; [|done]. cbn [mbind option_bind].
  change (pl_out (base (with_out b s))) with (Some b).
  destruct (ssh_pki_do_sign fips _ (Some b) _ md) as [[sig|]|] eqn:Esig; [|done|done]. cbn [mbind option_bind].
  destruct (ssh_buffer_add_ssh_string b (Some sig)) as [[rc b']|] eqn:Eadd; [|done]. cbn [mbind option_bind].
  intros [= Hrc <-].
  assert (Hacc : forall pub, key_pair priv pub -> string_wf sig /\ forall sb,
    string_wf sb -> string_text sb = string_text sig -> exists o, ssh_pki_import_signature_blob (Some sb) pub = Some (Some o)
    /\ sig_type_c o = ssh_key_signature_to_char (key_type priv) md
    /\ ssh_pki_signature_verify fips (Some o) (Some pub) (Some (lv id ++ contents b)) = SSH_OK).
  { intros pub Hp. apply (user_signature_accepted fips (lower (base (with_out b s))) slot c); try done; [by apply Hpub|].
    by rewrite Hb. }
  rewrite Hb in Hacc. destruct (Hacc pub0 Hp0) as [Hsig _].
  destruct (add_ssh_string_spec b sig Hwf Hsig) as (rc' & b'' & Eadd' & Hwf' & _ & Hres).
  rewrite Eadd in Eadd'. injection Eadd' as <- <-.
  exists blob, sig, md. split_and!; [done..| |].
  - destruct Hres as [[_ Hc']|[-> _]]; [|done]. apply (sending_out b' (with_out b s)); [done|]. by rewrite Hc', Hb.
  - intros sb pub Hw Ht' Hp. destruct (Hacc pub Hp) as [_ Hacc']. by apply Hacc'.
Qed.

(** The key a server reads from the blob of a client's key. *)
Lemma login_key priv :
  malloc_succeeds -> (forall l, bignum_bin2bn l <> None) -> (forall n e, RSA_public n e <> None) ->
  host_key priv -> key_cert priv = None ->
  exists name rest, blob_key priv name rest /\ zlen rest < 2 ^ 18
    /\ forall blob, string_wf blob -> string_text blob = lv name ++ rest ->
       exists key, ssh_pki_import_pubkey_blob (Some blob) = Some (Some key) /\ blob_key key name rest /\ key_pair priv key.
Proof.
  intros Hm Hbn Hrsa Hk Hce. destruct Hk as [priv r Hty Hname Hr Hn He Hln Hle|priv seed Hty Hname Hpriv Hlen Hpub].
  - assert (Hk : blob_key priv (cstr "ssh-rsa") (lv (mpint (RSA_e r)) ++ lv (mpint (RSA_n r)))) by by constructor.
    do 2 eexists. split; [exact Hk|]. split; [rewrite zlen_app, !zlen_lv; lia|]. intros blob Hb Ht.
    destruct (blob_key_import priv _ _ blob Hm Hbn Hrsa Hk Hb Ht) as (key & Hi & Hk' & Hp & Hty' & Hnum & _).
    destruct (Hnum r Hr Hty) as (r' & Hr' & Hn' & He'). exists key. split_and!; [done|done|].
    eapply (pair_rsa _ _ r r'); congruence.
  - assert (Hk : blob_key priv (cstr "ssh-ed25519") (lv (ed25519_point seed))).
    { constructor; [done..|]. apply ed25519_point_size. }
    do 2 eexists. split; [exact Hk|]. split; [rewrite zlen_lv, ed25519_point_size; done|]. intros blob Hb Ht.
    destruct (blob_key_import priv _ _ blob Hm Hbn Hrsa Hk Hb Ht) as (key & Hi & Hk' & Hp & Hty' & _ & Hpt).
    exists key. split_and!; [done|done|]. eapply (pair_ed25519 _ _ seed); [congruence..|]. by rewrite (Hpt Hty).
Qed.

Lemma login_text_ext user service alg blob blob' : string_text blob = string_text blob' ->
  login_text user service alg blob = login_text user service alg blob'.
Proof. intros Ht. unfold login_text, fields_encode, login_fields. cbn [map concat encode]. by rewrite Ht. Qed.

Lemma blob_key_name key name rest : blob_key key name rest -> zlen name <= 11.
Proof. by intros []; vm_compute. Qed.

(** The server builds the text that the client signed. *)
Lemma build_digest_spec s user service key name rest algs blob slot c id :
  malloc_succeeds -> blob_key key name rest -> zlen rest < 2 ^ 18 ->
  ssh_packet_get_current_crypto (lower (base s)) SSH_DIRECTION_IN = Some (slot, c) ->
  session_id c = Some id -> digest_len c = zlen id -> 0 < zlen id <= 64 ->
  string_wf algs -> is_cstr (string_text algs) -> string_text blob = lv name ++ rest ->
  zlen user < 2 ^ 16 -> zlen service < 2 ^ 16 -> zlen (string_text algs) < 2 ^ 16 ->
  exists d, ssh_msg_userauth_build_digest s user key service (Some algs) = Some (Some d) /\ buffer_wf d
    /\ contents d = signed_text id user service (string_text algs) blob.
Proof.
  intros Hm Hk Hrest Hc Hid Hd Hl Ha Hac Ht Hu Hsv Haz. unfold ssh_msg_userauth_build_digest. rewrite Hc.
  destruct (ssh_buffer_new_ok Hm) as (b & -> & Hwf & Hb & Hused). cbn [mbind option_bind].
  destruct (blob_key_export key name rest Hm Hk) as (blob' & -> & Hbw & Hbt). cbn [mbind option_bind].
  change (SSH_OK <? 0) with false. cbv iota.
  destruct (text_char_spec algs Ha) as (alg & -> & Halg). rewrite (Halg Hac). cbn [mbind option_bind].
  rewrite Hd, Hid.
  pose proof (blob_key_name _ _ _ Hk).
  assert (Hz : zlen (fields_encode ([FDword (zlen id); FData id] ++ login_fields user service (string_text algs) blob'))
    < BUFFER_SIZE_MAX).
  { unfold fields_encode, login_fields. cbn [app map concat encode].
    rewrite !zlen_app, !zlen_lv, !zlen_be_bytes, Hbt, zlen_app, zlen_lv, zlen_nil. change (zlen (cstr "publickey")) with 9.
    unfold BUFFER_SIZE_MAX. lia. }
  destruct (pack_fields_ok b ([FDword (zlen id); FData id] ++ login_fields user service (string_text algs) blob')
    Hm Hwf) as (b' & E & Hwf' & _ & Hc').
  - repeat constructor; try done; cbn; lia.
  - done.
  - done.
  - eapply Z.le_lt_trans; [|exact Hz]. cbn [app fields_room foldr field_room login_fields].
    unfold fields_encode. cbn [map concat login_fields]. rewrite !zlen_app. change (zlen (@nil Byte.byte)) with 0. lia.
  - by rewrite Hused.
  - cbn [fields_args login_fields map concat field_args app] in E. change (fields_format _) with (cstr "dPbsssbsS") in E.
    rewrite E. cbn [mbind option_bind]. change (SSH_OK =? SSH_OK) with true. cbv iota. exists b'.
    split_and!; [done|done|]. rewrite Hc', Hb. unfold signed_text, lv. rewrite <- app_assoc.
    rewrite (login_text_ext _ _ _ blob blob') by congruence. done.
Qed.

(** ** What the variables of a call hold *)

Lemma holds_at fs os i f : Forall2 slot_holds fs os -> fs !! i = Some f ->
  exists o, os !! i = Some o /\ slot_holds f o.
Proof. intros Hos Hf. destruct (Forall2_lookup_l _ _ _ _ _ Hos Hf) as (o & ? & ?). by exists o. Qed.

Lemma holds_cstr fs os i t : Forall2 slot_holds fs os -> fs !! i = Some (FCstring t) -> is_cstr t ->
  cstr_slot os i = Some t.
Proof.
  intros Hos Hf Ht. destruct (holds_at _ _ _ _ Hos Hf) as (o & Ho & Hv). unfold cstr_slot. rewrite Ho.
  destruct o; try done. cbn in Hv. subst. unfold text_of. rewrite strlen_cstr by done. cbn [mbind option_bind].
  by rewrite ztake_app_le, ztake_all by zlen_lia.
Qed.

Lemma holds_byte fs os i z old : Forall2 slot_holds fs os -> fs !! i = Some (FByte z) -> 0 <= z < 256 ->
  int_slot os i old = z.
Proof.
  intros Hos Hf Hz. destruct (holds_at _ _ _ _ Hos Hf) as (o & Ho & Hv). unfold int_slot. rewrite Ho.
  destruct o; try done. cbn in Hv. subst. by apply Z.mod_small.
Qed.

Lemma holds_dword fs os i z old : Forall2 slot_holds fs os -> fs !! i = Some (FDword z) -> 0 <= z < 2 ^ 32 ->
  int_slot os i old = z.
Proof.
  intros Hos Hf Hz. destruct (holds_at _ _ _ _ Hos Hf) as (o & Ho & Hv). unfold int_slot. rewrite Ho.
  destruct o; try done. cbn in Hv. subst. by apply Z.mod_small.
Qed.

Lemma holds_string fs os i x : Forall2 slot_holds fs os -> fs !! i = Some (FString x) ->
  exists x', os !! i = Some (SlotString (Some x')) /\ string_wf x' /\ string_text x' = string_text x.
Proof.
  intros Hos Hf. destruct (holds_at _ _ _ _ Hos Hf) as (o & Ho & Hv). destruct o as [|[x'|]| | |]; try done.
  by exists x'.
Qed.

(** A string with a text. *)
Definition as_string (t : bytes) : ssh_string := mk_string (htonl (zlen t)) (t ++ [Byte.x00]).

Lemma as_string_spec t : zlen t <= STRING_SIZE_MAX -> string_wf (as_string t) /\ string_text (as_string t) = t.
Proof.
  intros Ht. pose proof (zlen_nonneg t). split.
  - exists (zlen t). split_and!; [done|done|done|]. cbn [str_data as_string]. zlen_lia.
  - unfold string_text, as_string. rewrite ssh_string_len_htonl by done. cbn [str_data].
    by rewrite ztake_app_le, ztake_all by lia.
Qed.

(** The signature of a request is accepted. *)
Lemma check_signature_ok fips s sig o key digest text :
  buffer_wf digest -> contents digest = text -> text <> [] ->
  ssh_pki_import_signature_blob (Some sig) key = Some (Some o) ->
  ssh_pki_signature_verify fips (Some o) (Some key) (Some text) = SSH_OK ->
  (forall types, opts_pubkey_types (auth s) = Some types ->
     exists c n, sig_type_c o = Some c /\ ssh_match_group types c = Some n /\ n <> 0) ->
  check_signature fips s sig key digest = Some SSH_OK.
Proof.
  intros Hwf Hc Hne Hi Hv Hg. unfold check_signature. rewrite Hi. cbn [mbind option_bind].
  rewrite get_contents, Hc by (done || by rewrite Hc). rewrite Hv.
  destruct (opts_pubkey_types (auth s)) as [types|]; [|done].
  destruct (Hg types eq_refl) as (c & n & -> & Hm & Hn). cbn [mbind option_bind]. rewrite Hm. cbn [mbind option_bind].
  by rewrite (proj2 (Z.eqb_neq _ _)).
Qed.

(** What a server needs to verify a request: a key for the blob, the identifier of the
    session, and a signature the key accepts. *)
Record login s (user alg : bytes) (blob sig : ssh_string) (name rest id : bytes) (priv : ssh_key) (ty : option bytes)
    (fips : bool) : Prop := {
  lg_user : is_cstr user /\ zlen user < 2 ^ 16;
  lg_alg : is_cstr alg /\ zlen alg < 2 ^ 16;
  lg_blob : string_wf blob /\ string_text blob = lv name ++ rest /\ zlen rest < 2 ^ 18;
  lg_key : forall b, string_wf b -> string_text b = lv name ++ rest ->
    exists key, ssh_pki_import_pubkey_blob (Some b) = Some (Some key) /\ blob_key key name rest /\ key_pair priv key;
  lg_id : exists slot c, ssh_packet_get_current_crypto (lower (base s)) SSH_DIRECTION_IN = Some (slot, c)
    /\ session_id c = Some id /\ digest_len c = zlen id /\ 0 < zlen id <= 64;
  lg_sig : forall b key, string_wf b -> string_text b = string_text sig -> key_pair priv key ->
    exists o, ssh_pki_import_signature_blob (Some b) key = Some (Some o) /\ sig_type_c o = ty
    /\ ssh_pki_signature_verify fips (Some o) (Some key)
         (Some (signed_text id user (cstr "ssh-connection") alg blob)) = SSH_OK;
  lg_types : forall types, opts_pubkey_types (auth s) = Some types ->
    exists c n, ty = Some c /\ ssh_match_group types c = Some n /\ n <> 0
}.

(** The request that is made of the message. *)
Definition valid_request (user : bytes) (key : ssh_key) : ssh_auth_request :=
  mk_auth_request _ _ (Some user) SSH_AUTH_METHOD_PUBLICKEY None (Some key) SSH_PUBLICKEY_STATE_VALID false.

Lemma parse_publickey_ok fips s user alg blob sig name rest id priv ty :
  malloc_succeeds -> (forall l, bignum_bin2bn l <> None) -> login s user alg blob sig name rest id priv ty fips ->
  receiving s (fields_encode [FByte 1; FString (as_string alg); FString blob] ++ lv (string_text sig)) ->
  exists key s', parse_publickey fips s user (cstr "ssh-connection") = Some (Some (valid_request user key), s')
    /\ blob_key key name rest /\ key_pair priv key.
Proof.
  intros Hm Hbn [[Huc Hu] [Hac Ha] (Hb & Ht & Hr) Hkey (slot & c & Hc & Hid & Hd & Hl) Hsig Htypes] Hin.
  assert (zlen (as_string alg).(str_data) = zlen alg + 1) by (cbn; zlen_lia).
  destruct (as_string_spec alg) as [Haw Hat]; [unfold STRING_SIZE_MAX; lia|].
  unfold parse_publickey.
  destruct (user_unpack s [FByte 1; FString (as_string alg); FString blob] "bSS" [UPtr; UPtr; UPtr] _ Hm Hbn Hin)
    as (os & b & -> & Hos & Hwf & Hcb); [done|done|done|by repeat constructor|done|done|].
  cbn [mbind option_bind]. change (negb (SSH_OK =? SSH_OK)) with false. cbv iota.
  destruct (holds_string _ _ 2 _ Hos eq_refl) as (blob' & -> & Hbw & Hbt).
  destruct (holds_string _ _ 1 _ Hos eq_refl) as (alg' & -> & Haw' & Hat').
  rewrite (holds_byte _ _ 0 1 0 Hos eq_refl) by lia.
  destruct (Hkey blob' Hbw) as (key & -> & Hbk & Hp); [by rewrite Hbt|]. cbn [mbind option_bind].
  change (1 =? 0) with false. cbv iota. change (pl_in (base (with_in b s))) with (Some b). cbn [mbind option_bind].
  destruct (get_ssh_string_lv Hm b (string_text sig) [] Hwf) as (sig' & b' & -> & Hwf' & _ & _ & Hsw & Hst);
    [by rewrite app_nil_r|]. cbn [mbind option_bind].
  change (set_base (pl_set_in (Some b') (base (with_in b s))) (with_in b s)) with (with_in b' s).
  rewrite Hat in Hat'.
  destruct (build_digest_spec (with_in b' s) user (cstr "ssh-connection") key name rest alg' blob slot c id)
    as (d & -> & Hdw & Hdc); try done; [by rewrite Hat'|by rewrite Hat'|]. cbn [mbind option_bind].
  rewrite Hat' in Hdc. destruct (Hsig sig' key Hsw Hst Hp) as (o & Ho & Hty & Hv).
  rewrite (check_signature_ok fips (with_in b' s) sig' o key d _ Hdw Hdc); [|done|done|done|].
  - cbn [mbind option_bind]. change (SSH_OK <? 0) with false. cbv iota. by do 2 eexists.
  - intros types Hty'. rewrite Hty. by apply Htypes.
Qed.

(** The message after its type. *)
Definition login_message (user alg : bytes) (blob sig : ssh_string) : bytes :=
  lv user ++ lv (cstr "ssh-connection") ++ lv (cstr "publickey") ++ be_bytes 1 1 ++ lv alg ++ lv (string_text blob)
  ++ lv (string_text sig).

Lemma login_text_message user alg blob sig :
  login_text user (cstr "ssh-connection") alg blob ++ lv (string_text sig)
  = be_bytes 1 SSH2_MSG_USERAUTH_REQUEST ++ login_message user alg blob sig.
Proof.
  unfold login_text, login_message, fields_encode, login_fields. cbn [map concat encode].
  by rewrite app_nil_r, <- !app_assoc.
Qed.

Lemma parse_login fips s user alg blob sig name rest id priv ty :
  malloc_succeeds -> message_memory = true -> (forall l, bignum_bin2bn l <> None) ->
  login s user alg blob sig name rest id priv ty fips -> receiving s (login_message user alg blob sig) ->
  exists key s', parse_userauth_request fips s = Some (Some (valid_request user key), s')
    /\ blob_key key name rest /\ key_pair priv key.
Proof.
  intros Hm Hmem Hbn Hlg Hin. unfold parse_userauth_request. rewrite Hmem. cbn [negb].
  destruct (lg_user _ _ _ _ _ _ _ _ _ _ _ Hlg) as [Huc Hu]. destruct (lg_alg _ _ _ _ _ _ _ _ _ _ _ Hlg) as [Hac Ha].
  destruct (as_string_spec alg) as [_ Hat]; [unfold STRING_SIZE_MAX; lia|].
  destruct (user_unpack s [FCstring user; FCstring (cstr "ssh-connection"); FCstring (cstr "publickey")] "sss" [UPtr; UPtr; UPtr]
    (fields_encode [FByte 1; FString (as_string alg); FString blob] ++ lv (string_text sig)) Hm Hbn)
    as (os & b & -> & Hos & Hwf & Hcb); [|done|done|done|by repeat constructor; cbn; lia|done|done|].
  { destruct Hin as (b & Hb & Hwf & Hc). exists b. split_and!; [done|done|]. rewrite Hc. unfold login_message, fields_encode.
    cbn [map concat encode]. by rewrite Hat, !app_nil_r, <- !app_assoc. }
  cbn [mbind option_bind]. change (negb (SSH_OK =? SSH_OK)) with false. cbv iota.
  rewrite (holds_cstr _ _ 0 user Hos eq_refl Huc). cbn [mbind option_bind].
  rewrite (holds_cstr _ _ 1 (cstr "ssh-connection") Hos eq_refl),
    (holds_cstr _ _ 2 (cstr "publickey") Hos eq_refl)
    by (apply (bool_decide_eq_true_1 (is_cstr _)); vm_compute; reflexivity).
  cbn [mbind option_bind]. rewrite (bool_decide_eq_true_2 (cstr "ssh-connection" = _)) by done. cbn [negb].
  rewrite !bool_decide_eq_false_2, bool_decide_eq_true_2 by (done || vm_compute; discriminate).
  apply (parse_publickey_ok fips (with_in b s) user alg blob sig name rest id priv ty); [done|done| |by exists b].
  by destruct Hlg.
Qed.

Lemma message_memory_ok : malloc_succeeds -> message_memory = true.
Proof.
  intros Hm. unfold message_memory. destruct (malloc sizeof_message) eqn:E; [done|]. apply Hm in E; [done|].
  vm_compute. by split.
Qed.

(** What the handler of a parsed request does when the server has a function for
    public keys. *)
Definition ask_pubkey (f : cs -> option bytes -> option ssh_key -> ssh_publickey_state_e -> run (Z * cs))
    (user : bytes) (key : ssh_key) s : run (Z * cs) :=
  '(rc, s) ← f s (Some user) (Some key) SSH_PUBLICKEY_STATE_VALID;
  '(_, s) ← (if success_or_partial rc then ssh_auth_reply_success s (rc =? SSH_AUTH_PARTIAL)
             else ssh_auth_reply_default s false);
  Some (SSH_PACKET_USED, s).

Lemma handle_valid fips cb f message_callback disconnect enqueue s s' user key type :
  auth_pubkey_function cb = Some f -> parse_userauth_request fips s = Some (Some (valid_request user key), s') ->
  ssh_packet_userauth_request fips (Some cb) message_callback disconnect enqueue s type = ask_pubkey f user key s'.
Proof.
  intros Hf Hp. unfold ssh_packet_userauth_request, ask_pubkey. rewrite Hp. cbn [mbind option_bind].
  unfold ssh_message_queue, ssh_execute_server_callbacks, ssh_execute_server_request.
  cbn [req_method valid_request req_username req_pubkey signature_state].
  change (SSH_AUTH_METHOD_PUBLICKEY =? SSH_AUTH_METHOD_PASSWORD) with false.
  change (SSH_AUTH_METHOD_PUBLICKEY =? SSH_AUTH_METHOD_PUBLICKEY) with true. rewrite Hf. cbv iota.
  destruct (f s' _ _ _) as [[rc s1]|]; [|done]. cbn [mbind option_bind].
  rewrite (bool_decide_eq_false_2 (_ = SSH_PUBLICKEY_STATE_NONE)) by done. cbn [negb]. unfold reply_success. cbn [ssh_message_reply_default].
  destruct (success_or_partial rc); [destruct (ssh_auth_reply_success _ _) as [[? ?]|]
    |destruct (ssh_auth_reply_default _ _) as [[? ?]|]]; done.
Qed.

(** (C4) A client that signs with an RSA or Ed25519 key without a certificate logs in: for every server in the same
    session that accepts the type of the signature, the handler of the packet asks
    the application for the user that the client named, with a key that is the public
    part of the client's, as one whose possession was proved. *)
Theorem publickey_login_accepted fips user alg priv s s' slot c id :
  malloc_succeeds -> (forall l, bignum_bin2bn l <> None) -> (forall n e, RSA_public n e <> None) ->
  host_key priv -> key_cert priv = None -> (forall pub, key_pair priv pub -> pki_key_to_pkey pub <> None) ->
  is_cstr user -> is_cstr alg -> zlen user < 2 ^ 16 -> zlen alg < 2 ^ 16 ->
  ssh_packet_get_current_crypto (lower (base s)) SSH_DIRECTION_BOTH = Some (slot, c) ->
  session_id c = Some id -> digest_len c = zlen id -> 0 < zlen id <= 64 -> sending s [] ->
  publickey_packet fips user alg priv s = Some (true, s') ->
  exists msg md, sending s' (be_bytes 1 SSH2_MSG_USERAUTH_REQUEST ++ msg)
    /\ ssh_key_type_to_hash fips (key_type priv) s = Some md
    /\ forall t slot' c' cb f message_callback disconnect enqueue, receiving t msg ->
       ssh_packet_get_current_crypto (lower (base t)) SSH_DIRECTION_IN = Some (slot', c') ->
       session_id c' = Some id -> digest_len c' = zlen id ->
       (forall types, opts_pubkey_types (auth t) = Some types ->
          exists name n, ssh_key_signature_to_char (key_type priv) md = Some name
            /\ ssh_match_group types name = Some n /\ n <> 0) ->
       auth_pubkey_function cb = Some f ->
       exists key t', key_pair priv key
         /\ ssh_packet_userauth_request fips (Some cb) message_callback disconnect enqueue t SSH2_MSG_USERAUTH_REQUEST
            = ask_pubkey f user key t'.
Proof.
  intros Hm Hbn Hrsa Hk Hce Hpk Hu Ha Hul Hal Hc Hid Hd Hl Hs Hp.
  destruct (login_key priv Hm Hbn Hrsa Hk Hce) as (name & rest & Hbk & Hr & Hkey).
  assert (Hex : exists pub, key_pair priv pub).
  { destruct (blob_key_export priv name rest Hm Hbk) as (b & _ & Hb & Ht). destruct (Hkey b Hb Ht) as (key & _ & _ & ?).
    by exists key. }
  destruct (publickey_packet_spec fips user alg priv name rest s s' slot c id)
    as (blob & sig & md & Hb & Ht & Hsw & Hmd & Hout & Hacc); try done; [lia|lia|].
  exists (login_message user alg blob sig), md. rewrite login_text_message in Hout. split_and!; [done|done|].
  intros t slot' c' cb f mcb disc enq Hin Hc' Hid' Hd' Htypes Hf.
  destruct (parse_login fips t user alg blob sig name rest id priv (ssh_key_signature_to_char (key_type priv) md))
    as (key & t' & Hparse & _ & Hkp); [done|by apply message_memory_ok|done| |done|].
  - constructor; try done. by exists slot', c'.
  - exists key, t'. split; [done|]. by apply handle_valid.
Qed.

(** ** What a proved request is *)

Lemma fill_wf x d n rc x' : string_wf x -> ssh_string_fill (Some x) d n = Some (rc, x') ->
  exists y, x' = Some y /\ string_wf y.
Proof.
  intros Hx. unfold ssh_string_fill. destruct d as [d|]; [|intros [= _ <-]; by exists x].
  destruct (_ || _); [intros [= _ <-]; by exists x|].
  destruct (memcpy _ _ _ _ _) as [p|] eqn:Hp; [|done]. intros [= _ <-]. eexists. split; [reflexivity|].
  destruct Hx as (k & Hk & Hsz & Hd). exists k. cbn [str_size str_data]. apply memcpy_zlen in Hp. by rewrite Hp.
Qed.

Lemma export_wf key rc blob : ssh_pki_export_pubkey_blob (Some key) = Some (rc, blob) -> rc < 0 \/ exists x, blob = Some x /\ string_wf x.
Proof.
  unfold ssh_pki_export_pubkey_blob, pki_publickey_to_blob. intros Hx. apply bind_Some in Hx as (o & Hx & [= <- <-]).
  destruct o as [x|]; [right|by left]. apply bind_Some in Hx as (nb & _ & Hx). destruct nb as [b|]; [|done].
  apply bind_Some in Hx as ([ok b1] & _ & Hx). destruct (negb ok); [done|]. unfold buffer_blob in Hx.
  destruct (ssh_string_new _) as [y|] eqn:Hy; [|done].
  apply ssh_string_new_wf in Hy as [Hy _]; [|unfold ssh_buffer_get_len; apply u32_range].
  apply bind_Some in Hx as ([rc z] & Hf & Hx). destruct (fill_wf _ _ _ _ _ Hy Hf) as (y' & -> & Hy').
  destruct (_ && _); [done|]. injection Hx as <-. by exists y'.
Qed.

(** What the server verifies when it makes a text at all. *)
Lemma build_digest_inv s user key service algs d slot c id :
  ssh_packet_get_current_crypto (lower (base s)) SSH_DIRECTION_IN = Some (slot, c) ->
  session_id c = Some id -> digest_len c = zlen id -> zlen id < 2 ^ 32 ->
  string_wf algs -> zlen user < 2 ^ 32 -> zlen service < 2 ^ 32 ->
  ssh_msg_userauth_build_digest s user key service (Some algs) = Some (Some d) ->
  exists blob alg, ssh_pki_export_pubkey_blob (Some key) = Some (SSH_OK, Some blob) /\ string_wf blob
    /\ text_char (Some algs) = Some (Some alg) /\ buffer_wf d /\ contents d = signed_text id user service alg blob.
Proof.
  intros Hc Hid Hd Hl Ha Hu Hsv. unfold ssh_msg_userauth_build_digest. rewrite Hc.
  destruct ssh_buffer_new_spec as (r & -> & Hb). cbn [mbind option_bind]. destruct r as [b|]; [|done].
  destruct (Hb b eq_refl) as (Hwf & Hcb & _).
  destruct (ssh_pki_export_pubkey_blob (Some key)) as [[rc blob]|] eqn:Eb; [|done]. cbn [mbind option_bind].
  destruct (Z.ltb_spec rc 0) as [|Hrc]; [done|]. destruct (export_wf _ _ _ Eb) as [|(x & -> & Hx)]; [lia|].
  destruct (text_char_spec algs Ha) as (alg & Et & _). rewrite Et. cbn [mbind option_bind]. rewrite Hd, Hid.
  assert (Hz : zlen alg < 2 ^ 32).
  { unfold text_char in Et. apply bind_Some in Et as (p & Hp & Et). destruct p as [p|]; [|done].
    apply bind_Some in Et as (t & Ht & [= ->]). unfold ssh_string_get_char in Hp.
    destruct (memcpy _ _ _ _ _) as [q|] eqn:Hq; [|done]. injection Hp as <-. apply memcpy_zlen in Hq. cbn [str_data] in Ht.
    unfold text_of in Ht. apply bind_Some in Ht as (n & Hn & [= <-]). apply strlen_range in Hn.
    destruct (string_wf_len algs Ha) as (? & _ & ?). unfold STRING_SIZE_MAX in *. rewrite zlen_take. lia. }
  destruct (pack_fields_spec b ([FDword (zlen id); FData id] ++ login_fields user service alg x) Hwf)
    as (rc' & b' & E & Hwf' & _ & Hr); [by repeat constructor|done|done|].
  cbn [fields_args login_fields map concat field_args app] in E. change (fields_format _) with (cstr "dPbsssbsS") in E.
  rewrite E. cbn [mbind option_bind]. intros [= Hd']. destruct Hr as [[-> Hc']|[-> _]]; [|done].
  change (SSH_OK =? SSH_OK) with true in Hd'. injection Hd' as <-.
  exists x, alg. split_and!; try done.
  - unfold ssh_pki_export_pubkey_blob in Eb. apply bind_Some in Eb as (o & _ & [= <- ->]). done.
  - rewrite Hc', Hcb. unfold signed_text, lv. by rewrite <- app_assoc.
Qed.

Lemma user_unpack_sound s fmt os s1 q :
  receiving s q -> forallb (fun c => exact_letter (letter_of c)) (cstr fmt) = true ->
  unpack s fmt (map (fun _ => UPtr) (cstr fmt)) = Some (SSH_OK, os, s1) ->
  exists fs b, s1 = with_in b s /\ buffer_wf b /\ fields_format fs = cstr fmt /\ Forall field_ok fs
    /\ Forall2 slot_holds fs os /\ q = fields_encode fs ++ contents b.
Proof.
  intros (b & Hb & Hwf & <-) Hl. unfold unpack. cbn [pl_in users user_packets]. rewrite Hb. cbn [mbind option_bind].
  intros Hu. apply bind_Some in Hu as ([[[rc os'] fr] b'] & Hu & [= -> <- <-]).
  destruct (unpack_sound b (cstr fmt) os' fr b' Hwf Hl Hu) as (fs & ? & ? & ? & ? & ?). by exists fs, b'.
Qed.

(** A C string that was read is as long as the field at most. *)
Lemma sound_cstr_slot fs os i t : Forall2 slot_holds fs os -> Forall field_ok fs -> cstr_slot os i = Some t ->
  zlen t < 2 ^ 32.
Proof.
  intros Hos Hok. unfold cstr_slot. destruct (os !! i) as [o|] eqn:Ho; [|done].
  destruct (Forall2_lookup_r _ _ _ _ _ Hos Ho) as (f & Hf & Hv).
  pose proof (proj1 (Forall_lookup _ _) Hok _ _ Hf) as Hf'.
  destruct o as [| |[p|]| |]; try done. destruct f; try done. cbn in Hv, Hf'. injection Hv as ->. unfold text_of.
  intros Ht. apply bind_Some in Ht as (n & Hn & [= <-]). apply strlen_range in Hn. rewrite zlen_take, zlen_app in *.
  change (zlen [Byte.x00]) with 1 in *. lia.
Qed.

Lemma sound_string_slot fs os i x : Forall2 slot_holds fs os -> os !! i = Some (SlotString (Some x)) -> string_wf x.
Proof.
  intros Hos Ho. destruct (Forall2_lookup_r _ _ _ _ _ Hos Ho) as (f & Hf & Hv). destruct f; try done. apply Hv.
Qed.

Lemma verify_code fips o key input : ssh_pki_signature_verify fips o key input = SSH_OK
  \/ ssh_pki_signature_verify fips o key input < 0.
Proof.
  unfold ssh_pki_signature_verify, pki_verify_data_signature. repeat case_match; try (by left); try (by right);
    left; apply Z.eqb_eq, negb_false_iff; assumption.
Qed.

Lemma check_signature_inv fips s sig key digest rc text :
  buffer_wf digest -> contents digest = text -> text <> [] ->
  check_signature fips s sig key digest = Some rc -> 0 <= rc ->
  exists o, ssh_pki_import_signature_blob (Some sig) key = Some (Some o)
    /\ ssh_pki_signature_verify fips (Some o) (Some key) (Some text) = SSH_OK.
Proof.
  intros Hwf Hc Hne Hx Hrc. unfold check_signature in Hx. apply bind_Some in Hx as (o & Ho & Hx).
  destruct o as [o|]; [|injection Hx as <-; done]. exists o. split; [done|].
  apply bind_Some in Hx as (ok & _ & Hx). destruct (ok =? 0); [injection Hx as <-; done|].
  rewrite get_contents, Hc in Hx by (done || by rewrite Hc).
  assert (ssh_pki_signature_verify fips (Some o) (Some key) (Some text) = rc) by congruence.
  destruct (verify_code fips (Some o) (Some key) (Some text)) as [|]; [done|lia].
Qed.

Lemma signed_text_ne id user service alg blob : signed_text id user service alg blob <> [].
Proof. unfold signed_text, lv. by destruct (be_bytes 4 (zlen id)) eqn:E. Qed.

(** The public key part of a request that is taken as proved. *)
Lemma parse_publickey_inv fips s user service r s' q slot c id :
  receiving s q -> ssh_packet_get_current_crypto (lower (base s)) SSH_DIRECTION_IN = Some (slot, c) ->
  session_id c = Some id -> digest_len c = zlen id -> zlen id < 2 ^ 32 -> zlen user < 2 ^ 32 -> zlen service < 2 ^ 32 ->
  parse_publickey fips s user service = Some (Some r, s') ->
  signature_state r = SSH_PUBLICKEY_STATE_NONE \/
  exists key alg blob o, r = valid_request user key /\ ssh_pki_export_pubkey_blob (Some key) = Some (SSH_OK, Some blob)
    /\ ssh_pki_signature_verify fips (Some o) (Some key) (Some (signed_text id user service alg blob)) = SSH_OK.
Proof.
  intros Hin Hc Hid Hd Hl Hu Hsv Hp. unfold parse_publickey in Hp.
  apply bind_Some in Hp as ([[rc os] s1] & Hun & Hp). destruct (Z.eqb_spec rc SSH_OK) as [->|]; [|done]. cbn [negb] in Hp.
  destruct (user_unpack_sound s "bSS" os s1 q Hin eq_refl Hun) as (fs & b & -> & Hwf & _ & _ & Hos & _).
  apply bind_Some in Hp as (key & _ & Hp). destruct key as [key|]; [|done].
  destruct (int_slot os 0 0 =? 0); [injection Hp as <- _; by left|right].
  change (pl_in (base (with_in b s))) with (Some b) in Hp. cbn [mbind option_bind] in Hp.
  apply bind_Some in Hp as ([sig b'] & Hsig & Hp). destruct sig as [sig|]; [|done].
  change (set_base (pl_set_in (Some b') (base (with_in b s))) (with_in b s)) with (with_in b' s) in Hp.
  apply bind_Some in Hp as (d & Hdg & Hp). destruct d as [d|]; [|done].
  apply bind_Some in Hp as (rc & Hck & Hp). destruct (Z.ltb_spec rc 0); [done|]. injection Hp as <- _.
  destruct (os !! 1%nat) as [[| [algs|] | | |]|] eqn:Ho;
    try (unfold ssh_msg_userauth_build_digest in Hdg; rewrite in_crypto, Hc in Hdg;
         repeat (apply bind_Some in Hdg as (? & ? & Hdg); repeat case_match; try done); done).
  pose proof (sound_string_slot _ _ _ _ Hos Ho) as Haw.
  destruct (build_digest_inv (with_in b' s) user key service algs d slot c id) as (blob & alg & He & _ & _ & Hdw & Hdc); try done.
  destruct (check_signature_inv fips (with_in b' s) sig key d rc _ Hdw Hdc) as (o & _ & Hv); [apply signed_text_ne|done|done|].
  by exists key, alg, blob, o.
Qed.

(** What a server that parses a request knows: either nothing was proved, or a
    signature over the text of the request was verified with the key of the request. *)
Lemma parse_request_inv fips s q slot c id r s' :
  receiving s q -> ssh_packet_get_current_crypto (lower (base s)) SSH_DIRECTION_IN = Some (slot, c) ->
  session_id c = Some id -> digest_len c = zlen id -> zlen id < 2 ^ 32 ->
  parse_userauth_request fips s = Some (Some r, s') ->
  signature_state r = SSH_PUBLICKEY_STATE_NONE \/
  exists user key alg blob o, r = valid_request user key /\ ssh_pki_export_pubkey_blob (Some key) = Some (SSH_OK, Some blob)
    /\ ssh_pki_signature_verify fips (Some o) (Some key)
         (Some (lv id ++ login_text user (cstr "ssh-connection") alg blob)) = SSH_OK.
Proof.
  intros Hin Hc Hid Hd Hl Hp. unfold parse_userauth_request in Hp. destruct message_memory; [|done]. cbn [negb] in Hp.
  apply bind_Some in Hp as ([[rc os] s1] & Hun & Hp). destruct (Z.eqb_spec rc SSH_OK) as [->|]; [|done]. cbn [negb] in Hp.
  destruct (user_unpack_sound s "sss" os s1 q Hin eq_refl Hun) as (fs & b & -> & Hwf & _ & Hok & Hos & _).
  apply bind_Some in Hp as (user & Hu & Hp). apply bind_Some in Hp as (service & Hsv & Hp).
  apply bind_Some in Hp as (method & Hmt & Hp).
  destruct (bool_decide (service = _)) eqn:Es; cbn [negb] in Hp; [|injection Hp as <- _; by left].
  apply bool_decide_eq_true in Es. subst service.
  destruct (bool_decide (method = cstr "none")); [injection Hp as <- _; by left|].
  destruct (bool_decide (method = cstr "password")).
  { apply bind_Some in Hp as ([[rc os'] s2] & _ & Hp). destruct (negb _); [done|].
    apply bind_Some in Hp as (? & _ & Hp). injection Hp as <- _. by left. }
  destruct (bool_decide (method = cstr "keyboard-interactive")).
  { apply bind_Some in Hp as (p & _ & Hp). apply bind_Some in Hp as ([lang p1] & _ & Hp). destruct (negb _); [done|].
    apply bind_Some in Hp as ([sub p2] & _ & Hp). destruct (some sub); [|done]. injection Hp as <- _. by left. }
  destruct (bool_decide (method = cstr "publickey")); [|injection Hp as <- _; by left].
  destruct (parse_publickey_inv fips (with_in b s) user (cstr "ssh-connection") r s' (contents b) slot c id)
    as [|(key & alg & blob & o & -> & He & Hv)]; try done; [by exists b|by eapply sound_cstr_slot|by left|].
  right. by exists user, key, alg, blob, o.
Qed.

(** ** The methods that can continue *)

Definition KNOWN_METHODS : Z := 62.
Definition methods_ok (m : Z) : bool :=
  let text := methods_text m in
  if m =? 0 then bool_decide (text = []) else
  bool_decide (last text = Some comma) && (methods_in (removelast text) =? m) && (zlen text <? 128)
  && bool_decide (is_cstr (removelast text)).

Lemma methods_small : forallb (fun n => methods_ok (Z.land (Z.of_nat n) KNOWN_METHODS)) (seq 0 64) = true.
Proof. vm_compute. reflexivity. Qed.

Lemma methods_text_known m : methods_text m = methods_text (Z.land m KNOWN_METHODS).
Proof. unfold methods_text. by rewrite <- !Z.land_assoc. Qed.

Lemma known_methods m : methods_ok (Z.land m KNOWN_METHODS) = true.
Proof.
  change KNOWN_METHODS with (Z.land (2 ^ 6 - 1) KNOWN_METHODS). rewrite Z.land_assoc, land_ones_mod by done.
  pose proof (Z.mod_pos_bound m (2 ^ 6) ltac:(done)) as Hr. pose proof methods_small as Hs.
  rewrite forallb_forall in Hs. specialize (Hs (Z.to_nat (m mod 2 ^ 6))). rewrite Z2Nat.id in Hs by lia.
  apply Hs, in_seq. lia.
Qed.

(** What a server without any method configured offers. *)
Definition offered (m : Z) : Z := if m =? 0 then Z.lor SSH_AUTH_METHOD_PUBLICKEY SSH_AUTH_METHOD_PASSWORD else m.

Definition failure_fields (m : Z) (partial : bool) : list field :=
  [FByte SSH2_MSG_USERAUTH_FAILURE; FCstring (removelast (methods_text m)); FByte (if partial then 1 else 0)].

Lemma set_methods_sending m s q : sending s q -> sending (set_methods m s) q.
Proof. done. Qed.

Lemma reply_default_spec s partial :
  sending s [] ->
  let m := offered (auth_methods (auth s)) in
  (Z.land m KNOWN_METHODS = 0 -> exists s', ssh_auth_reply_default s partial = Some (SSH_ERROR, s') /\ sending s' [])
  /\ (Z.land m KNOWN_METHODS <> 0 ->
      (exists s', ssh_auth_reply_default s partial = Some (SSH_ERROR, s'))
      \/ exists s1, sending s1 (fields_encode (failure_fields m partial))
         /\ ssh_auth_reply_default s partial = ssh_packet_send s1).
Proof.
  intros Hs m. unfold ssh_auth_reply_default.
  set (s0 := if auth_methods (auth s) =? 0 then _ else s).
  assert (Hm : auth_methods (auth s0) = m) by (unfold s0, m, offered; by destruct (auth_methods (auth s) =? 0)).
  assert (Hs0 : sending s0 []) by (unfold s0; by destruct (auth_methods (auth s) =? 0)). clearbody s0 m. rewrite Hm.
  pose proof (known_methods m) as Hk. unfold methods_ok in Hk. rewrite <- methods_text_known in Hk. split; intros Hz.
  - rewrite Hz in Hk. cbn [Z.eqb] in Hk. apply bool_decide_eq_true in Hk. rewrite Hk. exists s0. by split.
  - rewrite (proj2 (Z.eqb_neq _ _)) in Hk by done. rewrite !andb_true_iff in Hk. destruct Hk as [[[Hk _] Hl] _].
    rewrite Hk. cbn [negb]. apply Z.ltb_lt in Hl.
    destruct (user_pack s0 (failure_fields m partial) "bsb" (fields_args (failure_fields m partial)) [] Hs0) as (rc & b & E & Hwf & Hr);
      [done|done|done| |done|].
    { repeat constructor. cbn. pose proof (zlen_nonneg (methods_text m)).
      destruct (methods_text m) as [|x l] eqn:E; [done|]. rewrite removelast_firstn_len. unfold zlen in *. rewrite length_firstn. lia. }
    cbn [fields_args failure_fields map concat field_args app] in E. rewrite E. cbn [mbind option_bind].
    destruct Hr as [[-> Hc]| ->]; [right|left; by eexists]. exists (with_out b s0). split; [by apply sending_out|done].
Qed.

Lemma failure_handled t type m (partial : bool) :
  malloc_succeeds -> (forall l, bignum_bin2bn l <> None) -> Z.land m KNOWN_METHODS <> 0 ->
  receiving t (lv (removelast (methods_text m)) ++ be_bytes 1 (if partial then 1 else 0)) ->
  exists t', ssh_packet_userauth_failure t type = Some (SSH_PACKET_USED, t')
    /\ ssh_userauth_list t' = Z.land m KNOWN_METHODS /\ current_method (auth t') = SSH_AUTH_METHOD_UNKNOWN
    /\ astate t' = (if partial then SSH_AUTH_STATE_PARTIAL else SSH_AUTH_STATE_FAILED).
Proof.
  intros Hm Hbn Hz Hin. unfold ssh_packet_userauth_failure.
  pose proof (known_methods m) as Hk. unfold methods_ok in Hk. rewrite <- methods_text_known in Hk.
  rewrite (proj2 (Z.eqb_neq _ _)), !andb_true_iff in Hk by done. destruct Hk as [[[_ Hi] Hl] Hcs].
  apply Z.eqb_eq in Hi. apply bool_decide_eq_true in Hcs. apply Z.ltb_lt in Hl.
  destruct (user_unpack t [FCstring (removelast (methods_text m)); FByte (if partial then 1 else 0)] "sb" [UPtr; UPtr] []
    Hm Hbn) as (os & b & -> & Hos & Hwf & _); [|done|done|done| |done|done|].
  { destruct Hin as (b & Hb & Hwf & Hc). exists b. by rewrite Hc, app_nil_r. }
  { repeat constructor. cbn. destruct (methods_text m) as [|x l] eqn:E; [done|].
    rewrite removelast_firstn_len. unfold zlen in *. rewrite length_firstn. lia. }
  cbn [mbind option_bind]. change (negb (SSH_OK =? SSH_OK)) with false. cbv iota.
  rewrite (holds_cstr _ _ 0 _ Hos eq_refl Hcs). cbn [mbind option_bind].
  rewrite (holds_byte _ _ 1 _ 0 Hos eq_refl) by (destruct partial; lia).
  eexists. split; [reflexivity|]. rewrite <- Hi. destruct partial; by split_and!.
Qed.

(** A refusal tells the client what can continue: of a server that offers a method the
    protocol names, the message, when it is made, leaves the client with exactly those
    methods and with the state that says whether the server was content; of one that
    offers none of them no message is made at all, and the client gets no answer. *)
Theorem refusal_lists_methods s partial :
  malloc_succeeds -> (forall l, bignum_bin2bn l <> None) -> sending s [] ->
  let m := offered (auth_methods (auth s)) in
  (Z.land m KNOWN_METHODS = 0 -> exists s', ssh_auth_reply_default s partial = Some (SSH_ERROR, s') /\ sending s' [])
  /\ (Z.land m KNOWN_METHODS <> 0 ->
      (exists s', ssh_auth_reply_default s partial = Some (SSH_ERROR, s'))
      \/ exists s1 msg, ssh_auth_reply_default s partial = ssh_packet_send s1
         /\ sending s1 (be_bytes 1 SSH2_MSG_USERAUTH_FAILURE ++ msg)
         /\ forall t type, receiving t msg -> exists t', ssh_packet_userauth_failure t type = Some (SSH_PACKET_USED, t')
             /\ ssh_userauth_list t' = Z.land m KNOWN_METHODS /\ current_method (auth t') = SSH_AUTH_METHOD_UNKNOWN
             /\ astate t' = (if partial then SSH_AUTH_STATE_PARTIAL else SSH_AUTH_STATE_FAILED)).
Proof.
  intros Hm Hbn Hs m. destruct (reply_default_spec s partial Hs) as [Hnone Hsome]. split; [done|]. intros Hz.
  destruct (Hsome Hz) as [|(s1 & Hs1 & ->)]; [by left|right].
  exists s1, (lv (removelast (methods_text m)) ++ be_bytes 1 (if partial then 1 else 0)). split_and!; [done| |].
  - by rewrite <- (app_nil_r (be_bytes 1 (if partial then 1 else 0))).
  - intros t type. by apply failure_handled.
Qed.

(** ** Prompts and answers *)

Definition echo_bit (e : Z) : Z := if e =? 0 then 0 else 1.

(** The fields of the prompts of a request. *)
Definition prompt_fields (ps : list (bytes * Z)) : bytes := concat (map (fun '(p, e) => lv p ++ be_bytes 1 (echo_bit e)) ps).

Lemma pack_prompts_spec ps : forall s q,
  sending s q -> Forall (fun '(p, _) => zlen p < 2 ^ 32) ps ->
  exists rc s', pack_prompts (map fst ps) (map snd ps) s = Some (rc, s')
    /\ (rc = SSH_OK /\ sending s' (q ++ prompt_fields ps) \/ rc = SSH_ERROR).
Proof.
  induction ps as [|[p e] ps IH]; intros s q Hs Hps; cbn [map pack_prompts head tail fst snd].
  - do 2 eexists. split; [reflexivity|]. left. by rewrite app_nil_r.
  - inversion Hps as [|? ? Hp Hps']; subst. cbn [mbind option_bind].
    destruct (user_pack s [FCstring p; FByte (echo_bit e)] "sb" [VCstr p; VInt (echo_bit e)] q Hs)
      as (rc & b & E & Hwf & Hr); [done|done|done|by repeat constructor|done|].
    unfold echo_bit in E at 1. rewrite E. cbn [mbind option_bind]. destruct Hr as [[-> Hc]| ->].
    2: { do 2 eexists. split; [reflexivity|]. by right. }
    change (negb (SSH_OK =? SSH_OK)) with false. cbv iota.
    destruct (IH (with_out b s) (contents b)) as (rc & s' & -> & Hr); [by exists b|done|].
    do 2 eexists. split; [reflexivity|]. destruct Hr as [[-> Hs']| ->]; [left|by right]. split; [done|].
    rewrite Hc in Hs'. unfold prompt_fields, fields_encode in *. cbn [map concat encode] in *.
    rewrite app_nil_r, <- !app_assoc in Hs'. by rewrite <- !app_assoc.
Qed.

Lemma pack_request_spec name instruction ps s :
  sending s [] -> zlen name < 2 ^ 32 -> zlen instruction < 2 ^ 32 -> Forall (fun '(p, _) => zlen p < 2 ^ 32) ps ->
  exists rc s', pack_info_request name instruction (map fst ps) (map snd ps) s = Some (rc, s')
    /\ (rc = SSH_OK /\ sending s' (be_bytes 1 SSH2_MSG_USERAUTH_INFO_REQUEST
          ++ lv name ++ lv instruction ++ lv [] ++ be_bytes 4 (zlen ps) ++ prompt_fields ps) \/ rc = SSH_ERROR).
Proof.
  intros Hs Hn Hi Hps. unfold pack_info_request.
  destruct (user_pack s [FByte SSH2_MSG_USERAUTH_INFO_REQUEST; FCstring name; FCstring instruction; FCstring []; FDword (zlen ps)]
    "bsssd" [VInt SSH2_MSG_USERAUTH_INFO_REQUEST; VCstr name; VCstr instruction; VCstr []; VInt (zlen ps)] [] Hs)
    as (rc & b & E & Hwf & Hr); [done|done|done|by repeat constructor|done|].
  assert (Hz : zlen (map fst ps) = zlen ps) by (unfold zlen; by rewrite length_map). rewrite Hz, E. cbn [mbind option_bind].
  destruct Hr as [[-> Hc]| ->]; [|do 2 eexists; split; [reflexivity|by right]].
  change (negb (SSH_OK =? SSH_OK)) with false. cbv iota.
  destruct (pack_prompts_spec ps (with_out b s) (contents b)) as (rc & s' & -> & Hr); [by exists b|done|].
  do 2 eexists. split; [reflexivity|]. destruct Hr as [[-> Hs']| ->]; [left|by right]. split; [done|].
  rewrite Hc in Hs'. unfold fields_encode in Hs'. cbn [map concat encode app] in Hs'. by rewrite app_nil_r, <- !app_assoc in Hs'.
Qed.

(** The handler reads the prompts one after the other. *)
Lemma read_prompts_spec ps : forall t rest,
  malloc_succeeds -> (forall l, bignum_bin2bn l <> None) -> receiving t (prompt_fields ps ++ rest) ->
  Forall (fun '(p, _) => is_cstr p /\ zlen p < 2 ^ 32) ps ->
  exists t', read_prompts (length ps) t = Some (true, map (fun '(p, _) => Some p) ps, map (fun '(_, e) => echo_bit e) ps, t')
    /\ receiving t' rest.
Proof.
  induction ps as [|[p e] ps IH]; intros t rest Hm Hbn Ht Hps; cbn [length map read_prompts].
  - by exists t.
  - apply Forall_cons in Hps as [[Hp Hl] Hps'].
    destruct (user_unpack t [FCstring p; FByte (echo_bit e)] "sb" [UPtr; UPtr] (prompt_fields ps ++ rest) Hm Hbn)
      as (os & b & -> & Hos & Hwf & Hc); [|done|done|done|by repeat constructor|done|done|].
    { unfold prompt_fields, fields_encode in *. cbn [map concat encode] in *. by rewrite app_nil_r, <- !app_assoc in *. }
    cbn [mbind option_bind]. change (SSH_OK =? SSH_ERROR) with false. cbv iota.
    rewrite (holds_cstr _ _ 0 _ Hos eq_refl Hp). cbn [mbind option_bind].
    destruct (IH (with_in b t) rest Hm Hbn) as (t' & -> & Ht'); [by exists b|done|]. cbn [mbind option_bind].
    rewrite (holds_byte _ _ 1 (echo_bit e) 0 Hos eq_refl) by (unfold echo_bit; destruct (e =? 0); lia).
    by exists t'.
Qed.

Lemma calloc_array_ok {A} (x : A) n size : malloc_succeeds -> 0 <= n * size <= BUFFER_SIZE_MAX ->
  calloc_array x n size = Some (zrep n x).
Proof.
  intros Hm Hn. unfold calloc_array. destruct (malloc (n * size)) eqn:E; [done|]. apply Hm in E; [done|lia].
Qed.

(** The prompts of a server reach its client, up to the limit of the client. *)
Lemma info_request_spec name instruction ps t type :
  malloc_succeeds -> (forall l, bignum_bin2bn l <> None) -> is_cstr name -> is_cstr instruction ->
  zlen name < 2 ^ 32 -> zlen instruction < 2 ^ 32 -> Forall (fun '(p, _) => is_cstr p /\ zlen p < 2 ^ 32) ps ->
  kbdint (auth t) = None -> zlen ps <= KBDINT_MAX_PROMPT ->
  receiving t (lv name ++ lv instruction ++ lv [] ++ be_bytes 4 (zlen ps) ++ prompt_fields ps) ->
  exists t', ssh_packet_userauth_info_request t type = Some (SSH_PACKET_USED, t')
    /\ astate t' = SSH_AUTH_STATE_INFO
    /\ kbdint (auth t') = Some (mk_kbdint (zlen ps) (zlen ps) (Some name) (Some instruction)
         (Some (map (fun '(p, _) => Some p) ps)) (Some (map (fun '(_, e) => echo_bit e) ps)) None).
Proof.
  intros Hm Hbn Hnc Hic Hn Hi Hps Hk Hmax Ht. unfold ssh_packet_userauth_info_request. rewrite Hk. cbn [some].
  assert (Hnew : ssh_kbdint_new = Some (mk_kbdint 0 0 None None None None None)).
  { unfold ssh_kbdint_new. destruct (malloc sizeof_kbdint) eqn:E; [done|]. apply Hm in E; [done|]. vm_compute. by split. }
  rewrite Hnew. cbn [mbind option_bind]. destruct (as_string_spec []) as [Hsw Hst]; [done|].
  destruct (user_unpack t [FCstring name; FCstring instruction; FString (as_string []); FDword (zlen ps)] "ssSd"
    [UPtr; UPtr; UPtr; UPtr] (prompt_fields ps) Hm Hbn) as (os & b & -> & Hos & Hwf & Hc);
    [|done|done|done|by repeat constructor|done|done|].
  { unfold fields_encode. cbn [map concat encode]. rewrite Hst, app_nil_r, <- !app_assoc. exact Ht. }
  cbn [mbind option_bind]. change (negb (SSH_OK =? SSH_OK)) with false. cbv iota.
  rewrite (holds_cstr _ _ 0 _ Hos eq_refl Hnc). cbn [mbind option_bind].
  rewrite (holds_cstr _ _ 1 _ Hos eq_refl Hic). cbn [mbind option_bind]. pose proof (zlen_nonneg ps).
  unfold KBDINT_MAX_PROMPT in *.
  rewrite (holds_dword _ _ 3 (zlen ps) 0 Hos eq_refl), (proj2 (Z.ltb_ge _ _)) by lia.
  rewrite !calloc_array_ok by (done || unfold BUFFER_SIZE_MAX; lia).
  destruct (read_prompts_spec ps (with_in b t) [] Hm Hbn) as (t' & E & _);
    [rewrite app_nil_r; by exists b|done|].
  replace (Z.to_nat (zlen ps)) with (length ps) by (unfold zlen; lia). rewrite E. cbn [mbind option_bind negb].
  eexists. by split_and!.
Qed.

(** The number [i] of a client's prompts, behind its arrays when [i] is their number. *)
Lemma getprompt_spec (t : cs) name instruction ps :
  kbdint (auth t) = Some (mk_kbdint (zlen ps) (zlen ps) (Some name) (Some instruction)
    (Some (map (fun '(p, _) => Some p) ps)) (Some (map (fun '(_, e) => echo_bit e) ps)) None) ->
  (forall i p e, ps !! i = Some (p, e) ->
     ssh_userauth_kbdint_getprompt (Z.of_nat i) true t = Some (Some p, Some (echo_bit e)))
  /\ (forall i b, zlen ps < i -> ssh_userauth_kbdint_getprompt i b t = Some (None, None))
  /\ (forall b, ssh_userauth_kbdint_getprompt (zlen ps) b t = None).
Proof.
  intros Hk. unfold ssh_userauth_kbdint_getprompt. rewrite Hk. cbn [nprompts kb_echo kb_prompts mbind option_bind]. split_and!.
  - intros i p e Hi. pose proof (lookup_lt_Some _ _ _ Hi) as Hlt.
    rewrite (proj2 (Z.ltb_ge _ _)) by (unfold zlen; lia). rewrite Nat2Z.id, !list_lookup_fmap, Hi. done.
  - intros i b Hi. by rewrite (proj2 (Z.ltb_lt _ _)).
  - intros b. rewrite Z.ltb_irrefl. assert (Hz : Z.to_nat (zlen ps) = length ps) by (unfold zlen; lia).
    rewrite Hz, !list_lookup_fmap, (lookup_ge_None_2 ps (length ps)) by lia.
    by destruct b.
Qed.

(** The prompts of a server reach its client: when the message is made, whatever client
    in a keyboard interactive exchange handles it has the name, the instruction and
    every prompt, with its echo as a bit, and asks its application for the answers.
    The reader of the prompts stops one too late: the prompt whose number is the
    count of the prompts is read behind the end of both arrays. *)
Theorem prompts_reach_client name instruction ps s :
  malloc_succeeds -> (forall l, bignum_bin2bn l <> None) -> is_cstr name -> is_cstr instruction ->
  zlen name < 2 ^ 32 -> zlen instruction < 2 ^ 32 -> Forall (fun '(p, _) => is_cstr p /\ zlen p < 2 ^ 32) ps ->
  zlen ps <= KBDINT_MAX_PROMPT -> sending s [] ->
  exists rc s', pack_info_request name instruction (map fst ps) (map snd ps) s = Some (rc, s')
    /\ (rc = SSH_ERROR \/ exists msg, sending s' (be_bytes 1 SSH2_MSG_USERAUTH_INFO_REQUEST ++ msg)
        /\ forall t : cs, receiving t msg -> kbdint (auth t) = None -> astate t = SSH_AUTH_STATE_KBDINT_SENT ->
           exists t', ssh_packet_userauth_pk_ok t SSH2_MSG_USERAUTH_INFO_REQUEST = Some (SSH_PACKET_USED, t')
           /\ astate t' = SSH_AUTH_STATE_INFO /\ ssh_userauth_kbdint_getnprompts t' = zlen ps
           /\ ssh_userauth_kbdint_getname t' = Some name /\ ssh_userauth_kbdint_getinstruction t' = Some instruction
           /\ (forall i p e, ps !! i = Some (p, e) ->
                 ssh_userauth_kbdint_getprompt (Z.of_nat i) true t' = Some (Some p, Some (echo_bit e)))
           /\ (forall b, ssh_userauth_kbdint_getprompt (zlen ps) b t' = None)).
Proof.
  intros Hm Hbn Hnc Hic Hn Hi Hps Hmax Hs.
  destruct (pack_request_spec name instruction ps s Hs Hn Hi) as (rc & s' & -> & Hr).
  { eapply Forall_impl; [exact Hps|]. by intros [p e] [_ ?]. }
  do 2 eexists. split; [reflexivity|]. destruct Hr as [[-> Hs']| ->]; [right|by left].
  eexists. split; [exact Hs'|]. intros t Ht Hk Ha. unfold ssh_packet_userauth_pk_ok. rewrite Ha.
  destruct (info_request_spec name instruction ps t SSH2_MSG_USERAUTH_INFO_REQUEST) as (t' & -> & Hst & Hk'); try done.
  exists t'. unfold ssh_userauth_kbdint_getnprompts, ssh_userauth_kbdint_getname, ssh_userauth_kbdint_getinstruction.
  rewrite Hk'. destruct (getprompt_spec t' name instruction ps Hk') as (Hget & _ & Hend). by split_and!.
Qed.

(** The answers of a client, an empty text where there is none. *)
Definition answer_texts (k : ssh_kbdint) : list bytes :=
  match kb_answers k with
  | None => replicate (Z.to_nat (nprompts k)) []
  | Some l => map (default []) (take (Z.to_nat (nprompts k)) l)
  end.

Definition answers_text (l : list bytes) : bytes := concat (map lv l).

Lemma pack_answer a s q : sending s q -> zlen a < 2 ^ 32 ->
  exists rc s', pack s "s" [VCstr a] = Some (rc, s') /\ (rc = SSH_OK /\ sending s' (q ++ lv a) \/ rc = SSH_ERROR).
Proof.
  intros Hs Ha. destruct (user_pack s [FCstring a] "s" [VCstr a] q Hs) as (rc & b & E & Hwf & Hr);
    [done|done|done|by repeat constructor|done|].
  rewrite E. do 2 eexists. split; [reflexivity|]. destruct Hr as [[-> Hc]| ->]; [left|by right]. split; [done|].
  exists b. split_and!; [done|done|]. rewrite Hc. unfold fields_encode. cbn [map concat encode]. by rewrite app_nil_r.
Qed.

Lemma pack_answers_none n : forall s q, sending s q ->
  exists rc s', pack_answers n None s = Some (rc, s')
    /\ (rc = SSH_OK /\ sending s' (q ++ answers_text (replicate n [])) \/ rc = SSH_ERROR).
Proof.
  induction n as [|n IH]; intros s q Hs; cbn [pack_answers replicate].
  - do 2 eexists. split; [reflexivity|]. left. by rewrite app_nil_r.
  - cbn [mbind option_bind default from_option id]. destruct (pack_answer [] s q Hs eq_refl) as (rc & s1 & -> & Hr).
    cbn [mbind option_bind]. destruct Hr as [[-> Hs1]| ->]; [|do 2 eexists; split; [reflexivity|by right]].
    change (SSH_OK <? 0) with false. cbv iota. cbn [option_map]. destruct (IH s1 _ Hs1) as (rc & s' & -> & Hr).
    do 2 eexists. split; [reflexivity|]. destruct Hr as [[-> Hs']| ->]; [left|by right]. split; [done|].
    rewrite <- app_assoc in Hs'. exact Hs'.
Qed.

Lemma pack_answers_some n : forall l s q, sending s q -> (n <= length l)%nat ->
  Forall (fun a => zlen (default [] a) < 2 ^ 32) l ->
  exists rc s', pack_answers n (Some l) s = Some (rc, s')
    /\ (rc = SSH_OK /\ sending s' (q ++ answers_text (map (default []) (take n l))) \/ rc = SSH_ERROR).
Proof.
  induction n as [|n IH]; intros l s q Hs Hn Hl; cbn [pack_answers take map].
  - do 2 eexists. split; [reflexivity|]. left. by rewrite app_nil_r.
  - destruct l as [|a l]; [cbn in Hn; lia|]. apply Forall_cons in Hl as [Ha Hl]. cbn [head mbind option_bind].
    destruct (pack_answer (default [] a) s q Hs Ha) as (rc & s1 & -> & Hr).
    cbn [mbind option_bind]. destruct Hr as [[-> Hs1]| ->]; [|do 2 eexists; split; [reflexivity|by right]].
    change (SSH_OK <? 0) with false. cbv iota. cbn [option_map tail].
    destruct (IH l s1 _ Hs1) as (rc & s' & -> & Hr); [cbn in Hn; lia|done|].
    do 2 eexists. split; [reflexivity|]. destruct Hr as [[-> Hs']| ->]; [left|by right]. split; [done|].
    rewrite <- app_assoc in Hs'. exact Hs'.
Qed.

Lemma pack_response_spec k s :
  sending s [] -> (forall l, kb_answers k = Some l -> (Z.to_nat (nprompts k) <= length l)%nat
                    /\ Forall (fun a => zlen (default [] a) < 2 ^ 32) l) ->
  exists rc s', pack_info_response k s = Some (rc, s')
    /\ (rc = SSH_OK /\ sending s' (be_bytes 1 SSH2_MSG_USERAUTH_INFO_RESPONSE ++ be_bytes 4 (nprompts k)
          ++ answers_text (answer_texts k)) \/ rc = SSH_ERROR).
Proof.
  intros Hs Hl. unfold pack_info_response.
  destruct (user_pack s [FByte SSH2_MSG_USERAUTH_INFO_RESPONSE; FDword (nprompts k)] "bd"
    [VInt SSH2_MSG_USERAUTH_INFO_RESPONSE; VInt (nprompts k)] [] Hs) as (rc & b & -> & Hwf & Hr);
    [done|done|done|by repeat constructor|done|]. cbn [mbind option_bind].
  destruct Hr as [[-> Hc]| ->]; [|do 2 eexists; split; [reflexivity|by right]].
  change (SSH_OK <? 0) with false. cbv iota.
  assert (Hb : sending (with_out b s) (contents b)) by by exists b.
  assert (Hr : exists rc s', pack_answers (Z.to_nat (nprompts k)) (kb_answers k) (with_out b s) = Some (rc, s')
    /\ (rc = SSH_OK /\ sending s' (contents b ++ answers_text (answer_texts k)) \/ rc = SSH_ERROR)).
  { unfold answer_texts. destruct (kb_answers k) as [l|]; [|by apply pack_answers_none].
    destruct (Hl l eq_refl) as [Hle Hz]. by apply pack_answers_some. }
  destruct Hr as (rc & s' & -> & Hr). do 2 eexists. split; [reflexivity|]. destruct Hr as [[-> Hs']| ->]; [left|by right].
  split; [done|]. rewrite Hc in Hs'. unfold fields_encode in Hs'. cbn [map concat encode app] in Hs'.
  by rewrite app_nil_r, <- !app_assoc in Hs'.
Qed.

Lemma string_char x : malloc_succeeds -> string_wf x -> zlen (string_text x) <= BUFFER_SIZE_MAX ->
  ssh_string_to_char (Some x) = Some (Some (string_text x ++ [Byte.x00])).
Proof.
  intros Hm Hx Hl. destruct (ssh_string_to_char (Some x)) as [[p|]|] eqn:E.
  - by rewrite (ssh_string_to_char_text x p Hx E).
  - exfalso. unfold ssh_string_to_char in E. pose proof (string_wf_len x Hx) as (Hr & _ & Hd). unfold STRING_SIZE_MAX in Hr.
    rewrite (u64_small (_ + 1)) in E by lia. rewrite (proj2 (Z.ltb_ge _ _)) in E by lia.
    destruct (malloc _) as [blk|] eqn:Hb.
    + apply bind_Some in E as (? & _ & E). by apply bind_Some in E as (? & _ & E).
    + apply Hm in Hb; [done|]. unfold BUFFER_SIZE_MAX. lia.
  - exfalso. unfold ssh_string_to_char in E. pose proof (string_wf_len x Hx) as (Hr & _ & Hd). unfold STRING_SIZE_MAX in Hr.
    rewrite (u64_small (_ + 1)) in E by lia. rewrite (proj2 (Z.ltb_ge _ _)) in E by lia.
    destruct (malloc _) as [blk|] eqn:Hb; [|done]. apply malloc_zlen in Hb; [|lia].
    rewrite memcpy_ok in E by zlen_lia. cbn [mbind option_bind] in E. by rewrite memcpy_ok in E by zlen_lia.
Qed.

Lemma read_answers_spec l : forall t rest,
  malloc_succeeds -> receiving t (answers_text l ++ rest) -> Forall is_cstr l ->
  exists t', read_answers (length l) t = Some (Some (map Some l), t') /\ receiving t' rest /\ ua (base t') = ua (base t).
Proof.
  induction l as [|a l IH]; intros t rest Hm Ht Hl; cbn [length map read_answers].
  - by exists t.
  - apply Forall_cons in Hl as [Ha Hl]. destruct Ht as (b & Hb & Hwf & Hc). cbn [pl_in users user_packets]. rewrite Hb.
    cbn [mbind option_bind]. unfold answers_text in Hc. cbn [map concat] in Hc. rewrite <- app_assoc in Hc.
    pose proof (contents_max b Hwf) as Hmax. rewrite Hc, zlen_app, zlen_lv in Hmax.
    destruct (get_ssh_string_lv Hm b a _ Hwf Hc) as (x & b' & -> & Hwf' & _ & Hc' & Hx & Hxt). cbn [mbind option_bind].
    pose proof (zlen_nonneg (concat (map lv l) ++ rest)).
    rewrite string_char by (done || rewrite Hxt; lia). cbn [mbind option_bind].
    rewrite Hxt. unfold text_of. rewrite strlen_cstr by done. cbn [mbind option_bind].
    rewrite ztake_app_le, ztake_all by zlen_lia. change (set_base _ _) with (with_in b' t).
    destruct (IH (with_in b' t) rest Hm) as (t' & -> & Ht' & Hu); [by exists b'|done|]. cbn [mbind option_bind option_map].
    by exists t'.
Qed.

(** What a server does with a response: the structure of the session gets the answers,
    and the message that announces them is queued. *)
Definition queue_answers callbacks message_callback disconnect enqueue (k : ssh_kbdint) (l : list bytes) s : run (Z * cs) :=
  s ← ssh_message_queue callbacks message_callback disconnect enqueue
        (set_kbdint (Some (mk_kbdint (nprompts k) (zlen l) (kb_name k) (kb_instruction k) (kb_prompts k) (kb_echo k)
                             (Some (map Some l)))) s)
        (AuthMessage (mk_auth_request _ _ None SSH_AUTH_METHOD_INTERACTIVE None None SSH_PUBLICKEY_STATE_NONE true));
  Some (SSH_PACKET_USED, s).

Lemma info_response_spec callbacks message_callback disconnect enqueue t type k l :
  malloc_succeeds -> (forall l, bignum_bin2bn l <> None) -> kbdint (auth t) = Some k -> kb_answers k = None ->
  Forall is_cstr l -> zlen l <= KBDINT_MAX_PROMPT -> receiving t (be_bytes 4 (zlen l) ++ answers_text l) ->
  exists t', ssh_packet_userauth_info_response callbacks message_callback disconnect enqueue t type
      = queue_answers callbacks message_callback disconnect enqueue k l t' /\ ua (base t') = ua (base t).
Proof.
  intros Hm Hbn Hk Hka Hl Hmax Ht. unfold ssh_packet_userauth_info_response. rewrite message_memory_ok by done. cbn [negb].
  destruct (user_unpack t [FDword (zlen l)] "d" [UPtr] (answers_text l) Hm Hbn) as (os & b & -> & Hos & Hwf & Hc);
    [|done|done|done|by repeat constructor|done|done|].
  { unfold fields_encode. cbn [map concat encode]. by rewrite app_nil_r. }
  cbn [mbind option_bind]. change (negb (SSH_OK =? SSH_OK)) with false. cbv iota.
  unfold fresh_answers. change (auth (with_in b t)) with (auth t). rewrite Hk, Hka. cbn [some mbind option_bind].
  pose proof (zlen_nonneg l). unfold KBDINT_MAX_PROMPT in *.
  rewrite (holds_dword _ _ 0 (zlen l) 0 Hos eq_refl), (proj2 (Z.ltb_ge _ _)) by lia.
  rewrite calloc_array_ok by (done || unfold BUFFER_SIZE_MAX; lia).
  destruct (read_answers_spec l (with_in b t) [] Hm) as (t' & E & _ & Hu); [rewrite app_nil_r; by exists b|done|].
  replace (Z.to_nat (zlen l)) with (length l) by (unfold zlen; lia). rewrite E. cbn [mbind option_bind].
  exists t'. split; [|exact Hu]. unfold queue_answers. done.
Qed.

(** (C9) The answers of a client reach the server: when the response is made, a server that
    asked and holds no answers yet has, when its application is told, as many answers as
    the client was asked for, each the text the client gave, or the empty text where it
    gave none. *)
Theorem answers_reach_server k s :
  malloc_succeeds -> (forall l, bignum_bin2bn l <> None) -> 0 <= nprompts k <= KBDINT_MAX_PROMPT -> sending s [] ->
  (forall l, kb_answers k = Some l -> zlen l = nprompts k /\ Forall (fun a => is_cstr (default [] a) /\ zlen (default [] a) < 2 ^ 32) l) ->
  exists rc s', pack_info_response k s = Some (rc, s')
    /\ (rc = SSH_ERROR \/ exists msg, sending s' (be_bytes 1 SSH2_MSG_USERAUTH_INFO_RESPONSE ++ msg)
        /\ forall (t : cs) callbacks message_callback disconnect enqueue k0, receiving t msg ->
           kbdint (auth t) = Some k0 -> kb_answers k0 = None ->
           exists t', ua (base t') = ua (base t)
             /\ ssh_packet_userauth_info_response callbacks message_callback disconnect enqueue t SSH2_MSG_USERAUTH_INFO_RESPONSE
                = queue_answers callbacks message_callback disconnect enqueue k0 (answer_texts k) t'
             /\ zlen (answer_texts k) = nprompts k).
Proof.
  intros Hm Hbn Hn Hs Hk. destruct (pack_response_spec k s Hs) as (rc & s' & -> & Hr).
  { intros l Hl. destruct (Hk l Hl) as [Hz Hf]. split; [unfold zlen in Hz; lia|]. eapply Forall_impl; [exact Hf|]. by intros a [_ ?]. }
  assert (Hz : zlen (answer_texts k) = nprompts k).
  { unfold answer_texts. destruct (kb_answers k) as [l|]; unfold zlen.
    - destruct (Hk l eq_refl) as [Hz _]. rewrite length_map, length_take. unfold zlen in Hz. lia.
    - rewrite length_replicate. lia. }
  assert (Hcs : Forall is_cstr (answer_texts k)).
  { unfold answer_texts. destruct (kb_answers k) as [l|].
    - destruct (Hk l eq_refl) as [_ Hf]. apply Forall_fmap, Forall_take. eapply Forall_impl; [exact Hf|]. by intros a [? _].
    - apply Forall_replicate. apply (bool_decide_eq_true_1 (is_cstr _)). reflexivity. }
  do 2 eexists. split; [reflexivity|]. destruct Hr as [[-> Hs']| ->]; [right|by left].
  eexists. split; [exact Hs'|]. intros t cbs mcb disc enq k0 Ht Hk0 Ha.
  destruct (info_response_spec cbs mcb disc enq t SSH2_MSG_USERAUTH_INFO_RESPONSE k0 (answer_texts k))
    as (t' & -> & Hu); try done; [lia|by rewrite Hz|].
  by exists t'.
Qed.
End AuthFacts.

(** ** Two ends of a session *)

Module AuthDemo.
#[local] Existing Instance calloc_allocator.
#[local] Existing Instance N_bignum.
#[local] Existing Instance Demo.random.
#[local] Instance keys : KeyLib := PkiDemo.lib true.
#[local] Instance hmacs : HmacLib := Demo.hmac true.

Definition new_keys (s : session Z (@prng Demo.random) handshake) (d : Z) : run (Z * session Z (@prng Demo.random) handshake) :=
  Some (0, s).
Definition rekex (s : session Z (@prng Demo.random) handshake) : run (Z * session Z (@prng Demo.random) handshake) := Some (0, s).
Definition alive (s : session Z (@prng Demo.random) handshake) : bool := true.
#[export] Instance layer : PacketLayer (user_layer Z) := user_packets new_keys rekex alive.

Definition id : bytes := zrep 32 Byte.x55.
Definition crypto : ssh_crypto Z :=
  mk_crypto SSH_DIRECTION_BOTH (Some (mk_cipher Demo.xor_ops 0 0 0 0)) (Some (mk_cipher Demo.xor_ops 0 0 0 0))
    SSH_HMAC_SHA256 SSH_HMAC_SHA256 true true (zrep 32 Byte.x01) (zrep 32 Byte.x01)
    (zrep 64 Byte.x00) 32 (Some id).

Definition proto_at (client : bool) (st : ssh_auth_state_e) : proto :=
  mkProto client (negb client) 0 SSH_SESSION_STATE_AUTHENTICATING DH_STATE_FINISHED SSH_CHANNEL_REQ_STATE_NONE
    SSH_AUTH_SERVICE_ACCEPTED st.

(** A client or a server with an incoming packet. *)
Definition at_packet (client : bool) (st : ssh_auth_state_e) (methods : Z) (k : option ssh_kbdint) (packet : bytes)
    : csession (user_layer Z) :=
  mk_cs (mk_user
      (mk_session (proto_at client st) (Some (Demo.buffer_of packet)) (Some zero_buffer) [] PACKET_STATE_INIT (mk_packet 0 0 0)
         3 3 (Some crypto) None None 0 0 (mk_timestamp 0 0) (mk_timestamp 0 0) zero_buffer tt
         (KexDemo.hs KexDemo.client_lists KexDemo.server_lists))
      (mk_userauth methods SSH_AUTH_METHOD_UNKNOWN SSH_PENDING_CALL_NONE k None (Some (cstr "alice")) None 0
         (mk_compression false false false false)))
    ∅ None 0 0 0.

Definition client : csession (user_layer Z) := at_packet true SSH_AUTH_STATE_NONE 0 None [].
Definition server (packet : bytes) : csession (user_layer Z) := at_packet false SSH_AUTH_STATE_NONE 0 None packet.

Lemma receives client st m k packet : zlen packet <= BUFFER_SIZE_MAX -> receiving (at_packet client st m k packet) packet.
Proof. intros Hl. exists (Demo.buffer_of packet). split; [done|]. by apply Demo.buffer_of_wf. Qed.

Lemma empty_out client st m k packet : sending (at_packet client st m k packet) [].
Proof. exists zero_buffer. split_and!; [done|apply zero_buffer_wf|done]. Qed.

Definition after {A} (s : csession (user_layer Z)) (x : run (A * csession (user_layer Z))) : csession (user_layer Z) :=
  match x with Some (_, s) => s | None => s end.
Definition signed := after client (publickey_packet false (cstr "alice") (cstr "ssh-ed25519") PkiDemo.ed_priv client).
Lemma signed_eq : publickey_packet false (cstr "alice") (cstr "ssh-ed25519") PkiDemo.ed_priv client = Some (true, signed).
Proof. vm_compute. reflexivity. Qed.

(** An application that lets the owner of any key in. *)
Definition accept (s : csession (user_layer Z)) (u : option bytes) (k : option ssh_key) (st : ssh_publickey_state_e)
    : run (Z * csession (user_layer Z)) := Some (SSH_AUTH_SUCCESS, s).
Definition callbacks : @ssh_server_callbacks N_bignum keys Demo.random Z := mk_server_callbacks None None (Some accept) None.
End AuthDemo.

#[local] Existing Instance calloc_allocator.
#[local] Existing Instance N_bignum.
#[local] Existing Instance Demo.random.
#[local] Existing Instance AuthDemo.keys.
#[local] Existing Instance AuthDemo.hmacs.
#[local] Existing Instance AuthDemo.layer.

(** Alice signs, and the server's application is asked for her with a proved key. *)
Lemma publickey_login_accepted_witness :
  exists msg key t', sending AuthDemo.signed (be_bytes 1 SSH2_MSG_USERAUTH_REQUEST ++ msg)
    /\ key_pair PkiDemo.ed_priv key
    /\ ssh_packet_userauth_request false (Some AuthDemo.callbacks) None Some (fun s _ => Some s) (AuthDemo.server msg)
         SSH2_MSG_USERAUTH_REQUEST
       = ask_pubkey AuthDemo.new_keys AuthDemo.rekex AuthDemo.alive AuthDemo.accept (cstr "alice") key t'.
Proof.
  destruct (publickey_login_accepted
    AuthDemo.new_keys AuthDemo.rekex AuthDemo.alive false (cstr "alice") (cstr "ssh-ed25519") PkiDemo.ed_priv
    AuthDemo.client AuthDemo.signed Current AuthDemo.crypto AuthDemo.id PkiDemo.calloc_works)
    as (msg & md & Hs & _ & Hall).
  - discriminate.
  - discriminate.
  - by eapply (@host_ed25519 N_bignum AuthDemo.keys _ PkiDemo.seed).
  - reflexivity.
  - intros pub Hp. inversion Hp as [|? ? seed Ht Ht' Hpr Hseed Hpt]; [done|]; subst. unfold pki_key_to_pkey. rewrite Ht', Hpr, Hpt. discriminate.
  - apply (bool_decide_eq_true_1 (is_cstr _)). reflexivity.
  - apply (bool_decide_eq_true_1 (is_cstr _)). reflexivity.
  - reflexivity.
  - reflexivity.
  - reflexivity.
  - reflexivity.
  - reflexivity.
  - vm_compute. by split.
  - apply AuthDemo.empty_out.
  - apply AuthDemo.signed_eq.
  - destruct (Hall (AuthDemo.server msg) Current AuthDemo.crypto AuthDemo.callbacks AuthDemo.accept None Some
      (fun s _ => Some s)) as (key & t' & Hk & He); [|reflexivity|reflexivity|reflexivity|discriminate|reflexivity|].
    + apply AuthDemo.receives. destruct Hs as (b & _ & Hwf & Hc). pose proof (contents_max b Hwf) as Hm. rewrite Hc in Hm.
      rewrite zlen_app in Hm. change (zlen (be_bytes 1 SSH2_MSG_USERAUTH_REQUEST)) with 1 in Hm. lia.
    + by exists msg, key, t'.
Defined.

Lemma receives_rest (s : csession (user_layer Z)) t q client st m k :
  sending s (be_bytes 1 t ++ q) -> receiving (AuthDemo.at_packet client st m k q) q.
Proof.
  intros (b & _ & Hwf & Hc). apply AuthDemo.receives. pose proof (contents_max b Hwf) as Hm. rewrite Hc, zlen_app, zlen_be_bytes in Hm.
  lia.
Qed.

(** A server that offers public keys and passwords. *)
Lemma refusal_lists_methods_witness :
  let s := AuthDemo.at_packet false SSH_AUTH_STATE_NONE 6 None [] in
  (exists s', ssh_auth_reply_default s true = Some (SSH_ERROR, s'))
  \/ exists s1 msg t', ssh_auth_reply_default s true = ssh_packet_send s1
     /\ sending s1 (be_bytes 1 SSH2_MSG_USERAUTH_FAILURE ++ msg)
     /\ ssh_packet_userauth_failure (AuthDemo.at_packet true SSH_AUTH_STATE_NONE 0 None msg) SSH2_MSG_USERAUTH_FAILURE
        = Some (SSH_PACKET_USED, t')
     /\ ssh_userauth_list t' = 6 /\ astate t' = SSH_AUTH_STATE_PARTIAL.
Proof.
  intros s. destruct (refusal_lists_methods AuthDemo.new_keys AuthDemo.rekex AuthDemo.alive s true PkiDemo.calloc_works)
    as [_ Hr]; [discriminate|apply AuthDemo.empty_out|].
  destruct Hr as [|(s1 & msg & He & Hs & Hall)]; [discriminate|by left|right].
  destruct (Hall (AuthDemo.at_packet true SSH_AUTH_STATE_NONE 0 None msg) SSH2_MSG_USERAUTH_FAILURE) as (t' & Ht & Hm & _ & Ha);
    [by eapply receives_rest|].
  exists s1, msg, t'. by split_and!.
Defined.

Lemma prompts_reach_client_witness :
  let ps := [(cstr "Password: ", 0); (cstr "Token: ", 1)] in
  exists rc s', pack_info_request (cstr "login") (cstr "two factors") (map fst ps) (map snd ps) (AuthDemo.server []) = Some (rc, s')
    /\ (rc = SSH_ERROR \/ exists msg t', sending s' (be_bytes 1 SSH2_MSG_USERAUTH_INFO_REQUEST ++ msg)
        /\ ssh_packet_userauth_pk_ok (AuthDemo.at_packet true SSH_AUTH_STATE_KBDINT_SENT 0 None msg) SSH2_MSG_USERAUTH_INFO_REQUEST
           = Some (SSH_PACKET_USED, t')
        /\ ssh_userauth_kbdint_getprompt 1 true t' = Some (Some (cstr "Token: "), Some 1)
        /\ ssh_userauth_kbdint_getprompt 2 true t' = None).
Proof.
  intros ps. destruct (prompts_reach_client AuthDemo.new_keys AuthDemo.rekex AuthDemo.alive (cstr "login") (cstr "two factors") ps
    (AuthDemo.server []) PkiDemo.calloc_works) as (rc & s' & He & Hr);
    [discriminate|by apply (bool_decide_eq_true_1 (is_cstr _))..|reflexivity|reflexivity| |vm_compute; discriminate
    |apply AuthDemo.empty_out|].
  { repeat constructor; by apply (bool_decide_eq_true_1 (is_cstr _)). }
  exists rc, s'. split; [exact He|]. destruct Hr as [?|(msg & Hs & Hall)]; [by left|right].
  destruct (Hall (AuthDemo.at_packet true SSH_AUTH_STATE_KBDINT_SENT 0 None msg)) as (t' & Ht & _ & _ & _ & _ & Hget & Hend);
    [by eapply receives_rest|reflexivity|reflexivity|].
  exists msg, t'. split_and!; [done|done|exact (Hget 1%nat _ _ eq_refl)|apply (Hend true)].
Defined.

Definition asked : ssh_kbdint :=
  mk_kbdint 2 2 (Some (cstr "login")) None (Some [Some (cstr "Password: "); Some (cstr "Token: ")]) (Some [0; 1]) None.
Definition answering : ssh_kbdint := set_answers [Some (cstr "secret"); None] asked.

Lemma answers_reach_server_witness :
  exists rc s', pack_info_response answering AuthDemo.client = Some (rc, s')
    /\ (rc = SSH_ERROR \/ exists msg t', sending s' (be_bytes 1 SSH2_MSG_USERAUTH_INFO_RESPONSE ++ msg)
        /\ ssh_packet_userauth_info_response (Some AuthDemo.callbacks) None Some (fun s _ => Some s)
             (AuthDemo.at_packet false SSH_AUTH_STATE_INFO 0 (Some asked) msg) SSH2_MSG_USERAUTH_INFO_RESPONSE
           = queue_answers AuthDemo.new_keys AuthDemo.rekex AuthDemo.alive (Some AuthDemo.callbacks) None Some (fun s _ => Some s)
               asked [cstr "secret"; []] t').
Proof.
  destruct (answers_reach_server AuthDemo.new_keys AuthDemo.rekex AuthDemo.alive answering AuthDemo.client PkiDemo.calloc_works)
    as (rc & s' & He & Hr); [discriminate|vm_compute; split; discriminate|apply AuthDemo.empty_out| |].
  { intros l [= <-]. split; [reflexivity|]. repeat constructor; by apply (bool_decide_eq_true_1 (is_cstr _)). }
  exists rc, s'. split; [exact He|]. destruct Hr as [?|(msg & Hs & Hall)]; [by left|right].
  destruct (Hall (AuthDemo.at_packet false SSH_AUTH_STATE_INFO 0 (Some asked) msg) (Some AuthDemo.callbacks) None Some
    (fun s _ => Some s) asked) as (t' & _ & Ht & _); [by eapply receives_rest|reflexivity|reflexivity|].
  by exists msg, t'.
Defined.
