(* ===== verification/AuthSafe.v ===== *)
(** * Authentication: what makes a session authenticated

    Through every path of a server that answers requests with its callbacks, the
    flag of the session is set only after the application accepted, and for a public
    key only after a signature was verified; what a client does with messages
    that are not what it waits for. *)

From stdpp Require Import gmap.
From S2P Require Import Prelude SshString Buffer Bignum BufferPack Token Session Misc Crypto Packet.
From S2P Require Import SendFacts PacketRecv Kex Pki Channel ChannelFlow UserAuth AuthServer AuthFacts.

(** ** Functions that do not touch a field *)

(** The states [x] can return have the value of [p] that [s] has. *)
Definition keeps {S A B} (p : S -> B) (s : S) (x : run (A * S)) : Prop := forall a s', x = Some (a, s') -> p s' = p s.

Lemma keeps_bind {S A C B} (p : S -> B) s (x : run (A * S)) (k : A * S -> run (C * S)) :
  keeps p s x -> (forall a s1, keeps p s1 (k (a, s1))) -> keeps p s (y ← x; k y).
Proof. intros Hx Hk c s' Hs. apply bind_Some in Hs as ([a s1] & Ha & Hs). rewrite (Hk a s1 c s' Hs). by apply (Hx a). Qed.

Lemma keeps_return {S A B} (p : S -> B) s (a : A) s' : p s' = p s -> keeps p s (Some (a, s')).
Proof. by intros Hp ? ? [= _ <-]. Qed.

Lemma keeps_ext {S A B} (p : S -> B) s s1 (x : run (A * S)) : p s1 = p s -> keeps p s1 x -> keeps p s x.
Proof. intros Hp Hx a s' Hs. rewrite <- Hp. by apply (Hx a). Qed.

(** The field of the protocol state that is kept. *)
Definition view {K R X B} (part : proto -> B) (s : session K R X) : B := part (proto_of s).

Section Server.
Context `{Allocator} `{KeyLib} `{HmacLib} `{RandomLib} {K : Type}.
Variable set_newkeys : session K prng handshake -> Z -> run (Z * session K prng handshake).
Variable send_rekex : session K prng handshake -> run (Z * session K prng handshake).
Variable session_alive : session K prng handshake -> bool.
#[local] Instance server_layer : PacketLayer (user_layer K) := user_packets set_newkeys send_rekex session_alive.
#[local] Abbreviation cs := (csession (user_layer K)).
Implicit Type s : cs.

(** The flags of the session, [SSH_SESSION_FLAG_AUTHENTICATED] among them. *)
Definition session_flags s : Z := flags (proto_of (lower (base s))).

Hypothesis newkeys_keep : forall x d, keeps (view flags) x (set_newkeys x d).
Hypothesis rekex_keep : forall x, keeps (view flags) x (send_rekex x).

#[local] Instance same_flags : PreOrder (fun p p' : proto => flags p' = flags p).
Proof. split; [by intros ?|]. intros p q r Hpq Hqr. by rewrite Hqr. Qed.

Lemma send_flags s : keeps session_flags s (ssh_packet_send s).
Proof.
  intros a s' Hx. unfold ssh_packet_send in Hx. apply bind_Some in Hx as ([rc l] & Hl & Hx). injection Hx as <- <-.
  cbn [pl_send server_layer user_packets] in Hl. apply bind_Some in Hl as ([rc' s1] & Hs & Hl). injection Hl as <- <-.
  by apply (send_within (fun p p' => flags p' = flags p) set_newkeys send_rekex newkeys_keep rekex_keep) in Hs.
Qed.

Lemma pack_flags s fmt args : keeps session_flags s (pack s fmt args).
Proof.
  intros a s' Hx. unfold pack in Hx. apply bind_Some in Hx as (b & _ & Hx). apply bind_Some in Hx as ([rc b'] & _ & Hx).
  by injection Hx as <- <-.
Qed.

Lemma pack_send_flags s fmt args : keeps session_flags s
  ('(rc, s) ← pack s fmt args; if negb (rc =? SSH_OK) then Some (SSH_ERROR, s) else ssh_packet_send s).
Proof.
  apply (keeps_bind session_flags s (pack s fmt args)); [apply pack_flags|]. intros rc s1.
  destruct (negb _); [by apply keeps_return|apply send_flags].
Qed.

Lemma reply_default_flags s partial : keeps session_flags s (ssh_auth_reply_default s partial).
Proof.
  unfold ssh_auth_reply_default. set (s0 := if auth_methods (auth s) =? 0 then _ else s).
  apply (keeps_ext session_flags s s0); [unfold s0; by case_match|]. destruct (negb _); [by apply keeps_return|].
  apply pack_send_flags.
Qed.

Lemma pk_ok_flags s r : keeps session_flags s (ssh_message_auth_reply_pk_ok_simple s r).
Proof.
  intros a s' Hx. unfold ssh_message_auth_reply_pk_ok_simple in Hx. apply bind_Some in Hx as (key & _ & Hx).
  apply bind_Some in Hx as (algo & _ & Hx). destruct algo; [|by injection Hx as <- <-].
  apply bind_Some in Hx as ([rc blob] & _ & Hx). destruct (rc <? 0); [by injection Hx as <- <-|].
  by apply pack_send_flags in Hx.
Qed.

(** The application's functions, which do not reach into the session for it. *)
Record obliging (cb : ssh_server_callbacks) : Prop := {
  ob_password : forall f s u w, auth_password_function cb = Some f -> keeps session_flags s (f s u w);
  ob_none : forall f s u, auth_none_function cb = Some f -> keeps session_flags s (f s u);
  ob_pubkey : forall f s u k st, auth_pubkey_function cb = Some f -> keeps session_flags s (f s u k st)
}.

Lemma reply_refused s rc msg a s' : rc <> SSH_AUTH_SUCCESS -> reply_success s rc (AuthMessage msg) = Some (a, s') ->
  session_flags s' = session_flags s.
Proof.
  intros Hrc Hx. unfold reply_success in Hx. apply bind_Some in Hx as ([a' s1] & Hy & Hx). injection Hx as <- <-.
  destruct (success_or_partial rc) eqn:Es; [|by apply reply_default_flags in Hy].
  unfold success_or_partial in Es. rewrite (proj2 (Z.eqb_neq _ _)) in Es by done. cbn [orb] in Es. rewrite Es in Hy.
  by apply reply_default_flags in Hy.
Qed.

(** The flags change only after the application said that the user is in, and never
    for a key whose possession was not proved. *)
Lemma request_flags disconnect cb s r a s' :
  obliging cb -> ssh_execute_server_request disconnect cb s (AuthMessage r) = Some (a, s') -> session_flags s' <> session_flags s ->
  (req_method r = SSH_AUTH_METHOD_PASSWORD /\ exists f s1, auth_password_function cb = Some f
     /\ f s (req_username r) (req_password r) = Some (SSH_AUTH_SUCCESS, s1))
  \/ (req_method r = SSH_AUTH_METHOD_PUBLICKEY /\ signature_state r <> SSH_PUBLICKEY_STATE_NONE
     /\ exists f s1, auth_pubkey_function cb = Some f
     /\ f s (req_username r) (req_pubkey r) (signature_state r) = Some (SSH_AUTH_SUCCESS, s1))
  \/ (req_method r = SSH_AUTH_METHOD_NONE /\ exists f s1, auth_none_function cb = Some f
     /\ f s (req_username r) = Some (SSH_AUTH_SUCCESS, s1)).
Proof.
  intros Hob Hx Hne. unfold ssh_execute_server_request in Hx.
  destruct (Z.eqb_spec (req_method r) SSH_AUTH_METHOD_PASSWORD) as [Em|_];
    [destruct (auth_password_function cb) as [f|] eqn:Ef|].
  - apply bind_Some in Hx as ([rc s1] & Hf & Hx). left. split; [done|]. exists f, s1. split; [done|].
    destruct (Z.eq_dec rc SSH_AUTH_SUCCESS) as [->|Hrc]; [done|]. destruct Hne.
    rewrite (reply_refused _ _ _ _ _ Hrc Hx). by apply (ob_password _ Hob _ _ _ _ Ef) in Hf.
  - rewrite Em in Hx. change (SSH_AUTH_METHOD_PASSWORD =? SSH_AUTH_METHOD_PUBLICKEY) with false in Hx.
    change (SSH_AUTH_METHOD_PASSWORD =? SSH_AUTH_METHOD_NONE) with false in Hx. by injection Hx as <- <-.
  - destruct (Z.eqb_spec (req_method r) SSH_AUTH_METHOD_PUBLICKEY) as [Em|_];
      [destruct (auth_pubkey_function cb) as [f|] eqn:Ef|].
    + apply bind_Some in Hx as ([rc s1] & Hf & Hx). pose proof Hf as Hk. apply (ob_pubkey _ Hob _ _ _ _ _ Ef) in Hk.
      right; left. split; [done|]. destruct (bool_decide (signature_state r = _)) eqn:Es; cbn [negb] in Hx.
      * destruct Hne. apply bind_Some in Hx as ([a' s2] & Hy & Hx). injection Hx as <- <-. rewrite <- Hk.
        destruct (rc =? SSH_AUTH_SUCCESS); [by apply pk_ok_flags in Hy|by apply reply_default_flags in Hy].
      * apply bool_decide_eq_false in Es. split; [done|]. exists f, s1. split; [done|].
        destruct (Z.eq_dec rc SSH_AUTH_SUCCESS) as [->|Hrc]; [done|]. destruct Hne.
        by rewrite (reply_refused _ _ _ _ _ Hrc Hx).
    + rewrite Em in Hx. change (SSH_AUTH_METHOD_PUBLICKEY =? SSH_AUTH_METHOD_NONE) with false in Hx. by injection Hx as <- <-.
    + destruct (Z.eqb_spec (req_method r) SSH_AUTH_METHOD_NONE) as [Em|_];
        [destruct (auth_none_function cb) as [f|] eqn:Ef|]; [|by injection Hx as <- <-..].
      apply bind_Some in Hx as ([rc s1] & Hf & Hx). right; right. split; [done|]. exists f, s1. split; [done|].
      destruct (Z.eq_dec rc SSH_AUTH_SUCCESS) as [->|Hrc]; [done|]. destruct Hne.
      rewrite (reply_refused _ _ _ _ _ Hrc Hx). by apply (ob_none _ Hob _ _ _ Ef) in Hf.
Qed.

Lemma unpack_flags s fmt args rc os s' : unpack s fmt args = Some (rc, os, s') -> session_flags s' = session_flags s.
Proof.
  intros Hx. unfold unpack in Hx. apply bind_Some in Hx as (b & _ & Hx). apply bind_Some in Hx as ([[[? ?] ?] ?] & _ & Hx).
  by injection Hx as <- <- <-.
Qed.

Lemma parse_flags fips s : keeps session_flags s (parse_userauth_request fips s).
Proof.
  intros r s' Hx. unfold parse_userauth_request in Hx. destruct (negb message_memory); [by injection Hx as <- <-|].
  apply bind_Some in Hx as ([[rc os] s1] & Hu & Hx). apply unpack_flags in Hu. rewrite <- Hu.
  destruct (negb _); [by injection Hx as <- <-|]. apply bind_Some in Hx as (user & _ & Hx).
  apply bind_Some in Hx as (service & _ & Hx). apply bind_Some in Hx as (method & _ & Hx).
  destruct (negb _); [by injection Hx as <- <-|]. destruct (bool_decide _); [by injection Hx as <- <-|].
  destruct (bool_decide _).
  { apply bind_Some in Hx as ([[rc' os'] s2] & Hu' & Hx). apply unpack_flags in Hu'. rewrite <- Hu'.
    destruct (negb _); [by injection Hx as <- <-|]. apply bind_Some in Hx as (w & _ & Hx). by injection Hx as <- <-. }
  destruct (bool_decide _).
  { apply bind_Some in Hx as (p & _ & Hx). apply bind_Some in Hx as ([lang p1] & _ & Hx).
    destruct (negb _); [by injection Hx as <- <-|]. apply bind_Some in Hx as ([sub p2] & _ & Hx). by injection Hx as <- <-. }
  destruct (bool_decide _); [|by injection Hx as <- <-]. unfold parse_publickey in Hx.
  apply bind_Some in Hx as ([[rc' os'] s2] & Hu' & Hx). apply unpack_flags in Hu'. rewrite <- Hu'.
  destruct (negb _); [by injection Hx as <- <-|]. apply bind_Some in Hx as (key & _ & Hx).
  destruct key; [|by injection Hx as <- <-]. destruct (_ =? 0); [by injection Hx as <- <-|].
  apply bind_Some in Hx as (p & _ & Hx). apply bind_Some in Hx as ([sig p1] & _ & Hx).
  destruct sig; [|by injection Hx as <- <-]. apply bind_Some in Hx as (d & _ & Hx).
  destruct d; [|by injection Hx as <- <-]. apply bind_Some in Hx as (rc'' & _ & Hx). by injection Hx as _ <-.
Qed.

Lemma queue_flags cb disconnect enqueue s r s' :
  obliging cb -> ssh_message_queue (Some cb) None disconnect enqueue s (AuthMessage r) = Some s' ->
  session_flags s' <> session_flags s ->
  exists a s1, ssh_execute_server_request disconnect cb s (AuthMessage r) = Some (a, s1) /\ session_flags s1 <> session_flags s.
Proof.
  intros Hob Hx Hne. unfold ssh_message_queue, ssh_execute_server_callbacks in Hx.
  apply bind_Some in Hx as ([ret s1] & Hs & Hx). exists ret, s1. split; [done|].
  destruct (ret =? SSH_OK); [by injection Hx as <-|]. cbn [some ssh_message_reply_default] in Hx.
  apply bind_Some in Hx as ([a s2] & Hy & Hx). injection Hx as <-. apply reply_default_flags in Hy. congruence.
Qed.

(** (C1) Nobody gets in without the application's consent, and by a public key not without
    proof: when the handler of a request, whatever the client sent, changes the flags of
    a session whose server answers with callbacks, then the request was parsed, a
    function of the application returned success for the user it names, and for the
    method publickey the library had been given the key of the request, a text
    that begins with the identifier of the session and names that user and that key,
    and it had not refused the signature. *)
Theorem authenticated_only_when_accepted fips cb disconnect enqueue s q slot c id type rc s' :
  obliging cb -> receiving s q ->
  ssh_packet_get_current_crypto (lower (base s)) SSH_DIRECTION_IN = Some (slot, c) ->
  session_id c = Some id -> digest_len c = zlen id -> zlen id < 2 ^ 32 ->
  ssh_packet_userauth_request fips (Some cb) None disconnect enqueue s type = Some (rc, s') ->
  session_flags s' <> session_flags s ->
  exists r s1, parse_userauth_request fips s = Some (Some r, s1)
  /\ ((req_method r = SSH_AUTH_METHOD_PASSWORD /\ exists f s2, auth_password_function cb = Some f
         /\ f s1 (req_username r) (req_password r) = Some (SSH_AUTH_SUCCESS, s2))
      \/ (req_method r = SSH_AUTH_METHOD_NONE /\ exists f s2, auth_none_function cb = Some f
         /\ f s1 (req_username r) = Some (SSH_AUTH_SUCCESS, s2))
      \/ exists user key f s2 alg blob o, auth_pubkey_function cb = Some f
         /\ f s1 (Some user) (Some key) SSH_PUBLICKEY_STATE_VALID = Some (SSH_AUTH_SUCCESS, s2)
         /\ ssh_pki_export_pubkey_blob (Some key) = Some (SSH_OK, Some blob)
         /\ ssh_pki_signature_verify fips (Some o) (Some key)
              (Some (lv id ++ login_text user (cstr "ssh-connection") alg blob)) = SSH_OK).
Proof.
  intros Hob Hin Hc Hid Hd Hl Hx Hne. unfold ssh_packet_userauth_request in Hx.
  apply bind_Some in Hx as ([r s1] & Hp & Hx). pose proof (parse_flags _ _ _ _ Hp) as Hf1.
  destruct r as [r|]; [|injection Hx as <- <-; congruence]. exists r, s1. split; [done|].
  apply bind_Some in Hx as (s2 & Hq & Hx). injection Hx as <- <-.
  destruct (queue_flags _ _ _ _ _ _ Hob Hq) as (a & s3 & He & Hf3); [congruence|].
  destruct (request_flags _ _ _ _ _ _ Hob He Hf3) as [?|[(Em & Hst & f & s4 & Hf & Hok)|?]]; [by left| |by right; left].
  right; right. destruct (parse_request_inv _ _ _ _ _ _ _ _ _ _ _ Hin Hc Hid Hd Hl Hp) as [|(user & key & alg & blob & o & -> & Hb & Hv)];
    [done|].
  by exists user, key, f, s4, alg, blob, o.
Qed.
End Server.

(** ** Messages of a server that cannot be used *)

Section Waiting.
Context `{Allocator} `{KeyLib} `{HmacLib} `{RandomLib} {K : Type}.
Variable set_newkeys : session K prng handshake -> Z -> run (Z * session K prng handshake).
Variable send_rekex : session K prng handshake -> run (Z * session K prng handshake).
Variable session_alive : session K prng handshake -> bool.
#[local] Instance client_layer : PacketLayer (user_layer K) := user_packets set_newkeys send_rekex session_alive.
#[local] Abbreviation cs := (csession (user_layer K)).
Implicit Type s : cs.

Lemma unpack_any s fmt ws q :
  receiving s q -> Forall want_ok ws -> zlen (wants_args ws) <= 256 -> cstr fmt = wants_format ws ->
  exists rc os b, unpack s fmt (wants_args ws) = Some (rc, os, with_in set_newkeys send_rekex session_alive b s) /\ buffer_wf b
    /\ (rc = SSH_OK /\ Forall slot_ok os /\ Forall2 slot_kind (map letter_of (cstr fmt)) os \/ rc = SSH_ERROR).
Proof.
  intros (b & Hb & Hwf & _) Hok Hn Hf. unfold unpack. cbn [pl_in client_layer user_packets]. rewrite Hb. cbn [mbind option_bind].
  rewrite Hf. destruct (unpack_untrusted_spec b ws Hwf Hok Hn) as (rc & os & fr & b' & E & Hwf' & Hr). rewrite E.
  cbn [mbind option_bind]. do 3 eexists. split; [reflexivity|]. split; [done|].
  destruct Hr as [[-> Hs]|[-> _]]; [left|by right]. split_and!; [done|done|]. by eapply unpack_kinds.
Qed.

Lemma user_cstr_slot ls os i :
  Forall slot_ok os -> Forall2 slot_kind ls os -> ls !! i = Some Ls -> exists t, cstr_slot os i = Some t.
Proof.
  intros Hok Hk Hl. destruct (Forall2_lookup_l _ _ _ _ _ Hk Hl) as (o & Ho & Hs).
  pose proof (proj1 (Forall_lookup _ _) Hok _ _ Ho) as Hso. unfold cstr_slot. rewrite Ho.
  destruct o as [| |[p|]| |]; try done. cbn in Hso. unfold text_of. destruct (strlen p) as [n|]; [|done]. by eexists.
Qed.

Lemma read_prompts_total n : forall s q, receiving s q ->
  exists ok ps es s' q', read_prompts n s = Some (ok, ps, es, s') /\ receiving s' q' /\ ua (base s') = ua (base s)
    /\ proto_of (lower (base s')) = proto_of (lower (base s)).
Proof.
  induction n as [|n IH]; intros s q Hs; cbn [read_prompts].
  - by exists true, [], [], s, q.
  - destruct (unpack_any s "sb" [WLetter "s"%byte; WLetter "b"%byte] q Hs) as (rc & os & b & E & Hwf & Hr);
      [by repeat constructor|done|done|]. change [UPtr; UPtr] with (wants_args [WLetter "s"%byte; WLetter "b"%byte]).
    rewrite E. cbn [mbind option_bind]. destruct Hr as [(-> & Hok & Hk)| ->].
    + change (SSH_OK =? SSH_ERROR) with false. cbv iota. destruct (user_cstr_slot _ os 0 Hok Hk eq_refl) as (p & ->).
      cbn [mbind option_bind]. destruct (IH (with_in set_newkeys send_rekex session_alive b s) (contents b))
        as (ok & ps & es & s' & q' & -> & Hs' & Hu & Hp); [by exists b|]. cbn [mbind option_bind].
      by exists ok, (Some p :: ps), (int_slot os 1 0 :: es), s', q'.
    + change (SSH_ERROR =? SSH_ERROR) with true. cbv iota. eexists false, [], [], _, (contents b). by split_and!; [|exists b|..].
Qed.

(** The handler of a request for answers returns, whatever it is given. *)
Lemma info_request_total s q type : receiving s q -> kbdint (auth s) = None ->
  exists s', ssh_packet_userauth_info_request s type = Some (SSH_PACKET_USED, s')
    /\ (astate s' = SSH_AUTH_STATE_INFO /\ is_Some (kbdint (auth s'))
        \/ proto_of (lower (base s')) = proto_of (lower (base s)) /\ kbdint (auth s') = None).
Proof.
  intros Hs Hk. unfold ssh_packet_userauth_info_request. rewrite Hk. cbn [some].
  assert (Hdrop : forall s1, proto_of (lower (base s1)) = proto_of (lower (base s)) ->
    exists s', Some (SSH_PACKET_USED, set_kbdint None s1) = Some (SSH_PACKET_USED, s')
      /\ (astate s' = SSH_AUTH_STATE_INFO /\ is_Some (kbdint (auth s'))
          \/ proto_of (lower (base s')) = proto_of (lower (base s)) /\ kbdint (auth s') = None)).
  { intros s1 Hp. eexists. split; [reflexivity|]. by right. }
  cbn [mbind option_bind]. destruct ssh_kbdint_new as [k|]; [|by apply Hdrop].
  destruct (unpack_any s "ssSd" [WLetter "s"%byte; WLetter "s"%byte; WLetter "S"%byte; WLetter "d"%byte] q Hs)
    as (rc & os & b & E & Hwf & Hr); [by repeat constructor|done|done|].
  change [UPtr; UPtr; UPtr; UPtr] with (wants_args [WLetter "s"%byte; WLetter "s"%byte; WLetter "S"%byte; WLetter "d"%byte]).
  rewrite E. cbn [mbind option_bind]. destruct Hr as [(-> & Hok & Hkd)| ->];
    [change (negb (SSH_OK =? SSH_OK)) with false|change (negb (SSH_ERROR =? SSH_OK)) with true; by apply Hdrop].
  cbv iota. destruct (user_cstr_slot _ os 0 Hok Hkd eq_refl) as (name & ->). cbn [mbind option_bind].
  destruct (user_cstr_slot _ os 1 Hok Hkd eq_refl) as (instruction & ->). cbn [mbind option_bind].
  destruct (_ <? _); [by apply Hdrop|]. destruct (calloc_array _ _ _); [|by apply Hdrop].
  destruct (calloc_array _ _ _); [|by apply Hdrop].
  destruct (read_prompts_total (Z.to_nat (int_slot os 3 0)) (with_in set_newkeys send_rekex session_alive b s) (contents b))
    as (ok & ps & es & s' & q' & -> & _ & _ & Hp); [by exists b|]. cbn [mbind option_bind].
  destruct ok; cbn [negb]; [|by apply Hdrop]. eexists. split; [reflexivity|]. left. by split.
Qed.

(** A request for answers either reaches the application or leaves the client where it
    was: the handler returns on every packet, and unless all the prompts were read the
    state is still the one of a client that waits; without another packet, the
    function that waits for the answer of the server says again, however often it is
    called, although the message was refused as invalid. *)
Theorem bad_prompt_requests_keep_client_waiting s q wait :
  receiving s q -> kbdint (auth s) = None -> astate s = SSH_AUTH_STATE_KBDINT_SENT -> ssh_is_blocking s = false ->
  exists s', ssh_packet_userauth_pk_ok s SSH2_MSG_USERAUTH_INFO_REQUEST = Some (SSH_PACKET_USED, s')
    /\ (astate s' = SSH_AUTH_STATE_INFO /\ is_Some (kbdint (auth s'))
        \/ astate s' = SSH_AUTH_STATE_KBDINT_SENT /\ kbdint (auth s') = None
           /\ ssh_userauth_get_response quiet (S wait) s' = Some (SSH_AUTH_AGAIN, s')).
Proof.
  intros Hs Hk Ha Hb. unfold ssh_packet_userauth_pk_ok. rewrite Ha.
  destruct (info_request_total s q SSH2_MSG_USERAUTH_INFO_REQUEST Hs Hk) as (s' & -> & Hr). exists s'. split; [done|].
  destruct Hr as [?|[Hp Hk']]; [by left|right].
  assert (Ha' : astate s' = SSH_AUTH_STATE_KBDINT_SENT) by (rewrite <- Ha; unfold astate; cbn [pl_proto client_layer user_packets]; by rewrite Hp).
  assert (Hb' : ssh_is_blocking s' = false) by (rewrite <- Hb; unfold ssh_is_blocking; cbn [pl_proto client_layer user_packets]; by rewrite Hp).
  split_and!; [done|done|].
  assert (Ht : ssh_auth_response_termination s' = false) by (unfold ssh_auth_response_termination; by rewrite Ha').
  unfold ssh_userauth_get_response. rewrite quiet_wait by done. rewrite Ht. cbn [mbind option_bind].
  change (SSH_AGAIN =? SSH_ERROR) with false. cbv iota. by rewrite Ht.
Qed.
End Waiting.

(** ** Examples *)

#[local] Existing Instance calloc_allocator.
#[local] Existing Instance N_bignum.
#[local] Existing Instance Demo.random.
#[local] Existing Instance AuthDemo.keys.
#[local] Existing Instance AuthDemo.hmacs.
#[local] Existing Instance AuthDemo.layer.

(** The packet of Alice, and what the server makes of it. *)
Definition alice_packet : bytes :=
  match out_buffer (lower (base AuthDemo.signed)) with Some b => tail (contents b) | None => [] end.
Definition logged_in : csession (user_layer Z) :=
  AuthDemo.after (AuthDemo.server alice_packet)
    (ssh_packet_userauth_request false (Some AuthDemo.callbacks) None Some (fun s _ => Some s) (AuthDemo.server alice_packet)
       SSH2_MSG_USERAUTH_REQUEST).

Lemma authenticated_only_when_accepted_witness :
  session_flags logged_in = SSH_SESSION_FLAG_AUTHENTICATED
  /\ exists user key alg blob o, ssh_pki_export_pubkey_blob (Some key) = Some (SSH_OK, Some blob)
     /\ ssh_pki_signature_verify false (Some o) (Some key)
          (Some (lv AuthDemo.id ++ login_text user (cstr "ssh-connection") alg blob)) = SSH_OK.
Proof.
  assert (Hf : session_flags logged_in = SSH_SESSION_FLAG_AUTHENTICATED) by (vm_compute; reflexivity). split; [exact Hf|].
  destruct (authenticated_only_when_accepted AuthDemo.new_keys AuthDemo.rekex AuthDemo.alive)
    with (fips := false) (cb := AuthDemo.callbacks) (disconnect := Some : csession (user_layer Z) -> option (csession (user_layer Z)))
      (enqueue := fun (s : csession (user_layer Z)) (_ : ssh_message) => Some s) (s := AuthDemo.server alice_packet)
      (q := alice_packet) (slot := Current) (c := AuthDemo.crypto) (id := AuthDemo.id) (type := SSH2_MSG_USERAUTH_REQUEST)
      (rc := SSH_PACKET_USED) (s' := logged_in) as (r & s1 & Hp & Hr).
  - by intros x d a x' [= _ <-].
  - by intros x a x' [= _ <-].
  - constructor; [discriminate|discriminate|]. intros f s u k st [= <-] a s' [= _ <-]. done.
  - apply AuthDemo.receives. vm_compute. discriminate.
  - reflexivity.
  - reflexivity.
  - reflexivity.
  - reflexivity.
  - vm_compute. reflexivity.
  - rewrite Hf. vm_compute. discriminate.
  - destruct Hr as [(_ & f & s2 & Hf' & _)|[(_ & f & s2 & Hf' & _)|(user & key & f & s2 & alg & blob & o & _ & _ & Hb & Hv)]];
      [discriminate|discriminate|].
    exists user, key, alg, blob, o. split; [exact Hb|exact Hv].
Defined.

(** A request that ends after its name. *)
Lemma bad_prompt_requests_keep_client_waiting_witness :
  let s := AuthDemo.at_packet true SSH_AUTH_STATE_KBDINT_SENT 0 None (lv (cstr "login")) in
  exists s', ssh_packet_userauth_pk_ok s SSH2_MSG_USERAUTH_INFO_REQUEST = Some (SSH_PACKET_USED, s')
    /\ (astate s' = SSH_AUTH_STATE_INFO /\ is_Some (kbdint (auth s'))
        \/ astate s' = SSH_AUTH_STATE_KBDINT_SENT /\ kbdint (auth s') = None
           /\ ssh_userauth_get_response quiet 1 s' = Some (SSH_AUTH_AGAIN, s')).
Proof.
  intros s. destruct (bad_prompt_requests_keep_client_waiting AuthDemo.new_keys AuthDemo.rekex AuthDemo.alive s
    (lv (cstr "login")) 0) as (s' & He & Hr);
    [apply AuthDemo.receives; vm_compute; discriminate|reflexivity|reflexivity|reflexivity|].
  exists s'. split; [exact He|exact Hr].
Defined.

(** That one does not reach the application. *)
Example short_request_waits :
  option_map (fun '(_, s) => (astate s, kbdint (auth s)))
    (ssh_packet_userauth_pk_ok (AuthDemo.at_packet true SSH_AUTH_STATE_KBDINT_SENT 0 None (lv (cstr "login")))
       SSH2_MSG_USERAUTH_INFO_REQUEST) = Some (SSH_AUTH_STATE_KBDINT_SENT, None).
Proof. vm_compute. reflexivity. Qed.
