(* ===== verification/Sftp.v ===== *)
(** * SFTP: sessions, packets, messages and attributes ([libssh/src/sftp.c])

    The part of [sftp.c] that the operations of the client and the server share: the
    life of a session, the framing of packets on a channel, the queue of the replies
    that wait for their request, the attributes of files, the start of
    the protocol.  The channel is the interface [SftpChannel]; [SftpLink] gives the
    one of [Channel]. *)

From stdpp Require Import gmap.
From S2P Require Import Prelude SshString Buffer Bignum BufferPack Token Session Packet Kex Channel.

Definition LIBSFTP_VERSION : Z := 3.
Definition SFTP_PACKET_SIZE_MAX : Z := 0x10000000.
Definition SFTP_BUFFER_SIZE_MAX : Z := 16384.

Definition SSH_FXP_INIT : Z := 1.
Definition SSH_FXP_VERSION : Z := 2.
Definition SSH_FXP_OPEN : Z := 3.
Definition SSH_FXP_CLOSE : Z := 4.
Definition SSH_FXP_READ : Z := 5.
Definition SSH_FXP_WRITE : Z := 6.
Definition SSH_FXP_LSTAT : Z := 7.
Definition SSH_FXP_FSTAT : Z := 8.
Definition SSH_FXP_SETSTAT : Z := 9.
Definition SSH_FXP_FSETSTAT : Z := 10.
Definition SSH_FXP_OPENDIR : Z := 11.
Definition SSH_FXP_READDIR : Z := 12.
Definition SSH_FXP_REMOVE : Z := 13.
Definition SSH_FXP_MKDIR : Z := 14.
Definition SSH_FXP_RMDIR : Z := 15.
Definition SSH_FXP_REALPATH : Z := 16.
Definition SSH_FXP_STAT : Z := 17.
Definition SSH_FXP_RENAME : Z := 18.
Definition SSH_FXP_READLINK : Z := 19.
Definition SSH_FXP_SYMLINK : Z := 20.
Definition SSH_FXP_STATUS : Z := 101.
Definition SSH_FXP_HANDLE : Z := 102.
Definition SSH_FXP_DATA : Z := 103.
Definition SSH_FXP_NAME : Z := 104.
Definition SSH_FXP_ATTRS : Z := 105.
Definition SSH_FXP_EXTENDED : Z := 200.
Definition SSH_FXP_EXTENDED_REPLY : Z := 201.

Definition SSH_FX_OK : Z := 0.
Definition SSH_FX_EOF : Z := 1.
Definition SSH_FX_NO_SUCH_FILE : Z := 2.
Definition SSH_FX_FAILURE : Z := 4.
Definition SSH_FX_BAD_MESSAGE : Z := 5.
Definition SSH_FX_FILE_ALREADY_EXISTS : Z := 11.

Definition SSH_FILEXFER_ATTR_SIZE : Z := 0x1.
Definition SSH_FILEXFER_ATTR_UIDGID : Z := 0x2.
Definition SSH_FILEXFER_ATTR_PERMISSIONS : Z := 0x4.
Definition SSH_FILEXFER_ATTR_ACCESSTIME : Z := 0x8.
Definition SSH_FILEXFER_ATTR_ACMODTIME : Z := 0x8.
Definition SSH_FILEXFER_ATTR_CREATETIME : Z := 0x10.
Definition SSH_FILEXFER_ATTR_MODIFYTIME : Z := 0x20.
Definition SSH_FILEXFER_ATTR_ACL : Z := 0x40.
Definition SSH_FILEXFER_ATTR_OWNERGROUP : Z := 0x80.
Definition SSH_FILEXFER_ATTR_SUBSECOND_TIMES : Z := 0x100.
Definition SSH_FILEXFER_ATTR_EXTENDED : Z := 0x80000000.

Definition SSH_FILEXFER_TYPE_REGULAR : Z := 1.
Definition SSH_FILEXFER_TYPE_DIRECTORY : Z := 2.
Definition SSH_FILEXFER_TYPE_SYMLINK : Z := 3.
Definition SSH_FILEXFER_TYPE_SPECIAL : Z := 4.
Definition SSH_FILEXFER_TYPE_UNKNOWN : Z := 5.

Definition SSH_S_IFMT : Z := 0xf000.
Definition SSH_S_IFSOCK : Z := 0xc000.
Definition SSH_S_IFLNK : Z := 0xa000.
Definition SSH_S_IFREG : Z := 0x8000.
Definition SSH_S_IFBLK : Z := 0x6000.
Definition SSH_S_IFDIR : Z := 0x4000.
Definition SSH_S_IFCHR : Z := 0x2000.
Definition SSH_S_IFIFO : Z := 0x1000.

(** ** The channel below *)

(** The session and its channel as [sftp.c] uses them.  Reading gives the code and the
    bytes that were stored at the destination. *)
Class SftpChannel (Ch : Type) := {
  chan_new : Ch -> run (bool * Ch);           (* [ssh_channel_new]: not [NULL] *)
  chan_open_session : Ch -> run (Z * Ch);     (* [ssh_channel_open_session] *)
  chan_request_sftp : Ch -> run (Z * Ch);     (* [ssh_channel_request_sftp] *)
  chan_write : bytes -> Ch -> run (Z * Ch);   (* [ssh_channel_write] *)
  chan_read : Z -> Ch -> run (Z * bytes * Ch); (* [ssh_channel_read (channel, dest, count, 0)] *)
  chan_is_eof : Ch -> run Z;                  (* [ssh_channel_is_eof] *)
  chan_poll : Ch -> run (Z * Ch);             (* [ssh_channel_poll (channel, 0)] *)
  chan_send_eof : Ch -> run (Z * Ch);         (* [ssh_channel_send_eof] *)
  chan_free : Ch -> run Ch;                   (* [ssh_channel_free] *)
  chan_openssh : Ch -> Z                      (* [ssh_get_openssh_version] *)
}.

(** ** Data *)

(** An entry of the arrays is [None] when what it points to was freed. *)
Record sftp_ext := mk_ext {
  ext_count : Z;
  ext_name : option (list (option bytes));
  ext_data : option (list (option bytes))
}.

Record sftp_packet := mk_packet {
  pk_type : Z;
  pk_payload : option ssh_buffer
}.

Record sftp_message := mk_message {
  m_type : Z;
  m_payload : option ssh_buffer;
  m_id : Z
}.

(** The handles of a server hold addresses, zero is [NULL]. *)
Record sftp_session {Ch : Type} := mk_sftp {
  channel : Ch;
  server_version : Z;
  client_version : Z;
  version : Z;
  queue : list sftp_message;             (* the list of [sftp_request_queue] nodes *)
  id_counter : Z;
  errnum : Z;
  handles : option (list Z);
  ext : option sftp_ext;
  read_packet : option sftp_packet
}.
Arguments sftp_session : clear implicits.
Arguments mk_sftp {Ch}.

Record sftp_status_message := mk_status {
  st_id : Z;
  status : Z;
  errormsg : bytes;
  langmsg : bytes
}.

(** [extended_type] and [extended_data] are declared [ssh_string]; version 3 of the
    protocol stores C strings in them. *)
Inductive ext_text := ExtString (x : ssh_string) | ExtChars (t : bytes).

(** A text is the block it is stored in, with its terminator. *)
Record sftp_attributes := mk_attr {
  a_name : option bytes;
  a_longname : option bytes;
  a_flags : Z;
  a_type : Z;
  a_size : Z;
  a_uid : Z;
  a_gid : Z;
  a_owner : option bytes;
  a_group : option bytes;
  a_permissions : Z;
  a_atime64 : Z;
  a_atime : Z;
  a_atime_nseconds : Z;
  a_createtime : Z;
  a_createtime_nseconds : Z;
  a_mtime64 : Z;
  a_mtime : Z;
  a_mtime_nseconds : Z;
  a_acl : option ssh_string;
  a_extended_count : Z;
  a_extended_type : option ext_text;
  a_extended_data : option ext_text
}.

Definition sizeof_sftp_session : Z := 80.
Definition sizeof_sftp_ext : Z := 24.
Definition sizeof_sftp_packet : Z := 24.
Definition sizeof_sftp_message : Z := 32.
Definition sizeof_request_queue : Z := 16.
Definition sizeof_sftp_status_message : Z := 40.
Definition sizeof_sftp_attributes : Z := 144.

Section Sftp.
Context `{Allocator} `{BignumLib} {Ch : Type} `{SftpChannel Ch}.
#[local] Abbreviation sftp := (sftp_session Ch).
Implicit Type s : sftp.

Definition set_channel (v : Ch) s : sftp :=
  mk_sftp v (server_version s) (client_version s) (version s) (queue s) (id_counter s) (errnum s) (handles s)
    (ext s) (read_packet s).
Definition set_versions (sv cv v : Z) s : sftp :=
  mk_sftp (channel s) sv cv v (queue s) (id_counter s) (errnum s) (handles s) (ext s) (read_packet s).
Definition set_queue (v : list sftp_message) s : sftp :=
  mk_sftp (channel s) (server_version s) (client_version s) (version s) v (id_counter s) (errnum s) (handles s)
    (ext s) (read_packet s).
Definition set_id_counter (v : Z) s : sftp :=
  mk_sftp (channel s) (server_version s) (client_version s) (version s) (queue s) v (errnum s) (handles s)
    (ext s) (read_packet s).
Definition sftp_set_error (v : Z) s : sftp :=
  mk_sftp (channel s) (server_version s) (client_version s) (version s) (queue s) (id_counter s) v (handles s)
    (ext s) (read_packet s).
Definition set_handles (v : option (list Z)) s : sftp :=
  mk_sftp (channel s) (server_version s) (client_version s) (version s) (queue s) (id_counter s) (errnum s) v
    (ext s) (read_packet s).
Definition set_ext (v : option sftp_ext) s : sftp :=
  mk_sftp (channel s) (server_version s) (client_version s) (version s) (queue s) (id_counter s) (errnum s)
    (handles s) v (read_packet s).
Definition set_packet (v : sftp_packet) s : sftp :=
  mk_sftp (channel s) (server_version s) (client_version s) (version s) (queue s) (id_counter s) (errnum s)
    (handles s) (ext s) (Some v).

Definition sftp_get_error (o : option sftp) : Z := match o with None => -1 | Some s => errnum s end.

(** [calloc (1, size)] *)
Definition alloc (size : Z) : bool := some (malloc size).

(** ** Sessions *)

Definition sftp_ext_new : option sftp_ext := if alloc sizeof_sftp_ext then Some (mk_ext 0 None None) else None.

(** A packet with its buffer. *)
Definition read_packet_new : run (option sftp_packet) :=
  if negb (alloc sizeof_sftp_packet) then Some None else
  o ← ssh_buffer_new;
  Some (match o with None => None | Some b => Some (mk_packet 0 (Some b)) end).

Definition new_session (c : Ch) (e : option sftp_ext) (p : option sftp_packet) : sftp :=
  mk_sftp c 0 0 0 [] 0 0 None e p.

(** The channel is closed and freed when a later step fails. *)
Definition sftp_new (c : Ch) : run (option sftp * Ch) :=
  if negb (alloc sizeof_sftp_session) then Some (None, c) else
  match sftp_ext_new with
  | None => Some (None, c)
  | Some e =>
      p ← read_packet_new;
      match p with
      | None => Some (None, c)
      | Some p =>
          '(made, c) ← chan_new c;
          if negb made then Some (None, c) else
          '(rc, c) ← chan_open_session c;
          if negb (rc =? 0) then c ← chan_free c; Some (None, c) else
          '(rc, c) ← chan_request_sftp c;
          if negb (rc =? 0) then c ← chan_free c; Some (None, c) else
          Some (Some (new_session c (Some e) (Some p)), c)
      end
  end.

Definition sftp_new_channel (c : Ch) : option sftp :=
  if negb (alloc sizeof_sftp_session) then None else
  match sftp_ext_new with
  | None => None
  | Some e => Some (new_session c (Some e) None)
  end.

Definition sftp_server_new (c : Ch) : run (option sftp) :=
  if negb (alloc sizeof_sftp_session) then Some None else
  p ← read_packet_new;
  Some (match p with None => None | Some p => Some (new_session c None (Some p)) end).

(** What [sftp_free] dereferences and hands back, after the channel. *)
Definition free_session s : run () := _ ← read_packet s; Some ().

Definition sftp_free (o : option sftp) : run (option Ch) :=
  match o with
  | None => Some None
  | Some s =>
      '(_, c) ← chan_send_eof (channel s);
      c ← chan_free c;
      _ ← free_session s;
      Some (Some c)
  end.

Definition sftp_server_free (o : option sftp) : run () :=
  match o with None => Some () | Some s => free_session s end.

(** ** Packets *)

(** The size, the payload with its header and the session. *)
Definition sftp_packet_write (type : Z) (payload : ssh_buffer) s : run (Z * ssh_buffer * sftp) :=
  let payload_size := u32 (ssh_buffer_get_len payload + 1) in
  let header := be_bytes 4 payload_size ++ [z2b type] in
  '(rc, payload) ← ssh_buffer_prepend_data payload header 5;
  if rc <? 0 then Some (-1, payload, sftp_set_error SSH_FX_FAILURE s) else
  data ← ssh_buffer_get payload;
  '(size, c) ← chan_write (ztake (ssh_buffer_get_len payload) data) (channel s);
  let s := set_channel c s in
  if size <? 0 then Some (-1, payload, sftp_set_error SSH_FX_FAILURE s) else
  Some (size, payload, s).

(** The rounds a loop gets; a loop that needs more has no result. *)
Variable fuel : nat.

(** [ssh_channel_read] into the stack buffer. *)
Definition read_chunk (count : Z) s : run (Z * bytes * sftp) :=
  '(n, d, c) ← chan_read count (channel s); Some (n, d, set_channel c s).

(** Nothing was read: whether the peer is done. *)
Definition at_eof s : run (bool * sftp) :=
  e ← chan_is_eof (channel s);
  Some (if negb (e =? 0) then (true, sftp_set_error SSH_FX_EOF s) else (false, s)).

(** The loop over the four bytes of the size; [got] is what is in the buffer. *)
Fixpoint read_size (n : nat) (nread : Z) (got : bytes) s : run (option bytes * sftp) :=
  match n with
  | O => None
  | S n =>
      '(r, d, s) ← read_chunk (4 - nread) s;
      if r <? 0 then Some (None, s) else
      '(stop, s) ← (if r =? 0 then at_eof s else Some (false, s));
      if (stop : bool) then Some (None, s) else
      let nread := nread + r in
      if nread <? 4 then read_size n nread (got ++ d) s else Some (Some (got ++ d), s)
  end.

Fixpoint read_type (n : nat) s : run (option bytes * sftp) :=
  match n with
  | O => None
  | S n =>
      '(r, d, s) ← read_chunk 1 s;
      if r <? 0 then Some (None, s) else
      '(stop, s) ← (if r =? 0 then at_eof s else Some (false, s));
      if (stop : bool) then Some (None, s) else
      if r <? 1 then read_type n s else Some (Some d, s)
  end.

Fixpoint read_payload (n : nat) (size : Z) (payload : ssh_buffer) s : run (bool * ssh_buffer * sftp) :=
  match n with
  | O => None
  | S n =>
      if negb ((0 <? size) && (size <? SFTP_PACKET_SIZE_MAX)) then Some (true, payload, s) else
      '(r, d, s) ← read_chunk (if size <? SFTP_BUFFER_SIZE_MAX then size else SFTP_BUFFER_SIZE_MAX) s;
      if r <? 0 then Some (false, payload, s) else
      '(rc, payload, s) ←
        (if 0 <? r then
           '(rc, payload) ← add_data payload (Some d) (u32 r);
           Some (rc, payload, if negb (rc =? 0) then sftp_set_error SSH_FX_FAILURE s else s)
         else '(stop, s) ← at_eof s; Some (if (stop : bool) then -1 else 0, payload, s));
      if negb (rc =? 0) then Some (false, payload, s) else read_payload n (u32 (size - r)) payload s
  end.

(** [PULL_BE_U32 (buffer, 0)] *)
Definition pull_be_u32 (buffer : bytes) : run Z :=
  if 4 <=? zlen buffer then Some (be_val (ztake 4 buffer)) else None.

(** The label [error]. *)
Definition read_fails (type : Z) (payload : option ssh_buffer) s : run (bool * sftp) :=
  '(_, payload) ← ssh_buffer_reinit payload; Some (false, set_packet (mk_packet type payload) s).

(** The payload of the packet, emptied or new. *)
Definition fresh_payload (old : option ssh_buffer) : run (option ssh_buffer * option ssh_buffer) :=
  match old with
  | Some b => '(rc, b) ← ssh_buffer_reinit (Some b); Some (if rc =? 0 then b else None, b)
  | None => b ← ssh_buffer_new; Some (b, b)
  end.

(** [sftp_packet_read]: whether it returns the packet of the session, or [NULL]. *)
Definition sftp_packet_read s : run (bool * sftp) :=
  packet ← read_packet s;
  '(ready, old) ← fresh_payload (pk_payload packet);
  match ready with
  | None => Some (false, sftp_set_error SSH_FX_FAILURE (set_packet (mk_packet (pk_type packet) old) s))
  | Some payload =>
      '(o, s) ← read_size fuel 0 [] s;
      match o with
      | None => read_fails (pk_type packet) (Some payload) s
      | Some buffer =>
          size ← pull_be_u32 buffer;
          if (size =? 0) || (SFTP_PACKET_SIZE_MAX <? size) then
            read_fails (pk_type packet) (Some payload) (sftp_set_error SSH_FX_FAILURE s)
          else
          '(o, s) ← read_type fuel s;
          match o with
          | None => read_fails (pk_type packet) (Some payload) s
          | Some buffer =>
              t ← mem_at buffer 0;
              let type := b2z t in
              let size := size - 1 in
              '(rc, payload) ← ssh_buffer_allocate_size payload size;
              if rc <? 0 then read_fails type (Some payload) (sftp_set_error SSH_FX_FAILURE s) else
              '(ok, payload, s) ← read_payload fuel size payload s;
              if (ok : bool) then Some (true, set_packet (mk_packet type (Some payload)) s)
              else read_fails type (Some payload) s
          end
      end
  end.

(** ** Messages and their queue *)

Definition is_reply (type : Z) : bool :=
  (type =? SSH_FXP_STATUS) || (type =? SSH_FXP_HANDLE) || (type =? SSH_FXP_DATA) || (type =? SSH_FXP_ATTRS)
  || (type =? SSH_FXP_NAME) || (type =? SSH_FXP_EXTENDED_REPLY).

(** The payload of the packet moves to the message. *)
Definition sftp_get_message s : run (option sftp_message * sftp) :=
  packet ← read_packet s;
  if negb (is_reply (pk_type packet)) then Some (None, sftp_set_error SSH_FX_FAILURE s) else
  if negb (alloc sizeof_sftp_message) then Some (None, sftp_set_error SSH_FX_FAILURE s) else
  payload ← pk_payload packet;
  let s := set_packet (mk_packet (pk_type packet) None) s in
  '(rc, os, _, payload) ← ssh_buffer_unpack payload (cstr "d") [UPtr];
  if negb (rc =? SSH_OK) then Some (None, sftp_set_error SSH_FX_FAILURE s) else
  Some (Some (mk_message (pk_type packet) (Some payload) (int_slot os 0 0)), s).

Definition sftp_enqueue (msg : sftp_message) s : Z * sftp :=
  if negb (alloc sizeof_request_queue) then (-1, sftp_set_error SSH_FX_FAILURE s)
  else (0, set_queue (queue s ++ [msg]) s).

(** The walk with its two pointers: the message and the list without its node. *)
Fixpoint dequeue_walk (q : list sftp_message) (id : Z) : option (sftp_message * list sftp_message) :=
  match q with
  | [] => None
  | m :: q =>
      if m_id m =? id then Some (m, q)
      else '(x, q) ← dequeue_walk q id; Some (x, m :: q)
  end.

Definition sftp_dequeue (id : Z) s : option sftp_message * sftp :=
  match dequeue_walk (queue s) id with
  | None => (None, s)
  | Some (m, q) => (Some m, set_queue q s)
  end.

Definition sftp_read_and_dispatch s : run (Z * sftp) :=
  '(ok, s) ← sftp_packet_read s;
  if negb ok then Some (-1, s) else
  '(o, s) ← sftp_get_message s;
  match o with
  | None => Some (-1, s)
  | Some msg => let '(rc, s) := sftp_enqueue msg s in Some (if rc <? 0 then -1 else 0, s)
  end.

Definition sftp_get_new_id s : Z * sftp :=
  let id := u32 (id_counter s + 1) in (id, set_id_counter id s).

(** ** Replies *)

Definition block_slot (os : list slot) (i : nat) : option bytes :=
  match os !! i with Some (SlotCstr p) => p | _ => None end.

(** [errormsg] and [langmsg], the text for the user when the packet has none. *)
Definition or_text (o : option bytes) (text : bytes) : option bytes :=
  match o with
  | Some p => Some p
  | None => option_map (fun t => t ++ [Byte.x00]) (strdup text)
  end.

Definition parse_status_msg (msg : sftp_message) s : run (option sftp_status_message * sftp) :=
  if negb (m_type msg =? SSH_FXP_STATUS) then Some (None, sftp_set_error SSH_FX_BAD_MESSAGE s) else
  if negb (alloc sizeof_sftp_status_message) then Some (None, sftp_set_error SSH_FX_FAILURE s) else
  payload ← m_payload msg;
  '(rc, os, _, payload) ← ssh_buffer_unpack payload (cstr "d") [UPtr];
  if negb (rc =? SSH_OK) then Some (None, sftp_set_error SSH_FX_FAILURE s) else
  let st := int_slot os 0 0 in
  '(rc, os, _, payload) ← ssh_buffer_unpack payload (cstr "ss") [UPtr; UPtr];
  if negb (rc =? SSH_OK) && (3 <=? version s) then Some (None, sftp_set_error SSH_FX_FAILURE s) else
  match or_text (block_slot os 0) (cstr "No error message in packet"), or_text (block_slot os 1) [] with
  | Some e, Some l => Some (Some (mk_status (m_id msg) st e l), s)
  | _, _ => Some (None, sftp_set_error SSH_FX_FAILURE s)
  end.

Record sftp_file := mk_file {
  f_offset : Z;
  f_handle : option ssh_string;
  f_eof : Z;
  f_nonblocking : Z
}.

Definition sizeof_sftp_file : Z := 40.

Definition parse_handle_msg (msg : sftp_message) s : run (option sftp_file * sftp) :=
  if negb (m_type msg =? SSH_FXP_HANDLE) then Some (None, s) else
  if negb (alloc sizeof_sftp_file) then Some (None, sftp_set_error SSH_FX_FAILURE s) else
  payload ← m_payload msg;
  '(h, _) ← ssh_buffer_get_ssh_string payload;
  match h with
  | None => Some (None, sftp_set_error SSH_FX_FAILURE s)
  | Some h => Some (Some (mk_file 0 (Some h) 0 0), s)
  end.

(** The loop of every request: packets are read and queued until there is one with
    the number of the request. *)
Inductive waited := Got (msg : sftp_message) | Nasty | WouldBlock.

Fixpoint wait_reply (n : nat) (nonblocking : bool) (id : Z) s : run (waited * sftp) :=
  match n with
  | O => None
  | S n =>
      '(none, s) ← (if nonblocking then
                      '(r, c) ← chan_poll (channel s); Some (r =? 0, set_channel c s)
                    else Some (false, s));
      if (none : bool) then Some (WouldBlock, s) else
      '(rc, s) ← sftp_read_and_dispatch s;
      if rc <? 0 then Some (Nasty, s) else
      let '(o, s) := sftp_dequeue id s in
      match o with
      | Some msg => Some (Got msg, s)
      | None => wait_reply n nonblocking id s
      end
  end.

(** ** Attributes *)

(** A step of a parser: [None] is its [goto error]. *)
Definition parser (A : Type) : Type := ssh_buffer -> run (option A * ssh_buffer).

Definition pret {A} (a : A) : parser A := fun b => Some (Some a, b).
Definition pfail {A} : parser A := fun b => Some (None, b).
Definition pbind {A B} (m : parser A) (k : A -> parser B) : parser B :=
  fun b => '(o, b) ← m b; match o with None => Some (None, b) | Some a => k a b end.
Definition plift {A} (r : run A) : parser A := fun b => a ← r; Some (Some a, b).
#[local] Notation "x <~ m ; k" := (pbind m (fun x => k)) (at level 20, m at level 100, k at level 200, only parsing).

(** A field that is there when the flag is. *)
Definition field_if {A} (flags flag : Z) (m : parser A) (zero : A) : parser A :=
  if negb (Z.land flags flag =? 0) then m else pret zero.

(** [ssh_buffer_unpack (buf, format, ...)] *)
Definition unpack_with (format : string) (args : list ua) : parser (list slot) := fun b =>
  '(rc, os, _, b) ← ssh_buffer_unpack b (cstr format) args;
  Some (if rc =? SSH_OK then Some os else None, b).

Definition p_d : parser Z := os <~ unpack_with "d" [UPtr]; pret (int_slot os 0 0).
Definition p_q : parser Z := os <~ unpack_with "q" [UPtr]; pret (int_slot os 0 0).
Definition p_dd : parser (Z * Z) := os <~ unpack_with "dd" [UPtr; UPtr]; pret (int_slot os 0 0, int_slot os 1 0).
Definition p_ss : parser (option bytes * option bytes) :=
  os <~ unpack_with "ss" [UPtr; UPtr]; pret (block_slot os 0, block_slot os 1).

(** [isspace] in the C locale. *)
Definition isspace (c : byte) : bool := (b2z c =? 32) || ((9 <=? b2z c) && (b2z c <=? 13)).

Definition SFTP_LONGNAME_OWNER : nat := 2.
Definition SFTP_LONGNAME_GROUP : nat := 3.

(** The two loops that skip [n] fields, from the characters at [p]; [gap] while the
    inner one runs.  A character outside the string has no value. *)
Fixpoint skip_fields (n : nat) (gap : bool) (p : bytes) : run bytes :=
  match p with
  | [] => if gap then None else match n with O => Some [] | S _ => None end
  | c :: rest =>
      if gap && negb (Byte.eqb c Byte.x00) && isspace c then skip_fields n true rest else
      match n with
      | O => Some p
      | S m => if isspace c then skip_fields m true rest else skip_fields n false rest
      end
  end.

Fixpoint field_end (q : bytes) : run Z :=
  match q with
  | [] => None
  | c :: q => if isspace c then Some 0 else n ← field_end q; Some (1 + n)
  end.

(** [strndup (p, len)] *)
Definition strndup (p : bytes) (len : Z) : run (option bytes) :=
  let n := match strlen (ztake len p) with Some n => n | None => len end in
  Some (if alloc (n + 1) then Some (ztake n p ++ [Byte.x00]) else None).

Definition sftp_parse_longname (longname : bytes) (longname_field : nat) : run (option bytes) :=
  p ← skip_fields longname_field false longname;
  len ← field_end p;
  strndup p len.

(** The owner and the group of an entry of OpenSSH. *)
Definition p_owner (openssh : Z) (longname : option bytes) : parser (option bytes * option bytes) :=
  if openssh =? 0 then pret (None, None) else
  text <~ plift longname;
  owner <~ plift (sftp_parse_longname text SFTP_LONGNAME_OWNER);
  match owner with
  | None => pfail
  | Some owner =>
      group <~ plift (sftp_parse_longname text SFTP_LONGNAME_GROUP);
      match group with None => pfail | Some group => pret (Some owner, Some group) end
  end.

Definition type_of_permissions (permissions : Z) : Z :=
  let m := Z.land permissions SSH_S_IFMT in
  if (m =? SSH_S_IFSOCK) || (m =? SSH_S_IFBLK) || (m =? SSH_S_IFCHR) || (m =? SSH_S_IFIFO)
  then SSH_FILEXFER_TYPE_SPECIAL
  else if m =? SSH_S_IFLNK then SSH_FILEXFER_TYPE_SYMLINK
  else if m =? SSH_S_IFREG then SSH_FILEXFER_TYPE_REGULAR
  else if m =? SSH_S_IFDIR then SSH_FILEXFER_TYPE_DIRECTORY
  else SSH_FILEXFER_TYPE_UNKNOWN.

(** The pairs after the first are read and dropped; the loop ends within the
    bytes that are left. *)
Fixpoint skip_extended (n : nat) (count : Z) : parser Z :=
  match n with
  | O => fun _ => None
  | S n => if 0 <? count then _ <~ unpack_with "SS" [UPtr; UPtr]; skip_extended n (count - 1) else pret count
  end.

Definition loop_bound (b : ssh_buffer) : nat := S (Z.to_nat (ssh_buffer_get_len b)).

Definition p_extended3 : parser (Z * option ext_text * option ext_text) :=
  count <~ p_d;
  if 0 <? count then
    td <~ p_ss;
    count <~ (fun b => skip_extended (loop_bound b) (count - 1) b);
    pret (count, option_map ExtChars td.1, option_map ExtChars td.2)
  else pret (count, None, None).

Definition p_attr_3 (openssh : Z) (expectname : bool) : parser sftp_attributes :=
  names <~ (if expectname then
              nl <~ p_ss; og <~ p_owner openssh nl.2; pret (nl.1, nl.2, og)
            else pret (None, None, (None, None)));
  flags <~ p_d;
  size <~ field_if flags SSH_FILEXFER_ATTR_SIZE p_q 0;
  ids <~ field_if flags SSH_FILEXFER_ATTR_UIDGID p_dd (0, 0);
  pt <~ field_if flags SSH_FILEXFER_ATTR_PERMISSIONS (p <~ p_d; pret (p, type_of_permissions p)) (0, 0);
  times <~ field_if flags SSH_FILEXFER_ATTR_ACMODTIME p_dd (0, 0);
  e <~ field_if flags SSH_FILEXFER_ATTR_EXTENDED p_extended3 (0, None, None);
  pret (mk_attr names.1.1 names.1.2 flags pt.2 size ids.1 ids.2 names.2.1 names.2.2 pt.1 0 times.1 0 0 0
          0 times.2 0 None e.1.1 e.1.2 e.2).

(** The attributes, the rest of the buffer and the session. *)
Definition sftp_parse_attr_3 (buf : ssh_buffer) (expectname : bool) s : run (option sftp_attributes * ssh_buffer * sftp) :=
  if negb (alloc sizeof_sftp_attributes) then Some (None, buf, sftp_set_error SSH_FX_FAILURE s) else
  '(o, buf) ← p_attr_3 (chan_openssh (channel s)) expectname buf;
  Some (o, buf, if some o then s else sftp_set_error SSH_FX_FAILURE s).

(** The readers of version 4: [ssh_buffer_get_u32], ... *)
Definition get_u (width : nat) (conv : Z -> Z) : parser Z := fun b =>
  '(n, v, b) ← get_int width b;
  Some (if n =? Z.of_nat width then option_map conv v else None, b).
Definition get_str : parser ssh_string := fun b => ssh_buffer_get_ssh_string b.

Definition get_text : parser (option bytes) :=
  x <~ get_str; t <~ plift (ssh_string_to_char (Some x)); if some t then pret t else pfail.

Definition get_time (flags flag : Z) : parser (Z * Z) :=
  field_if flags flag
    (t <~ get_u 8 ntohll; ns <~ field_if flags SSH_FILEXFER_ATTR_SUBSECOND_TIMES (get_u 4 ntohl) 0; pret (t, ns)) (0, 0).

(** [extended_type], [extended_data] of the last pair. *)
Fixpoint last_extended (n : nat) (count : Z) (last : option ext_text * option ext_text)
    : parser (Z * option ext_text * option ext_text) :=
  match n with
  | O => fun _ => None
  | S n =>
      if count =? 0 then pret (count, last.1, last.2) else
      t <~ get_str; d <~ get_str; last_extended n (count - 1) (Some (ExtString t), Some (ExtString d))
  end.

Definition p_attr_4 : parser sftp_attributes :=
  flags <~ get_u 4 ntohl;
  size <~ field_if flags SSH_FILEXFER_ATTR_SIZE (get_u 8 ntohll) 0;
  og <~ field_if flags SSH_FILEXFER_ATTR_OWNERGROUP (o <~ get_text; g <~ get_text; pret (o, g)) (None, None);
  pt <~ field_if flags SSH_FILEXFER_ATTR_PERMISSIONS (p <~ get_u 4 ntohl; pret (p, type_of_permissions p)) (0, 0);
  at_ <~ get_time flags SSH_FILEXFER_ATTR_ACCESSTIME;
  ct <~ get_time flags SSH_FILEXFER_ATTR_CREATETIME;
  mt <~ get_time flags SSH_FILEXFER_ATTR_MODIFYTIME;
  acl <~ field_if flags SSH_FILEXFER_ATTR_ACL (x <~ get_str; pret (Some x)) None;
  e <~ field_if flags SSH_FILEXFER_ATTR_EXTENDED
         (count <~ get_u 4 ntohl; fun b => last_extended (loop_bound b) count (None, None) b) (0, None, None);
  pret (mk_attr None None flags pt.2 size 0 0 og.1 og.2 pt.1 at_.1 0 at_.2 ct.1 ct.2 mt.1 0 mt.2 acl e.1.1 e.1.2 e.2).

Definition sftp_parse_attr_4 (buf : ssh_buffer) (expectnames : bool) s : run (option sftp_attributes * ssh_buffer * sftp) :=
  if negb (alloc sizeof_sftp_attributes) then Some (None, buf, sftp_set_error SSH_FX_FAILURE s) else
  '(o, buf) ← p_attr_4 buf; Some (o, buf, s).

Definition sftp_parse_attr (buf : ssh_buffer) (expectname : bool) s : run (option sftp_attributes * ssh_buffer * sftp) :=
  let v := version s in
  if v =? 4 then sftp_parse_attr_4 buf expectname s
  else if (v =? 3) || (v =? 2) || (v =? 1) || (v =? 0) then sftp_parse_attr_3 buf expectname s
  else Some (None, buf, s).

Definition sftp_server_version s : Z := server_version s.

(** Each call of [ssh_buffer_pack] is made when the ones before succeeded. *)
Definition pack_more (first : run (Z * ssh_buffer)) (present : bool) (format : string) (args : list va) : run (Z * ssh_buffer) :=
  '(rc, b) ← first;
  if negb (rc =? SSH_OK) then Some (-1, b) else
  if negb present then Some (0, b) else
  '(rc, b) ← ssh_buffer_pack b (cstr format) args;
  Some (if negb (rc =? SSH_OK) then -1 else 0, b).

Definition WRITTEN_FLAGS : Z :=
  Z.lor (Z.lor (Z.lor SSH_FILEXFER_ATTR_SIZE SSH_FILEXFER_ATTR_UIDGID) SSH_FILEXFER_ATTR_PERMISSIONS)
    SSH_FILEXFER_ATTR_ACMODTIME.

Definition buffer_add_attributes (buffer : ssh_buffer) (attr : option sftp_attributes) : run (Z * ssh_buffer) :=
  let flags := Z.land (match attr with Some a => a_flags a | None => 0 end) WRITTEN_FLAGS in
  let has f := negb (Z.land flags f =? 0) in
  let r := pack_more (Some (SSH_OK, buffer)) true "d" [VInt flags] in
  match attr with
  | None => r
  | Some a =>
      let r := pack_more r (has SSH_FILEXFER_ATTR_SIZE) "q" [VInt (a_size a)] in
      let r := pack_more r (has SSH_FILEXFER_ATTR_UIDGID) "dd" [VInt (a_uid a); VInt (a_gid a)] in
      let r := pack_more r (has SSH_FILEXFER_ATTR_PERMISSIONS) "d" [VInt (a_permissions a)] in
      pack_more r (has SSH_FILEXFER_ATTR_ACMODTIME) "dd" [VInt (a_atime a); VInt (a_mtime a)]
  end.

(** ** The start of the protocol *)

(** [realloc] of an array of pointers to [count] of them, the last one set. *)
Definition grow_array (l : option (list (option bytes))) (count : Z) (x : option bytes) : option (list (option bytes)) :=
  if alloc (count * sizeof_ptr) then
    Some (ztake (count - 1) (default [] l ++ zrep (count - 1 - zlen (default [] l)) None) ++ [x])
  else None.

(** The pairs of the version packet, the first name read already; when memory runs
    out the name and the data are freed, and the array may hold the name. *)
Fixpoint read_extensions (n : nat) (name : option bytes) (payload : ssh_buffer) (e : sftp_ext)
    : run (bool * ssh_buffer * sftp_ext) :=
  match n with
  | O => None
  | S n =>
      '(rc, os, _, payload) ← ssh_buffer_unpack payload (cstr "s") [UPtr];
      if rc =? SSH_ERROR then Some (true, payload, e) else
      let data := block_slot os 0 in
      let count := u32 (ext_count e + 1) in
      match grow_array (ext_name e) count name with
      | None => Some (false, payload, e)
      | Some names =>
          match grow_array (ext_data e) count data with
          | None => Some (false, payload, mk_ext (ext_count e) (grow_array (ext_name e) count None) (ext_data e))
          | Some datas =>
              let e := mk_ext count (Some names) (Some datas) in
              '(rc, os, _, payload) ← ssh_buffer_unpack payload (cstr "s") [UPtr];
              if rc =? SSH_OK then read_extensions n (block_slot os 0) payload e else Some (true, payload, e)
          end
      end
  end.

(** The first packet of a client. *)
Definition send_init s : run (bool * sftp) :=
  o ← ssh_buffer_new;
  match o with
  | None => Some (false, sftp_set_error SSH_FX_FAILURE s)
  | Some b =>
      '(rc, b) ← ssh_buffer_pack b (cstr "d") [VInt LIBSFTP_VERSION];
      if negb (rc =? SSH_OK) then Some (false, sftp_set_error SSH_FX_FAILURE s) else
      '(n, _, s) ← sftp_packet_write SSH_FXP_INIT b s;
      Some (negb (n <? 0), s)
  end.

Definition sftp_init s : run (Z * sftp) :=
  '(sent, s) ← send_init s;
  if negb sent then Some (-1, s) else
  '(ok, s) ← sftp_packet_read s;
  if negb ok then Some (-1, s) else
  packet ← read_packet s;
  if negb (pk_type packet =? SSH_FXP_VERSION) then Some (-1, s) else
  payload ← pk_payload packet;
  let keep b s := set_packet (mk_packet (pk_type packet) (Some b)) s in
  '(rc, os, _, payload) ← ssh_buffer_unpack payload (cstr "d") [UPtr];
  if negb (rc =? SSH_OK) then Some (-1, keep payload (sftp_set_error SSH_FX_FAILURE s)) else
  let v := s32 (int_slot os 0 0) in
  '(rc, os, _, payload) ← ssh_buffer_unpack payload (cstr "s") [UPtr];
  if negb (rc =? SSH_OK) then Some (0, set_versions v (client_version s) v (keep payload s)) else
  e ← ext s;
  '(ok, payload, e) ← read_extensions (loop_bound payload) (block_slot os 0) payload e;
  let s := set_ext (Some e) (keep payload s) in
  if (ok : bool) then Some (0, set_versions v (client_version s) v s) else Some (-1, sftp_set_error SSH_FX_FAILURE s).

Definition sftp_extensions_get_count (o : option sftp) : Z :=
  match o with
  | None => 0
  | Some s => match ext s with None => 0 | Some e => ext_count e end
  end.

(** [ext->name[idx]] or [ext->data[idx]], both after a look at the names: an entry that is not there has no value. *)
Definition get_entry (sel : sftp_ext -> option (list (option bytes))) (o : option sftp) (idx : Z) : run (option bytes) :=
  match o with
  | None => Some None
  | Some s =>
      match ext s with
      | None => Some None
      | Some e =>
          match ext_name e with
          | None => Some None
          | Some _ => if ext_count e <? idx then Some None else l ← sel e; x ← l !! Z.to_nat idx; t ← x; Some (Some t)
          end
      end
  end.

Definition sftp_extensions_get_name : option sftp -> Z -> run (option bytes) := get_entry ext_name.
Definition sftp_extensions_get_data : option sftp -> Z -> run (option bytes) := get_entry ext_data.

(** [strcmp] of the text at [p] and [t]. *)
Definition same_text (p t : bytes) : run bool := x ← text_of p; Some (bool_decide (x = t)).

Fixpoint supported_from (n : nat) (i : Z) (o : option sftp) (name data : bytes) : run Z :=
  match n with
  | O => Some 0
  | S n =>
      en ← sftp_extensions_get_name o i;
      ed ← sftp_extensions_get_data o i;
      found ← match en, ed with
              | Some en, Some ed => a ← same_text en name; if (a : bool) then same_text ed data else Some false
              | _, _ => Some false
              end;
      if (found : bool) then Some 1 else supported_from n (i + 1) o name data
  end.

Definition sftp_extension_supported (o : option sftp) (name data : option bytes) : run Z :=
  match o, name, data with
  | Some _, Some name, Some data => supported_from (Z.to_nat (sftp_extensions_get_count o)) 0 o name data
  | _, _, _ => Some 0
  end.

(** [sftp_server_init]: the client's version is used although the read is not checked;
    without its four bytes it has no value. *)
Definition sftp_server_init s : run (Z * sftp) :=
  '(ok, s) ← sftp_packet_read s;
  if negb ok then Some (-1, s) else
  packet ← read_packet s;
  if negb (pk_type packet =? SSH_FXP_INIT) then Some (-1, s) else
  payload ← pk_payload packet;
  '(_, v, payload) ← ssh_buffer_get_u32 payload;
  v ← v;
  let version_ := ntohl v in
  let s := set_packet (mk_packet (pk_type packet) (Some payload)) s in
  let s := set_versions (server_version s) (s32 version_) (version s) s in
  reply ← ssh_buffer_new;
  match reply with
  | None => Some (-1, s)
  | Some reply =>
      '(rc, reply) ← ssh_buffer_pack reply (cstr "dssss")
        [VInt LIBSFTP_VERSION; VCstr (cstr "posix-rename@openssh.com"); VCstr (cstr "1");
         VCstr (cstr "hardlink@openssh.com"); VCstr (cstr "1")];
      if negb (rc =? SSH_OK) then Some (-1, s) else
      '(n, _, s) ← sftp_packet_write SSH_FXP_VERSION reply s;
      if n <? 0 then Some (-1, s) else
      Some (0, set_versions (server_version s) (client_version s)
                 (if LIBSFTP_VERSION <? version_ then LIBSFTP_VERSION else s32 version_) s)
  end.
End Sftp.

#[global] Arguments sftp_packet_write : simpl never.
#[global] Arguments sftp_packet_read : simpl never.
#[global] Arguments sftp_parse_attr : simpl never.
#[global] Arguments p_attr_3 : simpl never.
#[global] Arguments p_attr_4 : simpl never.
#[global] Arguments buffer_add_attributes : simpl never.
