(* ===== verification/SftpClient.v ===== *)
(** * SFTP: the operations of a client ([libssh/src/sftp.c])

    Opening, reading, writing, listing, the operations on paths and attributes.  The
    functions repeat the same steps around their request, which are the first section; a
    file or a directory is a value that the call takes and gives back, the session is
    passed with it. *)

From stdpp Require Import gmap.
From S2P Require Import Prelude SshString Buffer Bignum BufferPack Token Session Packet Kex Channel Sftp.

(** The [open] flags of the C library. *)
Definition O_WRONLY : Z := 1.
Definition O_RDWR : Z := 2.
Definition O_CREAT : Z := 0x40.
Definition O_EXCL : Z := 0x80.
Definition O_TRUNC : Z := 0x200.
Definition O_APPEND : Z := 0x400.

Definition SSH_FXF_READ : Z := 0x1.
Definition SSH_FXF_WRITE : Z := 0x2.
Definition SSH_FXF_APPEND : Z := 0x4.
Definition SSH_FXF_CREAT : Z := 0x8.
Definition SSH_FXF_TRUNC : Z := 0x10.
Definition SSH_FXF_EXCL : Z := 0x20.
Definition SSH_FXF_RENAME_OVERWRITE : Z := 1.

Record sftp_dir := mk_dir {
  d_name : bytes;
  d_handle : option ssh_string;
  d_buffer : option ssh_buffer;
  d_count : Z;
  d_eof : Z
}.

Record sftp_statvfs_t := mk_statvfs {
  f_bsize : Z; f_frsize : Z; f_blocks : Z; f_bfree : Z; f_bavail : Z; f_files : Z; f_ffree : Z; f_favail : Z;
  f_fsid : Z; f_flag : Z; f_namemax : Z
}.

Definition sizeof_sftp_dir : Z := 40.
Definition sizeof_sftp_statvfs : Z := 88.

(** [ZERO_STRUCT (attr)] and the fields the callers set. *)
Definition attr_with (flags uid gid permissions atime atime_ns mtime mtime_ns : Z) : sftp_attributes :=
  mk_attr None None flags 0 0 uid gid None None permissions 0 atime atime_ns 0 0 0 mtime mtime_ns None 0 None None.

Definition set_offset (v : Z) (f : sftp_file) : sftp_file := mk_file v (f_handle f) (f_eof f) (f_nonblocking f).
Definition set_eof (v : Z) (f : sftp_file) : sftp_file := mk_file (f_offset f) (f_handle f) v (f_nonblocking f).
Definition set_dir_buffer (b : option ssh_buffer) (count : Z) (d : sftp_dir) : sftp_dir :=
  mk_dir (d_name d) (d_handle d) b count (d_eof d).
Definition set_dir_eof (v : Z) (d : sftp_dir) : sftp_dir :=
  mk_dir (d_name d) (d_handle d) (d_buffer d) (d_count d) v.

Section Client.
Context `{Allocator} `{BignumLib} {Ch : Type} `{SftpChannel Ch}.
#[local] Abbreviation sftp := (sftp_session Ch).
Implicit Type s : sftp.
Variable fuel : nat.

(** ** The steps of a request *)

Section Steps.
Context {R : Type}.

(** A buffer and a number for the request, and its first fields. *)
Definition new_request (fail : R) s (k : Z -> ssh_buffer -> sftp -> run (R * sftp)) : run (R * sftp) :=
  o ← ssh_buffer_new;
  match o with
  | None => Some (fail, sftp_set_error SSH_FX_FAILURE s)
  | Some b => let '(id, s) := sftp_get_new_id s in k id b s
  end.

(** [sftp_open] and [sftp_read] leave the error alone when there is no buffer. *)
Definition new_request_quiet (fail : R) s (k : Z -> ssh_buffer -> sftp -> run (R * sftp)) : run (R * sftp) :=
  o ← ssh_buffer_new;
  match o with
  | None => Some (fail, s)
  | Some b => let '(id, s) := sftp_get_new_id s in k id b s
  end.

Definition or_failure (r : run (Z * ssh_buffer)) (fail : R) s (k : ssh_buffer -> run (R * sftp)) : run (R * sftp) :=
  '(rc, b) ← r;
  if negb (rc =? SSH_OK) then Some (fail, sftp_set_error SSH_FX_FAILURE s) else k b.

(** Sending, and waiting for the reply. *)
Definition exchange (type : Z) (id : Z) (fail : R) (b : ssh_buffer) s
    (k : sftp_message -> sftp -> run (R * sftp)) : run (R * sftp) :=
  '(n, _, s) ← sftp_packet_write type b s;
  if n <? 0 then Some (fail, s) else
  '(w, s) ← wait_reply fuel fuel false id s;
  match w with
  | Got msg => k msg s
  | _ => Some (fail, s)
  end.

(** The status of a reply, which becomes the error of the session. *)
Definition with_status (msg : sftp_message) (fail : R) s (k : Z -> sftp -> run (R * sftp)) : run (R * sftp) :=
  '(o, s) ← parse_status_msg msg s;
  match o with
  | None => Some (fail, s)
  | Some st => k (status st) (sftp_set_error (status st) s)
  end.

Definition bad_message (fail : R) s : run (R * sftp) := Some (fail, sftp_set_error SSH_FX_BAD_MESSAGE s).
End Steps.

(** The answer of the operations that only have a status. *)
Definition status_only (msg : sftp_message) s : run (Z * sftp) :=
  if m_type msg =? SSH_FXP_STATUS then
    with_status msg (-1) s (fun st s => Some (if st =? SSH_FX_OK then 0 else -1, s))
  else bad_message (-1) s.

(** ** Status of a path *)

Definition sftp_xstat (o : option sftp) (path : option bytes) (param : Z)
    : run (option sftp_attributes * option sftp) :=
  match o with
  | None => Some (None, None)
  | Some s =>
      '(r, s) ←
        match path with
        | None => Some (None, sftp_set_error SSH_FX_FAILURE s)
        | Some path =>
            new_request None s (fun id b s =>
            or_failure (ssh_buffer_pack b (cstr "ds") [VInt id; VCstr path]) None s (fun b =>
            exchange param id None b s (fun msg s =>
            if m_type msg =? SSH_FXP_ATTRS then
              payload ← m_payload msg;
              '(a, _, s) ← sftp_parse_attr payload false s; Some (a, s)
            else if m_type msg =? SSH_FXP_STATUS then with_status msg None s (fun _ s => Some (None, s))
            else bad_message None s)))
        end;
      Some (r, Some s)
  end.

Definition sftp_stat (s : option sftp) (path : option bytes) : run (option sftp_attributes * option sftp) :=
  sftp_xstat s path SSH_FXP_STAT.
Definition sftp_lstat (s : option sftp) (path : option bytes) : run (option sftp_attributes * option sftp) :=
  sftp_xstat s path SSH_FXP_LSTAT.

(** A call on the session at hand. *)
Definition lstat_of (path : bytes) s : run (option sftp_attributes * sftp) :=
  '(a, o) ← sftp_lstat (Some s) (Some path); s ← o; Some (a, s).
Definition stat_of (path : bytes) s : run (option sftp_attributes * sftp) :=
  '(a, o) ← sftp_stat (Some s) (Some path); s ← o; Some (a, s).

Definition sftp_fstat (file : option sftp_file) s : run (option sftp_attributes * sftp) :=
  match file with
  | None => Some (None, s)
  | Some f =>
      new_request None s (fun id b s =>
      or_failure (ssh_buffer_pack b (cstr "dS") [VInt id; VString (f_handle f)]) None s (fun b =>
      exchange SSH_FXP_FSTAT id None b s (fun msg s =>
      if m_type msg =? SSH_FXP_ATTRS then
        payload ← m_payload msg;
        '(a, _, s) ← sftp_parse_attr payload false s; Some (a, s)
      else if m_type msg =? SSH_FXP_STATUS then with_status msg None s (fun _ s => Some (None, s))
      else bad_message None s)))
  end.

(** ** Directories *)

Definition sftp_opendir (o : option sftp) (path : bytes) : run (option sftp_dir * option sftp) :=
  match o with
  | None => Some (None, None)
  | Some s =>
      '(r, s) ←
        new_request None s (fun id b s =>
        or_failure (ssh_buffer_pack b (cstr "ds") [VInt id; VCstr path]) None s (fun b =>
        exchange SSH_FXP_OPENDIR id None b s (fun msg s =>
        if m_type msg =? SSH_FXP_STATUS then with_status msg None s (fun _ s => Some (None, s))
        else if m_type msg =? SSH_FXP_HANDLE then
          '(file, s) ← parse_handle_msg msg s;
          match file with
          | None => Some (None, s)
          | Some file =>
              if negb (alloc sizeof_sftp_dir) then Some (None, s) else
              Some (option_map (fun name => mk_dir name (f_handle file) None 0 0) (strdup path), s)
          end
        else Some (None, s))));
      Some (r, Some s)
  end.

(** One packet of entries; [None]: [sftp_readdir] returns [NULL] at once. *)
Definition fetch_names (dir : sftp_dir) s : run (option () * sftp_dir * sftp) :=
  '(r, s) ←
    new_request (None, dir) s (fun id b s =>
    or_failure (ssh_buffer_pack b (cstr "dS") [VInt id; VString (d_handle dir)]) (None, dir) s (fun b =>
    exchange SSH_FXP_READDIR id (None, dir) b s (fun msg s =>
    if m_type msg =? SSH_FXP_STATUS then
      with_status msg (None, dir) s (fun st s =>
        Some (None, if st =? SSH_FX_EOF then set_dir_eof 1 dir else dir, s))
    else if m_type msg =? SSH_FXP_NAME then
      payload ← m_payload msg;
      '(_, v, payload) ← ssh_buffer_get_u32 payload;
      let count := ntohl (default (d_count dir) v) in
      Some (Some (), set_dir_buffer (Some payload) count dir, s)
    else bad_message (None, dir) s)));
  Some (r.1, r.2, s).

Definition sftp_readdir (dir : sftp_dir) s : run (option sftp_attributes * sftp_dir * sftp) :=
  '(go, dir, s) ←
    match d_buffer dir with
    | None => fetch_names dir s
    | Some _ => Some (Some (), dir, s)
    end;
  match go with
  | None => Some (None, dir, s)
  | Some _ =>
      if d_count dir =? 0 then Some (None, dir, s) else
      buf ← d_buffer dir;
      '(attr, buf, s) ← sftp_parse_attr buf true s;
      match attr with
      | None => Some (None, set_dir_buffer (Some buf) (d_count dir) dir, s)
      | Some a =>
          let count := u32 (d_count dir - 1) in
          Some (Some a, set_dir_buffer (if count =? 0 then None else Some buf) count dir, s)
      end
  end.

Definition sftp_dir_eof (dir : sftp_dir) : Z := d_eof dir.

(** ** Closing *)

Definition sftp_handle_close (handle : option ssh_string) s : run (Z * sftp) :=
  new_request (-1) s (fun id b s =>
  or_failure (ssh_buffer_pack b (cstr "dS") [VInt id; VString handle]) (-1) s (fun b =>
  exchange SSH_FXP_CLOSE id (-1) b s status_only)).

(** The code; the file is gone. *)
Definition sftp_close (file : sftp_file) s : run (Z * sftp) :=
  match f_handle file with None => Some (0, s) | Some h => sftp_handle_close (Some h) s end.

Definition sftp_closedir (dir : sftp_dir) s : run (Z * sftp) :=
  match d_handle dir with None => Some (0, s) | Some h => sftp_handle_close (Some h) s end.

(** ** Opening *)

Definition has_all (flags f : Z) : bool := Z.land flags f =? f.

Definition fxf_flags (flags : Z) : Z :=
  let v := if has_all flags O_RDWR then Z.lor SSH_FXF_WRITE SSH_FXF_READ
           else if has_all flags O_WRONLY then SSH_FXF_WRITE else SSH_FXF_READ in
  let v := if has_all flags O_CREAT then Z.lor v SSH_FXF_CREAT else v in
  let v := if has_all flags O_TRUNC then Z.lor v SSH_FXF_TRUNC else v in
  let v := if has_all flags O_EXCL then Z.lor v SSH_FXF_EXCL else v in
  if has_all flags O_APPEND then Z.lor v SSH_FXF_APPEND else v.

(** A file opened for appending starts at the end. *)
Definition seek_end (file : bytes) (handle : sftp_file) s : run (option sftp_file * sftp) :=
  '(a, s) ← stat_of file s;
  match a with
  | None => '(_, s) ← sftp_close handle s; Some (None, s)
  | Some a =>
      if negb (has_all (a_flags a) SSH_FILEXFER_ATTR_SIZE) then
        '(_, s) ← sftp_close handle s; Some (None, sftp_set_error SSH_FX_FAILURE s)
      else Some (Some (set_offset (a_size a) handle), s)
  end.

Definition sftp_open (file : bytes) (flags mode : Z) s : run (option sftp_file * sftp) :=
  new_request_quiet None s (fun id b s =>
  or_failure (ssh_buffer_pack b (cstr "dsd") [VInt id; VCstr file; VInt (fxf_flags flags)]) None s (fun b =>
  or_failure (buffer_add_attributes b (Some (attr_with SSH_FILEXFER_ATTR_PERMISSIONS 0 0 mode 0 0 0 0))) None s (fun b =>
  exchange SSH_FXP_OPEN id None b s (fun msg s =>
  if m_type msg =? SSH_FXP_STATUS then with_status msg None s (fun _ s => Some (None, s))
  else if m_type msg =? SSH_FXP_HANDLE then
    '(handle, s) ← parse_handle_msg msg s;
    match handle with
    | None => Some (None, s)
    | Some handle => if has_all flags O_APPEND then seek_end file handle s else Some (Some handle, s)
    end
  else bad_message None s)))).

Definition sftp_file_set_nonblocking (f : sftp_file) : sftp_file := mk_file (f_offset f) (f_handle f) (f_eof f) 1.
Definition sftp_file_set_blocking (f : sftp_file) : sftp_file := mk_file (f_offset f) (f_handle f) (f_eof f) 0.

(** ** Reading and writing *)

(** [memcpy] of the [len] bytes of a string to the caller. *)
Definition copy_string (x : ssh_string) (len : Z) : run bytes :=
  d ← ssh_string_data (Some x); memcpy (zrep len Byte.x00) 0 d 0 len.

(** The code, the bytes stored for the caller, the file and the session. *)
Definition read_result : Type := Z * bytes * sftp_file.
Definition returns (rc : Z) (f : sftp_file) s : run (read_result * sftp) := Some (rc, [], f, s).

(** [SSH_FXP_DATA]: the bytes, at most [size] of them. *)
Definition data_reply (msg : sftp_message) (size : Z) (f : sftp_file) (moved : Z -> Z) s : run (read_result * sftp) :=
  payload ← m_payload msg;
  '(x, _) ← ssh_buffer_get_ssh_string payload;
  match x with
  | None => returns (-1) f s
  | Some x =>
      let len := ssh_string_len (Some x) in
      if size <? len then returns (-1) f s else
      d ← copy_string x len;
      Some (len, d, set_offset (moved len) f, s)
  end.

Definition sftp_read (f : sftp_file) (count : Z) s : run (read_result * sftp) :=
  if negb (f_eof f =? 0) then returns 0 f s else
  new_request_quiet (-1, [], f) s (fun id b s =>
  or_failure (ssh_buffer_pack b (cstr "dSqd") [VInt id; VString (f_handle f); VInt (f_offset f); VInt count])
    (-1, [], f) s (fun b =>
  '(n, _, s) ← sftp_packet_write SSH_FXP_READ b s;
  if n <? 0 then returns (-1) f s else
  '(w, s) ← wait_reply fuel fuel (negb (f_nonblocking f =? 0)) id s;
  match w with
  | WouldBlock => returns 0 f s
  | Nasty => returns (-1) f s
  | Got msg =>
      if m_type msg =? SSH_FXP_STATUS then
        with_status msg (-1, [], f) s (fun st s =>
          if st =? SSH_FX_EOF then returns 0 (set_eof 1 f) s else returns (-1) f s)
      else if m_type msg =? SSH_FXP_DATA then data_reply msg count f (fun len => u64 (f_offset f + len)) s
      else bad_message (-1, [], f) s
  end)).

(** The number of the request, as an [int]. *)
Definition sftp_async_read_begin (f : sftp_file) (len : Z) s : run (Z * sftp_file * sftp) :=
  new_request (-1, f) s (fun id b s =>
  or_failure (ssh_buffer_pack b (cstr "dSqd") [VInt id; VString (f_handle f); VInt (f_offset f); VInt len])
    (-1, f) s (fun b =>
  '(n, _, s) ← sftp_packet_write SSH_FXP_READ b s;
  if n <? 0 then Some (-1, f, s) else
  Some (s32 id, set_offset (u64 (f_offset f + len)) f, s))).

Definition sftp_async_read (file : option sftp_file) (size id : Z) s : run (Z * bytes * option sftp_file * sftp) :=
  match file with
  | None => Some (SSH_ERROR, [], None, s)
  | Some f =>
      if negb (f_eof f =? 0) then Some (0, [], Some f, s) else
      '(w, s) ← wait_reply fuel fuel (negb (f_nonblocking f =? 0)) id s;
      '(r, s) ←
        match w with
        | WouldBlock => returns SSH_AGAIN f s
        | Nasty => returns SSH_ERROR f s
        | Got msg =>
            if m_type msg =? SSH_FXP_STATUS then
              with_status msg (-1, [], f) s (fun st s =>
                if st =? SSH_FX_EOF then returns SSH_OK (set_eof 1 f) s else returns SSH_ERROR f s)
            else if m_type msg =? SSH_FXP_DATA then
              data_reply msg size f (fun len => u64 (f_offset f - u32 (size - len))) s
            else bad_message (SSH_ERROR, [], f) s
        end;
      Some (r.1, Some r.2, s)
  end.

(** [buf] with the [count] bytes to write. *)
Definition sftp_write (f : sftp_file) (buf : option bytes) (count : Z) s : run (Z * sftp_file * sftp) :=
  new_request (-1, f) s (fun id b s =>
  or_failure (ssh_buffer_pack b (cstr "dSqdP") [VInt id; VString (f_handle f); VInt (f_offset f); VInt count; VLen count; VPtr buf])
    (-1, f) s (fun b =>
  exchange SSH_FXP_WRITE id (-1, f) b s (fun msg s =>
  if m_type msg =? SSH_FXP_STATUS then
    with_status msg (-1, f) s (fun st s =>
      Some (if st =? SSH_FX_OK then count else -1, set_offset (u64 (f_offset f + count)) f, s))
  else bad_message (-1, f) s))).

Definition sftp_seek (file : option sftp_file) (new_offset : Z) : Z * option sftp_file :=
  match file with None => (-1, None) | Some f => (0, Some (set_eof 0 (set_offset (u32 new_offset) f))) end.
Definition sftp_seek64 (file : option sftp_file) (new_offset : Z) : Z * option sftp_file :=
  match file with None => (-1, None) | Some f => (0, Some (set_eof 0 (set_offset (u64 new_offset) f))) end.
Definition sftp_tell (f : sftp_file) : Z := u64 (f_offset f).
Definition sftp_tell64 (f : sftp_file) : Z := f_offset f.
Definition sftp_rewind (f : sftp_file) : sftp_file := set_eof 0 (set_offset 0 f).

(** ** Paths *)

Definition path_request (type : Z) (path : bytes) s : run (Z * sftp) :=
  new_request (-1) s (fun id b s =>
  or_failure (ssh_buffer_pack b (cstr "ds") [VInt id; VCstr path]) (-1) s (fun b =>
  exchange type id (-1) b s status_only)).

Definition sftp_unlink (file : bytes) s : run (Z * sftp) := path_request SSH_FXP_REMOVE file s.
Definition sftp_rmdir (directory : bytes) s : run (Z * sftp) := path_request SSH_FXP_RMDIR directory s.

Definition sftp_mkdir (directory : bytes) (mode : Z) s : run (Z * sftp) :=
  new_request (-1) s (fun id b s =>
  or_failure (ssh_buffer_pack b (cstr "ds") [VInt id; VCstr directory]) (-1) s (fun b =>
  or_failure (buffer_add_attributes b (Some (attr_with SSH_FILEXFER_ATTR_PERMISSIONS 0 0 mode 0 0 0 0))) (-1) s (fun b =>
  exchange SSH_FXP_MKDIR id (-1) b s (fun msg s =>
  if m_type msg =? SSH_FXP_STATUS then
    with_status msg (-1) s (fun st s =>
      if st =? SSH_FX_FAILURE then
        '(a, s) ← lstat_of directory s;
        Some (-1, if some a then sftp_set_error SSH_FX_FILE_ALREADY_EXISTS s else s)
      else Some (if st =? SSH_FX_OK then 0 else -1, s))
  else bad_message (-1) s)))).

(** From version 4 on, the flag is added to the packet without a check. *)
Definition sftp_rename (original newname : bytes) s : run (Z * sftp) :=
  new_request (-1) s (fun id b s =>
  or_failure (ssh_buffer_pack b (cstr "dss") [VInt id; VCstr original; VCstr newname]) (-1) s (fun b =>
  '(_, b) ← (if 4 <=? version s then ssh_buffer_add_u32 b SSH_FXF_RENAME_OVERWRITE else Some (0, b));
  exchange SSH_FXP_RENAME id (-1) b s status_only)).

Definition sftp_setstat (file : bytes) (attr : option sftp_attributes) s : run (Z * sftp) :=
  new_request (-1) s (fun id b s =>
  or_failure (ssh_buffer_pack b (cstr "ds") [VInt id; VCstr file]) (-1) s (fun b =>
  or_failure (buffer_add_attributes b attr) (-1) s (fun b =>
  exchange SSH_FXP_SETSTAT id (-1) b s status_only))).

Definition sftp_chown (file : bytes) (owner group : Z) s : run (Z * sftp) :=
  sftp_setstat file (Some (attr_with SSH_FILEXFER_ATTR_UIDGID owner group 0 0 0 0 0)) s.
Definition sftp_chmod (file : bytes) (mode : Z) s : run (Z * sftp) :=
  sftp_setstat file (Some (attr_with SSH_FILEXFER_ATTR_PERMISSIONS 0 0 mode 0 0 0 0)) s.

(** The times in seconds and microseconds; the fields have 32 bits. *)
Definition sftp_utimes (file : bytes) (atime mtime : Z * Z) s : run (Z * sftp) :=
  sftp_setstat file
    (Some (attr_with (Z.lor (Z.lor SSH_FILEXFER_ATTR_ACCESSTIME SSH_FILEXFER_ATTR_MODIFYTIME) SSH_FILEXFER_ATTR_SUBSECOND_TIMES)
             0 0 0 (u32 atime.1) (u32 atime.2) (u32 mtime.1) (u32 mtime.2))) s.

(** OpenSSH takes the two paths of a link in the other order. *)
Definition sftp_symlink (o : option sftp) (target dest : option bytes) : run (Z * option sftp) :=
  match o with
  | None => Some (-1, None)
  | Some s =>
      '(r, s) ←
        match target, dest with
        | Some target, Some dest =>
            new_request (-1) s (fun id b s =>
            let paths := if negb (chan_openssh (channel s) =? 0) then [VCstr target; VCstr dest] else [VCstr dest; VCstr target] in
            or_failure (ssh_buffer_pack b (cstr "dss") (VInt id :: paths)) (-1) s (fun b =>
            exchange SSH_FXP_SYMLINK id (-1) b s status_only))
        | _, _ => Some (-1, sftp_set_error SSH_FX_FAILURE s)
        end;
      Some (r, Some s)
  end.

(** The name in a packet of names. *)
Definition name_reply (msg : sftp_message) s : run (option bytes * sftp) :=
  if m_type msg =? SSH_FXP_NAME then
    payload ← m_payload msg;
    '(rc, os, _, _) ← ssh_buffer_unpack payload (cstr "ds") [UPtr; UPtr];
    if negb (rc =? SSH_OK) then Some (None, sftp_set_error SSH_FX_FAILURE s) else Some (block_slot os 1, s)
  else if m_type msg =? SSH_FXP_STATUS then with_status msg None s (fun _ s => Some (None, s))
  else bad_message None s.

Definition name_request (type : Z) (path : bytes) s : run (option bytes * sftp) :=
  new_request None s (fun id b s =>
  or_failure (ssh_buffer_pack b (cstr "ds") [VInt id; VCstr path]) None s (fun b =>
  exchange type id None b s name_reply)).

(** The errors of [sftp_readlink] about its arguments go to [ssh_set_error] with the
    [sftp_session], which is no [ssh_session]: undefined. *)
Definition sftp_readlink (o : option sftp) (path : option bytes) : run (option bytes * option sftp) :=
  match o with
  | None => Some (None, None)
  | Some s =>
      path ← path;
      if version s <? 3 then None else
      '(r, s) ← name_request SSH_FXP_READLINK path s;
      Some (r, Some s)
  end.

Definition sftp_canonicalize_path (o : option sftp) (path : option bytes) : run (option bytes * option sftp) :=
  match o with
  | None => Some (None, None)
  | Some s =>
      '(r, s) ← match path with
                | None => Some (None, sftp_set_error SSH_FX_FAILURE s)
                | Some path => name_request SSH_FXP_REALPATH path s
                end;
      Some (r, Some s)
  end.

(** ** File systems *)

Definition sftp_parse_statvfs (buf : ssh_buffer) s : run (option sftp_statvfs_t * sftp) :=
  if negb (alloc sizeof_sftp_statvfs) then Some (None, sftp_set_error SSH_FX_FAILURE s) else
  '(rc, os, _, _) ← ssh_buffer_unpack buf (cstr "qqqqqqqqqqq") (replicate 11 UPtr);
  if negb (rc =? SSH_OK) then Some (None, sftp_set_error SSH_FX_FAILURE s) else
  let q i := int_slot os i 0 in
  Some (Some (mk_statvfs (q 0%nat) (q 1%nat) (q 2%nat) (q 3%nat) (q 4%nat) (q 5%nat) (q 6%nat) (q 7%nat) (q 8%nat) (q 9%nat) (q 10%nat)), s).

Definition statvfs_reply (msg : sftp_message) s : run (option sftp_statvfs_t * sftp) :=
  if m_type msg =? SSH_FXP_EXTENDED_REPLY then payload ← m_payload msg; sftp_parse_statvfs payload s
  else if m_type msg =? SSH_FXP_STATUS then with_status msg None s (fun _ s => Some (None, s))
  else bad_message None s.

(** The refusal of old versions is that of [sftp_readlink]. *)
Definition sftp_statvfs (o : option sftp) (path : option bytes) : run (option sftp_statvfs_t * option sftp) :=
  match o with
  | None => Some (None, None)
  | Some s =>
      '(r, s) ←
        match path with
        | None => Some (None, sftp_set_error SSH_FX_FAILURE s)
        | Some path =>
            if version s <? 3 then None else
            new_request None s (fun id b s =>
            or_failure (ssh_buffer_pack b (cstr "dss") [VInt id; VCstr (cstr "statvfs@openssh.com"); VCstr path]) None s (fun b =>
            exchange SSH_FXP_EXTENDED id None b s statvfs_reply))
        end;
      Some (r, Some s)
  end.

Definition sftp_fstatvfs (file : option sftp_file) s : run (option sftp_statvfs_t * sftp) :=
  match file with
  | None => Some (None, s)
  | Some f =>
      new_request None s (fun id b s =>
      or_failure (ssh_buffer_pack b (cstr "dsS") [VInt id; VCstr (cstr "fstatvfs@openssh.com"); VString (f_handle f)]) None s (fun b =>
      exchange SSH_FXP_EXTENDED id None b s statvfs_reply))
  end.

Definition sftp_fsync (file : option sftp_file) s : run (Z * sftp) :=
  match file with
  | None => Some (-1, s)
  | Some f =>
      new_request (-1) s (fun id b s =>
      or_failure (ssh_buffer_pack b (cstr "dsS") [VInt id; VCstr (cstr "fsync@openssh.com"); VString (f_handle f)]) (-1) s (fun b =>
      exchange SSH_FXP_EXTENDED id (-1) b s status_only))
  end.
End Client.
