(* ===== verification/SftpServer.v ===== *)
(** * SFTP: the server ([libssh/src/sftpserver.c])

    Reading the requests of a client, the replies, and the table of handles.  The
    block of the handles of a session has [SFTP_HANDLES] addresses; reading outside of
    it has no result. *)

From stdpp Require Import gmap.
From S2P Require Import Prelude SshString Buffer Bignum BufferPack Token Session Packet Kex Channel Sftp.

Definition SFTP_HANDLES : Z := 256.
Definition sizeof_sftp_client_message : Z := 104.

Record sftp_client_message := mk_client_message {
  c_type : Z;
  c_id : Z;
  c_filename : option bytes;
  c_flags : Z;
  c_attr : option sftp_attributes;
  c_handle : option ssh_string;
  c_offset : Z;
  c_len : Z;
  c_attr_num : Z;
  c_attrbuf : option ssh_buffer;
  c_data : option ssh_string;
  c_complete_message : option ssh_buffer;
  c_str_data : option bytes;
  c_submessage : option bytes
}.

(** What the packet of a request carries, by type. *)
Record request_fields := mk_fields {
  r_filename : option bytes;
  r_flags : Z;
  r_attr : option sftp_attributes;
  r_handle : option ssh_string;
  r_offset : Z;
  r_len : Z;
  r_data : option ssh_string;
  r_submessage : option bytes
}.

Definition no_fields : request_fields := mk_fields None 0 None None 0 0 None None.

Section Server.
Context `{Allocator} `{BignumLib} {Ch : Type} `{SftpChannel Ch}.
#[local] Abbreviation sftp := (sftp_session Ch).
Implicit Type s : sftp.
Variable fuel : nat.

(** ** Requests *)

(** A step that may change the session; [None] is a refused packet. *)
Definition reader (A : Type) : Type := ssh_buffer -> sftp -> run (option A * ssh_buffer * sftp).

(** [ssh_buffer_unpack (payload, ...)], checked. *)
Definition read_slots {A} (format : string) (args : list ua) (k : list slot -> reader A) : reader A := fun b s =>
  '(rc, os, _, b) ← ssh_buffer_unpack b (cstr format) args;
  if negb (rc =? SSH_OK) then Some (None, b, s) else k os b s.

Definition done {A} (a : A) : reader A := fun b s => Some (Some a, b, s).

Definition read_attr {A} (k : sftp_attributes -> reader A) : reader A := fun b s =>
  '(a, b, s) ← sftp_parse_attr b false s;
  match a with None => Some (None, b, s) | Some a => k a b s end.

Definition read_handle {A} (k : ssh_string -> reader A) : reader A := fun b s =>
  '(h, b) ← ssh_buffer_get_ssh_string b;
  match h with None => Some (None, b, s) | Some h => k h b s end.

Definition string_slot (os : list slot) (i : nat) : option ssh_string :=
  match os !! i with Some (SlotString x) => x | _ => None end.

(** The request that names an extension: two of them have paths. *)
Definition read_extended : reader request_fields :=
  read_slots "s" [UPtr] (fun os b s =>
    sub ← block_slot os 0;
    text ← text_of sub;
    if bool_decide (text = cstr "hardlink@openssh.com") || bool_decide (text = cstr "posix-rename@openssh.com") then
      read_slots "sS" [UPtr; UPtr] (fun os =>
        done (mk_fields (block_slot os 0) 0 None None 0 0 (string_slot os 1) (Some sub))) b s
    else done (mk_fields None 0 None None 0 0 None (Some sub)) b s).

(** The fields after the number, by the type of the request. *)
Definition read_request (type : Z) : reader request_fields :=
  let one_of l := existsb (Z.eqb type) l in
  if one_of [SSH_FXP_CLOSE; SSH_FXP_READDIR] then
    read_handle (fun h => done (mk_fields None 0 None (Some h) 0 0 None None))
  else if type =? SSH_FXP_READ then
    read_slots "Sqd" [UPtr; UPtr; UPtr] (fun os =>
      done (mk_fields None 0 None (string_slot os 0) (int_slot os 1 0) (int_slot os 2 0) None None))
  else if type =? SSH_FXP_WRITE then
    read_slots "SqS" [UPtr; UPtr; UPtr] (fun os =>
      done (mk_fields None 0 None (string_slot os 0) (int_slot os 1 0) 0 (string_slot os 2) None))
  else if one_of [SSH_FXP_REMOVE; SSH_FXP_RMDIR; SSH_FXP_OPENDIR; SSH_FXP_READLINK; SSH_FXP_REALPATH] then
    read_slots "s" [UPtr] (fun os => done (mk_fields (block_slot os 0) 0 None None 0 0 None None))
  else if one_of [SSH_FXP_RENAME; SSH_FXP_SYMLINK] then
    read_slots "sS" [UPtr; UPtr] (fun os =>
      done (mk_fields (block_slot os 0) 0 None None 0 0 (string_slot os 1) None))
  else if one_of [SSH_FXP_MKDIR; SSH_FXP_SETSTAT] then
    read_slots "s" [UPtr] (fun os => read_attr (fun a =>
      done (mk_fields (block_slot os 0) 0 (Some a) None 0 0 None None)))
  else if type =? SSH_FXP_FSETSTAT then
    read_handle (fun h => read_attr (fun a => done (mk_fields None 0 (Some a) (Some h) 0 0 None None)))
  else if one_of [SSH_FXP_LSTAT; SSH_FXP_STAT] then
    read_slots "s" [UPtr] (fun os b s =>
      let name := block_slot os 0 in
      if 3 <? version s then
        '(_, os, _, b) ← ssh_buffer_unpack b (cstr "d") [UPtr];
        done (mk_fields name (int_slot os 0 0) None None 0 0 None None) b s
      else done (mk_fields name 0 None None 0 0 None None) b s)
  else if type =? SSH_FXP_OPEN then
    read_slots "sd" [UPtr; UPtr] (fun os => read_attr (fun a =>
      done (mk_fields (block_slot os 0) (int_slot os 1 0) (Some a) None 0 0 None None)))
  else if type =? SSH_FXP_FSTAT then
    read_slots "S" [UPtr] (fun os => done (mk_fields None 0 None (string_slot os 0) 0 0 None None))
  else if type =? SSH_FXP_EXTENDED then read_extended
  else fun b s => Some (None, b, s).

(** The number is kept as it is in the packet. *)
Definition sftp_get_client_message s : run (option sftp_client_message * sftp) :=
  if negb (alloc sizeof_sftp_client_message) then Some (None, s) else
  '(ok, s) ← sftp_packet_read fuel s;
  if negb ok then Some (None, s) else
  packet ← read_packet s;
  payload ← pk_payload packet;
  copy ← ssh_buffer_new;
  match copy with
  | None => Some (None, s)
  | Some copy =>
      '(rc, copy) ← add_data copy (ssh_buffer_get payload) (ssh_buffer_get_len payload);
      if rc <? 0 then Some (None, s) else
      '(_, id, payload) ← ssh_buffer_get_u32 payload;
      '(o, payload, s) ← read_request (pk_type packet) payload s;
      let s := set_packet (mk_packet (pk_type packet) (Some payload)) s in
      Some (option_map (fun r =>
              mk_client_message (pk_type packet) (default 0 id) (r_filename r) (r_flags r) (r_attr r) (r_handle r)
                (r_offset r) (r_len r) 0 None (r_data r) (Some copy) None (r_submessage r)) o, s)
  end.

Definition set_complete (b : ssh_buffer) (m : sftp_client_message) : sftp_client_message :=
  mk_client_message (c_type m) (c_id m) (c_filename m) (c_flags m) (c_attr m) (c_handle m) (c_offset m) (c_len m)
    (c_attr_num m) (c_attrbuf m) (c_data m) (Some b) (c_str_data m) (c_submessage m).
Definition set_filename (v : option bytes) (m : sftp_client_message) : sftp_client_message :=
  mk_client_message (c_type m) (c_id m) v (c_flags m) (c_attr m) (c_handle m) (c_offset m) (c_len m)
    (c_attr_num m) (c_attrbuf m) (c_data m) (c_complete_message m) (c_str_data m) (c_submessage m).
Definition set_str_data (v : option bytes) (m : sftp_client_message) : sftp_client_message :=
  mk_client_message (c_type m) (c_id m) (c_filename m) (c_flags m) (c_attr m) (c_handle m) (c_offset m) (c_len m)
    (c_attr_num m) (c_attrbuf m) (c_data m) (c_complete_message m) v (c_submessage m).
Definition set_attrs (n : Z) (b : option ssh_buffer) (m : sftp_client_message) : sftp_client_message :=
  mk_client_message (c_type m) (c_id m) (c_filename m) (c_flags m) (c_attr m) (c_handle m) (c_offset m) (c_len m)
    n b (c_data m) (c_complete_message m) (c_str_data m) (c_submessage m).

(** The header stays in front of the copy of the message. *)
Definition sftp_send_client_message (m : sftp_client_message) s : run (Z * sftp_client_message * sftp) :=
  b ← c_complete_message m;
  '(n, b, s) ← sftp_packet_write (c_type m) b s;
  Some (s32 n, set_complete b m, s).

Definition sftp_client_message_set_filename (newname : bytes) (m : sftp_client_message) : sftp_client_message :=
  set_filename (option_map (fun t => t ++ [Byte.x00]) (strdup newname)) m.

Definition sftp_client_message_get_data (m : sftp_client_message) : run (option bytes * sftp_client_message) :=
  match c_str_data m with
  | Some t => Some (Some t, m)
  | None => t ← ssh_string_to_char (c_data m); Some (t, set_str_data t m)
  end.

(** ** Replies *)

(** The calls joined by [||]: the first that fails is the last. *)
Definition and_then (r : run (Z * ssh_buffer)) (k : ssh_buffer -> run (Z * ssh_buffer)) : run (Z * ssh_buffer) :=
  '(rc, b) ← r; if rc <? 0 then Some (-1, b) else k b.

(** The packet of a reply, sent when it could be made. *)
Definition reply (type : Z) (make : ssh_buffer -> run (Z * ssh_buffer)) s : run (Z * sftp) :=
  o ← ssh_buffer_new;
  match o with
  | None => Some (-1, s)
  | Some out =>
      '(rc, out) ← make out;
      if rc <? 0 then Some (-1, s) else
      '(n, _, s) ← sftp_packet_write type out s;
      Some (if n <? 0 then -1 else 0, s)
  end.

Definition sftp_reply_name (m : sftp_client_message) (name : bytes) (attr : option sftp_attributes) s : run (Z * sftp) :=
  reply SSH_FXP_NAME (fun out =>
    file ← ssh_string_from_char (Some name);
    match file with
    | None => Some (-1, out)
    | Some file =>
        and_then (ssh_buffer_add_u32 out (c_id m)) (fun out =>
        and_then (ssh_buffer_add_u32 out (htonl 1)) (fun out =>
        and_then (ssh_buffer_add_ssh_string out (Some file)) (fun out =>
        and_then (ssh_buffer_add_ssh_string out (Some file)) (fun out =>
        buffer_add_attributes out attr))))
    end) s.

Definition sftp_reply_handle (m : sftp_client_message) (handle : option ssh_string) s : run (Z * sftp) :=
  reply SSH_FXP_HANDLE (fun out =>
    and_then (ssh_buffer_add_u32 out (c_id m)) (fun out => ssh_buffer_add_ssh_string out handle)) s.

Definition sftp_reply_attr (m : sftp_client_message) (attr : option sftp_attributes) s : run (Z * sftp) :=
  reply SSH_FXP_ATTRS (fun out =>
    and_then (ssh_buffer_add_u32 out (c_id m)) (fun out => buffer_add_attributes out attr)) s.

(** A name is added to the ones that wait in the message. *)
Definition sftp_reply_names_add (m : sftp_client_message) (file longname : bytes) (attr : option sftp_attributes)
    : run (Z * sftp_client_message) :=
  name ← ssh_string_from_char (Some file);
  match name with
  | None => Some (-1, m)
  | Some name =>
      o ← match c_attrbuf m with Some b => Some (Some b) | None => ssh_buffer_new end;
      match o with
      | None => Some (-1, m)
      | Some b =>
          '(rc, b) ←
            and_then (ssh_buffer_add_ssh_string b (Some name)) (fun b =>
              l ← ssh_string_from_char (Some longname);
              match l with
              | None => Some (-1, b)
              | Some l => and_then (ssh_buffer_add_ssh_string b (Some l)) (fun b => buffer_add_attributes b attr)
              end);
          if rc <? 0 then Some (-1, set_attrs (c_attr_num m) (Some b) m)
          else Some (0, set_attrs (c_attr_num m + 1) (Some b) m)
      end
  end.

(** [attrbuf] is used whether there is one or not.  After a failure it is freed and the
    pointer cleared ([SSH_BUFFER_FREE]), the count is not. *)
Definition sftp_reply_names (m : sftp_client_message) s : run (Z * sftp_client_message * sftp) :=
  let failed := set_attrs (c_attr_num m) None m in
  o ← ssh_buffer_new;
  match o with
  | None => Some (-1, failed, s)
  | Some out =>
      '(rc, out) ←
        and_then (ssh_buffer_add_u32 out (c_id m)) (fun out =>
        and_then (ssh_buffer_add_u32 out (htonl (c_attr_num m))) (fun out =>
        b ← c_attrbuf m;
        add_data out (ssh_buffer_get b) (ssh_buffer_get_len b)));
      if rc <? 0 then Some (-1, failed, s) else
      '(n, _, s) ← sftp_packet_write SSH_FXP_NAME out s;
      if n <? 0 then Some (-1, failed, s) else Some (0, set_attrs 0 None m, s)
  end.

Definition sftp_reply_status (m : sftp_client_message) (status : Z) (message : option bytes) s : run (Z * sftp) :=
  reply SSH_FXP_STATUS (fun out =>
    x ← ssh_string_from_char (Some (default [] message));
    match x with
    | None => Some (-1, out)
    | Some x =>
        and_then (ssh_buffer_add_u32 out (c_id m)) (fun out =>
        and_then (ssh_buffer_add_u32 out (htonl status)) (fun out =>
        and_then (ssh_buffer_add_ssh_string out (Some x)) (fun out => ssh_buffer_add_u32 out 0)))
    end) s.

Definition sftp_reply_data (m : sftp_client_message) (data : option bytes) (len : Z) s : run (Z * sftp) :=
  reply SSH_FXP_DATA (fun out =>
    and_then (ssh_buffer_add_u32 out (c_id m)) (fun out =>
    and_then (ssh_buffer_add_u32 out (ntohl len)) (fun out => add_data out data (u32 len)))) s.

(** ** Handles *)

(** The first free entry from [i] on. *)
Fixpoint free_entry (l : list Z) (i : Z) : Z :=
  match l with
  | [] => i
  | p :: l => if p =? 0 then i else free_entry l (i + 1)
  end.

Definition sftp_handle_alloc (info : Z) s : run (option ssh_string * sftp) :=
  let o := match handles s with
           | Some l => Some l
           | None => if alloc (SFTP_HANDLES * sizeof_ptr) then Some (zrep SFTP_HANDLES 0) else None
           end in
  match o with
  | None => Some (None, s)
  | Some l =>
      let s := set_handles (Some l) s in
      let i := free_entry (ztake SFTP_HANDLES l) 0 in
      if i =? SFTP_HANDLES then Some (None, s) else
      match ssh_string_new 4 with
      | None => Some (None, s)
      | Some x =>
          d ← memcpy (str_data x) 0 (le_bytes 4 i) 0 4;
          Some (Some (mk_string (str_size x) d), set_handles (Some (<[Z.to_nat i := info]> l)) s)
      end
  end.

Definition sftp_handle (handle : option ssh_string) s : run Z :=
  match handles s with
  | None => Some 0
  | Some l =>
      if negb (ssh_string_len handle =? 4) then Some 0 else
      d ← ssh_string_data handle;
      v ← memcpy (zrep 4 Byte.x00) 0 d 0 4;
      let val := le_val v in
      if SFTP_HANDLES <? val then Some 0 else l !! Z.to_nat val
  end.

(** The loop of [sftp_handle_remove]. *)
Fixpoint clear_first (l : list Z) (info : Z) : list Z :=
  match l with
  | [] => []
  | p :: l => if p =? info then 0 :: l else p :: clear_first l info
  end.

Definition sftp_handle_remove (info : Z) s : run sftp :=
  l ← handles s; Some (set_handles (Some (clear_first l info)) s).
End Server.
