(* ===== verification/SftpFrame.v ===== *)
(** * SFTP: packets on a stream

    The laws of the channel that the proofs about [Sftp] rely on, and what they
    give: reading a packet ends and never leaves its buffers whatever arrives, and the
    packet that was written is the one that is read, however the bytes were
    cut on the way. *)

From stdpp Require Import gmap.
From S2P Require Import Prelude SshString Buffer Bignum BufferPack Token Session Packet Kex Channel Sftp.

(** A channel as a stream in both directions: the bytes that can be read, in order, and
    the bytes that were written.  A read gives a part of them, possibly none: [lag]
    bounds how often it gives none before there is one, or the end, is seen. *)
Class ChannelStream (Ch : Type) `{SftpChannel Ch} := {
  ch_ok : Ch -> Prop;
  incoming : Ch -> bytes;
  outgoing : Ch -> bytes;
  lag : Ch -> nat;
  read_law c n : ch_ok c -> 0 < n < 2 ^ 31 ->
    exists r d c', chan_read n c = Some (r, d, c') /\ ch_ok c' /\ r <= n
      /\ chan_openssh c' = chan_openssh c /\ outgoing c' = outgoing c
      /\ incoming c = d ++ incoming c' /\ (lag c' <= lag c)%nat
      /\ (r < 0 -> incoming c = []) /\ (0 <= r -> zlen d = r)
      /\ (r = 0 -> (lag c' < lag c)%nat \/ incoming c = [] /\ chan_is_eof c' = Some 1);
  eof_law c : ch_ok c -> exists e, chan_is_eof c = Some e /\ (incoming c <> [] -> e = 0);
  write_law c d : ch_ok c -> zlen d < 2 ^ 31 ->
    exists c', chan_write d c = Some (zlen d, c') /\ ch_ok c' /\ outgoing c' = outgoing c ++ d
      /\ incoming c' = incoming c /\ lag c' = lag c /\ chan_openssh c' = chan_openssh c;
  poll_law c : ch_ok c ->
    exists r c', chan_poll c = Some (r, c') /\ ch_ok c' /\ outgoing c' = outgoing c
      /\ incoming c' = incoming c /\ lag c' = lag c /\ chan_openssh c' = chan_openssh c
}.

Section Frames.
Context `{Allocator} `{BignumLib} {Ch : Type} `{ChannelStream Ch}.
#[local] Abbreviation sftp := (sftp_session Ch).
Implicit Type s : sftp.

(** ** What a call leaves alone *)

Record kept (s s' : sftp) : Prop := {
  kp_server_version : server_version s' = server_version s;
  kp_client_version : client_version s' = client_version s;
  kp_version : version s' = version s;
  kp_id : id_counter s' = id_counter s;
  kp_handles : handles s' = handles s;
  kp_ext : ext s' = ext s;
  kp_openssh : chan_openssh (channel s') = chan_openssh (channel s)
}.

Lemma kept_refl s : kept s s.
Proof. by constructor. Qed.
Lemma kept_trans s1 s2 s3 : kept s1 s2 -> kept s2 s3 -> kept s1 s3.
Proof. intros [] []. constructor; congruence. Qed.
#[local] Instance kept_preorder : PreOrder kept.
Proof. split; [exact kept_refl|exact kept_trans]. Qed.

(** The bytes [d] were read, and nothing was written. *)
Record took (d : bytes) (s s' : sftp) : Prop := {
  tk_kept : kept s s';
  tk_queue : queue s' = queue s;
  tk_ok : ch_ok (channel s');
  tk_in : incoming (channel s) = d ++ incoming (channel s');
  tk_out : outgoing (channel s') = outgoing (channel s);
  tk_lag : (lag (channel s') <= lag (channel s))%nat
}.

Lemma took_trans d1 d2 s1 s2 s3 : took d1 s1 s2 -> took d2 s2 s3 -> took (d1 ++ d2) s1 s3.
Proof.
  intros [K1 Q1 O1 I1 U1 L1] [K2 Q2 O2 I2 U2 L2]. constructor; [by etransitivity|congruence|done| |congruence|lia].
  by rewrite I1, I2, app_assoc.
Qed.

Lemma took_refl s : ch_ok (channel s) -> took [] s s.
Proof. constructor; [exact (kept_refl s)|done..]. Qed.

Lemma took_channel s c d : ch_ok c -> chan_openssh c = chan_openssh (channel s) -> incoming (channel s) = d ++ incoming c ->
  outgoing c = outgoing (channel s) -> (lag c <= lag (channel s))%nat -> took d s (set_channel c s).
Proof. intros. constructor; (done || by constructor). Qed.

Lemma took_error d s s' e : took d s s' -> took d s (sftp_set_error e s').
Proof. intros [[] ? ? ? ? ?]. constructor; (done || by constructor). Qed.

Lemma took_packet d s s' p : took d s s' -> took d s (set_packet p s').
Proof. intros [[] ? ? ? ? ?]. constructor; (done || by constructor). Qed.

(** ** Reading a part *)

(** The rounds that reading from [s] can take. *)
Definition patience s : nat := length (incoming (channel s)) + lag (channel s).

Lemma read_chunk_spec n s : ch_ok (channel s) -> 0 < n < 2 ^ 31 ->
  exists r d s', read_chunk n s = Some (r, d, s') /\ took d s s' /\ r <= n /\ errnum s' = errnum s /\ read_packet s' = read_packet s
    /\ (r < 0 -> incoming (channel s) = []) /\ (0 <= r -> zlen d = r)
    /\ (r = 0 -> d = [] /\ ((patience s' < patience s)%nat \/ incoming (channel s) = [] /\ chan_is_eof (channel s') = Some 1))
    /\ (0 < r -> (patience s' < patience s)%nat).
Proof.
  intros Hok Hn. destruct (read_law (channel s) n Hok Hn) as (r & d & c' & Hr & Hok' & Hle & Ho & Hu & Hi & Hl & Hneg & Hz & Hzero).
  unfold read_chunk. rewrite Hr. cbn [mbind option_bind]. do 3 eexists. split; [done|].
  assert (Hp : patience s = (length d + patience (set_channel c' s) + (lag (channel s) - lag c'))%nat).
  { unfold patience. cbn [channel set_channel]. rewrite Hi, length_app. lia. }
  split_and!; [by apply took_channel|done..| |].
  - intros ->. assert (zlen d = 0) as Hd by (by apply Hz). destruct d; [|rewrite zlen_cons in Hd; zlen_lia]. split; [done|].
    cbn [length] in Hp. destruct (Hzero eq_refl) as [?|[? ?]]; [left; lia|by right].
  - intros Hpos. assert (zlen d = r) as Hd by (apply Hz; lia). unfold zlen in Hd. lia.
Qed.

Lemma at_eof_spec s : ch_ok (channel s) ->
  exists stop s', at_eof s = Some (stop, s') /\ took [] s s' /\ read_packet s' = read_packet s /\ channel s' = channel s
    /\ (incoming (channel s) <> [] -> stop = false) /\ (stop = false -> s' = s)
    /\ (chan_is_eof (channel s) = Some 1 -> stop = true).
Proof.
  intros Hok. destruct (eof_law (channel s) Hok) as (e & He & Hne). unfold at_eof. rewrite He. cbn [mbind option_bind].
  destruct (Z.eqb_spec e 0) as [->|]; cbn [negb]; [exists false, s|exists true, (sftp_set_error SSH_FX_EOF s)].
  - split_and!; (done || by apply took_refl).
  - split_and!; [done|by apply took_error, took_refl|done..| |done|done]. intros Hin. by apply Hne in Hin.
Qed.

(** A read, and the look at the end of the stream when it gave nothing. *)
Lemma round_spec n s : ch_ok (channel s) -> 0 < n < 2 ^ 31 ->
  exists r d s', read_chunk n s = Some (r, d, s') /\ r <= n
  /\ (r < 0 /\ took [] s s' /\ read_packet s' = read_packet s /\ incoming (channel s) = []
      \/ r = 0 /\ d = [] /\ (exists stop s2, at_eof s' = Some (stop, s2) /\ took [] s s2 /\ read_packet s2 = read_packet s
           /\ (incoming (channel s) <> [] -> stop = false)
           /\ (stop = false -> errnum s2 = errnum s /\ (patience s2 < patience s)%nat))
      \/ 0 < r /\ zlen d = r /\ took d s s' /\ errnum s' = errnum s /\ read_packet s' = read_packet s
         /\ (patience s' < patience s)%nat).
Proof.
  intros Hok Hn. destruct (read_chunk_spec n s Hok Hn) as (r & d & s' & -> & Ht & Hle & He & Hp & Hneg & Hz & Hzero & Hpos).
  do 3 eexists. split_and!; [done|done|]. destruct (Z.lt_trichotomy r 0) as [Hr|[->|Hr]].
  - left. split_and!; try done; [|by apply Hneg]. rewrite (Hneg Hr) in *.
    assert (d = []) as -> by (pose proof (tk_in _ _ _ Ht) as Hi; rewrite (Hneg Hr) in Hi; by destruct d). done.
  - right; left. destruct (Hzero eq_refl) as [-> Hw]. split_and!; [done..|].
    destruct (at_eof_spec s' (tk_ok _ _ _ Ht)) as (stop & s2 & -> & Ht2 & Hp2 & Hc2 & Hst & Hs2 & Heof). do 2 eexists.
    split; [done|]. split_and!; [by apply (took_trans [] [] _ _ _ Ht)|congruence| |].
    + intros Hin. apply Hst. by rewrite (tk_in _ _ _ Ht) in Hin.
    + intros ->. rewrite (Hs2 eq_refl). split; [done|]. destruct Hw as [?|[_ Heq]]; [done|]. by apply Heof in Heq.
  - right; right. split_and!; try done; [apply Hz; lia|by apply Hpos].
Qed.

(** ** The three loops *)

Lemma read_size_spec : forall n s nread got,
  ch_ok (channel s) -> zlen got = nread -> 0 <= nread < 4 -> (patience s < n)%nat ->
  exists o d s', read_size n nread got s = Some (o, s') /\ took d s s' /\ read_packet s' = read_packet s /\ (patience s' <= patience s)%nat
    /\ (4 - nread <= zlen (incoming (channel s)) -> is_Some o)
    /\ (forall q, o = Some q -> q = got ++ d /\ zlen q = 4 /\ errnum s' = errnum s).
Proof.
  induction n as [|n IH]; intros s nread got Hok Hg Hr Hn; [lia|]. cbn [read_size].
  destruct (round_spec (4 - nread) s Hok ltac:(lia)) as (r & d & s1 & -> & Hle & Hcase). cbn [mbind option_bind].
  destruct Hcase as [(Hneg & Ht & Hp & Hi)|[(-> & -> & stop & s2 & Hat & Ht & Hp & Hst & Hgo)|(Hpos & Hz & Ht & He & Hp & Hpt)]].
  - rewrite (proj2 (Z.ltb_lt _ _)) by lia. exists None, [], s1. split_and!; [done..| | |done].
    + unfold patience. pose proof (tk_in _ _ _ Ht) as Hin. pose proof (tk_lag _ _ _ Ht). rewrite Hin. cbn [app]. lia.
    + rewrite Hi. change (zlen (@nil Byte.byte)) with 0. lia.
  - change (0 <? 0) with false. change (0 =? 0) with true. cbv iota. rewrite Hat. cbn [mbind option_bind].
    pose proof (tk_in _ _ _ Ht) as Hin. cbn [app] in Hin. pose proof (tk_lag _ _ _ Ht) as Hlag.
    destruct stop.
    + exists None, [], s2. split_and!; [done..| | |done].
      * unfold patience. rewrite Hin. lia.
      * intros Hlen. destruct (incoming (channel s)) as [|x l]; [|by specialize (Hst ltac:(done))].
        change (zlen (@nil Byte.byte)) with 0 in Hlen. lia.
    + destruct (Hgo eq_refl) as [He Hlt]. rewrite Z.add_0_r, (proj2 (Z.ltb_lt _ _)) by lia. rewrite app_nil_r.
      destruct (IH s2 nread got) as (o & d & s' & -> & Ht' & Hp' & Hpt' & Hsome & Hq); [apply Ht|done|done|lia|].
      exists o, d, s'. split_and!; [done|by apply (took_trans [] d _ _ _ Ht)|congruence|lia| |].
      * intros Hlen. apply Hsome. by rewrite <- Hin.
      * intros q Hoq. destruct (Hq q Hoq) as (? & ? & ?). split_and!; [done..|congruence].
  - rewrite (proj2 (Z.ltb_ge _ _)), (proj2 (Z.eqb_neq _ _)) by lia. cbn [mbind option_bind]. cbv iota.
    pose proof (tk_in _ _ _ Ht) as Hin.
    destruct (Z.ltb_spec (nread + r) 4) as [Hlt|Hge].
    + destruct (IH s1 (nread + r) (got ++ d)) as (o & d' & s' & -> & Ht' & Hp' & Hpt' & Hsome & Hq);
        [apply Ht|zlen_lia|lia|lia|].
      exists o, (d ++ d'), s'. split_and!; [done|by eapply took_trans|congruence|lia| |].
      * intros Hlen. apply Hsome. rewrite Hin in Hlen. zlen_lia.
      * intros q Hoq. destruct (Hq q Hoq) as (-> & ? & ?). rewrite app_assoc. split_and!; [done..|congruence].
    + exists (Some (got ++ d)), d, s1. split_and!; [done..|lia|done|]. intros q [= <-]. split_and!; [done| |done]. zlen_lia.
Qed.

Lemma read_type_spec : forall n s, ch_ok (channel s) -> (patience s < n)%nat ->
  exists o d s', read_type n s = Some (o, s') /\ took d s s' /\ read_packet s' = read_packet s /\ (patience s' <= patience s)%nat
    /\ (1 <= zlen (incoming (channel s)) -> is_Some o)
    /\ (forall q, o = Some q -> q = d /\ zlen q = 1 /\ errnum s' = errnum s).
Proof.
  induction n as [|n IH]; intros s Hok Hn; [lia|]. cbn [read_type].
  destruct (round_spec 1 s Hok ltac:(lia)) as (r & d & s1 & -> & Hle & Hcase). cbn [mbind option_bind].
  destruct Hcase as [(Hneg & Ht & Hp & Hi)|[(-> & -> & stop & s2 & Hat & Ht & Hp & Hst & Hgo)|(Hpos & Hz & Ht & He & Hp & Hpt)]];
    pose proof (tk_in _ _ _ Ht) as Hin; pose proof (tk_lag _ _ _ Ht) as Hlag.
  - rewrite (proj2 (Z.ltb_lt _ _)) by lia. exists None, [], s1. split_and!; [done..| | |done].
    + unfold patience. rewrite Hin. cbn [app]. lia.
    + rewrite Hi. change (zlen (@nil Byte.byte)) with 0. lia.
  - change (0 <? 0) with false. change (0 =? 0) with true. cbv iota. rewrite Hat. cbn [mbind option_bind]. cbn [app] in Hin.
    destruct stop.
    + exists None, [], s2. split_and!; [done..| | |done].
      * unfold patience. rewrite Hin. lia.
      * intros Hlen. destruct (incoming (channel s)) as [|x l]; [|by specialize (Hst ltac:(done))].
        change (zlen (@nil Byte.byte)) with 0 in Hlen. lia.
    + destruct (Hgo eq_refl) as [He Hlt]. change (0 <? 1) with true. cbv iota.
      destruct (IH s2) as (o & d & s' & -> & Ht' & Hp' & Hpt' & Hsome & Hq); [apply Ht|lia|].
      exists o, d, s'. split_and!; [done|by apply (took_trans [] d _ _ _ Ht)|congruence|lia| |].
      * intros Hlen. apply Hsome. by rewrite <- Hin.
      * intros q Hoq. destruct (Hq q Hoq) as (? & ? & ?). split_and!; [done..|congruence].
  - rewrite (proj2 (Z.ltb_ge _ _)), (proj2 (Z.eqb_neq _ _)) by lia. cbn [mbind option_bind]. cbv iota.
    rewrite (proj2 (Z.ltb_ge _ _)) by lia.
    exists (Some d), d, s1. split_and!; [done..|lia|done|]. intros q [= <-]. split_and!; [done|lia|done].
Qed.

Lemma read_payload_spec : forall n s size payload,
  ch_ok (channel s) -> buffer_wf payload -> 0 <= size < SFTP_PACKET_SIZE_MAX -> (patience s < n)%nat ->
  exists ok d payload' s', read_payload n size payload s = Some (ok, payload', s') /\ took d s s'
    /\ read_packet s' = read_packet s /\ buffer_wf payload'
    /\ (ok = true -> zlen d = size /\ contents payload' = contents payload ++ d /\ errnum s' = errnum s)
    /\ (malloc_succeeds -> b_used payload + size < BUFFER_SIZE_MAX -> size <= zlen (incoming (channel s)) -> ok = true).
Proof.
  change SFTP_PACKET_SIZE_MAX with 268435456.
  induction n as [|n IH]; intros s size payload Hok Hwf Hsize Hn; [lia|]. cbn [read_payload].
  change SFTP_PACKET_SIZE_MAX with 268435456. rewrite (proj2 (Z.ltb_lt size 268435456)), andb_true_r by lia.
  destruct (Z.ltb_spec 0 size) as [Hpos|]; cbn [negb].
  2: { exists true, [], payload, s. split_and!; [done|by apply took_refl|done..| |done]. intros _. rewrite app_nil_r.
       split_and!; [change (zlen (@nil Byte.byte)) with 0; lia|done|done]. }
  set (count := if size <? SFTP_BUFFER_SIZE_MAX then size else SFTP_BUFFER_SIZE_MAX).
  assert (Hcount : 0 < count <= size /\ count <= 16384)
    by (unfold count, SFTP_BUFFER_SIZE_MAX; destruct (Z.ltb_spec size 16384); lia).
  destruct (round_spec count s Hok ltac:(lia)) as (r & d & s1 & -> & Hle & Hcase). cbn [mbind option_bind].
  destruct Hcase as [(Hneg & Ht & Hp & Hi)|[(-> & -> & stop & s2 & Hat & Ht & Hp & Hst & Hgo)|(Hr & Hz & Ht & He & Hp & Hpt)]];
    pose proof (tk_in _ _ _ Ht) as Hin; pose proof (tk_lag _ _ _ Ht) as Hlag.
  - rewrite (proj2 (Z.ltb_lt _ _)) by lia. exists false, [], payload, s1. split_and!; [done..|].
    intros _ _. rewrite Hi. change (zlen (@nil Byte.byte)) with 0. lia.
  - change (0 <? 0) with false. cbv iota. rewrite Hat. cbn [mbind option_bind]. cbn [app] in Hin. destruct stop.
    + exists false, [], payload, s2. split_and!; [done..|]. intros _ _ Hlen.
      destruct (incoming (channel s)) as [|x l]; [|by specialize (Hst ltac:(done))].
      change (zlen (@nil Byte.byte)) with 0 in Hlen. lia.
    + change (negb (0 =? 0)) with false. cbv iota. destruct (Hgo eq_refl) as [He Hlt]. rewrite Z.sub_0_r, u32_small by lia.
      destruct (IH s2 size payload) as (ok & d & p' & s' & -> & Ht' & Hp' & Hwf' & Hdone & Hall); [apply Ht|done|lia|lia|].
      exists ok, d, p', s'. split_and!; [done|by apply (took_trans [] d _ _ _ Ht)|congruence|done| |].
      * intros Htrue. destruct (Hdone Htrue) as (? & ? & ?). split_and!; [done..|congruence].
      * intros Hm Hroom Hlen. apply Hall; [done..|]. by rewrite <- Hin.
  - rewrite (proj2 (Z.ltb_ge _ _)), (proj2 (Z.ltb_lt _ _)), (u32_small r) by lia.
    destruct (add_data_spec payload d r Hwf) as (rc & p1 & Hadd & Hwf1 & _ & Hres); [lia..|]. rewrite Hadd. cbn [mbind option_bind].
    destruct Hres as [[-> Hc1]|[-> _]].
    + change (negb (0 =? 0)) with false. cbv iota. rewrite u32_small by lia.
      destruct (IH s1 (size - r) p1) as (ok & d' & p' & s' & -> & Ht' & Hp' & Hwf' & Hdone & Hall); [apply Ht|done|lia|lia|].
      exists ok, (d ++ d'), p', s'. rewrite ztake_all in Hc1 by lia.
      split_and!; [done|by eapply took_trans|congruence|done| |].
      * intros Htrue. destruct (Hdone Htrue) as (Hd' & Hc' & ?). split_and!; [zlen_lia|by rewrite Hc', Hc1, app_assoc|congruence].
      * intros Hm Hroom Hlen. apply Hall; [done| |rewrite Hin in Hlen; zlen_lia].
        destruct (add_data_ok payload d r) as (p2 & Hadd2 & _ & Hu & _); [done|done|lia|lia|].
        rewrite Hadd in Hadd2. injection Hadd2 as <-. lia.
    + exists false, d, p1, (sftp_set_error SSH_FX_FAILURE s1). split_and!; [done|by apply took_error|done|done|done|].
      intros Hm Hroom _. destruct (add_data_ok payload d r) as (p2 & Hadd2 & _); [done|done|lia|lia|]. by rewrite Hadd in Hadd2.
Qed.

(** ** A packet *)

Definition frame (type : Z) (body : bytes) : bytes := be_bytes 4 (zlen body + 1) ++ [z2b type] ++ body.

Lemma zlen_sftp_frame type body : zlen (frame type body) = 5 + zlen body.
Proof. unfold frame. zlen_lia. Qed.

(** The bytes of a packet are those of no other, whatever follows. *)
Lemma frame_inj t1 b1 r1 t2 b2 r2 :
  0 <= t1 < 256 -> 0 <= t2 < 256 -> zlen b1 < 2 ^ 31 -> zlen b2 < 2 ^ 31 ->
  frame t1 b1 ++ r1 = frame t2 b2 ++ r2 -> t1 = t2 /\ b1 = b2 /\ r1 = r2.
Proof.
  intros Ht1 Ht2 Hb1 Hb2 Heq. unfold frame in Heq. rewrite <- !app_assoc in Heq. pose proof (zlen_nonneg b1). pose proof (zlen_nonneg b2).
  apply app_inj_1 in Heq as [Hl Heq]; [|apply Nat2Z.inj; fold (zlen (be_bytes 4 (zlen b1 + 1))); fold (zlen (be_bytes 4 (zlen b2 + 1))); zlen_lia].
  apply (f_equal be_val) in Hl. rewrite !be_val_bytes, !Z.mod_small in Hl by lia. cbn [app] in Heq. injection Heq as Ht Heq.
  apply (f_equal b2z) in Ht. rewrite !b2z_z2b, !Z.mod_small in Ht by lia.
  apply app_inj_1 in Heq; [|unfold zlen in Hl; lia]. tauto.
Qed.

Definition packet_wf (p : sftp_packet) : Prop := forall b, pk_payload p = Some b -> buffer_wf b.

Lemma fresh_payload_spec old : (forall b, old = Some b -> buffer_wf b) ->
  exists ready left_, fresh_payload old = Some (ready, left_)
    /\ (forall b, ready = Some b -> buffer_wf b /\ contents b = []) /\ (forall b, left_ = Some b -> buffer_wf b)
    /\ (malloc_succeeds -> exists b, ready = Some b /\ b_used b = 0).
Proof.
  intros Hold. destruct old as [b|]; cbn [fresh_payload].
  - destruct (ssh_buffer_reinit_spec b) as (rc & b1 & He & Hwf & Hc & _); [by apply Hold|]. rewrite He. cbn [mbind option_bind].
    do 2 eexists. split; [done|]. split_and!.
    + intros b' Hb'. destruct (rc =? 0); [|done]. by injection Hb' as <-.
    + intros b' Hb'. by injection Hb' as <-.
    + intros Hm. destruct (ssh_buffer_reinit_ok b) as (b2 & He2 & _ & _ & Hu); [done|by apply Hold|]. rewrite He in He2.
      injection He2 as -> ->. by exists b2.
  - destruct ssh_buffer_new_spec as (r & He & Hwf). rewrite He. cbn [mbind option_bind]. do 2 eexists. split; [done|]. split_and!.
    + intros b Hb. by destruct (Hwf b Hb) as (? & ? & _).
    + intros b Hb. by destruct (Hwf b Hb) as (? & _).
    + intros Hm. destruct (ssh_buffer_new_ok Hm) as (b & Hb & _ & _ & Hu). rewrite He in Hb. injection Hb as ->. by exists b.
Qed.

(** What the end of [sftp_packet_read] leaves: the packet of the session. *)
Definition has_packet s : Prop := exists p, read_packet s = Some p /\ packet_wf p.

Lemma read_fails_spec type b s s0 d : buffer_wf b -> took d s0 s ->
  exists s', read_fails type (Some b) s = Some (false, s') /\ took d s0 s' /\ has_packet s'.
Proof.
  intros Hwf Ht. unfold read_fails. destruct (ssh_buffer_reinit_spec b Hwf) as (rc & b1 & -> & Hwf1 & _). cbn [mbind option_bind].
  eexists. split; [done|]. split; [by apply took_packet|]. eexists. split; [done|]. intros b2 Hb2. by injection Hb2 as <-.
Qed.

Lemma mem_at_0 q : zlen q = 1 -> exists c, q = [c] /\ mem_at q 0 = Some c.
Proof.
  intros Hq. destruct q as [|c [|x q]]; [done| |rewrite !zlen_cons in Hq; zlen_lia]. by exists c.
Qed.

Variable fuel : nat.

(** Reading a packet, whatever the stream holds. *)
Lemma packet_read_spec s : ch_ok (channel s) -> has_packet s -> (patience s < fuel)%nat ->
  exists ok d s', sftp_packet_read fuel s = Some (ok, s') /\ took d s s' /\ has_packet s'
    /\ (ok = true -> exists type b, read_packet s' = Some (mk_packet type (Some b)) /\ buffer_wf b /\ 0 <= type < 256
          /\ d = frame type (contents b) /\ zlen (contents b) < SFTP_PACKET_SIZE_MAX /\ errnum s' = errnum s)
    /\ (malloc_succeeds -> forall type body rest, zlen body < SFTP_PACKET_SIZE_MAX ->
          incoming (channel s) = frame type body ++ rest -> ok = true).
Proof.
  intros Hok (p & Hp & Hpw) Hfuel. unfold sftp_packet_read. rewrite Hp. cbn [mbind option_bind].
  destruct (fresh_payload_spec (pk_payload p) Hpw) as (ready & left_ & -> & Hready & Hleft & Hmem). cbn [mbind option_bind].
  destruct ready as [payload|].
  2: { do 3 eexists. split; [done|]. split_and!; [by apply took_error, took_packet, took_refl|by eexists|done|].
       intros Hm. by destruct (Hmem Hm) as (? & ? & _). }
  destruct (Hready payload eq_refl) as [Hwf Hc]. clear Hready Hleft.
  destruct (read_size_spec fuel s 0 [] Hok eq_refl ltac:(lia) Hfuel) as (o & d1 & s1 & -> & Ht1 & _ & Hp1 & Hs1 & Hq1). cbn [mbind option_bind].
  destruct o as [q1|].
  2: { destruct (read_fails_spec (pk_type p) payload s1 s d1 Hwf Ht1) as (s' & -> & Ht' & Hh').
       exists false, d1, s'. split_and!; [done..|]. intros Hm type body rest Hbody Hin. rewrite Hin in Hs1.
       destruct Hs1; [|done]. pose proof (zlen_sftp_frame type body). zlen_lia. }
  destruct (Hq1 q1 eq_refl) as (-> & Hlen & He1). cbn [app] in *. clear Hs1 Hq1.
  unfold pull_be_u32. rewrite Hlen. cbn [mbind option_bind]. change (4 <=? 4) with true. cbv iota. cbn [mbind option_bind].
  rewrite (ztake_all 4) by lia. set (size := be_val d1).
  assert (Hsize : 0 <= size < 2 ^ 32) by (pose proof (be_val_range d1) as Hr; rewrite Hlen in Hr; exact Hr).
  assert (Hd1 : d1 = be_bytes 4 size).
  { unfold size. replace 4%nat with (length d1) by (unfold zlen in Hlen; lia). by rewrite be_bytes_val. }
  (* an incoming packet has this size *)
  assert (Hframe : forall type body rest, zlen body < SFTP_PACKET_SIZE_MAX -> incoming (channel s) = frame type body ++ rest ->
    size = zlen body + 1 /\ incoming (channel s1) = [z2b type] ++ body ++ rest).
  { intros type body rest Hbody Hin. rewrite (tk_in _ _ _ Ht1) in Hin. unfold frame in Hin. rewrite <- !app_assoc in Hin.
    unfold SFTP_PACKET_SIZE_MAX in Hbody. pose proof (zlen_nonneg body).
    apply app_inj_1 in Hin as [-> ->]; [|apply Nat2Z.inj; fold (zlen d1); fold (zlen (be_bytes 4 (zlen body + 1))); zlen_lia].
    split; [|done]. unfold size. rewrite be_val_bytes. apply Z.mod_small. lia. }
  change SFTP_PACKET_SIZE_MAX with 268435456 in *.
  destruct ((size =? 0) || (268435456 <? size)) eqn:Hbad.
  { destruct (read_fails_spec (pk_type p) payload (sftp_set_error SSH_FX_FAILURE s1) s d1 Hwf (took_error _ _ _ _ Ht1)) as (s' & -> & Ht' & Hh').
    exists false, d1, s'. split_and!; [done..|]. intros Hm type body rest Hbody Hin. destruct (Hframe type body rest Hbody Hin) as [Hs _].
    pose proof (zlen_nonneg body). apply orb_true_iff in Hbad as [?%Z.eqb_eq|?%Z.ltb_lt]; lia. }
  apply orb_false_iff in Hbad as [?%Z.eqb_neq ?%Z.ltb_ge].
  destruct (read_type_spec fuel s1 (tk_ok _ _ _ Ht1) ltac:(lia)) as (o & d2 & s2 & -> & Ht2 & _ & Hp2 & Hs2 & Hq2). cbn [mbind option_bind].
  pose proof (took_trans _ _ _ _ _ Ht1 Ht2) as Ht12.
  destruct o as [q2|].
  2: { destruct (read_fails_spec (pk_type p) payload s2 s (d1 ++ d2) Hwf Ht12) as (s' & -> & Ht' & Hh').
       exists false, (d1 ++ d2), s'. split_and!; [done..|]. intros Hm type body rest Hbody Hin.
       destruct (Hframe type body rest Hbody Hin) as [_ Hin1]. rewrite Hin1 in Hs2. destruct Hs2; [|done]. zlen_lia. }
  destruct (Hq2 q2 eq_refl) as (-> & Hlen2 & He2). clear Hs2 Hq2.
  destruct (mem_at_0 d2 Hlen2) as (c & -> & ->). cbn [mbind option_bind].
  destruct (allocate_size_spec payload (size - 1) Hwf ltac:(lia)) as (rc & p1 & Hal & Hwf1 & [_ Hc1] & Hrc). rewrite Hal. cbn [mbind option_bind].
  destruct Hrc as [[-> _]| ->].
  2: { destruct (read_fails_spec (b2z c) p1 (sftp_set_error SSH_FX_FAILURE s2) s (d1 ++ [c]) Hwf1 (took_error _ _ _ _ Ht12)) as (s' & -> & Ht' & Hh').
       exists false, (d1 ++ [c]), s'. split_and!; [done..|]. intros Hm type body rest _ _.
       destruct (allocate_size_ok payload (size - 1) Hm Hwf) as (p2 & Hal2 & _); [unfold BUFFER_SIZE_MAX; lia|]. by rewrite Hal in Hal2. }
  change (0 <? 0) with false. cbv iota.
  destruct (read_payload_spec fuel s2 (size - 1) p1 (tk_ok _ _ _ Ht2) Hwf1) as (ok & d3 & p2 & s3 & -> & Ht3 & _ & Hwf2 & Hdone & Hall);
    [change SFTP_PACKET_SIZE_MAX with 268435456; lia|lia|]. cbn [mbind option_bind].
  pose proof (took_trans _ _ _ _ _ Ht12 Ht3) as Ht. destruct ok.
  - do 3 eexists. split; [done|]. split_and!; [by apply took_packet| | |done].
    + eexists. split; [done|]. intros b Hb. by injection Hb as <-.
    + intros _. destruct (Hdone eq_refl) as (Hz & Hcd & He3). exists (b2z c), p2. split_and!; try done; try apply b2z_range.
      * rewrite Hcd, Hc1, Hc. cbn [app]. unfold frame. rewrite Hz, z2b_b2z. rewrite Hd1 at 1. rewrite <- !app_assoc. do 3 f_equal. lia.
      * rewrite Hcd, Hc1, Hc. cbn [app]. lia.
      * cbn [errnum set_packet]. congruence.
  - destruct (read_fails_spec (b2z c) p2 s3 s _ Hwf2 Ht) as (s' & -> & Ht' & Hh').
    eexists false, _, s'. split_and!; [done..|]. intros Hm type body rest Hbody Hin.
    destruct (Hframe type body rest Hbody Hin) as [Hs Hin1]. apply Hall; [done| |].
    + destruct (Hmem Hm) as (b & [= <-] & Hu).
      destruct (allocate_size_ok payload (size - 1) Hm Hwf) as (p3 & Hal2 & _ & Hu3 & _); [unfold BUFFER_SIZE_MAX; lia|].
      rewrite Hal in Hal2. injection Hal2 as <-. unfold BUFFER_SIZE_MAX. lia.
    + pose proof (tk_in _ _ _ Ht2) as Hin2. rewrite Hin1 in Hin2. injection Hin2 as _ Hin2. rewrite <- Hin2. zlen_lia.
Qed.

(** ** Writing a packet *)

(** The bytes [d] were written, and nothing was read. *)
Record wrote (d : bytes) (s s' : sftp) : Prop := {
  wr_kept : kept s s';
  wr_queue : queue s' = queue s;
  wr_packet : read_packet s' = read_packet s;
  wr_ok : ch_ok (channel s');
  wr_in : incoming (channel s') = incoming (channel s);
  wr_out : outgoing (channel s') = outgoing (channel s) ++ d;
  wr_lag : lag (channel s') = lag (channel s)
}.

Lemma buffer_view b : buffer_wf b -> contents b <> [] ->
  exists d, ssh_buffer_get b = Some d /\ ztake (ssh_buffer_get_len b) d = contents b.
Proof.
  intros Hwf Hne. pose proof (contents_zlen b Hwf) as Hl. rewrite ssh_buffer_get_len_contents by done.
  pose proof (wf_data b Hwf) as Hd. pose proof Hwf as [? ? ? _].
  assert (0 < zlen (contents b)) by (destruct (contents b); [done|rewrite zlen_cons; zlen_lia]).
  unfold ssh_buffer_get. destruct (b_data b) as [|x d] eqn:Ed; [change (zlen (@nil Byte.byte)) with 0 in Hd; lia|].
  rewrite <- Ed. eexists. split; [done|]. by rewrite read_unread, ztake_all by (done || lia).
Qed.

Lemma packet_write_spec type b s : ch_ok (channel s) -> buffer_wf b ->
  exists n b' s', sftp_packet_write type b s = Some (n, b', s')
    /\ (n < 0 /\ wrote [] s s' \/ n = zlen (frame type (contents b)) /\ wrote (frame type (contents b)) s s' /\ errnum s' = errnum s)
    /\ (malloc_succeeds -> b_used b + 5 < BUFFER_SIZE_MAX -> 0 <= n).
Proof.
  intros Hok Hwf. pose proof (contents_max b Hwf) as Hmax. unfold BUFFER_SIZE_MAX in Hmax. pose proof (zlen_nonneg (contents b)) as Hnn.
  unfold sftp_packet_write. rewrite ssh_buffer_get_len_contents by done. rewrite u32_small by lia.
  set (header := be_bytes 4 (zlen (contents b) + 1) ++ [z2b type]).
  assert (Hh : zlen header = 5) by (unfold header; zlen_lia).
  destruct (prepend_spec b header 5) as (rc & b1 & Hpre & Hwf1 & _ & Hres); [done|lia|lia|]. rewrite Hpre. cbn [mbind option_bind].
  assert (Hno : kept s (sftp_set_error SSH_FX_FAILURE s)) by by constructor.
  destruct Hres as [[-> Hc1]|[-> _]].
  - change (0 <? 0) with false. cbv iota. rewrite (ztake_all 5) in Hc1 by lia.
    assert (Hframe : contents b1 = frame type (contents b)) by (rewrite Hc1; unfold header, frame; by rewrite <- app_assoc).
    assert (Hlen : zlen (contents b1) = 5 + zlen (contents b)) by (rewrite Hframe; apply zlen_sftp_frame).
    destruct (buffer_view b1 Hwf1) as (d & -> & Hd); [intros Hnil; rewrite Hnil in Hlen; change (zlen (@nil Byte.byte)) with 0 in Hlen; lia|].
    cbn [mbind option_bind]. rewrite Hd.
    destruct (write_law (channel s) (contents b1) Hok) as (c' & -> & Hok' & Hu & Hi & Hl & Ho); [lia|]. cbn [mbind option_bind].
    rewrite (proj2 (Z.ltb_ge _ _)) by lia. do 3 eexists. split; [done|]. split; [right|intros; lia].
    rewrite Hframe in *. split_and!; [done| |done]. constructor; (done || by constructor).
  - do 3 eexists. split; [done|]. split; [left|].
    + split; [lia|]. constructor; (done || by rewrite app_nil_r).
    + intros Hm Hroom. destruct (prepend_ok b header 5) as (b2 & Hpre2 & _); [done|done|lia|done|]. by rewrite Hpre in Hpre2.
Qed.

(** ** Unpacking *)

(** Neither the allocator nor the big numbers of the library run out of memory. *)
Definition memory_ok : Prop := malloc_succeeds /\ forall l, bignum_bin2bn l <> None.

Definition plain_fields (fs : list field) : Prop := Forall (fun f => match f with FData _ | FBignum _ => False | _ => True end) fs.

Lemma sftp_unpack_any b (fmt : string) args : buffer_wf b -> args = map (fun _ => UPtr) (cstr fmt) ->
  forallb (fun c => exact_letter (letter_of c)) (cstr fmt) = true -> zlen (cstr fmt) <= 256 ->
  exists rc os fr b', ssh_buffer_unpack b (cstr fmt) args = Some (rc, os, fr, b') /\ buffer_wf b'
    /\ (rc = SSH_OK /\ (exists fs, fields_format fs = cstr fmt /\ Forall field_ok fs /\ Forall2 slot_holds fs os
          /\ contents b = fields_encode fs ++ contents b')
        \/ rc = SSH_ERROR /\ Forall slot_cleared os).
Proof.
  intros Hwf -> Hl Hn. set (ws := map WLetter (cstr fmt)).
  assert (Hf : wants_format ws = cstr fmt) by (unfold wants_format, ws; rewrite map_map; apply map_id).
  assert (Ha : wants_args ws = map (fun _ => UPtr) (cstr fmt)).
  { unfold wants_args, ws. rewrite map_map. cbn [want_args]. generalize (cstr fmt). intros l. induction l as [|c l IH]; [done|]. cbn [map concat app]. by rewrite IH. }
  destruct (unpack_untrusted_spec b ws Hwf) as (rc & os & fr & b' & He & Hwf' & Hres).
  - apply Forall_forall. intros w Hw. apply list_elem_of_fmap in Hw as (c & -> & Hc). apply list_elem_of_In in Hc.
    apply (proj1 (forallb_forall _ _) Hl) in Hc. cbn [want_ok]. by destruct (letter_of c).
  - rewrite Ha. unfold zlen. by rewrite length_map.
  - rewrite Hf, Ha in He. do 4 eexists. split_and!; [done|done|]. destruct Hres as [[-> _]|[-> Hc]]; [left|by right].
    split; [done|]. destruct (unpack_sound b _ _ _ _ Hwf Hl He) as (fs & ? & ? & ? & _ & ?). by exists fs.
Qed.

Lemma unpack_front b (fmt : string) args fs rest : memory_ok -> buffer_wf b -> contents b = fields_encode fs ++ rest ->
  cstr fmt = fields_format fs -> args = map (fun _ => UPtr) (cstr fmt) -> Forall field_ok fs -> fs <> [] -> plain_fields fs ->
  zlen (cstr fmt) <= 256 ->
  exists os b', ssh_buffer_unpack b (cstr fmt) args = Some (SSH_OK, os, [], b') /\ Forall2 slot_holds fs os /\ buffer_wf b'
    /\ contents b' = rest.
Proof.
  intros [Hm Hbn] Hwf Hc Hf -> Hok Hne Hp Hn. rewrite Hf in *.
  assert (Ha : map (fun _ => UPtr) (fields_format fs) = fields_uargs fs).
  { unfold fields_format, fields_uargs. clear - Hp. induction Hp as [|f l Hf Hl IH]; [done|]. cbn [map concat]. rewrite <- IH. by destruct f. }
  rewrite Ha. apply unpack_prefix_ok; try done.
  - rewrite <- zlen_uargs, <- Ha. unfold zlen in *. by rewrite length_map.
  - eapply Forall_impl; [exact Hp|]. intros f Hf' d ->. done.
Qed.

(** The fields that a format asks for. *)
Lemma fields_of_d (fs : list field) : fields_format fs = cstr "d" -> exists z, fs = [FDword z].
Proof. destruct fs as [|[] [|? ?]]; try done. by eexists. Qed.

Lemma sftp_unpack_dword b : buffer_wf b ->
  exists rc os fr b', ssh_buffer_unpack b (cstr "d") [UPtr] = Some (rc, os, fr, b') /\ buffer_wf b'
    /\ (rc = SSH_OK /\ (exists z, os = [SlotInt (Some z)] /\ 0 <= z < 2 ^ 32 /\ contents b = be_bytes 4 z ++ contents b')
        \/ rc = SSH_ERROR)
    /\ (memory_ok -> forall z rest, 0 <= z < 2 ^ 32 -> contents b = be_bytes 4 z ++ rest ->
          rc = SSH_OK /\ os = [SlotInt (Some z)] /\ contents b' = rest).
Proof.
  intros Hwf. destruct (sftp_unpack_any b "d" [UPtr] Hwf) as (rc & os & fr & b' & He & Hwf' & Hres); [done..|].
  do 4 eexists. split_and!; [done|done| |].
  - destruct Hres as [(-> & fs & Hf & _ & Hos & Hc)|[-> _]]; [left|by right]. split; [done|].
    destruct (fields_of_d fs Hf) as (z & ->). inversion Hos as [|? o ? ? Ho Hn]; subst. inversion Hn; subst.
    destruct o as [v| | | |]; try done. cbn in Ho. subst v. exists (z mod 2 ^ 32).
    split_and!; [done|by apply Z.mod_pos_bound|by apply Z.mod_pos_bound|].
    rewrite Hc. unfold fields_encode. cbn [map concat encode]. rewrite app_nil_r. f_equal.
    unfold be_bytes. by rewrite <- (le_bytes_wrap 4 z).
  - intros Hm z rest Hz Hc.
    destruct (unpack_front b "d" [UPtr] [FDword z] rest Hm Hwf) as (os2 & b2 & He2 & Hos & _ & Hc2);
      [by rewrite Hc; unfold fields_encode; cbn [map concat encode]; rewrite app_nil_r|done..|by repeat constructor|done|by repeat constructor|done|].
    rewrite He in He2. injection He2 as -> -> _ ->. inversion Hos as [|? o ? ? Ho Hn]; subst. inversion Hn; subst.
    destruct o as [v| | | |]; try done. cbn in Ho. subst v. rewrite Z.mod_small by done. done.
Qed.

(** ** The properties *)

(** (C14) Reading a packet always ends: on any stream, well formed or not, cut at any byte, as long as its end
    is seen, [sftp_packet_read] returns within as many rounds as there are bytes and empty reads;
    it accesses only its buffers, keeps the session's packet valid, and what
    it took is the front of the stream. *)
Theorem packet_read_terminates s : ch_ok (channel s) -> has_packet s -> (patience s < fuel)%nat ->
  exists ok s' d, sftp_packet_read fuel s = Some (ok, s') /\ has_packet s' /\ ch_ok (channel s')
    /\ incoming (channel s) = d ++ incoming (channel s')
    /\ (ok = true -> exists type b, read_packet s' = Some (mk_packet type (Some b)) /\ d = frame type (contents b)).
Proof.
  intros Hok Hp Hf. destruct (packet_read_spec s Hok Hp Hf) as (ok & d & s' & -> & Ht & Hp' & Hdone & _).
  exists ok, s', d. split_and!; [done|done|apply Ht|apply Ht|]. intros Htrue.
  destruct (Hdone Htrue) as (type & b & ? & _ & _ & ? & _). by exists type, b.
Qed.

(** A packet that was written is read back, however the stream was cut on the way and
    whatever follows it: same type, same payload, and the reader stops at its end. *)
Theorem packets_survive_the_stream type b s :
  malloc_succeeds -> ch_ok (channel s) -> buffer_wf b -> b_used b + 5 < BUFFER_SIZE_MAX -> 0 <= type < 256 ->
  exists n b' s' w, sftp_packet_write type b s = Some (n, b', s') /\ outgoing (channel s') = outgoing (channel s) ++ w
    /\ n = zlen w
    /\ forall t more, ch_ok (channel t) -> has_packet t -> (patience t < fuel)%nat -> incoming (channel t) = w ++ more ->
         exists t' c, sftp_packet_read fuel t = Some (true, t') /\ read_packet t' = Some (mk_packet type (Some c))
           /\ contents c = contents b /\ incoming (channel t') = more.
Proof.
  intros Hm Hok Hwf Hroom Htype. pose proof (contents_zlen b Hwf) as Hcl. pose proof Hwf as [? _ _ _]. unfold BUFFER_SIZE_MAX in Hroom.
  destruct (packet_write_spec type b s Hok Hwf) as (n & b' & s' & -> & Hres & Hn).
  destruct Hres as [[Hneg _]|(-> & Hw & _)]; [specialize (Hn Hm Hroom); lia|].
  exists (zlen (frame type (contents b))), b', s', (frame type (contents b)). split_and!; [done|apply Hw|done|].
  intros t more Hok' Hp Hf Hin. destruct (packet_read_spec t Hok' Hp Hf) as (ok & d & t' & -> & Ht & _ & Hdone & Hall).
  specialize (Hall Hm type (contents b) more). unfold SFTP_PACKET_SIZE_MAX in Hall. rewrite Hall in * by (done || lia).
  destruct (Hdone eq_refl) as (type' & c & Hp' & _ & Htype' & -> & Hlen & _). pose proof (tk_in _ _ _ Ht) as Hin'. rewrite Hin in Hin'.
  unfold SFTP_PACKET_SIZE_MAX in Hlen. apply frame_inj in Hin' as (-> & Heq & ->); [|lia..]. exists t', c. by rewrite Heq.
Qed.
End Frames.

(** ** A channel to run the definitions on

    The bytes arrive in chunks, an empty one is a read that gives nothing; after the last
    the peer is gone. *)

Record pipe := mk_pipe { chunks : list bytes; sent : bytes; peer_openssh : Z }.

Definition pipe_read (n : Z) (p : pipe) : run (Z * bytes * pipe) :=
  match chunks p with
  | [] => Some (0, [], p)
  | c :: cs =>
      let rest := zdrop n c in
      Some (Z.min n (zlen c), ztake n c,
            mk_pipe (if bool_decide (rest = []) then cs else rest :: cs) (sent p) (peer_openssh p))
  end.

#[export] Instance pipe_channel : SftpChannel pipe := {|
  chan_new p := Some (true, p);
  chan_open_session p := Some (0, p);
  chan_request_sftp p := Some (0, p);
  chan_write d p := Some (zlen d, mk_pipe (chunks p) (sent p ++ d) (peer_openssh p));
  chan_read := pipe_read;
  chan_is_eof p := Some (if bool_decide (chunks p = []) then 1 else 0);
  chan_poll p := Some (zlen (concat (chunks p)), p);
  chan_send_eof p := Some (0, p);
  chan_free p := Some p;
  chan_openssh := peer_openssh
|}.

Definition empty_chunk (c : bytes) : bool := match c with [] => true | _ => false end.
Definition pipe_lag (p : pipe) : nat := length (List.filter empty_chunk (chunks p)).

#[export] Instance pipe_stream : ChannelStream pipe.
Proof.
  refine {| ch_ok _ := True; incoming p := concat (chunks p); outgoing := sent; lag := pipe_lag |}.
  - intros p n _ Hn. cbn [chan_read pipe_channel]. unfold pipe_read, pipe_lag. destruct (chunks p) as [|c cs] eqn:Hcs.
    { exists 0, [], p. rewrite Hcs. split_and!; (done || lia || idtac). intros _. right. cbn [chan_is_eof pipe_channel]. by rewrite Hcs. }
    do 3 eexists. split; [done|]. cbn [chunks sent peer_openssh concat chan_openssh pipe_channel]. pose proof (zlen_nonneg c).
    assert (Hsplit : c ++ concat cs = ztake n c ++ concat (if bool_decide (zdrop n c = []) then cs else zdrop n c :: cs)).
    { rewrite <- (ztake_drop n c) at 1. rewrite <- app_assoc. case_bool_decide as Hd; [by rewrite Hd|done]. }
    split_and!; (done || lia || idtac).
    + case_bool_decide as Hd; cbn [List.filter]; [destruct (empty_chunk c); cbn [length]; lia|].
      destruct (zdrop n c) eqn:E; [done|]. cbn [empty_chunk]. destruct (empty_chunk c); cbn [length]; lia.
    + intros _. zlen_lia.
    + intros Hz. assert (Hc : zlen c = 0) by lia. destruct c; [|rewrite zlen_cons in Hc; zlen_lia]. left.
      rewrite bool_decide_true by (unfold zdrop; by rewrite drop_nil). cbn [List.filter empty_chunk length]. lia.
  - intros p _. cbn [chan_is_eof pipe_channel]. eexists. split; [done|]. intros Hin. case_bool_decide as Hd; [|done]. by rewrite Hd in Hin.
  - intros p d _ _. cbn [chan_write pipe_channel]. eexists. split_and!; (done || reflexivity).
  - intros p _. cbn [chan_poll pipe_channel]. do 2 eexists. split_and!; (done || reflexivity).
Defined.

(** A session on a pipe. *)
Definition pipe_session (v openssh : Z) (cs : list bytes) (e : option sftp_ext) (h : option (list Z)) : sftp_session pipe :=
  mk_sftp (mk_pipe cs [] openssh) v v v [] 0 0 h e (Some (mk_packet 0 None)).

(** Witness: a packet that is cut in its size, and then by empty reads, in front of the end. *)
Lemma packet_read_terminates_witness :
  exists ok s' d, @sftp_packet_read calloc_allocator _ _ 20 (pipe_session 3 0 [cstr "a"; []; cstr "bc"] None None) = Some (ok, s')
    /\ has_packet s' /\ True /\ cstr "abc" = d ++ incoming (channel s')
    /\ (ok = true -> exists type b, read_packet s' = Some (mk_packet type (Some b)) /\ d = frame type (contents b)).
Proof.
  apply (@packet_read_terminates calloc_allocator pipe _ pipe_stream 20 (pipe_session 3 0 [cstr "a"; []; cstr "bc"] None None));
    [exact I|eexists; split; [reflexivity|intros b Hb; discriminate Hb]|apply Nat.ltb_lt; reflexivity].
Defined.

Definition frame_demo : ssh_buffer := mk_buffer false 8 8 4 (cstr "headbody") [].

Lemma packets_survive_the_stream_witness :
  exists n b' s' w, @sftp_packet_write calloc_allocator _ _ SSH_FXP_DATA frame_demo (pipe_session 3 0 [] None None) = Some (n, b', s')
    /\ sent (channel s') = w /\ n = zlen w /\ w = frame SSH_FXP_DATA (cstr "body")
    /\ exists t' c, @sftp_packet_read calloc_allocator _ _ 30 (pipe_session 3 0 [ztake 3 w; []; zdrop 3 w; cstr "next"] None None) = Some (true, t')
         /\ read_packet t' = Some (mk_packet SSH_FXP_DATA (Some c)) /\ contents c = cstr "body" /\ incoming (channel t') = cstr "next".
Proof.
  destruct (@packets_survive_the_stream calloc_allocator pipe _ pipe_stream 30 SSH_FXP_DATA frame_demo (pipe_session 3 0 [] None None))
    as (n & b' & s' & w & He & Hw & Hn & Hread); [by intros k Hk|exact I|wf_intro; reflexivity|reflexivity|done|].
  assert (Hv : sent (channel s') = frame SSH_FXP_DATA (cstr "body"))
    by (clear Hread; revert He; vm_compute; intros Heq; injection Heq as _ _ <-; reflexivity).
  change (sent (channel s') = [] ++ w) in Hw. cbn [app] in Hw. rewrite Hv in Hw. subst w.
  do 4 eexists. split_and!; [exact He|exact Hv|exact Hn|reflexivity|].
  apply Hread; [exact I|eexists; split; [reflexivity|intros c Hc; discriminate Hc]|apply Nat.ltb_lt; reflexivity|reflexivity].
Defined.
