(* ===== verification/SftpDispatch.v ===== *)
(** * SFTP: finding the reply of a request

    Replies may come in any order.  What [sftp_read_and_dispatch] does to a session
    with any input, and that the loop of a request finds its reply among the
    others, which stay in the queue in their order. *)

From stdpp Require Import gmap.
From S2P Require Import Prelude SshString Buffer Bignum BufferPack Token Session Packet Kex Channel Sftp SftpFrame.

Section Dispatch.
Context `{Allocator} `{BignumLib} {Ch : Type} `{ChannelStream Ch}.
#[local] Abbreviation sftp := (sftp_session Ch).
Implicit Type s : sftp.
#[local] Existing Instance kept_preorder.

(** ** Messages *)

Record message_holds (m : sftp_message) (type id : Z) (body : bytes) : Prop := {
  mh_type : m_type m = type;
  mh_id : m_id m = id;
  mh_body : exists b, m_payload m = Some b /\ buffer_wf b /\ contents b = body
}.

Definition message_wf (m : sftp_message) : Prop := exists type id body, message_holds m type id body /\ is_reply type = true.

(** The bytes of a reply on the stream. *)
Definition reply_body (id : Z) (body : bytes) : bytes := be_bytes 4 id ++ body.
Definition reply_bytes (r : Z * Z * bytes) : bytes := let '(type, id, body) := r in frame type (reply_body id body).

Definition reply_ok (r : Z * Z * bytes) : Prop :=
  let '(type, id, body) := r in is_reply type = true /\ 0 <= id < 2 ^ 32 /\ zlen body + 4 < SFTP_PACKET_SIZE_MAX.

Lemma is_reply_range type : is_reply type = true -> 0 <= type < 256.
Proof. unfold is_reply, SSH_FXP_STATUS, SSH_FXP_HANDLE, SSH_FXP_DATA, SSH_FXP_ATTRS, SSH_FXP_NAME, SSH_FXP_EXTENDED_REPLY. lia. Qed.

Lemma took_queue_packet d s0 s p q : took d s0 s -> kept s0 (set_queue q (set_packet p s)).
Proof. intros [[] _ _ _ _ _]. by constructor. Qed.

(** The message made of a packet that was read. *)
Lemma get_message_spec s type b : ch_ok (channel s) -> read_packet s = Some (mk_packet type (Some b)) -> buffer_wf b ->
  exists o s', sftp_get_message s = Some (o, s') /\ took [] s s' /\ has_packet s' /\ patience s' = patience s
    /\ (forall m, o = Some m -> errnum s' = errnum s /\ is_reply type = true
          /\ exists id body, message_holds m type id body /\ 0 <= id < 2 ^ 32 /\ contents b = reply_body id body)
    /\ (memory_ok -> is_reply type = true -> forall id body, 0 <= id < 2 ^ 32 -> contents b = reply_body id body -> is_Some o).
Proof.
  intros Hok Hp Hwf. unfold sftp_get_message. rewrite Hp. cbn [mbind option_bind pk_type pk_payload].
  assert (Hsame : forall e, took [] s (sftp_set_error e s)) by (intros; by apply took_error, took_refl).
  assert (Hhas : has_packet s) by (eexists; split; [exact Hp|]; intros b' Hb'; by injection Hb' as <-).
  assert (Hempty : packet_wf (mk_packet type None)) by (intros b' Hb'; by discriminate Hb').
  destruct (is_reply type) eqn:Hr; cbn [negb].
  2: { do 2 eexists. split; [done|]. split_and!; (done || apply Hsame). }
  destruct (alloc sizeof_sftp_message) eqn:Hal; cbn [negb].
  2: { do 2 eexists. split; [done|]. split_and!; try (done || apply Hsame). intros [Hm _]. exfalso.
       unfold alloc in Hal. destruct (malloc sizeof_sftp_message) eqn:E; [done|]. apply Hm in E; [done|]. by vm_compute. }
  destruct (sftp_unpack_dword b Hwf) as (rc & os & fr & b1 & -> & Hwf1 & Hres & Hmem). cbn [mbind option_bind].
  assert (Ht : took [] s (set_packet (mk_packet type None) s)) by (by apply took_packet, took_refl).
  destruct Hres as [(-> & z & -> & Hz & Hc)| ->].
  - change (negb (SSH_OK =? SSH_OK)) with false. cbv iota. change (int_slot [SlotInt (Some z)] 0 0) with z.
    do 2 eexists. split; [done|]. split_and!; [done|by eexists|done| |by eexists].
    intros m [= <-]. split_and!; [done..|]. exists z, (contents b1). split_and!; [|lia..|done].
    constructor; [done..|]. by exists b1.
  - change (negb (SSH_ERROR =? SSH_OK)) with true. cbv iota. do 2 eexists. split; [done|].
    split_and!; [by apply took_error|by eexists|done|done|]. intros Hm _ id body Hid Hc.
    by destruct (Hmem Hm id body Hid Hc) as (? & _).
Qed.

Variable fuel : nat.

Definition queue_wf s : Prop := Forall message_wf (queue s).

(** The state after a packet was taken from the stream, queued or not. *)
Record received (d : bytes) (s s' : sftp) : Prop := {
  rv_kept : kept s s';
  rv_ok : ch_ok (channel s');
  rv_packet : has_packet s';
  rv_in : incoming (channel s) = d ++ incoming (channel s');
  rv_out : outgoing (channel s') = outgoing (channel s);
  rv_lag : (lag (channel s') <= lag (channel s))%nat
}.

Lemma received_trans d1 d2 s1 s2 s3 : received d1 s1 s2 -> received d2 s2 s3 -> received (d1 ++ d2) s1 s3.
Proof.
  intros [K1 O1 P1 I1 U1 L1] [K2 O2 P2 I2 U2 L2]. constructor; [by etransitivity|done|done| |congruence|lia].
  by rewrite I1, I2, app_assoc.
Qed.

Lemma received_queue d s s' q : received d s s' -> received d s (set_queue q s').
Proof. intros [[] ? ? ? ? ?]. constructor; (done || by constructor). Qed.

Lemma received_patience d s s' : received d s s' -> (length d + patience s' <= patience s)%nat.
Proof. intros Hr. unfold patience. rewrite (rv_in _ _ _ Hr), length_app. pose proof (rv_lag _ _ _ Hr). lia. Qed.

Lemma dispatch_spec s : ch_ok (channel s) -> has_packet s -> (patience s < fuel)%nat ->
  exists rc d s', sftp_read_and_dispatch fuel s = Some (rc, s') /\ received d s s'
    /\ (rc = 0 /\ errnum s' = errnum s /\ (exists m type id body, queue s' = queue s ++ [m] /\ message_holds m type id body
          /\ reply_ok (type, id, body) /\ d = reply_bytes (type, id, body))
        \/ rc = -1 /\ queue s' = queue s)
    /\ (memory_ok -> forall r rest, reply_ok r -> incoming (channel s) = reply_bytes r ++ rest -> rc = 0).
Proof.
  intros Hok Hp Hf. unfold sftp_read_and_dispatch.
  destruct (packet_read_spec fuel s Hok Hp Hf) as (ok & d & s1 & -> & Ht & Hp1 & Hdone & Hall). cbn [mbind option_bind].
  assert (Hrec : received d s s1) by (destruct Ht; by constructor).
  destruct ok; cbn [negb].
  2: { exists (-1), d, s1. split_and!; [done|done|right; by split; [|apply Ht]|]. intros [Hm _] [[type id] body] rest (Hr & Hid & Hlen) Hin.
       specialize (Hall Hm type (reply_body id body) rest). unfold reply_body in Hall.
       assert (Hft : false = true) by (apply Hall; [zlen_lia|done]). done. }
  destruct (Hdone eq_refl) as (type & b & Hpk & Hwf & Htype & -> & Hlen & He1). clear Hdone Hall.
  destruct (get_message_spec s1 type b (tk_ok _ _ _ Ht) Hpk Hwf) as (o & s2 & -> & Ht2 & Hp2 & _ & Hmsg & Hsome). cbn [mbind option_bind].
  assert (Hrec2 : received (frame type (contents b)) s s2).
  { rewrite <- (app_nil_r (frame _ _)). eapply received_trans; [done|]. destruct Ht2; by constructor. }
  assert (Hthis : forall r rest, reply_ok r -> incoming (channel s) = reply_bytes r ++ rest ->
    exists id body, r = (type, id, body) /\ contents b = reply_body id body).
  { intros [[type' id] body] rest (Hr & Hid & Hl) Hin. rewrite (tk_in _ _ _ Ht) in Hin. cbn [reply_bytes] in Hin.
    apply is_reply_range in Hr as Hrange. unfold SFTP_PACKET_SIZE_MAX in Hlen, Hl. unfold reply_body in *.
    apply frame_inj in Hin as (-> & -> & _); [by exists id, body|done|done|lia|zlen_lia]. }
  destruct o as [m|].
  - destruct (Hmsg m eq_refl) as (He2 & Hr & id & body & Hm & Hid & Hc). unfold sftp_enqueue.
    destruct (alloc sizeof_request_queue) eqn:Hal; cbn [negb].
    + exists 0. do 2 eexists. split; [done|]. split_and!; [by apply received_queue| |done]. left. split_and!; [done|cbn [errnum set_queue]; congruence|].
      exists m, type, id, body. split_and!; [|done| |by rewrite Hc].
      * cbn [queue set_queue]. by rewrite (tk_queue _ _ _ Ht2), (tk_queue _ _ _ Ht).
      * split_and!; [done|lia..|]. unfold reply_body in Hc. rewrite Hc in Hlen. zlen_lia.
    + exists (-1). do 2 eexists. split; [done|]. split_and!.
      * destruct Hrec2 as [[] ? ? ? ? ?]. constructor; (done || by constructor).
      * right. split; [done|]. cbn [queue sftp_set_error]. by rewrite (tk_queue _ _ _ Ht2), (tk_queue _ _ _ Ht).
      * intros [Hmm _] r rest _ _. exfalso. unfold alloc in Hal. destruct (malloc sizeof_request_queue) eqn:E; [done|].
        apply Hmm in E; [done|]. by vm_compute.
  - exists (-1). do 2 eexists. split; [done|]. split_and!; [done|right; split; [done|by rewrite (tk_queue _ _ _ Ht2), (tk_queue _ _ _ Ht)]|].
    intros Hmem r rest Hr Hin. destruct (Hthis r rest Hr Hin) as (id & body & -> & Hc). destruct Hr as (Hr & Hid & _).
    by destruct (Hsome Hmem Hr id body Hid Hc).
Qed.

(** ** The queue *)

(** [sftp_dequeue] takes the first message with the number, and only that one. *)
Lemma dequeue_walk_spec q id :
  match dequeue_walk q id with
  | None => Forall (fun m => m_id m <> id) q
  | Some (m, q') => exists q1 q2, q = q1 ++ m :: q2 /\ q' = q1 ++ q2 /\ m_id m = id /\ Forall (fun m => m_id m <> id) q1
  end.
Proof.
  induction q as [|m q IH]; cbn [dequeue_walk]; [constructor|]. destruct (Z.eqb_spec (m_id m) id) as [Heq|Hne].
  - exists [], q. by split_and!.
  - destruct (dequeue_walk q id) as [[x q']|]; cbn [mbind option_bind].
    + destruct IH as (q1 & q2 & -> & -> & ? & ?). exists (m :: q1), q2. split_and!; [done..|by constructor].
    + by constructor.
Qed.

Lemma dequeue_walk_none q id : Forall (fun m => m_id m <> id) q -> dequeue_walk q id = None.
Proof.
  intros Hq. induction Hq as [|m q Hm Hq IH]; [done|]. cbn [dequeue_walk]. by rewrite (proj2 (Z.eqb_neq _ _)), IH.
Qed.

Lemma dequeue_walk_last q m : Forall (fun x => m_id x <> m_id m) q -> dequeue_walk (q ++ [m]) (m_id m) = Some (m, q).
Proof.
  intros Hq. induction Hq as [|x q Hx Hq IH]; cbn [app dequeue_walk]; [by rewrite Z.eqb_refl|].
  rewrite (proj2 (Z.eqb_neq _ _)) by done. rewrite IH. done.
Qed.

(** ** The loop of a request *)

Definition other (id : Z) (r : Z * Z * bytes) : Prop := reply_ok r /\ r.1.2 <> id.
Definition holds_reply (m : sftp_message) (r : Z * Z * bytes) : Prop := message_holds m r.1.1 r.1.2 r.2.

Lemma wait_reply_found : forall n s others type id body rest,
  memory_ok -> ch_ok (channel s) -> has_packet s -> (patience s < fuel)%nat -> (length others < n)%nat ->
  Forall (fun m => m_id m <> id) (queue s) -> Forall (other id) others -> reply_ok (type, id, body) ->
  incoming (channel s) = concat (map reply_bytes others) ++ reply_bytes (type, id, body) ++ rest ->
  exists m ms s', wait_reply fuel n false id s = Some (Got m, s')
    /\ received (concat (map reply_bytes others) ++ reply_bytes (type, id, body)) s s' /\ errnum s' = errnum s
    /\ message_holds m type id body /\ queue s' = queue s ++ ms /\ Forall2 holds_reply ms others.
Proof.
  induction n as [|n IH]; intros s others type id body rest Hmem Hok Hp Hf Hn Hq Hoth Hr Hin; [lia|]. cbn [wait_reply mbind option_bind].
  destruct (dispatch_spec s Hok Hp Hf) as (rc & d & s1 & -> & Hrec & Hres & Hall). cbn [mbind option_bind].
  destruct others as [|r others]; cbn [map concat app] in Hin |- *.
  - rewrite (Hall Hmem _ _ Hr Hin) in *. change (0 <? 0) with false. cbv iota.
    destruct Hres as [(_ & He & m & type' & id' & body' & Hq1 & Hm & Hr' & ->)|[? _]]; [|done].
    pose proof (rv_in _ _ _ Hrec) as Hin1. rewrite Hin in Hin1. cbn [reply_bytes] in Hin1.
    destruct Hr as (Hr & Hid & Hl), Hr' as (Hr' & Hid' & Hl'). unfold SFTP_PACKET_SIZE_MAX in Hl, Hl'.
    apply frame_inj in Hin1 as (<- & Hb & _);
      [|by apply is_reply_range..|unfold reply_body; zlen_lia|unfold reply_body; zlen_lia].
    unfold reply_body in Hb. apply app_inj_1 in Hb as [Hi <-]; [|done].
    apply (f_equal be_val) in Hi. rewrite !be_val_bytes, !Z.mod_small in Hi by done. subst id'.
    unfold sftp_dequeue. rewrite Hq1. destruct Hm as [Hmt Hmi Hmb].
    assert (Hdq : dequeue_walk (queue s ++ [m]) id = Some (m, queue s)) by (rewrite <- Hmi in *; by apply dequeue_walk_last).
    rewrite Hdq. exists m, []. eexists. split; [done|]. split_and!; [by apply received_queue|done|done| |by constructor].
    cbn [queue set_queue]. by rewrite app_nil_r.
  - inversion Hoth as [|? ? [Hro Hne] Hoth']; subst. rewrite <- app_assoc in Hin.
    rewrite (Hall Hmem _ _ Hro Hin) in *. change (0 <? 0) with false. cbv iota.
    destruct Hres as [(_ & He & m & type' & id' & body' & Hq1 & Hm & Hr' & ->)|[? _]]; [|done].
    pose proof (rv_in _ _ _ Hrec) as Hin1. rewrite Hin in Hin1. destruct r as [[t i] bo]. cbn [reply_bytes fst snd] in *.
    destruct Hro as (Hro & Hido & Hlo), Hr' as (Hr' & Hid' & Hl'). unfold SFTP_PACKET_SIZE_MAX in Hlo, Hl'.
    apply frame_inj in Hin1 as (<- & Hb & Hrest);
      [|by apply is_reply_range..|unfold reply_body; zlen_lia|unfold reply_body; zlen_lia].
    unfold reply_body in Hb. apply app_inj_1 in Hb as [Hi <-]; [|done].
    apply (f_equal be_val) in Hi. rewrite !be_val_bytes, !Z.mod_small in Hi by done. subst id'.
    unfold sftp_dequeue. assert (Hall1 : Forall (fun m => m_id m <> id) (queue s1)).
    { rewrite Hq1. apply Forall_app. split; [done|]. constructor; [|constructor]. by rewrite (mh_id _ _ _ _ Hm). }
    rewrite dequeue_walk_none by done.
    destruct (IH s1 others type id body rest) as (m' & ms & s' & -> & Hrec' & He' & Hm' & Hq' & Hms);
      [done|apply Hrec|apply Hrec|pose proof (received_patience _ _ _ Hrec); lia|cbn [length] in Hn; lia|done..|].
    exists m', (m :: ms), s'. split_and!; [done| |congruence|done| |by constructor].
    + rewrite <- app_assoc. by eapply received_trans.
    + by rewrite Hq', Hq1, <- app_assoc.
Qed.

(** Whatever arrives, the loop of a request ends, and what it gives or leaves in the queue is well formed. *)
Lemma wait_reply_safe nonblocking id : forall n s,
  ch_ok (channel s) -> has_packet s -> (patience s < fuel)%nat -> (patience s < n)%nat -> queue_wf s ->
  exists w d s', wait_reply fuel n nonblocking id s = Some (w, s') /\ received d s s' /\ queue_wf s'
    /\ (forall m, w = Got m -> message_wf m).
Proof.
  induction n as [|n IH]; intros s Hok Hp Hf Hn Hq; [lia|]. cbn [wait_reply].
  assert (Hpoll : exists none s1, (if nonblocking then '(r, c) ← chan_poll (channel s); Some (r =? 0, set_channel c s) else Some (false, s))
      = Some (none, s1) /\ received [] s s1 /\ queue s1 = queue s).
  { destruct nonblocking.
    - destruct (poll_law (channel s) Hok) as (r & c' & -> & Hok' & Hu & Hi & Hl & Ho). cbn [mbind option_bind].
      do 2 eexists. split; [done|]. split; [|done]. destruct Hp as (p & Hp & Hpw).
      constructor; [by constructor|done|by exists p|by rewrite <- Hi|done|cbn [channel set_channel]; lia].
    - do 2 eexists. split; [done|]. split; [|done]. constructor; (done || apply kept_refl). }
  destruct Hpoll as (none & s1 & -> & Hrec1 & Hq1). cbn [mbind option_bind].
  destruct none.
  { exists WouldBlock, [], s1. split_and!; [done|done|unfold queue_wf; by rewrite Hq1|done]. }
  assert (Hpt : (patience s1 <= patience s)%nat) by (pose proof (received_patience _ _ _ Hrec1); lia).
  destruct (dispatch_spec s1) as (rc & d & s2 & -> & Hrec & Hres & _); [apply Hrec1|apply Hrec1|lia|]. cbn [mbind option_bind].
  pose proof (received_trans _ _ _ _ _ Hrec1 Hrec) as Hrec2. cbn [app] in Hrec2. pose proof (received_patience _ _ _ Hrec) as Hpt2.
  destruct Hres as [(-> & _ & m & type & id' & body & Hq2 & Hm & Hro & ->)|(-> & Hq2)].
  2: { change (-1 <? 0) with true. cbv iota. exists Nasty, d, s2. split_and!; [done|done|unfold queue_wf; by rewrite Hq2, Hq1|done]. }
  change (0 <? 0) with false. cbv iota.
  assert (Hqw : queue_wf s2).
  { unfold queue_wf. rewrite Hq2, Hq1. apply Forall_app. split; [done|]. constructor; [|constructor].
    exists type, id', body. split; [done|]. by destruct Hro. }
  assert (Hlen : (0 < length (reply_bytes (type, id', body)))%nat)
    by (pose proof (zlen_sftp_frame type (reply_body id' body)) as Hl; cbn [reply_bytes]; unfold zlen in Hl; lia).
  unfold sftp_dequeue. pose proof (dequeue_walk_spec (queue s2) id) as Hdq. destruct (dequeue_walk (queue s2) id) as [[x q]|].
  - destruct Hdq as (q1 & q2 & Hqe & -> & _). unfold queue_wf in Hqw. rewrite Hqe in Hqw.
    apply Forall_app in Hqw as [Hw1 Hw2]. inversion Hw2; subst. exists (Got x). do 2 eexists.
    split_and!; [done|by apply received_queue|by apply Forall_app|]. intros m' [= <-]. done.
  - destruct (IH s2) as (w & d' & s' & -> & Hrec' & Hqw' & Hgot); [apply Hrec|apply Hrec|lia|lia|done|].
    exists w. do 2 eexists. split_and!; [done|by eapply received_trans|done|done].
Qed.

(** (C13) A request finds its reply: when the stream holds replies to other requests and then the one
    with its number, the loop returns exactly that reply, whatever the chunks it arrives in;
    the others are in the queue, in the order of their arrival, after what was there,
    and nothing more was taken from the stream. *)
Theorem replies_found_in_any_order n s others type id body rest :
  memory_ok -> ch_ok (channel s) -> has_packet s -> (patience s < fuel)%nat -> (length others < n)%nat ->
  Forall (fun m => m_id m <> id) (queue s) -> Forall (other id) others -> reply_ok (type, id, body) ->
  incoming (channel s) = concat (map reply_bytes others) ++ reply_bytes (type, id, body) ++ rest ->
  exists m ms s', wait_reply fuel n false id s = Some (Got m, s') /\ message_holds m type id body
    /\ queue s' = queue s ++ ms /\ Forall2 holds_reply ms others /\ incoming (channel s') = rest.
Proof.
  intros Hmem Hok Hp Hf Hn Hq Hoth Hr Hin.
  destruct (wait_reply_found n s others type id body rest Hmem Hok Hp Hf Hn Hq Hoth Hr Hin)
    as (m & ms & s' & -> & Hrec & _ & Hm & Hqs & Hms).
  exists m, ms, s'. split_and!; try done. pose proof (rv_in _ _ _ Hrec) as Hi. rewrite Hin, app_assoc in Hi. by apply app_inv_head in Hi.
Qed.
End Dispatch.

(** Witness: the reply to request 2 is found behind the one to request 1. *)
Definition two_replies : bytes :=
  reply_bytes (SSH_FXP_HANDLE, 1, cstr "one") ++ reply_bytes (SSH_FXP_STATUS, 2, cstr "two") ++ cstr "rest".

Lemma replies_found_in_any_order_witness :
  exists m ms s', @wait_reply calloc_allocator N_bignum _ _ 60 3 false 2 (pipe_session 3 0 [ztake 7 two_replies; []; zdrop 7 two_replies] None None)
      = Some (Got m, s') /\ message_holds m SSH_FXP_STATUS 2 (cstr "two")
    /\ queue s' = [] ++ ms /\ Forall2 holds_reply ms [(SSH_FXP_HANDLE, 1, cstr "one")] /\ incoming (channel s') = cstr "rest".
Proof.
  apply (@replies_found_in_any_order calloc_allocator N_bignum pipe _ pipe_stream 60 3
           (pipe_session 3 0 [ztake 7 two_replies; []; zdrop 7 two_replies] None None) [(SSH_FXP_HANDLE, 1, cstr "one")]).
  - split; [by intros k Hk|done].
  - exact I.
  - eexists. split; [reflexivity|]. intros b Hb. discriminate Hb.
  - apply Nat.ltb_lt. vm_compute. reflexivity.
  - apply Nat.ltb_lt. reflexivity.
  - constructor.
  - repeat constructor; discriminate.
  - repeat constructor; discriminate.
  - vm_compute. reflexivity.
Defined.
