(* ===== verification/SftpAttr.v ===== *)
(** * SFTP: attributes

    The attributes of a file in both directions: what one side writes the other
    reads, and reading is safe on any bytes and ends, except for the names of a
    listing of OpenSSH. *)

From stdpp Require Import gmap.
From S2P Require Import Prelude SshString Buffer Bignum BufferPack Token Session Packet Kex Channel Sftp SftpFrame.

Section Attributes.
Context `{Allocator} `{BignumLib} {Ch : Type} `{SftpChannel Ch}.
#[local] Abbreviation sftp := (sftp_session Ch).
Implicit Type s : sftp.

(** ** Writing *)

Definition has_flag (flags f : Z) : bool := negb (Z.land flags f =? 0).
Definition written_flags (attr : option sftp_attributes) : Z := Z.land (match attr with Some a => a_flags a | None => 0 end) WRITTEN_FLAGS.

Definition attr_fields (attr : option sftp_attributes) : list (@field _) :=
  let flags := written_flags attr in
  FDword flags ::
  match attr with
  | None => []
  | Some a =>
      (if has_flag flags SSH_FILEXFER_ATTR_SIZE then [FQword (a_size a)] else [])
      ++ (if has_flag flags SSH_FILEXFER_ATTR_UIDGID then [FDword (a_uid a); FDword (a_gid a)] else [])
      ++ (if has_flag flags SSH_FILEXFER_ATTR_PERMISSIONS then [FDword (a_permissions a)] else [])
      ++ (if has_flag flags SSH_FILEXFER_ATTR_ACMODTIME then [FDword (a_atime a); FDword (a_mtime a)] else [])
  end.

Definition attr_bytes (attr : option sftp_attributes) : bytes := fields_encode (attr_fields attr).

(** A step that appends: it never crashes, and with memory and room it succeeds; [u] bounds what is used. *)
Definition packs_to (q : bytes) (u : Z) (r : run (Z * ssh_buffer)) : Prop :=
  exists rc b, r = Some (rc, b) /\ buffer_wf b /\ (rc = SSH_OK /\ contents b = q \/ rc = -1)
    /\ (malloc_succeeds -> u < BUFFER_SIZE_MAX -> rc = SSH_OK /\ b_used b <= u).

Definition int_fields (fs : list (@field _)) : bool :=
  forallb (fun f => match f with FDword _ | FQword _ => true | _ => false end) fs.

Lemma int_fields_ready fs : int_fields fs = true -> Forall field_ready fs /\ fields_room fs = zlen (fields_encode fs).
Proof.
  induction fs as [|f fs IH]; [done|]. unfold int_fields in *. cbn [forallb]. intros [Hf Hfs]%andb_true_iff. destruct (IH Hfs) as [? Hr].
  rewrite fields_room_cons, fields_encode_cons, zlen_app, Hr. split; [|by destruct f]. constructor; [|done]. by destruct f.
Qed.

Lemma pack_more_spec q u r (present : bool) (fmt : string) fs :
  packs_to q u r -> cstr fmt = fields_format fs -> int_fields fs = true -> fs <> [] -> zlen (fields_args fs) <= 256 ->
  zlen (fields_encode fs) < 2 ^ 20 ->
  packs_to (q ++ if present then fields_encode fs else []) (u + if present then zlen (fields_encode fs) else 0)
    (pack_more r present fmt (fields_args fs)).
Proof.
  intros (rc & b & -> & Hwf & Hres & Hmem) Hf Hint Hne Hn Hsmall. destruct (int_fields_ready fs Hint) as [Hready Hroom].
  pose proof (zlen_nonneg (fields_encode fs)) as Hnn. unfold pack_more. cbn [mbind option_bind].
  destruct Hres as [[-> Hc]| ->].
  2: { change (negb (-1 =? SSH_OK)) with true. cbv iota. do 2 eexists. split_and!; [done|done|by right|].
       intros Hm Hu. destruct (Hmem Hm) as [? _]; [destruct present; lia|done]. }
  change (negb (SSH_OK =? SSH_OK)) with false. cbv iota. destruct present; cbn [negb].
  2: { do 2 eexists. rewrite app_nil_r, Z.add_0_r. split_and!; [done|done|by left|done]. }
  destruct (pack_fields_spec b fs Hwf) as (rc & b1 & He & Hwf1 & _ & Hrc);
    [eapply Forall_impl; [exact Hready|]; by intros f [? _]|done|done|]. rewrite Hf, He. cbn [mbind option_bind].
  assert (Hgood : malloc_succeeds -> u + zlen (fields_encode fs) < BUFFER_SIZE_MAX -> rc = SSH_OK /\ b_used b1 <= u + zlen (fields_encode fs)).
  { intros Hm Hu. destruct (Hmem Hm) as [_ Hub]; [lia|].
    destruct (pack_fields_ok b fs Hm Hwf Hready Hne Hn) as (b2 & He2 & _ & Hu2 & _); [unfold BUFFER_SIZE_MAX; lia|unfold BUFFER_SIZE_MAX in *; lia|].
    rewrite He in He2. injection He2 as -> ->. split; [done|lia]. }
  do 2 eexists. split; [done|]. split_and!; [done| |].
  - destruct Hrc as [[-> Hc1]|[-> _]]; [left|by right]. by rewrite Hc1, Hc.
  - intros Hm Hu. destruct (Hgood Hm Hu) as [-> ?]. done.
Qed.

Lemma packs_to_eq q q' u u' r : packs_to q u r -> q = q' -> u = u' -> packs_to q' u' r.
Proof. by intros ? <- <-. Qed.

Lemma add_attributes_spec b attr : buffer_wf b ->
  packs_to (contents b ++ attr_bytes attr) (b_used b + zlen (attr_bytes attr)) (buffer_add_attributes b attr).
Proof.
  intros Hwf. assert (Hstart : packs_to (contents b) (b_used b) (Some (SSH_OK, b))).
  { do 2 eexists. split_and!; [done|done|by left|]. intros _ ?. split; [done|lia]. }
  unfold buffer_add_attributes, attr_bytes, attr_fields. fold (written_flags attr). set (flags := written_flags attr).
  apply (pack_more_spec _ _ _ true "d" [FDword flags]) in Hstart; [|done..].
  destruct attr as [a|]; [|eapply packs_to_eq; [exact Hstart|done..]].
  apply (pack_more_spec _ _ _ (has_flag flags SSH_FILEXFER_ATTR_SIZE) "q" [FQword (a_size a)]) in Hstart; [|done..].
  apply (pack_more_spec _ _ _ (has_flag flags SSH_FILEXFER_ATTR_UIDGID) "dd" [FDword (a_uid a); FDword (a_gid a)]) in Hstart; [|done..].
  apply (pack_more_spec _ _ _ (has_flag flags SSH_FILEXFER_ATTR_PERMISSIONS) "d" [FDword (a_permissions a)]) in Hstart; [|done..].
  apply (pack_more_spec _ _ _ (has_flag flags SSH_FILEXFER_ATTR_ACMODTIME) "dd" [FDword (a_atime a); FDword (a_mtime a)]) in Hstart; [|done..].
  eapply packs_to_eq; [exact Hstart| |];
    destruct (has_flag flags SSH_FILEXFER_ATTR_SIZE), (has_flag flags SSH_FILEXFER_ATTR_UIDGID),
      (has_flag flags SSH_FILEXFER_ATTR_PERMISSIONS), (has_flag flags SSH_FILEXFER_ATTR_ACMODTIME);
    unfold fields_encode; cbn [map concat app]; rewrite <- ?app_assoc, ?app_nil_r; (done || zlen_lia).
Qed.

(** ** Reading what was written *)

Definition front {A} (m : parser A) (fs : list (@field _)) (a : A) : Prop :=
  forall b rest, buffer_wf b -> contents b = fields_encode fs ++ rest ->
  exists b', m b = Some (Some a, b') /\ buffer_wf b' /\ contents b' = rest.

Lemma front_bind {A B} (m : parser A) (k : A -> parser B) fs gs a c :
  front m fs a -> front (k a) gs c -> front (pbind m k) (fs ++ gs) c.
Proof.
  intros Hm Hk b rest Hwf Hc. unfold fields_encode in Hc. rewrite map_app, concat_app, <- app_assoc in Hc. unfold pbind.
  destruct (Hm b _ Hwf Hc) as (b1 & -> & Hwf1 & Hc1). cbn [mbind option_bind]. by apply Hk.
Qed.

Lemma front_ret {A} (a : A) : front (pret a) [] a.
Proof. intros b rest Hwf Hc. by exists b. Qed.

Lemma front_if {A} flags flag (m : parser A) zero fs a : front m fs a ->
  front (field_if flags flag m zero) (if has_flag flags flag then fs else []) (if has_flag flags flag then a else zero).
Proof. intros Hm. unfold field_if, has_flag. destruct (negb _); [done|apply front_ret]. Qed.

Lemma front_unpack (fmt : string) args fs b rest : memory_ok -> buffer_wf b -> contents b = fields_encode fs ++ rest ->
  cstr fmt = fields_format fs -> args = map (fun _ => UPtr) (cstr fmt) ->
  Forall field_ok fs -> fs <> [] -> plain_fields fs -> zlen (cstr fmt) <= 256 ->
  exists os b', unpack_with fmt args b = Some (Some os, b') /\ Forall2 slot_holds fs os /\ buffer_wf b' /\ contents b' = rest.
Proof.
  intros Hm Hwf Hc Hf Ha Hok Hne Hp Hn. unfold unpack_with.
  destruct (unpack_front b fmt args fs rest Hm Hwf Hc) as (os & b' & -> & Hos & Hwf' & Hc'); [done..|]. by exists os, b'.
Qed.

Definition dword_ok (z : Z) : Prop := 0 <= z < 2 ^ 32.
Definition qword_ok (z : Z) : Prop := 0 <= z < 2 ^ 64.

Lemma holds_slot_d z o os : slot_holds (FDword z) o -> dword_ok z -> int_slot (o :: os) 0 0 = z.
Proof. intros Ho Hz. unfold int_slot. cbn. destruct o; try done. cbn in Ho. subst. by apply Z.mod_small. Qed.

Lemma front_d z : memory_ok -> dword_ok z -> front p_d [FDword z] z.
Proof.
  intros Hm Hz b rest Hwf Hc. destruct (front_unpack "d" [UPtr] [FDword z] b rest Hm Hwf Hc) as (os & b' & He & Hos & ? & ?);
    [done..|by repeat constructor|done|by repeat constructor|done|]. unfold p_d, pbind. rewrite He. cbn [mbind option_bind].
  inversion Hos as [|? o ? os' Ho _]; subst. rewrite (holds_slot_d z o os' Ho Hz). by exists b'.
Qed.

Lemma front_q z : memory_ok -> qword_ok z -> front p_q [FQword z] z.
Proof.
  intros Hm Hz b rest Hwf Hc. destruct (front_unpack "q" [UPtr] [FQword z] b rest Hm Hwf Hc) as (os & b' & He & Hos & ? & ?);
    [done..|by repeat constructor|done|by repeat constructor|done|]. unfold p_q, pbind. rewrite He. cbn [mbind option_bind].
  inversion Hos as [|? o ? os' Ho _]; subst. exists b'. split_and!; [|done..]. unfold pret, int_slot. cbn [lookup list_lookup].
  destruct o; try done. cbn in Ho. subst. by rewrite Z.mod_small.
Qed.

Lemma front_dd y z : memory_ok -> dword_ok y -> dword_ok z -> front p_dd [FDword y; FDword z] (y, z).
Proof.
  intros Hm Hy Hz b rest Hwf Hc.
  destruct (front_unpack "dd" [UPtr; UPtr] [FDword y; FDword z] b rest Hm Hwf Hc) as (os & b' & He & Hos & ? & ?);
    [done..|by repeat constructor|done|by repeat constructor|done|]. unfold p_dd, pbind. rewrite He. cbn [mbind option_bind].
  inversion Hos as [|? o ? os' Ho Hos']; subst. inversion Hos' as [|? o' ? os'' Ho' _]; subst. exists b'. split_and!; [|done..].
  unfold pret. rewrite (holds_slot_d y o _ Ho Hy). unfold int_slot. cbn [lookup list_lookup].
  destruct o'; try done. cbn in Ho'. subst. by rewrite Z.mod_small.
Qed.

(** The fields that are sent have the widths of the protocol. *)
Definition attr_ok (a : sftp_attributes) : Prop :=
  dword_ok (a_flags a) /\ qword_ok (a_size a) /\ dword_ok (a_uid a) /\ dword_ok (a_gid a) /\ dword_ok (a_permissions a)
  /\ dword_ok (a_atime a) /\ dword_ok (a_mtime a).

(** What the other side knows: the fields of the flags of version 3, and the type from the permissions. *)
Definition received_attr (a : sftp_attributes) : sftp_attributes :=
  let flags := Z.land (a_flags a) WRITTEN_FLAGS in
  let given f v := if has_flag flags f then v else 0 in
  mk_attr None None flags
    (given SSH_FILEXFER_ATTR_PERMISSIONS (type_of_permissions (a_permissions a)))
    (given SSH_FILEXFER_ATTR_SIZE (a_size a))
    (given SSH_FILEXFER_ATTR_UIDGID (a_uid a)) (given SSH_FILEXFER_ATTR_UIDGID (a_gid a))
    None None (given SSH_FILEXFER_ATTR_PERMISSIONS (a_permissions a))
    0 (given SSH_FILEXFER_ATTR_ACMODTIME (a_atime a)) 0 0 0 0 (given SSH_FILEXFER_ATTR_ACMODTIME (a_mtime a)) 0
    None 0 None None.

Lemma flags_range a m : 0 <= a -> 0 <= m < 2 ^ 32 -> dword_ok (Z.land a m).
Proof.
  intros Ha Hm. unfold dword_ok. split; [by apply Z.land_nonneg; left|]. destruct (decide (Z.land a m = 0)) as [->|Hne]; [lia|].
  apply Z.log2_lt_pow2; [pose proof (Z.land_nonneg a m); lia|]. pose proof (Z.log2_land a m Ha ltac:(lia)) as Hl.
  assert (Z.log2 m < 32) by (destruct (decide (m = 0)) as [->|]; [done|apply Z.log2_lt_pow2; lia]). lia.
Qed.

Lemma no_extended flags : has_flag (Z.land flags WRITTEN_FLAGS) SSH_FILEXFER_ATTR_EXTENDED = false.
Proof. unfold has_flag. rewrite <- Z.land_assoc. change (Z.land WRITTEN_FLAGS SSH_FILEXFER_ATTR_EXTENDED) with 0. by rewrite Z.land_0_r. Qed.

Lemma attr_front openssh a : memory_ok -> attr_ok a ->
  front (p_attr_3 openssh false) (attr_fields (Some a)) (received_attr a).
Proof.
  intros Hm (Hf & Hs & Hu & Hg & Hp & Ha & Hmt). set (flags := Z.land (a_flags a) WRITTEN_FLAGS).
  assert (Hfl : dword_ok flags) by (apply flags_range; [apply Hf|by vm_compute]).
  unfold p_attr_3. change (attr_fields (Some a)) with ([] ++ attr_fields (Some a)).
  eapply front_bind; [apply (front_ret (None, None, (None, None)))|]. cbn [fst snd].
  unfold attr_fields, written_flags. fold flags. change (FDword flags :: ?l) with ([FDword flags] ++ l).
  eapply front_bind; [by apply front_d|].
  eapply front_bind; [by apply front_if, front_q|]. eapply front_bind; [by apply front_if, front_dd|].
  eapply front_bind.
  { apply front_if. change [FDword (a_permissions a)] with ([FDword (a_permissions a)] ++ []). eapply front_bind; [by apply front_d|apply front_ret]. }
  rewrite <- (app_nil_r (if has_flag flags SSH_FILEXFER_ATTR_ACMODTIME then _ else _)).
  eapply front_bind; [by apply front_if, front_dd|].
  change (@nil (@field _)) with (@nil (@field _) ++ []). eapply front_bind.
  { unfold field_if. pose proof (no_extended (a_flags a)) as Hx. unfold has_flag in Hx. fold flags in Hx. rewrite Hx. apply front_ret. }
  intros b rest Hwf Hc. exists b. split_and!; [|done..]. unfold pret, received_attr. fold flags. do 2 f_equal.
  destruct (has_flag flags SSH_FILEXFER_ATTR_SIZE), (has_flag flags SSH_FILEXFER_ATTR_UIDGID),
    (has_flag flags SSH_FILEXFER_ATTR_PERMISSIONS), (has_flag flags SSH_FILEXFER_ATTR_ACMODTIME); done.
Qed.

Lemma parse_attr_written s buf a rest : memory_ok -> 0 <= version s <= 3 -> attr_ok a -> buffer_wf buf ->
  contents buf = attr_bytes (Some a) ++ rest ->
  exists buf', sftp_parse_attr buf false s = Some (Some (received_attr a), buf', s) /\ buffer_wf buf' /\ contents buf' = rest.
Proof.
  intros Hm Hv Ha Hwf Hc. unfold sftp_parse_attr. rewrite (proj2 (Z.eqb_neq _ 4)) by lia.
  assert (Hold : (version s =? 3) || (version s =? 2) || (version s =? 1) || (version s =? 0) = true).
  { assert (version s = 0 \/ version s = 1 \/ version s = 2 \/ version s = 3) as [-> | [-> | [-> | ->]]] by lia; done. }
  rewrite Hold. unfold sftp_parse_attr_3, alloc. destruct (malloc sizeof_sftp_attributes) eqn:Hal.
  2: { by destruct Hm as [Hmm _]; apply Hmm in Hal. }
  cbn [some negb]. destruct (attr_front (chan_openssh (channel s)) a Hm Ha buf rest Hwf Hc) as (b' & -> & ? & ?).
  cbn [mbind option_bind some]. by exists b'.
Qed.

(** (C34) Attributes survive the trip: what [buffer_add_attributes] writes after other data,
    [sftp_parse_attr] of a peer of version 3 or less reads back, flag by flag, with the type
    of the file deduced from its permissions, and stops where they end. *)
Theorem attributes_roundtrip s b a rest :
  memory_ok -> 0 <= version s <= 3 -> attr_ok a -> buffer_wf b -> b_used b + 32 < BUFFER_SIZE_MAX ->
  exists b1, buffer_add_attributes b (Some a) = Some (SSH_OK, b1)
    /\ exists w, contents b1 = contents b ++ w /\ zlen w <= 32
    /\ forall buf, buffer_wf buf -> contents buf = w ++ rest ->
         exists buf', sftp_parse_attr buf false s = Some (Some (received_attr a), buf', s) /\ contents buf' = rest.
Proof.
  intros Hm Hv Ha Hwf Hroom. destruct (add_attributes_spec b (Some a) Hwf) as (rc & b1 & -> & Hwf1 & Hres & Hgood).
  assert (Hlen : zlen (attr_bytes (Some a)) <= 32).
  { unfold attr_bytes, attr_fields. set (f := written_flags (Some a)).
    destruct (has_flag f SSH_FILEXFER_ATTR_SIZE), (has_flag f SSH_FILEXFER_ATTR_UIDGID), (has_flag f SSH_FILEXFER_ATTR_PERMISSIONS),
      (has_flag f SSH_FILEXFER_ATTR_ACMODTIME); done. }
  destruct (Hgood (proj1 Hm)) as [-> _]; [lia|]. exists b1. split; [done|]. exists (attr_bytes (Some a)).
  destruct Hres as [[_ Hc]|?]; [|done]. split_and!; [done..|]. intros buf Hwfb Hcb.
  destruct (parse_attr_written s buf a rest) as (buf' & ? & _ & ?); [done..|]. by exists buf'.
Qed.

(** ** Reading anything *)

(** On any buffer the parser has a result; what it returns satisfies [Q], and was at the front. *)
Definition psafe {A} (Q : A -> Prop) (m : parser A) : Prop :=
  forall b, buffer_wf b -> exists o b', m b = Some (o, b') /\ buffer_wf b'
    /\ forall a, o = Some a -> Q a /\ zlen (contents b') <= zlen (contents b).

Lemma psafe_bind {A B} (P : A -> Prop) (Q : B -> Prop) m k : psafe P m -> (forall a, P a -> psafe Q (k a)) -> psafe Q (pbind m k).
Proof.
  intros Hm Hk b Hwf. unfold pbind. destruct (Hm b Hwf) as (o & b1 & -> & Hwf1 & HP). cbn [mbind option_bind].
  destruct o as [a|]; [|by do 2 eexists]. destruct (HP a eq_refl) as [Ha Hl1].
  destruct (Hk a Ha b1 Hwf1) as (o & b2 & -> & Hwf2 & HQ). do 2 eexists. split_and!; [done|done|]. intros c Hc.
  destruct (HQ c Hc). split; [done|lia].
Qed.

Lemma psafe_ret {A} (Q : A -> Prop) a : Q a -> psafe Q (pret a).
Proof. intros HQ b Hwf. do 2 eexists. split_and!; [done|done|]. intros ? [= <-]. split; [done|lia]. Qed.

Lemma psafe_fail {A} (Q : A -> Prop) : psafe Q pfail.
Proof. intros b Hwf. by do 2 eexists. Qed.

Lemma psafe_if {A} (Q : A -> Prop) flags flag m zero : psafe Q m -> Q zero -> psafe Q (field_if flags flag m zero).
Proof. intros Hm Hz. unfold field_if. destruct (negb _); [done|by apply psafe_ret]. Qed.

Lemma psafe_weaken {A} (P Q : A -> Prop) m : psafe P m -> (forall a, P a -> Q a) -> psafe Q m.
Proof. intros Hm HPQ b Hwf. destruct (Hm b Hwf) as (o & b1 & ? & ? & HP). do 2 eexists. split_and!; [done..|]. intros a Ha. destruct (HP a Ha). split; [auto|done]. Qed.

Definition unpacked (fmt : string) (os : list slot) : Prop :=
  exists fs, fields_format fs = cstr fmt /\ Forall field_ok fs /\ Forall2 slot_holds fs os.

(** A call that succeeds takes the encoding of what it returns. *)
Lemma unpack_with_spec (fmt : string) args b : args = map (fun _ => UPtr) (cstr fmt) ->
  forallb (fun c => exact_letter (letter_of c)) (cstr fmt) = true -> zlen (cstr fmt) <= 256 -> buffer_wf b ->
  exists o b', unpack_with fmt args b = Some (o, b') /\ buffer_wf b'
    /\ (forall os, o = Some os -> exists fs, fields_format fs = cstr fmt /\ Forall field_ok fs /\ Forall2 slot_holds fs os
          /\ contents b = fields_encode fs ++ contents b').
Proof.
  intros Ha Hl Hn Hwf. unfold unpack_with. destruct (sftp_unpack_any b fmt args Hwf Ha Hl Hn) as (rc & os & fr & b' & -> & Hwf' & Hres).
  cbn [mbind option_bind]. destruct Hres as [(-> & Hfs)|[-> _]]; do 2 eexists; (split_and!; [done|done|]); [|done]. by intros os' [= <-].
Qed.

Lemma psafe_unpack (fmt : string) args : args = map (fun _ => UPtr) (cstr fmt) ->
  forallb (fun c => exact_letter (letter_of c)) (cstr fmt) = true -> zlen (cstr fmt) <= 256 -> psafe (unpacked fmt) (unpack_with fmt args).
Proof.
  intros Ha Hl Hn b Hwf. destruct (unpack_with_spec fmt args b Ha Hl Hn Hwf) as (o & b' & -> & Hwf' & Hfs).
  do 2 eexists. split_and!; [done|done|]. intros os Hos. destruct (Hfs os Hos) as (fs & ? & ? & ? & ->). split; [by exists fs|zlen_lia].
Qed.

(** A text that ends within its block. *)
Definition text_ok (o : option bytes) : Prop := forall t, o = Some t -> strlen t <> None.

Lemma psafe_d : psafe (fun _ => True) p_d.
Proof. eapply psafe_bind; [by apply psafe_unpack|]. intros os _. by apply psafe_ret. Qed.
Lemma psafe_q : psafe (fun _ => True) p_q.
Proof. eapply psafe_bind; [by apply psafe_unpack|]. intros os _. by apply psafe_ret. Qed.
Lemma psafe_dd : psafe (fun _ => True) p_dd.
Proof. eapply psafe_bind; [by apply psafe_unpack|]. intros os _. by apply psafe_ret. Qed.

Lemma holds_text f o t : slot_holds f o -> o = SlotCstr (Some t) -> strlen t <> None.
Proof. intros Hf ->. destruct f; try done. cbn in Hf. injection Hf as ->. apply strlen_app_nul. Qed.

Lemma block_text fs os i : Forall2 slot_holds fs os -> text_ok (block_slot os i).
Proof.
  intros Hos t. unfold block_slot. destruct (os !! i) as [o|] eqn:Ho; [|done].
  destruct (Forall2_lookup_r _ _ _ _ _ Hos Ho) as (f & _ & Hf). destruct o; try done. intros ->. by eapply holds_text.
Qed.

Lemma psafe_ss : psafe (fun p => text_ok p.1 /\ text_ok p.2) p_ss.
Proof.
  eapply psafe_bind; [by apply psafe_unpack|]. intros os (fs & _ & _ & Hos). apply psafe_ret. cbn [fst snd].
  split; by eapply block_text.
Qed.

(** *** The loops end with the bytes *)

Lemma skip_extended_safe : forall n count b, buffer_wf b -> zlen (contents b) < Z.of_nat n ->
  exists o b', skip_extended n count b = Some (o, b') /\ buffer_wf b' /\ (forall a, o = Some a -> zlen (contents b') <= zlen (contents b)).
Proof.
  induction n as [|n IH]; intros count b Hwf Hn; [zlen_lia|]. cbn [skip_extended]. destruct (0 <? count).
  2: { do 2 eexists. split_and!; [done|done|]. intros; lia. }
  unfold pbind. destruct (unpack_with_spec "SS" [UPtr; UPtr] b) as (o & b1 & -> & Hwf1 & Hfs); [done..|]. cbn [mbind option_bind].
  destruct o as [os|]; [|by do 2 eexists]. destruct (Hfs os eq_refl) as (fs & Hf & _ & _ & Hc).
  assert (Hlen : 8 <= zlen (fields_encode fs)).
  { destruct fs as [|[] [|[] [|? ?]]]; try done. unfold fields_encode. cbn [map concat encode]. rewrite app_nil_r, zlen_app, !zlen_lv. zlen_lia. }
  rewrite Hc, zlen_app in Hn. destruct (IH (count - 1) b1 Hwf1 ltac:(lia)) as (o & b2 & -> & Hwf2 & Hl).
  do 2 eexists. split_and!; [done|done|]. intros a Ha. specialize (Hl a Ha). rewrite Hc. zlen_lia.
Qed.

Lemma loop_bound_enough b : buffer_wf b -> zlen (contents b) < Z.of_nat (loop_bound b).
Proof. intros Hwf. unfold loop_bound. rewrite ssh_buffer_get_len_contents by done. zlen_lia. Qed.

Definition extended_ok (e : Z * option ext_text * option ext_text) : Prop := True.

Lemma psafe_extended3 : psafe extended_ok p_extended3.
Proof.
  eapply psafe_bind; [exact psafe_d|]. intros count _. destruct (0 <? count); [|by apply psafe_ret].
  eapply psafe_bind; [exact psafe_ss|]. intros td _. eapply (psafe_bind (fun _ => True)); [|intros; by apply psafe_ret].
  intros b Hwf. destruct (skip_extended_safe (loop_bound b) (count - 1) b Hwf (loop_bound_enough b Hwf)) as (o & b' & ? & ? & Hle).
  do 2 eexists. split_and!; [done..|]. intros a Ha. split; [done|by apply (Hle a)].
Qed.

Lemma psafe_str : psafe string_wf get_str.
Proof.
  intros b Hwf. unfold get_str. destruct (get_ssh_string_spec b Hwf) as (o & b' & -> & Hwf' & _ & Hr & Hs).
  do 2 eexists. split_and!; [done|done|]. intros x ->. split; [by apply Hs|]. inversion Hr; zlen_lia.
Qed.

Lemma last_extended_safe : forall n count last_ b, buffer_wf b -> zlen (contents b) < Z.of_nat n ->
  exists o b', last_extended n count last_ b = Some (o, b') /\ buffer_wf b' /\ (forall a, o = Some a -> zlen (contents b') <= zlen (contents b)).
Proof.
  induction n as [|n IH]; intros count last_ b Hwf Hn; [zlen_lia|]. cbn [last_extended]. destruct (count =? 0).
  { do 2 eexists. split_and!; [done|done|]. intros; lia. }
  unfold pbind, get_str. destruct (get_ssh_string_spec b Hwf) as (o & b1 & -> & Hwf1 & _ & Hr1 & _). cbn [mbind option_bind].
  destruct o as [t|]; [|by do 2 eexists].
  assert (Hl1 : zlen (contents b1) + 4 <= zlen (contents b)) by (inversion Hr1; zlen_lia).
  destruct (get_ssh_string_spec b1 Hwf1) as (o & b2 & -> & Hwf2 & _ & Hr2 & _). cbn [mbind option_bind].
  destruct o as [d|]; [|by do 2 eexists].
  assert (Hl2 : zlen (contents b2) + 4 <= zlen (contents b1)) by (inversion Hr2; zlen_lia).
  destruct (IH (count - 1) (Some (ExtString t), Some (ExtString d)) b2 Hwf2 ltac:(lia)) as (o & b3 & -> & Hwf3 & Hl).
  do 2 eexists. split_and!; [done|done|]. intros a Ha. specialize (Hl a Ha). lia.
Qed.

Lemma psafe_get_u w conv : (w <= 8)%nat -> psafe (fun _ => True) (get_u w conv).
Proof.
  intros Hw b Hwf. unfold get_u. destruct (get_int_spec w b Hwf Hw) as (b' & -> & Hwf' & _ & Hc).
  destruct (_ <=? _); cbn [mbind option_bind].
  - rewrite Z.eqb_refl. do 2 eexists. split_and!; [done|done|]. intros a _. split; [done|]. rewrite Hc. zlen_lia.
  - destruct (0 =? Z.of_nat w) eqn:E.
    + do 2 eexists. by split_and!.
    + do 2 eexists. by split_and!.
Qed.

Lemma psafe_plift {A} (Q : A -> Prop) r : (exists a, r = Some a /\ Q a) -> psafe Q (plift r).
Proof. intros (a & -> & Ha) b Hwf. do 2 eexists. split_and!; [done|done|]. intros ? [= <-]. split; [done|lia]. Qed.

Lemma to_char_total x : string_wf x -> exists o, ssh_string_to_char (Some x) = Some o /\ text_ok o.
Proof.
  intros Hx. pose proof (string_wf_len x Hx) as (Hr & _ & Hd). destruct (ssh_string_to_char (Some x)) as [[p|]|] eqn:E.
  - exists (Some p). split; [done|]. rewrite (ssh_string_to_char_text x p Hx E). intros t [= <-]. apply strlen_app_nul.
  - by exists None.
  - exfalso. revert E. unfold ssh_string_to_char. set (n := ssh_string_len (Some x)) in *. unfold STRING_SIZE_MAX in Hr. unwrap.
    destruct (n + 1 <? n) eqn:?; [lia|]. destruct (malloc (n + 1)) as [new|] eqn:Hm; [|done].
    apply malloc_zlen in Hm; [|lia]. rewrite memcpy_ok by zlen_lia. cbn [mbind option_bind]. by rewrite memcpy_ok by zlen_lia.
Qed.

Lemma psafe_text : psafe text_ok get_text.
Proof.
  eapply psafe_bind; [exact psafe_str|]. intros x Hx. eapply psafe_bind; [apply psafe_plift, (to_char_total x Hx)|].
  intros t Ht. destruct (some t); [by apply psafe_ret|apply psafe_fail].
Qed.

(** The texts of attributes can be used. *)
Record attr_wf (a : sftp_attributes) : Prop := {
  aw_name : text_ok (a_name a);
  aw_longname : text_ok (a_longname a);
  aw_owner : text_ok (a_owner a);
  aw_group : text_ok (a_group a);
  aw_acl : forall x, a_acl a = Some x -> string_wf x
}.

Lemma psafe_attr_3 openssh expectname : expectname = false \/ openssh = 0 -> psafe attr_wf (p_attr_3 openssh expectname).
Proof.
  intros Hexp. assert (Hnone : text_ok None) by done.
  apply (psafe_bind (fun n => text_ok n.1.1 /\ text_ok n.1.2 /\ text_ok n.2.1 /\ text_ok n.2.2)).
  - destruct expectname; [|by apply psafe_ret]. destruct Hexp as [?| ->]; [done|].
    eapply psafe_bind; [exact psafe_ss|]. intros nl [H1' H2']. eapply (psafe_bind (fun og => og = (None, None))).
    { unfold p_owner. by apply psafe_ret. }
    intros og ->. by apply psafe_ret.
  - intros names (? & ? & ? & ?). eapply psafe_bind; [exact psafe_d|]. intros flags _.
    eapply psafe_bind; [by apply psafe_if; [exact psafe_q|]|]. intros size _.
    eapply psafe_bind; [by apply psafe_if; [exact psafe_dd|]|]. intros ids _.
    eapply (psafe_bind (fun _ => True)).
    { apply psafe_if; [|done]. eapply psafe_bind; [exact psafe_d|]. intros p _. by apply psafe_ret. }
    intros pt _. eapply psafe_bind; [by apply psafe_if; [exact psafe_dd|]|]. intros times _.
    eapply psafe_bind; [by apply psafe_if; [exact psafe_extended3|]|]. intros e _. by apply psafe_ret.
Qed.

Lemma psafe_time flags flag : psafe (fun _ => True) (get_time flags flag).
Proof.
  apply psafe_if; [|done]. eapply psafe_bind; [apply psafe_get_u; lia|]. intros t _.
  eapply psafe_bind; [by apply psafe_if; [apply psafe_get_u; lia|]|]. intros ns _. by apply psafe_ret.
Qed.

Lemma psafe_attr_4 : psafe attr_wf p_attr_4.
Proof.
  assert (Hnone : text_ok None) by done.
  eapply psafe_bind; [apply psafe_get_u; lia|]. intros flags _.
  eapply psafe_bind; [by apply psafe_if; [apply psafe_get_u; lia|]|]. intros size _.
  apply (psafe_bind (fun og => text_ok og.1 /\ text_ok og.2)).
  { apply psafe_if; [|done]. eapply psafe_bind; [exact psafe_text|]. intros o Ho. eapply psafe_bind; [exact psafe_text|].
    intros g Hg. by apply psafe_ret. }
  intros og [? ?]. eapply (psafe_bind (fun _ => True)).
  { apply psafe_if; [|done]. eapply psafe_bind; [apply psafe_get_u; lia|]. intros p _. by apply psafe_ret. }
  intros pt _. eapply psafe_bind; [apply psafe_time|]. intros t1 _. eapply psafe_bind; [apply psafe_time|]. intros t2 _.
  eapply psafe_bind; [apply psafe_time|]. intros t3 _.
  apply (psafe_bind (fun acl => forall x, acl = Some x -> string_wf x)).
  { apply psafe_if; [|done]. eapply psafe_bind; [exact psafe_str|]. intros x Hx. apply psafe_ret. by intros ? [= <-]. }
  intros acl Hacl. eapply (psafe_bind extended_ok); [|intros e _; by apply psafe_ret].
  apply psafe_if; [|done]. eapply psafe_bind; [apply psafe_get_u; lia|]. intros count _ b Hwf.
  destruct (last_extended_safe (loop_bound b) count (None, None) b Hwf (loop_bound_enough b Hwf)) as (o & b' & ? & ? & Hle).
  do 2 eexists. split_and!; [done..|]. intros a Ha. split; [done|by apply (Hle a)].
Qed.

Lemma parse_attr_safe s buf (expectname : bool) : buffer_wf buf ->
  expectname = false \/ chan_openssh (channel s) = 0 ->
  exists o buf' s', sftp_parse_attr buf expectname s = Some (o, buf', s') /\ buffer_wf buf'
    /\ (s' = s \/ s' = sftp_set_error SSH_FX_FAILURE s) /\ forall a, o = Some a -> attr_wf a.
Proof.
  intros Hwf Hexp. unfold sftp_parse_attr. destruct (version s =? 4).
  { unfold sftp_parse_attr_4. destruct (negb (alloc _)).
    - do 3 eexists. split_and!; [done|done|by right|done].
    - destruct (psafe_attr_4 buf Hwf) as (o & b' & -> & Hwf' & Ho). cbn [mbind option_bind]. do 3 eexists.
      split_and!; [done|done|by left|]. intros a Ha. by apply Ho. }
  destruct (_ || _); [|do 3 eexists; split_and!; [done|done|by left|done]].
  unfold sftp_parse_attr_3. destruct (negb (alloc _)); [do 3 eexists; split_and!; [done|done|by right|done]|].
  destruct (psafe_attr_3 (chan_openssh (channel s)) expectname ltac:(by destruct Hexp as [->| ->]; [left|right]) buf Hwf)
    as (o & b' & -> & Hwf' & Ho). cbn [mbind option_bind]. do 3 eexists.
  split_and!; [done|done|by destruct (some o); [left|right]|]. intros a Ha. by apply Ho.
Qed.

(** ** The long names of a listing *)

Definition spaces (t : bytes) : Z := zlen (List.filter isspace t).

Lemma spaces_cons c t : spaces (c :: t) = (if isspace c then 1 else 0) + spaces t.
Proof. unfold spaces. cbn [List.filter]. destruct (isspace c); [by rewrite zlen_cons|done]. Qed.

Lemma spaces_nonneg t : 0 <= spaces t.
Proof. apply zlen_nonneg. Qed.

Lemma skip_fields_spaces : forall p n gap q, skip_fields n gap p = Some q -> Z.of_nat n + spaces q <= spaces p.
Proof.
  induction p as [|c p IH]; intros n gap q; cbn [skip_fields].
  - destruct gap; [done|]. destruct n; [|done]. intros [= <-]. lia.
  - rewrite spaces_cons. pose proof (spaces_nonneg p). destruct (gap && negb (Byte.eqb c Byte.x00) && isspace c) eqn:Eg.
    + intros Hq%IH. apply andb_true_iff in Eg as [_ ->]. lia.
    + destruct n as [|n]; [intros [= <-]; rewrite spaces_cons; lia|]. destruct (isspace c); intros Hq%IH; lia.
Qed.

Lemma field_end_spaces q n : field_end q = Some n -> 0 < spaces q.
Proof.
  revert n. induction q as [|c q IH]; intros n; cbn [field_end]; [done|]. rewrite spaces_cons. pose proof (spaces_nonneg q).
  destruct (isspace c); [lia|]. destruct (field_end q) as [m|]; [|done]. intros _. specialize (IH m eq_refl). lia.
Qed.

Lemma field_end_range q n : field_end q = Some n -> 0 <= n <= zlen q.
Proof.
  revert n. induction q as [|c q IH]; intros n; cbn [field_end]; [done|]. rewrite zlen_cons. pose proof (zlen_nonneg q).
  destruct (isspace c); [intros [= <-]; lia|]. destruct (field_end q) as [m|]; [|done]. cbn [mbind option_bind]. intros [= <-].
  specialize (IH m eq_refl). lia.
Qed.

Lemma skip_fields_length : forall p n g q, skip_fields n g p = Some q -> zlen q <= zlen p.
Proof.
  induction p as [|c p IH]; intros n g q; cbn [skip_fields].
  - destruct g; [done|]. destruct n; [|done]. by intros [= <-].
  - rewrite zlen_cons. destruct (g && _ && _); [intros Hq%IH; lia|].
    destruct n; [intros [= <-]; rewrite zlen_cons; lia|]. destruct (isspace c); intros Hq%IH; lia.
Qed.

(** Without a space after it, looking for a field leaves the string. *)
Lemma longname_overread t k : spaces t <= Z.of_nat k -> sftp_parse_longname (t ++ [Byte.x00]) k = None.
Proof.
  intros Hs. unfold sftp_parse_longname. destruct (skip_fields k false (t ++ [Byte.x00])) as [q|] eqn:Eq; [|done]. cbn [mbind option_bind].
  destruct (field_end q) as [n|] eqn:En; [|done]. exfalso. apply skip_fields_spaces in Eq. apply field_end_spaces in En.
  assert (Happ : spaces (t ++ [Byte.x00]) = spaces t) by (unfold spaces; rewrite List.filter_app; cbn; by rewrite app_nil_r). lia.
Qed.

Definition word (w : bytes) : Prop := w <> [] /\ Forall (fun c => isspace c = false /\ c <> Byte.x00) w.
Definition gap (g : bytes) : Prop := g <> [] /\ Forall (fun c => isspace c = true) g.

Lemma space_not_nul c : isspace c = true -> Byte.eqb c Byte.x00 = false.
Proof. intros Hc. apply byte_eqb_neq. by intros ->. Qed.

Lemma skip_gap g n p : Forall (fun c => isspace c = true) g -> skip_fields n true (g ++ p) = skip_fields n true p.
Proof.
  intros Hg. induction Hg as [|c g Hc Hg IH]; [done|]. cbn [app skip_fields]. by rewrite (space_not_nul c Hc), Hc.
Qed.

Lemma skip_word w n p : Forall (fun c => isspace c = false /\ c <> Byte.x00) w -> skip_fields (S n) false (w ++ p) = skip_fields (S n) false p.
Proof. intros Hw. induction Hw as [|c w [Hc _] Hw IH]; [done|]. cbn [app skip_fields andb]. by rewrite Hc. Qed.

Lemma gap_ends n c p : isspace c = false -> skip_fields n true (c :: p) = skip_fields n false (c :: p).
Proof. intros Hc. cbn [skip_fields]. by rewrite Hc, andb_false_r. Qed.

Definition line (ws : list (bytes * bytes)) : bytes := concat (map (fun '(w, g) => w ++ g) ws).

Lemma skip_line ws c p : Forall (fun x => word x.1 /\ gap x.2) ws -> isspace c = false ->
  skip_fields (length ws) false (line ws ++ c :: p) = Some (c :: p).
Proof.
  intros Hws Hc. induction Hws as [|[w g] ws [[Hwn Hw] [Hgn Hg]] Hws IH]; [done|]. cbn [fst snd] in *.
  unfold line. cbn [map concat length]. fold (line ws). rewrite <- !app_assoc, skip_word by done.
  destruct g as [|x g]; [done|]. inversion Hg as [|? ? Hx Hg']; subst. cbn [app]. cbn [skip_fields andb]. rewrite Hx, skip_gap by done.
  destruct Hws as [|[w' g'] ws' [[Hwn' Hw'] _] _]; cbn [app line map concat] in *; [by rewrite gap_ends|].
  destruct w' as [|y w']; [done|]. inversion Hw' as [|? ? [Hy _] _]; subst. cbn [app] in *. rewrite gap_ends by done. exact IH.
Qed.

Lemma field_end_word w g p : Forall (fun c => isspace c = false /\ c <> Byte.x00) w -> gap g -> field_end (w ++ g ++ p) = Some (zlen w).
Proof.
  intros Hw [Hgn Hg]. induction Hw as [|c w [Hc _] Hw IH]; cbn [app field_end].
  - destruct g as [|x g]; [done|]. inversion Hg as [|? ? Hx _]; subst. cbn [app field_end]. by rewrite Hx.
  - rewrite Hc, IH. cbn [mbind option_bind]. by rewrite zlen_cons.
Qed.

Lemma strlen_word w : Forall (fun c => isspace c = false /\ c <> Byte.x00) w -> strlen w = None.
Proof. intros Hw. induction Hw as [|c w [_ Hc] Hw IH]; [done|]. cbn [strlen]. by rewrite (proj2 (byte_eqb_neq c _) Hc), IH. Qed.

Lemma longname_field ws w g p : malloc_succeeds -> Forall (fun x => word x.1 /\ gap x.2) ws -> word w -> gap g -> zlen w < BUFFER_SIZE_MAX ->
  sftp_parse_longname (line ws ++ w ++ g ++ p) (length ws) = Some (Some (w ++ [Byte.x00])).
Proof.
  intros Hm Hws [Hwn Hw] Hg Hlen. unfold sftp_parse_longname. pose proof Hw as Hw'.
  assert (Hskip : skip_fields (length ws) false (line ws ++ w ++ g ++ p) = Some (w ++ g ++ p)).
  { destruct w as [|c w]; [done|]. inversion Hw as [|? ? [Hc _] _]; subst. cbn [app]. by apply skip_line. }
  rewrite Hskip. cbn [mbind option_bind]. rewrite field_end_word by done. cbn [mbind option_bind]. unfold strndup.
  rewrite ztake_app_le, ztake_all by lia. rewrite strlen_word by done. unfold alloc.
  destruct (malloc (zlen w + 1)) eqn:E; [|apply Hm in E; [done|zlen_lia]].
  cbn [some]. by rewrite ztake_app_le, ztake_all by lia.
Qed.

(** Reading attributes is safe on any bytes, in any version of the protocol: the parser returns
    attributes whose texts end, or [NULL], and its loops over up to 2^32 extended pairs end with the
    bytes; it may set the error of the session.  This holds for every use except the names
    that an OpenSSH server sends ([listing_overread]). *)
Theorem attributes_read_safely s buf (expectname : bool) : buffer_wf buf ->
  expectname = false \/ chan_openssh (channel s) = 0 ->
  exists o buf' s', sftp_parse_attr buf expectname s = Some (o, buf', s') /\ buffer_wf buf'
    /\ (s' = s \/ s' = sftp_set_error SSH_FX_FAILURE s) /\ forall a, o = Some a -> attr_wf a.
Proof. intros Hwf Hexp. by apply parse_attr_safe. Qed.

(** The code leaves the text that an OpenSSH server sends with a name: if the long name has fewer
    than four blanks, parsing the entry reads past the end of its block.  The loops that look for
    the owner and the group do not stop at the terminator. *)
Theorem listing_overread s buf name longname rest :
  memory_ok -> 0 <= version s <= 3 -> chan_openssh (channel s) <> 0 -> buffer_wf buf ->
  contents buf = lv name ++ lv longname ++ rest -> spaces longname <= 3 ->
  sftp_parse_attr buf true s = None.
Proof.
  intros Hm Hv Ho Hwf Hc Hs. unfold sftp_parse_attr. rewrite (proj2 (Z.eqb_neq _ 4)) by lia.
  assert (Hold : (version s =? 3) || (version s =? 2) || (version s =? 1) || (version s =? 0) = true).
  { assert (version s = 0 \/ version s = 1 \/ version s = 2 \/ version s = 3) as [-> | [-> | [-> | ->]]] by lia; done. }
  rewrite Hold. unfold sftp_parse_attr_3, alloc. destruct (malloc sizeof_sftp_attributes) eqn:Hal.
  2: { by destruct Hm as [Hmm _]; apply Hmm in Hal. }
  cbn [some negb]. pose proof (contents_max buf Hwf) as Hmax. rewrite Hc in Hmax. unfold BUFFER_SIZE_MAX in Hmax.
  destruct (front_unpack "ss" [UPtr; UPtr] [FCstring name; FCstring longname] buf rest Hm Hwf) as (os & b' & He & Hos & _);
    [by rewrite Hc; unfold fields_encode; cbn [map concat encode]; rewrite app_nil_r, <- app_assoc|done|done| |done|by repeat constructor|done|].
  { rewrite !zlen_app, !zlen_lv in Hmax. repeat constructor; cbn [field_ok]; zlen_lia. }
  unfold p_attr_3, p_ss, p_owner, pbind. rewrite He. inversion Hos as [|? o1 ? os1 _ Hos1]; subst.
  inversion Hos1 as [|? o2 ? os2 Hv2 _]; subst. unfold pbind. cbn [mbind option_bind pret fst snd].
  destruct o2 as [|?|v2| |]; try done. cbn in Hv2. subst v2. unfold block_slot. cbn [lookup list_lookup].
  unfold p_owner. rewrite (proj2 (Z.eqb_neq _ _) Ho). unfold pbind, plift, block_slot. cbn [mbind option_bind lookup list_lookup].
  destruct (sftp_parse_longname (longname ++ [Byte.x00]) SFTP_LONGNAME_OWNER) as [[ow|]|] eqn:Eo; [|exfalso|done].
  - cbn [mbind option_bind]. by rewrite (longname_overread longname SFTP_LONGNAME_GROUP) by (unfold SFTP_LONGNAME_GROUP; lia).
  - revert Eo. unfold sftp_parse_longname, strndup, alloc. destruct (skip_fields _ _ _) as [q|] eqn:Eq; [|done]. cbn [mbind option_bind].
    destruct (field_end q) as [n|] eqn:En; [|done]. cbn [mbind option_bind].
    set (k := match strlen (ztake n q) with Some n => n | None => n end).
    assert (Hk : 0 <= k <= 268435460).
    { pose proof (field_end_range q n En) as Hn. pose proof (skip_fields_length _ _ _ _ Eq) as Hq.
      rewrite !zlen_app, !zlen_lv in Hmax. assert (zlen q <= 268435456) by zlen_lia.
      unfold k. destruct (strlen (ztake n q)) as [j|] eqn:Ej; [|lia]. apply strlen_range in Ej. zlen_lia. }
    destruct (malloc (k + 1)) eqn:E; [done|]. apply (proj1 Hm) in E; [done|]. unfold BUFFER_SIZE_MAX. lia.
Qed.
End Attributes.

(** ** Witnesses *)

Definition demo_attr : sftp_attributes :=
  mk_attr None None 0x8000000d 0 (2 ^ 40) 7 8 None None 0x81a4 0 1000 5 0 0 0 2000 6 None 0 None None.

Lemma calloc_memory_ok : @memory_ok calloc_allocator N_bignum.
Proof. split; [by intros k Hk|done]. Defined.

(** A buffer that holds the bytes. *)
Definition bytes_buffer (d : bytes) : ssh_buffer := mk_buffer false (zlen d) (zlen d) 0 d [].

Lemma bytes_buffer_spec d : zlen d <= BUFFER_SIZE_MAX -> buffer_wf (bytes_buffer d) /\ contents (bytes_buffer d) = d.
Proof.
  intros Hd. pose proof (zlen_nonneg d). split; [constructor; cbn; (lia || done)|].
  unfold contents, bytes_buffer. cbn [b_used b_pos b_data]. by rewrite zdrop_0, ztake_all by lia.
Qed.

Lemma attributes_roundtrip_witness :
  exists b1, @buffer_add_attributes calloc_allocator N_bignum frame_demo (Some demo_attr) = Some (SSH_OK, b1)
    /\ exists w, contents b1 = contents frame_demo ++ w
    /\ exists buf', @sftp_parse_attr calloc_allocator N_bignum _ _ (bytes_buffer (w ++ cstr "tail")) false (pipe_session 3 0 [] None None)
         = Some (Some (received_attr demo_attr), buf', pipe_session 3 0 [] None None) /\ contents buf' = cstr "tail".
Proof.
  destruct (@attributes_roundtrip calloc_allocator N_bignum pipe _ (pipe_session 3 0 [] None None) frame_demo demo_attr (cstr "tail"))
    as (b1 & He & w & Hc & Hlen & Hread);
    [exact calloc_memory_ok|split; discriminate|unfold attr_ok, dword_ok, qword_ok; cbn; lia|wf_intro; reflexivity|reflexivity|].
  exists b1. split; [exact He|]. exists w. split; [exact Hc|]. apply Hread; apply bytes_buffer_spec.
  all: rewrite zlen_app; change (zlen (cstr "tail")) with 4; unfold BUFFER_SIZE_MAX; lia.
Defined.

Lemma attributes_read_safely_witness :
  exists o buf' s', @sftp_parse_attr calloc_allocator N_bignum _ _ (bytes_buffer (be_bytes 4 0x80000000 ++ be_bytes 4 (2 ^ 32 - 1) ++ lv (cstr "x"))) true
      (pipe_session 3 0 [] None None) = Some (o, buf', s') /\ buffer_wf buf'
    /\ (s' = pipe_session 3 0 [] None None \/ s' = sftp_set_error SSH_FX_FAILURE (pipe_session 3 0 [] None None)) /\ forall a, o = Some a -> attr_wf a.
Proof.
  apply (@attributes_read_safely calloc_allocator N_bignum pipe _ (pipe_session 3 0 [] None None)); [apply bytes_buffer_spec; discriminate|right; reflexivity].
Defined.

(** Witness: the long name is that of a server that is not [ls -l]. *)
Lemma listing_overread_witness :
  @sftp_parse_attr calloc_allocator N_bignum _ _ (bytes_buffer (lv (cstr "a.txt") ++ lv (cstr "-rw-r--r-- 1 root root") ++ be_bytes 4 0)) true
    (pipe_session 3 80000 [] None None) = None.
Proof.
  apply (@listing_overread calloc_allocator N_bignum pipe _ (pipe_session 3 80000 [] None None) _ (cstr "a.txt") (cstr "-rw-r--r-- 1 root root") (be_bytes 4 0));
    [exact calloc_memory_ok|split; discriminate|discriminate|apply bytes_buffer_spec; discriminate|reflexivity|vm_compute; discriminate].
Defined.

(** The line of a listing gives its owner and its group. *)
Example owner_of_line :
  @sftp_parse_longname calloc_allocator (cstr "-rw-r--r--  1 root  wheel   512 Jan 1 a" ++ [Byte.x00]) SFTP_LONGNAME_OWNER = Some (Some (cstr "root" ++ [Byte.x00]))
  /\ @sftp_parse_longname calloc_allocator (cstr "-rw-r--r--  1 root  wheel   512 Jan 1 a" ++ [Byte.x00]) SFTP_LONGNAME_GROUP = Some (Some (cstr "wheel" ++ [Byte.x00])).
Proof. split; reflexivity. Qed.
