(* ===== verification/SftpSafe.v ===== *)
(** * SFTP: a client and any server

    The operations of the client keep the session well formed and access only what they
    own whatever the server sends, with any sizes refused by [malloc]; what they return
    can be used in the next call. *)

From stdpp Require Import gmap.
From S2P Require Import Prelude SshString Buffer Bignum BufferPack Token Session Packet Kex Channel.
From S2P Require Import Sftp SftpClient SftpFrame SftpDispatch SftpAttr.

Section Safe.
Context `{Allocator} `{BignumLib} {Ch : Type} `{ChannelStream Ch}.
#[local] Abbreviation sftp := (sftp_session Ch).
Implicit Type s : sftp.

(** ** The invariant of a session *)

Record sftp_wf s : Prop := {
  sw_ok : ch_ok (channel s);
  sw_packet : has_packet s;
  sw_queue : queue_wf s;
  sw_id : 0 <= id_counter s < 2 ^ 32
}.

(** The session after some calls: still well formed, of the same protocol, with no more to read. *)
Record evolves s s' : Prop := {
  ev_wf : sftp_wf s';
  ev_version : version s' = version s;
  ev_openssh : chan_openssh (channel s') = chan_openssh (channel s);
  ev_handles : handles s' = handles s;
  ev_ext : ext s' = ext s;
  ev_patience : (patience s' <= patience s)%nat
}.

Lemma evolves_refl s : sftp_wf s -> evolves s s.
Proof. by constructor. Qed.
Lemma evolves_trans s1 s2 s3 : evolves s1 s2 -> evolves s2 s3 -> evolves s1 s3.
Proof. intros [] []. constructor; (congruence || lia || done). Qed.

Lemma evolves_error e s : sftp_wf s -> evolves s (sftp_set_error e s).
Proof. intros [? (p & ? & ?) ? ?]. constructor; [|done..]. constructor; (done || by exists p). Qed.

Lemma evolves_new_id s : sftp_wf s -> evolves s (sftp_get_new_id s).2.
Proof.
  intros [? (p & ? & ?) ? ?]. constructor; [|done..]. constructor; [done|by exists p|done|]. cbn. apply u32_range.
Qed.

Lemma evolves_wrote d s s' : sftp_wf s -> wrote d s s' -> evolves s s'.
Proof.
  intros [? (p & ? & ?) Hq ?] [[] Hqe Hp ? Hi ? Hl]. constructor; try done.
  - constructor; [done|by exists p; rewrite Hp|unfold queue_wf; by rewrite Hqe|congruence].
  - unfold patience. by rewrite Hi, Hl.
Qed.

Lemma evolves_received d s s' : sftp_wf s -> received d s s' -> queue_wf s' -> evolves s s'.
Proof.
  intros [] Hr Hq. pose proof (received_patience _ _ _ Hr). destruct Hr as [[] ? ? ? ? ?]. constructor; try done; [|lia].
  constructor; (done || congruence).
Qed.

(** A call that has a result; [Q] is what the caller gets. *)
Definition safe {R} (Q : R -> Prop) s (r : run (R * sftp)) : Prop := exists a s', r = Some (a, s') /\ evolves s s' /\ Q a.

Lemma safe_here {R} (Q : R -> Prop) s s' a : evolves s s' -> Q a -> safe Q s (Some (a, s')).
Proof. intros. by exists a, s'. Qed.

Lemma safe_after {R} (Q : R -> Prop) s s1 r : evolves s s1 -> safe Q s1 r -> safe Q s r.
Proof. intros He (a & s' & -> & He' & Ha). exists a, s'. split_and!; [done|by eapply evolves_trans|done]. Qed.

Lemma step_bind {A B} (P : A -> Prop) (Q : B -> Prop) s r (k : A -> sftp -> run (B * sftp)) :
  safe P s r -> (forall a s', evolves s s' -> P a -> safe Q s' (k a s')) -> safe Q s ('(a, s') ← r; k a s').
Proof. intros (a & s' & -> & He & Ha) Hk. cbn [mbind option_bind]. eapply safe_after; [done|by apply Hk]. Qed.

(** ** The steps *)

Definition some_buffer (r : run (Z * ssh_buffer)) : Prop := exists rc b, r = Some (rc, b) /\ buffer_wf b.

Lemma pack_some b fs (fmt : string) args : buffer_wf b -> cstr fmt = fields_format fs -> args = fields_args fs -> Forall field_ok fs ->
  fs <> [] -> zlen args <= 256 -> some_buffer (ssh_buffer_pack b (cstr fmt) args).
Proof.
  intros Hwf Hf -> Hok Hne Hn. rewrite Hf. destruct (pack_fields_spec b fs Hwf Hok Hne Hn) as (rc & b' & -> & Hwf' & _). by exists rc, b'.
Qed.

Lemma add_attributes_some b a : buffer_wf b -> some_buffer (buffer_add_attributes b a).
Proof. intros Hwf. destruct (add_attributes_spec b a Hwf) as (rc & b' & -> & ? & _). by exists rc, b'. Qed.

Section Steps.
Context {R : Type} (Q : R -> Prop).

Lemma new_request_safe fail s k : sftp_wf s -> Q fail ->
  (forall id b s1, sftp_wf s1 -> evolves s s1 -> buffer_wf b -> safe Q s1 (k id b s1)) -> safe Q s (new_request fail s k).
Proof.
  intros Hs Hf Hk. unfold new_request. destruct ssh_buffer_new_spec as (o & -> & Ho). cbn [mbind option_bind].
  destruct o as [b|]; [|by apply safe_here; [apply evolves_error|]]. destruct (Ho b eq_refl) as (Hwf & _).
  pose proof (evolves_new_id s Hs) as He. cbn [sftp_get_new_id]. eapply safe_after; [exact He|]. apply Hk; [apply He|done|done].
Qed.

Lemma new_request_quiet_safe fail s k : sftp_wf s -> Q fail ->
  (forall id b s1, sftp_wf s1 -> evolves s s1 -> buffer_wf b -> safe Q s1 (k id b s1)) -> safe Q s (new_request_quiet fail s k).
Proof.
  intros Hs Hf Hk. unfold new_request_quiet. destruct ssh_buffer_new_spec as (o & -> & Ho). cbn [mbind option_bind].
  destruct o as [b|]; [|by apply safe_here; [apply evolves_refl|]]. destruct (Ho b eq_refl) as (Hwf & _).
  pose proof (evolves_new_id s Hs) as He. cbn [sftp_get_new_id]. eapply safe_after; [exact He|]. apply Hk; [apply He|done|done].
Qed.

Lemma or_failure_safe r fail s k : sftp_wf s -> Q fail -> some_buffer r -> (forall b, buffer_wf b -> safe Q s (k b)) ->
  safe Q s (or_failure r fail s k).
Proof.
  intros Hs Hf (rc & b & -> & Hwf) Hk. unfold or_failure. cbn [mbind option_bind].
  destruct (negb _); [by apply safe_here; [apply evolves_error|]|by apply Hk].
Qed.

Lemma bad_message_safe fail s : sftp_wf s -> Q fail -> safe Q s (bad_message fail s).
Proof. intros Hs Hf. by apply safe_here; [apply evolves_error|]. Qed.
End Steps.

Lemma write_safe type b s : sftp_wf s -> buffer_wf b ->
  exists n b' s', sftp_packet_write type b s = Some (n, b', s') /\ evolves s s'.
Proof.
  intros Hs Hwf. destruct (packet_write_spec type b s (sw_ok s Hs) Hwf) as (n & b' & s' & -> & Hres & _).
  do 3 eexists. split; [done|]. destruct Hres as [[_ Hw]|(_ & Hw & _)]; by eapply evolves_wrote.
Qed.

Variable fuel : nat.

Definition waited_wf (w : waited) : Prop := forall m, w = Got m -> message_wf m.

Lemma wait_safe nonblocking id s : sftp_wf s -> (patience s < fuel)%nat -> safe waited_wf s (wait_reply fuel fuel nonblocking id s).
Proof.
  intros [Hok Hp Hq Hid] Hf. destruct (wait_reply_safe fuel nonblocking id fuel s Hok Hp Hf Hf Hq) as (w & d & s' & -> & Hr & Hq' & Hw).
  apply safe_here; [|done]. by eapply evolves_received.
Qed.

Lemma exchange_safe {R} (Q : R -> Prop) type id fail b s k : sftp_wf s -> (patience s < fuel)%nat -> buffer_wf b -> Q fail ->
  (forall m s1, sftp_wf s1 -> evolves s s1 -> message_wf m -> safe Q s1 (k m s1)) -> safe Q s (exchange fuel type id fail b s k).
Proof.
  intros Hs Hf Hwf Hfail Hk. unfold exchange. destruct (write_safe type b s Hs Hwf) as (n & b' & s1 & -> & He1). cbn [mbind option_bind].
  eapply safe_after; [exact He1|]. destruct (n <? 0); [by apply safe_here; [apply evolves_refl, He1|]|].
  eapply step_bind; [apply wait_safe; [apply He1|pose proof (ev_patience _ _ He1); lia]|].
  intros w s2 He2 Hw. destruct w as [m| |]; [|by apply safe_here; [apply evolves_refl, He2|]..].
  apply Hk; [apply He2|by eapply evolves_trans|by apply Hw].
Qed.

Lemma message_payload m : message_wf m -> exists b, m_payload m = Some b /\ buffer_wf b.
Proof. intros (type & id & body & [_ _ (b & ? & ? & _)] & _). by exists b. Qed.

Lemma parse_status_safe m s : sftp_wf s -> message_wf m -> safe (fun _ => True) s (parse_status_msg m s).
Proof.
  intros Hs Hm. destruct (message_payload m Hm) as (b & Hb & Hwf). unfold parse_status_msg.
  assert (Herr : forall e, safe (fun _ => True) s (Some (@None sftp_status_message, sftp_set_error e s)))
    by (intros; by apply safe_here; [apply evolves_error|]).
  destruct (negb (m_type m =? _)); [apply Herr|]. destruct (negb (alloc _)); [apply Herr|]. rewrite Hb. cbn [mbind option_bind].
  destruct (sftp_unpack_dword b Hwf) as (rc & os & fr & b1 & -> & Hwf1 & _). cbn [mbind option_bind]. destruct (negb (rc =? SSH_OK)); [apply Herr|].
  destruct (sftp_unpack_any b1 "ss" [UPtr; UPtr] Hwf1) as (rc2 & os2 & fr2 & b2 & -> & _ & _); [done..|]. cbn [mbind option_bind].
  destruct (_ && _); [apply Herr|]. destruct (or_text _ _); [|apply Herr]. destruct (or_text _ _); [|apply Herr].
  by apply safe_here; [apply evolves_refl|].
Qed.

Lemma with_status_safe {R} (Q : R -> Prop) m fail s k : sftp_wf s -> message_wf m -> Q fail ->
  (forall st s1, sftp_wf s1 -> evolves s s1 -> safe Q s1 (k st s1)) -> safe Q s (with_status m fail s k).
Proof.
  intros Hs Hm Hf Hk. unfold with_status. eapply step_bind; [by apply parse_status_safe|]. intros o s1 He _.
  destruct o as [st|]; [|by apply safe_here; [apply evolves_refl, He|]].
  pose proof (evolves_error (status st) s1 (ev_wf _ _ He)) as He2. eapply safe_after; [exact He2|].
  apply Hk; [apply He2|by eapply evolves_trans].
Qed.

Lemma status_only_safe m s : sftp_wf s -> message_wf m -> safe (fun _ => True) s (status_only m s).
Proof.
  intros Hs Hm. unfold status_only. destruct (_ =? _); [|by apply bad_message_safe].
  apply with_status_safe; [done..|]. intros st s1 Hs1 _. by apply safe_here; [apply evolves_refl|].
Qed.

(** ** Files and directories *)

Definition file_wf (f : sftp_file) : Prop := exists x, f_handle f = Some x /\ string_wf x.
Definition dir_wf (d : sftp_dir) : Prop :=
  (exists x, d_handle d = Some x /\ string_wf x) /\ (forall b, d_buffer d = Some b -> buffer_wf b).

Definition option_wf {A} (P : A -> Prop) (o : option A) : Prop := forall a, o = Some a -> P a.

Lemma parse_handle_safe m s : sftp_wf s -> message_wf m -> safe (option_wf file_wf) s (parse_handle_msg m s).
Proof.
  intros Hs Hm. destruct (message_payload m Hm) as (b & Hb & Hwf). unfold parse_handle_msg.
  destruct (negb (_ =? _)); [by apply safe_here; [apply evolves_refl|]|].
  destruct (negb (alloc _)); [by apply safe_here; [apply evolves_error|]|]. rewrite Hb. cbn [mbind option_bind].
  destruct (get_ssh_string_spec b Hwf) as (o & b' & -> & _ & _ & _ & Hx). cbn [mbind option_bind].
  destruct o as [x|]; [|by apply safe_here; [apply evolves_error|]]. apply safe_here; [by apply evolves_refl|].
  intros f [= <-]. exists x. split; [done|by apply Hx].
Qed.

Lemma attr_reply_safe b s : sftp_wf s -> buffer_wf b ->
  safe (option_wf attr_wf) s ('(a, _, s) ← sftp_parse_attr b false s; Some (a, s)).
Proof.
  intros Hs Hwf. destruct (parse_attr_safe s b false Hwf (or_introl eq_refl)) as (o & b' & s' & -> & _ & Hs' & Ho). cbn [mbind option_bind].
  apply safe_here; [|done]. destruct Hs' as [->| ->]; [by apply evolves_refl|by apply evolves_error].
Qed.

(** ** The calls of a client *)

Inductive client_call :=
  | CallStat (path : bytes)
  | CallLstat (path : bytes)
  | CallFstat (f : sftp_file)
  | CallOpendir (path : bytes)
  | CallReaddir (d : sftp_dir)
  | CallClosedir (d : sftp_dir)
  | CallOpen (path : bytes) (flags mode : Z)
  | CallClose (f : sftp_file)
  | CallRead (f : sftp_file) (count : Z)
  | CallAsyncBegin (f : sftp_file) (len : Z)
  | CallAsyncRead (f : sftp_file) (size id : Z)
  | CallWrite (f : sftp_file) (data : bytes)
  | CallUnlink (path : bytes)
  | CallRmdir (path : bytes)
  | CallMkdir (path : bytes) (mode : Z)
  | CallRename (original newname : bytes)
  | CallSetstat (path : bytes) (attr : option sftp_attributes)
  | CallSymlink (target dest : bytes)
  | CallReadlink (path : bytes)
  | CallRealpath (path : bytes)
  | CallStatvfs (path : bytes)
  | CallFstatvfs (f : sftp_file)
  | CallFsync (f : sftp_file).

Inductive client_reply :=
  | RCode (rc : Z)
  | RAttr (a : option sftp_attributes)
  | RDir (d : option sftp_dir)
  | REntry (a : option sftp_attributes) (d : sftp_dir)
  | RFile (f : option sftp_file)
  | RData (rc : Z) (data : bytes) (f : sftp_file)
  | RMoved (rc : Z) (f : sftp_file)
  | RName (t : option bytes)
  | RStatvfs (v : option sftp_statvfs_t).

(** A call on a session that is not null. *)
Definition on_session {A} (r : run (A * option sftp)) : run (A * sftp) := '(a, o) ← r; s ← o; Some (a, s).

Definition run_call (c : client_call) s : run (client_reply * sftp) :=
  match c with
  | CallStat path => '(a, s) ← on_session (sftp_stat fuel (Some s) (Some path)); Some (RAttr a, s)
  | CallLstat path => '(a, s) ← on_session (sftp_lstat fuel (Some s) (Some path)); Some (RAttr a, s)
  | CallFstat f => '(a, s) ← sftp_fstat fuel (Some f) s; Some (RAttr a, s)
  | CallOpendir path => '(d, s) ← on_session (sftp_opendir fuel (Some s) path); Some (RDir d, s)
  | CallReaddir d => '(a, d, s) ← sftp_readdir fuel d s; Some (REntry a d, s)
  | CallClosedir d => '(rc, s) ← sftp_closedir fuel d s; Some (RCode rc, s)
  | CallOpen path flags mode => '(f, s) ← sftp_open fuel path flags mode s; Some (RFile f, s)
  | CallClose f => '(rc, s) ← sftp_close fuel f s; Some (RCode rc, s)
  | CallRead f count => '(r, s) ← sftp_read fuel f count s; Some (RData r.1.1 r.1.2 r.2, s)
  | CallAsyncBegin f len => '(rc, f, s) ← sftp_async_read_begin f len s; Some (RMoved rc f, s)
  | CallAsyncRead f size id => '(rc, d, o, s) ← sftp_async_read fuel (Some f) size id s; f ← o; Some (RData rc d f, s)
  | CallWrite f data => '(rc, f, s) ← sftp_write fuel f (Some data) (zlen data) s; Some (RMoved rc f, s)
  | CallUnlink path => '(rc, s) ← sftp_unlink fuel path s; Some (RCode rc, s)
  | CallRmdir path => '(rc, s) ← sftp_rmdir fuel path s; Some (RCode rc, s)
  | CallMkdir path mode => '(rc, s) ← sftp_mkdir fuel path mode s; Some (RCode rc, s)
  | CallRename original newname => '(rc, s) ← sftp_rename fuel original newname s; Some (RCode rc, s)
  | CallSetstat path attr => '(rc, s) ← sftp_setstat fuel path attr s; Some (RCode rc, s)
  | CallSymlink target dest => '(rc, s) ← on_session (sftp_symlink fuel (Some s) (Some target) (Some dest)); Some (RCode rc, s)
  | CallReadlink path => '(t, s) ← on_session (sftp_readlink fuel (Some s) (Some path)); Some (RName t, s)
  | CallRealpath path => '(t, s) ← on_session (sftp_canonicalize_path fuel (Some s) (Some path)); Some (RName t, s)
  | CallStatvfs path => '(v, s) ← on_session (sftp_statvfs fuel (Some s) (Some path)); Some (RStatvfs v, s)
  | CallFstatvfs f => '(v, s) ← sftp_fstatvfs fuel (Some f) s; Some (RStatvfs v, s)
  | CallFsync f => '(rc, s) ← sftp_fsync fuel (Some f) s; Some (RCode rc, s)
  end.

Definition path_ok (t : bytes) : Prop := zlen t < 2 ^ 32.

(** What the caller must provide: files and directories that a call returned, texts of a sane size;
    and what the code leaves unchecked: the names of OpenSSH listings, and the versions before 3. *)
Definition call_ok (c : client_call) s : Prop :=
  match c with
  | CallStat t | CallLstat t | CallOpendir t | CallOpen t _ _ | CallUnlink t | CallRmdir t | CallMkdir t _
  | CallSetstat t _ | CallRealpath t => path_ok t
  | CallReadlink t | CallStatvfs t => path_ok t /\ 3 <= version s
  | CallRename t u | CallSymlink t u => path_ok t /\ path_ok u
  | CallFstat f | CallClose f | CallRead f _ | CallAsyncBegin f _ | CallAsyncRead f _ _ | CallFstatvfs f | CallFsync f => file_wf f
  | CallWrite f d => file_wf f /\ path_ok d
  | CallReaddir d => dir_wf d /\ chan_openssh (channel s) = 0
  | CallClosedir d => dir_wf d
  end.

Definition reply_wf (r : client_reply) : Prop :=
  match r with
  | RCode _ | RStatvfs _ => True
  | RAttr a => option_wf attr_wf a
  | RDir d => option_wf dir_wf d
  | REntry a d => option_wf attr_wf a /\ dir_wf d
  | RFile f => option_wf file_wf f
  | RData rc d f => file_wf f /\ (0 <= rc -> zlen d = rc)
  | RMoved _ f => file_wf f
  | RName t => text_ok t
  end.

Lemma fuel_left s s' : (patience s < fuel)%nat -> evolves s s' -> (patience s' < fuel)%nat.
Proof. intros Hf He. pose proof (ev_patience _ _ He). lia. Qed.

Lemma safe_map {A B} (P : A -> Prop) (Q : B -> Prop) s r (f : A -> B) :
  safe P s r -> (forall a, P a -> Q (f a)) -> safe Q s ('(a, s') ← r; Some (f a, s')).
Proof. intros Hr Hf. eapply step_bind; [exact Hr|]. intros a s' He Ha. apply safe_here; [apply evolves_refl, He|auto]. Qed.

Lemma safe_session {A} (P : A -> Prop) s (r : run (A * sftp)) : safe P s r ->
  safe P s (on_session ('(a, s) ← r; Some (a, Some s))).
Proof. intros (a & s' & -> & ? & ?). by exists a, s'. Qed.

Lemma safe_true {A} (P : A -> Prop) s r : safe P s r -> safe (fun _ => True) s r.
Proof. intros (a & s' & -> & ? & _). by exists a, s'. Qed.

(** The request of an operation: its first fields are packed, then more, then it is sent. *)
Ltac packs l := eapply (pack_some _ l); [done|reflexivity|reflexivity|by repeat constructor|discriminate|done].

Section Requests.
Context {R : Type} (Q : R -> Prop).

Lemma sftp_request_safe (quiet : bool) fail s (fmt : string) fs args type (k : Z -> sftp_message -> sftp -> run (R * sftp)) more :
  sftp_wf s -> (patience s < fuel)%nat -> Q fail ->
  (forall id, cstr fmt = fields_format (FDword id :: fs)) -> (forall id, args id = fields_args (FDword id :: fs)) ->
  Forall field_ok fs -> zlen (fields_args fs) <= 255 ->
  (forall b, buffer_wf b -> forall s1, sftp_wf s1 -> exists r, more b s1 = r /\ (forall k2, (forall b, buffer_wf b -> safe Q s1 (k2 b)) -> safe Q s1 (r k2))) ->
  (forall id m s1, sftp_wf s1 -> evolves s s1 -> message_wf m -> safe Q s1 (k id m s1)) ->
  safe Q s ((if quiet then new_request_quiet else new_request) fail s (fun id b s1 =>
    or_failure (ssh_buffer_pack b (cstr fmt) (args id)) fail s1 (fun b =>
    more b s1 (fun b => exchange fuel type id fail b s1 (k id))))).
Proof.
  intros Hs Hf Hfail Hfmt Hargs Hok Hn Hmore Hk.
  assert (Hbody : forall id b s1, sftp_wf s1 -> evolves s s1 -> buffer_wf b -> safe Q s1
    (or_failure (ssh_buffer_pack b (cstr fmt) (args id)) fail s1 (fun b => more b s1 (fun b => exchange fuel type id fail b s1 (k id))))).
  { intros id b s1 Hs1 He1 Hwf. apply or_failure_safe; [done|done| |].
    - eapply (pack_some _ (FDword id :: fs)); [done|apply Hfmt|apply Hargs|by constructor|done|]. rewrite Hargs.
      change (fields_args (FDword id :: fs)) with (VInt id :: fields_args fs). rewrite zlen_cons. lia.
    - intros b1 Hwf1. destruct (Hmore b1 Hwf1 s1 Hs1) as (r & -> & Hr). apply Hr. intros b2 Hwf2.
      apply exchange_safe; [done|by eapply fuel_left|done|done|]. intros m s2 Hs2 He2 Hm. apply Hk; [done|by eapply evolves_trans|done]. }
  destruct quiet; [by apply new_request_quiet_safe|by apply new_request_safe].
Qed.
End Requests.

(** Nothing more is packed. *)
Lemma simple_request_safe {R} (Q : R -> Prop) fail s (fmt : string) fs args type (k : sftp_message -> sftp -> run (R * sftp)) :
  sftp_wf s -> (patience s < fuel)%nat -> Q fail ->
  (forall id, cstr fmt = fields_format (FDword id :: fs)) -> (forall id, args id = fields_args (FDword id :: fs)) ->
  Forall field_ok fs -> zlen (fields_args fs) <= 255 ->
  (forall m s1, sftp_wf s1 -> evolves s s1 -> message_wf m -> safe Q s1 (k m s1)) ->
  safe Q s (new_request fail s (fun id b s1 =>
    or_failure (ssh_buffer_pack b (cstr fmt) (args id)) fail s1 (fun b => exchange fuel type id fail b s1 k))).
Proof.
  intros Hs Hf Hfail Hfmt Hargs Hok Hn Hk.
  apply (sftp_request_safe Q false fail s fmt fs args type (fun _ => k) (fun b s1 k2 => k2 b)); try done.
  intros b Hwf s1 Hs1. eexists. split; [done|]. intros k2 Hk2. by apply Hk2.
Qed.

(** Attributes are added. *)
Lemma attr_request_safe {R} (Q : R -> Prop) (quiet : bool) fail s (fmt : string) fs args attr type (k : sftp_message -> sftp -> run (R * sftp)) :
  sftp_wf s -> (patience s < fuel)%nat -> Q fail ->
  (forall id, cstr fmt = fields_format (FDword id :: fs)) -> (forall id, args id = fields_args (FDword id :: fs)) ->
  Forall field_ok fs -> zlen (fields_args fs) <= 255 ->
  (forall m s1, sftp_wf s1 -> evolves s s1 -> message_wf m -> safe Q s1 (k m s1)) ->
  safe Q s ((if quiet then new_request_quiet else new_request) fail s (fun id b s1 =>
    or_failure (ssh_buffer_pack b (cstr fmt) (args id)) fail s1 (fun b =>
    or_failure (buffer_add_attributes b attr) fail s1 (fun b => exchange fuel type id fail b s1 k)))).
Proof.
  intros Hs Hf Hfail Hfmt Hargs Hok Hn Hk.
  apply (sftp_request_safe Q quiet fail s fmt fs args type (fun _ => k) (fun b s1 k2 => or_failure (buffer_add_attributes b attr) fail s1 k2)); try done.
  intros b Hwf s1 Hs1. eexists. split; [done|]. intros k2 Hk2. apply or_failure_safe; [done|done|by apply add_attributes_some|done].
Qed.

Lemma status_ignored_safe {R} (Q : R -> Prop) m s fail : sftp_wf s -> message_wf m -> Q fail ->
  safe Q s (with_status m fail s (fun _ s => Some (fail, s))).
Proof. intros Hs Hm Hf. apply with_status_safe; [done..|]. intros st s1 Hs1 _. by apply safe_here; [apply evolves_refl|]. Qed.

Lemma attrs_or_status_safe m s : sftp_wf s -> message_wf m ->
  safe (option_wf attr_wf) s
    (if m_type m =? SSH_FXP_ATTRS then payload ← m_payload m; '(a, _, s) ← sftp_parse_attr payload false s; Some (a, s)
     else if m_type m =? SSH_FXP_STATUS then with_status m None s (fun _ s => Some (None, s)) else bad_message None s).
Proof.
  intros Hs Hm. destruct (message_payload m Hm) as (b & Hb & Hwf). destruct (_ =? _).
  - rewrite Hb. cbn [mbind option_bind]. by apply attr_reply_safe.
  - destruct (_ =? _); [by apply status_ignored_safe|by apply bad_message_safe].
Qed.

Lemma xstat_safe path type s : sftp_wf s -> (patience s < fuel)%nat -> path_ok path ->
  safe (option_wf attr_wf) s (on_session (sftp_xstat fuel (Some s) (Some path) type)).
Proof.
  intros Hs Hf Hp. unfold sftp_xstat. apply safe_session.
  apply (simple_request_safe _ None s "ds" [FCstring path] (fun id => [VInt id; VCstr path])); try done; [by repeat constructor|].
  intros m s1 Hs1 _ Hm. by apply attrs_or_status_safe.
Qed.

Lemma fstat_safe f s : sftp_wf s -> (patience s < fuel)%nat -> file_wf f -> safe (option_wf attr_wf) s (sftp_fstat fuel (Some f) s).
Proof.
  intros Hs Hf (x & Hx & Hxw). unfold sftp_fstat. rewrite Hx.
  apply (simple_request_safe _ None s "dS" [FString x] (fun id => [VInt id; VString (Some x)])); try done; [by repeat constructor|].
  intros m s1 Hs1 _ Hm. by apply attrs_or_status_safe.
Qed.

Lemma opendir_safe path s : sftp_wf s -> (patience s < fuel)%nat -> path_ok path ->
  safe (option_wf dir_wf) s (on_session (sftp_opendir fuel (Some s) path)).
Proof.
  intros Hs Hf Hp. unfold sftp_opendir. apply safe_session.
  apply (simple_request_safe _ None s "ds" [FCstring path] (fun id => [VInt id; VCstr path])); try done; [by repeat constructor|].
  intros m s1 Hs1 _ Hm. destruct (_ =? _); [by apply status_ignored_safe|].
  destruct (_ =? _); [|by apply safe_here; [apply evolves_refl|]].
  eapply step_bind; [by apply parse_handle_safe|]. intros o s2 He Ho. destruct o as [f|]; [|by apply safe_here; [apply evolves_refl, He|]].
  destruct (negb _); [by apply safe_here; [apply evolves_refl, He|]|]. apply safe_here; [apply evolves_refl, He|].
  intros d Hd. destruct (strdup path); [|done]. injection Hd as <-. split; [|done]. destruct (Ho f eq_refl) as (x & ? & ?). by exists x.
Qed.

Lemma safe_split {A B} (P : A * B -> Prop) s (r : run (A * B * sftp)) : safe P s r ->
  safe P s ('(a, b, s) ← ('(r, s) ← r; Some (r.1, r.2, s)); Some (a, b, s)).
Proof. intros ([a b] & s' & -> & ? & ?). by exists (a, b), s'. Qed.

Lemma fetch_names_safe d s : sftp_wf s -> (patience s < fuel)%nat -> dir_wf d ->
  safe (fun r : option () * sftp_dir => dir_wf r.2 /\ (is_Some r.1 -> is_Some (d_buffer r.2))) s
    ('(go, d, s) ← fetch_names fuel d s; Some (go, d, s)).
Proof.
  intros Hs Hf Hd. pose proof Hd as [(x & Hx & Hxw) Hbuf]. unfold fetch_names. rewrite Hx.
  assert (Hfail : dir_wf (None : option (), d).2 /\ (is_Some (None : option (), d).1 -> is_Some (d_buffer (None : option (), d).2)))
    by (split; [done|intros [? ?]; done]).
  apply safe_split.
  apply (simple_request_safe _ (None, d) s "dS" [FString x] (fun id => [VInt id; VString (Some x)])); try done; [by repeat constructor|].
    intros m s1 Hs1 _ Hm. destruct (_ =? _).
    - apply with_status_safe; [done..|]. intros st s2 Hs2 _. apply safe_here; [by apply evolves_refl|].
      destruct (_ =? _); [|done]. split; [|intros [? ?]; done]. split; [by exists x|done].
    - destruct (_ =? _); [|by apply bad_message_safe]. destruct (message_payload m Hm) as (b & -> & Hwf). cbn [mbind option_bind].
      unfold ssh_buffer_get_u32. destruct (get_int_spec 4 b Hwf) as (b' & -> & Hwf' & _); [lia|].
      destruct (_ <=? _); cbn [mbind option_bind]; (apply safe_here; [by apply evolves_refl|]); cbn [fst snd];
        (split; [split; [by exists x|by intros b2 [= <-]]|by eexists]).
Qed.

Lemma readdir_safe d s : sftp_wf s -> (patience s < fuel)%nat -> dir_wf d -> chan_openssh (channel s) = 0 ->
  safe (fun r : option sftp_attributes * sftp_dir => option_wf attr_wf r.1 /\ dir_wf r.2) s
    ('(a, d, s) ← sftp_readdir fuel d s; Some (a, d, s)).
Proof.
  intros Hs Hf Hd Ho. unfold sftp_readdir.
  assert (Hgo : exists go d1 s1, match d_buffer d with None => fetch_names fuel d s | Some _ => Some (Some (), d, s) end = Some (go, d1, s1)
    /\ evolves s s1 /\ dir_wf d1 /\ (is_Some go -> is_Some (d_buffer d1))).
  { destruct (d_buffer d) as [b|] eqn:Hb.
    - do 3 eexists. split_and!; [done|by apply evolves_refl|done|by eexists].
    - destruct (fetch_names_safe d s Hs Hf Hd) as ([go d1] & s1 & Heq & He & Hd1 & Hb1).
      destruct (fetch_names fuel d s) as [[[go' d'] s']|]; [|done]. cbn [mbind option_bind] in Heq. injection Heq as -> -> ->.
      do 3 eexists. by split_and!. }
  destruct Hgo as (go & d1 & s1 & -> & He & Hd1 & Hb1). cbn [mbind option_bind].
  destruct go as [[]|]; [|exists (None, d1), s1; split_and!; [done|done|done|done]].
  destruct (d_count d1 =? 0); [exists (None, d1), s1; split_and!; [done|done|done|done]|].
  destruct (Hb1 (mk_is_Some _ _ eq_refl)) as (b & Hb). rewrite Hb. cbn [mbind option_bind]. pose proof Hd1 as [(x & Hx & Hxw) Hbuf].
  destruct (parse_attr_safe s1 b true (Hbuf b Hb)) as (o & b' & s2 & -> & Hwf' & Hs2 & Hattr); [right; by rewrite (ev_openssh _ _ He)|].
  cbn [mbind option_bind]. assert (He2 : evolves s s2).
  { eapply evolves_trans; [done|]. destruct Hs2 as [->| ->]; [by apply evolves_refl, He|by apply evolves_error, He]. }
  destruct o as [a|]; cbn [mbind option_bind].
  - exists (Some a, set_dir_buffer (if u32 (d_count d1 - 1) =? 0 then None else Some b') (u32 (d_count d1 - 1)) d1), s2.
    split_and!; [done|done|done|split; [by exists x|]]. intros b2 Hb2. cbn in Hb2. destruct (_ =? _); [done|]. by injection Hb2 as <-.
  - exists (None, set_dir_buffer (Some b') (d_count d1) d1), s2. split_and!; [done|done|done|split; [by exists x|by intros b2 [= <-]]].
Qed.

Lemma handle_close_safe x s : sftp_wf s -> (patience s < fuel)%nat -> string_wf x ->
  safe (fun _ => True) s (sftp_handle_close fuel (Some x) s).
Proof.
  intros Hs Hf Hx. apply (simple_request_safe _ (-1) s "dS" [FString x] (fun id => [VInt id; VString (Some x)])); try done; [by repeat constructor|].
  intros m s1 Hs1 _ Hm. by apply status_only_safe.
Qed.

Lemma sftp_close_safe f s : sftp_wf s -> (patience s < fuel)%nat -> file_wf f -> safe (fun _ => True) s (sftp_close fuel f s).
Proof. intros Hs Hf (x & Hx & Hxw). unfold sftp_close. rewrite Hx. by apply handle_close_safe. Qed.

Lemma closedir_safe d s : sftp_wf s -> (patience s < fuel)%nat -> dir_wf d -> safe (fun _ => True) s (sftp_closedir fuel d s).
Proof. intros Hs Hf [(x & Hx & Hxw) _]. unfold sftp_closedir. rewrite Hx. by apply handle_close_safe. Qed.

Lemma seek_end_safe path f s : sftp_wf s -> (patience s < fuel)%nat -> path_ok path -> file_wf f ->
  safe (option_wf file_wf) s (seek_end fuel path f s).
Proof.
  intros Hs Hf Hp Hfile. unfold seek_end. eapply step_bind; [by apply xstat_safe|]. intros a s1 He Ha.
  destruct a as [a|]; [destruct (negb _)|].
  - eapply step_bind; [apply sftp_close_safe; [apply He|by eapply fuel_left|done]|]. intros rc s2 He2 _.
    apply safe_here; [by apply evolves_error, He2|done].
  - apply safe_here; [by apply evolves_refl, He|]. by intros f' [= <-].
  - eapply step_bind; [apply sftp_close_safe; [apply He|by eapply fuel_left|done]|]. intros rc s2 He2 _.
    by apply safe_here; [apply evolves_refl, He2|].
Qed.

Lemma open_safe path flags mode s : sftp_wf s -> (patience s < fuel)%nat -> path_ok path ->
  safe (option_wf file_wf) s (sftp_open fuel path flags mode s).
Proof.
  intros Hs Hf Hp. unfold sftp_open.
  apply (attr_request_safe _ true None s "dsd" [FCstring path; FDword (fxf_flags flags)] (fun id => [VInt id; VCstr path; VInt (fxf_flags flags)]));
    try done; [by repeat constructor|].
  intros m s1 Hs1 He1 Hm. destruct (_ =? _); [by apply status_ignored_safe|]. destruct (_ =? _); [|by apply bad_message_safe].
  eapply step_bind; [by apply parse_handle_safe|]. intros o s2 He Ho. destruct o as [f|]; [|by apply safe_here; [apply evolves_refl, He|]].
  destruct (has_all _ _).
  - apply seek_end_safe; [apply He|eapply fuel_left; [by eapply fuel_left|done]|done|by apply Ho].
  - apply safe_here; [by apply evolves_refl, He|done].
Qed.

(** *** Reading and writing *)

Definition data_wf (r : read_result) : Prop := file_wf r.2 /\ (0 <= r.1.1 -> zlen r.1.2 = r.1.1).

Lemma returns_safe rc f s : sftp_wf s -> file_wf f -> rc <= 0 -> safe data_wf s (returns rc f s).
Proof. intros Hs Hf Hrc. apply safe_here; [by apply evolves_refl|]. split; [done|]. cbn. change (zlen (@nil Byte.byte)) with 0. lia. Qed.

Lemma set_offset_wf v f : file_wf f -> file_wf (set_offset v f).
Proof. done. Qed.

Lemma copy_string_spec x : string_wf x -> copy_string x (ssh_string_len (Some x)) = Some (string_text x).
Proof.
  intros Hx. pose proof (string_wf_len x Hx) as (Hr & _ & Hd). unfold copy_string, ssh_string_data. cbn [mbind option_bind].
  rewrite memcpy_whole by lia. unfold string_text. by rewrite (zdrop_0 0) by lia.
Qed.

Lemma data_reply_safe m size f moved s : sftp_wf s -> message_wf m -> file_wf f -> safe data_wf s (data_reply m size f moved s).
Proof.
  intros Hs Hm Hf. destruct (message_payload m Hm) as (b & Hb & Hwf). unfold data_reply. rewrite Hb. cbn [mbind option_bind].
  destruct (get_ssh_string_spec b Hwf) as (o & b' & -> & _ & _ & _ & Hx). cbn [mbind option_bind].
  destruct o as [x|]; [|apply returns_safe; [done|done|lia]]. specialize (Hx x eq_refl).
  destruct (size <? _); [apply returns_safe; [done|done|lia]|]. rewrite copy_string_spec by done. cbn [mbind option_bind].
  apply safe_here; [by apply evolves_refl|]. split; [done|]. intros _. by apply string_text_zlen.
Qed.

Lemma read_fail_wf f : file_wf f -> data_wf (-1, [], f).
Proof. intros Hf. split; [done|]. cbn. lia. Qed.

(** The reply of a read. *)
Lemma read_reply_safe w size f moved eof_rc err s : sftp_wf s -> waited_wf w -> file_wf f -> eof_rc <= 0 -> err <= 0 ->
  forall block, block <= 0 ->
  safe data_wf s (match w with
    | WouldBlock => returns block f s
    | Nasty => returns err f s
    | Got msg =>
        if m_type msg =? SSH_FXP_STATUS then
          with_status msg (-1, [], f) s (fun st s =>
            if st =? SSH_FX_EOF then returns eof_rc (SftpClient.set_eof 1 f) s else returns err f s)
        else if m_type msg =? SSH_FXP_DATA then data_reply msg size f moved s
        else bad_message (-1, [], f) s
    end).
Proof.
  intros Hs Hw Hf He Herr block Hblock. destruct w as [m| |]; [|by apply returns_safe..]. specialize (Hw m eq_refl).
  destruct (_ =? _).
  - apply with_status_safe; [done|done|by apply read_fail_wf|]. intros st s1 Hs1 _. destruct (_ =? _); by apply returns_safe.
  - destruct (_ =? _); [by apply data_reply_safe|apply bad_message_safe; [done|by apply read_fail_wf]].
Qed.

Lemma read_safe f count s : sftp_wf s -> (patience s < fuel)%nat -> file_wf f -> safe data_wf s (sftp_read fuel f count s).
Proof.
  intros Hs Hf Hfile. pose proof Hfile as (x & Hx & Hxw). unfold sftp_read. destruct (negb _); [apply returns_safe; [done|done|lia]|].
  apply new_request_quiet_safe; [done|by apply read_fail_wf|]. intros id b s1 Hs1 He1 Hwf.
  apply or_failure_safe; [done|by apply read_fail_wf| |].
  { rewrite Hx. packs [FDword id; FString x; FQword (f_offset f); FDword count]. }
  intros b1 Hwf1. destruct (write_safe SSH_FXP_READ b1 s1 Hs1 Hwf1) as (n & b2 & s2 & -> & He2). cbn [mbind option_bind].
  eapply safe_after; [exact He2|]. destruct (n <? 0); [apply returns_safe; [apply He2|done|lia]|].
  eapply step_bind; [apply wait_safe; [apply He2|eapply fuel_left; [by eapply fuel_left|done]]|].
  intros w s3 He3 Hw. apply read_reply_safe; (done || lia || apply He3).
Qed.

Lemma safe_reopen P s (r : run (read_result * sftp)) : safe P s r ->
  safe P s ('(rc, d, o, s) ← ('(r, s) ← r; Some (r.1, Some r.2, s)); f ← o; Some (rc, d, f, s)).
Proof. intros ([[rc d] f] & s' & -> & ? & ?). by exists (rc, d, f), s'. Qed.

Lemma async_read_safe f size id s : sftp_wf s -> (patience s < fuel)%nat -> file_wf f ->
  safe data_wf s ('(rc, d, o, s) ← sftp_async_read fuel (Some f) size id s; f ← o; Some (rc, d, f, s)).
Proof.
  intros Hs Hf Hfile. unfold sftp_async_read. destruct (negb _); [apply (returns_safe 0 f s Hs Hfile); lia|].
  destruct (wait_safe (negb (f_nonblocking f =? 0)) id s Hs Hf) as (w & s1 & -> & He & Hw). cbn [mbind option_bind].
  eapply safe_after; [exact He|].
  apply safe_reopen, read_reply_safe; (done || apply He).
Qed.

Lemma async_begin_safe f len s : sftp_wf s -> (patience s < fuel)%nat -> file_wf f ->
  safe (fun r : Z * sftp_file => file_wf r.2) s ('(rc, f, s) ← sftp_async_read_begin f len s; Some (rc, f, s)).
Proof.
  intros Hs Hf Hfile. pose proof Hfile as (x & Hx & Hxw).
  assert (Hr : safe (fun r : Z * sftp_file => file_wf r.2) s (sftp_async_read_begin f len s)).
  { unfold sftp_async_read_begin. apply new_request_safe; [done|done|]. intros id b s1 Hs1 He1 Hwf. apply or_failure_safe; [done|done| |].
    { rewrite Hx. packs [FDword id; FString x; FQword (f_offset f); FDword len]. }
    intros b1 Hwf1. destruct (write_safe SSH_FXP_READ b1 s1 Hs1 Hwf1) as (n & b2 & s2 & -> & He2). cbn [mbind option_bind].
    eapply safe_after; [exact He2|]. destruct (n <? 0); by apply safe_here; [apply evolves_refl, He2|]. }
  destruct Hr as ([rc f'] & s1 & -> & ? & ?). by exists (rc, f'), s1.
Qed.

Lemma write_data_safe f d s : sftp_wf s -> (patience s < fuel)%nat -> file_wf f -> path_ok d ->
  safe (fun r : Z * sftp_file => file_wf r.2) s ('(rc, f, s) ← sftp_write fuel f (Some d) (zlen d) s; Some (rc, f, s)).
Proof.
  intros Hs Hf Hfile Hd. pose proof Hfile as (x & Hx & Hxw).
  assert (Hr : safe (fun r : Z * sftp_file => file_wf r.2) s (sftp_write fuel f (Some d) (zlen d) s)).
  { unfold sftp_write. rewrite Hx.
    apply (simple_request_safe _ (-1, f) s "dSqdP" [FString x; FQword (f_offset f); FDword (zlen d); FData d]
      (fun id => [VInt id; VString (Some x); VInt (f_offset f); VInt (zlen d); VLen (zlen d); VPtr (Some d)])); try done; [by repeat constructor|].
    intros m s1 Hs1 _ Hm. destruct (_ =? _); [|by apply bad_message_safe]. apply with_status_safe; [done..|].
    intros st s2 Hs2 _. by apply safe_here; [apply evolves_refl|]. }
  destruct Hr as ([rc f'] & s1 & -> & ? & ?). by exists (rc, f'), s1.
Qed.

(** *** Paths *)

Lemma path_request_safe type path s : sftp_wf s -> (patience s < fuel)%nat -> path_ok path ->
  safe (fun _ => True) s (path_request fuel type path s).
Proof.
  intros Hs Hf Hp. apply (simple_request_safe _ (-1) s "ds" [FCstring path] (fun id => [VInt id; VCstr path])); try done; [by repeat constructor|].
  intros m s1 Hs1 _ Hm. by apply status_only_safe.
Qed.

Lemma lstat_of_safe path s : sftp_wf s -> (patience s < fuel)%nat -> path_ok path ->
  safe (option_wf attr_wf) s (lstat_of fuel path s).
Proof. apply xstat_safe. Qed.

Lemma mkdir_safe path mode s : sftp_wf s -> (patience s < fuel)%nat -> path_ok path ->
  safe (fun _ => True) s (sftp_mkdir fuel path mode s).
Proof.
  intros Hs Hf Hp. apply (attr_request_safe _ false (-1) s "ds" [FCstring path] (fun id => [VInt id; VCstr path])); try done;
    [by repeat constructor|].
  intros m s1 Hs1 He1 Hm. destruct (_ =? _); [|by apply bad_message_safe]. apply with_status_safe; [done..|].
  intros st s2 Hs2 He2. destruct (_ =? _); [|by apply safe_here; [apply evolves_refl|]].
  eapply step_bind; [apply lstat_of_safe; [done|eapply fuel_left; [by eapply fuel_left|done]|done]|].
  intros a s3 He3 _. apply safe_here; [|done]. destruct (some a); [apply evolves_error, He3|apply evolves_refl, He3].
Qed.

Lemma rename_safe original newname s : sftp_wf s -> (patience s < fuel)%nat -> path_ok original -> path_ok newname ->
  safe (fun _ => True) s (sftp_rename fuel original newname s).
Proof.
  intros Hs Hf Hp1 Hp2. unfold sftp_rename. apply new_request_safe; [done|done|]. intros id b s1 Hs1 He1 Hwf.
  apply or_failure_safe; [done|done|packs [FDword id; FCstring original; FCstring newname]|]. intros b1 Hwf1.
  assert (Hb : some_buffer (if 4 <=? version s1 then ssh_buffer_add_u32 b1 SSH_FXF_RENAME_OVERWRITE else Some (0, b1))).
  { destruct (4 <=? _); [|by exists 0, b1]. unfold ssh_buffer_add_u32.
    destruct (add_int_spec 4 b1 SSH_FXF_RENAME_OVERWRITE Hwf1) as (rc & b2 & -> & Hwf2 & _); [lia|]. by exists rc, b2. }
  destruct Hb as (rc & b2 & -> & Hwf2). cbn [mbind option_bind].
  apply exchange_safe; [done|by eapply fuel_left|done|done|]. intros m s2 Hs2 _ Hm. by apply status_only_safe.
Qed.

Lemma setstat_safe path attr s : sftp_wf s -> (patience s < fuel)%nat -> path_ok path ->
  safe (fun _ => True) s (sftp_setstat fuel path attr s).
Proof.
  intros Hs Hf Hp. apply (attr_request_safe _ false (-1) s "ds" [FCstring path] (fun id => [VInt id; VCstr path])); try done;
    [by repeat constructor|].
  intros m s1 Hs1 He1 Hm. by apply status_only_safe.
Qed.

Lemma symlink_safe target dest s : sftp_wf s -> (patience s < fuel)%nat -> path_ok target -> path_ok dest ->
  safe (fun _ => True) s (on_session (sftp_symlink fuel (Some s) (Some target) (Some dest))).
Proof.
  intros Hs Hf Hp1 Hp2. unfold sftp_symlink. apply safe_session. apply new_request_safe; [done|done|]. intros id b s1 Hs1 He1 Hwf.
  apply or_failure_safe; [done|done| |].
  - destruct (negb _); [packs [FDword id; FCstring target; FCstring dest]|packs [FDword id; FCstring dest; FCstring target]].
  - intros b1 Hwf1. apply exchange_safe; [done|by eapply fuel_left|done|done|]. intros m s2 Hs2 _ Hm. by apply status_only_safe.
Qed.

Lemma name_reply_safe m s : sftp_wf s -> message_wf m -> safe text_ok s (name_reply m s).
Proof.
  intros Hs Hm. unfold name_reply. destruct (_ =? _).
  - destruct (message_payload m Hm) as (b & -> & Hwf). cbn [mbind option_bind].
    destruct (sftp_unpack_any b "ds" [UPtr; UPtr] Hwf) as (rc & os & fr & b' & -> & _ & Hres); [done..|]. cbn [mbind option_bind].
    destruct Hres as [(-> & fs & _ & _ & Hos & _)|[-> _]]; cbn [negb Z.eqb].
    + apply safe_here; [by apply evolves_refl|]. by eapply block_text.
    + by apply safe_here; [apply evolves_error|].
  - destruct (_ =? _); [by apply status_ignored_safe|by apply bad_message_safe].
Qed.

Lemma name_request_safe type path s : sftp_wf s -> (patience s < fuel)%nat -> path_ok path ->
  safe text_ok s (name_request fuel type path s).
Proof.
  intros Hs Hf Hp. apply (simple_request_safe _ None s "ds" [FCstring path] (fun id => [VInt id; VCstr path])); try done; [by repeat constructor|].
  intros m s1 Hs1 _ Hm. by apply name_reply_safe.
Qed.

(** *** File systems *)

Lemma statvfs_reply_safe m s : sftp_wf s -> message_wf m -> safe (fun _ => True) s (statvfs_reply m s).
Proof.
  intros Hs Hm. unfold statvfs_reply. destruct (_ =? _).
  - destruct (message_payload m Hm) as (b & -> & Hwf). cbn [mbind option_bind]. unfold sftp_parse_statvfs.
    destruct (negb _); [by apply safe_here; [apply evolves_error|]|].
    destruct (sftp_unpack_any b "qqqqqqqqqqq" (replicate 11 UPtr) Hwf) as (rc & os & fr & b' & -> & _ & _); [done..|]. cbn [mbind option_bind].
    destruct (negb _); [by apply safe_here; [apply evolves_error|]|by apply safe_here; [apply evolves_refl|]].
  - destruct (_ =? _); [by apply status_ignored_safe|by apply bad_message_safe].
Qed.

Lemma statvfs_safe path s : sftp_wf s -> (patience s < fuel)%nat -> path_ok path -> 3 <= version s ->
  safe (fun _ => True) s (on_session (sftp_statvfs fuel (Some s) (Some path))).
Proof.
  intros Hs Hf Hp Hv. unfold sftp_statvfs. apply safe_session. destruct (version s <? 3) eqn:E; [lia|].
  apply (simple_request_safe _ None s "dss" [FCstring (cstr "statvfs@openssh.com"); FCstring path]
    (fun id => [VInt id; VCstr (cstr "statvfs@openssh.com"); VCstr path])); try done; [by repeat constructor|].
  intros m s1 Hs1 _ Hm. by apply statvfs_reply_safe.
Qed.

(** The extensions on a file. *)
Lemma file_request_safe {R} (Q : R -> Prop) (name : string) fail f s (k : sftp_message -> sftp -> run (R * sftp)) :
  sftp_wf s -> (patience s < fuel)%nat -> file_wf f -> path_ok (cstr name) -> Q fail ->
  (forall m s1, sftp_wf s1 -> evolves s s1 -> message_wf m -> safe Q s1 (k m s1)) ->
  safe Q s (new_request fail s (fun id b s =>
    or_failure (ssh_buffer_pack b (cstr "dsS") [VInt id; VCstr (cstr name); VString (f_handle f)]) fail s (fun b =>
    exchange fuel SSH_FXP_EXTENDED id fail b s k))).
Proof.
  intros Hs Hf (x & Hx & Hxw) Hn Hfail Hk. rewrite Hx.
  apply (simple_request_safe Q fail s "dsS" [FCstring (cstr name); FString x] (fun id => [VInt id; VCstr (cstr name); VString (Some x)])); try done.
  by repeat constructor.
Qed.

(** *** All of them *)

Lemma run_call_safe c s : sftp_wf s -> (patience s < fuel)%nat -> call_ok c s -> safe reply_wf s (run_call c s).
Proof.
  intros Hs Hf Hc. destruct c; cbn [run_call call_ok] in *.
  - eapply safe_map; [by apply xstat_safe|done].
  - eapply safe_map; [by apply xstat_safe|done].
  - eapply safe_map; [by apply fstat_safe|done].
  - eapply safe_map; [by apply opendir_safe|done].
  - destruct Hc as [Hd Ho]. destruct (readdir_safe d s Hs Hf Hd Ho) as ([a d'] & s' & Hr & He & Hw).
    destruct (sftp_readdir fuel d s) as [[[a1 d1] s1]|]; [|done]. cbn [mbind option_bind] in *. injection Hr as -> -> ->. by apply safe_here.
  - eapply safe_map; [by apply closedir_safe|done].
  - eapply safe_map; [by apply open_safe|done].
  - eapply safe_map; [by apply sftp_close_safe|done].
  - eapply safe_map; [by apply read_safe|]. intros [[rc d] f'] [? ?]. done.
  - destruct (async_begin_safe f len s Hs Hf Hc) as ([rc f'] & s' & Hr & He & Hw).
    destruct (sftp_async_read_begin f len s) as [[[rc1 f1] s1]|]; [|done]. cbn [mbind option_bind] in *. injection Hr as -> -> ->. by apply safe_here.
  - destruct (async_read_safe f size id s Hs Hf Hc) as ([[rc d] f'] & s' & Hr & He & Hw).
    destruct (sftp_async_read fuel (Some f) size id s) as [[[[rc1 d1] o1] s1]|]; [|done]. cbn [mbind option_bind] in *.
    destruct o1; [|done]. cbn [mbind option_bind] in *. injection Hr as -> -> -> ->. by apply safe_here.
  - destruct Hc as [Hfile Hd]. destruct (write_data_safe f data s Hs Hf Hfile Hd) as ([rc f'] & s' & Hr & He & Hw).
    destruct (sftp_write fuel f (Some data) (zlen data) s) as [[[rc1 f1] s1]|]; [|done]. cbn [mbind option_bind] in *. injection Hr as -> -> ->. by apply safe_here.
  - eapply safe_map; [by apply path_request_safe|done].
  - eapply safe_map; [by apply path_request_safe|done].
  - eapply safe_map; [by apply mkdir_safe|done].
  - destruct Hc. eapply safe_map; [by apply rename_safe|done].
  - eapply safe_map; [by apply setstat_safe|done].
  - destruct Hc. eapply safe_map; [by apply symlink_safe|done].
  - destruct Hc as [Hp Hv]. eapply safe_map; [|done]. unfold sftp_readlink. cbn [mbind option_bind].
    destruct (version s <? 3) eqn:E; [lia|]. by apply safe_session, name_request_safe.
  - eapply safe_map; [|done]. by apply safe_session, name_request_safe.
  - destruct Hc. eapply safe_map; [by apply statvfs_safe|done].
  - eapply safe_map; [|done]. unfold sftp_fstatvfs. apply (file_request_safe (fun _ => True)); try done. intros m s1 Hs1 _ Hm. by apply statvfs_reply_safe.
  - eapply safe_map; [|done]. unfold sftp_fsync. apply (file_request_safe (fun _ => True)); try done. intros m s1 Hs1 _ Hm. by apply status_only_safe.
Qed.

(** (C11) The calls of an SFTP client are safe, on a well formed session, whatever bytes the server
    sends and in whatever pieces, with any sizes refused by [malloc]: the call returns (with as much
    fuel as there is to read), accesses only memory it owns, leaves the session well formed, of
    the same protocol, and what it returns is well typed: files and directories have a handle that the next
    call can send, texts have an end, data has the length that is returned.  Excluded, because the code is not
    safe there, are [sftp_readdir] with a server that says it is OpenSSH ([listing_overread]) and [sftp_readlink] and
    [sftp_statvfs] in a version of the protocol before 3. *)
Theorem client_calls_are_safe c s : sftp_wf s -> (patience s < fuel)%nat -> call_ok c s ->
  exists r s', run_call c s = Some (r, s') /\ sftp_wf s' /\ reply_wf r /\ version s' = version s /\ (patience s' <= patience s)%nat.
Proof. intros Hs Hf Hc. destruct (run_call_safe c s Hs Hf Hc) as (r & s' & He & [] & Hr). by exists r, s'. Qed.
End Safe.

(** Witness: a server that answers a stat with a handle, in pieces. *)
Definition stray_reply : list bytes :=
  let r := reply_bytes (SSH_FXP_HANDLE, 1, cstr "odd") in [ztake 2 r; []; zdrop 2 r].

Example stray_reply_refused :
  (r ← @run_call calloc_allocator N_bignum _ _ 60 (CallStat (cstr "x")) (pipe_session 3 0 stray_reply None None);
   Some (r.1, errnum r.2, chunks (channel r.2))) = Some (RAttr None, SSH_FX_BAD_MESSAGE, []).
Proof. vm_compute. reflexivity. Qed.

Lemma client_calls_are_safe_witness :
  exists r s', @run_call calloc_allocator N_bignum _ _ 60 (CallStat (cstr "x")) (pipe_session 3 0 stray_reply None None) = Some (r, s')
    /\ @sftp_wf _ _ pipe_stream s' /\ reply_wf r /\ version s' = 3 /\ (@patience _ _ pipe_stream s' <= 13)%nat.
Proof.
  apply (@client_calls_are_safe calloc_allocator N_bignum _ _ pipe_stream 60 (CallStat (cstr "x")) (pipe_session 3 0 stray_reply None None));
    [|apply Nat.ltb_lt; reflexivity|reflexivity].
  constructor; [exact I|eexists; split; [reflexivity|intros b Hb; discriminate Hb]|by constructor|done].
Defined.
