(* ===== verification/SftpHandles.v ===== *)
(** * SFTP: the table of handles of a server

    The block of 256 addresses of a session implements a partial map from the numbers of
    handles to what the server keeps for them. *)

From stdpp Require Import gmap.
From S2P Require Import Prelude SshString Buffer Bignum BufferPack Token Session Packet Kex Channel.
From S2P Require Import Sftp SftpServer SftpFrame.

(** ** The specification: what each number that is in use stands for *)

Abbreviation table := (gmap Z Z).

(** The four bytes of a number. *)
Definition handle_of (x : ssh_string) (k : Z) : Prop := string_wf x /\ string_text x = le_bytes 4 k.

Inductive handle_call := HAlloc (info : Z) | HLookup (x : ssh_string) | HRemove (info : Z).
Inductive handle_result := HString (x : option ssh_string) | HInfo (info : Z) | HDone.

(** [0] is the null address: a number that stands for it is free. *)
Definition put (k info : Z) (t : table) : table := if info =? 0 then t else <[k := info]> t.

Inductive table_step : table -> handle_call -> handle_result -> table -> Prop :=
  | step_alloc t info x k : 0 <= k < SFTP_HANDLES -> t !! k = None -> handle_of x k ->
      table_step t (HAlloc info) (HString (Some x)) (put k info t)
  | step_no_memory t info : table_step t (HAlloc info) (HString None) t
  | step_lookup t x k : handle_of x k -> 0 <= k < SFTP_HANDLES -> table_step t (HLookup x) (HInfo (default 0 (t !! k))) t
  | step_invalid t x : (forall k, 0 <= k < SFTP_HANDLES -> ~ handle_of x k) -> table_step t (HLookup x) (HInfo 0) t
  | step_remove t info k : t !! k = Some info -> table_step t (HRemove info) HDone (delete k t)
  | step_absent t info : (forall k, t !! k <> Some info) -> table_step t (HRemove info) HDone t.

Section Handles.
Context `{Allocator} {Ch : Type} `{SftpChannel Ch}.
#[local] Abbreviation sftp := (sftp_session Ch).
Implicit Type s : sftp.

Record implements s (t : table) : Prop := {
  im_size : forall l, handles s = Some l -> zlen l = SFTP_HANDLES;
  im_holds : forall k v, t !! k = Some v <-> 0 <= k /\ v <> 0 /\ exists l, handles s = Some l /\ l !! Z.to_nat k = Some v
}.

Definition run_handle_call (c : handle_call) s : run (handle_result * sftp) :=
  match c with
  | HAlloc info => '(x, s) ← sftp_handle_alloc info s; Some (HString x, s)
  | HLookup x => v ← sftp_handle (Some x) s; Some (HInfo v, s)
  | HRemove info => s ← sftp_handle_remove info s; Some (HDone, s)
  end.

(** What the code leaves to its callers: no number just behind the block, and a block
    before anything is removed (that is something). *)
Definition handle_call_ok (c : handle_call) s : Prop :=
  match c with
  | HAlloc _ => True
  | HLookup x => string_wf x /\ (handles s = None \/ ~ handle_of x SFTP_HANDLES)
  | HRemove info => handles s <> None /\ info <> 0
  end.

(** ** The entries of the block *)

Lemma free_entry_spec l i : exists n, free_entry l i = i + Z.of_nat n /\ (n <= length l)%nat
  /\ (forall v, l !! n = Some v -> v = 0) /\ forall j v, (j < n)%nat -> l !! j = Some v -> v <> 0.
Proof.
  revert i. induction l as [|p l IH]; intros i; cbn [free_entry length].
  - exists 0%nat. split_and!; [lia|lia|done|lia].
  - destruct (p =? 0) eqn:E.
    + exists 0%nat. split_and!; [lia|lia| |lia]. intros v [= <-]. lia.
    + destruct (IH (i + 1)) as (n & -> & Hn & Hz & Hnz). exists (S n). split_and!; [lia|lia|exact Hz|].
      intros [|j] v Hj Hl; [injection Hl as <-; lia|eapply (Hnz j); [lia|done]].
Qed.

Lemma clear_first_spec l info : clear_first l info = l /\ (forall n, l !! n <> Some info)
  \/ exists n, clear_first l info = <[n := 0]> l /\ l !! n = Some info.
Proof.
  induction l as [|p l IH]; cbn [clear_first]; [by left|]. destruct (p =? info) eqn:E.
  - right. exists 0%nat. split; [done|]. cbn. f_equal. lia.
  - destruct IH as [[-> Hn]|(n & -> & Hn)].
    + left. split; [done|]. intros [|n]; [intros [= ->]; lia|apply Hn].
    + right. by exists (S n).
Qed.

Lemma implements_lookup s t l k : implements s t -> handles s = Some l -> 0 <= k < SFTP_HANDLES -> l !! Z.to_nat k = Some (default 0 (t !! k)).
Proof.
  intros [Hsz Hh] Hl Hk. specialize (Hsz l Hl). destruct (l !! Z.to_nat k) as [v|] eqn:E.
  - f_equal. destruct (decide (v = 0)) as [->|Hv].
    + destruct (t !! k) as [w|] eqn:Et; [|done]. apply Hh in Et as (_ & Hw & l2 & Hl2 & E2). congruence.
    + by rewrite (proj2 (Hh k v)) by (split_and!; [lia|done|by exists l]).
  - apply lookup_ge_None in E. unfold zlen in Hsz. lia.
Qed.

(** Writing one entry of the block. *)
Lemma implements_insert s s' t l n v : implements s t -> handles s = Some l -> (n < length l)%nat -> handles s' = Some (<[n := v]> l) ->
  implements s' (if v =? 0 then delete (Z.of_nat n) t else <[Z.of_nat n := v]> t).
Proof.
  intros [Hsz Hh] Hl Hn Hs'. split.
  { intros l' Hl'. rewrite Hs' in Hl'. injection Hl' as <-. rewrite <- (Hsz l Hl). unfold zlen. by rewrite length_insert. }
  intros k w. rewrite Hs'. destruct (decide (k = Z.of_nat n)) as [->|Hk].
  - assert (Hi : forall l', Some (<[n := v]> l) = Some l' -> l' !! Z.to_nat (Z.of_nat n) = Some v).
    { intros l' [= <-]. rewrite Nat2Z.id. by apply list_lookup_insert_eq. }
    destruct (v =? 0) eqn:E.
    + rewrite lookup_delete_eq. split; [done|]. intros (_ & Hw & l' & Hl' & Hl2). rewrite (Hi l' Hl') in Hl2. injection Hl2. lia.
    + rewrite lookup_insert_eq. split.
      * intros [= <-]. split_and!; [lia|lia|]. eexists. split; [done|by apply Hi].
      * intros (_ & Hw & l' & Hl' & Hl2). by rewrite (Hi l' Hl') in Hl2.
  - assert (Hother : 0 <= k -> forall l', Some (<[n := v]> l) = Some l' -> l' !! Z.to_nat k = l !! Z.to_nat k).
    { intros Hk0 l' [= <-]. apply list_lookup_insert_ne. lia. }
    assert (Ht : (if v =? 0 then delete (Z.of_nat n) t else <[Z.of_nat n := v]> t) !! k = t !! k).
    { destruct (v =? 0); [by apply lookup_delete_ne|by apply lookup_insert_ne]. }
    rewrite Ht, Hh. split; intros (Hk0 & Hw & l' & Hl' & Hl2); (split_and!; [done|done|]).
    + eexists. split; [done|]. rewrite (Hother Hk0 _ eq_refl). congruence.
    + exists l. split; [done|]. by rewrite <- (Hother Hk0 l' Hl').
Qed.

Lemma implements_block s s' t : implements s t -> handles s = None -> handles s' = Some (zrep SFTP_HANDLES 0) -> implements s' t.
Proof.
  intros [Hsz Hh] Hn Hs'. split.
  { intros l Hl. rewrite Hs' in Hl. injection Hl as <-. done. }
  intros k v. rewrite Hh, Hn, Hs'. split; [by intros (_ & _ & l & Hl & _)|].
  intros (_ & Hv & l & [= <-] & Hl). unfold zrep in Hl. by apply lookup_replicate in Hl as [-> _].
Qed.

Lemma implements_same s s' t : implements s t -> handles s' = handles s -> implements s' t.
Proof. intros [? ?] Hs. split; by rewrite Hs. Qed.

(** *** The number in a string *)

Lemma fresh_handle x k : ssh_string_new 4 = Some x -> exists d, memcpy (str_data x) 0 (le_bytes 4 k) 0 4 = Some d
  /\ handle_of (mk_string (str_size x) d) k.
Proof.
  intros Hx. destruct (ssh_string_new_wf 4 x ltac:(lia) Hx) as [Hwf Hlen]. pose proof (string_wf_len x Hwf) as (_ & _ & Hd).
  rewrite Hlen in Hd. eexists. rewrite memcpy_ok by zlen_lia. split; [done|].
  apply (fill_text x (le_bytes 4 k)); [done|zlen_lia|]. change (zlen (le_bytes 4 k)) with 4. by rewrite memcpy_ok by zlen_lia.
Qed.

Lemma handle_of_inj x k k' : handle_of x k -> handle_of x k' -> 0 <= k < 2 ^ 32 -> 0 <= k' < 2 ^ 32 -> k = k'.
Proof.
  intros [_ H1] [_ H2] ? ?. rewrite H1 in H2. apply (f_equal le_val) in H2. rewrite !le_val_bytes in H2.
  change (256 ^ Z.of_nat 4) with (2 ^ 32) in H2. by rewrite !Z.mod_small in H2.
Qed.

Lemma handle_cases x : string_wf x -> ssh_string_len (Some x) <> 4 /\ (forall k, ~ handle_of x k)
  \/ ssh_string_len (Some x) = 4 /\ exists k, 0 <= k < 2 ^ 32 /\ handle_of x k
        /\ (d ← ssh_string_data (Some x); memcpy (zrep 4 Byte.x00) 0 d 0 4) = Some (le_bytes 4 k).
Proof.
  intros Hwf. pose proof (string_text_zlen x Hwf) as Hlen. pose proof (string_wf_len x Hwf) as (_ & _ & Hd).
  destruct (decide (ssh_string_len (Some x) = 4)) as [E|E]; [right|left].
  - split; [done|]. exists (le_val (string_text x)). pose proof (le_val_range (string_text x)) as Hr. rewrite Hlen, E in Hr.
    assert (Ht : le_bytes 4 (le_val (string_text x)) = string_text x).
    { rewrite <- (le_bytes_val (string_text x)) at 2. f_equal. unfold zlen in Hlen. lia. }
    split_and!; [lia|lia|by split; [done|rewrite Ht]|]. rewrite Ht. unfold ssh_string_data. cbn [mbind option_bind]. rewrite memcpy_whole by lia.
    unfold string_text. by rewrite E, (zdrop_0 0) by lia.
  - split; [done|]. intros k [_ Hk]. rewrite Hk in Hlen. zlen_lia.
Qed.

(** ** The operations *)

Lemma alloc_refines info s t : implements s t ->
  exists o s' t', sftp_handle_alloc info s = Some (o, s') /\ table_step t (HAlloc info) (HString o) t' /\ implements s' t'
    /\ (malloc_succeeds -> o = None -> forall k, 0 <= k < SFTP_HANDLES -> is_Some (t !! k)).
Proof.
  intros Hi. unfold sftp_handle_alloc.
  set (o := match handles s with Some l => Some l | None => if alloc (SFTP_HANDLES * sizeof_ptr) then Some (zrep SFTP_HANDLES 0) else None end).
  destruct o as [l|] eqn:Ho; subst o; cbn beta iota.
  2: { exists None, s, t. split_and!; [done|constructor|done|]. intros Hm _. exfalso. destruct (handles s); [done|].
       unfold alloc in Ho. destruct (malloc (SFTP_HANDLES * sizeof_ptr)) eqn:E; [done|by apply Hm in E]. }
  assert (Hi1 : implements (set_handles (Some l) s) t).
  { destruct (handles s) as [l0|] eqn:Hl.
    - injection Ho as ->. by eapply implements_same.
    - destruct (alloc _); [|done]. injection Ho as <-. by eapply implements_block. }
  pose proof (im_size _ _ Hi1 l eq_refl) as Hsz. rewrite ztake_all by lia.
  destruct (free_entry_spec l 0) as (n & -> & Hn & Hz & Hnz). destruct (0 + Z.of_nat n =? SFTP_HANDLES) eqn:E.
  { exists None, (set_handles (Some l) s), t. split_and!; [done|constructor|done|]. intros _ _ k Hk.
    pose proof (implements_lookup _ t l k Hi1 eq_refl Hk) as Hlk. destruct (t !! k) as [v|]; [done|].
    exfalso. eapply (Hnz (Z.to_nat k)); [lia|exact Hlk|done]. }
  destruct (ssh_string_new 4) as [x|] eqn:Hx.
  2: { exists None, (set_handles (Some l) s), t. split_and!; [done|constructor|done|]. intros Hm _. exfalso.
       unfold ssh_string_new in Hx. cbn in Hx. destruct (malloc _) eqn:Em in Hx; [done|by apply Hm in Em]. }
  rewrite Z.add_0_l. destruct (fresh_handle x (Z.of_nat n) Hx) as (d & -> & Hd). cbn [mbind option_bind].
  unfold zlen in Hsz. assert (Hlt : (n < length l)%nat) by lia.
  pose proof (implements_lookup _ t l (Z.of_nat n) Hi1 eq_refl ltac:(lia)) as Hlk. rewrite Nat2Z.id in Hlk. apply Hz in Hlk.
  assert (Hfree : t !! Z.of_nat n = None).
  { destruct (t !! Z.of_nat n) as [v|] eqn:Et; [|done]. cbn in Hlk. subst v. by apply Hi1 in Et as (_ & ? & _). }
  eexists _, _, (put (Z.of_nat n) info t). split_and!; [done|by constructor; [lia|..]| |done].
  rewrite Nat2Z.id. pose proof (implements_insert _ (set_handles (Some (<[n := info]> l)) s) t l n info Hi1 eq_refl Hlt eq_refl) as Hput.
  unfold put. destruct (info =? 0); [by rewrite delete_id in Hput|done].
Qed.

Lemma lookup_refines x s t : implements s t -> string_wf x -> (handles s = None \/ ~ handle_of x SFTP_HANDLES) ->
  exists v, sftp_handle (Some x) s = Some v /\ table_step t (HLookup x) (HInfo v) t.
Proof.
  intros Hi Hwf Hok. unfold sftp_handle. destruct (handles s) as [l|] eqn:Hl.
  2: { exists 0. split; [done|]. destruct (handle_cases x Hwf) as [[_ Hno]|(_ & k & Hk & Hx & _)]; [by constructor; intros|].
       destruct (decide (k < SFTP_HANDLES)) as [Hlt|Hge].
       - replace 0 with (default 0 (t !! k)) at 1; [by constructor; [|lia]|]. destruct (t !! k) as [v|] eqn:Et; [|done].
         apply Hi in Et as (_ & _ & l & Hl2 & _). congruence.
       - constructor. intros k' Hk' Hx'. unfold SFTP_HANDLES in *. rewrite (handle_of_inj x k k') in Hge by (done || lia). lia. }
  destruct Hok as [?|Hok]; [done|].
  destruct (handle_cases x Hwf) as [[Hne Hno]|(-> & k & Hk & Hx & Hget)]; cbn [Z.eqb negb Pos.eqb].
  - exists 0. destruct (ssh_string_len (Some x) =? 4) eqn:E; [lia|]. cbn [negb]. split; [done|]. by constructor; intros.
  - destruct (ssh_string_data (Some x)) as [d|]; [|done]. cbn [mbind option_bind] in *. rewrite Hget. cbn [mbind option_bind].
    rewrite le_val_bytes. change (256 ^ Z.of_nat 4) with (2 ^ 32). rewrite Z.mod_small by lia.
    destruct (SFTP_HANDLES <? k) eqn:E.
    + exists 0. split; [done|]. constructor. intros k' Hk' Hx'. unfold SFTP_HANDLES in *. rewrite (handle_of_inj x k k') in E by (done || lia). lia.
    + assert (Hlt : k < SFTP_HANDLES) by (destruct (decide (k = SFTP_HANDLES)) as [->|]; [done|lia]).
      exists (default 0 (t !! k)). split; [eapply implements_lookup; (done || lia)|]. by constructor; [|lia].
Qed.

Lemma remove_refines info s t : implements s t -> handles s <> None -> info <> 0 ->
  exists s' t', sftp_handle_remove info s = Some s' /\ table_step t (HRemove info) HDone t' /\ implements s' t'.
Proof.
  intros Hi Hn Hinfo. unfold sftp_handle_remove. destruct (handles s) as [l|] eqn:Hl; [|done]. cbn [mbind option_bind].
  destruct (clear_first_spec l info) as [[-> Hno]|(n & -> & Hln)].
  - do 2 eexists. split; [done|]. split; [|by eapply implements_same].
    apply step_absent. intros k Hk. apply Hi in Hk as (_ & _ & l2 & Hl2 & Hk). rewrite Hl in Hl2. injection Hl2 as <-. by eapply Hno.
  - assert (Hk : t !! Z.of_nat n = Some info) by (apply Hi; split_and!; [lia|done|]; exists l; by rewrite Nat2Z.id).
    eexists _, (delete (Z.of_nat n) t). split; [done|]. split; [by eapply step_remove|].
    by apply (implements_insert s _ t l n 0 Hi Hl); [eapply lookup_lt_Some|].
Qed.

(** (C15) The handles of a server implement a partial map: a new handle is one that was not in use
    and stands for what it was made for, looking one up gives what it
    stands for and null for any other string, removing frees one number; and there is no
    new handle only when memory or the 256 numbers are used up.  Left out are the lookup of number 256, and
    removing null or before the first handle was made. *)
Theorem handles_refine_map c s t : implements s t -> handle_call_ok c s ->
  exists r s' t', run_handle_call c s = Some (r, s') /\ table_step t c r t' /\ implements s' t'
    /\ (malloc_succeeds -> r = HString None -> forall k, 0 <= k < SFTP_HANDLES -> is_Some (t !! k)).
Proof.
  intros Hi Hok. destruct c as [info|x|info]; cbn [run_handle_call].
  - destruct (alloc_refines info s t Hi) as (o & s' & t' & -> & Hstep & Hi' & Hfull). exists (HString o), s', t'.
    split_and!; [done|done|done|]. intros Hm [= ->]. by apply Hfull.
  - destruct Hok as [Hx Hok]. destruct (lookup_refines x s t Hi Hx Hok) as (v & -> & Hstep). by exists (HInfo v), s, t.
  - destruct Hok as [Hn Hinfo]. destruct (remove_refines info s t Hi Hn Hinfo) as (s' & t' & -> & Hstep & Hi'). by exists HDone, s', t'.
Qed.

(** The number behind the last: a client that sends the handle 256 makes the server read outside
    of its block, which is after the comment about handles that are corrupted. *)
Theorem handle_256_reads_outside x s l : handles s = Some l -> zlen l = SFTP_HANDLES -> handle_of x SFTP_HANDLES ->
  sftp_handle (Some x) s = None.
Proof.
  intros Hl Hsz [Hwf Ht]. unfold sftp_handle. rewrite Hl.
  destruct (handle_cases x Hwf) as [[_ Hno]|(-> & k & Hk & Hx & Hget)]; [exfalso; by eapply (Hno SFTP_HANDLES)|].
  cbn [Z.eqb negb Pos.eqb]. destruct (ssh_string_data (Some x)) as [d|]; [|done]. cbn [mbind option_bind] in *. rewrite Hget. cbn [mbind option_bind].
  assert (k = SFTP_HANDLES) as -> by (eapply handle_of_inj; [done|by split|done|done]).
  change (le_val (le_bytes 4 SFTP_HANDLES)) with SFTP_HANDLES. apply lookup_ge_None. unfold zlen in Hsz. lia.
Qed.
End Handles.

(** Witness: a table with one handle gets a second. *)
Definition one_handle : sftp_session pipe := pipe_session 3 0 [] None (Some (7 :: zrep 255 0)).

Lemma one_handle_implements : implements one_handle {[0 := 7]}.
Proof.
  assert (Hb : implements (pipe_session 3 0 [] None None) ∅).
  { split; [done|]. intros k v. rewrite lookup_empty. split; [done|]. by intros (_ & _ & l & Hl & _). }
  apply (implements_block _ (pipe_session 3 0 [] None (Some (zrep SFTP_HANDLES 0)))) in Hb; [|done..].
  apply (implements_insert _ one_handle ∅ (zrep SFTP_HANDLES 0) 0 7 Hb); [done|apply Nat.ltb_lt; reflexivity|reflexivity].
Qed.

Lemma handles_refine_map_witness :
  exists r s' t', @run_handle_call calloc_allocator _ (HAlloc 9) one_handle = Some (r, s') /\ table_step {[0 := 7]} (HAlloc 9) r t'
    /\ implements s' t' /\ (@malloc_succeeds calloc_allocator -> r = HString None -> forall k, 0 <= k < SFTP_HANDLES -> is_Some (({[0 := 7]} : table) !! k)).
Proof. apply (@handles_refine_map calloc_allocator pipe (HAlloc 9) one_handle {[0 := 7]}); [exact one_handle_implements|exact I]. Defined.

(** The handles of a session: made, looked up, removed, made again. *)
Example handles_are_reused :
  ('(x, s) ← @sftp_handle_alloc calloc_allocator _ 9 one_handle;
   '(y, s) ← @sftp_handle_alloc calloc_allocator _ 11 s;
   u ← sftp_handle x s; v ← sftp_handle y s;
   s ← sftp_handle_remove 9 s;
   w ← sftp_handle x s;
   '(z, s) ← @sftp_handle_alloc calloc_allocator _ 13 s;
   Some (u, v, w, x, z)) = Some (9, 11, 0, Some (mk_string (htonl 4) [Byte.x01; Byte.x00; Byte.x00; Byte.x00; Byte.x00]),
                                 Some (mk_string (htonl 4) [Byte.x01; Byte.x00; Byte.x00; Byte.x00; Byte.x00])).
Proof. vm_compute. reflexivity. Qed.

(** Witness: the bytes 0, 1, 0, 0. *)
Lemma handle_256_reads_outside_witness :
  @sftp_handle _ (Some (mk_string (htonl 4) [Byte.x00; Byte.x01; Byte.x00; Byte.x00; Byte.x00])) one_handle = None.
Proof.
  apply (handle_256_reads_outside _ one_handle (7 :: zrep 255 0)); [reflexivity|reflexivity|].
  split; [exists 4; split; [split; discriminate|split; reflexivity]|reflexivity].
Defined.
