(* ===== verification/SftpRequests.v ===== *)
(** * SFTP: a server and any client

    Reading a request is safe on any bytes and gives a message that the server can use;
    the replies that it makes of one are sent or refused, nothing else. *)

From stdpp Require Import gmap.
From S2P Require Import Prelude SshString Buffer Bignum BufferPack Token Session Packet Kex Channel.
From S2P Require Import Sftp SftpServer SftpFrame SftpDispatch SftpAttr SftpSafe.

Section Requests.
Context `{Allocator} `{BignumLib} {Ch : Type} `{ChannelStream Ch}.
#[local] Abbreviation sftp := (sftp_session Ch).
Implicit Type s : sftp.

(** ** The fields of a request *)

Definition request_fields_wf (r : request_fields) : Prop :=
  text_ok (r_filename r) /\ option_wf attr_wf (r_attr r) /\ option_wf string_wf (r_handle r)
  /\ option_wf string_wf (r_data r) /\ text_ok (r_submessage r).

(** On any bytes a step has a result that satisfies [Q], and the session is still good. *)
Definition rsafe {A} (Q : A -> Prop) (m : reader A) : Prop := forall b s, buffer_wf b -> sftp_wf s ->
  exists o b' s', m b s = Some (o, b', s') /\ buffer_wf b' /\ evolves s s' /\ option_wf Q o.

Lemma rsafe_done {A} (Q : A -> Prop) a : Q a -> rsafe Q (done a).
Proof. intros Ha b s Hwf Hs. exists (Some a), b, s. split_and!; [done|done|by apply evolves_refl|]. by intros ? [= <-]. Qed.

Lemma rsafe_slots {A} (Q : A -> Prop) (fmt : string) args k : args = map (fun _ => UPtr) (cstr fmt) ->
  forallb (fun c => exact_letter (letter_of c)) (cstr fmt) = true -> zlen (cstr fmt) <= 256 ->
  (forall fs os, fields_format fs = cstr fmt -> Forall2 slot_holds fs os -> rsafe Q (k os)) -> rsafe Q (read_slots fmt args k).
Proof.
  intros Ha Hl Hn Hk b s Hwf Hs. unfold read_slots.
  destruct (sftp_unpack_any b fmt args Hwf Ha Hl Hn) as (rc & os & fr & b' & -> & Hwf' & Hres). cbn [mbind option_bind].
  destruct Hres as [(-> & fs & Hf & _ & Hos & _)|[-> _]].
  - by apply (Hk fs os).
  - change (negb (SSH_ERROR =? SSH_OK)) with true. cbv iota. exists None, b', s. split_and!; [done|done|by apply evolves_refl|done].
Qed.

Lemma rsafe_attr {A} (Q : A -> Prop) k : (forall a, attr_wf a -> rsafe Q (k a)) -> rsafe Q (read_attr k).
Proof.
  intros Hk b s Hwf Hs. unfold read_attr. destruct (parse_attr_safe s b false Hwf (or_introl eq_refl)) as (o & b' & s' & -> & Hwf' & Hs' & Ho).
  cbn [mbind option_bind].
  assert (He : evolves s s') by (destruct Hs' as [->| ->]; [by apply evolves_refl|by apply evolves_error]).
  destruct o as [a|]; [|exists None, b', s'; by split_and!].
  destruct (Hk a (Ho a eq_refl) b' s' Hwf' (ev_wf _ _ He)) as (o & b2 & s2 & -> & ? & ? & ?). exists o, b2, s2.
  split_and!; [done|done|by eapply evolves_trans|done].
Qed.

Lemma rsafe_handle {A} (Q : A -> Prop) k : (forall x, string_wf x -> rsafe Q (k x)) -> rsafe Q (read_handle k).
Proof.
  intros Hk b s Hwf Hs. unfold read_handle. destruct (get_ssh_string_spec b Hwf) as (o & b' & -> & Hwf' & _ & _ & Hx). cbn [mbind option_bind].
  destruct o as [x|]; [by apply Hk; [apply Hx|..]|]. exists None, b', s. split_and!; [done|done|by apply evolves_refl|done].
Qed.

Lemma slot_string fs os i : Forall2 slot_holds fs os -> option_wf string_wf (string_slot os i).
Proof.
  intros Hos x. unfold string_slot. destruct (os !! i) as [o|] eqn:Ho; [|done].
  destruct (Forall2_lookup_r _ _ _ _ _ Hos Ho) as (f & _ & Hf). destruct o; try done. intros ->. destruct f; try done. by destruct Hf.
Qed.

(** [done] of what the slots hold. *)
Lemma rsafe_fields fs os i j k l flags attr offset len handle data (name sub : option bytes) :
  Forall2 slot_holds fs os -> (name = None \/ name = block_slot os i) -> option_wf attr_wf attr ->
  (handle = None \/ handle = string_slot os j \/ option_wf string_wf handle) -> (data = None \/ data = string_slot os k) ->
  (sub = None \/ sub = block_slot os l \/ text_ok sub) ->
  rsafe request_fields_wf (done (mk_fields name flags attr handle offset len data sub)).
Proof.
  intros Hos Hn Ha Hh Hd Hsub. apply rsafe_done. split_and!; cbn [r_filename r_attr r_handle r_data r_submessage]; [|done|..].
  - destruct Hn as [->| ->]; [done|by eapply block_text].
  - destruct Hh as [->|[->|?]]; [done|by eapply slot_string|done].
  - destruct Hd as [->| ->]; [done|by eapply slot_string].
  - destruct Hsub as [->|[->|?]]; [done|by eapply block_text|done].
Qed.

Lemma text_of_total block : strlen block <> None -> exists t, text_of block = Some t.
Proof. unfold text_of. destruct (strlen block); [|done]. intros _. by eexists. Qed.

Lemma slots_one_text fs os : fields_format fs = cstr "s" -> Forall2 slot_holds fs os -> exists t, block_slot os 0 = Some (t ++ [Byte.x00]).
Proof.
  intros Hf Hos. destruct Hos as [|f o fs os Ho Hos]; [done|]. destruct f; try (by vm_compute in Hf).
  destruct o; try done. cbn in Ho. subst. by eexists.
Qed.

Lemma read_extended_safe : rsafe request_fields_wf read_extended.
Proof.
  apply rsafe_slots; [done..|]. intros fs os Hf Hos b s Hwf Hs. destruct (slots_one_text fs os Hf Hos) as (t & Ht). rewrite Ht. cbn [mbind option_bind].
  destruct (text_of_total (t ++ [Byte.x00]) (strlen_app_nul t [])) as (u & ->). cbn [mbind option_bind].
  assert (Hsub : text_ok (Some (t ++ [Byte.x00]))) by (intros ? [= <-]; apply strlen_app_nul).
  destruct (_ || _).
  - revert b s Hwf Hs. apply rsafe_slots; [done..|]. intros fs2 os2 _ Hos2.
    apply (rsafe_fields fs2 os2 0 0 1 0); [done|by right|done|by left|by right|by right; right].
  - revert b s Hwf Hs. apply (rsafe_fields [] [] 0 0 0 0); [constructor|by left|done|by left|by left|by right; right].
Qed.

Lemma read_request_safe type : rsafe request_fields_wf (read_request type).
Proof.
  assert (Hrefuse : rsafe request_fields_wf (fun b s => Some (None, b, s))).
  { intros b s Hwf Hs. exists None, b, s. split_and!; [done|done|by apply evolves_refl|done]. }
  assert (Hname : forall fs os, Forall2 slot_holds fs os -> rsafe request_fields_wf (done (mk_fields (block_slot os 0) 0 None None 0 0 None None))).
  { intros fs os Hos. apply (rsafe_fields fs os 0 0 0 0); auto; done. }
  unfold read_request. cbn zeta. destruct (existsb _ _).
  { apply rsafe_handle. intros x Hx. apply (rsafe_fields [] [] 0 0 0 0); auto; [done|]. right. right. by intros ? [= <-]. }
  destruct (_ =? SSH_FXP_READ); [apply rsafe_slots; [done..|]; intros fs os _ Hos; apply (rsafe_fields fs os 0 0 0 0); auto; done|].
  destruct (_ =? SSH_FXP_WRITE); [apply rsafe_slots; [done..|]; intros fs os _ Hos; apply (rsafe_fields fs os 0 0 2 0); auto; done|].
  destruct (existsb _ _); [apply rsafe_slots; [done..|]; intros fs os _ Hos; by eapply Hname|].
  destruct (existsb _ _); [apply rsafe_slots; [done..|]; intros fs os _ Hos; apply (rsafe_fields fs os 0 0 1 0); auto; done|].
  destruct (existsb _ _).
  { apply rsafe_slots; [done..|]. intros fs os _ Hos. apply rsafe_attr. intros a Ha.
    apply (rsafe_fields fs os 0 0 0 0); auto. by intros ? [= <-]. }
  destruct (_ =? SSH_FXP_FSETSTAT).
  { apply rsafe_handle. intros x Hx. apply rsafe_attr. intros a Ha. apply (rsafe_fields [] [] 0 0 0 0); auto; [by intros ? [= <-]|].
    right. right. by intros ? [= <-]. }
  destruct (existsb _ _).
  { apply rsafe_slots; [done..|]. intros fs os _ Hos b s Hwf Hs. destruct (3 <? version s).
    - destruct (sftp_unpack_any b "d" [UPtr] Hwf) as (rc & os2 & fr & b' & -> & Hwf' & _); [done..|]. cbn [mbind option_bind].
      revert b' s Hwf' Hs. apply (rsafe_fields fs os 0 0 0 0); auto; done.
    - revert b s Hwf Hs. by eapply Hname. }
  destruct (_ =? SSH_FXP_OPEN).
  { apply rsafe_slots; [done..|]. intros fs os _ Hos. apply rsafe_attr. intros a Ha.
    apply (rsafe_fields fs os 0 0 0 0); auto. by intros ? [= <-]. }
  destruct (_ =? SSH_FXP_FSTAT); [apply rsafe_slots; [done..|]; intros fs os _ Hos; apply (rsafe_fields fs os 0 0 0 0); auto; done|].
  destruct (_ =? SSH_FXP_EXTENDED); [apply read_extended_safe|apply Hrefuse].
Qed.

(** ** Reading a request *)

Definition client_message_wf (m : sftp_client_message) : Prop :=
  text_ok (c_filename m) /\ option_wf attr_wf (c_attr m) /\ option_wf string_wf (c_handle m) /\ option_wf string_wf (c_data m)
  /\ text_ok (c_submessage m) /\ option_wf buffer_wf (c_attrbuf m) /\ (exists b, c_complete_message m = Some b /\ buffer_wf b).

Lemma copy_payload_safe copy b : buffer_wf copy -> buffer_wf b ->
  exists rc copy', add_data copy (ssh_buffer_get b) (ssh_buffer_get_len b) = Some (rc, copy') /\ buffer_wf copy'.
Proof.
  intros Hwf Hb. pose proof (contents_zlen b Hb) as Hl. pose proof (contents_max b Hb) as Hmax. unfold BUFFER_SIZE_MAX in Hmax.
  pose proof (zlen_nonneg (contents b)) as Hnn. rewrite ssh_buffer_get_len_contents by done.
  destruct (ssh_buffer_get b) as [d|] eqn:E; [|by exists (-1), copy].
  assert (Hd : zlen (contents b) <= zlen d).
  { destruct (decide (contents b = [])) as [->|Hne]; [apply zlen_nonneg|].
    destruct (buffer_view b Hb Hne) as (d' & Hg & Ht). rewrite Hg in E. injection E as ->.
    rewrite ssh_buffer_get_len_contents in Ht by done. rewrite <- Ht at 1. zlen_lia. }
  destruct (add_data_spec copy d (zlen (contents b)) Hwf) as (rc & copy' & -> & Hwf' & _); [lia|done|]. by exists rc, copy'.
Qed.

Lemma evolves_packet s type b : sftp_wf s -> buffer_wf b -> evolves s (set_packet (mk_packet type (Some b)) s).
Proof.
  intros [Hok Hp Hq Hid] Hwf. constructor; try done. constructor; [done| |done|done].
  eexists. split; [reflexivity|]. by intros b' [= <-].
Qed.

Lemma evolves_took d s s' : sftp_wf s -> took d s s' -> has_packet s' -> evolves s s'.
Proof.
  intros [] [[] Hq Hok Hin Hout Hlag] Hp. constructor; try done.
  - constructor; [done|done|unfold queue_wf; by rewrite Hq|congruence].
  - unfold patience. rewrite Hin, length_app. lia.
Qed.

Variable fuel : nat.

Lemma get_client_message_safe s : sftp_wf s -> (patience s < fuel)%nat ->
  safe (option_wf client_message_wf) s (sftp_get_client_message fuel s).
Proof.
  intros Hs Hf. unfold sftp_get_client_message. destruct (negb (alloc _)); [by apply safe_here; [apply evolves_refl|]|].
  destruct (packet_read_spec fuel s (sw_ok s Hs) (sw_packet s Hs) Hf) as (ok & d & s1 & -> & Ht & Hp & Hdone & _). cbn [mbind option_bind].
  pose proof (evolves_took _ _ _ Hs Ht Hp) as He. eapply safe_after; [exact He|]. pose proof (ev_wf _ _ He) as Hs1.
  destruct ok; cbn [negb]; [|by apply safe_here; [apply evolves_refl|]].
  destruct (Hdone eq_refl) as (type & b & -> & Hwf & _). cbn [mbind option_bind pk_payload pk_type].
  destruct ssh_buffer_new_spec as (o & -> & Ho). cbn [mbind option_bind].
  destruct o as [copy|]; [|by apply safe_here; [apply evolves_refl|]]. destruct (Ho copy eq_refl) as (Hcopy & _).
  destruct (copy_payload_safe copy b Hcopy Hwf) as (rc & copy' & -> & Hcopy'). cbn [mbind option_bind].
  destruct (rc <? 0); [by apply safe_here; [apply evolves_refl|]|].
  unfold ssh_buffer_get_u32. destruct (get_int_spec 4 b Hwf) as (b1 & -> & Hwf1 & _); [lia|].
  assert (Hread : forall (rc : Z) (id : option Z), safe (option_wf client_message_wf) s1
    ('(_, id, payload) ← Some (rc, id, b1); '(o, payload, s) ← read_request type payload s1;
     Some (option_map (fun r => mk_client_message type (default 0 id) (r_filename r) (r_flags r) (r_attr r) (r_handle r)
       (r_offset r) (r_len r) 0 None (r_data r) (Some copy') None (r_submessage r)) o, set_packet (mk_packet type (Some payload)) s))).
  { intros rc' id. cbn [mbind option_bind]. destruct (read_request_safe type b1 s1 Hwf1 Hs1) as (r & b2 & s2 & -> & Hwf2 & He2 & Hr).
    cbn [mbind option_bind]. apply safe_here; [eapply evolves_trans; [exact He2|apply evolves_packet; [apply He2|done]]|].
    destruct r as [r|]; [|done]. intros m [= <-]. destruct (Hr r eq_refl) as (? & ? & ? & ? & ?). split_and!; try done. by exists copy'. }
  destruct (_ <=? _); cbn [mbind option_bind] in Hread |- *; apply Hread; exact 0.
Qed.

(** (C12) A server reads any request safely: whatever bytes a client sends, in whatever pieces, and
    with any sizes refused by [malloc], [sftp_get_client_message] returns (with as much fuel as there is to
    read), accesses only what it owns and leaves the session well formed; the names of the
    message it gives have an end, its strings, attributes and copy are well formed. *)
Theorem requests_are_read_safely s : sftp_wf s -> (patience s < fuel)%nat ->
  exists o s', sftp_get_client_message fuel s = Some (o, s') /\ sftp_wf s' /\ (patience s' <= patience s)%nat
    /\ forall m, o = Some m -> client_message_wf m.
Proof. intros Hs Hf. destruct (get_client_message_safe s Hs Hf) as (o & s' & He & [] & Ho). by exists o, s'. Qed.

(** ** Replies *)

(** A part of a reply that appends [q] or fails; with memory and room it succeeds. *)
Definition builds (q : bytes) (k : ssh_buffer -> run (Z * ssh_buffer)) : Prop :=
  forall b, buffer_wf b -> packs_to (contents b ++ q) (b_used b + zlen q) (k b).

Lemma builds_eq q q' k : builds q k -> q = q' -> builds q' k.
Proof. by intros ? <-. Qed.

Lemma builds_then q1 q2 k1 k2 : builds q1 k1 -> builds q2 k2 -> builds (q1 ++ q2) (fun b => and_then (k1 b) k2).
Proof.
  intros H1' H2' b Hwf. destruct (H1' b Hwf) as (rc & b1 & -> & Hwf1 & Hres & Hmem). unfold and_then. cbn [mbind option_bind].
  pose proof (zlen_nonneg q2) as Hn2. rewrite zlen_app. destruct Hres as [[-> Hc]| ->].
  - change (SSH_OK <? 0) with false. cbv iota. destruct (H2' b1 Hwf1) as (rc & b2 & -> & Hwf2 & Hres2 & Hmem2). do 2 eexists.
    split_and!; [done|done|by rewrite app_assoc, <- Hc|]. intros Hm Hu. destruct (Hmem Hm) as [_ Hu1]; [lia|].
    destruct (Hmem2 Hm) as [-> ?]; [lia|]. split; [done|lia].
  - change (-1 <? 0) with true. cbv iota. do 2 eexists. split_and!; [done|done|by right|]. intros Hm Hu. by destruct (Hmem Hm) as [? _]; [lia|].
Qed.

Lemma builds_u32 v : builds (le_bytes 4 v) (fun b => ssh_buffer_add_u32 b v).
Proof.
  intros b Hwf. unfold ssh_buffer_add_u32. destruct (add_int_spec 4 b v Hwf) as (rc & b' & Hadd & Hwf' & _ & Hres); [lia|]. do 2 eexists.
  split_and!; [exact Hadd|done|destruct Hres as [[-> ?]|[-> _]]; [by left|by right]|]. intros Hm Hu. change (zlen (le_bytes 4 v)) with 4 in *.
  destruct (add_int_ok 4 b v Hm Hwf) as (b2 & He & _ & ? & _); [lia|lia|]. rewrite Hadd in He. injection He as -> ->. split; [done|lia].
Qed.

Lemma builds_be v : builds (be_bytes 4 v) (fun b => ssh_buffer_add_u32 b (htonl v)).
Proof. eapply builds_eq; [apply builds_u32|apply le_bytes_htonl]. Qed.

Lemma builds_string x : string_wf x -> builds (lv (string_text x)) (fun b => ssh_buffer_add_ssh_string b (Some x)).
Proof.
  intros Hx b Hwf. destruct (add_ssh_string_spec b x Hwf Hx) as (rc & b' & Hadd & Hwf' & _ & Hres). do 2 eexists.
  split_and!; [exact Hadd|done|destruct Hres as [[-> ?]|[-> _]]; [by left|by right]|]. rewrite zlen_lv. intros Hm Hu.
  destruct (add_ssh_string_ok b x Hm Hwf Hx) as (b2 & He & _ & ? & _); [lia|]. rewrite Hadd in He. injection He as -> ->. split; [done|lia].
Qed.

Lemma builds_data d len : 0 <= len < 2 ^ 32 -> len <= zlen d -> builds (ztake len d) (fun b => add_data b (Some d) len).
Proof.
  intros Hlen Hd b Hwf. destruct (add_data_spec b d len Hwf Hlen Hd) as (rc & b' & Hadd & Hwf' & _ & Hres). do 2 eexists.
  split_and!; [exact Hadd|done|destruct Hres as [[-> ?]|[-> _]]; [by left|by right]|]. intros Hm Hu.
  assert (Hz : zlen (ztake len d) = len) by zlen_lia. rewrite Hz in *.
  destruct (add_data_ok b d len Hm Hwf) as (b2 & He & _ & ? & _); [lia|lia|]. rewrite Hadd in He. injection He as -> ->. split; [done|lia].
Qed.

Lemma builds_attr a : builds (attr_bytes a) (fun b => buffer_add_attributes b a).
Proof. intros b Hwf. by apply add_attributes_spec. Qed.

(** A text that is made a string for the reply. *)
Lemma builds_text t q (k : ssh_string -> ssh_buffer -> run (Z * ssh_buffer)) : zlen t <= zlen q ->
  (forall x, string_wf x -> string_text x = t -> builds q (k x)) ->
  builds q (fun b => o ← ssh_string_from_char (Some t); match o with None => Some (-1, b) | Some x => k x b end).
Proof.
  intros Ht Hk b Hwf. pose proof Hwf as [[Hp0 Hp] _ _ _]. destruct (ssh_string_from_char (Some t)) as [[x|]|] eqn:E; cbn [mbind option_bind].
  - apply ssh_string_from_char_text in E as [Hx Hxt]. by apply Hk.
  - do 2 eexists. split_and!; [done|done|by right|]. intros Hm Hu. exfalso.
    destruct (ssh_string_from_char_ok t Hm) as (x & Hx & _); [lia|]. by rewrite E in Hx.
  - by apply ssh_string_from_char_runs in E.
Qed.

Lemma reply_spec type q make s : ch_ok (channel s) -> builds q make ->
  exists rc s', reply type make s = Some (rc, s') /\ (rc = 0 /\ wrote (frame type q) s s' \/ rc = -1 /\ wrote [] s s')
    /\ (malloc_succeeds -> zlen q + 5 < BUFFER_SIZE_MAX -> rc = 0).
Proof.
  intros Hok Hmake. assert (Hno : wrote [] s s) by (constructor; (done || by rewrite app_nil_r || apply kept_refl)).
  unfold reply. destruct (ssh_buffer_new) as [[out|]|] eqn:Hnew; cbn [mbind option_bind].
  3: { destruct ssh_buffer_new_spec as (o & He & _). by rewrite Hnew in He. }
  2: { do 2 eexists. split_and!; [done|by right|]. intros Hm _. destruct (ssh_buffer_new_ok Hm) as (b & He & _). by rewrite Hnew in He. }
  assert (Hout : buffer_wf out /\ contents out = [] /\ (malloc_succeeds -> b_used out = 0)).
  { destruct ssh_buffer_new_spec as (o & He & Ho). rewrite Hnew in He. injection He as <-. destruct (Ho out eq_refl) as (? & ? & _). split_and!; [done..|].
    intros Hm. destruct (ssh_buffer_new_ok Hm) as (b & He & _ & _ & Hu). rewrite Hnew in He. by injection He as ->. }
  destruct Hout as (Hwf & Hc & Hu). destruct (Hmake out Hwf) as (rc & b & -> & Hwfb & Hres & Hmem). cbn [mbind option_bind].
  destruct Hres as [[-> Hcb]| ->].
  - change (SSH_OK <? 0) with false. cbv iota. rewrite Hc in Hcb. cbn [app] in Hcb.
    destruct (packet_write_spec type b s Hok Hwfb) as (n & b' & s' & -> & Hw & Hn). cbn [mbind option_bind]. rewrite Hcb in Hw.
    do 2 eexists. split; [done|]. split.
    + destruct Hw as [[Hneg Hw]|(-> & Hw & _)]; [right; by rewrite (proj2 (Z.ltb_lt n 0))|left].
      rewrite (proj2 (Z.ltb_ge _ _)) by (rewrite zlen_sftp_frame; zlen_lia). done.
    + intros Hm Hroom. rewrite (Hu Hm) in Hmem. destruct (Hmem Hm) as [_ Hub]; [lia|]. rewrite (proj2 (Z.ltb_ge _ _)); [done|].
      apply Hn; [done|lia].
  - change (-1 <? 0) with true. cbv iota. do 2 eexists. split_and!; [done|by right|]. intros Hm Hroom. rewrite (Hu Hm) in Hmem.
    by destruct (Hmem Hm) as [? _]; [lia|].
Qed.

(** The bodies of the replies, behind the number of the message. *)
Definition number m : bytes := le_bytes 4 (c_id m).

Lemma reply_data_builds m d : zlen d < 2 ^ 31 ->
  builds (number m ++ lv d) (fun out => and_then (ssh_buffer_add_u32 out (c_id m)) (fun out =>
    and_then (ssh_buffer_add_u32 out (ntohl (zlen d))) (fun out => add_data out (Some d) (u32 (zlen d))))).
Proof.
  intros Hd. pose proof (zlen_nonneg d). apply builds_then; [apply builds_u32|]. apply (builds_then (be_bytes 4 (zlen d)) d).
  - apply builds_be.
  - rewrite u32_small by lia. eapply builds_eq; [by apply (builds_data d (zlen d)); [lia|]|]. by apply ztake_all.
Qed.

Lemma reply_status_builds m status t : builds (number m ++ be_bytes 4 status ++ lv t ++ be_bytes 4 0)
  (fun out => x ← ssh_string_from_char (Some t);
    match x with
    | None => Some (-1, out)
    | Some x =>
        and_then (ssh_buffer_add_u32 out (c_id m)) (fun out =>
        and_then (ssh_buffer_add_u32 out (htonl status)) (fun out =>
        and_then (ssh_buffer_add_ssh_string out (Some x)) (fun out => ssh_buffer_add_u32 out 0)))
    end).
Proof.
  apply builds_text; [rewrite !zlen_app, zlen_lv; pose proof (zlen_nonneg (number m)); zlen_lia|]. intros x Hx <-. apply builds_then; [apply builds_u32|]. apply builds_then; [apply builds_be|].
  apply builds_then; [by apply builds_string|apply builds_u32].
Qed.

Lemma reply_handle_builds m x : string_wf x ->
  builds (number m ++ lv (string_text x)) (fun out => and_then (ssh_buffer_add_u32 out (c_id m)) (fun out => ssh_buffer_add_ssh_string out (Some x))).
Proof. intros Hx. apply builds_then; [apply builds_u32|by apply builds_string]. Qed.

Lemma reply_attr_builds m a :
  builds (number m ++ attr_bytes a) (fun out => and_then (ssh_buffer_add_u32 out (c_id m)) (fun out => buffer_add_attributes out a)).
Proof. apply builds_then; [apply builds_u32|apply builds_attr]. Qed.

End Requests.

(** Witness: a request to write whose data is cut short. *)
Definition cut_request : bytes := be_bytes 4 30 ++ z2b SSH_FXP_WRITE :: be_bytes 4 7 ++ lv (cstr "h") ++ be_bytes 8 5 ++ be_bytes 4 100 ++ cstr "short".

Lemma requests_are_read_safely_witness :
  exists o s', @sftp_get_client_message calloc_allocator N_bignum _ _ 60 (pipe_session 3 0 [ztake 2 cut_request; []; zdrop 2 cut_request] None None) = Some (o, s')
    /\ @sftp_wf _ _ pipe_stream s' /\ (@patience _ _ pipe_stream s' <= 32)%nat /\ forall m, o = Some m -> client_message_wf m.
Proof.
  apply (@requests_are_read_safely calloc_allocator N_bignum _ _ pipe_stream 60 (pipe_session 3 0 [ztake 2 cut_request; []; zdrop 2 cut_request] None None));
    [|apply Nat.ltb_lt; reflexivity].
  constructor; [exact I|eexists; split; [reflexivity|intros b Hb; discriminate Hb]|by constructor|done].
Defined.
