(* ===== verification/SftpLink.v ===== *)
(** * SFTP: a client and a server

    The two sides of the model together: the bytes of a request of the client are what the server
    reads, its reply is what the client returns, whatever the pieces they arrive in and with
    the replies to other requests in between. *)

From stdpp Require Import gmap.
From S2P Require Import Prelude SshString Buffer Bignum BufferPack Token Session Packet Kex Channel.
From S2P Require Import Sftp SftpClient SftpServer SftpFrame SftpDispatch SftpAttr SftpSafe SftpRequests.

Section Link.
Context `{Allocator} `{BignumLib} {Ch : Type} `{ChannelStream Ch}.
#[local] Abbreviation sftp := (sftp_session Ch).
Implicit Type s : sftp.
Variable fuel : nat.
Hypothesis memory : memory_ok.

(** ** The request on the wire *)

(** The fields of a request: they fit. *)
Record request_ok (fs : list (@field _)) : Prop := {
  rq_ready : Forall field_ready fs;
  rq_few : zlen (fields_args fs) <= 200;
  rq_room : fields_room fs < 2 ^ 17;
  rq_small : zlen (fields_encode fs) < 2 ^ 17
}.

Definition request_body (id : Z) (fs : list field) : bytes := be_bytes 4 id ++ fields_encode fs.
Definition request_bytes (type id : Z) (fs : list field) : bytes := frame type (request_body id fs).

Lemma packed_request id fs (fmt : string) args : request_ok fs -> cstr fmt = fields_format (FDword id :: fs) ->
  args = fields_args (FDword id :: fs) ->
  exists b b', ssh_buffer_new = Some (Some b) /\ ssh_buffer_pack b (cstr fmt) args = Some (SSH_OK, b')
    /\ buffer_wf b' /\ contents b' = request_body id fs /\ b_used b' <= 4 + zlen (fields_encode fs).
Proof.
  intros [Hr Hn Hroom Hsmall] Hf ->. destruct memory as [Hm _]. destruct (ssh_buffer_new_ok Hm) as (b & Hb & Hwf & Hc & Hu).
  change (fields_encode (FDword id :: fs)) with (request_body id fs).
  destruct (pack_fields_ok b (FDword id :: fs) Hm Hwf) as (b' & Hp & Hwf' & Hu' & Hc').
  - by constructor.
  - done.
  - change (fields_args (FDword id :: fs)) with (VInt id :: fields_args fs). rewrite zlen_cons. lia.
  - rewrite fields_room_cons. change (field_room (FDword id)) with 4. unfold BUFFER_SIZE_MAX. lia.
  - change (fields_encode (FDword id :: fs)) with (request_body id fs). unfold request_body, BUFFER_SIZE_MAX. zlen_lia.
  - change (fields_encode (FDword id :: fs)) with (request_body id fs) in *. exists b, b'. rewrite Hf. split_and!; [done|exact Hp|done|by rewrite Hc', Hc|].
    unfold request_body in Hu'. autorewrite with zlist in Hu'. change (Z.of_nat 4) with 4 in Hu'. lia.
Qed.

Lemma sent_request type id fs b s : request_ok fs -> ch_ok (channel s) -> buffer_wf b -> contents b = request_body id fs ->
  b_used b <= 4 + zlen (fields_encode fs) ->
  exists b' s', sftp_packet_write type b s = Some (zlen (request_bytes type id fs), b', s')
    /\ wrote (request_bytes type id fs) s s' /\ errnum s' = errnum s.
Proof.
  intros [_ _ _ Hsmall] Hok Hwf Hc Hu. destruct (packet_write_spec type b s Hok Hwf) as (n & b' & s' & -> & Hres & Hn).
  destruct Hres as [[Hneg _]|(-> & Hw & He)].
  - destruct memory as [Hm _]. specialize (Hn Hm). unfold BUFFER_SIZE_MAX in Hn. lia.
  - unfold request_bytes. rewrite <- Hc. by exists b', s'.
Qed.

(** What the peer will send: replies to others, then this one. *)
Record answered s (id : Z) (others : list (Z * Z * bytes)) (type : Z) (body rest : bytes) : Prop := {
  an_queue : Forall (fun m => m_id m <> id) (queue s);
  an_others : Forall (other id) others;
  an_few : (length others < fuel)%nat;
  an_ok : reply_ok (type, id, body);
  an_in : incoming (channel s) = concat (map reply_bytes others) ++ reply_bytes (type, id, body) ++ rest
}.

(** After the exchange. *)
Record exchanged s s' (w rest : bytes) : Prop := {
  ex_wf : sftp_wf s';
  ex_in : incoming (channel s') = rest;
  ex_out : outgoing (channel s') = outgoing (channel s) ++ w
}.

Lemma wait_answer s s0 w id others type body rest : sftp_wf s -> (patience s < fuel)%nat -> wrote w s s0 ->
  answered s id others type body rest ->
  exists m s', wait_reply fuel fuel false id s0 = Some (Got m, s') /\ message_holds m type id body /\ exchanged s s' w rest
    /\ version s' = version s.
Proof.
  intros Hs Hf Hw [Hq Ho Hfew Hok Hin]. pose proof (evolves_wrote _ _ _ Hs Hw) as [Hs0 Hv0 _ _ _ Hp0]. destruct Hw as [_ Hq0 _ _ Hin0 Hout0 _].
  destruct (wait_reply_found fuel fuel s0 others type id body rest memory (sw_ok _ Hs0) (sw_packet _ Hs0)) as (m & ms & s' & He & Hrec & _ & Hm & Hqs & Hms);
    [lia|done|by rewrite Hq0|done|done|by rewrite Hin0|].
  exists m, s'. split_and!; [done|done| |by rewrite (kp_version _ _ (rv_kept _ _ _ Hrec))]. constructor.
  - constructor; [apply Hrec|apply Hrec| |rewrite (kp_id _ _ (rv_kept _ _ _ Hrec)); apply Hs0]. unfold queue_wf. rewrite Hqs. apply Forall_app. split; [apply Hs0|].
    apply Forall_forall. intros x Hx. apply list_elem_of_lookup in Hx as (i & Hx). destruct (Forall2_lookup_l _ _ _ _ _ Hms Hx) as ([[t i'] bo] & Hr & Hh).
    exists t, i', bo. split; [done|]. by destruct (proj1 (Forall_lookup _ _) Ho _ _ Hr) as [[? _] _].
  - pose proof (rv_in _ _ _ Hrec) as Hi. rewrite Hin0, Hin, app_assoc in Hi. by apply app_inv_head in Hi.
  - by rewrite (rv_out _ _ _ Hrec), Hout0.
Qed.

(** ** The client *)

(** The number of the next request. *)
Definition next_id s : Z := (sftp_get_new_id s).1.

Lemma answered_new_id s id others type body rest : answered s id others type body rest ->
  answered (sftp_get_new_id s).2 id others type body rest.
Proof. by intros []. Qed.

Lemma exchanged_new_id s s' w rest : exchanged (sftp_get_new_id s).2 s' w rest -> exchanged s s' w rest.
Proof. by intros []. Qed.

Section Asks.
Context {R : Type}.

(** A request and its answer: all of the function that is left is what it does with the reply. *)
Lemma asks s type fs (fmt : string) args others rtype body rest (fail : R) (k : sftp_message -> sftp -> run (R * sftp)) :
  sftp_wf s -> (patience s < fuel)%nat -> request_ok fs -> (forall id, cstr fmt = fields_format (FDword id :: fs)) ->
  (forall id, args id = fields_args (FDword id :: fs)) -> answered s (next_id s) others rtype body rest ->
  exists m s', message_holds m rtype (next_id s) body /\ exchanged s s' (request_bytes type (next_id s) fs) rest /\ version s' = version s
    /\ new_request fail s (fun id b s => or_failure (ssh_buffer_pack b (cstr fmt) (args id)) fail s (fun b => exchange fuel type id fail b s k)) = k m s'.
Proof.
  intros Hs Hf Hfs Hfmt Hargs Hans. set (s1 := (sftp_get_new_id s).2). pose proof (evolves_new_id s Hs) as He.
  destruct (packed_request (next_id s) fs fmt (args (next_id s)) Hfs (Hfmt _) (Hargs _)) as (b & b' & Hb & Hp & Hwf & Hc & Hu).
  unfold new_request. rewrite Hb. cbn [mbind option_bind sftp_get_new_id]. change (u32 (id_counter s + 1)) with (next_id s). change (set_id_counter (next_id s) s) with s1. unfold or_failure. rewrite Hp. cbn [mbind option_bind].
  change (negb (SSH_OK =? SSH_OK)) with false. cbv iota. unfold exchange.
  destruct (sent_request type (next_id s) fs b' s1 Hfs) as (b2 & s2 & -> & Hw & _); [apply He|done..|]. cbn [mbind option_bind].
  rewrite (proj2 (Z.ltb_ge _ _)) by zlen_lia.
  destruct (wait_answer s1 s2 _ _ _ _ _ _ (ev_wf _ _ He) ltac:(by eapply fuel_left) Hw (answered_new_id _ _ _ _ _ _ Hans))
    as (m & s3 & -> & Hm & Hx & Hv). cbn [mbind option_bind].
  exists m, s3. split_and!; [done|by apply exchanged_new_id|done|done].
Qed.
End Asks.

(** A file the client has open, for reading or writing at its offset. *)
Record open_file (f : sftp_file) (h : ssh_string) : Prop := {
  of_handle : f_handle f = Some h;
  of_wf : string_wf h;
  of_small : zlen (string_text h) <= 256;
  of_eof : f_eof f = 0;
  of_blocking : f_nonblocking f = 0
}.

Definition read_fields (f : sftp_file) (h : ssh_string) (count : Z) : list (@field _) := [FString h; FQword (f_offset f); FDword count].
Definition write_fields (f : sftp_file) (h : ssh_string) (d : bytes) : list (@field _) := [FString h; FQword (f_offset f); FDword (zlen d); FData d].

Lemma read_fields_ok f h count : open_file f h -> request_ok (read_fields f h count).
Proof.
  intros [_ Hwf Hsmall _ _]. constructor; [by repeat constructor|done| |].
  - unfold fields_room. cbn -[lv Z.add zlen]. rewrite zlen_lv. change (zlen (be_bytes 8 (f_offset f))) with 8. change (zlen (be_bytes 4 count)) with 4. lia.
  - unfold fields_encode. cbn -[lv Z.add zlen be_bytes app]. rewrite !zlen_app, zlen_lv. change (zlen (be_bytes 8 (f_offset f))) with 8.
    change (zlen (be_bytes 4 count)) with 4. change (zlen (@nil Byte.byte)) with 0. lia.
Qed.

Lemma data_reply_ok m id d size f moved s : message_holds m SSH_FXP_DATA id (lv d) -> zlen d <= size ->
  data_reply m size f moved s = Some (zlen d, d, set_offset (moved (zlen d)) f, s).
Proof.
  intros [_ _ (b & Hb & Hwf & Hc)] Hsize. unfold data_reply. rewrite Hb. cbn [mbind option_bind]. destruct memory as [Hm _].
  destruct (get_ssh_string_lv Hm b d [] Hwf) as (x & b' & -> & _ & _ & _ & Hx & Hxt); [by rewrite app_nil_r|]. cbn [mbind option_bind].
  pose proof (string_text_zlen x Hx) as Hl. rewrite Hxt in Hl. rewrite <- Hl at 1. rewrite (proj2 (Z.ltb_ge _ _)) by lia.
  rewrite copy_string_spec, Hxt, <- Hl by done. done.
Qed.

Lemma client_reads s f h count d others rest : sftp_wf s -> (patience s < fuel)%nat -> open_file f h -> zlen d <= count ->
  answered s (next_id s) others SSH_FXP_DATA (lv d) rest ->
  exists s', sftp_read fuel f count s = Some (zlen d, d, set_offset (u64 (f_offset f + zlen d)) f, s')
    /\ exchanged s s' (request_bytes SSH_FXP_READ (next_id s) (read_fields f h count)) rest.
Proof.
  intros Hs Hf Hfile Hcount Hans. pose proof (read_fields_ok f h count Hfile) as Hfs. destruct Hfile as [Hh Hwfh _ Heof Hblock].
  set (s1 := (sftp_get_new_id s).2). pose proof (evolves_new_id s Hs) as He. fold s1 in He.
  unfold sftp_read. rewrite Heof, Hblock, Hh. change (negb (0 =? 0)) with false. cbv iota.
  destruct (packed_request (next_id s) (read_fields f h count) "dSqd" [VInt (next_id s); VString (Some h); VInt (f_offset f); VInt count] Hfs)
    as (b & b' & Hb & Hp & Hwf & Hc & Hu); [done..|].
  unfold new_request_quiet. rewrite Hb. cbn [mbind option_bind sftp_get_new_id]. change (u32 (id_counter s + 1)) with (next_id s). change (set_id_counter (next_id s) s) with s1.
  unfold or_failure. rewrite Hp. cbn [mbind option_bind]. change (negb (SSH_OK =? SSH_OK)) with false. cbv iota.
  destruct (sent_request SSH_FXP_READ (next_id s) _ b' s1 Hfs) as (b2 & s2 & -> & Hw & _); [apply He|done..|]. cbn [mbind option_bind].
  rewrite (proj2 (Z.ltb_ge _ _)) by zlen_lia.
  destruct (wait_answer s1 s2 _ _ _ _ _ _ (ev_wf _ _ He) ltac:(by eapply fuel_left) Hw (answered_new_id _ _ _ _ _ _ Hans))
    as (m & s3 & -> & Hm & Hx & Hv). cbn [mbind option_bind]. rewrite (mh_type _ _ _ _ Hm). change (SSH_FXP_DATA =? SSH_FXP_STATUS) with false.
  change (SSH_FXP_DATA =? SSH_FXP_DATA) with true. cbv iota. rewrite (data_reply_ok m _ d) by done.
  exists s3. split; [done|by apply exchanged_new_id].
Qed.

(** ** The server *)

(** The message of a request. *)
Definition message_of (type id : Z) (rf : request_fields) (copy : ssh_buffer) : sftp_client_message :=
  mk_client_message type (le_val (be_bytes 4 id)) (r_filename rf) (r_flags rf) (r_attr rf) (r_handle rf) (r_offset rf) (r_len rf)
    0 None (r_data rf) (Some copy) None (r_submessage rf).

Lemma number_message type id rf copy : number (message_of type id rf copy) = be_bytes 4 id.
Proof. exact (le_bytes_val (be_bytes 4 id)). Qed.

Lemma copy_payload_ok copy b : buffer_wf copy -> buffer_wf b -> contents copy = [] -> b_used copy = 0 -> contents b <> [] ->
  zlen (contents b) < SFTP_PACKET_SIZE_MAX ->
  exists copy', add_data copy (ssh_buffer_get b) (ssh_buffer_get_len b) = Some (0, copy') /\ buffer_wf copy' /\ contents copy' = contents b.
Proof.
  intros Hwf Hb Hc Hu Hne Hmax. destruct memory as [Hm _]. destruct (buffer_view b Hb Hne) as (d & -> & Hd).
  pose proof (zlen_nonneg (contents b)). unfold SFTP_PACKET_SIZE_MAX in Hmax. rewrite ssh_buffer_get_len_contents in * by done.
  assert (Hdl : zlen (contents b) <= zlen d) by (rewrite <- Hd at 1; zlen_lia).
  destruct (add_data_ok copy d (zlen (contents b)) Hm Hwf) as (c & -> & Hwfc & _ & Hcc); [lia|rewrite Hu; unfold BUFFER_SIZE_MAX; lia|].
  exists c. by rewrite Hcc, Hc, Hd.
Qed.

Lemma serves s type id body more (P : request_fields -> Prop) : sftp_wf s -> (patience s < fuel)%nat -> 0 <= type < 256 ->
  zlen body + 4 < SFTP_PACKET_SIZE_MAX -> incoming (channel s) = frame type (be_bytes 4 id ++ body) ++ more ->
  (forall b s1, buffer_wf b -> contents b = body -> version s1 = version s ->
     exists rf b', read_request type b s1 = Some (Some rf, b', s1) /\ buffer_wf b' /\ P rf) ->
  exists rf copy s', sftp_get_client_message fuel s = Some (Some (message_of type id rf copy), s') /\ P rf /\ evolves s s'
    /\ incoming (channel s') = more /\ outgoing (channel s') = outgoing (channel s)
    /\ buffer_wf copy /\ contents copy = be_bytes 4 id ++ body.
Proof.
  intros Hs Hf Htype Hsmall Hin Hread. unfold sftp_get_client_message, alloc. destruct memory as [Hm _].
  destruct (malloc sizeof_sftp_client_message) eqn:Hal; [|by apply Hm in Hal]. cbn [some negb].
  destruct (packet_read_spec fuel s (sw_ok s Hs) (sw_packet s Hs) Hf) as (ok & d & s1 & -> & Ht & Hp & Hdone & Hall). cbn [mbind option_bind].
  pose proof (evolves_took _ _ _ Hs Ht Hp) as He. assert (Hl : zlen (be_bytes 4 id ++ body) < SFTP_PACKET_SIZE_MAX) by zlen_lia.
  assert (ok = true) as -> by (by eapply (Hall Hm)). cbn [negb]. destruct (Hdone eq_refl) as (type' & b & -> & Hwf & Htype' & -> & Hbl & _).
  pose proof (tk_in _ _ _ Ht) as Hin1. rewrite Hin in Hin1. unfold SFTP_PACKET_SIZE_MAX in Hbl, Hl.
  apply frame_inj in Hin1 as (<- & Hcb & Hmore); [|done|done|lia|lia]. cbn [mbind option_bind pk_payload pk_type].
  destruct (ssh_buffer_new_ok Hm) as (copy & -> & Hcopy & Hcc & Hcu). cbn [mbind option_bind].
  destruct (copy_payload_ok copy b Hcopy Hwf Hcc Hcu) as (copy' & -> & Hcopy' & Hcc'); [by rewrite <- Hcb|done|].
  cbn [mbind option_bind]. change (0 <? 0) with false. cbv iota. unfold ssh_buffer_get_u32.
  destruct (get_int_prefix 4 b (be_bytes 4 id) body Hwf) as (b1 & -> & Hwf1 & _ & Hc1); [lia|by rewrite <- Hcb|done|]. cbn [mbind option_bind].
  destruct (Hread b1 s1 Hwf1 Hc1) as (rf & b2 & -> & Hwf2 & Hrf); [apply He|]. cbn [mbind option_bind option_map default from_option Datatypes.id].
  pose proof (evolves_packet s1 type b2 (ev_wf _ _ He) Hwf2) as He2.
  exists rf, copy'. eexists. split_and!; [reflexivity|done|by eapply evolves_trans|by rewrite Hmore|cbn; apply Ht|done|by rewrite Hcc'].
Qed.

(** What the server has to send back, and after it is sent. *)
Record replied s s' (type id : Z) (body : bytes) : Prop := {
  re_wf : sftp_wf s';
  re_in : incoming (channel s') = incoming (channel s);
  re_out : outgoing (channel s') = outgoing (channel s) ++ reply_bytes (type, id, body)
}.

Lemma replies type id body make s : sftp_wf s -> builds (reply_body id body) make -> zlen body < 2 ^ 18 ->
  exists s', reply type make s = Some (0, s') /\ replied s s' type id body.
Proof.
  intros Hs Hmake Hsmall. destruct memory as [Hm _].
  destruct (reply_spec type _ make s (sw_ok s Hs) Hmake) as (rc & s' & -> & Hres & Hrc).
  assert (rc = 0) as -> by (apply Hrc; [done|unfold reply_body, BUFFER_SIZE_MAX; zlen_lia]). exists s'. split; [done|].
  destruct Hres as [[_ Hw]|[? _]]; [|done]. pose proof (evolves_wrote _ _ _ Hs Hw) as [Hwf _ _ _ _ _].
  constructor; [done|apply Hw|apply Hw].
Qed.

(** *** Reading at an offset *)

(** What the message of a read must have. *)
Record asks_read (f : sftp_file) (h : ssh_string) (count : Z) (rf : request_fields) : Prop := {
  ar_handle : exists x, r_handle rf = Some x /\ string_wf x /\ string_text x = string_text h;
  ar_offset : r_offset rf = f_offset f;
  ar_len : r_len rf = count
}.

Lemma server_parses_read f h count b s : open_file f h -> 0 <= f_offset f < 2 ^ 64 -> 0 <= count < 2 ^ 32 -> buffer_wf b ->
  contents b = fields_encode (read_fields f h count) ->
  exists rf b', read_request SSH_FXP_READ b s = Some (Some rf, b', s) /\ buffer_wf b' /\ asks_read f h count rf.
Proof.
  intros Hfile Hoff Hcount Hwf Hc. pose proof (of_wf _ _ Hfile) as Hh. change (read_request SSH_FXP_READ b s) with
    (read_slots "Sqd" [UPtr; UPtr; UPtr] (fun os => done (mk_fields None 0 None (string_slot os 0) (int_slot os 1 0) (int_slot os 2 0) None None)) b s).
  unfold read_slots. destruct (unpack_front b "Sqd" [UPtr; UPtr; UPtr] (read_fields f h count) [] memory Hwf) as (os & b' & -> & Hos & Hwf' & _);
    [by rewrite app_nil_r|done..|by repeat constructor|done|by repeat constructor|done|]. cbn [mbind option_bind].
  change (negb (SSH_OK =? SSH_OK)) with false. cbv iota. do 2 eexists. split_and!; [done|done|].
  inversion Hos as [|? o1 ? os1 Ho1 Hos1]; subst. inversion Hos1 as [|? o2 ? os2 Ho2 Hos2]; subst. inversion Hos2 as [|? o3 ? os3 Ho3 Hos3]; subst.
  destruct o1 as [|[x|]| | |]; try done. destruct o2; try done. destruct o3; try done. cbn in Ho2, Ho3. subst. constructor.
  - exists x. split; [done|exact Ho1].
  - unfold int_slot. cbn -[Z.pow]. by apply Z.mod_small.
  - unfold int_slot. cbn -[Z.pow]. by apply Z.mod_small.
Qed.

Lemma read_request_small f h count : open_file f h -> zlen (fields_encode (read_fields f h count)) + 4 < SFTP_PACKET_SIZE_MAX.
Proof. intros Hfile. pose proof (rq_small _ (read_fields_ok f h count Hfile)). unfold SFTP_PACKET_SIZE_MAX. lia. Qed.

(** (C10) Reading a file of the server: the bytes that [sftp_read] sends are a message in which
    the server finds the handle, the offset and the length; the data it replies with is what
    [sftp_read] returns, with the offset moved behind it, whatever pieces it arrives in
    and whichever replies to other requests come first; nothing more is taken from the stream. *)
Theorem remote_read cl f h count d :
  sftp_wf cl -> open_file f h -> 0 <= f_offset f < 2 ^ 64 -> 0 <= count < 2 ^ 32 -> zlen d <= count -> zlen d < 2 ^ 17 ->
  exists w r,
    (forall sv more, sftp_wf sv -> (patience sv < fuel)%nat -> incoming (channel sv) = w ++ more ->
       exists m sv1 sv2 x, sftp_get_client_message fuel sv = Some (Some m, sv1)
         /\ c_type m = SSH_FXP_READ /\ c_handle m = Some x /\ string_text x = string_text h /\ c_offset m = f_offset f /\ c_len m = count
         /\ sftp_reply_data m (Some d) (zlen d) sv1 = Some (0, sv2)
         /\ outgoing (channel sv2) = outgoing (channel sv) ++ r /\ incoming (channel sv2) = more)
    /\ (forall others rest, (patience cl < fuel)%nat -> (length others < fuel)%nat ->
          Forall (fun m => m_id m <> next_id cl) (queue cl) -> Forall (other (next_id cl)) others ->
          incoming (channel cl) = concat (map reply_bytes others) ++ r ++ rest ->
          exists cl', sftp_read fuel f count cl = Some (zlen d, d, set_offset (u64 (f_offset f + zlen d)) f, cl')
            /\ outgoing (channel cl') = outgoing (channel cl) ++ w /\ incoming (channel cl') = rest).
Proof.
  intros Hcl Hfile Hoff Hcount Hd Hsmall. pose proof (u32_range (id_counter cl + 1)) as Hid. change (u32 (id_counter cl + 1)) with (next_id cl) in Hid.
  exists (request_bytes SSH_FXP_READ (next_id cl) (read_fields f h count)), (reply_bytes (SSH_FXP_DATA, next_id cl, lv d)). split.
  - intros sv more Hsv Hf Hin.
    destruct (serves sv SSH_FXP_READ (next_id cl) (fields_encode (read_fields f h count)) more (asks_read f h count) Hsv Hf) as
      (rf & copy & sv1 & He & [(x & Hx & _ & Hxt) Ho Hl] & Hev & Hin1 & Hout1 & _ & _);
      [done|by apply read_request_small|done|intros; by apply server_parses_read|].
    destruct (replies SSH_FXP_DATA (next_id cl) (lv d) (fun out => and_then (ssh_buffer_add_u32 out (le_val (be_bytes 4 (next_id cl)))) (fun out =>
      and_then (ssh_buffer_add_u32 out (ntohl (zlen d))) (fun out => add_data out (Some d) (u32 (zlen d))))) sv1 (ev_wf _ _ Hev)) as (sv2 & Hre & [_ Hi Ho2]).
    { eapply builds_eq; [apply (reply_data_builds (message_of SSH_FXP_READ (next_id cl) rf copy)); lia|by rewrite number_message]. }
    { rewrite zlen_lv. lia. }
    exists (message_of SSH_FXP_READ (next_id cl) rf copy), sv1, sv2, x. split_and!; try done; congruence.
  - intros others rest Hf Hlen Hq Hoth Hin.
    destruct (client_reads cl f h count d others rest Hcl Hf Hfile Hd) as (cl' & He & [_ ? ?]); [|by exists cl'].
    constructor; try done. split_and!; [done|lia|lia|]. rewrite zlen_lv. unfold SFTP_PACKET_SIZE_MAX. lia.
Qed.

(** *** Writing at an offset *)

(** The body of a status. *)
Definition status_body (st : Z) (text : bytes) : bytes := be_bytes 4 st ++ lv text ++ lv [].

Lemma slots_text os t u : Forall2 slot_holds [FCstring t; FCstring u] os -> block_slot os 0 = Some (t ++ [Byte.x00]) /\ block_slot os 1 = Some (u ++ [Byte.x00]).
Proof.
  intros Hos. inversion Hos as [|? o1 ? os1 Ho1 Hos1]; subst. inversion Hos1 as [|? o2 ? os2 Ho2 _]; subst.
  destruct o1; try done. destruct o2; try done.
Qed.

Lemma status_parsed m id st text s : message_holds m SSH_FXP_STATUS id (status_body st text) -> 0 <= st < 2 ^ 32 -> zlen text < 2 ^ 32 ->
  parse_status_msg m s = Some (Some (mk_status id st (text ++ [Byte.x00]) [Byte.x00]), s).
Proof.
  intros [Ht Hi (b & Hb & Hwf & Hc)] Hst Hlen. unfold parse_status_msg, alloc. rewrite Ht, Hb, Z.eqb_refl. cbn [negb].
  destruct (malloc sizeof_sftp_status_message) eqn:Hal; [|destruct memory as [Hm _]; by apply Hm in Hal]. cbn [some negb mbind option_bind].
  destruct (sftp_unpack_dword b Hwf) as (rc & os & fr & b1 & -> & Hwf1 & _ & Hok).
  destruct (Hok memory st (lv text ++ lv []) Hst Hc) as (-> & -> & Hc1). cbn [mbind option_bind]. change (negb (SSH_OK =? SSH_OK)) with false. cbv iota.
  destruct (unpack_front b1 "ss" [UPtr; UPtr] [FCstring text; FCstring []] [] memory Hwf1) as (os2 & b2 & -> & Hos & _ & _);
    [rewrite app_nil_r; exact Hc1|done|done|by repeat constructor|done|by repeat constructor|done|]. cbn [mbind option_bind].
  change (negb (SSH_OK =? SSH_OK)) with false. cbn [andb]. destruct (slots_text _ _ _ Hos) as [-> ->]. cbn [or_text]. by rewrite Hi.
Qed.

Lemma with_status_ok {R} m id st text s (fail : R) k : message_holds m SSH_FXP_STATUS id (status_body st text) -> 0 <= st < 2 ^ 32 -> zlen text < 2 ^ 32 ->
  with_status m fail s k = k st (sftp_set_error st s).
Proof. intros Hm Hst Hlen. unfold with_status. by rewrite (status_parsed m id st text s). Qed.

Lemma write_fields_ok f h d : open_file f h -> zlen d < 2 ^ 16 -> request_ok (write_fields f h d).
Proof.
  intros [_ Hwf Hsmall _ _] Hd. pose proof (zlen_nonneg d). constructor.
  - repeat constructor; [done|]. cbn. lia.
  - done.
  - unfold fields_room. cbn -[lv Z.add zlen be_bytes]. rewrite zlen_lv. change (zlen (be_bytes 8 (f_offset f))) with 8.
    change (zlen (be_bytes 4 (zlen d))) with 4. lia.
  - unfold fields_encode. cbn -[lv Z.add zlen be_bytes app]. rewrite !zlen_app, zlen_lv. change (zlen (be_bytes 8 (f_offset f))) with 8.
    change (zlen (be_bytes 4 (zlen d))) with 4. change (zlen (@nil Byte.byte)) with 0. lia.
Qed.

Lemma client_writes s f h d st text others rest : sftp_wf s -> (patience s < fuel)%nat -> open_file f h -> zlen d < 2 ^ 16 ->
  0 <= st < 2 ^ 32 -> zlen text < 2 ^ 32 -> answered s (next_id s) others SSH_FXP_STATUS (status_body st text) rest ->
  exists s', sftp_write fuel f (Some d) (zlen d) s
      = Some (if st =? SSH_FX_OK then zlen d else -1, set_offset (u64 (f_offset f + zlen d)) f, s')
    /\ errnum s' = st /\ incoming (channel s') = rest
    /\ outgoing (channel s') = outgoing (channel s) ++ request_bytes SSH_FXP_WRITE (next_id s) (write_fields f h d).
Proof.
  intros Hs Hf Hfile Hd Hst Htext Hans. pose proof (write_fields_ok f h d Hfile Hd) as Hfs. destruct Hfile as [Hh _ _ _ _].
  unfold sftp_write. rewrite Hh.
  destruct (asks s SSH_FXP_WRITE (write_fields f h d) "dSqdP"
      (fun id => [VInt id; VString (Some h); VInt (f_offset f); VInt (zlen d); VLen (zlen d); VPtr (Some d)])
      others SSH_FXP_STATUS (status_body st text) rest (-1, f)
      (fun msg s => if m_type msg =? SSH_FXP_STATUS then
         with_status msg (-1, f) s (fun st s => Some (if st =? SSH_FX_OK then zlen d else -1, set_offset (u64 (f_offset f + zlen d)) f, s))
       else bad_message (-1, f) s) Hs Hf Hfs) as (m & s' & Hm & [_ Hi Ho] & _ & ->); [done|done|exact Hans|].
  rewrite (mh_type _ _ _ _ Hm). change (SSH_FXP_STATUS =? SSH_FXP_STATUS) with true. cbv iota.
  rewrite (with_status_ok m _ st text) by done. eexists. by split_and!.
Qed.

(** What the message of a write must have. *)
Record asks_write (f : sftp_file) (h : ssh_string) (d : bytes) (rf : request_fields) : Prop := {
  aw_handle : exists x, r_handle rf = Some x /\ string_text x = string_text h;
  aw_offset : r_offset rf = f_offset f;
  aw_data : exists x, r_data rf = Some x /\ string_text x = d
}.

Lemma server_parses_write f h d b s : open_file f h -> 0 <= f_offset f < 2 ^ 64 -> zlen d < 2 ^ 16 -> buffer_wf b ->
  contents b = fields_encode (write_fields f h d) ->
  exists rf b', read_request SSH_FXP_WRITE b s = Some (Some rf, b', s) /\ buffer_wf b' /\ asks_write f h d rf.
Proof.
  intros Hfile Hoff Hd Hwf Hc. pose proof (of_wf _ _ Hfile) as Hh. change (read_request SSH_FXP_WRITE b s) with
    (read_slots "SqS" [UPtr; UPtr; UPtr] (fun os => done (mk_fields None 0 None (string_slot os 0) (int_slot os 1 0) 0 (string_slot os 2) None)) b s).
  destruct (ssh_string_from_char_ok d (proj1 memory)) as (y & _ & Hy & Hyd); [unfold BUFFER_SIZE_MAX; lia|].
  unfold read_slots. destruct (unpack_front b "SqS" [UPtr; UPtr; UPtr] [FString h; FQword (f_offset f); FString y] [] memory Hwf) as (os & b' & -> & Hos & Hwf' & _);
    [|done..|by repeat constructor|done|by repeat constructor|done|].
  { rewrite app_nil_r, Hc. unfold fields_encode, lv. cbn -[be_bytes lv]. by rewrite Hyd. }
  cbn [mbind option_bind]. change (negb (SSH_OK =? SSH_OK)) with false. cbv iota. do 2 eexists. split_and!; [done|done|].
  inversion Hos as [|? o1 ? os1 Ho1 Hos1]; subst. inversion Hos1 as [|? o2 ? os2 Ho2 Hos2]; subst. inversion Hos2 as [|? o3 ? os3 Ho3 Hos3]; subst.
  destruct o1 as [|[x|]| | |]; try done. destruct o2; try done. destruct o3 as [|[v|]| | |]; try done. cbn in Ho2. subst. constructor.
  - exists x. by destruct Ho1.
  - unfold int_slot. cbn -[Z.pow]. by apply Z.mod_small.
  - exists v. by destruct Ho3.
Qed.

(** Writing a file of the server: the bytes that [sftp_write] sends are a message with the handle, the
    offset and exactly the data; the status the server replies with is the error of the client's
    session and decides what [sftp_write] returns, and its offset moves behind the data. *)
Theorem remote_write cl f h d st text :
  sftp_wf cl -> open_file f h -> 0 <= f_offset f < 2 ^ 64 -> zlen d < 2 ^ 16 -> 0 <= st < 2 ^ 32 -> zlen text < 2 ^ 16 ->
  exists w r,
    (forall sv more, sftp_wf sv -> (patience sv < fuel)%nat -> incoming (channel sv) = w ++ more ->
       exists m sv1 sv2 x y, sftp_get_client_message fuel sv = Some (Some m, sv1)
         /\ c_type m = SSH_FXP_WRITE /\ c_handle m = Some x /\ string_text x = string_text h /\ c_offset m = f_offset f
         /\ c_data m = Some y /\ string_text y = d
         /\ sftp_reply_status m st (Some text) sv1 = Some (0, sv2)
         /\ outgoing (channel sv2) = outgoing (channel sv) ++ r /\ incoming (channel sv2) = more)
    /\ (forall others rest, (patience cl < fuel)%nat -> (length others < fuel)%nat ->
          Forall (fun m => m_id m <> next_id cl) (queue cl) -> Forall (other (next_id cl)) others ->
          incoming (channel cl) = concat (map reply_bytes others) ++ r ++ rest ->
          exists cl', sftp_write fuel f (Some d) (zlen d) cl
              = Some (if st =? SSH_FX_OK then zlen d else -1, set_offset (u64 (f_offset f + zlen d)) f, cl')
            /\ errnum cl' = st /\ outgoing (channel cl') = outgoing (channel cl) ++ w /\ incoming (channel cl') = rest).
Proof.
  intros Hcl Hfile Hoff Hd Hst Htext. pose proof (u32_range (id_counter cl + 1)) as Hid. change (u32 (id_counter cl + 1)) with (next_id cl) in Hid.
  exists (request_bytes SSH_FXP_WRITE (next_id cl) (write_fields f h d)), (reply_bytes (SSH_FXP_STATUS, next_id cl, status_body st text)).
  assert (Hsb : zlen (status_body st text) < 2 ^ 17).
  { unfold status_body. rewrite !zlen_app, !zlen_lv. change (zlen (be_bytes 4 st)) with 4. change (zlen (@nil Byte.byte)) with 0. lia. }
  split.
  - intros sv more Hsv Hf Hin.
    destruct (serves sv SSH_FXP_WRITE (next_id cl) (fields_encode (write_fields f h d)) more (asks_write f h d) Hsv Hf) as
      (rf & copy & sv1 & He & [(x & Hx & Hxt) Ho (y & Hy & Hyt)] & Hev & Hin1 & Hout1 & _ & _);
      [done| |done|intros; by apply server_parses_write|].
    { pose proof (rq_small _ (write_fields_ok f h d Hfile Hd)). unfold SFTP_PACKET_SIZE_MAX. lia. }
    set (m := message_of SSH_FXP_WRITE (next_id cl) rf copy).
    destruct (replies SSH_FXP_STATUS (next_id cl) (status_body st text) _ sv1 (ev_wf _ _ Hev)
      (builds_eq _ _ _ (reply_status_builds m st text) ltac:(by unfold m; rewrite number_message))) as (sv2 & Hre & [_ Hi Ho2]); [lia|].
    exists m, sv1, sv2, x, y. split_and!; try done; congruence.
  - intros others rest Hf Hlen Hq Hoth Hin.
    destruct (client_writes cl f h d st text others rest Hcl Hf Hfile Hd Hst) as (cl' & He & ? & ? & ?); [lia| |by exists cl'].
    constructor; try done. split_and!; [done|lia|lia|]. unfold SFTP_PACKET_SIZE_MAX. lia.
Qed.
End Link.

(** ** A run

    The handle is four bytes; the server reads the request in two pieces, and the client finds its
    reply behind a stray one. *)
Definition demo_handle : ssh_string := mk_string (htonl 4) [Byte.x07; Byte.x00; Byte.x00; Byte.x00; Byte.x00].
Definition demo_file : sftp_file := mk_file 5 (Some demo_handle) 0 0.
Definition demo_client (replies : bytes) : sftp_session pipe := pipe_session 3 0 [replies] None None.
#[local] Existing Instance calloc_allocator.
#[local] Existing Instance N_bignum.

Lemma demo_open : open_file demo_file demo_handle.
Proof. constructor; try done. exists 4. by split_and!. Qed.

Lemma demo_client_wf t : @sftp_wf _ _ pipe_stream (demo_client t).
Proof. constructor; [exact I|eexists; split; [reflexivity|intros b Hb; discriminate Hb]|by constructor|done]. Qed.

Definition stray : bytes := reply_bytes (SSH_FXP_STATUS, 9, status_body 0 []).

Example read_run :
  let w := request_bytes SSH_FXP_READ 1 (read_fields demo_file demo_handle 16) in
  ('(m, sv) ← sftp_get_client_message 60 (pipe_session 3 0 [ztake 9 w; zdrop 9 w] None None);
   m ← m;
   '(rc, sv) ← sftp_reply_data m (Some (cstr "WindTerm")) 8 sv;
   '(r, cl) ← sftp_read 120 demo_file 16 (demo_client (stray ++ sent (channel sv)));
   Some (c_offset m, c_len m, rc, r, bool_decide (sent (channel cl) = w), length (queue cl)))
  = Some (5, 16, 0, (8, cstr "WindTerm", set_offset 13 demo_file), true, 1%nat).
Proof. vm_compute. reflexivity. Qed.

Lemma remote_read_witness : let cl := demo_client (stray ++ reply_bytes (SSH_FXP_DATA, 1, lv (cstr "WindTerm"))) in
  exists w r,
    (forall sv more, @sftp_wf _ _ pipe_stream sv -> (@patience _ _ pipe_stream sv < 120)%nat -> incoming (channel sv) = w ++ more ->
       exists m sv1 sv2 x, sftp_get_client_message 120 sv = Some (Some m, sv1)
         /\ c_type m = SSH_FXP_READ /\ c_handle m = Some x /\ string_text x = string_text demo_handle /\ c_offset m = 5 /\ c_len m = 16
         /\ sftp_reply_data m (Some (cstr "WindTerm")) 8 sv1 = Some (0, sv2)
         /\ outgoing (channel sv2) = outgoing (channel sv) ++ r /\ incoming (channel sv2) = more)
    /\ (forall others rest, (@patience _ _ pipe_stream cl < 120)%nat -> (length others < 120)%nat ->
          Forall (fun m => m_id m <> next_id cl) (queue cl) -> Forall (other (next_id cl)) others ->
          incoming (channel cl) = concat (map reply_bytes others) ++ r ++ rest ->
          exists cl', sftp_read 120 demo_file 16 cl = Some (8, cstr "WindTerm", set_offset 13 demo_file, cl')
            /\ outgoing (channel cl') = outgoing (channel cl) ++ w /\ incoming (channel cl') = rest).
Proof.
  apply (@remote_read calloc_allocator N_bignum pipe _ pipe_stream 120 calloc_memory_ok _ demo_file demo_handle 16 (cstr "WindTerm"));
    [apply demo_client_wf|exact demo_open|done|done|done|done].
Defined.

Lemma remote_write_witness : let cl := demo_client (reply_bytes (SSH_FXP_STATUS, 1, status_body SSH_FX_FAILURE (cstr "no"))) in
  exists w r,
    (forall sv more, @sftp_wf _ _ pipe_stream sv -> (@patience _ _ pipe_stream sv < 120)%nat -> incoming (channel sv) = w ++ more ->
       exists m sv1 sv2 x y, sftp_get_client_message 120 sv = Some (Some m, sv1)
         /\ c_type m = SSH_FXP_WRITE /\ c_handle m = Some x /\ string_text x = string_text demo_handle /\ c_offset m = 5
         /\ c_data m = Some y /\ string_text y = cstr "WindTerm"
         /\ sftp_reply_status m SSH_FX_FAILURE (Some (cstr "no")) sv1 = Some (0, sv2)
         /\ outgoing (channel sv2) = outgoing (channel sv) ++ r /\ incoming (channel sv2) = more)
    /\ (forall others rest, (@patience _ _ pipe_stream cl < 120)%nat -> (length others < 120)%nat ->
          Forall (fun m => m_id m <> next_id cl) (queue cl) -> Forall (other (next_id cl)) others ->
          incoming (channel cl) = concat (map reply_bytes others) ++ r ++ rest ->
          exists cl', sftp_write 120 demo_file (Some (cstr "WindTerm")) 8 cl = Some (-1, set_offset 13 demo_file, cl')
            /\ errnum cl' = SSH_FX_FAILURE /\ outgoing (channel cl') = outgoing (channel cl) ++ w /\ incoming (channel cl') = rest).
Proof.
  apply (@remote_write calloc_allocator N_bignum pipe _ pipe_stream 120 calloc_memory_ok _ demo_file demo_handle (cstr "WindTerm")
           SSH_FX_FAILURE (cstr "no")); [apply demo_client_wf|exact demo_open|done|done|done|done].
Defined.
