(* ===== verification/Scp.v ===== *)
(** * SCP over the stream of a channel ([libssh/src/scp.c])

    Both ends of the protocol of scp: a context that pushes files and directories to a
    sink, and one that pulls them from a source.  The channel is that of SFTP with
    two more calls. *)

From stdpp Require Import gmap.
From S2P Require Import Prelude SshString Buffer BufferPack Token Misc Sftp.

Class ScpChannel (Ch : Type) := {
  scp_base :: SftpChannel Ch;
  chan_request_exec : bytes -> Ch -> run (Z * Ch);  (* [ssh_channel_request_exec] *)
  chan_close : Ch -> run (Z * Ch)                   (* [ssh_channel_close] *)
}.

Definition SSH_SCP_WRITE : Z := 0.
Definition SSH_SCP_READ : Z := 1.
Definition SSH_SCP_RECURSIVE : Z := 0x10.

Definition SSH_SCP_REQUEST_NEWDIR : Z := 1.
Definition SSH_SCP_REQUEST_NEWFILE : Z := 2.
Definition SSH_SCP_REQUEST_EOF : Z := 3.
Definition SSH_SCP_REQUEST_ENDDIR : Z := 4.
Definition SSH_SCP_REQUEST_WARNING : Z := 5.

Definition MAX_BUF_SIZE : Z := 4096.

Inductive ssh_scp_states :=
  | SSH_SCP_NEW | SSH_SCP_WRITE_INITED | SSH_SCP_WRITE_WRITING | SSH_SCP_READ_INITED | SSH_SCP_READ_REQUESTED
  | SSH_SCP_READ_READING | SSH_SCP_ERROR | SSH_SCP_TERMINATED.

#[export] Instance ssh_scp_states_eq_dec : EqDecision ssh_scp_states.
Proof. solve_decision. Defined.

(** The channel is the one of the context when [scp_has] is set, else what a new one is made of. *)
Record ssh_scp (Ch : Type) := mk_scp {
  scp_mode : Z;
  scp_recursive : bool;
  scp_has : bool;
  scp_channel : Ch;
  location : bytes;
  state : ssh_scp_states;
  filelen : Z;
  processed : Z;
  request_type : Z;
  request_name : option bytes;
  warning : option bytes;
  request_mode : Z
}.
Arguments mk_scp {_}.
Arguments scp_mode {_}.
Arguments scp_recursive {_}.
Arguments scp_has {_}.
Arguments scp_channel {_}.
Arguments location {_}.
Arguments state {_}.
Arguments filelen {_}.
Arguments processed {_}.
Arguments request_type {_}.
Arguments request_name {_}.
Arguments warning {_}.
Arguments request_mode {_}.

Definition sizeof_scp : Z := 96.

(** ** Numbers in the lines of the protocol *)

Definition digit_char (d : Z) : byte := z2b (48 + d).

(** The digits of a number in a base, the last one first; [n] bounds their count. *)
Fixpoint digits_rev (base : Z) (n : nat) (v : Z) : bytes :=
  match n with
  | O => []
  | S n => digit_char (v mod base) :: (if v <? base then [] else digits_rev base n (v / base))
  end.

(** ["%" PRIu64] *)
Definition print_u64 (v : Z) : bytes := rev (digits_rev 10 20 v).

(** ["%.4o"] of an [int] *)
Definition print_octal4 (v : Z) : bytes :=
  let d := rev (digits_rev 8 11 (u32 v)) in zrep (4 - zlen d) "0"%byte ++ d.

(** [strtoul (s, NULL, base)] without the conversion's end: signs, and saturation. *)
Fixpoint number (base : Z) (s : bytes) (acc : Z) : Z :=
  match s with
  | c :: s => if (48 <=? b2z c) && (b2z c <? 48 + base) then number base s (acc * base + (b2z c - 48)) else acc
  | [] => acc
  end.

Definition strtoul_base (base : Z) (s : bytes) : Z :=
  let s := skip_space s in
  let '(neg, s) := match s with
                   | c :: s' => if Byte.eqb c "-"%byte then (true, s')
                                else if Byte.eqb c "+"%byte then (false, s') else (false, s)
                   | [] => (false, s)
                   end in
  let v := number base s 0 in
  if ULONG_MAX <? v then ULONG_MAX else if neg then u64 (- v) else v.

Definition ssh_scp_integer_mode (mode : bytes) : Z := Z.land (strtoul_base 8 mode) 0xffff.

(** [strchr (s, c)]: what is before the character and what is behind it. *)
Fixpoint split_at_char (c : byte) (s : bytes) : option (bytes * bytes) :=
  match s with
  | [] => None
  | x :: s => if Byte.eqb x c then Some ([], s) else '(a, b) ← split_at_char c s; Some (x :: a, b)
  end.

Definition space : byte := " "%byte.

Section Scp.
Context `{Allocator} {Ch : Type} `{ScpChannel Ch}.
#[local] Abbreviation scp := (ssh_scp Ch).
Implicit Type s : scp.
Variable fuel : nat.

Definition set_state (v : ssh_scp_states) s : scp :=
  mk_scp (scp_mode s) (scp_recursive s) (scp_has s) (scp_channel s) (location s) v (filelen s) (processed s)
    (request_type s) (request_name s) (warning s) (request_mode s).
Definition set_chan (has : bool) (c : Ch) s : scp :=
  mk_scp (scp_mode s) (scp_recursive s) has c (location s) (state s) (filelen s) (processed s)
    (request_type s) (request_name s) (warning s) (request_mode s).
Definition set_sizes (len done : Z) s : scp :=
  mk_scp (scp_mode s) (scp_recursive s) (scp_has s) (scp_channel s) (location s) (state s) len done
    (request_type s) (request_name s) (warning s) (request_mode s).
Definition set_request (type : Z) (name : option bytes) (mode : Z) s : scp :=
  mk_scp (scp_mode s) (scp_recursive s) (scp_has s) (scp_channel s) (location s) (state s) (filelen s) (processed s)
    type name (warning s) mode.
Definition set_warning (w : option bytes) s : scp :=
  mk_scp (scp_mode s) (scp_recursive s) (scp_has s) (scp_channel s) (location s) (state s) (filelen s) (processed s)
    (request_type s) (request_name s) w (request_mode s).

Definition ssh_scp_string_mode (mode : Z) : option bytes := strdup (snprintf 16 (print_octal4 mode)).

(** ** The stream *)

Definition scp_write s (d : bytes) : run (Z * scp) :=
  '(n, c) ← chan_write d (scp_channel s); Some (n, set_chan (scp_has s) c s).
Definition scp_read s (n : Z) : run (Z * bytes * scp) :=
  '(r, d, c) ← chan_read n (scp_channel s); Some (r, d, set_chan (scp_has s) c s).
Definition scp_poll s : run (Z * scp) :=
  '(r, c) ← chan_poll (scp_channel s); Some (r, set_chan (scp_has s) c s).

(** The loop of [ssh_scp_read_string] for [n] more bytes; the buffer was zero. *)
Fixpoint read_line (n : nat) (err : Z) (got : bytes) s : run (Z * bytes * scp) :=
  match n with
  | O => Some (err, got, s)
  | S n =>
      '(err, d, s) ← scp_read s 1;
      if err =? SSH_ERROR then Some (err, got, s) else
      if err =? 0 then Some (SSH_ERROR, got, s) else
      let c := match d with c :: _ => c | [] => Byte.x00 end in
      let got := got ++ [c] in
      if Byte.eqb c newline then Some (err, got, s) else read_line n err got s
  end.

(** The code and the string in the buffer of [len] bytes. *)
Definition ssh_scp_read_string s (len : Z) : run (Z * bytes * scp) := read_line (Z.to_nat (len - 1)) SSH_OK [] s.

(** The code and the message, when there is one; [code] is not set when the read gives nothing. *)
Definition ssh_scp_response s : run (Z * option bytes * scp) :=
  '(rc, d, s) ← scp_read s 1;
  if rc =? SSH_ERROR then Some (SSH_ERROR, None, s) else
  code ← head d;
  if b2z code =? 0 then Some (0, None, s) else
  if 2 <? b2z code then Some (SSH_ERROR, None, set_state SSH_SCP_ERROR s) else
  '(rc, msg, s) ← ssh_scp_read_string s 128;
  if rc =? SSH_ERROR then Some (rc, None, s) else
  Some (b2z code, strdup (until_nul msg), s).

(** ** Contexts *)

Definition ssh_scp_new (session : option Ch) (mode : Z) (location : bytes) : option scp :=
  c ← session;
  if negb (alloc sizeof_scp) then None else
  let kind := Z.land mode (Z.lnot SSH_SCP_RECURSIVE) in
  if negb (kind =? SSH_SCP_WRITE) && negb (kind =? SSH_SCP_READ) then None else
  if 32 * 1024 <? zlen location then None else
  location ← strdup location;
  Some (mk_scp kind (negb (Z.land mode SSH_SCP_RECURSIVE =? 0)) false c location SSH_SCP_NEW 0 0 0 None None 0).

(** The command for the other side. *)
Definition scp_command s (quoted : bytes) : bytes :=
  snprintf 1024 ((if scp_mode s =? SSH_SCP_WRITE then cstr "scp -t " else cstr "scp -f ")
                 ++ (if scp_recursive s then cstr "-r" else []) ++ cstr " " ++ quoted).

Definition ssh_scp_init (o : option scp) : run (Z * option scp) :=
  match o with
  | None => Some (SSH_ERROR, None)
  | Some s =>
      let fail s := Some (SSH_ERROR, Some (set_state SSH_SCP_ERROR s)) in
      if negb (bool_decide (state s = SSH_SCP_NEW)) then Some (SSH_ERROR, Some s) else
      '(made, c) ← chan_new (scp_channel s);
      let s := set_chan made c s in
      if negb made then fail s else
      '(rc, c) ← chan_open_session (scp_channel s);
      let s := set_chan true c s in
      if rc =? SSH_ERROR then fail s else
      let quoted_location_len := 3 * zlen (location s) + 1 in
      if quoted_location_len <? zlen (location s) then fail s else
      if negb (alloc quoted_location_len) then fail s else
      '(rc, quoted) ← ssh_quote_file_name (Some (location s)) true quoted_location_len;
      if rc <=? 0 then fail s else
      quoted ← quoted;
      '(rc, c) ← chan_request_exec (scp_command s quoted) (scp_channel s);
      let s := set_chan true c s in
      if rc =? SSH_ERROR then fail s else
      if scp_mode s =? SSH_SCP_WRITE then
        '(rc, _, s) ← ssh_scp_response s;
        if negb (rc =? 0) then Some (SSH_ERROR, Some s) else Some (SSH_OK, Some (set_state SSH_SCP_WRITE_INITED s))
      else
        '(_, s) ← scp_write s [Byte.x00];
        Some (SSH_OK, Some (set_state SSH_SCP_READ_INITED s))
  end.

(** The reads that wait for the end of the other side. *)
Fixpoint drain (n : nat) s : run scp :=
  match n with
  | O => None
  | S n =>
      e ← chan_is_eof (scp_channel s);
      if negb (e =? 0) then Some s else
      '(rc, _, s) ← scp_read s 128;
      if (rc =? SSH_ERROR) || (rc =? 0) then Some s else drain n s
  end.

Definition ssh_scp_close (o : option scp) : run (Z * option scp) :=
  match o with
  | None => Some (SSH_ERROR, None)
  | Some s =>
      if negb (scp_has s) then Some (SSH_OK, Some (set_state SSH_SCP_NEW s)) else
      '(rc, c) ← chan_send_eof (scp_channel s);
      let s := set_chan true c s in
      if rc =? SSH_ERROR then Some (SSH_ERROR, Some (set_state SSH_SCP_ERROR s)) else
      s ← drain fuel s;
      '(rc, c) ← chan_close (scp_channel s);
      let s := set_chan true c s in
      if rc =? SSH_ERROR then Some (SSH_ERROR, Some (set_state SSH_SCP_ERROR s)) else
      c ← chan_free (scp_channel s);
      Some (SSH_OK, Some (set_state SSH_SCP_NEW (set_chan false c s)))
  end.

(** What is left of the session. *)
Definition ssh_scp_free (o : option scp) : run (option Ch) :=
  match o with
  | None => Some None
  | Some s =>
      o ← (if bool_decide (state s = SSH_SCP_NEW) then Some (Some s) else '(_, o) ← ssh_scp_close (Some s); Some o);
      s ← o;
      if scp_has s then c ← chan_free (scp_channel s); Some (Some c) else Some (Some (scp_channel s))
  end.

(** ** The source *)

(** The line of a file or a directory: its name quoted for newlines, its permissions. *)
Definition push_line (letter : byte) (size : bytes) (name : bytes) (mode : Z) : run (option bytes) :=
  match ssh_basename (Some name) with
  | None => Some None
  | Some base =>
      let vis_encoded_len := 2 * zlen base + 1 in
      if negb (alloc vis_encoded_len) then Some None else
      '(rc, vis) ← ssh_newline_vis (Some base) true vis_encoded_len;
      if rc <=? 0 then Some None else
      vis ← vis;
      match ssh_scp_string_mode mode with
      | None => Some None
      | Some perms => Some (Some (snprintf 1024 ([letter] ++ perms ++ cstr " " ++ size ++ cstr " " ++ vis ++ [newline])))
      end
  end.

(** A line is sent and answered. *)
Definition send_line s (line : bytes) : run (Z * scp) :=
  '(rc, s) ← scp_write s line;
  if rc =? SSH_ERROR then Some (SSH_ERROR, set_state SSH_SCP_ERROR s) else
  '(rc, _, s) ← ssh_scp_response s;
  Some (if negb (rc =? 0) then SSH_ERROR else SSH_OK, s).

Definition in_state (o : option scp) (st : ssh_scp_states) (k : scp -> run (Z * scp)) : run (Z * option scp) :=
  match o with
  | None => Some (SSH_ERROR, None)
  | Some s =>
      if negb (bool_decide (state s = st)) then Some (SSH_ERROR, Some s) else
      '(rc, s) ← k s; Some (rc, Some s)
  end.

Definition ssh_scp_push_directory (o : option scp) (dirname : bytes) (mode : Z) : run (Z * option scp) :=
  in_state o SSH_SCP_WRITE_INITED (fun s =>
    line ← push_line "D"%byte (cstr "0") dirname mode;
    match line with
    | None => Some (SSH_ERROR, s)
    | Some line => send_line s line
    end).

Definition ssh_scp_leave_directory (o : option scp) : run (Z * option scp) :=
  in_state o SSH_SCP_WRITE_INITED (fun s => send_line s (cstr "E" ++ [newline])).

Definition ssh_scp_push_file64 (o : option scp) (filename : bytes) (size mode : Z) : run (Z * option scp) :=
  in_state o SSH_SCP_WRITE_INITED (fun s =>
    line ← push_line "C"%byte (print_u64 size) filename mode;
    match line with
    | None => Some (SSH_ERROR, s)
    | Some line =>
        '(rc, s) ← send_line s line;
        if rc =? SSH_OK then Some (SSH_OK, set_state SSH_SCP_WRITE_WRITING (set_sizes size 0 s)) else Some (rc, s)
    end).

Definition ssh_scp_push_file (o : option scp) (filename : bytes) (size mode : Z) : run (Z * option scp) :=
  ssh_scp_push_file64 o filename (u64 size) mode.

(** The [len] bytes at [buffer], or those that the file still takes; the channel takes a length of 32 bits. *)
Definition ssh_scp_write (o : option scp) (buffer : bytes) (len : Z) : run (Z * option scp) :=
  in_state o SSH_SCP_WRITE_WRITING (fun s =>
    let len := if filelen s <? u64 (processed s + len) then u64 (filelen s - processed s) else len in
    '(rc, s) ← scp_poll s;
    if rc =? SSH_ERROR then Some (SSH_ERROR, set_state SSH_SCP_ERROR s) else
    d ← memcpy (zrep (u32 len) Byte.x00) 0 buffer 0 (u32 len);
    '(w, s) ← scp_write s d;
    if w =? SSH_ERROR then Some (SSH_ERROR, set_state SSH_SCP_ERROR s) else
    let s := set_sizes (filelen s) (u64 (processed s + w)) s in
    '(rc, s) ← scp_poll s;
    '(rc, s) ← (if 0 <? rc then '(rc, _, s) ← ssh_scp_response s; Some (rc, s) else Some (0, s));
    if negb (rc =? 0) then Some (SSH_ERROR, s) else
    if processed s =? filelen s then
      '(w, s) ← scp_write s [Byte.x00];
      if w =? SSH_ERROR then Some (SSH_ERROR, set_state SSH_SCP_ERROR s)
      else Some (SSH_OK, set_state SSH_SCP_WRITE_INITED (set_sizes 0 0 s))
    else Some (SSH_OK, s)).

(** ** The sink *)

(** A line of a file or a directory; the mode is stored before the rest is looked at. *)
Definition pull_entry s (letter : byte) (line : bytes) : Z * scp :=
  match split_at_char space line with
  | None => (SSH_ERROR, s)
  | Some (perms, rest) =>
      let s := set_request (request_type s) (request_name s) (ssh_scp_integer_mode (zdrop 1 perms)) s in
      match split_at_char space rest with
      | None => (SSH_ERROR, s)
      | Some (size, name) =>
          let file := Byte.eqb letter "C"%byte in
          let type := if file then SSH_SCP_REQUEST_NEWFILE else SSH_SCP_REQUEST_NEWDIR in
          let s := set_sizes (if file then strtoul_base 10 size else 48) 0 s in
          (type, set_state SSH_SCP_READ_REQUESTED (set_request type (strdup name) (request_mode s) s))
      end
  end.

Definition ssh_scp_pull_request (o : option scp) : run (Z * option scp) :=
  in_state o SSH_SCP_READ_INITED (fun s =>
    '(rc, buffer, s) ← ssh_scp_read_string s MAX_BUF_SIZE;
    if rc =? SSH_ERROR then
      e ← chan_is_eof (scp_channel s);
      if negb (e =? 0) then Some (SSH_SCP_REQUEST_EOF, set_state SSH_SCP_TERMINATED s) else Some (rc, s)
    else
    let text := until_nul buffer in
    let line := match split_at_char newline text with Some (l, _) => l | None => text end in
    match line with
    | [] => Some (SSH_ERROR, s)
    | letter :: message =>
        if Byte.eqb letter "C"%byte || Byte.eqb letter "D"%byte then Some (pull_entry s letter line)
        else if Byte.eqb letter "E"%byte then
          '(_, s) ← scp_write (set_request SSH_SCP_REQUEST_ENDDIR (request_name s) (request_mode s) s) [Byte.x00];
          Some (SSH_SCP_REQUEST_ENDDIR, s)
        else if Byte.eqb letter Byte.x01 then
          Some (SSH_SCP_REQUEST_WARNING,
                set_warning (strdup message) (set_request SSH_SCP_REQUEST_WARNING (request_name s) (request_mode s) s))
        else Some (SSH_ERROR, s)
    end).

Definition ssh_scp_deny_request (o : option scp) (reason : bytes) : run (Z * option scp) :=
  in_state o SSH_SCP_READ_REQUESTED (fun s =>
    '(rc, s) ← scp_write s (snprintf MAX_BUF_SIZE ([Byte.x02] ++ reason ++ [newline]));
    if rc =? SSH_ERROR then Some (SSH_ERROR, s) else Some (SSH_OK, set_state SSH_SCP_READ_INITED s)).

Definition accept s : run (Z * scp) :=
  '(rc, s) ← scp_write s [Byte.x00];
  if rc =? SSH_ERROR then Some (SSH_ERROR, s) else
  Some (SSH_OK, set_state (if request_type s =? SSH_SCP_REQUEST_NEWFILE then SSH_SCP_READ_READING else SSH_SCP_READ_INITED) s).

Definition ssh_scp_accept_request (o : option scp) : run (Z * option scp) := in_state o SSH_SCP_READ_REQUESTED accept.

(** The bytes of the open file: the code, what is stored for the caller, the context. *)
Definition read_open s (size : Z) : run (Z * bytes * scp) :=
  let size := if filelen s <? u64 (processed s + size) then u64 (filelen s - processed s) else size in
  let size := if 65536 <? size then 65536 else size in
  '(rc, d, s) ← scp_read s size;
  if rc =? SSH_ERROR then Some (SSH_ERROR, [], set_state SSH_SCP_ERROR s) else
  let s := set_sizes (filelen s) (u64 (processed s + rc)) s in
  if processed s =? filelen s then
    '(_, s) ← scp_write (set_sizes 0 0 s) [Byte.x00];
    '(code, _, s) ← ssh_scp_response s;
    if code =? 0 then Some (rc, d, set_state SSH_SCP_READ_INITED s)
    else if code =? 1 then Some (SSH_ERROR, d, set_state SSH_SCP_READ_INITED s)
    else Some (SSH_ERROR, d, set_state SSH_SCP_ERROR s)
  else Some (rc, d, s).

Definition ssh_scp_read (o : option scp) (size : Z) : run (Z * bytes * option scp) :=
  match o with
  | None => Some (SSH_ERROR, [], None)
  | Some s =>
      '(rc, s) ← (if bool_decide (state s = SSH_SCP_READ_REQUESTED) && (request_type s =? SSH_SCP_REQUEST_NEWFILE)
                  then accept s else Some (SSH_OK, s));
      if rc =? SSH_ERROR then Some (rc, [], Some s) else
      if negb (bool_decide (state s = SSH_SCP_READ_READING)) then Some (SSH_ERROR, [], Some s) else
      '(rc, d, s) ← read_open s size;
      Some (rc, d, Some s)
  end.

Definition ssh_scp_request_get_filename (o : option scp) : option bytes := s ← o; request_name s.
Definition ssh_scp_request_get_permissions (o : option scp) : Z := match o with None => -1 | Some s => request_mode s end.
Definition ssh_scp_request_get_size64 (o : option scp) : Z := match o with None => 0 | Some s => filelen s end.
Definition ssh_scp_request_get_size (o : option scp) : Z := ssh_scp_request_get_size64 o.
Definition ssh_scp_request_get_warning (o : option scp) : option bytes := s ← o; warning s.
End Scp.
