(* ===== verification/ScpFacts.v ===== *)
(** * SCP: states and transfers

    The states of a context and what each call may do with them, the lines that one side
    prints and the other parses, and the reading of a file. *)

From stdpp Require Import gmap.
From S2P Require Import Prelude SshString Buffer Bignum BufferPack Token Misc Session Packet Kex Sftp SftpFrame Scp.

(** ** The state machine *)

Section States.
Context `{Allocator} {Ch : Type} `{ScpChannel Ch}.
#[local] Abbreviation scp := (ssh_scp Ch).
Implicit Type s : scp.
Variable fuel : nat.

Inductive scp_call :=
  | CInit
  | CClose
  | CPushDirectory (name : bytes) (mode : Z)
  | CLeaveDirectory
  | CPushFile (name : bytes) (size mode : Z)
  | CWrite (buffer : bytes) (len : Z)
  | CPullRequest
  | CDeny (reason : bytes)
  | CAccept
  | CRead (size : Z).

Definition run_scp_call (c : scp_call) s : run (Z * option scp) :=
  match c with
  | CInit => ssh_scp_init (Some s)
  | CClose => ssh_scp_close fuel (Some s)
  | CPushDirectory name mode => ssh_scp_push_directory (Some s) name mode
  | CLeaveDirectory => ssh_scp_leave_directory (Some s)
  | CPushFile name size mode => ssh_scp_push_file64 (Some s) name size mode
  | CWrite buffer len => ssh_scp_write (Some s) buffer len
  | CPullRequest => ssh_scp_pull_request (Some s)
  | CDeny reason => ssh_scp_deny_request (Some s) reason
  | CAccept => ssh_scp_accept_request (Some s)
  | CRead size => '(rc, _, o) ← ssh_scp_read (Some s) size; Some (rc, o)
  end.

(** The states in which a call does something. *)
Definition call_allowed (c : scp_call) (st : ssh_scp_states) : bool :=
  match c, st with
  | CInit, SSH_SCP_NEW => true
  | CClose, _ => true
  | (CPushDirectory _ _ | CLeaveDirectory | CPushFile _ _ _), SSH_SCP_WRITE_INITED => true
  | CWrite _ _, SSH_SCP_WRITE_WRITING => true
  | CPullRequest, SSH_SCP_READ_INITED => true
  | (CDeny _ | CAccept | CRead _), SSH_SCP_READ_REQUESTED => true
  | CRead _, SSH_SCP_READ_READING => true
  | _, _ => false
  end.

(** The states it may lead to in a context of the mode. *)
Definition call_target (c : scp_call) (mode : Z) (to : ssh_scp_states) : bool :=
  match c, to with
  | CInit, SSH_SCP_WRITE_INITED => mode =? SSH_SCP_WRITE
  | CInit, SSH_SCP_READ_INITED => negb (mode =? SSH_SCP_WRITE)
  | CClose, SSH_SCP_NEW => true
  | CPushFile _ _ _, SSH_SCP_WRITE_WRITING => true
  | CWrite _ _, SSH_SCP_WRITE_INITED => true
  | CPullRequest, (SSH_SCP_READ_REQUESTED | SSH_SCP_TERMINATED) => true
  | CDeny _, SSH_SCP_READ_INITED => true
  | (CAccept | CRead _), (SSH_SCP_READ_INITED | SSH_SCP_READ_READING) => true
  | (CInit | CClose | CPushDirectory _ _ | CLeaveDirectory | CPushFile _ _ _ | CWrite _ _ | CRead _), SSH_SCP_ERROR => true
  | _, _ => false
  end.

(** The mode and the channel agree with the state. *)
Definition scp_wf s : Prop :=
  match state s with
  | SSH_SCP_NEW | SSH_SCP_ERROR => True
  | SSH_SCP_WRITE_INITED | SSH_SCP_WRITE_WRITING => scp_mode s = SSH_SCP_WRITE /\ scp_has s = true
  | SSH_SCP_READ_INITED | SSH_SCP_READ_REQUESTED | SSH_SCP_READ_READING | SSH_SCP_TERMINATED =>
      scp_mode s <> SSH_SCP_WRITE /\ scp_has s = true
  end.

(** Only the stream of the context changed. *)
Definition moved s s' : Prop := exists c, s' = set_chan (scp_has s) c s.

Lemma moved_refl s : moved s s.
Proof. exists (scp_channel s). by destruct s. Qed.
Lemma moved_trans s1 s2 s3 : moved s1 s2 -> moved s2 s3 -> moved s1 s3.
Proof. intros [c1 ->] [c2 ->]. by exists c2. Qed.

Lemma scp_write_moved s d n s' : scp_write s d = Some (n, s') -> moved s s'.
Proof. unfold scp_write. destruct (chan_write _ _) as [[? c]|]; [|done]. intros [= _ <-]. by exists c. Qed.
Lemma scp_read_moved s n r d s' : scp_read s n = Some (r, d, s') -> moved s s'.
Proof. unfold scp_read. destruct (chan_read _ _) as [[[? ?] c]|]; [|done]. intros [= _ _ <-]. by exists c. Qed.
Lemma scp_poll_moved s n s' : scp_poll s = Some (n, s') -> moved s s'.
Proof. unfold scp_poll. destruct (chan_poll _) as [[? c]|]; [|done]. intros [= _ <-]. by exists c. Qed.

Lemma read_line_moved : forall n err got s err' got' s', read_line n err got s = Some (err', got', s') -> moved s s'.
Proof.
  induction n as [|n IH]; intros err got s err' got' s'; cbn [read_line]; [intros [= _ _ <-]; apply moved_refl|].
  destruct (scp_read s 1) as [[[r d] s1]|] eqn:E; [|done]. cbn [mbind option_bind]. apply scp_read_moved in E.
  destruct (r =? SSH_ERROR); [by intros [= _ _ <-]|]. destruct (r =? 0); [by intros [= _ _ <-]|].
  destruct (Byte.eqb _ _); [by intros [= _ _ <-]|]. intros Hl%IH. by eapply moved_trans.
Qed.

Lemma response_moved s rc msg s' : ssh_scp_response s = Some (rc, msg, s') ->
  moved s s' \/ exists s1, moved s s1 /\ s' = set_state SSH_SCP_ERROR s1.
Proof.
  unfold ssh_scp_response. destruct (scp_read s 1) as [[[r d] s1]|] eqn:E; [|done]. cbn [mbind option_bind]. apply scp_read_moved in E.
  destruct (r =? SSH_ERROR); [intros [= _ _ <-]; by left|]. destruct (head d) as [c|]; [|done]. cbn [mbind option_bind].
  destruct (b2z c =? 0); [intros [= _ _ <-]; by left|]. destruct (2 <? b2z c); [intros [= _ _ <-]; right; by exists s1|].
  destruct (ssh_scp_read_string s1 128) as [[[r2 m] s2]|] eqn:E2; [|done]. cbn [mbind option_bind]. apply read_line_moved in E2.
  assert (moved s s2) by (by eapply moved_trans). destruct (r2 =? SSH_ERROR); intros [= _ _ <-]; by left.
Qed.

Lemma drain_moved : forall n s s', drain n s = Some s' -> moved s s'.
Proof.
  induction n as [|n IH]; intros s s'; cbn [drain]; [done|]. destruct (chan_is_eof _) as [e|]; [|done]. cbn [mbind option_bind].
  destruct (negb _); [intros [= <-]; apply moved_refl|]. destruct (scp_read s 128) as [[[r d] s1]|] eqn:E; [|done]. cbn [mbind option_bind].
  apply scp_read_moved in E. destruct (_ || _); [by intros [= <-]|]. intros Hl%IH. by eapply moved_trans.
Qed.

(** What a call does to a context. *)
Record follows (c : scp_call) s s' : Prop := {
  fo_mode : scp_mode s' = scp_mode s;
  fo_recursive : scp_recursive s' = scp_recursive s;
  fo_location : location s' = location s;
  fo_target : state s' = state s \/ call_target c (scp_mode s) (state s') = true;
  fo_wf : scp_wf s -> scp_wf s'
}.

(** Walking through a function that returned. *)
Ltac walk :=
  repeat first
    [ match goal with
      | Hx : Some _ = Some _ |- _ => injection Hx as Hx; subst
      | Hx : None = Some _ |- _ => discriminate Hx
      | Hx : scp_write _ _ = Some _ |- _ => apply scp_write_moved in Hx as [? ->]
      | Hx : scp_read _ _ = Some _ |- _ => apply scp_read_moved in Hx as [? ->]
      | Hx : scp_poll _ = Some _ |- _ => apply scp_poll_moved in Hx as [? ->]
      | Hx : drain _ _ = Some _ |- _ => apply drain_moved in Hx as [? ->]
      | Hx : ssh_scp_read_string _ _ = Some _ |- _ => apply read_line_moved in Hx as [? ->]
      | Hx : ssh_scp_response _ = Some _ |- _ => apply response_moved in Hx as [[? ->]|(? & [? ->] & ->)]
      | Hx : mbind _ ?e = Some _ |- _ => destruct e eqn:?; cbn [mbind option_bind] in Hx
      | Hx : (match ?x with _ => _ end) = Some _ |- _ => destruct x eqn:?
      end ].

(** The outcome of a call. *)
Definition outcome (c : scp_call) s rc (o : option scp) : Prop :=
  exists s', o = Some s' /\ follows c s s' /\ (call_allowed c (state s) = false -> rc = SSH_ERROR /\ s' = s).

(** Calls that are guarded by one state. *)
Lemma in_state_outcome c s st (k : scp -> run (Z * scp)) rc o : in_state (Some s) st k = Some (rc, o) ->
  call_allowed c st = true ->
  (forall rc s', state s = st -> k s = Some (rc, s') -> follows c s s') -> outcome c s rc o.
Proof.
  intros Hk Hst Hf. unfold in_state in Hk. case_bool_decide as Hs; cbn [negb] in Hk.
  - destruct (k s) as [[r s']|] eqn:E; [|done]. cbn in Hk. injection Hk as <- <-. exists s'. split_and!; [done|by eapply Hf|].
    rewrite Hs, Hst. done.
  - injection Hk as <- <-. exists s. split_and!; [done|constructor; auto|done].
Qed.

Ltac settle := constructor; cbn; try done; unfold scp_wf; cbn; repeat match goal with Hx : state ?s = _ |- context [state ?s] => rewrite Hx end; (done || tauto || idtac).

Lemma init_outcome s rc o : ssh_scp_init (Some s) = Some (rc, o) -> outcome CInit s rc o.
Proof.
  unfold ssh_scp_init. case_bool_decide as Hs; cbn [negb].
  2: { intros [= <- <-]. exists s. split_and!; [done|constructor; auto|done]. }
  intros Hk. cbn zeta in Hk. walk.
  all: eexists; split_and!; [done| |cbn; by rewrite Hs].
  all: settle.
  all: cbn in *.
  all: first [intros _; split; [by (apply Z.eqb_eq || apply Z.eqb_neq)|done]|right; by destruct (scp_mode s =? SSH_SCP_WRITE)].
Qed.

Lemma close_outcome s rc o : ssh_scp_close fuel (Some s) = Some (rc, o) -> outcome CClose s rc o.
Proof.
  unfold ssh_scp_close. intros Hk. cbn zeta in Hk. walk.
  all: eexists; split_and!; [done| |done].
  all: settle.
Qed.

Lemma send_line_follows s line rc s' : send_line s line = Some (rc, s') ->
  moved s s' \/ exists s1, moved s s1 /\ s' = set_state SSH_SCP_ERROR s1.
Proof.
  unfold send_line. intros Hk. destruct (scp_write s line) as [[r s1]|] eqn:E; [|done]. apply scp_write_moved in E. cbn [mbind option_bind] in Hk.
  destruct (r =? SSH_ERROR); [injection Hk as <- <-; right; by exists s1|].
  destruct (ssh_scp_response s1) as [[[r2 m] s2]|] eqn:E2; [|done]. cbn [mbind option_bind] in Hk. injection Hk as <- <-.
  apply response_moved in E2 as [Hm|(s3 & Hm & ->)]; [left; by eapply moved_trans|right; exists s3]. split; [by eapply moved_trans|done].
Qed.

Lemma accept_follows s rc s' : accept s = Some (rc, s') -> state s = SSH_SCP_READ_REQUESTED ->
  moved s s' \/ exists s1, moved s s1 /\ (s' = set_state SSH_SCP_READ_READING s1 \/ s' = set_state SSH_SCP_READ_INITED s1).
Proof.
  unfold accept. intros Hk Hs. destruct (scp_write s [Byte.x00]) as [[r s1]|] eqn:E; [|done]. apply scp_write_moved in E. cbn [mbind option_bind] in Hk.
  destruct (r =? SSH_ERROR); injection Hk as <- <-; [by left|]. right. exists s1. split; [done|]. destruct (request_type s1 =? _); auto.
Qed.

Lemma read_open_follows s size rc d s' : read_open s size = Some (rc, d, s') -> state s = SSH_SCP_READ_READING ->
  follows (CRead size) s s' /\ (state s' = state s \/ state s' = SSH_SCP_READ_INITED \/ state s' = SSH_SCP_ERROR).
Proof.
  unfold read_open. intros Hk Hs. cbn zeta in Hk. walk.
  all: (split; [settle|cbn; rewrite ?Hs; auto]).
  all: auto.
Qed.

Lemma follows_trans_read size s1 s2 s3 : follows (CRead size) s1 s2 -> follows (CRead size) s2 s3 ->
  state s3 = state s2 \/ state s3 = SSH_SCP_READ_INITED \/ state s3 = SSH_SCP_ERROR -> follows (CRead size) s1 s3.
Proof.
  intros [M1 R1 L1 T1 W1] [M2 R2 L2 T2 W2] Ht. constructor; [congruence..| |auto].
  destruct Ht as [Ht|[Ht|Ht]]; rewrite Ht; [exact T1|by right|by right].
Qed.

Lemma read_outcome s size rc o : ('(rc, _, o) ← ssh_scp_read (Some s) size; Some (rc, o)) = Some (rc, o) -> outcome (CRead size) s rc o.
Proof.
  intros Hk. destruct (ssh_scp_read (Some s) size) as [[[r d] o1]|] eqn:E; [|done]. cbn in Hk. injection Hk as -> ->.
  unfold ssh_scp_read in E. case_bool_decide as Hs; cbn [andb] in E.
  - assert (Hacc : forall s1 r1, (if request_type s =? SSH_SCP_REQUEST_NEWFILE then accept s else Some (SSH_OK, s)) = Some (r1, s1) -> follows (CRead size) s s1).
    { intros s1 r1 Ha. destruct (request_type s =? _); [|injection Ha as <- <-; constructor; auto].
      destruct (accept_follows _ _ _ Ha Hs) as [[c ->]|(s2 & [c ->] & [->| ->])]; settle. all: cbn; rewrite ?Hs; auto. }
    destruct (if request_type s =? _ then accept s else _) as [[r1 s1]|] eqn:Ea; [|done]. specialize (Hacc s1 r1 eq_refl). cbn [mbind option_bind] in E.
    destruct (r1 =? SSH_ERROR); [injection E as <- _ <-; exists s1; split_and!; [done|done|by rewrite Hs]|].
    case_bool_decide as Hr; cbn [negb] in E; [|injection E as <- _ <-; exists s1; split_and!; [done|done|by rewrite Hs]].
    destruct (read_open s1 size) as [[[r2 d2] s2]|] eqn:Eo; [|done]. cbn [mbind option_bind] in E. injection E as <- _ <-.
    destruct (read_open_follows _ _ _ _ _ Eo Hr) as [Hf Ht]. exists s2. split_and!; [done|by eapply follows_trans_read|by rewrite Hs].
  - cbn [mbind option_bind] in E. change (SSH_OK =? SSH_ERROR) with false in E. cbv iota in E.
    case_bool_decide as Hr; cbn [negb] in E.
    + destruct (read_open s size) as [[[r2 d2] s2]|] eqn:Eo; [|done]. cbn [mbind option_bind] in E. injection E as <- _ <-.
      destruct (read_open_follows _ _ _ _ _ Eo Hr) as [Hf Ht]. exists s2. split_and!; [done|done|by rewrite Hr].
    + injection E as <- _ <-. exists s. split_and!; [done|constructor; auto|done].
Qed.

Lemma pull_entry_follows s letter line r s' c : pull_entry (set_chan (scp_has s) c s) letter line = (r, s') -> state s = SSH_SCP_READ_INITED ->
  follows CPullRequest s s'.
Proof.
  unfold pull_entry. intros Hp Hs. destruct (split_at_char space line) as [[perms rest]|]; [|injection Hp as <- <-; settle; auto].
  destruct (split_at_char space rest) as [[size name]|]; injection Hp as <- <-; settle; auto.
Qed.

Lemma call_outcome c s rc o : run_scp_call c s = Some (rc, o) -> outcome c s rc o.
Proof.
  destruct c; cbn [run_scp_call]; intros Hk.
  - by apply init_outcome.
  - by apply close_outcome.
  - unfold ssh_scp_push_directory in Hk. eapply in_state_outcome; [exact Hk|done|]. intros r s' Hs Hr. cbv beta zeta in Hr. walk; [|settle; auto].
    destruct (send_line_follows _ _ _ _ Hr) as [[x ->]|(s1 & [x ->] & ->)]; settle. all: cbn; rewrite ?Hs; auto.
  - unfold ssh_scp_leave_directory in Hk. eapply in_state_outcome; [exact Hk|done|]. intros r s' Hs Hr.
    destruct (send_line_follows _ _ _ _ Hr) as [[x ->]|(s1 & [x ->] & ->)]; settle. all: cbn; rewrite ?Hs; auto.
  - unfold ssh_scp_push_file64 in Hk. eapply in_state_outcome; [exact Hk|done|]. intros r s' Hs Hr. cbv beta zeta in Hr.
    destruct (push_line _ _ _ _) as [[line|]|]; [|injection Hr as <- <-; constructor; auto|done]. cbn [mbind option_bind] in Hr.
    destruct (send_line s line) as [[r1 s1]|] eqn:El; [|done]. cbn [mbind option_bind] in Hr.
    destruct (send_line_follows _ _ _ _ El) as [[x ->]|(s2 & [x ->] & ->)]; (destruct (r1 =? SSH_OK); injection Hr as <- <-; settle). all: cbn; rewrite ?Hs; auto.
  - unfold ssh_scp_write in Hk. eapply in_state_outcome; [exact Hk|done|]. intros r s' Hs Hr. cbv beta zeta in Hr. walk. all: settle. all: cbn; rewrite ?Hs; auto.
  - unfold ssh_scp_pull_request in Hk. eapply in_state_outcome; [exact Hk|done|]. intros r s' Hs Hr. cbv beta zeta in Hr. walk.
    all: try (by eapply pull_entry_follows). all: settle. all: cbn; rewrite ?Hs; auto.
  - unfold ssh_scp_deny_request in Hk. eapply in_state_outcome; [exact Hk|done|]. intros r s' Hs Hr. cbv beta zeta in Hr. walk. all: settle. all: cbn; rewrite ?Hs; auto.
  - unfold ssh_scp_accept_request in Hk. eapply in_state_outcome; [exact Hk|done|]. intros r s' Hs Hr.
    destruct (accept_follows _ _ _ Hr Hs) as [[x ->]|(s2 & [x ->] & [->| ->])]; settle. all: cbn; rewrite ?Hs; auto.
  - by apply read_outcome.
Qed.

(** The contexts that calls make of a new one. *)
Inductive scp_reached : scp -> Prop :=
  | reached_new session mode loc s : ssh_scp_new session mode loc = Some s -> scp_reached s
  | reached_call c s rc s' : scp_reached s -> run_scp_call c s = Some (rc, Some s') -> scp_reached s'.

Lemma reached_wf s : scp_reached s -> scp_wf s.
Proof.
  induction 1 as [session mode loc s Hn|c s rc s' _ IH Hc].
  - unfold ssh_scp_new in Hn. destruct session; [|done]. cbn [mbind option_bind] in Hn. repeat (case_match; try done).
    destruct (strdup loc); [|done]. by injection Hn as <-.
  - apply call_outcome in Hc as (s2 & Heq & Hf & _). injection Heq as <-. by apply (fo_wf _ _ _ Hf).
Qed.

(** A call outside of its states returns at once. *)
Lemma refused_call c s : call_allowed c (state s) = false -> run_scp_call c s = Some (SSH_ERROR, Some s).
Proof.
  intros Hc. destruct s as [mode rec ch chan loc st len pr req name warn perm]. cbn [state] in Hc.
  destruct c; destruct st; cbn in Hc; done || reflexivity.
Qed.

(** (C36) The states of an scp context are respected.  In a context that calls made of a new
    one, a call outside of its states returns an error and changes nothing.
    Of any other call that returns, whatever the channel answered in it, the context keeps
    its mode and either its state or goes to one the call may lead to: one that
    writes never reads, and while it is open it has its channel.  (A call does
    not return where the code has no defined behaviour, as when the
    response of the other end stops in the middle.) *)
Theorem scp_states_respected c s : scp_reached s ->
  (call_allowed c (state s) = false -> run_scp_call c s = Some (SSH_ERROR, Some s))
  /\ forall rc o, run_scp_call c s = Some (rc, o) ->
     exists s', o = Some s' /\ scp_wf s' /\ scp_mode s' = scp_mode s /\ (state s' = state s \/ call_target c (scp_mode s) (state s') = true).
Proof.
  intros Hs. split; [apply refused_call|]. intros rc o Hc.
  apply call_outcome in Hc as (s' & -> & [Hm _ _ Ht Hw] & _). exists s'. split_and!; auto. by apply Hw, reached_wf.
Qed.
End States.

(** ** Numbers *)

Lemma digit_val d : 0 <= d < 10 -> b2z (digit_char d) = 48 + d.
Proof. intros Hd. unfold digit_char. rewrite b2z_z2b. apply Z.mod_small. lia. Qed.

Definition is_dec (c : byte) : Prop := 48 <= b2z c < 58.

Lemma digits_rev_dec base n v : 2 <= base <= 10 -> Forall is_dec (digits_rev base n v).
Proof.
  intros Hb. revert v. induction n as [|n IH]; intros v; cbn [digits_rev]; [constructor|]. constructor.
  - unfold is_dec. pose proof (Z.mod_pos_bound v base). rewrite digit_val by lia. lia.
  - destruct (v <? base); [constructor|apply IH].
Qed.

Lemma number_digit base d rest acc : 2 <= base <= 10 -> 0 <= d < base -> number base (digit_char d :: rest) acc = number base rest (acc * base + d).
Proof.
  intros Hb Hd. cbn [number]. rewrite digit_val by lia. rewrite (proj2 (Z.leb_le 48 _)), (proj2 (Z.ltb_lt _ _)) by lia. cbn [andb]. f_equal. lia.
Qed.

Lemma number_digits base n v rest : 2 <= base <= 10 -> 0 <= v < base ^ Z.of_nat (S n) -> number base (rev (digits_rev base (S n) v) ++ rest) 0 = number base rest v.
Proof.
  intros Hb. revert v rest. induction n as [|n IH]; intros v rest Hv; pose proof (Z.mod_pos_bound v base ltac:(lia)) as Hm;
    change (digits_rev base (S ?k) v) with (digit_char (v mod base) :: (if v <? base then [] else digits_rev base k (v / base))).
  - rewrite Z.pow_1_r in Hv. rewrite (proj2 (Z.ltb_lt _ _)) by lia. cbn [rev app]. rewrite number_digit by lia. f_equal. rewrite Z.mod_small; lia.
  - cbn [rev]. rewrite <- app_assoc. destruct (v <? base) eqn:E.
    + cbn [rev app]. rewrite number_digit by lia. f_equal. rewrite Z.mod_small; lia.
    + rewrite IH.
      * cbn [app]. rewrite number_digit by lia. f_equal. pose proof (Z.div_mod v base ltac:(lia)). lia.
      * split; [apply Z.div_pos; lia|]. apply Z.div_lt_upper_bound; [lia|]. rewrite <- Z.pow_succ_r by lia. rewrite <- Nat2Z.inj_succ. apply Hv.
Qed.

Lemma number_zeros base k l : 2 <= base <= 10 -> number base (replicate k "0"%byte ++ l) 0 = number base l 0.
Proof.
  intros Hb. induction k as [|k IH]; [done|]. cbn [replicate app number]. change (b2z "0"%byte) with 48.
  rewrite (proj2 (Z.leb_le 48 _)), (proj2 (Z.ltb_lt _ _)) by lia. exact IH.
Qed.

(** The end of a number. *)
Definition stops (base : Z) (rest : bytes) : Prop := forall v, number base rest v = v.

Lemma strtoul_number base l rest : Forall is_dec l -> l <> [] -> 0 <= number base (l ++ rest) 0 <= ULONG_MAX ->
  strtoul_base base (l ++ rest) = number base (l ++ rest) 0.
Proof.
  intros Hl Hne Hr. destruct l as [|c l]; [done|]. inversion Hl as [|? ? Hc _]; subst. unfold is_dec in Hc. cbn [app]. unfold strtoul_base.
  assert (Hsp : skip_space (c :: l ++ rest) = c :: l ++ rest).
  { cbn [skip_space]. unfold is_space. destruct (_ || _) eqn:E; [|done]. lia. }
  rewrite Hsp. rewrite (proj2 (byte_eqb_neq c "-"%byte)), (proj2 (byte_eqb_neq c "+"%byte));
    [|intros ->; change (b2z "+"%byte) with 43 in Hc; lia|intros ->; change (b2z "-"%byte) with 45 in Hc; lia].
  cbn [app] in Hr. rewrite (proj2 (Z.ltb_ge _ _)) by lia. done.
Qed.

Lemma print_u64_read v : 0 <= v < 2 ^ 64 -> strtoul_base 10 (print_u64 v) = v.
Proof.
  intros Hv. assert (Hn : number 10 (print_u64 v ++ []) 0 = v) by (by apply (number_digits 10 19 v []); lia).
  rewrite <- (app_nil_r (print_u64 v)), strtoul_number; [done| | |rewrite Hn; unfold ULONG_MAX; lia].
  - apply Forall_rev, digits_rev_dec. lia.
  - unfold print_u64. cbn [digits_rev rev]. by destruct (rev _).
Qed.

Lemma print_octal4_dec v : Forall is_dec (print_octal4 v).
Proof.
  apply Forall_app. split; [|apply Forall_rev, digits_rev_dec; lia]. apply Forall_forall. intros c Hc. unfold zrep in Hc.
  apply elem_of_replicate in Hc as [-> _]. unfold is_dec. by vm_compute.
Qed.

Lemma print_octal4_read v : 0 <= v < 2 ^ 16 -> ssh_scp_integer_mode (print_octal4 v) = v.
Proof.
  intros Hv. assert (Hn : number 8 (print_octal4 v ++ []) 0 = v).
  { unfold print_octal4. rewrite u32_small by lia. rewrite <- app_assoc. unfold zrep. rewrite number_zeros by lia. by apply (number_digits 8 10 v []); lia. }
  unfold ssh_scp_integer_mode. rewrite <- (app_nil_r (print_octal4 v)), strtoul_number.
  - rewrite Hn. change 0xffff with (Z.ones 16). rewrite Z.land_ones by lia. by apply Z.mod_small.
  - apply print_octal4_dec.
  - unfold print_octal4. cbn [digits_rev rev]. intros Hx. apply app_eq_nil in Hx as [_ Hx]. by destruct (rev _).
  - rewrite Hn. unfold ULONG_MAX. lia.
Qed.

Lemma print_octal4_short v : zlen (print_octal4 v) <= 11.
Proof.
  assert (Hl : forall n w, (length (digits_rev 8 n w) <= n)%nat).
  { induction n as [|n IH]; intros w; cbn [digits_rev length]; [lia|]. destruct (w <? 8); cbn [length]; [lia|]. specialize (IH (w / 8)). lia. }
  unfold print_octal4. rewrite zlen_app, zlen_rep. specialize (Hl 11%nat (u32 v)). unfold zlen. rewrite length_rev. lia.
Qed.

(** ** Lines on the stream *)

Lemma split_char c a b : Forall (fun x => x <> c) a -> split_at_char c (a ++ c :: b) = Some (a, b).
Proof.
  intros Ha. induction Ha as [|x a Hx Ha IH]; cbn [app split_at_char]; [by rewrite byte_eqb_refl|].
  rewrite (proj2 (byte_eqb_neq x c)) by done. by rewrite IH.
Qed.

Lemma until_nul_text t : Forall (fun x => x <> Byte.x00) t -> until_nul t = t.
Proof. intros Ht. induction Ht as [|x t Hx Ht IH]; [done|]. cbn [until_nul]. rewrite (proj2 (byte_eqb_neq x _)) by done. by rewrite IH. Qed.

Lemma dec_not c l : Forall is_dec l -> ~ is_dec c -> Forall (fun x => x <> c) l.
Proof. intros Hl Hc. eapply Forall_impl; [exact Hl|]. by intros x Hx ->. Qed.

Lemma not_decs : ~ is_dec newline /\ ~ is_dec Byte.x00 /\ ~ is_dec space.
Proof. unfold is_dec. change (b2z newline) with 10. change (b2z Byte.x00) with 0. change (b2z space) with 32. lia. Qed.

(** A name without newlines, for which they stand in the quoted form. *)
Definition vis (t : bytes) : bytes := concat (map (fun c => if Byte.eqb c newline then [backslash; "n"%byte] else [c]) t).

Lemma puts_fit cap : forall s out, zlen out + zlen s <= cap -> puts cap out s = Some (out ++ s).
Proof.
  induction s as [|c s IH]; intros out Hfit; cbn [puts]; [by rewrite app_nil_r|]. rewrite zlen_cons in Hfit. pose proof (zlen_nonneg s).
  unfold put. rewrite (proj2 (Z.ltb_lt _ _)) by lia. cbn [mbind option_bind]. rewrite IH by zlen_lia. by rewrite <- app_assoc.
Qed.

Lemma vis_zlen t : zlen t <= zlen (vis t) <= 2 * zlen t.
Proof.
  unfold vis. induction t as [|c t IH]; [done|]. cbn [map concat]. rewrite zlen_app, zlen_cons. destruct (Byte.eqb c newline);
    [change (zlen [backslash; "n"%byte]) with 2|change (zlen [c]) with 1]; lia.
Qed.

Lemma newline_loop_vis cap : forall s out, zlen out + 2 * zlen s <= cap -> newline_loop cap s out = Some (out ++ vis s).
Proof.
  induction s as [|c s IH]; intros out Hfit; cbn [newline_loop]; [by rewrite app_nil_r|]. rewrite zlen_cons in Hfit. pose proof (zlen_nonneg s).
  unfold vis. cbn [map concat]. fold (vis s). destruct (Byte.eqb c newline).
  - rewrite puts_fit by (change (zlen [backslash; "n"%byte]) with 2; lia). cbn [mbind option_bind]. rewrite IH by (rewrite zlen_app; change (zlen [backslash; "n"%byte]) with 2; lia).
    by rewrite <- app_assoc.
  - unfold put. rewrite (proj2 (Z.ltb_lt _ _)) by lia. cbn [mbind option_bind]. rewrite IH by zlen_lia. by rewrite <- app_assoc.
Qed.

Lemma vis_chars c t : c <> backslash -> c <> "n"%byte -> (c = newline \/ Forall (fun x => x <> c) t) -> Forall (fun x => x <> c) (vis t).
Proof.
  intros Hb Hn Hc. unfold vis. induction t as [|x t IH]; [constructor|]. cbn [map concat]. apply Forall_app. split.
  - destruct (Byte.eqb x newline) eqn:E; [repeat constructor; congruence|]. repeat constructor. intros ->. destruct Hc as [->|Hc]; [by rewrite byte_eqb_refl in E|]. by inversion Hc.
  - apply IH. destruct Hc as [?|Hc]; [by left|right]. by inversion Hc.
Qed.

Section Transfers.
Context `{Allocator} {Ch : Type} `{ScpChannel Ch} `{!ChannelStream Ch}.
#[local] Abbreviation scp := (ssh_scp Ch).
Implicit Type s : scp.

(** A channel whose reads wait for data. *)
Definition blocks (c : Ch) : Prop := ch_ok c /\ lag c = 0%nat.

(** What remains of a channel: the bytes to come, and those that were written. *)
Record on_stream s s' (i o : bytes) : Prop := {
  os_moved : moved s s';
  os_blocks : blocks (scp_channel s');
  os_in : incoming (scp_channel s') = i;
  os_out : outgoing (scp_channel s') = o
}.

Lemma on_stream_trans s1 s2 s3 i2 o2 i3 o3 : on_stream s1 s2 i2 o2 -> on_stream s2 s3 i3 o3 -> on_stream s1 s3 i3 o3.
Proof. intros [M1 _ _ _] [M2 ? ? ?]. constructor; try done. by eapply moved_trans. Qed.

Lemma scp_read_some s n : blocks (scp_channel s) -> 0 < n < 2 ^ 31 -> incoming (scp_channel s) <> [] ->
  exists d i s', scp_read s n = Some (zlen d, d, s') /\ incoming (scp_channel s) = d ++ i /\ 0 < zlen d <= n
    /\ on_stream s s' i (outgoing (scp_channel s)).
Proof.
  intros [Hok Hlag] Hn Hne. destruct (read_law (scp_channel s) n Hok Hn) as (r & d & c' & Hr & Hok' & Hle & _ & Ho & Hi & Hl & Hneg & Hz & Hzero).
  assert (Hpos : 0 < r).
  { destruct (Z.lt_trichotomy r 0) as [?|[->|?]]; [by destruct Hne; apply Hneg|destruct (Hzero eq_refl) as [?|[? _]]; [lia|done]|done]. }
  unfold scp_read. rewrite Hr. cbn [mbind option_bind]. rewrite <- (Hz ltac:(lia)) in *. exists d, (incoming c'). eexists. split_and!; [done|done|lia|lia|].
  constructor; [by eexists|split; [done|cbn; lia]|done|done].
Qed.

Lemma scp_read_byte s c i : blocks (scp_channel s) -> incoming (scp_channel s) = c :: i ->
  exists s', scp_read s 1 = Some (1, [c], s') /\ on_stream s s' i (outgoing (scp_channel s)).
Proof.
  intros Hb Hin. destruct (scp_read_some s 1 Hb ltac:(lia)) as (d & i' & s' & -> & Hd & Hl & Hs); [by rewrite Hin|]. rewrite Hin in Hd.
  destruct d as [|x [|y d]]; [change (zlen (@nil Byte.byte)) with 0 in Hl; lia| |rewrite !zlen_cons in Hl; pose proof (zlen_nonneg d); lia].
  injection Hd as <- <-. by exists s'.
Qed.

Lemma scp_write_all s d : blocks (scp_channel s) -> zlen d < 2 ^ 31 ->
  exists s', scp_write s d = Some (zlen d, s') /\ on_stream s s' (incoming (scp_channel s)) (outgoing (scp_channel s) ++ d).
Proof.
  intros [Hok Hlag] Hd. destruct (write_law (scp_channel s) d Hok Hd) as (c' & Hw & Hok' & Ho & Hi & Hl & _).
  unfold scp_write. rewrite Hw. cbn [mbind option_bind]. eexists. split; [done|]. constructor; [by eexists|split; [done|cbn; lia]|done|done].
Qed.

Lemma read_line_spec : forall l n err got s more, blocks (scp_channel s) -> incoming (scp_channel s) = l ++ newline :: more ->
  Forall (fun x => x <> newline) l -> (length l < n)%nat ->
  exists s', read_line n err got s = Some (1, got ++ l ++ [newline], s') /\ on_stream s s' more (outgoing (scp_channel s)).
Proof.
  induction l as [|c l IH]; intros n err got s more Hb Hin Hl Hn; (destruct n as [|n]; [cbn [length] in Hn; lia|]); cbn [app] in Hin; cbn [read_line].
  - destruct (scp_read_byte s newline more Hb Hin) as (s' & -> & Hs). cbn [mbind option_bind]. change (1 =? SSH_ERROR) with false. change (1 =? 0) with false. cbv iota.
    rewrite byte_eqb_refl. by exists s'.
  - inversion Hl as [|? ? Hc Hl']; subst. destruct (scp_read_byte s c (l ++ newline :: more) Hb Hin) as (s1 & -> & Hs1). cbn [mbind option_bind].
    change (1 =? SSH_ERROR) with false. change (1 =? 0) with false. cbv iota. rewrite (proj2 (byte_eqb_neq c newline)) by done.
    destruct (IH n 1 (got ++ [c]) s1 more) as (s' & -> & Hs'); [apply Hs1|apply Hs1|done|cbn [length] in Hn; lia|].
    exists s'. split; [by rewrite <- app_assoc|]. rewrite <- (os_out _ _ _ _ Hs1). by eapply on_stream_trans.
Qed.

Lemma response_ok s more : blocks (scp_channel s) -> incoming (scp_channel s) = Byte.x00 :: more ->
  exists s', ssh_scp_response s = Some (0, None, s') /\ on_stream s s' more (outgoing (scp_channel s)).
Proof. intros Hb Hin. unfold ssh_scp_response. destruct (scp_read_byte s _ _ Hb Hin) as (s' & -> & Hs). by exists s'. Qed.

(** ** From the source to the sink *)

Definition entry_line (letter : byte) (size name : bytes) (mode : Z) : bytes :=
  [letter] ++ print_octal4 mode ++ [space] ++ size ++ [space] ++ name.

(** A name that fits in a line, of a path whose last part it is. *)
Record pushed_name (path base : bytes) : Prop := {
  pn_base : ssh_basename (Some path) = Some base;
  pn_some : base <> [];
  pn_text : Forall (fun x => x <> Byte.x00) base;
  pn_fits : zlen (vis base) <= 950
}.

Lemma push_line_spec letter size path base mode : malloc_succeeds -> pushed_name path base -> zlen size <= 20 ->
  push_line letter size path mode = Some (Some (entry_line letter size (vis base) mode ++ [newline])).
Proof.
  intros Hm [Hbase Hne _ Hfit] Hsize. pose proof (vis_zlen base) as Hv. pose proof (zlen_nonneg base). pose proof (print_octal4_short mode) as Hp.
  unfold push_line, alloc. rewrite Hbase. destruct (malloc (2 * zlen base + 1)) eqn:E; [|apply Hm in E; [done|unfold BUFFER_SIZE_MAX; lia]]. cbn [some negb].
  unfold ssh_newline_vis. cbn [negb orb]. rewrite (proj2 (Z.eqb_neq _ 0)), Z.ltb_irrefl by lia. rewrite newline_loop_vis by (change (zlen (@nil Byte.byte)) with 0; lia).
  cbn [app mbind option_bind]. unfold put. destruct (zlen (vis base) <? 2 * zlen base + 1) eqn:E2; [|lia]. cbn [mbind option_bind].
  assert (Hpos : 0 < zlen (vis base)) by (destruct base; [done|rewrite zlen_cons in Hv; pose proof (zlen_nonneg base); lia]).
  rewrite s32_small by lia. rewrite (proj2 (Z.leb_gt _ _)) by lia. unfold ssh_scp_string_mode, strdup, alloc_fails, snprintf.
  rewrite (ztake_all 15) by lia. destruct (malloc (zlen (print_octal4 mode) + 1)) eqn:E3; [|apply Hm in E3; [done|unfold BUFFER_SIZE_MAX; pose proof (zlen_nonneg (print_octal4 mode)); lia]].
  do 2 f_equal. unfold entry_line. change (cstr " ") with [space]. rewrite <- !app_assoc. apply ztake_all. rewrite !zlen_app.
  change (zlen [letter]) with 1. change (zlen [space]) with 1. change (zlen [newline]) with 1. lia.
Qed.

Lemma send_line_ok s line more : blocks (scp_channel s) -> incoming (scp_channel s) = Byte.x00 :: more -> zlen line < 2 ^ 31 ->
  exists s', send_line s line = Some (SSH_OK, s') /\ on_stream s s' more (outgoing (scp_channel s) ++ line).
Proof.
  intros Hb Hin Hl. unfold send_line. destruct (scp_write_all s line Hb Hl) as (s1 & -> & Hs1). cbn [mbind option_bind].
  rewrite (proj2 (Z.eqb_neq _ _)) by (unfold SSH_ERROR; pose proof (zlen_nonneg line); lia).
  destruct (response_ok s1 more) as (s2 & -> & Hs2); [apply Hs1|by rewrite (os_in _ _ _ _ Hs1)|]. cbn [mbind option_bind]. change (negb (0 =? 0)) with false. cbv iota.
  exists s2. split; [done|]. rewrite <- (os_out _ _ _ _ Hs1). by eapply on_stream_trans.
Qed.

(** What the sink knows of an entry. *)
Record entry_known (type : Z) (name : bytes) (len mode : Z) (s' : scp) (i o : bytes) : Prop := {
  en_state : state s' = SSH_SCP_READ_REQUESTED;
  en_type : request_type s' = type;
  en_name : request_name s' = Some name;
  en_len : filelen s' = len;
  en_done : processed s' = 0;
  en_mode : request_mode s' = mode;
  en_blocks : blocks (scp_channel s');
  en_in : incoming (scp_channel s') = i;
  en_out : outgoing (scp_channel s') = o
}.

Lemma pull_line s (file : bool) size name mode more : malloc_succeeds -> state s = SSH_SCP_READ_INITED -> blocks (scp_channel s) ->
  0 <= mode < 2 ^ 16 -> Forall is_dec size -> zlen size <= 20 -> Forall (fun x => x <> newline) name -> Forall (fun x => x <> Byte.x00) name -> zlen name <= 950 ->
  incoming (scp_channel s) = entry_line (if file then "C"%byte else "D"%byte) size name mode ++ newline :: more ->
  exists s', ssh_scp_pull_request (Some s) = Some (if file then SSH_SCP_REQUEST_NEWFILE else SSH_SCP_REQUEST_NEWDIR, Some s')
    /\ entry_known (if file then SSH_SCP_REQUEST_NEWFILE else SSH_SCP_REQUEST_NEWDIR) name (if file then strtoul_base 10 size else 48) mode s'
         more (outgoing (scp_channel s)).
Proof.
  intros Hm Hst Hb Hmode Hsz Hszl Hnl Hnn Hnlen Hin. set (letter := if file then "C"%byte else "D"%byte) in *.
  assert (Hletter : ~ is_dec letter /\ letter <> newline /\ letter <> Byte.x00 /\ letter <> space).
  { unfold is_dec. destruct file; (split_and!; [|done..]); [change (b2z letter) with 67|change (b2z letter) with 68]; lia. }
  destruct Hletter as (Hl1 & Hl2 & Hl3 & Hl4). destruct not_decs as (Hd1 & Hd2 & Hd3).
  pose proof (print_octal4_dec mode) as Hpd. pose proof (print_octal4_short mode) as Hps.
  assert (Hnone : forall c, ~ is_dec c -> c <> letter -> c <> space -> Forall (fun x => x <> c) name -> Forall (fun x => x <> c) (entry_line letter size name mode)).
  { intros c Hd ? ? Hname. assert (Hone : forall x, x <> c -> Forall (fun y => y <> c) [x]) by (by intros; constructor).
    unfold entry_line. rewrite !Forall_app. split_and!; [by apply Hone|by apply dec_not|by apply Hone|by apply dec_not|by apply Hone|done]. }
  assert (Hlen : zlen (entry_line letter size name mode) <= 1000).
  { unfold entry_line. rewrite !zlen_app. change (zlen [letter]) with 1. change (zlen [space]) with 1. lia. }
  unfold ssh_scp_pull_request, in_state. rewrite bool_decide_true by done. cbn [negb]. unfold ssh_scp_read_string.
  destruct (read_line_spec (entry_line letter size name mode) (Z.to_nat (MAX_BUF_SIZE - 1)) SSH_OK [] s more Hb Hin) as (s1 & -> & Hs1);
    [by apply Hnone|unfold zlen, MAX_BUF_SIZE in *; lia|]. cbn [app mbind option_bind]. change (1 =? SSH_ERROR) with false. cbv iota zeta.
  rewrite until_nul_text by (apply Forall_app; split; [by apply Hnone|by repeat constructor]).
  rewrite split_char by (by apply Hnone). destruct Hs1 as [[c ->] Hb1 Hi1 Ho1]. cbn [scp_channel set_chan] in *.
  assert (Hline : exists t, entry_line letter size name mode = letter :: t) by (by eexists). destruct Hline as (t & Ht). rewrite Ht. rewrite <- Ht.
  assert (Hcd : Byte.eqb letter "C" || Byte.eqb letter "D" = true) by (by destruct file). rewrite Hcd. unfold pull_entry.
  change (entry_line letter size name mode) with (([letter] ++ print_octal4 mode) ++ space :: size ++ space :: name).
  rewrite split_char by (apply Forall_app; split; [by repeat constructor|by apply dec_not]).
  rewrite split_char by (by apply dec_not). change (zdrop 1 ([letter] ++ print_octal4 mode)) with (print_octal4 mode). rewrite print_octal4_read by done.
  assert (Hc : Byte.eqb letter "C" = file) by (by destruct file). rewrite Hc. cbn [mbind option_bind].
  unfold strdup, alloc_fails. destruct (malloc (zlen name + 1)) eqn:E; [|apply Hm in E; [done|unfold BUFFER_SIZE_MAX; pose proof (zlen_nonneg name); lia]].
  eexists. split; [done|]. by constructor.
Qed.

(** A file that is pushed is pulled as it is: the line that [ssh_scp_push_file64] sends of a path, a size and a mode is
    for [ssh_scp_pull_request] of the other side a new file with that size and mode, under the last part of
    the path, in which a newline is shown; and the source writes once the sink says so. *)
Theorem pushed_file_is_announced src path base size mode more :
  malloc_succeeds -> state src = SSH_SCP_WRITE_INITED -> blocks (scp_channel src) -> pushed_name path base -> 0 <= size < 2 ^ 64 -> 0 <= mode < 2 ^ 16 ->
  incoming (scp_channel src) = Byte.x00 :: more ->
  exists line src', ssh_scp_push_file64 (Some src) path size mode = Some (SSH_OK, Some src')
    /\ outgoing (scp_channel src') = outgoing (scp_channel src) ++ line /\ state src' = SSH_SCP_WRITE_WRITING
    /\ filelen src' = size /\ processed src' = 0
    /\ forall dst rest, state dst = SSH_SCP_READ_INITED -> blocks (scp_channel dst) -> incoming (scp_channel dst) = line ++ rest ->
         exists dst', ssh_scp_pull_request (Some dst) = Some (SSH_SCP_REQUEST_NEWFILE, Some dst')
           /\ entry_known SSH_SCP_REQUEST_NEWFILE (vis base) size mode dst' rest (outgoing (scp_channel dst)).
Proof.
  intros Hm Hst Hb Hname Hsize Hmode Hin. set (line := entry_line "C"%byte (print_u64 size) (vis base) mode).
  assert (Hsz : zlen (print_u64 size) <= 20).
  { assert (Hl : forall n w, (length (digits_rev 10 n w) <= n)%nat).
    { induction n as [|n IH]; intros w; cbn [digits_rev length]; [lia|]. destruct (w <? 10); cbn [length]; [lia|]. specialize (IH (w / 10)). lia. }
    unfold print_u64, zlen. rewrite length_rev. specialize (Hl 20%nat size). lia. }
  assert (Hline : zlen line <= 1000).
  { unfold line, entry_line. rewrite !zlen_app. change (zlen ["C"%byte]) with 1. change (zlen [space]) with 1. pose proof (print_octal4_short mode). pose proof (pn_fits _ _ Hname). lia. }
  unfold ssh_scp_push_file64, in_state. rewrite bool_decide_true by done. cbn [negb]. rewrite (push_line_spec _ _ path base mode) by done. cbn [mbind option_bind].
  fold line. destruct (send_line_ok src (line ++ [newline]) more Hb Hin) as (s1 & -> & [[c ->] Hb1 Hi1 Ho1]); [rewrite zlen_app; change (zlen [newline]) with 1; lia|].
  cbn [mbind option_bind]. change (SSH_OK =? SSH_OK) with true. cbv iota. exists (line ++ [newline]). eexists. split_and!; [done|exact Ho1|done..|].
  intros dst rest Hds Hdb Hdin. rewrite <- app_assoc in Hdin. cbn [app] in Hdin.
  destruct (pull_line dst true (print_u64 size) (vis base) mode rest) as (dst' & Hp & He); try done.
  - apply Forall_rev, digits_rev_dec. lia.
  - apply vis_chars; [done|done|by left].
  - apply vis_chars; [done|done|right; apply Hname].
  - apply Hname.
  - exists dst'. split; [exact Hp|]. cbn [negb] in He. by rewrite print_u64_read in He.
Qed.

(** ** Reading a file *)

(** A program that reads the open file with buffers of these sizes. *)
Fixpoint pull_all (sizes : list Z) s : run (bytes * scp) :=
  match sizes with
  | [] => Some ([], s)
  | n :: sizes =>
      '(rc, d, o) ← ssh_scp_read (Some s) n;
      s ← o;
      if rc <? 0 then Some ([], s) else
      if negb (bool_decide (state s = SSH_SCP_READ_READING)) then Some (d, s) else
      '(more, s) ← pull_all sizes s; Some (d ++ more, s)
  end.

(** An open file of which [data] is still to come. *)
Record reading s (data rest : bytes) : Prop := {
  rd_state : state s = SSH_SCP_READ_READING;
  rd_blocks : blocks (scp_channel s);
  rd_sizes : 0 <= processed s /\ processed s + zlen data = filelen s /\ filelen s < 2 ^ 62;
  rd_in : incoming (scp_channel s) = data ++ Byte.x00 :: rest
}.

Lemma scp_read_spec s n data rest : reading s data rest -> data <> [] -> 0 < n < 2 ^ 31 ->
  exists d more s', ssh_scp_read (Some s) n = Some (zlen d, d, Some s') /\ data = d ++ more /\ d <> []
    /\ (more <> [] /\ reading s' more rest /\ outgoing (scp_channel s') = outgoing (scp_channel s)
        \/ more = [] /\ state s' = SSH_SCP_READ_INITED /\ blocks (scp_channel s') /\ incoming (scp_channel s') = rest
           /\ outgoing (scp_channel s') = outgoing (scp_channel s) ++ [Byte.x00]).
Proof.
  intros [Hst Hb (Hp & Hlen & Hmax) Hin] Hne Hn. assert (Hpos : 0 < zlen data) by (destruct data; [done|rewrite zlen_cons; pose proof (zlen_nonneg data); lia]).
  unfold ssh_scp_read. rewrite Hst. cbn [bool_decide decide andb]. rewrite bool_decide_false by done. cbn [andb mbind option_bind].
  change (SSH_OK =? SSH_ERROR) with false. cbv iota. rewrite Hst, bool_decide_true by done. cbn [negb]. unfold read_open.
  rewrite u64_small by lia. set (n1 := if filelen s <? processed s + n then u64 (filelen s - processed s) else n).
  assert (Hn1 : 0 < n1 <= zlen data /\ n1 < 2 ^ 31).
  { unfold n1. destruct (filelen s <? processed s + n) eqn:E; [rewrite u64_small by lia|]; lia. }
  set (n2 := if 65536 <? n1 then 65536 else n1). assert (Hn2 : 0 < n2 <= zlen data /\ n2 < 2 ^ 31) by (unfold n2; destruct (65536 <? n1) eqn:E; lia).
  destruct (scp_read_some s n2 Hb) as (d & i & s1 & -> & Hi & Hd & [[c ->] Hb1 Hi1 Ho1]); [lia|rewrite Hin; by destruct data|]. cbn [mbind option_bind].
  rewrite (proj2 (Z.eqb_neq _ _)) by (unfold SSH_ERROR; lia). cbn [processed filelen set_sizes set_chan scp_channel] in *.
  rewrite Hin in Hi. assert (Hsplit : data = d ++ zdrop (zlen d) data /\ i = zdrop (zlen d) data ++ Byte.x00 :: rest).
  { assert (Hda : d = ztake (zlen d) data).
    { apply (f_equal (ztake (zlen d))) in Hi. rewrite ztake_app_le in Hi by lia. rewrite (ztake_app_le (zlen d) d), (ztake_all (zlen d) d) in Hi by lia. done. }
    rewrite <- (ztake_drop (zlen d) data), <- Hda, <- app_assoc in Hi. apply app_inv_head in Hi. split; [|done]. by rewrite Hda at 1; rewrite ztake_drop. }
  destruct Hsplit as [Hdata ->]. set (more := zdrop (zlen d) data) in *. assert (Hml : zlen more = zlen data - zlen d) by (unfold more; zlen_lia).
  rewrite u64_small by lia. destruct (processed s + zlen d =? filelen s) eqn:E.
  - assert (Hmore : more = []) by (destruct more; [done|rewrite zlen_cons in Hml; pose proof (zlen_nonneg more); lia]). rewrite Hmore in *. cbn [app] in Hi1.
    match goal with |- context [scp_write ?x _] => set (s2 := x) end.
    destruct (scp_write_all s2 [Byte.x00] Hb1) as (s3 & -> & Hs3); [done|]. cbn [mbind option_bind].
    destruct (response_ok s3 rest) as (s4 & -> & Hs4); [apply Hs3|by rewrite (os_in _ _ _ _ Hs3)|]. cbn [mbind option_bind]. change (0 =? 0) with true. cbv iota.
    exists d, []. eexists. split; [done|]. split_and!; [done|intros ->; change (zlen (@nil Byte.byte)) with 0 in Hd; lia|right].
    split_and!; [done|done|apply Hs4|apply Hs4|]. cbn [scp_channel set_state]. rewrite (os_out _ _ _ _ Hs4), (os_out _ _ _ _ Hs3). unfold s2. cbn [scp_channel set_sizes set_chan]. by rewrite Ho1.
  - exists d, more. eexists. split; [done|]. split_and!; [done|intros ->; change (zlen (@nil Byte.byte)) with 0 in Hd; lia|left].
    split_and!; [intros Hx; rewrite Hx in Hml; change (zlen (@nil Byte.byte)) with 0 in Hml; lia| |exact Ho1].
    constructor; [done|exact Hb1|cbn; lia|exact Hi1].
Qed.

Lemma pull_all_spec : forall sizes s data rest, reading s data rest -> data <> [] -> Forall (fun n => 0 < n < 2 ^ 31) sizes -> (length data <= length sizes)%nat ->
  exists s', pull_all sizes s = Some (data, s') /\ state s' = SSH_SCP_READ_INITED /\ blocks (scp_channel s') /\ incoming (scp_channel s') = rest
    /\ outgoing (scp_channel s') = outgoing (scp_channel s) ++ [Byte.x00].
Proof.
  induction sizes as [|n sizes IH]; intros s data rest Hr Hne Hs Hl; [destruct data; [done|cbn [length] in Hl; lia]|].
  inversion Hs as [|? ? Hn Hs']; subst. cbn [pull_all]. destruct (scp_read_spec s n data rest Hr Hne Hn) as (d & more & s1 & -> & -> & Hd & Hres). cbn [mbind option_bind].
  rewrite (proj2 (Z.ltb_ge _ _)) by apply zlen_nonneg. destruct Hres as [(Hm & Hr1 & Ho1)|(-> & Hst & Hb & Hi & Ho)].
  - rewrite (rd_state _ _ _ Hr1), bool_decide_true by done. cbn [negb].
    destruct (IH s1 more rest Hr1 Hm Hs') as (s' & -> & ? & ? & ? & Ho'); [rewrite length_app in Hl; destruct d; [done|cbn [length] in Hl; lia]|].
    cbn [mbind option_bind]. exists s'. split_and!; try done. by rewrite Ho', Ho1.
  - rewrite Hst, bool_decide_false by done. cbn [negb]. exists s1. by rewrite app_nil_r.
Qed.

(** (C35) A file that was accepted is read whole: with buffers of any sizes, over a channel that gives the bytes in any pieces,
    what the calls of [ssh_scp_read] return is the file, byte for byte and nothing of what follows;
    after the last byte the file is acknowledged, the status of the source is
    taken from the stream and the context waits for the next request. *)
Theorem pulled_file_is_whole sizes s data rest : reading s data rest -> data <> [] -> Forall (fun n => 0 < n < 2 ^ 31) sizes ->
  (length data <= length sizes)%nat ->
  exists s', pull_all sizes s = Some (data, s') /\ state s' = SSH_SCP_READ_INITED
    /\ incoming (scp_channel s') = rest /\ outgoing (scp_channel s') = outgoing (scp_channel s) ++ [Byte.x00].
Proof. intros Hr Hne Hs Hl. destruct (pull_all_spec sizes s data rest Hr Hne Hs Hl) as (s' & ? & ? & _ & ? & ?). by exists s'. Qed.
End Transfers.

(** ** On a channel of chunks

    The command is written to the stream, so that it can be seen. *)

#[export] Instance pipe_scp : ScpChannel pipe := {|
  scp_base := pipe_channel;
  chan_request_exec d p := Some (0, mk_pipe (chunks p) (sent p ++ d) (peer_openssh p));
  chan_close p := Some (0, p)
|}.

Definition demo_pipe (cs : list bytes) : pipe := mk_pipe cs [] 0.
Definition demo_scp (mode : Z) (loc : bytes) (cs : list bytes) : ssh_scp pipe :=
  mk_scp mode false true (demo_pipe cs) loc SSH_SCP_NEW 0 0 0 None None 0.
Definition demo_in (st : ssh_scp_states) (len : Z) (s : ssh_scp pipe) : ssh_scp pipe := set_sizes len 0 (set_state st s).

Example demo_new : @ssh_scp_new calloc_allocator _ (Some (demo_pipe [[Byte.x00]])) SSH_SCP_WRITE (cstr "in") = Some (set_chan false (demo_pipe [[Byte.x00]]) (demo_scp SSH_SCP_WRITE (cstr "in") [])).
Proof. reflexivity. Qed.

(** Witness: a new context that writes cannot be read, and opening it gives one that writes. *)
Lemma scp_states_respected_witness :
  let s := set_chan false (demo_pipe [[Byte.x00]]) (demo_scp SSH_SCP_WRITE (cstr "in") []) in
  @run_scp_call calloc_allocator _ pipe_scp 9 (CRead 5) s = Some (SSH_ERROR, Some s)
  /\ exists s', @run_scp_call calloc_allocator _ pipe_scp 9 CInit s = Some (SSH_OK, Some s')
     /\ scp_mode s' = SSH_SCP_WRITE /\ call_target CInit SSH_SCP_WRITE (state s') = true.
Proof.
  intros s. assert (Hs : @scp_reached calloc_allocator pipe pipe_scp 9 s).
  { apply (reached_new (H:=calloc_allocator) 9 (Some (demo_pipe [[Byte.x00]])) SSH_SCP_WRITE (cstr "in")). reflexivity. }
  split.
  - apply (@scp_states_respected calloc_allocator pipe pipe_scp 9 (CRead 5) s Hs). reflexivity.
  - destruct (@scp_states_respected calloc_allocator pipe pipe_scp 9 CInit s Hs) as [_ H].
    destruct (@run_scp_call calloc_allocator pipe pipe_scp 9 CInit s) as [[rc o]|] eqn:E; [|vm_compute in E; discriminate E].
    destruct (H rc o eq_refl) as (s' & -> & _ & Hm & Ht). exists s'.
    split_and!; [f_equal; f_equal; vm_compute in E; injection E as <-; reflexivity|exact Hm|].
    destruct Ht as [Ht|Ht]; [|exact Ht]. exfalso. vm_compute in E. injection E as _ <-. vm_compute in Ht. discriminate Ht.
Defined.

Lemma demo_name : @pushed_name calloc_allocator (cstr "out/a b.txt") (cstr "a b.txt").
Proof. constructor; [reflexivity|discriminate|repeat constructor; discriminate|apply Z.leb_le; reflexivity]. Qed.

Lemma pushed_file_is_announced_witness :
  let src := demo_in SSH_SCP_WRITE_INITED 0 (demo_scp SSH_SCP_WRITE (cstr "in") [[Byte.x00]]) in
  exists line src', @ssh_scp_push_file64 calloc_allocator _ pipe_scp (Some src) (cstr "out/a b.txt") 12 420 = Some (SSH_OK, Some src')
    /\ outgoing (scp_channel src') = [] ++ line /\ state src' = SSH_SCP_WRITE_WRITING /\ filelen src' = 12 /\ processed src' = 0
    /\ forall dst rest, state dst = SSH_SCP_READ_INITED -> blocks (scp_channel dst) -> incoming (scp_channel dst) = line ++ rest ->
         exists dst', @ssh_scp_pull_request calloc_allocator _ pipe_scp (Some dst) = Some (SSH_SCP_REQUEST_NEWFILE, Some dst')
           /\ entry_known SSH_SCP_REQUEST_NEWFILE (vis (cstr "a b.txt")) 12 420 dst' rest (outgoing (scp_channel dst)).
Proof.
  intros src. apply (@pushed_file_is_announced calloc_allocator pipe pipe_scp pipe_stream src (cstr "out/a b.txt") (cstr "a b.txt") 12 420 []);
    [exact Demo.calloc_succeeds|reflexivity|split; [exact I|reflexivity]|exact demo_name|lia|lia|reflexivity].
Defined.

Lemma pulled_file_is_whole_witness :
  let s := demo_in SSH_SCP_READ_READING 5 (demo_scp SSH_SCP_READ (cstr "in") [cstr "ab"; cstr "cde" ++ [Byte.x00]; cstr "next"]) in
  exists s', @pull_all calloc_allocator _ pipe_scp [1; 100; 2; 9; 9] s = Some (cstr "abcde", s') /\ state s' = SSH_SCP_READ_INITED
    /\ incoming (scp_channel s') = cstr "next" /\ outgoing (scp_channel s') = [] ++ [Byte.x00].
Proof.
  intros s. apply (@pulled_file_is_whole calloc_allocator pipe pipe_scp pipe_stream [1; 100; 2; 9; 9] s (cstr "abcde") (cstr "next"));
    [|discriminate|repeat constructor; lia|apply Nat.leb_le; reflexivity].
  constructor; [reflexivity|split; [exact I|reflexivity]|split_and!; [apply Z.leb_le; reflexivity|reflexivity|apply Z.ltb_lt; reflexivity]|reflexivity].
Defined.

(** A location that is longer than the buffer of the command loses its closing quote: the
    shell of the other side gets a command that has no end. *)
Example long_location_unclosed :
  ('(rc, o) ← @ssh_scp_init calloc_allocator _ pipe_scp (Some (demo_scp SSH_SCP_WRITE (cstr "/" ++ zrep 1200 "a"%byte) [[Byte.x00]]));
   s ← o; Some (rc, bool_decide (sent (scp_channel s) = cstr "scp -t  '/" ++ zrep 1013 "a"%byte)))
  = Some (SSH_OK, true).
Proof. vm_compute. reflexivity. Qed.
