(* ===== verification/Handshake.v ===== *)
(** * The start of a connection ([libssh/src/client.c], [server.c], [packet_cb.c], [curve25519.c])

    The exchange of banners, the connection callbacks of the two roles, the curve25519
    exchange and the handler of NEWKEYS, over the packets, proposals and keys of the other files.
    A connection is a session with the fields these functions add to it.  OpenSSL gives the
    key pairs; the other exchange methods are arguments. *)

From stdpp Require Import gmap.
From S2P Require Import Prelude SshString Buffer Bignum BufferPack Token Misc Session Crypto Packet PacketRecv Kex Kdf SessionId.
From S2P Require Import Libcrypto NewKeys Pki.

(** The X25519 functions of OpenSSL: a key pair and the derivation of a secret. *)
Class X25519Lib `{RandomLib} := {
  x25519_keygen : prng -> option (bytes * bytes) * prng;   (* private and public *)
  x25519_derive : bytes -> bytes -> option bytes;          (* private key, public key of the peer *)
  (* documented behaviour *)
  x25519_keygen_size r a p r' : x25519_keygen r = (Some (a, p), r') -> zlen a = 32 /\ zlen p = 32;
  x25519_derive_size a p k : x25519_derive a p = Some k -> zlen k = 32;
  x25519_agrees r1 r1' r2 r2' a b pa pb : x25519_keygen r1 = (Some (a, pa), r1') -> x25519_keygen r2 = (Some (b, pb), r2') ->
    x25519_derive a pb = x25519_derive b pa
}.

Definition CURVE25519_PRIVKEY_SIZE : Z := 32.
Definition SSH2_MSG_KEX_ECDH_INIT : Z := 30.
Definition SSH2_MSG_KEX_ECDH_REPLY : Z := 31.
Definition SSH2_DISCONNECT_BY_APPLICATION : Z := 11.

(** [socket_callbacks.data] *)
Inductive data_reader := ReadBanner | ReadPackets.

#[export] Instance data_reader_eq : EqDecision data_reader.
Proof. solve_decision. Defined.

Section Handshake.
Context `{EvpLib} `{Allocator} `{HmacLib} `{HashLib} `{KeyLib} `{X25519Lib}.
#[local] Abbreviation session := (session cipher_state prng handshake).

(** [server_pubkey] and [curve25519_privkey] belong to [next_crypto]. *)
Record conn := mk_conn {
  base : session;
  connected : bool;
  alive : bool;
  openssh : Z;
  custombanner : option bytes;           (** [opts.custombanner] *)
  pubkey_accepted_types : option bytes;  (** [opts.pubkey_accepted_types] *)
  socket_open : bool;
  reader : data_reader;
  host_keys : option ssh_key * option ssh_key * option ssh_key * option ssh_key; (** [srv.dsa_key], rsa, ecdsa, ed25519 *)
  server_pubkey : option ssh_key;
  curve25519_privkey : bytes
}.
Implicit Type c : conn.

Definition set_base (v : session) c : conn :=
  mk_conn v (connected c) (alive c) (openssh c) (custombanner c) (pubkey_accepted_types c) (socket_open c) (reader c) (host_keys c)
    (server_pubkey c) (curve25519_privkey c).
Definition set_connected (v : bool) c : conn :=
  mk_conn (base c) v (alive c) (openssh c) (custombanner c) (pubkey_accepted_types c) (socket_open c) (reader c) (host_keys c)
    (server_pubkey c) (curve25519_privkey c).
Definition set_alive (v : bool) c : conn :=
  mk_conn (base c) (connected c) v (openssh c) (custombanner c) (pubkey_accepted_types c) (socket_open c) (reader c) (host_keys c)
    (server_pubkey c) (curve25519_privkey c).
Definition set_openssh (v : Z) c : conn :=
  mk_conn (base c) (connected c) (alive c) v (custombanner c) (pubkey_accepted_types c) (socket_open c) (reader c) (host_keys c)
    (server_pubkey c) (curve25519_privkey c).
Definition set_socket (open : bool) (r : data_reader) c : conn :=
  mk_conn (base c) (connected c) (alive c) (openssh c) (custombanner c) (pubkey_accepted_types c) open r (host_keys c)
    (server_pubkey c) (curve25519_privkey c).
Definition set_secrets (key : option ssh_key) (priv : bytes) c : conn :=
  mk_conn (base c) (connected c) (alive c) (openssh c) (custombanner c) (pubkey_accepted_types c) (socket_open c) (reader c) (host_keys c)
    key priv.

Definition no_privkey : bytes := zrep CURVE25519_PRIVKEY_SIZE Byte.x00.

Definition on_base (f : session -> session) c : conn := set_base (f (base c)) c.
Definition lift {A} (m : session -> run (A * session)) c : run (A * conn) :=
  '(a, s) ← m (base c); Some (a, set_base s c).

Definition state_of c : ssh_session_state_e := session_state (proto_of (base c)).
Definition dh_of c : ssh_dh_state_e := dh_handshake_state (proto_of (base c)).
Definition set_state (v : ssh_session_state_e) : conn -> conn :=
  on_base (fun s => set_proto (set_session_state v (proto_of s)) s).
Definition set_dh (v : ssh_dh_state_e) : conn -> conn := on_base (fun s => set_proto (set_dh_state v (proto_of s)) s).
Definition set_out (b : ssh_buffer) : conn -> conn := on_base (set_out_buffer (Some b)).
Definition set_in (b : ssh_buffer) : conn -> conn := on_base (set_in_buffer (Some b)).

(** A change of [next_crypto]. *)
Definition in_next (f : exchange -> exchange) c : run conn :=
  s ← upd_next (fun h => set_exch (f (exch h)) h) (base c); Some (set_base s c).

Definition set_secret (v : option bignum) (e : exchange) : exchange :=
  mk_exchange _ v (dh_client_key e) (dh_server_key e) (dh_modulus e) (dh_generator e) (dh_pmin e) (dh_pn e) (dh_pmax e)
    (ecdh_client_pubkey e) (ecdh_server_pubkey e) (curve25519_client_pubkey e) (curve25519_server_pubkey e) (server_pubkey_blob e) (dh_server_signature e).
Definition set_client_point (v : bytes) (e : exchange) : exchange :=
  mk_exchange _ (shared_secret e) (dh_client_key e) (dh_server_key e) (dh_modulus e) (dh_generator e) (dh_pmin e) (dh_pn e) (dh_pmax e)
    (ecdh_client_pubkey e) (ecdh_server_pubkey e) v (curve25519_server_pubkey e) (server_pubkey_blob e) (dh_server_signature e).
Definition set_server_point (v : bytes) (e : exchange) : exchange :=
  mk_exchange _ (shared_secret e) (dh_client_key e) (dh_server_key e) (dh_modulus e) (dh_generator e) (dh_pmin e) (dh_pn e) (dh_pmax e)
    (ecdh_client_pubkey e) (ecdh_server_pubkey e) (curve25519_client_pubkey e) v (server_pubkey_blob e) (dh_server_signature e).
Definition set_blob (v : option ssh_string) (e : exchange) : exchange :=
  mk_exchange _ (shared_secret e) (dh_client_key e) (dh_server_key e) (dh_modulus e) (dh_generator e) (dh_pmin e) (dh_pn e) (dh_pmax e)
    (ecdh_client_pubkey e) (ecdh_server_pubkey e) (curve25519_client_pubkey e) (curve25519_server_pubkey e) v (dh_server_signature e).
Definition set_signature (v : option ssh_string) (e : exchange) : exchange :=
  mk_exchange _ (shared_secret e) (dh_client_key e) (dh_server_key e) (dh_modulus e) (dh_generator e) (dh_pmin e) (dh_pn e) (dh_pmax e)
    (ecdh_client_pubkey e) (ecdh_server_pubkey e) (curve25519_client_pubkey e) (curve25519_server_pubkey e) (server_pubkey_blob e) v.

(** The registered handlers of the exchange. *)
Definition set_handlers (v : option kex_family) : conn -> conn :=
  on_base (upd (fun h => set_algos (mk_algorithms (do_compress_out (algos h)) (do_compress_in (algos h)) (delayed_compress_out (algos h))
    (delayed_compress_in (algos h)) (hostkey (algos h)) (hostkey_digest (algos h)) v) h)).
Definition remove_handlers (v : kex_family) c : conn :=
  if bool_decide (kex_callbacks (algos (upper (base c))) = Some v) then set_handlers None c else c.

(** The rest of the environment: the tables of ciphers, the FIPS mode, the
    known hosts, the version in the banner, the [errno] of a parse. *)
Variable fresh : Z -> bytes.
Variable tmp0 : bytes.
Variable fips_mode : bool.
Variable known_hosts_algorithms : option bytes.
Variable libssh_version : bytes.
Variable errno : Z.

(** ** Packets

    A send may start a rekeying, which sends; that send is no second one, for the exchange is not finished. *)

Definition new_keys : session -> Z -> run (Z * session) := ssh_packet_set_newkeys fresh tmp0.
Definition send_in_rekey : session -> run (Z * session) := Packet.ssh_packet_send new_keys (fun s => Some (SSH_ERROR, s)).
Definition ssh_send_rekex : session -> run (Z * session) := ssh_send_rekex_with fips_mode known_hosts_algorithms send_in_rekey.
Definition ssh_packet_send : session -> run (Z * session) := Packet.ssh_packet_send new_keys ssh_send_rekex.

(** Both directions are switched when the incoming one is the last. *)
Definition new_keys_in c : run (Z * conn) :=
  let both := match next_crypto (base c) with Some n => Z.lor (used n) SSH_DIRECTION_IN =? SSH_DIRECTION_BOTH | None => false end in
  '(rc, c) ← lift (fun s => new_keys s SSH_DIRECTION_IN) c;
  Some (rc, if both then set_secrets None no_privkey c else c).

(** ** Banners *)

Definition CLIENT_BANNER_SSH2 : bytes := cstr "SSH-2.0-libssh_" ++ libssh_version.
Definition terminator : bytes := [Byte.x0d; Byte.x0a].

Definition set_banners (cb sb : option bytes) (h : handshake) : handshake :=
  mk_handshake _ cb sb (in_hashbuf h) (out_hashbuf h) (extensions h) (first_kex_follows_guess_wrong h) (wanted_methods h) (srv_keys h)
    (client_kex h) (server_kex h) (kex_methods h) (kex_type h) (exch h) (keys h) (algos h).
Definition set_client_banner (v : option bytes) : conn -> conn := on_base (upd (fun h => set_banners v (serverbanner h) h)).
Definition set_server_banner (v : option bytes) : conn -> conn := on_base (upd (fun h => set_banners (clientbanner h) v h)).

(** The banner of a server: its own when the options give one. *)
Definition server_banner c : option bytes :=
  match custombanner c with
  | None => strdup CLIENT_BANNER_SSH2
  | Some t => let len := zlen t in if some (malloc (len + 8 + 1)) then Some (snprintf (len + 8 + 1) (cstr "SSH-2.0-" ++ t)) else None
  end.

Definition ssh_send_banner c (server : bool) : run (Z * conn) :=
  let banner := if server then server_banner c else strdup CLIENT_BANNER_SSH2 in
  let c := if server then set_server_banner banner c else set_client_banner banner c in
  match banner with
  | None => Some (SSH_ERROR, c)
  | Some banner =>
      let buffer := snprintf 256 (banner ++ terminator) in
      '(rc, c) ← lift (fun s => ssh_socket_write s (Some buffer) (zlen buffer)) c;
      Some (if rc =? SSH_ERROR then SSH_ERROR else SSH_OK, c)
  end.

(** ** The key of the server *)

(** [next_crypto->server_pubkey] and the blob it is exported as. *)
Definition ssh_dh_import_next_pubkey_blob (blob : ssh_string) c : run (Z * conn) :=
  _ ← next_crypto (base c);
  key ← ssh_pki_import_pubkey_blob (Some blob);
  match key with
  | None => Some (SSH_ERROR, c)
  | Some key =>
      '(_, b) ← ssh_pki_export_pubkey_blob (Some key);
      c ← in_next (set_blob b) (set_secrets (Some key) (curve25519_privkey c) c);
      Some (SSH_OK, c)
  end.

Definition ssh_get_key_params c : run (Z * option ssh_key * ssh_digest_e * conn) :=
  let '(dsa, rsa, ecdsa, ed25519) := host_keys c in
  let privkey := match hostkey (algos (upper (base c))) with
                 | SSH_KEYTYPE_DSS => dsa
                 | SSH_KEYTYPE_RSA => rsa
                 | SSH_KEYTYPE_ECDSA_P256 | SSH_KEYTYPE_ECDSA_P384 | SSH_KEYTYPE_ECDSA_P521 => ecdsa
                 | SSH_KEYTYPE_ED25519 => ed25519
                 | _ => None
                 end in
  let digest := hostkey_digest (algos (upper (base c))) in
  pubkey ← ssh_pki_export_privkey_to_pubkey privkey;
  match pubkey with
  | None => Some (-1, privkey, digest, c)
  | Some pubkey =>
      '(rc, blob) ← ssh_pki_export_pubkey_blob (Some pubkey);
      match blob with
      | None => Some (-1, privkey, digest, c)
      | Some blob =>
          '(rc, c) ← ssh_dh_import_next_pubkey_blob blob c;
          Some (if negb (rc =? 0) then -1 else SSH_OK, privkey, digest, c)
      end
  end.

(** ** The curve25519 exchange *)

Definition ssh_curve25519_init c : run (Z * conn) :=
  _ ← next_crypto (base c);
  let '(k, r) := x25519_keygen (rng (base c)) in
  let c := on_base (set_rng r) c in
  match k with
  | None => Some (SSH_ERROR, c)
  | Some (priv, pub) =>
      c ← in_next (if is_server (base c) then set_server_point pub else set_client_point pub) c;
      Some (SSH_OK, set_secrets (server_pubkey c) priv c)
  end.

(** [ssh_buffer_pack] into [session->out_buffer]. *)
Definition pack_out (fmt : bytes) (args : list va) c : run (Z * conn) :=
  out ← out_buffer (base c); '(rc, out) ← ssh_buffer_pack out fmt args; Some (rc, set_out out c).

Definition ssh_client_curve25519_init c : run (Z * conn) :=
  '(rc, c) ← ssh_curve25519_init c;
  if negb (rc =? SSH_OK) then Some (rc, c) else
  '(rc, c) ← pack_out (cstr "bdP") [VInt SSH2_MSG_KEX_ECDH_INIT; VInt CURVE25519_PUBKEY_SIZE; VLen CURVE25519_PUBKEY_SIZE;
                                    VPtr (Some (curve25519_client_pubkey (exch (upper (base c)))))] c;
  if negb (rc =? SSH_OK) then Some (SSH_ERROR, c) else
  lift ssh_packet_send (set_dh DH_STATE_INIT_SENT (set_handlers (Some KEX_CURVE25519) c)).

Definition ssh_curve25519_build_k c : run (Z * conn) :=
  _ ← next_crypto (base c);
  let e := exch (upper (base c)) in
  match x25519_derive (curve25519_privkey c) (if is_server (base c) then curve25519_client_pubkey e else curve25519_server_pubkey e) with
  | None => Some (SSH_ERROR, c)
  | Some k =>
      let secret := bignum_bin2bn k in
      c ← in_next (set_secret secret) c;
      Some (if some secret then 0 else SSH_ERROR, c)
  end.

(** The next string of the packet. *)
Definition get_string c : run (option ssh_string * conn) :=
  packet ← in_buffer (base c); '(x, packet) ← ssh_buffer_get_ssh_string packet; Some (x, set_in packet c).

(** A point of the peer: a string of the size of a key. *)
Definition point_of (x : ssh_string) : run (option bytes) :=
  if negb (ssh_string_len (Some x) =? CURVE25519_PUBKEY_SIZE) then Some None else
  d ← ssh_string_data (Some x);
  p ← memcpy (zrep CURVE25519_PUBKEY_SIZE Byte.x00) 0 d 0 CURVE25519_PUBKEY_SIZE; Some (Some p).

(** A byte appended to [session->out_buffer]. *)
Definition out_u8 (v : Z) c : run (Z * conn) :=
  out ← out_buffer (base c); '(rc, out) ← ssh_buffer_add_u8 out v; Some (rc, set_out out c).
Definition out_string (x : ssh_string) c : run (Z * conn) :=
  out ← out_buffer (base c); '(rc, out) ← ssh_buffer_add_ssh_string out (Some x); Some (rc, set_out out c).

(** The [error] label of the handlers of a client. *)
Definition packet_error c : run (Z * conn) := Some (SSH_PACKET_USED, set_state SSH_SESSION_STATE_ERROR c).

(** The end of the handler: the reply was read, the keys are switched on for sending. *)
Definition client_newkeys c : run (Z * conn) :=
  '(rc, c) ← out_u8 SSH2_MSG_NEWKEYS c;
  if rc <? 0 then packet_error c else
  '(rc, c) ← lift ssh_packet_send c;
  if rc =? SSH_ERROR then packet_error c else
  Some (SSH_PACKET_USED, set_dh DH_STATE_NEWKEYS_SENT c).

Definition ssh_packet_client_curve25519_reply c : run (Z * conn) :=
  let c := remove_handlers KEX_CURVE25519 c in
  '(blob, c) ← get_string c;
  match blob with
  | None => packet_error c
  | Some blob =>
      '(rc, c) ← ssh_dh_import_next_pubkey_blob blob c;
      if negb (rc =? 0) then packet_error c else
      '(q, c) ← get_string c;
      match q with
      | None => packet_error c
      | Some q =>
          p ← point_of q;
          match p with
          | None => packet_error c
          | Some p =>
              c ← in_next (set_server_point p) c;
              '(sig, c) ← get_string c;
              match sig with
              | None => packet_error c
              | Some sig =>
                  c ← in_next (set_signature (Some sig)) c;
                  '(rc, c) ← ssh_curve25519_build_k c;
                  if rc <? 0 then packet_error c else client_newkeys c
              end
          end
      end
  end.

(** The [error] label of the handler of a server. *)
Definition server_error c : run (Z * conn) :=
  '(_, out) ← ssh_buffer_reinit (out_buffer (base c));
  packet_error (on_base (set_out_buffer out) c).

(** The reply is in the buffer: it is sent, and NEWKEYS after it. *)
Definition server_newkeys c : run (Z * conn) :=
  '(rc, c) ← lift ssh_packet_send c;
  if rc =? SSH_ERROR then Some (SSH_ERROR, c) else
  '(rc, c) ← out_u8 SSH2_MSG_NEWKEYS c;
  if rc <? 0 then server_error c else
  '(rc, c) ← lift ssh_packet_send (set_dh DH_STATE_NEWKEYS_SENT c);
  if rc =? SSH_ERROR then server_error c else Some (SSH_PACKET_USED, c).

(** The parts of the reply after its type. *)
Definition server_reply (privkey : option ssh_key) (digest : ssh_digest_e) c : run (Z * conn) :=
  match server_pubkey_blob (exch (upper (base c))) with
  | None => server_error c
  | Some blob =>
      '(rc, c) ← out_string blob c;
      if rc <? 0 then server_error c else
      match ssh_string_new CURVE25519_PUBKEY_SIZE with
      | None => server_error c
      | Some q =>
          '(_, q) ← ssh_string_fill (Some q) (Some (curve25519_server_pubkey (exch (upper (base c))))) CURVE25519_PUBKEY_SIZE;
          q ← q;
          '(rc, c) ← out_string q c;
          if rc <? 0 then server_error c else
          sig ← ssh_srv_pki_do_sign_sessionid fips_mode (base c) privkey digest;
          match sig with
          | None => server_error c
          | Some sig =>
              '(rc, c) ← out_string sig c;
              if rc <? 0 then server_error c else server_newkeys c
          end
      end
  end.

Definition ssh_packet_server_curve25519_init c : run (Z * conn) :=
  let c := remove_handlers KEX_CURVE25519 c in
  '(q, c) ← get_string c;
  match q with
  | None => server_error c
  | Some q =>
      p ← point_of q;
      match p with
      | None => server_error c
      | Some p =>
          c ← in_next (set_client_point p) c;
          '(rc, c) ← ssh_curve25519_init c;
          if negb (rc =? SSH_OK) then server_error c else
          '(rc, c) ← out_u8 SSH2_MSG_KEX_ECDH_REPLY c;
          if rc <? 0 then server_error c else
          '(rc, c) ← ssh_curve25519_build_k c;
          if rc <? 0 then server_error c else
          '(rc, privkey, digest, c) ← ssh_get_key_params c;
          if rc =? SSH_ERROR then server_error c else
          '(rc, c) ← lift ssh_make_sessionid c;
          if negb (rc =? SSH_OK) then server_error c else
          server_reply privkey digest c
      end
  end.

(** ** The connection callbacks *)

(** The start of the other exchange methods by a client. *)
Variable other_client_init : kex_family -> conn -> run (Z * conn).

Definition dh_handshake c : run (Z * conn) :=
  match dh_of c with
  | DH_STATE_INIT =>
      _ ← next_crypto (base c);
      match kex_type (upper (base c)) with
      | None => Some (SSH_ERROR, c)
      | Some t =>
          match kex_family_of t with
          | KEX_CURVE25519 => ssh_client_curve25519_init c
          | f => other_client_init f c
          end
      end
  | DH_STATE_INIT_SENT | DH_STATE_NEWKEYS_SENT => Some (SSH_AGAIN, c)
  | DH_STATE_FINISHED => Some (SSH_OK, c)
  | _ => Some (SSH_ERROR, c)
  end.

(** The [error] label of both callbacks. *)
Definition close_connection c : conn := set_state SSH_SESSION_STATE_ERROR (set_alive false (set_socket false (reader c) c)).
Definition or_close (m : run (Z * conn)) (bad : Z -> bool) (k : conn -> run conn) : run conn :=
  '(rc, c) ← m; if bad rc then Some (close_connection c) else k c.

Definition is_error (rc : Z) : bool := rc =? SSH_ERROR.
Definition not_ok (rc : Z) : bool := negb (rc =? SSH_OK).
Definition negative (rc : Z) : bool := rc <? 0.

(** What both do with the banner of the peer; then the packet layer reads. *)
Definition take_banner (banner : option bytes) (k : conn -> run conn) c : run conn :=
  match banner with
  | None => Some (close_connection c)
  | Some b =>
      let '(rc, version) := ssh_analyze_banner errno (Some b) in
      let c := match version with Some v => set_openssh v c | None => c end in
      if rc <? 0 then Some (close_connection c) else k (set_socket (socket_open c) ReadPackets c)
  end.

(** The exchange is over: the session goes on with the authentication, or with what a rekeying interrupted. *)
Definition exchange_over c : conn :=
  set_state (if flag_authenticated (proto_of (base c)) then SSH_SESSION_STATE_AUTHENTICATED else SSH_SESSION_STATE_AUTHENTICATING)
    (set_connected true c).

Definition send_kex (server : bool) : conn -> run (Z * conn) := lift (fun s => ssh_send_kex ssh_packet_send s server).
Definition set_client_proposal : conn -> run (Z * conn) := lift (ssh_set_client_kex fips_mode known_hosts_algorithms).
Definition set_server_proposal : conn -> run (Z * conn) := lift (server_set_kex fips_mode).
Definition select_methods : conn -> run (Z * conn) :=
  lift (fun s => '(rc, h) ← ssh_kex_select_methods (upper s); Some (rc, set_upper h s)).

Definition no_proposal (k : ssh_kex_struct) : bool := negb (some (mjoin (methods k !! SSH_KEX))).

(** The two states a client goes through from KEXINIT. *)
Definition client_in_dh c : run conn :=
  Some (if bool_decide (dh_of c = DH_STATE_FINISHED) then exchange_over c else c).

Definition client_kexinit c : run conn :=
  _ ← next_crypto (base c);
  let go c := or_close (select_methods c) is_error (fun c =>
    or_close (dh_handshake (set_state SSH_SESSION_STATE_DH c)) is_error client_in_dh) in
  if no_proposal (client_kex (upper (base c))) then
    or_close (set_client_proposal c) not_ok (fun c => or_close (send_kex false c) negative go)
  else go c.

Definition ssh_client_connection_callback c : run conn :=
  match state_of c with
  | SSH_SESSION_STATE_SOCKET_CONNECTED => '(_, c) ← ssh_send_banner c false; Some c
  | SSH_SESSION_STATE_BANNER_RECEIVED =>
      take_banner (serverbanner (upper (base c))) (fun c =>
        or_close (set_client_proposal (set_state SSH_SESSION_STATE_INITIAL_KEX c)) not_ok (fun c =>
        or_close (send_kex false c) negative (fun c => Some c))) c
  | SSH_SESSION_STATE_KEXINIT_RECEIVED => client_kexinit c
  | SSH_SESSION_STATE_DH => client_in_dh c
  | SSH_SESSION_STATE_ERROR => Some (close_connection c)
  | _ => Some c
  end.

Definition ssh_server_send_extensions c : run (Z * conn) :=
  hostkey_algorithms ← match pubkey_accepted_types c with
                       | Some t => Some t
                       | None => (if fips_mode then fips_methods else default_methods) !! SSH_HOSTKEYS
                       end;
  let fail c := '(_, out) ← ssh_buffer_reinit (out_buffer (base c)); Some (-1, on_base (set_out_buffer out) c) in
  '(rc, c) ← pack_out (cstr "bdss") [VInt SSH2_MSG_EXT_INFO; VInt 1; VCstr (cstr "server-sig-algs"); VCstr hostkey_algorithms] c;
  if negb (rc =? SSH_OK) then fail c else
  '(rc, c) ← lift ssh_packet_send c;
  if rc =? SSH_ERROR then fail c else Some (0, c).

Definition server_in_dh c : run conn :=
  if negb (bool_decide (dh_of c = DH_STATE_FINISHED)) then Some c else
  or_close (new_keys_in c) not_ok (fun c =>
    '(_, c) ← (if negb (Z.land (extensions (upper (base c))) SSH_EXT_NEGOTIATION =? 0)
                  && negb (bool_decide (state_of c = SSH_SESSION_STATE_AUTHENTICATED)) && negb (connected c)
               then ssh_server_send_extensions c else Some (0, c));
    Some (exchange_over c)).

Definition server_kexinit c : run conn :=
  _ ← next_crypto (base c);
  let go c := or_close (select_methods c) negative (fun c =>
    or_close (lift (crypt_set_algorithms_server fresh tmp0) c) is_error (fun c => Some (set_state SSH_SESSION_STATE_DH c))) in
  if no_proposal (server_kex (upper (base c))) then
    or_close (set_server_proposal c) is_error (fun c => or_close (send_kex true c) negative go)
  else go c.

Definition ssh_server_connection_callback c : run conn :=
  match state_of c with
  | SSH_SESSION_STATE_BANNER_RECEIVED =>
      take_banner (clientbanner (upper (base c))) (fun c =>
        or_close (send_kex true (set_state SSH_SESSION_STATE_INITIAL_KEX c)) negative (fun c => Some c)) c
  | SSH_SESSION_STATE_KEXINIT_RECEIVED => server_kexinit c
  | SSH_SESSION_STATE_DH => server_in_dh c
  | SSH_SESSION_STATE_ERROR => Some (close_connection c)
  | _ => Some c
  end.

Definition ssh_connection_callback c : run conn :=
  if is_server (base c) then ssh_server_connection_callback c else ssh_client_connection_callback c.

(** ** Reading the banner *)

(** The loop over the bytes at [data]: what was before the end of the line, in
    which carriage returns are terminators. *)
Inductive banner_line := NoLine (seen : bytes) | TooLong (seen : bytes) | Line (line : bytes).

Definition no_return (c : byte) : byte := if Byte.eqb c Byte.x0d then Byte.x00 else c.

Fixpoint banner_scan (limit : Z) (seen data : bytes) : banner_line :=
  match data with
  | [] => NoLine seen
  | c :: data =>
      if Byte.eqb c Byte.x0a then Line seen
      else if limit <? zlen seen then TooLong (seen ++ [no_return c])
      else banner_scan limit (seen ++ [no_return c]) data
  end.

(** The callback of the socket of a client: the bytes processed, the buffer (that is written to) and the connection. *)
Definition client_receive_banner (data : bytes) c : run (Z * bytes * conn) :=
  if negb (bool_decide (state_of c = SSH_SESSION_STATE_SOCKET_CONNECTED)) then Some (SSH_ERROR, data, c) else
  match banner_scan 255 [] data with
  | NoLine seen => Some (0, seen, c)
  | TooLong seen => Some (0, seen ++ zdrop (zlen seen) data, set_state SSH_SESSION_STATE_ERROR c)
  | Line line =>
      let ret := zlen line + 1 in
      let data := line ++ Byte.x00 :: zdrop ret data in
      let str := until_nul line in
      if strncmp0 str (cstr "SSH-") 4 then
        match strdup str with
        | None => Some (SSH_ERROR, data, c)
        | Some str =>
            c ← ssh_connection_callback (set_state SSH_SESSION_STATE_BANNER_RECEIVED (set_server_banner (Some str) c));
            Some (ret, data, c)
        end
      else Some (ret, data, c)
  end.

(** That of a server takes the first line, whatever it is. *)
Definition server_receive_banner (data : bytes) c : run (Z * bytes * conn) :=
  match banner_scan 127 [] data with
  | NoLine seen => Some (0, seen, c)
  | TooLong seen => Some (0, seen ++ zdrop (zlen seen) data, set_state SSH_SESSION_STATE_ERROR c)
  | Line line =>
      let ret := zlen line + 1 in
      c ← ssh_connection_callback (set_state SSH_SESSION_STATE_BANNER_RECEIVED (set_client_banner (strdup (until_nul line)) c));
      Some (ret, line ++ Byte.x00 :: zdrop ret data, c)
  end.

Definition callback_receive_banner (data : bytes) c : run (Z * bytes * conn) :=
  if is_server (base c) then server_receive_banner data c else client_receive_banner data c.

(** ** The loop of the socket over what it read *)

(** [ssh_packet_socket_callback] with the handlers of the session. *)
Variable packet_data : bytes -> conn -> run (Z * conn).

Definition socket_data (data : bytes) c : run (Z * bytes * conn) :=
  match reader c with
  | ReadBanner => callback_receive_banner data c
  | ReadPackets => '(n, c) ← packet_data data c; Some (n, data, c)
  end.

(** What is left in the buffer; [ssh_buffer_pass_bytes] refuses an error. *)
Fixpoint deliver (fuel : nat) (data : bytes) c : run (bytes * conn) :=
  match fuel with
  | O => None
  | S fuel =>
      '(n, data, c) ← socket_data data c;
      let data := if (0 <=? n) && (n <=? zlen data) then zdrop n data else data in
      if (0 <? n) && socket_open c then deliver fuel data c else Some (data, c)
  end.

(** The reads of the socket, one after the other. *)
Fixpoint feed (chunks : list bytes) (data : bytes) c : run (bytes * conn) :=
  match chunks with
  | [] => Some (data, c)
  | d :: chunks => '(data, c) ← deliver (S (length (data ++ d))) (data ++ d) c; feed chunks data c
  end.

Definition socket_callback_connected (ok : bool) c : run conn :=
  if negb (bool_decide (state_of c = SSH_SESSION_STATE_CONNECTING))
     && negb (bool_decide (state_of c = SSH_SESSION_STATE_SOCKET_CONNECTED)) then Some c else
  ssh_connection_callback (set_state (if ok then SSH_SESSION_STATE_SOCKET_CONNECTED else SSH_SESSION_STATE_ERROR) c).

Definition ssh_socket_exception_callback c : run conn := ssh_connection_callback (set_state SSH_SESSION_STATE_ERROR c).

(** ** Handlers of packets *)

(** A message whose text is only logged. *)
Definition ssh_packet_disconnect_callback c : run (Z * conn) :=
  packet ← in_buffer (base c);
  '(_, _, packet) ← ssh_buffer_get_u32 packet;
  '(error_s, packet) ← ssh_buffer_get_ssh_string packet;
  _ ← (match error_s with None => Some None | Some x => ssh_string_to_char (Some x) end);
  Some (SSH_PACKET_USED, close_connection (set_in packet c)).

Definition ssh_packet_ignore_callback c : run (Z * conn) := Some (SSH_PACKET_USED, c).

(** [ssh_packet_kexinit] ends with the call of the connection callback, in the state it set. *)
Definition handle_kexinit c : run (Z * conn) :=
  '(rc, c) ← lift (fun s => ssh_packet_kexinit (fun s => Some s) s SSH2_MSG_KEXINIT) c;
  if bool_decide (state_of c = SSH_SESSION_STATE_KEXINIT_RECEIVED) then c ← ssh_connection_callback c; Some (rc, c) else Some (rc, c).

(** The handler of a server in front of that of the method. *)
Definition ssh_packet_kexdh_init c : run (Z * conn) :=
  if negb (bool_decide (dh_of c = DH_STATE_INIT)) then packet_error c else
  if first_kex_follows_guess_wrong (upper (base c)) then Some (SSH_PACKET_USED, on_base (upd (set_guess_wrong false)) c)
  else Some (SSH_PACKET_NOT_USED, c).

(** The signature of the server over the exchange hash, under the key it gave. *)
Definition verify_server c : run (bool * conn) :=
  _ ← next_crypto (base c);
  let sig_blob := dh_server_signature (exch (upper (base c))) in
  c ← in_next (set_signature None) c;
  match server_pubkey c with
  | None => Some (false, c)
  | Some server_key =>
      sig ← ssh_pki_import_signature_blob sig_blob server_key;
      match sig with
      | None => Some (false, c)
      | Some sig =>
          wanted ← wanted_methods (upper (base c)) !! SSH_HOSTKEYS;
          ok ← match wanted with
               | None => Some true
               | Some w => t ← sig_type_c sig; n ← ssh_match_group w t; Some (negb (n =? 0))
               end;
          if negb (ok : bool) then Some (false, c) else
          n ← next_crypto (base c);
          let rc := ssh_pki_signature_verify fips_mode (Some sig) (Some server_key)
                      (option_map (ztake (digest_len n)) (secret_hash (keys (upper (base c))))) in
          Some (negb (rc =? SSH_ERROR), c)
      end
  end.

Definition ssh_packet_newkeys c : run (Z * conn) :=
  if negb (bool_decide (state_of c = SSH_SESSION_STATE_DH)) || negb (bool_decide (dh_of c = DH_STATE_NEWKEYS_SENT)) then packet_error c else
  '(ok, c) ← (if is_server (base c) then Some (true, c) else
              '(ok, c) ← verify_server c;
              if negb (ok : bool) then Some (false, c) else
              '(rc, c) ← new_keys_in c; Some (rc =? SSH_OK, c));
  if negb (ok : bool) then packet_error c else
  c ← ssh_connection_callback (set_dh DH_STATE_FINISHED c);
  Some (SSH_PACKET_USED, c).

(** The extensions of the peer: those of the signatures it accepts. *)
Definition signature_extensions (value : bytes) (h : handshake) : run handshake :=
  m512 ← ssh_match_group value (cstr "rsa-sha2-512");
  m256 ← ssh_match_group value (cstr "rsa-sha2-256");
  let e := extensions h in
  let e := if negb (m512 =? 0) then Z.lor e SSH_EXT_SIG_RSA_SHA512 else e in
  Some (set_extensions (if negb (m256 =? 0) then Z.lor e SSH_EXT_SIG_RSA_SHA256 else e) h).

Definition text_slot (os : list slot) (i : nat) : run bytes :=
  match os !! i with Some (SlotCstr (Some p)) => text_of p | _ => None end.

Fixpoint read_extensions (n : nat) (packet : ssh_buffer) c : run conn :=
  match n with
  | O => Some (set_in packet c)
  | S n =>
      '(rc, os, _, packet) ← ssh_buffer_unpack packet (cstr "ss") [UPtr; UPtr];
      if negb (rc =? SSH_OK) then Some (set_in packet c) else
      name ← text_slot os 0; value ← text_slot os 1;
      c ← (if bool_decide (name = cstr "server-sig-algs") then h ← signature_extensions value (upper (base c)); Some (on_base (set_upper h) c)
           else Some c);
      read_extensions n packet c
  end.

Definition ssh_packet_ext_info c : run (Z * conn) :=
  packet ← in_buffer (base c);
  '(rc, v, packet) ← ssh_buffer_get_u32 packet;
  match v with
  | None => Some (SSH_PACKET_USED, set_in packet c)
  | Some v =>
      let nr_extensions := ntohl v in
      if 128 <? nr_extensions then Some (SSH_PACKET_USED, set_in packet c) else
      c ← read_extensions (Z.to_nat nr_extensions) packet c;
      Some (SSH_PACKET_USED, c)
  end.

(** ** Starting a server *)

Definition ssh_server_init_kex c : run (Z * conn) :=
  if negb (match state_of c with
           | SSH_SESSION_STATE_NONE | SSH_SESSION_STATE_CONNECTING | SSH_SESSION_STATE_SOCKET_CONNECTED | SSH_SESSION_STATE_BANNER_RECEIVED => true
           | _ => false
           end) then Some (SSH_ERROR, c) else
  _ ← next_crypto (base c);
  set_server_proposal (on_base (upd (fun h => set_server_kex (mk_kex (cookie (server_kex h)) no_methods) h)) c).

Definition ssh_server_kex_termination c : bool :=
  match state_of c with
  | SSH_SESSION_STATE_ERROR | SSH_SESSION_STATE_AUTHENTICATING | SSH_SESSION_STATE_DISCONNECTED => true
  | _ => false
  end.
Definition ssh_connect_termination : conn -> bool := ssh_server_kex_termination.

(** [ssh_handle_packets_termination] with this condition. *)
Variable handle_packets : conn -> run (Z * conn).

Definition ssh_handle_key_exchange c : run (Z * conn) :=
  let pending c :=
    '(rc, c) ← handle_packets c;
    if negb (rc =? SSH_OK) then Some (rc, c) else
    Some (match state_of c with SSH_SESSION_STATE_ERROR | SSH_SESSION_STATE_DISCONNECTED => SSH_ERROR | _ => SSH_OK end, c) in
  if negb (bool_decide (state_of c = SSH_SESSION_STATE_NONE)) then pending c else
  '(rc, c) ← ssh_send_banner c true;
  if rc <? 0 then Some (SSH_ERROR, c) else
  let c := set_state SSH_SESSION_STATE_SOCKET_CONNECTED (set_socket (socket_open c) ReadBanner (set_alive true c)) in
  '(rc, c) ← set_server_proposal c;
  if rc <? 0 then Some (SSH_ERROR, c) else pending c.
End Handshake.
