(* ===== verification/HandshakeFacts.v ===== *)
(** * Connections: what a client has verified

    The functions of the handshake keep the states of a connection within their bounds; a client
    is connected only after it verified the server's signature. *)

From stdpp Require Import gmap.
From S2P Require Import Prelude SshString Buffer Bignum BufferPack Token Misc Session Crypto Packet SendFacts PacketRecv Kex Kdf SessionId.
From S2P Require Import Libcrypto NewKeys Pki Handshake.

(** ** The states of a session below the connection callbacks *)

(** Roles and the session's state stay, and no exchange is finished. *)
Definition calm (p p' : proto) : Prop :=
  client p' = client p /\ server p' = server p /\ session_state p' = session_state p
  /\ (dh_handshake_state p' = DH_STATE_FINISHED -> dh_handshake_state p = DH_STATE_FINISHED).

#[export] Instance calm_preorder : PreOrder calm.
Proof. split; [by intros p|]. intros p q r (? & ? & ? & ?) (? & ? & ? & ?). unfold calm. split_and!; try congruence. auto. Qed.

Section Below.
Context `{EvpLib} `{Allocator} `{HmacLib} `{HashLib} `{KeyLib} `{X25519Lib}.
#[local] Abbreviation session := (session cipher_state prng handshake).
Implicit Type s : session.
Variable fresh : Z -> bytes.
Variable tmp0 : bytes.
Variable fips_mode : bool.
Variable known_hosts_algorithms : option bytes.

Lemma sessionid_proto s rc s' : ssh_make_sessionid s = Some (rc, s') -> proto_of s' = proto_of s.
Proof. unfold ssh_make_sessionid. intros Hx. cbn zeta in Hx. walk Hx; done. Qed.

Lemma set_ciphers_proto o i s ok s' : set_ciphers fresh tmp0 o i s = Some (ok, s') -> proto_of s' = proto_of s.
Proof. unfold set_ciphers. intros Hx. cbn zeta in Hx. walk Hx; done. Qed.

Lemma algorithms_client_proto s rc s' : crypt_set_algorithms_client fresh tmp0 s = Some (rc, s') -> proto_of s' = proto_of s.
Proof.
  unfold crypt_set_algorithms_client, crypt_set_algorithms2. intros Hx. apply bind_Some in Hx as ([ok s1] & Ha & Hx).
  apply set_ciphers_proto in Ha. walk Hx; done.
Qed.
Lemma algorithms_server_proto s rc s' : crypt_set_algorithms_server fresh tmp0 s = Some (rc, s') -> proto_of s' = proto_of s.
Proof.
  unfold crypt_set_algorithms_server. intros Hx. apply bind_Some in Hx as ([ok s1] & Ha & Hx).
  apply set_ciphers_proto in Ha. cbn zeta in Hx. walk Hx; done.
Qed.

Lemma store_keys_proto s c rc blocks rc' s' : store_keys s c rc blocks = (rc', s') -> proto_of s' = proto_of s.
Proof. unfold store_keys. intros Hx. repeat case_match; by injection Hx as <- <-. Qed.

Lemma generate_proto s rc s' : ssh_generate_session_keys s = Some (rc, s') -> proto_of s' = proto_of s.
Proof.
  unfold ssh_generate_session_keys. intros Hx. cbn zeta in Hx.
  repeat (case_match || (apply bind_Some in Hx as (? & ? & Hx))); first [by injection Hx as <- <-|injection Hx as Hx; by apply store_keys_proto in Hx].
Qed.

Lemma limits_proto s s' : set_limits s = Some s' -> proto_of s' = proto_of s.
Proof. unfold set_limits. intros Hx. cbn zeta in Hx. walk Hx; done. Qed.

Lemma prepare_proto s rc s' : prepare_keys s = Some (rc, s') -> proto_of s' = proto_of s.
Proof.
  unfold prepare_keys. intros Hx. apply bind_Some in Hx as ([rc1 s1] & Ha & Hx). apply generate_proto in Ha. rewrite <- Ha.
  destruct (rc1 <? 0); [by injection Hx as <- <-|]. apply bind_Some in Hx as (c & _ & Hx). destruct (negb _); [by injection Hx as <- <-|].
  apply bind_Some in Hx as (s2 & Hl & Hx). apply limits_proto in Hl. rewrite <- Hl. unfold install_keys in Hx. cbn zeta in Hx. walk Hx; done.
Qed.

Lemma newkeys_within s d : within calm s (new_keys fresh tmp0 s d).
Proof.
  intros rc s' Hx. unfold new_keys, ssh_packet_set_newkeys in Hx. destruct (next_crypto s) as [n|]; [|by injection Hx as <- <-]. cbn zeta in Hx.
  set (s0 := set_cryptos _ _ s) in Hx. assert (Hs0 : proto_of s0 = proto_of s) by done. clearbody s0. rewrite <- Hs0.
  destruct (_ =? SSH_DIRECTION_BOTH). { unfold switch_crypto in Hx. cbn zeta in Hx. walk Hx; done. }
  apply bind_Some in Hx as ([rc1 s1] & Ha & Hx).
  assert (Hs1 : proto_of s1 = proto_of s0).
  { destruct (is_client s0); [|by injection Ha as <- <-]. apply bind_Some in Ha as ([rc2 s2] & Hid & Ha). apply sessionid_proto in Hid.
    destruct (negb _); [by injection Ha as <- <-|]. apply bind_Some in Ha as ([rc3 s3] & Hal & Ha). apply algorithms_client_proto in Hal.
    injection Ha as <- <-. congruence. }
  destruct (negb _); [injection Hx as <- <-; by rewrite Hs1|]. apply prepare_proto in Hx. by rewrite Hx, Hs1.
Qed.

Lemma client_kex_proto s rc s' : ssh_set_client_kex fips_mode known_hosts_algorithms s = Some (rc, s') -> proto_of s' = proto_of s.
Proof. unfold ssh_set_client_kex. intros Hx. cbn zeta in Hx. walk Hx; done. Qed.
Lemma server_kex_proto s rc s' : server_set_kex fips_mode s = Some (rc, s') -> proto_of s' = proto_of s.
Proof.
  unfold server_set_kex. intros Hx. apply bind_Some in Hx as (s1 & Hn & Hx). unfold upd_next in Hn. apply bind_Some in Hn as (? & _ & [= <-]). cbn zeta in Hx. walk Hx; done.
Qed.

Lemma cookie_out_proto s rc s' : ssh_hashbufout_add_cookie s = Some (rc, s') -> proto_of s' = proto_of s.
Proof. unfold ssh_hashbufout_add_cookie. intros Hx. cbn zeta in Hx. walk Hx; done. Qed.
Lemma cookie_in_proto s c rc s' : ssh_hashbufin_add_cookie s c = Some (rc, s') -> proto_of s' = proto_of s.
Proof. unfold ssh_hashbufin_add_cookie. intros Hx. cbn zeta in Hx. walk Hx; done. Qed.

Lemma send_kex_within (send : session -> run (Z * session)) s b :
  (forall s, within calm s (send s)) -> within calm s (ssh_send_kex send s b).
Proof.
  intros Hsend rc s' Hx. unfold ssh_send_kex in Hx. apply bind_Some in Hx as (n & _ & Hx). cbn zeta in Hx.
  apply bind_Some in Hx as (out & _ & Hx). apply bind_Some in Hx as ([rc1 out1] & _ & Hx).
  assert (Herr : forall s1 rc s', proto_of s1 = proto_of s -> send_kex_error s1 = Some (rc, s') -> calm (proto_of s) (proto_of s')).
  { intros s1 rc0 s0 Hp Hy. unfold send_kex_error in Hy. do 2 apply bind_Some in Hy as ([? ?] & _ & Hy). injection Hy as <- <-. cbn. by rewrite Hp. }
  destruct (negb _); [by eapply Herr; [|exact Hx]|]. apply bind_Some in Hx as ([rc2 s2] & Hc & Hx). apply cookie_out_proto in Hc.
  destruct (rc2 <? 0); [by eapply Herr; [|exact Hx]|]. apply bind_Some in Hx as (hash & _ & Hx). apply bind_Some in Hx as ([[ok hash1] out2] & _ & Hx).
  destruct (negb _); [by eapply Herr; [|exact Hx]|]. apply bind_Some in Hx as ([rc3 out3] & _ & Hx).
  destruct (negb _); [by eapply Herr; [|exact Hx]|]. apply bind_Some in Hx as ([rc4 s4] & Hs & Hx). apply Hsend in Hs. cbn in Hs, Hc.
  injection Hx as <- <-. by rewrite Hc in Hs.
Qed.

Lemma send_in_rekey_within s : within calm s (send_in_rekey fresh tmp0 s).
Proof.
  apply send_within; [apply _|intros; apply newkeys_within|]. intros s1 rc s' [= <- <-]. done.
Qed.

Lemma rekex_within s : within calm s (ssh_send_rekex fresh tmp0 fips_mode known_hosts_algorithms s).
Proof.
  intros rc s' Hx. unfold ssh_send_rekex, ssh_send_rekex_with in Hx. destruct (negb _) eqn:Hd; [by injection Hx as <- <-|].
  apply negb_false_iff, bool_decide_eq_true in Hd.
  destruct (negb _); [by injection Hx as <- <-|]. apply bind_Some in Hx as ([[stop rc1] s1] & Ha & Hx).
  assert (Hs1 : proto_of s1 = proto_of s).
  { destruct (is_client s).
    - apply bind_Some in Ha as ([rc2 s2] & Hk & Ha). apply client_kex_proto in Hk. by injection Ha as <- <- <-.
    - apply bind_Some in Ha as ([rc2 s2] & Hk & Ha). apply server_kex_proto in Hk. by injection Ha as <- <- <-. }
  destruct stop; [injection Hx as <- <-; by rewrite Hs1|]. cbn zeta in Hx. apply bind_Some in Hx as ([rc2 s2] & Hk & Hx).
  apply (send_kex_within _ _ _ send_in_rekey_within) in Hk. cbn in Hk. rewrite Hs1 in Hk. destruct Hk as (? & ? & ? & ?).
  destruct (rc2 <? 0); injection Hx as <- <-; unfold calm; cbn; rewrite ?Hd; by split_and!.
Qed.

Lemma packet_send_within s : within calm s (ssh_packet_send fresh tmp0 fips_mode known_hosts_algorithms s).
Proof. apply send_within; [apply _|intros; apply newkeys_within|apply rekex_within]. Qed.
End Below.

(** ** A client and the host it talks to *)

Section Verified.
Context `{EvpLib} `{Allocator} `{HmacLib} `{HashLib} `{KeyLib} `{X25519Lib}.
Implicit Type c : conn.
Variable fresh : Z -> bytes.
Variable tmp0 : bytes.
Variable fips_mode : bool.
Variable known_hosts_algorithms : option bytes.
Variable libssh_version : bytes.
Variable errno : Z.
Variable other_client_init other_client_reply : kex_family -> conn -> run (Z * conn).

(** The role stays, no exchange is finished, and only a finished one connects. *)
Record advances c c' : Prop := {
  ad_role : is_server (base c') = is_server (base c);
  ad_dh : dh_of c' = DH_STATE_FINISHED -> dh_of c = DH_STATE_FINISHED;
  ad_connected : connected c' = true -> connected c = true \/ dh_of c = DH_STATE_FINISHED
}.

#[local] Instance advances_preorder : PreOrder advances.
Proof.
  split; [by constructor; auto|]. intros c1 c2 c3 [R1 D1 C1] [R2 D2 C2]. constructor; [congruence|auto|].
  intros Hc. destruct (C2 Hc) as [Hc2|Hd2]; [auto|right; auto].
Qed.

(** A function of a connection that only advances it. *)
Definition careful {A} (m : conn -> run (A * conn)) : Prop := forall c a c', m c = Some (a, c') -> advances c c'.

(** The methods that are arguments do so. *)
Hypothesis other_init_careful : forall f, careful (other_client_init f).
Hypothesis other_reply_careful : forall f, careful (other_client_reply f).

Lemma advances_calm c s : calm (proto_of (base c)) (proto_of s) -> advances c (set_base s c).
Proof. intros (? & Hs & ? & Hd). constructor; [exact Hs|exact Hd|by left]. Qed.

Lemma lift_careful {A} (m : _ -> run (A * _)) : (forall s, within calm s (m s)) -> careful (lift m).
Proof.
  intros Hm c a c' Hx. unfold lift in Hx. apply bind_Some in Hx as ([b s] & Hs & Hx). injection Hx as <- <-. by apply advances_calm, (Hm _ _ _ Hs).
Qed.

Lemma lift_proto {A} (m : _ -> run (A * _)) : (forall s a s', m s = Some (a, s') -> proto_of s' = proto_of s) -> careful (lift m).
Proof. intros Hm. apply lift_careful. intros s a s' Hs. by rewrite (Hm _ _ _ Hs). Qed.

Lemma set_state_advances v c : advances c (set_state v c).
Proof. constructor; [done|done|by left]. Qed.
Lemma set_dh_advances v c : v <> DH_STATE_FINISHED -> advances c (set_dh v c).
Proof. intros Hv. constructor; [done|intros Hd; by destruct Hv|by left]. Qed.
Lemma close_advances c : advances c (close_connection c).
Proof. constructor; [done|done|by left]. Qed.

(** Two connections with the same states. *)
Definition same_states c c' : Prop := proto_of (base c') = proto_of (base c) /\ connected c' = connected c.
Lemma same_advances c c' : same_states c c' -> advances c c'.
Proof. intros [Hp Hc]. constructor; [unfold is_server; by rewrite Hp|unfold dh_of; by rewrite Hp|rewrite Hc; by left]. Qed.

Lemma in_next_same f c c' : in_next f c = Some c' -> same_states c c'.
Proof.
  unfold in_next, upd_next. intros Hx. apply bind_Some in Hx as (s & Hs & Hx). apply bind_Some in Hs as (n & _ & Hs).
  injection Hs as <-. by injection Hx as <-.
Qed.

(** A step of a function of a connection. *)
Ltac step lem Hx := apply bind_Some in Hx as ([? ?] & Hi & Hx); apply lem in Hi; etrans; [exact Hi|]; clear Hi.

Lemma in_next_advances f c c' : in_next f c = Some c' -> advances c c'.
Proof. intros Hx. by apply in_next_same, same_advances in Hx. Qed.

Lemma lift_in {A} (x : ssh_buffer -> run (A * ssh_buffer)) (o : conn -> option ssh_buffer) (set : ssh_buffer -> conn -> conn) :
  (forall b c, same_states c (set b c)) -> careful (fun c => b ← o c; '(a, b) ← x b; Some (a, set b c)).
Proof.
  intros Hset c a c' Hx. apply bind_Some in Hx as (b & _ & Hx). apply bind_Some in Hx as ([a1 b1] & _ & Hx). injection Hx as <- <-. apply same_advances, Hset.
Qed.

Lemma get_string_careful : careful get_string.
Proof. by apply (lift_in ssh_buffer_get_ssh_string). Qed.
Lemma pack_out_careful fmt args : careful (pack_out fmt args).
Proof. by apply (lift_in (fun out => ssh_buffer_pack out fmt args)). Qed.
Lemma out_u8_careful v : careful (out_u8 v).
Proof. by apply (lift_in (fun out => ssh_buffer_add_u8 out v)). Qed.

Lemma import_careful blob : careful (ssh_dh_import_next_pubkey_blob blob).
Proof.
  intros c rc c' Hx. unfold ssh_dh_import_next_pubkey_blob in Hx. apply bind_Some in Hx as (n & _ & Hx).
  apply bind_Some in Hx as ([k|] & _ & Hx); [|by injection Hx as <- <-].
  apply bind_Some in Hx as ([rc1 b] & _ & Hx). apply bind_Some in Hx as (c1 & Hi & Hx). injection Hx as <- <-.
  etrans; [|by eapply in_next_advances]. by apply same_advances.
Qed.

Lemma curve_init_careful : careful ssh_curve25519_init.
Proof.
  intros c rc c' Hx. unfold ssh_curve25519_init in Hx. apply bind_Some in Hx as (n & _ & Hx).
  destruct (x25519_keygen _) as [[[priv pub]|] r]; [|injection Hx as <- <-; by apply same_advances].
  apply bind_Some in Hx as (c1 & Hi & Hx). apply in_next_advances in Hi. injection Hx as <- <-.
  etrans; [etrans; [|exact Hi]|]; by apply same_advances.
Qed.

Lemma build_k_careful : careful ssh_curve25519_build_k.
Proof.
  intros c rc c' Hx. unfold ssh_curve25519_build_k in Hx. apply bind_Some in Hx as (n & _ & Hx). cbn zeta in Hx.
  destruct (x25519_derive _ _); [|by injection Hx as <- <-].
  apply bind_Some in Hx as (c1 & Hi & Hx). apply in_next_advances in Hi. by injection Hx as <- <-.
Qed.

Lemma remove_advances f c : advances c (remove_handlers f c).
Proof. unfold remove_handlers. case_bool_decide; [by apply same_advances|done]. Qed.

Lemma send_careful : careful (lift (ssh_packet_send fresh tmp0 fips_mode known_hosts_algorithms)).
Proof. apply lift_careful. intros s. apply packet_send_within. Qed.

Lemma new_keys_in_careful : careful (new_keys_in fresh tmp0).
Proof.
  intros c rc c' Hx. unfold new_keys_in in Hx. cbn zeta in Hx. apply bind_Some in Hx as ([rc1 c1] & Hl & Hx).
  apply (lift_careful _ (fun s => newkeys_within fresh tmp0 s SSH_DIRECTION_IN)) in Hl. etrans; [exact Hl|].
  injection Hx as <- <-. match goal with |- advances _ (if ?b then _ else _) => destruct b end; [by apply same_advances|done].
Qed.

Lemma curve_client_init_careful : careful (ssh_client_curve25519_init fresh tmp0 fips_mode known_hosts_algorithms).
Proof.
  intros c rc c' Hx. unfold ssh_client_curve25519_init in Hx. step curve_init_careful Hx. destruct (negb _); [by injection Hx as <- <-|].
  step pack_out_careful Hx. destruct (negb _); [by injection Hx as <- <-|].
  apply send_careful in Hx. etrans; [|exact Hx]. etrans; [|by apply set_dh_advances]. by apply same_advances.
Qed.

Lemma packet_error_careful : careful packet_error.
Proof. intros c rc c' [= <- <-]. apply set_state_advances. Qed.

Lemma client_newkeys_careful : careful (client_newkeys fresh tmp0 fips_mode known_hosts_algorithms).
Proof.
  intros c rc c' Hx. unfold client_newkeys in Hx. step out_u8_careful Hx. destruct (_ <? 0); [by apply packet_error_careful in Hx|].
  step send_careful Hx. destruct (_ =? _); [by apply packet_error_careful in Hx|]. injection Hx as <- <-. by apply set_dh_advances.
Qed.

Lemma curve_reply_careful : careful (ssh_packet_client_curve25519_reply fresh tmp0 fips_mode known_hosts_algorithms).
Proof.
  intros c rc c' Hx. unfold ssh_packet_client_curve25519_reply in Hx. cbn zeta in Hx. etrans; [apply (remove_advances KEX_CURVE25519)|].
  step get_string_careful Hx. destruct o as [blob|]; [|by apply packet_error_careful in Hx].
  step import_careful Hx. destruct (negb _); [by apply packet_error_careful in Hx|].
  step get_string_careful Hx. destruct o as [q|]; [|by apply packet_error_careful in Hx].
  apply bind_Some in Hx as ([p|] & _ & Hx); [|by apply packet_error_careful in Hx].
  apply bind_Some in Hx as (c4 & Hi & Hx). apply in_next_advances in Hi. etrans; [exact Hi|]. clear Hi.
  step get_string_careful Hx. destruct o as [sig|]; [|by apply packet_error_careful in Hx].
  apply bind_Some in Hx as (c6 & Hi & Hx). apply in_next_advances in Hi. etrans; [exact Hi|]. clear Hi.
  step build_k_careful Hx. destruct (_ <? 0); [by apply packet_error_careful in Hx|by apply client_newkeys_careful in Hx].
Qed.

(** *** The connection callback *)

Definition cautious (k : conn -> run conn) : Prop := forall c c', k c = Some c' -> advances c c'.

Lemma or_close_advances c m bad k c' : or_close m bad k = Some c' -> (forall rc c1, m = Some (rc, c1) -> advances c c1) -> cautious k -> advances c c'.
Proof.
  intros Hx Hm Hk. unfold or_close in Hx. apply bind_Some in Hx as ([rc c1] & He & Hx). etrans; [by eapply Hm|].
  destruct (bad rc); [injection Hx as <-; apply close_advances|by apply Hk].
Qed.

Lemma done_cautious : cautious (fun c => Some c).
Proof. by intros c c' [= <-]. Qed.

#[local] Abbreviation callback := (ssh_client_connection_callback fresh tmp0 fips_mode known_hosts_algorithms libssh_version errno other_client_init).

Lemma dh_handshake_careful : careful (dh_handshake fresh tmp0 fips_mode known_hosts_algorithms other_client_init).
Proof.
  intros c rc c' Hx. unfold dh_handshake in Hx. destruct (dh_of c); try by injection Hx as <- <-.
  apply bind_Some in Hx as (n & _ & Hx). destruct (kex_type _) as [t|]; [|by injection Hx as <- <-].
  destruct (kex_family_of t); first [by apply other_init_careful in Hx|by apply curve_client_init_careful in Hx].
Qed.

Lemma send_banner_careful b : careful (fun c => ssh_send_banner libssh_version c b).
Proof.
  intros c rc c' Hx. unfold ssh_send_banner in Hx. cbn zeta in Hx.
  assert (Hw : forall buf n, careful (lift (fun s => ssh_socket_write s buf n))).
  { intros buf n. apply lift_proto. intros s a s' Hs. unfold ssh_socket_write in Hs. walk Hs; done. }
  assert (Hs : forall v, same_states c (if b then set_server_banner v c else set_client_banner v c)) by (by intros; destruct b).
  destruct (if b then server_banner libssh_version c else _) as [t|]; [|injection Hx as <- <-; by apply same_advances].
  etrans; [apply same_advances, Hs|]. step Hw Hx. by injection Hx as <- <-.
Qed.

Lemma send_kex_careful b : careful (send_kex fresh tmp0 fips_mode known_hosts_algorithms b).
Proof. apply lift_careful. intros s. apply send_kex_within. intros. apply packet_send_within. Qed.
Lemma client_proposal_careful : careful (set_client_proposal fips_mode known_hosts_algorithms).
Proof. apply lift_proto. apply client_kex_proto. Qed.
Lemma select_careful : careful select_methods.
Proof. apply lift_proto. intros s a s' Hs. apply bind_Some in Hs as ([rc h] & _ & Hs). by injection Hs as <- <-. Qed.

Lemma take_banner_advances banner k c c' : take_banner errno banner k c = Some c' -> cautious k -> advances c c'.
Proof.
  intros Hx Hk. unfold take_banner in Hx. destruct banner as [b|]; [|injection Hx as <-; apply close_advances].
  destruct (ssh_analyze_banner errno (Some b)) as [rc o]. set (c1 := match o with Some v => set_openssh v c | None => c end) in Hx.
  assert (Hc : advances c c1) by (unfold c1; destruct o; by apply same_advances). etrans; [exact Hc|].
  destruct (rc <? 0); [injection Hx as <-; apply close_advances|]. apply Hk in Hx. etrans; [|exact Hx]. by apply same_advances.
Qed.

Lemma in_dh_cautious : cautious client_in_dh.
Proof. intros c c' [= <-]. case_bool_decide as Hd; [|done]. constructor; [done|done|by right]. Qed.

Lemma client_kexinit_cautious : cautious (client_kexinit fresh tmp0 fips_mode known_hosts_algorithms other_client_init).
Proof.
  intros c c' Hx. unfold client_kexinit in Hx. apply bind_Some in Hx as (n & _ & Hx). cbn zeta in Hx.
  assert (Hgo : cautious (fun c => or_close (select_methods c) is_error (fun c =>
    or_close (dh_handshake fresh tmp0 fips_mode known_hosts_algorithms other_client_init (set_state SSH_SESSION_STATE_DH c)) is_error client_in_dh))).
  { intros c1 c2 Hy. eapply or_close_advances; [exact Hy|by intros; eapply select_careful|]. intros c3 c4 Hz.
    eapply or_close_advances; [exact Hz| |apply in_dh_cautious]. intros rc c5 Hd. apply dh_handshake_careful in Hd. etrans; [|exact Hd]. apply set_state_advances. }
  destruct (no_proposal _); [|by apply Hgo]. eapply or_close_advances; [exact Hx|by intros; eapply client_proposal_careful|]. intros c1 c2 Hy.
  eapply or_close_advances; [exact Hy|by intros; eapply send_kex_careful|exact Hgo].
Qed.

Lemma callback_cautious : cautious callback.
Proof.
  intros c c' Hx. unfold ssh_client_connection_callback in Hx. destruct (state_of c); try by injection Hx as <-.
  - step send_banner_careful Hx. by injection Hx as <-.
  - eapply take_banner_advances; [exact Hx|]. intros c1 c2 Hy. eapply or_close_advances; [exact Hy| |].
    + intros rc c3 Hp. apply client_proposal_careful in Hp. etrans; [|exact Hp]. apply set_state_advances.
    + intros c3 c4 Hz. eapply or_close_advances; [exact Hz|by intros; eapply send_kex_careful|apply done_cautious].
  - by apply client_kexinit_cautious.
  - by apply in_dh_cautious.
  - injection Hx as <-. apply close_advances.
Qed.

(** The callback of a session of a client. *)
#[local] Abbreviation connection_callback := (ssh_connection_callback fresh tmp0 fips_mode known_hosts_algorithms libssh_version errno other_client_init).

Lemma client_callback c c' : is_server (base c) = false -> connection_callback c = Some c' -> advances c c'.
Proof. intros Hr Hx. unfold ssh_connection_callback in Hx. rewrite Hr in Hx. by apply callback_cautious. Qed.

(** *** Handlers *)

(** What KEXINIT does to the states. *)
Definition kexed (p p' : proto) : Prop :=
  server p' = server p /\ (dh_handshake_state p' = DH_STATE_FINISHED -> dh_handshake_state p = DH_STATE_FINISHED).

Lemma kexinit_within s type rc s' : ssh_packet_kexinit (K:=cipher_state) (fun s => Some s) s type = Some (rc, s') -> kexed (proto_of s) (proto_of s').
Proof.
  intros Hx. unfold ssh_packet_kexinit in Hx. apply bind_Some in Hx as (n & _ & Hx).
  assert (Herr : forall (s1 : session cipher_state prng handshake) rc s', proto_of s1 = proto_of s -> kexinit_error s1 = Some (rc, s') -> kexed (proto_of s) (proto_of s')).
  { intros s1 rc0 s0 Hp [= <- <-]. unfold kexed. cbn. by rewrite Hp. }
  destruct (_ && _); [by eapply Herr; [|exact Hx]|]. apply bind_Some in Hx as (packet & _ & Hx). apply bind_Some in Hx as ([[len o] packet1] & _ & Hx).
  cbn zeta in Hx. destruct o as [c|]; [|by eapply Herr; [|exact Hx]].
  apply bind_Some in Hx as ([ok s1] & Hc & Hx). apply cookie_in_proto in Hc. cbn in Hc. destruct (ok <? 0); [by eapply Herr; [|exact Hx]|].
  apply bind_Some in Hx as (hash & _ & Hx). apply bind_Some in Hx as ([[[ok2 packet2] hash2] strings] & _ & Hx).
  set (s2 := set_in_buffer _ _) in Hx. assert (Hs2 : proto_of s2 = proto_of s) by (by rewrite <- Hc). clearbody s2.
  destruct (negb _); [by eapply Herr; [|exact Hx]|]. apply bind_Some in Hx as ([ok3 s3] & Hk & Hx).
  assert (Hs3 : proto_of s3 = proto_of s).
  { rewrite <- Hs2. destruct (is_server _); [|by injection Hk as <- <-]. unfold kexinit_server in Hk. cbn zeta in Hk. clear Hx. walk Hk; done. }
  destruct (negb _); [by eapply Herr; [|exact Hx]|]. injection Hx as <- <-. unfold kexed. cbn. by rewrite Hs3.
Qed.

#[local] Abbreviation kexinit := (handle_kexinit fresh tmp0 fips_mode known_hosts_algorithms libssh_version errno other_client_init).

Lemma kexinit_advances c rc c' : is_server (base c) = false -> kexinit c = Some (rc, c') -> advances c c'.
Proof.
  intros Hr Hx. unfold handle_kexinit, lift in Hx. apply bind_Some in Hx as ([rc1 c1] & Hl & Hx). apply bind_Some in Hl as ([rc2 s2] & Hk & Hl).
  injection Hl as <- <-. apply kexinit_within in Hk as [Hs Hd].
  assert (Ha : advances c (set_base s2 c)) by (constructor; [exact Hs|exact Hd|by left]).
  etrans; [exact Ha|]. case_bool_decide; [|by injection Hx as <- <-]. apply bind_Some in Hx as (c3 & Hc & Hx). injection Hx as <- <-.
  apply client_callback in Hc; [done|]. rewrite (ad_role _ _ Ha). exact Hr.
Qed.

(** The client holds a key and a signature of the server, and the verification of the signature
    over the exchange hash with that key succeeds. *)
Definition verified c : Prop := exists key blob sig n h,
  server_pubkey c = Some key /\ dh_server_signature (exch (upper (base c))) = Some blob
  /\ ssh_pki_import_signature_blob (Some blob) key = Some (Some sig)
  /\ next_crypto (base c) = Some n /\ secret_hash (keys (upper (base c))) = Some h
  /\ ssh_pki_signature_verify fips_mode (Some sig) (Some key) (Some (ztake (digest_len n) h)) <> SSH_ERROR.

Lemma verify_server_spec c ok c' : verify_server fips_mode c = Some (ok, c') -> same_states c c' /\ (ok = true -> verified c).
Proof.
  unfold verify_server. intros Hx. apply bind_Some in Hx as (n & Hn & Hx). cbn zeta in Hx. apply bind_Some in Hx as (c1 & Hi & Hx).
  pose proof (in_next_same _ _ _ Hi) as Hsame.
  assert (Hc1 : c1 = on_base (upd (fun h => set_exch (set_signature None (exch h)) h)) c).
  { unfold in_next, upd_next in Hi. rewrite Hn in Hi. cbn in Hi. by injection Hi as <-. }
  subst c1. cbn [server_pubkey on_base set_base upd base] in Hx.
  destruct (server_pubkey c) as [key|] eqn:Hkey; [|by injection Hx as <- <-].
  apply bind_Some in Hx as (osig & Hsig & Hx). destruct osig as [sig|]; [|by injection Hx as <- <-].
  apply bind_Some in Hx as (wanted & _ & Hx). apply bind_Some in Hx as (m & _ & Hx). destruct m; cbn [negb] in Hx; [|by injection Hx as <- <-].
  apply bind_Some in Hx as (n' & Hn' & Hx). injection Hx as <- <-. split; [done|]. intros Hv. apply negb_true_iff, Z.eqb_neq in Hv.
  cbn in Hn', Hv. assert (n' = n) by congruence. subst n'.
  destruct (secret_hash (keys (upper (base c)))) as [h|] eqn:Hh; [|by destruct Hv]. cbn in Hv.
  destruct (dh_server_signature (exch (upper (base c)))) as [blob|] eqn:Hb; [|by cbn in Hsig].
  exists key, blob, sig, n, h. by split_and!.
Qed.

Lemma newkeys_advances c rc c' : is_server (base c) = false ->
  ssh_packet_newkeys fresh tmp0 fips_mode known_hosts_algorithms libssh_version errno other_client_init c = Some (rc, c') ->
  advances c c' \/ verified c.
Proof.
  intros Hr Hx. unfold ssh_packet_newkeys in Hx. destruct (_ || _); [left; by apply packet_error_careful in Hx|]. rewrite Hr in Hx.
  apply bind_Some in Hx as ([ok c1] & Hv & Hx). apply bind_Some in Hv as ([ok1 c2] & Hv & Hn).
  apply verify_server_spec in Hv as [Hsame Hv]. destruct ok1; [right; by apply Hv|]. cbn [negb] in Hn. injection Hn as <- <-. cbn [negb] in Hx.
  left. apply packet_error_careful in Hx. etrans; [by apply same_advances|exact Hx].
Qed.

Lemma receive_banner_advances data c n d c' : is_server (base c) = false ->
  client_receive_banner fresh tmp0 fips_mode known_hosts_algorithms libssh_version errno other_client_init data c = Some (n, d, c') -> advances c c'.
Proof.
  intros Hr Hx. unfold client_receive_banner in Hx. destruct (negb _); [by injection Hx as <- <- <-|].
  destruct (banner_scan _ _ _) as [seen|seen|line]; [by injection Hx as <- <- <-|injection Hx as <- <- <-; apply set_state_advances|].
  cbn zeta in Hx. destruct (strncmp0 _ _ _); [|by injection Hx as <- <- <-]. destruct (strdup _) as [t|]; [|by injection Hx as <- <- <-].
  apply bind_Some in Hx as (c1 & Hc & Hx). injection Hx as <- <- <-. apply client_callback in Hc; [|exact Hr]. etrans; [|exact Hc]. etrans; [by apply (same_advances _ (set_server_banner (Some t) c))|apply set_state_advances].
Qed.

Lemma ext_info_careful : careful ssh_packet_ext_info.
Proof.
  intros c rc c' Hx. unfold ssh_packet_ext_info in Hx. apply bind_Some in Hx as (p & _ & Hx). apply bind_Some in Hx as ([[rc1 v] p1] & _ & Hx).
  destruct v as [v|]; [|injection Hx as <- <-; by apply same_advances]. cbn zeta in Hx. destruct (128 <? ntohl v); [injection Hx as <- <-; by apply same_advances|].
  apply bind_Some in Hx as (c1 & Hr & Hx). injection Hx as <- <-. revert p1 c Hr. induction (Z.to_nat (ntohl v)) as [|n IH]; intros p1 c Hr; cbn [read_extensions] in Hr.
  - injection Hr as <-. by apply same_advances.
  - apply bind_Some in Hr as ([[[rc2 os] fr] p2] & _ & Hr). destruct (negb _); [injection Hr as <-; by apply same_advances|].
    apply bind_Some in Hr as (name & _ & Hr). apply bind_Some in Hr as (value & _ & Hr). apply bind_Some in Hr as (c2 & Hc & Hr).
    apply IH in Hr. etrans; [|exact Hr]. case_bool_decide; [|by injection Hc as <-]. apply bind_Some in Hc as (h & _ & Hc). injection Hc as <-. by apply same_advances.
Qed.

Lemma disconnect_careful : careful ssh_packet_disconnect_callback.
Proof.
  intros c rc c' Hx. unfold ssh_packet_disconnect_callback in Hx. apply bind_Some in Hx as (p & _ & Hx). apply bind_Some in Hx as ([[r v] p1] & _ & Hx).
  apply bind_Some in Hx as ([x p2] & _ & Hx). apply bind_Some in Hx as (t & _ & Hx). injection Hx as <- <-. etrans; [|apply close_advances]. by apply same_advances.
Qed.

(** *** Runs of a client *)

(** What happens to a client: the socket connects, fails or brings bytes of the banner, a packet comes in, the
    application sends a message, the user is authenticated. *)
Inductive event :=
  | EConnected (ok : bool)
  | EException
  | EBanner (data : bytes)
  | EKexinit (packet : ssh_buffer)
  | ECurveReply (packet : ssh_buffer)
  | EOtherReply (f : kex_family) (packet : ssh_buffer)
  | ENewkeys (packet : ssh_buffer)
  | EExtInfo (packet : ssh_buffer)
  | EDisconnect (packet : ssh_buffer)
  | ESend (message : ssh_buffer)
  | EAuthenticated.

Definition authenticated (s : session cipher_state prng handshake) : session cipher_state prng handshake :=
  let p := proto_of s in
  set_proto (mkProto (client p) (server p) (Z.lor (flags p) SSH_SESSION_FLAG_AUTHENTICATED) SSH_SESSION_STATE_AUTHENTICATED
               (dh_handshake_state p) (global_req_state p) (service_state p) SSH_AUTH_STATE_SUCCESS) s.

Definition run_event (e : event) c : run conn :=
  let ends {A} (m : run (A * conn)) := '(_, c) ← m; Some c in
  match e with
  | EConnected ok => socket_callback_connected fresh tmp0 fips_mode known_hosts_algorithms libssh_version errno other_client_init ok c
  | EException => ssh_socket_exception_callback fresh tmp0 fips_mode known_hosts_algorithms libssh_version errno other_client_init c
  | EBanner data => ends (client_receive_banner fresh tmp0 fips_mode known_hosts_algorithms libssh_version errno other_client_init data c)
  | EKexinit p => ends (kexinit (set_in p c))
  | ECurveReply p => ends (ssh_packet_client_curve25519_reply fresh tmp0 fips_mode known_hosts_algorithms (set_in p c))
  | EOtherReply f p => ends (other_client_reply f (set_in p c))
  | ENewkeys p => ends (ssh_packet_newkeys fresh tmp0 fips_mode known_hosts_algorithms libssh_version errno other_client_init (set_in p c))
  | EExtInfo p => ends (ssh_packet_ext_info (set_in p c))
  | EDisconnect p => ends (ssh_packet_disconnect_callback (set_in p c))
  | ESend b => ends (lift (ssh_packet_send fresh tmp0 fips_mode known_hosts_algorithms) (set_out b c))
  | EAuthenticated => Some (on_base authenticated c)
  end.

Lemma event_advances e c c' : is_server (base c) = false -> run_event e c = Some c' -> advances c c' \/ exists p, e = ENewkeys p /\ verified (set_in p c).
Proof.
  intros Hr Hx. assert (Hin : forall p, advances c (set_in p c)) by (intros; by apply same_advances).
  destruct e; cbn [run_event] in Hx; try (apply bind_Some in Hx as ([? ?] & Hm & Hx); injection Hx as <-).
  - left. unfold socket_callback_connected in Hx. destruct (_ && _); [by injection Hx as <-|]. apply client_callback in Hx; [|exact Hr].
    etrans; [|exact Hx]. apply set_state_advances.
  - left. unfold ssh_socket_exception_callback in Hx. apply client_callback in Hx; [|exact Hr]. etrans; [|exact Hx]. apply set_state_advances.
  - left. destruct p as [n d]. by apply receive_banner_advances in Hm.
  - left. apply kexinit_advances in Hm; [|done]. etrans; [apply Hin|exact Hm].
  - left. apply curve_reply_careful in Hm. etrans; [apply Hin|exact Hm].
  - left. apply other_reply_careful in Hm. etrans; [apply Hin|exact Hm].
  - apply newkeys_advances in Hm; [|done]. destruct Hm as [Hm|Hm]; [left; etrans; [apply Hin|exact Hm]|right; by eexists].
  - left. apply ext_info_careful in Hm. etrans; [apply Hin|exact Hm].
  - left. apply disconnect_careful in Hm. etrans; [apply Hin|exact Hm].
  - left. apply send_careful in Hm. etrans; [|exact Hm]. by apply same_advances.
  - left. injection Hx as <-. constructor; [done|done|by left].
Qed.

(** A run: the connections that events were handled in, and the last one. *)
Inductive leads c : list (event * conn) -> conn -> Prop :=
  | leads_here : leads c [] c
  | leads_event l c1 e c2 : leads c l c1 -> run_event e c1 = Some c2 -> leads c (l ++ [(e, c1)]) c2.

(** NEWKEYS in a connection whose server is verified. *)
Definition verified_newkeys (x : event * conn) : Prop := exists p, x.1 = ENewkeys p /\ verified (set_in p x.2).

Lemma leads_role c l c' : is_server (base c) = false -> leads c l c' -> is_server (base c') = false \/ Exists verified_newkeys l.
Proof.
  intros Hr. induction 1 as [|l c1 e c2 _ IH He]; [by left|]. destruct IH as [IH|IH]; [|right; apply Exists_app; by left].
  destruct (event_advances _ _ _ IH He) as [[Ha _ _]|Hv]; [left; by rewrite Ha|right; apply Exists_app; right; by constructor].
Qed.

(** (C2) A client is not connected, and has no keys of a finished exchange in use, before it verified the server: in every run
    of the handlers, whatever the bytes and packets that come in and in whatever order, when the client is
    connected or its exchange is finished, NEWKEYS was handled in a connection that held a key and a signature of the
    server such that the check of the signature on the exchange hash with that key returned success. *)
Theorem host_verified_before_connected c l c' :
  is_server (base c) = false -> connected c = false -> dh_of c <> DH_STATE_FINISHED -> leads c l c' ->
  connected c' = true \/ dh_of c' = DH_STATE_FINISHED -> Exists verified_newkeys l.
Proof.
  intros Hr Hc Hd Hl. induction Hl as [|l c1 e c2 Hl IH He]; intros Hend; [by destruct Hend as [?|?]; [congruence|]|].
  destruct (leads_role _ _ _ Hr Hl) as [Hr1|Hv]; [|apply Exists_app; by left].
  destruct (event_advances _ _ _ Hr1 He) as [[_ Hdh Hcon]|Hv]; [|apply Exists_app; right; by constructor].
  apply Exists_app. left. apply IH. destruct Hend as [Hend|Hend]; [by apply Hcon|right; by apply Hdh].
Qed.
End Verified.

(** ** A concrete client *)

Module HandshakeDemo.
#[export] Existing Instance calloc_allocator.
#[export] Existing Instance N_bignum.
#[export] Existing Instance Demo.random.
#[export] Existing Instance EvpDemo.evp.
#[export] Instance keys : KeyLib := PkiDemo.lib true.
#[export] Instance hashes : HashLib := KdfDemo.hash true.
#[export] Instance hmacs : HmacLib := Demo.hmac true.

(** One key pair; the secret is the sum of the points. *)
Definition point (a b : bytes) : bytes := ztake 32 (zip_with (fun x y => z2b (Z.lxor (b2z x) (b2z y))) a b ++ zrep 32 Byte.x00).
#[export] Instance x25519 : X25519Lib.
Proof.
  refine {| x25519_keygen r := (Some (zrep 32 Byte.x07, zrep 32 Byte.x07), r); x25519_derive a p := Some (point a p) |}.
  - intros r a p r' [= <- <- <-]. done.
  - intros a p k [= <-]. unfold point. rewrite zlen_take, zlen_app, zlen_rep. pose proof (zlen_nonneg (zip_with (fun x y => z2b (Z.lxor (b2z x) (b2z y))) a p)). lia.
  - intros r1 r1' r2 r2' a b pa pb [= <- <- <-] [= <- <- <-]. reflexivity.
Defined.

Definition fresh (n : Z) : bytes := zrep n Byte.x00.
Definition no_init (_ : kex_family) (c : conn) : run (Z * conn) := Some (SSH_ERROR, c).
Definition errno : Z := 0.
Definition version : bytes := cstr "0.9.5".
Definition tmp0 : bytes := Chachapoly.demo_stack.

(** A signature of [PkiDemo.hash]. *)
Definition signature : ssh_string :=
  mk_string (htonl 28) (lv (cstr "rsa-sha2-512") ++ lv (PkiDemo.sign (PkiDemo.PRsa 0xc5f1 65537) PkiDemo.hash) ++ [Byte.x00]).

(** A client that read the reply of the server and sent its NEWKEYS; [sig] is the signature it was given. *)
Definition replied (sig : ssh_string) : conn :=
  let s := NewKeysDemo.ended false 0 "none" (NewKeysDemo.crypto SSH_DIRECTION_OUT 32 (Some (zrep 32 Byte.x09))) in
  mk_conn (upd (set_keys (set_hash SSH_KDF_SHA256 (Some PkiDemo.hash) no_keys)) (upd (fun h => set_exch (set_signature (Some sig) (exch h)) h) s))
    false true 0 None None true ReadPackets (None, None, None, None) (Some PkiDemo.rsa_pub) no_privkey.

Definition newkeys_packet : ssh_buffer := Demo.buffer_of [].
Definition connects (sig : ssh_string) : run conn :=
  run_event fresh tmp0 false None version errno no_init no_init (ENewkeys newkeys_packet) (replied sig).

Definition connected_client : conn :=
  default (replied signature) (run_event fresh tmp0 false None version errno no_init no_init (ENewkeys newkeys_packet) (replied signature)).
Lemma client_connects :
  run_event fresh tmp0 false None version errno no_init no_init (ENewkeys newkeys_packet) (replied signature) = Some connected_client.
Proof.
  assert (Hs : some (run_event fresh tmp0 false None version errno no_init no_init (ENewkeys newkeys_packet) (replied signature)) = true)
    by (vm_compute; reflexivity).
  unfold connected_client. revert Hs. generalize (run_event fresh tmp0 false None version errno no_init no_init (ENewkeys newkeys_packet) (replied signature)).
  by intros [c|].
Qed.

Lemma no_init_careful f : careful (no_init f).
Proof. intros c a c' Hx. injection Hx as <- <-. by constructor; auto. Qed.
End HandshakeDemo.

Import HandshakeDemo.

Lemma host_verified_before_connected_witness :
  connected connected_client = true
  /\ Exists (verified_newkeys false) [(ENewkeys newkeys_packet, replied signature)].
Proof.
  assert (Hc : connected connected_client = true) by (vm_compute; reflexivity). split; [exact Hc|].
  eapply (host_verified_before_connected fresh tmp0 false None version errno no_init no_init no_init_careful no_init_careful
    (replied signature)); [reflexivity|reflexivity|discriminate| |left; exact Hc].
  apply (leads_event _ _ _ _ _ _ _ _ _ [] (replied signature)); [apply leads_here|exact client_connects].
Defined.

(** Another signature does not connect it. *)
Example forged_signature_refused :
  option_map (fun c => (connected c, state_of c)) (connects (mk_string (htonl 28)
    (lv (cstr "rsa-sha2-512") ++ lv (zrep 8 Byte.x00) ++ [Byte.x00]))) = Some (false, SSH_SESSION_STATE_ERROR).
Proof. vm_compute. reflexivity. Qed.
