(* ===== verification/HandshakeBanner.v ===== *)
(** * Connections: the exchange of banners

    What one side sends as its banner the other takes for it, however the stream is cut. *)

From stdpp Require Import gmap.
From S2P Require Import Prelude SshString Buffer Bignum BufferPack Token Misc Session Crypto Packet PacketRecv Kex Kdf SessionId.
From S2P Require Import Libcrypto NewKeys Pki Handshake HandshakeFacts.

(** ** Lines *)

Definition lf : byte := Byte.x0a.
Definition one_line (l : bytes) : Prop := Forall (fun x => x <> lf) l.
Definition lines (pre : list bytes) : bytes := concat (map (fun l => l ++ [lf]) pre).
Definition clean (d : bytes) : bytes := map no_return d.

Lemma no_return_lf x : no_return x = lf <-> x = lf.
Proof. unfold no_return, lf. destruct (Byte.eqb x Byte.x0d) eqn:E; [apply byte_eqb_eq in E; subst; split; discriminate|done]. Qed.

Lemma no_return_idem x : no_return (no_return x) = no_return x.
Proof. unfold no_return. destruct (Byte.eqb x Byte.x0d) eqn:E; [done|by rewrite E]. Qed.

Lemma clean_idem d : clean (clean d) = clean d.
Proof. unfold clean. rewrite map_map. apply map_ext. intros x. apply no_return_idem. Qed.

Lemma clean_app a b : clean (a ++ b) = clean a ++ clean b.
Proof. apply map_app. Qed.

Lemma zlen_clean d : zlen (clean d) = zlen d.
Proof. unfold zlen, clean. by rewrite length_map. Qed.

Lemma clean_line l : one_line l -> one_line (clean l).
Proof. unfold one_line, clean. rewrite Forall_map. intros Hl. eapply Forall_impl; [exact Hl|]. intros x Hx Hy. by apply Hx, no_return_lf. Qed.

(** The scan of a line that is there, and of one that is not yet. *)
Lemma scan_line limit l : forall seen rest, one_line l -> zlen seen + zlen l <= limit + 1 ->
  banner_scan limit seen (l ++ lf :: rest) = Line (seen ++ clean l).
Proof.
  induction l as [|x l IH]; intros seen rest Hl Hn; cbn [app banner_scan].
  - rewrite byte_eqb_refl. by rewrite app_nil_r.
  - inversion Hl as [|? ? Hx Hl']; subst. rewrite (proj2 (byte_eqb_neq x Byte.x0a)) by done. rewrite zlen_cons in Hn. pose proof (zlen_nonneg l).
    rewrite (proj2 (Z.ltb_ge _ _)) by lia. rewrite IH; [|done|rewrite zlen_app; change (zlen [no_return x]) with 1; lia]. cbn [clean map]. by rewrite <- app_assoc.
Qed.

Lemma scan_part limit l : forall seen, one_line l -> zlen seen + zlen l <= limit + 1 -> banner_scan limit seen l = NoLine (seen ++ clean l).
Proof.
  induction l as [|x l IH]; intros seen Hl Hn; cbn [banner_scan]; [by rewrite app_nil_r|].
  inversion Hl as [|? ? Hx Hl']; subst. rewrite (proj2 (byte_eqb_neq x Byte.x0a)) by done. rewrite zlen_cons in Hn. pose proof (zlen_nonneg l).
  rewrite (proj2 (Z.ltb_ge _ _)) by lia. rewrite IH; [|done|rewrite zlen_app; change (zlen [no_return x]) with 1; lia]. cbn [clean map]. by rewrite <- app_assoc.
Qed.

(** Text that is the same but for carriage returns. *)
Lemma clean_inv_app d a b : clean d = clean (a ++ b) -> exists a' b', d = a' ++ b' /\ clean a' = clean a /\ clean b' = clean b.
Proof. rewrite clean_app. unfold clean. intros Hx. apply map_eq_app in Hx as (a' & b' & -> & Ha & Hb). by exists a', b'. Qed.

Lemma clean_inv_lf d rest : clean d = clean (lf :: rest) -> exists d', d = lf :: d' /\ clean d' = clean rest.
Proof.
  destruct d as [|x d]; [discriminate|]. cbn [clean map]. intros Hx. injection Hx as Hx Hd. exists d. split; [|done].
  f_equal. apply no_return_lf. by rewrite Hx.
Qed.

Lemma one_line_clean l l' : clean l' = clean l -> one_line l -> one_line l'.
Proof.
  intros Hc Hl. apply clean_line in Hl. rewrite <- Hc in Hl. unfold one_line, clean in *. rewrite Forall_map in Hl.
  eapply Forall_impl; [exact Hl|]. intros x Hx Hy. by apply Hx, no_return_lf.
Qed.

Lemma zlen_clean_eq l l' : clean l' = clean l -> zlen l' = zlen l.
Proof. intros Hc. by rewrite <- (zlen_clean l'), Hc, zlen_clean. Qed.

(** A proper prefix of the stream: whole lines and a part of the next. *)
Lemma prefix_lines q : forall pre last tail, q ++ tail = lines pre ++ last ++ [lf] -> tail <> [] -> one_line last -> Forall one_line pre ->
  exists done p more, pre = done ++ more /\ q = lines done ++ p /\ one_line p /\ p ++ tail = lines more ++ last ++ [lf]
    /\ zlen p <= match more with [] => zlen last | l :: _ => zlen l end.
Proof.
  intros pre. revert q. induction pre as [|l pre IH]; intros q last tail Heq Ht Hlast Hpre.
  - cbn [lines map concat app] in Heq. exists [], q, []. cbn [app lines map concat].
    assert (Hq : exists t, last = q ++ t /\ tail = t ++ [lf]).
    { destruct (exists_last Ht) as (t & x & ->). rewrite app_assoc in Heq. apply app_inj_tail in Heq as [<- ->]. by exists t. }
    destruct Hq as (t & -> & ->). apply Forall_app in Hlast as [Hq Ht']. split_and!; [done|done|done|by rewrite app_assoc|rewrite zlen_app; pose proof (zlen_nonneg t); lia].
  - inversion Hpre as [|? ? Hl Hpre']; subst. cbn [lines map concat] in Heq. change (concat (map (fun l => l ++ [lf]) pre)) with (lines pre) in Heq.
    destruct (decide (length q <= length l)%nat) as [Hle|Hle].
    + exists [], q, (l :: pre). cbn [app lines map concat]. rewrite <- !app_assoc in Heq.
      assert (Hq : q = take (length q) l).
      { apply (f_equal (take (length q))) in Heq. rewrite take_app_length in Heq. rewrite take_app_le in Heq by done. done. }
      split_and!; [done|done|rewrite Hq; by apply Forall_take|cbn; change (concat (map (fun l => l ++ [lf]) pre)) with (lines pre); by rewrite Heq, <- !app_assoc|unfold zlen; lia].
    + assert (Hq : exists q', q = (l ++ [lf]) ++ q').
      { exists (drop (length (l ++ [lf])) q). apply (f_equal (take (length (l ++ [lf])))) in Heq. rewrite <- !app_assoc in Heq.
        rewrite (app_assoc l [lf]) in Heq. rewrite take_app_length in Heq. rewrite take_app_le in Heq by (rewrite length_app; cbn; lia).
        rewrite <- Heq at 1. by rewrite take_drop. }
      destruct Hq as (q' & ->). rewrite <- !app_assoc in Heq. apply app_inv_head in Heq. cbn [app] in Heq. injection Heq as Heq.
      destruct (IH q' last tail Heq Ht Hlast Hpre') as (dn & p & more & -> & -> & Hp & Hrest & Hz).
      exists (l :: dn), p, more. cbn [lines map concat app]. split_and!; [done|by rewrite <- !app_assoc|done|done|done].
Qed.

(** ** The sender *)

Section Banners.
Context `{EvpLib} `{Allocator} `{HmacLib} `{HashLib} `{KeyLib} `{X25519Lib}.
Implicit Type c : conn.
Variable fresh : Z -> bytes.
Variable tmp0 : bytes.
Variable fips_mode : bool.
Variable known_hosts_algorithms : option bytes.
Variable libssh_version : bytes.
Variable errno : Z.
Variable other_client_init : kex_family -> conn -> run (Z * conn).
Variable packet_data : bytes -> conn -> run (Z * conn).

#[local] Abbreviation callback := (ssh_connection_callback fresh tmp0 fips_mode known_hosts_algorithms libssh_version errno other_client_init).
#[local] Abbreviation delivers := (deliver fresh tmp0 fips_mode known_hosts_algorithms libssh_version errno other_client_init packet_data).
#[local] Abbreviation feeds := (feed fresh tmp0 fips_mode known_hosts_algorithms libssh_version errno other_client_init packet_data).

(** The banner one side sent: it is recorded, and the socket has it with its terminator. *)
Definition own_banner c : option bytes := if is_server (base c) then serverbanner (upper (base c)) else clientbanner (upper (base c)).

(** The text a side may send. *)
Definition printable (v : bytes) : Prop := Forall (fun x => x <> lf /\ x <> Byte.x0d /\ x <> Byte.x00) v.

Lemma strdup_some s v : strdup s = Some v -> v = s.
Proof. unfold strdup. destruct (alloc_fails _); [done|]. by intros [= <-]. Qed.

(** Every banner has the same start. *)
Lemma banner_start b c v : (if b : bool then server_banner libssh_version c else strdup (CLIENT_BANNER_SSH2 libssh_version)) = Some v ->
  strncmp0 v (cstr "SSH-") 4 = true.
Proof.
  assert (Hdef : forall v, strdup (CLIENT_BANNER_SSH2 libssh_version) = Some v -> strncmp0 v (cstr "SSH-") 4 = true) by (by intros w ->%strdup_some).
  destruct b; [|apply Hdef]. unfold server_banner. destruct (custombanner c) as [t|]; [|apply Hdef]. cbn zeta. destruct (some _); [|done].
  intros [= <-]. unfold snprintf. rewrite ztake_all; [done|]. change (zlen (cstr "SSH-2.0-" ++ t) <= zlen t + 8 + 1 - 1).
  rewrite zlen_app. change (zlen (cstr "SSH-2.0-")) with 8. lia.
Qed.

Lemma send_banner_sent c c' : ssh_send_banner libssh_version c (is_server (base c)) = Some (SSH_OK, c') -> buffer_wf (socket_out (base c)) ->
  exists v, own_banner c' = Some v /\ strncmp0 v (cstr "SSH-") 4 = true
    /\ (zlen v <= 253 -> contents (socket_out (base c')) = contents (socket_out (base c)) ++ v ++ terminator).
Proof.
  unfold ssh_send_banner. intros Hx Hwf. pose proof (banner_start (is_server (base c)) c) as Hstart.
  set (banner := if is_server (base c) then server_banner libssh_version c else _) in *.
  set (c1 := if is_server (base c) then set_server_banner banner c else set_client_banner banner c) in Hx.
  assert (Hr1 : is_server (base c1) = is_server (base c)) by (unfold c1; destruct (is_server (base c)) eqn:Hs; exact Hs).
  assert (Hc1 : own_banner c1 = banner) by (unfold own_banner; rewrite Hr1; unfold c1; by destruct (is_server (base c))).
  assert (Hb1 : socket_out (base c1) = socket_out (base c)) by (unfold c1; by destruct (is_server (base c))).
  clearbody c1 banner. destruct banner as [v|]; [|discriminate]. exists v. unfold lift in Hx. rewrite bind_Some in Hx. destruct Hx as ([rc c2] & Hl & Hx).
  apply bind_Some in Hl as ([rc1 s1] & Hw & Hl). injection Hl as <- <-. injection Hx as Hrc <-. unfold ssh_socket_write in Hw.
  assert (Hlen : 0 < zlen (snprintf 256 (v ++ terminator)) < 2 ^ 32).
  { unfold snprintf. rewrite zlen_take, zlen_app. change (zlen terminator) with 2. pose proof (zlen_nonneg v). lia. }
  rewrite (proj2 (Z.ltb_lt _ _)) in Hw by lia. rewrite Hb1 in Hw.
  destruct (add_data_spec (socket_out (base c)) (snprintf 256 (v ++ terminator)) (zlen (snprintf 256 (v ++ terminator))) Hwf)
    as (r & b & Ha & _ & _ & Hr); [lia|lia|]. rewrite Ha in Hw. cbn [mbind option_bind] in Hw.
  destruct Hr as [[-> Hcont]|[-> _]]; [change (0 <? 0) with false in Hw|change (-1 <? 0) with true in Hw; injection Hw as <- <-; discriminate].
  injection Hw as <- <-. split_and!; [exact Hc1|by apply Hstart|]. intros Hv. cbn. rewrite Hcont. f_equal. rewrite ztake_all by lia.
  unfold snprintf. rewrite ztake_all; [done|]. rewrite zlen_app. change (zlen terminator) with 2. lia.
Qed.

(** ** The receiver *)

(** The banner is still to come. *)
Definition awaits_banner c : Prop := reader c = ReadBanner /\ socket_open c = true /\ state_of c = SSH_SESSION_STATE_SOCKET_CONNECTED.
Definition banner_limit c : Z := if is_server (base c) then 127 else 255.

(** A line that a client passes over. *)
Definition passed_over c (l : bytes) : Prop :=
  is_server (base c) = false /\ one_line l /\ zlen l <= 256 /\ strncmp0 (until_nul (clean l)) (cstr "SSH-") 4 = false.

(** The text of a banner. *)
Definition is_banner (v : bytes) : Prop := printable v /\ strncmp0 v (cstr "SSH-") 4 = true.

(** The connection with the banner of the peer. *)
Definition with_peer_banner (v : bytes) c : conn :=
  set_state SSH_SESSION_STATE_BANNER_RECEIVED (if is_server (base c) then set_client_banner (Some v) c else set_server_banner (Some v) c).

Lemma zdrop_line (l rest : bytes) : zdrop (zlen (clean l) + 1) (l ++ lf :: rest) = rest.
Proof.
  rewrite zlen_clean. replace (zlen l + 1) with (zlen (l ++ [lf])) by (rewrite zlen_app; done).
  change (lf :: rest) with ([lf] ++ rest). rewrite app_assoc, zdrop_app_le, zdrop_all by lia. done.
Qed.

Lemma zdrop_answer (l rest : bytes) x : zdrop (zlen l + 1) (l ++ x :: rest) = rest.
Proof.
  replace (zlen l + 1) with (zlen (l ++ [x])) by (rewrite zlen_app; done).
  change (x :: rest) with ([x] ++ rest). rewrite app_assoc, zdrop_app_le, zdrop_all by lia. done.
Qed.

(** Passing the bytes of a line. *)
Lemma pass_line (l rest : bytes) x :
  let data := clean l ++ x :: rest in
  (if (0 <=? zlen (clean l) + 1) && (zlen (clean l) + 1 <=? zlen data) then zdrop (zlen (clean l) + 1) data else data) = rest.
Proof.
  cbn zeta. pose proof (zlen_nonneg (clean l)). pose proof (zlen_nonneg rest). rewrite zlen_app, zlen_cons.
  rewrite (proj2 (Z.leb_le _ _)) by lia. rewrite (proj2 (Z.leb_le _ _)) by lia. apply zdrop_answer.
Qed.

Lemma delivers_passed_over c l l' rest n : awaits_banner c -> passed_over c l -> clean l' = clean l ->
  delivers (S n) (l' ++ lf :: rest) c = delivers n rest c.
Proof.
  intros (Hr & Ho & Hs) (Hc & Hl & Hn & Hv) Hcl. pose proof (one_line_clean _ _ Hcl Hl) as Hl'. pose proof (zlen_clean_eq _ _ Hcl) as Hz.
  cbn [deliver]. unfold socket_data, callback_receive_banner, client_receive_banner. rewrite Hr, Hc, Hs, ?(bool_decide_eq_true_2 _ eq_refl). cbn [negb].
  rewrite scan_line by (done || (rewrite Hz; change (zlen []) with 0; lia)). rewrite app_nil_l, zdrop_line. cbn zeta. rewrite Hcl, Hv.
  cbn [mbind option_bind]. rewrite <- Hcl.
  rewrite pass_line, Ho. pose proof (zlen_nonneg (clean l')). rewrite (proj2 (Z.ltb_lt _ _)) by lia. done.
Qed.

Lemma delivers_lines c l : forall y rest n, awaits_banner c -> Forall (passed_over c) l -> clean y = clean (lines l) ->
  delivers (length l + n) (y ++ rest) c = delivers n rest c.
Proof.
  induction l as [|l ls IH]; intros y rest n Hc Hl Hy.
  - destruct y; [done|discriminate].
  - inversion Hl as [|? ? Hl1 Hl2]; subst. cbn [lines map concat] in Hy. apply clean_inv_app in Hy as (y1 & y2 & -> & Hy1 & Hy2).
    apply clean_inv_app in Hy1 as (y0 & z & -> & Hy0 & Hz). apply clean_inv_lf in Hz as (z' & -> & Hz'). destruct z'; [|discriminate].
    rewrite <- !app_assoc. cbn [app length Nat.add]. rewrite (delivers_passed_over c l) by done. by apply IH.
Qed.

Lemma delivers_part c p n : awaits_banner c -> one_line p -> zlen p <= banner_limit c + 1 -> delivers (S n) p c = Some (clean p, c).
Proof.
  intros (Hr & Ho & Hs) Hp Hn. unfold banner_limit in Hn. cbn [deliver]. unfold socket_data, callback_receive_banner, client_receive_banner, server_receive_banner.
  rewrite Hr, Hs, ?(bool_decide_eq_true_2 _ eq_refl). cbn [negb]. pose proof (zlen_nonneg (clean p)) as Hz.
  destruct (is_server (base c)); rewrite scan_part by (done || (change (zlen []) with 0; lia)); cbn [mbind option_bind];
    rewrite (proj2 (Z.leb_le 0 _)) by lia; rewrite ?app_nil_l, (proj2 (Z.leb_le _ _)) by done; done.
Qed.

Lemma until_nul_banner v : printable v -> until_nul (clean (v ++ [Byte.x0d])) = v.
Proof.
  induction 1 as [|x v (? & Hx & Hx0) _ IH]; [done|]. cbn [app clean map]. unfold no_return at 1. rewrite (proj2 (byte_eqb_neq x _)) by done.
  cbn [until_nul]. rewrite (proj2 (byte_eqb_neq x _)) by done. f_equal. exact IH.
Qed.

Lemma delivers_banner c v y rest n : awaits_banner c -> is_banner v -> zlen v <= banner_limit c -> strdup v = Some v ->
  clean y = clean (v ++ terminator) ->
  delivers (S n) (y ++ rest) c =
    c1 ← callback (with_peer_banner v c); if socket_open c1 then delivers n rest c1 else Some (rest, c1).
Proof.
  intros (Hr & Ho & Hs) (Hb & Hv) Hn Hd Hy.
  change terminator with ([Byte.x0d] ++ [lf]) in Hy. rewrite app_assoc in Hy. apply clean_inv_app in Hy as (l' & z & -> & Hl & Hz).
  apply clean_inv_lf in Hz as (z' & -> & Hz'). destruct z'; [|discriminate]. rewrite <- app_assoc. cbn [app].
  assert (Hl1 : one_line (v ++ [Byte.x0d])).
  { apply Forall_app. split; [|by repeat constructor]. eapply Forall_impl; [exact Hb|]. by intros x (? & _). }
  pose proof (one_line_clean _ _ Hl Hl1) as Hl'. pose proof (zlen_clean_eq _ _ Hl) as Hz. rewrite zlen_app in Hz. change (zlen [Byte.x0d]) with 1 in Hz.
  unfold banner_limit in Hn. cbn [deliver]. unfold socket_data, callback_receive_banner, client_receive_banner, server_receive_banner, with_peer_banner.
  rewrite Hr, Hs, ?(bool_decide_eq_true_2 _ eq_refl). cbn [negb]. pose proof (zlen_nonneg (clean l')).
  destruct (is_server (base c)); rewrite scan_line by (done || (change (zlen []) with 0; lia)); rewrite app_nil_l, zdrop_line; cbn zeta.
  all: rewrite Hl, (until_nul_banner _ Hb), ?Hv, Hd; destruct (ssh_connection_callback _ _ _ _ _ _ _ _) as [c1|]; [|done]; cbn [mbind option_bind];
    rewrite <- Hl, pass_line, (proj2 (Z.ltb_lt _ _)) by lia; done.
Qed.

Lemma feeds_app chunks more : forall d c, feeds (chunks ++ more) d c = '(d, c) ← feeds chunks d c; feeds more d c.
Proof.
  induction chunks as [|ch chunks IH]; intros d c; [done|]. cbn [feed app]. destruct (deliver _ _ _ _ _ _ _ _ _ _ _) as [[d1 c1]|]; [apply IH|done].
Qed.

Lemma length_lines l : (length l <= length (lines l))%nat.
Proof.
  induction l as [|x l IH]; [done|]. cbn [lines map concat length]. rewrite !length_app. cbn [length].
  change (concat (map (fun l => l ++ [lf]) l)) with (lines l). lia.
Qed.

(** The chunks before the end of the banner leave the last line, incomplete, in the buffer of the socket. *)
Lemma feeds_prefix c last tail : awaits_banner c -> one_line last -> zlen last <= banner_limit c + 1 -> tail <> [] ->
  forall chunks pre p0, Forall (passed_over c) pre -> (p0 ++ concat chunks) ++ tail = lines pre ++ last ++ [lf] -> one_line p0 ->
  exists p more, feeds chunks (clean p0) c = Some (clean p, c) /\ p ++ tail = lines more ++ last ++ [lf] /\ Forall (passed_over c) more.
Proof.
  intros Hc Hlast Hlen Ht. induction chunks as [|ch chunks IH]; intros pre p0 Hpre Heq Hp0.
  - cbn [concat] in Heq. rewrite app_nil_r in Heq. exists p0, pre. by split_and!.
  - cbn [concat] in Heq. rewrite app_assoc, <- (app_assoc (p0 ++ ch)) in Heq.
    destruct (prefix_lines _ _ _ _ Heq) as (dn & p & more & -> & Hq & Hp & Hrest & Hz).
    { intros Hn. apply app_eq_nil in Hn as [_ Hn]. by apply Ht. }
    { done. }
    { eapply Forall_impl; [exact Hpre|]. by intros l (_ & Hl & _). }
    apply Forall_app in Hpre as [Hdn Hmore]. rewrite app_assoc in Hrest. destruct (IH more p Hmore Hrest Hp) as (p' & more' & Hf & Hend & Hm').
    exists p', more'. split_and!; [|done|done]. cbn [feed].
    assert (Hcl : clean (clean p0 ++ ch) = clean (lines dn ++ p)) by (by rewrite <- Hq, !clean_app, clean_idem).
    apply clean_inv_app in Hcl as (y & p1 & Hy & Hyl & Hp1). rewrite Hy.
    assert (Hfuel : (length dn <= length (y ++ p1))%nat).
    { rewrite length_app. pose proof (zlen_clean_eq _ _ Hyl) as Hyz. unfold zlen in Hyz. pose proof (length_lines dn). lia. }
    replace (S (length (y ++ p1)))%nat with (length dn + S (length (y ++ p1) - length dn))%nat by lia.
    rewrite delivers_lines by done. rewrite delivers_part; [|done|by eapply one_line_clean|].
    + cbn [mbind option_bind]. by rewrite Hp1.
    + rewrite (zlen_clean_eq _ _ Hp1). destruct more as [|l more]; [lia|]. inversion Hmore as [|? ? (Hcl & _ & Hl & _)]; subst. unfold banner_limit. rewrite Hcl. lia.
Qed.

(** (C3) The banner a side sends is the one its peer takes for it.  The banner is printable and as long as the
    receiver takes: up to 127 bytes for a server, up to 253 for a client; the lines before it, if any, are such
    as a client passes over (none for a server; at most 256 bytes each, none that begins with SSH-).  Then, whatever the bytes
    after it and the pieces in which the socket reads them, the loop over what was read calls the connection
    callback once, in the connection that has the banner the sender recorded as its own, and goes on with exactly the bytes after it. *)
Theorem banner_received_as_sent p p' c v pre chunks tail rest :
  ssh_send_banner libssh_version p (is_server (base p)) = Some (SSH_OK, p') -> own_banner p' = Some v ->
  buffer_wf (socket_out (base p)) -> contents (socket_out (base p)) = lines pre ->
  printable v -> zlen v <= Z.min (banner_limit c) 253 -> malloc_never_fails ->
  awaits_banner c -> Forall (passed_over c) pre ->
  concat chunks ++ tail = contents (socket_out (base p')) -> tail <> [] ->
  exists n, (length rest < n)%nat /\
    feeds (chunks ++ [tail ++ rest]) [] c =
      c1 ← callback (with_peer_banner v c); if socket_open c1 then delivers n rest c1 else Some (rest, c1).
Proof.
  intros Hsend Hv Hwf Hout Hpr Hlen Hmem Hc Hpre Hcs Ht.
  destruct (send_banner_sent _ _ Hsend Hwf) as (v' & Hv' & Hssh & Hcont). assert (v' = v) by congruence. subst v'. rewrite Hcont, Hout in Hcs by lia.
  change terminator with ([Byte.x0d] ++ [lf]) in Hcs. rewrite (app_assoc v) in Hcs.
  destruct (feeds_prefix c (v ++ [Byte.x0d]) tail) with (chunks := chunks) (pre := pre) (p0 := @nil byte) as (p0 & more & Hf & Hend & Hmore); try done.
  { apply Forall_app. split; [|by repeat constructor]. eapply Forall_impl; [exact Hpr|]. by intros x (? & _). }
  { rewrite zlen_app. change (zlen [Byte.x0d]) with 1. lia. }
  { by constructor. }
  rewrite feeds_app. change (clean []) with (@nil byte) in Hf. rewrite Hf. cbn [mbind option_bind feed].
  assert (Hcl : clean (clean p0 ++ tail) = clean (lines more ++ v ++ terminator)).
  { rewrite clean_app, clean_idem, <- clean_app, Hend. by rewrite <- app_assoc. }
  apply clean_inv_app in Hcl as (y & z & Hy & Hyl & Hz). rewrite app_assoc, Hy, <- app_assoc.
  pose proof (zlen_clean_eq _ _ Hyl) as Hyn. pose proof (zlen_clean_eq _ _ Hz) as Hzn. pose proof (length_lines more) as Hm. rewrite zlen_app in Hzn. unfold zlen in Hyn, Hzn.
  change (length terminator) with 2%nat in Hzn. set (k := (length (y ++ z ++ rest) - length more)%nat).
  assert (Hk : S (length (y ++ z ++ rest)) = (length more + S k)%nat) by (unfold k; rewrite !length_app; lia).
  exists k. split; [unfold k; rewrite !length_app; lia|]. rewrite Hk, delivers_lines by done.
  assert (Hd : strdup v = Some v) by (unfold strdup; rewrite alloc_ok by (done || (pose proof (zlen_nonneg v); lia)); done).
  rewrite (delivers_banner c v) by (done || lia). destruct (ssh_connection_callback _ _ _ _ _ _ _ _) as [c1|]; [|done]. cbn [mbind option_bind].
  destruct (socket_open c1); [|done]. by destruct (deliver _ _ _ _ _ _ _ _ _ _ _) as [[? ?]|].
Qed.
End Banners.

(** ** A server with a banner of its own, and a client *)

Import HandshakeDemo.

Module BannerDemo.
Definition peer (srv : bool) (st : ssh_session_state_e) (out : bytes) : session NewKeysDemo.state (@prng Demo.random) (@handshake N_bignum) :=
  mk_session (mkProto (negb srv) srv 0 st DH_STATE_INIT SSH_CHANNEL_REQ_STATE_NONE SSH_AUTH_SERVICE_NONE SSH_AUTH_STATE_NONE)
    None (Some zero_buffer) [] PACKET_STATE_INIT (mk_packet 0 0 0) 0 0 None (Some (NewKeysDemo.crypto 0 0 None))
    None 0 0 (mk_timestamp 0 0) (mk_timestamp 0 0) (Demo.buffer_of out) tt
    (set_banners None None (KexDemo.hs [] [])).
Definition at_start (srv : bool) (st : ssh_session_state_e) (out : bytes) : conn :=
  mk_conn (peer srv st out) false true 0 (Some (cstr "demo_1.0")) None true ReadBanner (None, None, None, None) None no_privkey.

Definition server : conn := at_start true SSH_SESSION_STATE_NONE (lines [cstr "hello"]).
Definition client : conn := at_start false SSH_SESSION_STATE_SOCKET_CONNECTED [].
Definition sent : conn := match ssh_send_banner version server true with Some (_, c) => c | None => server end.
Lemma server_sends : ssh_send_banner version server true = Some (SSH_OK, sent).
Proof.
  assert (Hs : match ssh_send_banner version server true with Some (rc, _) => rc =? SSH_OK | None => false end = true) by (vm_compute; reflexivity).
  unfold sent. revert Hs. generalize (ssh_send_banner version server true). intros [[rc c]|] Hs; [|discriminate]. by apply Z.eqb_eq in Hs as ->.
Qed.

(** The text comes in three pieces; the last has the start of a packet too. *)
Definition pieces : list bytes := [cstr "hel"; cstr "lo" ++ lf :: cstr "SSH-2.0-demo_1"].
Definition last_piece : bytes := cstr ".0" ++ terminator.
Definition packet_start : bytes := [Byte.x00; Byte.x00; Byte.x03].
Definition no_packets (_ : bytes) (c : conn) : run (Z * conn) := Some (0, c).
End BannerDemo.

Lemma banner_received_as_sent_witness :
  exists n, (3 < n)%nat /\
    feed fresh tmp0 false None version errno no_init BannerDemo.no_packets (BannerDemo.pieces ++ [BannerDemo.last_piece ++ BannerDemo.packet_start]) [] BannerDemo.client =
      c1 ← ssh_connection_callback fresh tmp0 false None version errno no_init (with_peer_banner (cstr "SSH-2.0-demo_1.0") BannerDemo.client);
      if socket_open c1 then deliver fresh tmp0 false None version errno no_init BannerDemo.no_packets n BannerDemo.packet_start c1
      else Some (BannerDemo.packet_start, c1).
Proof.
  apply (banner_received_as_sent fresh tmp0 false None version errno no_init BannerDemo.no_packets BannerDemo.server BannerDemo.sent
    BannerDemo.client (cstr "SSH-2.0-demo_1.0") [cstr "hello"] BannerDemo.pieces BannerDemo.last_piece BannerDemo.packet_start).
  - exact BannerDemo.server_sends.
  - vm_compute. reflexivity.
  - apply Demo.buffer_of_wf. vm_compute. discriminate.
  - reflexivity.
  - repeat constructor; discriminate.
  - vm_compute. discriminate.
  - apply KdfDemo.calloc_never_fails.
  - by split_and!.
  - repeat constructor; try discriminate; vm_compute; try discriminate; reflexivity.
  - vm_compute. reflexivity.
  - discriminate.
Defined.

(** The client goes on to send its proposal, and the packet waits. *)
Example client_has_banner :
  option_map (fun '(d, c) => (d, state_of c, serverbanner (upper (base c)), 0 <? zlen (contents (socket_out (base c)))))
    (feed fresh tmp0 false None version errno no_init BannerDemo.no_packets (BannerDemo.pieces ++ [BannerDemo.last_piece ++ BannerDemo.packet_start]) [] BannerDemo.client)
  = Some (BannerDemo.packet_start, SSH_SESSION_STATE_INITIAL_KEX, Some (cstr "SSH-2.0-demo_1.0"), true).
Proof. vm_compute. reflexivity. Qed.
